(* ===== verification/_CoqProject ===== *)
-Q . S2P
Prelude.v
Layout.v
Bytes.v
Spinlock.v
Format.v
CString.v
Segments.v
Devices.v
Sleeplock.v
Bio.v
Ide.v
Log.v
Console.v
Kbd.v
Kalloc.v
Vm.v
VmSpec.v
Fs.v
FsSpec.v
FsFile.v
FsDir.v
FsRef.v
Directory.v
Mkfs.v
MkfsSpec.v
MkfsBoot.v
File.v
Args.v
Sysfile.v
SysfileSpec.v
Exec.v
ExecSpec.v
ExecLoad.v
VmOwner.v
ExecBoot.v
ProcTable.v
Scheduler.v
ProcInv.v
ProcSystem.v
ProcSpec.v
Asm.v
Kernel.v
KernelSpec.v
ForkSpec.v
KernelExec.v
Ulib.v
Grep.v
Sh.v
ShRun.v
Umalloc.v
Progs.v
UserProgs.v
Mp.v
Bootmain.v
Startup.v
