(* ===== verification/Prelude.v ===== *)
(** * A verification of the xv6 kernel with its added system calls

    The program is the teaching operating system xv6 for the 32-bit x86, a
    Unix-like kernel of some five thousand lines of C, changed here by a
    priority scheduler (src/proc.c), a variant of it with aging
    (src/proc_3.c), and system calls that count the calls made, list the
    processes and read and set priorities (src/syscall.c, src/sysproc.c).

    ** The parts

    A process enters the kernel through [trap] (src/trap.c), which dispatches
    a system call through the table of src/syscall.c.  Calls about processes
    (src/sysproc.c) go to the process table (src/proc.c); calls about files
    (src/sysfile.c, src/exec.c) go to the file table and the pipes
    (src/file.c, src/pipe.c), the file system (src/fs.c), the log
    (src/log.c), the buffer cache (src/bio.c) and the disk (src/ide.c, or
    src/memide.c).  Memory is that of src/kalloc.c and src/vm.c.  All of this
    is protected by the locks of src/spinlock.c and src/sleeplock.c.
    User code and the C code of the kernel meet in assembly: the system call
    stubs (src/usys.S), the trap entry (src/vectors.S, src/trapasm.S) and the
    context switch (src/swtch.S).

    ** The files

    - Prelude.v (this file): machine integers, the monad of stateful code,
      events, list lemmas, tactics.  Layout.v: constants and address
      arithmetic (src/param.h, src/memlayout.h, src/mmu.h).  Bytes.v: bytes
      and little-endian words.
    - Spinlock.v, Sleeplock.v: the locks, and the interleavings of the CPUs
      or processes that use one.
    - Format.v (formatted output and [atoi]), CString.v (src/string.c),
      Console.v, Kbd.v: the console and what it prints with.
    - Segments.v (descriptor tables, src/vm.c and src/trap.c), Devices.v
      (src/lapic.c, src/ioapic.c, src/picirq.c, src/uart.c): the processor's
      tables, the interrupt controllers, the clock and the serial line.
    - Kalloc.v, Vm.v: physical pages, page tables, address spaces; VmSpec.v
      proves what whole address spaces are after the operations on them,
      VmOwner.v that every page has one owner in every sequence of them.
    - Bio.v, Ide.v, Log.v: the disk from below.  Fs.v: all of src/fs.c;
      FsSpec.v, FsFile.v, FsDir.v, FsRef.v, Directory.v prove it, layer by
      layer.  Mkfs.v: the program that makes the image; MkfsSpec.v: the
      image it makes; MkfsBoot.v: a kernel that starts on the image.
    - File.v, Args.v, Sysfile.v, SysfileSpec.v: open files, pipes, and the
      system calls on them.  Exec.v: program loading; ExecSpec.v, ExecLoad.v,
      ExecBoot.v prove it, from the stack upwards: the stack, the segments,
      and a file of a disk that mkfs made.
    - ProcTable.v, Scheduler.v: all of src/proc.c, and the scheduler of
      src/proc_3.c; ProcInv.v, ProcSystem.v, ProcSpec.v prove them.
    - Asm.v: the assembly between user code, the C code of the kernel and the
      processes (src/swtch.S, src/trapasm.S, src/vectors.S, src/usys.S,
      src/initcode.S), for a small x86.
    - Kernel.v, KernelSpec.v: everything together, with [syscall] and [trap];
      ForkSpec.v: [fork] with the memory it copies; KernelExec.v: [exec] with
      the memory it replaces.
    - Ulib.v, Umalloc.v (src/umalloc.c), Grep.v, Sh.v (the parser of the
      shell), ShRun.v (what the shell runs), Progs.v (src/wc.c, src/cat.c,
      src/ls.c), UserProgs.v (src/init.c and the programs that are a few
      system calls): user programs and their library.
    - Mp.v (src/mp.c), Bootmain.v (src/bootmain.c), Startup.v (src/bootasm.S,
      src/entry.S, src/entryother.S, [startothers] of src/main.c): before the
      kernel runs.

    ** How code is modelled

    A C function is a definition of the same name in the monad
    [M S A := S → outcome S A].  Its outcomes are a normal return with the
    events it caused ([Ret]), a call of [panic] ([Panic]), a process that
    stops to be switched away ([Blocked], with the channel it sleeps on), a
    spin on a lock that is held ([Spins]), and behaviour that C does not
    define or a loop that used up its fuel ([Undef]).  Each component has a
    state of its own, a record of the C variables; a component that calls
    another contains its state and runs its code through [zoom].  Pointers to
    elements of a static array are indices, null pointers are [None].
    Integers are [Z], and every operation that can leave the range of its C
    type is followed by [u32], [i32], [u8] and so on.

    A function that can sleep ends at the sleep with [Blocked]; what it does
    when it runs again is a definition of its own.  Interleaving is therefore
    explicit: the relations of Spinlock.v, Sleeplock.v and ProcSystem.v say
    which pieces can run between which.

    Loops over data are structural where the code allows it and have fuel
    otherwise.  The fuel is a bound computed from the arguments (the number
    of blocks or pages in a range, the length of a path, the size of a
    table), and the theorems state that the operation returns, so that the
    bound is shown to be enough, not assumed.

    ** What the theorems show

    - Processes: the invariant of the whole table in every reachable state
      ([ProcSystem.system_invariant]), the exact effect of [fork], [exit],
      [wait], [kill] and the priority calls (ProcSpec.v), what the scheduler
      picks, and that the aging scheduler starves no process (Scheduler.v).
    - Locks: mutual exclusion, no reachable panic, interrupts off while a
      spin lock is held (Spinlock.v); no lost wakeup of a sleep lock
      (Sleeplock.v).
    - Disk: the driver serves requests in order (Ide.v); the cache refines a
      disk with write-back and locks (Bio.v); a transaction is atomic across
      crashes, of recovery too (Log.v).
    - Files: writing and reading back the contents of a file (FsFile.v);
      directories as finite maps (Directory.v); path lookup (FsDir.v,
      FsRef.v); pipes as queues (File.v); descriptors and reference counts
      through all the file system calls (SysfileSpec.v).
    - The image of mkfs is a file system as the kernel reads it (MkfsSpec.v),
      and a kernel that boots on it finds its files by path and reads their
      bytes (MkfsBoot.v).
    - Memory: the free list (Kalloc.v), mapping and unmapping (Vm.v), copying,
      growing and freeing an address space, with every frame accounted for
      and a bound on the free pages with which an operation can fail
      (VmSpec.v), the owner of every page (VmOwner.v), the memory of a forked
      process (ForkSpec.v), the checks of user addresses (Args.v).
    - Programs: after [exec] of a file of the disk the process's memory is
      what the file says, with the arguments on the stack, or everything is as
      before (ExecSpec.v, ExecLoad.v, ExecBoot.v, KernelExec.v).
    - The border to user code: only the gate of system calls is open to it
      (Segments.v); a trap saves and restores every register, a switch comes
      back to its caller, a child starts in user mode with 0 in [eax], and a
      stub passes its arguments where the kernel looks for them (Asm.v).
    - Console, keyboard, strings, number formatting: line discipline, bounds,
      round trips (Console.v, Kbd.v, CString.v, Format.v).
    - System calls: counting, sleeping, and that a killed process does not
      return to user mode (KernelSpec.v).
    - User programs: the matcher and the loop of grep (Grep.v); the parser of
      the shell inverts the printing of commands and ends on every line
      (Sh.v), and the descriptors of the programs it runs are those the
      command says (ShRun.v); the allocator (Umalloc.v); that init keeps a
      shell running and what forktest finds, for every kernel (UserProgs.v).
    - Boot: the table of CPUs (Mp.v), the loading of the kernel (Bootmain.v),
      interrupts routed to the CPUs (Devices.v), the way from the boot sector
      to [main] and the start of the other CPUs (Startup.v).

    ** What is not modelled

    [main] and [mpmain] (src/main.c) call the initialisations one after the
    other; these are modelled with their components, but not composed, as
    most of them set up state that the other theorems assume for any value.
    The protection that a processor applies when it loads a segment register,
    and caches such as that of address translation, are not part of its model.
    src/usertests.c is a collection of test routines for calls that are
    modelled and verified here; src/assig2_3.c and src/assig2_4.c are loops
    over floating point numbers that print letters.  Header files that only
    declare, build files, and the copies of sources under src/2015CS10254,
    whose text is that of the files in src, have no model of their own, nor has
    the rest of src/proc_3.c, which is the text of src/proc.c.

    The time at which hardware interrupts is not modelled: the theorems hold
    for every order of the steps.  src/memide.c is the disk below Bio.v, so
    that a disk request there completes in the call; that the driver of
    src/ide.c serves a request as if at once is the theorem of Ide.v. *)
From stdpp Require Export prelude list gmap strings.
From Stdlib Require Export ZArith Lia.
Open Scope Z_scope.

(** * Machine integers *)

(** C's [uint], [ushort] and [uchar] are kept as [Z] in their range; every
    arithmetic operation of the source that can leave the range is followed
    by one of these conversions. *)
Definition u32 (x : Z) : Z := x mod 4294967296.
Definition u16 (x : Z) : Z := x mod 65536.
Definition u8 (x : Z) : Z := x mod 256.

(** Conversion to the signed types [int], [short] and [char] (two's
    complement, as gcc defines it). *)
Definition i32 (x : Z) : Z := (x + 2147483648) mod 4294967296 - 2147483648.
Definition i16 (x : Z) : Z := (x + 32768) mod 65536 - 32768.
Definition i8 (x : Z) : Z := (x + 128) mod 256 - 128.

(** * Bytes and strings *)

(** The bytes of a string literal. *)
Definition str (s : string) : list Z :=
  (λ a, Z.of_nat (Ascii.nat_of_ascii a)) <$> String.list_ascii_of_string s.

(** The code of a character literal. *)
Definition chr (s : string) : Z := default 0 (head (str s)).

(** The C string that starts a byte array: the bytes before the first NUL. *)
Fixpoint cstr (l : list Z) : list Z :=
  match l with
  | [] => []
  | c :: l' => if bool_decide (c = 0) then [] else c :: cstr l'
  end.

(** * Observable effects *)

(** Channels: in C the address a process sleeps on.  Distinct objects have
    distinct addresses, so the address is represented by the object. *)
Inductive chan : Type :=
| CProc (i : nat)        (* &ptable.proc[i], slept on by wait() *)
| CTicks                 (* &ticks *)
| CLog                   (* &log *)
| CBuf (i : nat)         (* &bcache.buf[i], slept on by iderw() *)
| CBufLock (i : nat)     (* &bcache.buf[i].lock *)
| CInodeLock (i : nat)   (* &icache.inode[i].lock *)
| CPipeRead (p : Z)      (* &p->nread *)
| CPipeWrite (p : Z)     (* &p->nwrite *)
| CInput                 (* &input.r *)
| CSched.                (* gave up the CPU in sched(); the process table
                            says what the process waits for *)

#[export] Instance chan_eq_dec : EqDecision chan.
Proof. solve_decision. Defined.

(** What a run of kernel code does that its own component's state does not
    show: wakeups of sleeping processes, characters on the console, sectors
    written to the disk, values written to an I/O port. *)
Inductive event : Type :=
| EvWakeup (c : option chan)
| EvPutc (c : Z)
| EvDisk (dev bno : Z) (data : list Z)
| EvOut (port v : Z).

#[export] Instance event_eq_dec : EqDecision event.
Proof. solve_decision. Defined.

(** * Outcomes and the kernel monad *)

(** A piece of C code run in a state of type [S] returns, calls [panic],
    goes to sleep on a channel, spins on a lock another CPU holds, or has
    undefined behaviour (a null pointer or an array index out of range). *)
Inductive outcome (S A : Type) : Type :=
| Ret (a : A) (s : S) (t : list event)
| Panic (msg : string) (s : S)
| Blocked (c : chan) (s : S) (t : list event)
| Spins (s : S)
| Undef.
Arguments Ret {S A} _ _ _.
Arguments Panic {S A} _ _.
Arguments Blocked {S A} _ _ _.
Arguments Spins {S A} _.
Arguments Undef {S A}.

Definition M (S A : Type) : Type := S → outcome S A.

Definition prepend {S A} (t : list event) (o : outcome S A) : outcome S A :=
  match o with
  | Ret a s t' => Ret a s (t ++ t')
  | Panic m s => Panic m s
  | Blocked c s t' => Blocked c s (t ++ t')
  | Spins s => Spins s
  | Undef => Undef
  end.

#[export] Instance M_ret S : MRet (M S) := λ A a s, Ret a s [].
#[export] Instance M_bind S : MBind (M S) := λ A B f m s,
  match m s with
  | Ret a s' t => prepend t (f a s')
  | Panic msg s' => Panic msg s'
  | Blocked c s' t => Blocked c s' t
  | Spins s' => Spins s'
  | Undef => Undef
  end.

Definition get {S} : M S S := λ s, Ret s s [].
Definition gets {S A} (f : S → A) : M S A := λ s, Ret (f s) s [].
Definition modify {S} (f : S → S) : M S unit := λ s, Ret tt (f s) [].
Definition panic {S A} (msg : string) : M S A := λ s, Panic msg s.
Definition undef {S A} : M S A := λ _, Undef.
Definition block {S A} (c : chan) : M S A := λ s, Blocked c s [].
(** [for(;;);] *)
Definition spin {S A} : M S A := λ s, Spins s.
Definition emit {S} (e : event) : M S unit := λ s, Ret tt s [e].

(** [wakeup(chan)] seen from a component other than the process table: the
    channel is announced, and the process table acts on it. *)
Definition announce {S} (c : chan) : M S unit := emit (EvWakeup (Some c)).

(** [if(cond) panic(msg);] *)
Definition panic_if {S} (b : bool) (msg : string) : M S unit :=
  if b then panic msg else mret tt.

(** An option read from an array or a pointer: [None] is undefined. *)
Definition deref {S A} (o : option A) : M S A :=
  match o with Some a => mret a | None => undef end.

(** Run code of a component inside a larger state. *)
Definition zoom {S T A} (getT : S → T) (putT : T → S → S) (m : M T A) : M S A := λ s,
  match m (getT s) with
  | Ret a t' tr => Ret a (putT t' s) tr
  | Panic msg t' => Panic msg (putT t' s)
  | Blocked c t' tr => Blocked c (putT t' s) tr
  | Spins t' => Spins (putT t' s)
  | Undef => Undef
  end.

(** [for(x in l) f(x);] *)
Fixpoint foreach {S A} (l : list A) (f : A → M S unit) : M S unit :=
  match l with
  | [] => mret tt
  | x :: l' => f x ;; foreach l' f
  end.

(** [for(x in l) acc = f(acc, x);] *)
Fixpoint foldM {S A B} (f : B → A → M S B) (b : B) (l : list A) : M S B :=
  match l with
  | [] => mret b
  | x :: l' => b' ← f b x; foldM f b' l'
  end.

(** * Weakest preconditions (total: the code must return) *)

Definition wp {S A} (m : M S A) (Q : A → S → list event → Prop) (s : S) : Prop :=
  match m s with Ret a s' t => Q a s' t | _ => False end.

Lemma wp_Ret {S A} (m : M S A) Q s :
  wp m Q s ↔ ∃ a s' t, m s = Ret a s' t ∧ Q a s' t.
Proof. unfold wp. destruct (m s); naive_solver. Qed.

Lemma prepend_nil {S A} (o : outcome S A) : prepend [] o = o.
Proof. by destruct o. Qed.

Lemma prepend_prepend {S A} t1 t2 (o : outcome S A) :
  prepend t1 (prepend t2 o) = prepend (t1 ++ t2) o.
Proof. destruct o; simpl; by rewrite ?(assoc_L (++)). Qed.

Lemma wp_ret {S A} (a : A) Q (s : S) : Q a s [] → wp (mret a) Q s.
Proof. done. Qed.

Lemma wp_bind {S A B} (m : M S A) (f : A → M S B) Q s :
  wp m (λ a s1 t1, wp (f a) (λ b s2 t2, Q b s2 (t1 ++ t2)) s1) s →
  wp (m ≫= f) Q s.
Proof.
  unfold wp, mbind, M_bind. destruct (m s); try done. by destruct (f a s0).
Qed.

Lemma wp_mono {S A} (m : M S A) (Q Q' : A → S → list event → Prop) s :
  wp m Q s → (∀ a s' t, Q a s' t → Q' a s' t) → wp m Q' s.
Proof. unfold wp. destruct (m s); naive_solver. Qed.

Lemma wp_zoom {S T A} (g : S → T) (p : T → S → S) (m : M T A) Q s :
  wp m (λ a t tr, Q a (p t s) tr) (g s) → wp (zoom g p m) Q s.
Proof. unfold wp, zoom. by destruct (m (g s)). Qed.

(** Forward symbolic execution: one known step of a sequence. *)
Lemma bind_run {S A B} (m : M S A) (f : A → M S B) s a s' t :
  m s = Ret a s' t → (m ≫= f) s = prepend t (f a s').
Proof. intros H. unfold mbind, M_bind. by rewrite H. Qed.

Lemma bind_mret {S A B} (a : A) (f : A → M S B) s : (mret a ≫= f) s = f a s.
Proof. unfold mbind, M_bind, mret, M_ret. apply prepend_nil. Qed.

Lemma bind_get {S B} (f : S → M S B) s : (get ≫= f) s = f s s.
Proof. unfold mbind, M_bind, get. apply prepend_nil. Qed.

Lemma bind_modify {S B} (g : S → S) (f : unit → M S B) s : (modify g ≫= f) s = f tt (g s).
Proof. unfold mbind, M_bind, modify. apply prepend_nil. Qed.

Lemma bind_blocked {S A B} (m : M S A) (f : A → M S B) s c s' t :
  m s = Blocked c s' t → (m ≫= f) s = Blocked c s' t.
Proof. intros H. unfold mbind, M_bind. by rewrite H. Qed.

Lemma bind_Ret_inv {S A B} (m : M S A) (f : A → M S B) s b s2 t :
  (m ≫= f) s = Ret b s2 t →
  ∃ a s1 t1 t2, m s = Ret a s1 t1 ∧ f a s1 = Ret b s2 t2 ∧ t = t1 ++ t2.
Proof.
  unfold mbind, M_bind. destruct (m s) as [a s1 t1| | | |]; try done.
  destruct (f a s1) as [b' s2' t2| | | |] eqn:E; try done.
  simpl. intros [= -> -> <-]. naive_solver.
Qed.

Lemma zoom_Ret_inv {S T A} (g : S → T) (p : T → S → S) (m : M T A) s a s' t :
  zoom g p m s = Ret a s' t → ∃ t', m (g s) = Ret a t' t ∧ s' = p t' s.
Proof. unfold zoom. destruct (m (g s)); naive_solver. Qed.

Lemma zoom_run {S T A} (g : S → T) (p : T → S → S) (m : M T A) s a t' t :
  m (g s) = Ret a t' t → zoom g p m s = Ret a (p t' s) t.
Proof. intros H. unfold zoom. by rewrite H. Qed.

(** A loop that only modifies the state is a fold. *)
Lemma foreach_modify {S A} (l : list A) (f : A → S → S) s :
  foreach l (λ x, modify (f x)) s = Ret tt (foldl (λ s x, f x s) s l) [].
Proof.
  revert s; induction l as [|x l IH]; intros s; [done|].
  simpl. unfold mbind, M_bind, modify at 1. by rewrite IH.
Qed.

Lemma wp_foreach {S A} (I : list A → S → Prop) (l : list A) (f : A → M S unit) s :
  I [] s →
  (∀ done x rest s, l = done ++ x :: rest → I done s →
     wp (f x) (λ _ s' _, I (done ++ [x]) s') s) →
  wp (foreach l f) (λ _ s' _, I l s') s.
Proof.
  intros H0 Hstep.
  enough (∀ rest done s, l = done ++ rest → I done s →
    wp (foreach rest f) (λ _ s' _, I l s') s) as H by (by eapply (H l [])).
  clear s H0. induction rest as [|x rest IH]; intros dn s Hl HI; simpl.
  - rewrite app_nil_r in Hl. by rewrite Hl.
  - apply wp_bind. eapply wp_mono; [by eapply Hstep|].
    intros a s1 t1 HI1. eapply wp_mono; [eapply IH; [|exact HI1]|done].
    by rewrite <- (assoc_L (++)).
Qed.

(** * Tactics *)

(** Split a successful run of a sequence into its steps. *)
Ltac inv_bind H :=
  let a := fresh "a" in let s1 := fresh "s" in let t1 := fresh "t" in
  let t2 := fresh "t" in let Hm := fresh "Hm" in let Ht := fresh "Ht" in
  apply bind_Ret_inv in H as (a & s1 & t1 & t2 & Hm & H & Ht).

(** Run the first step of a sequence with the equation [H]. *)
Ltac mstep H := rewrite (bind_run _ _ _ _ _ _ H), ?prepend_nil.

(** Unfold the monad's glue on a concrete state. *)
Ltac munfold :=
  unfold mbind, M_bind, mret, M_ret, get, gets, modify, panic, undef, block,
    emit, announce, panic_if, deref, zoom in *.

(** * Generic lemmas *)

Create HintDb kernel.

Lemma u32_range x : 0 ≤ u32 x < 4294967296.
Proof. unfold u32. apply Z.mod_pos_bound. lia. Qed.

Lemma u32_small x : 0 ≤ x < 4294967296 → u32 x = x.
Proof. apply Z.mod_small. Qed.

Lemma i32_range x : -2147483648 ≤ i32 x < 2147483648.
Proof. unfold i32. pose proof (Z.mod_pos_bound (x + 2147483648) 4294967296). lia. Qed.

Lemma i32_small x : -2147483648 ≤ x < 2147483648 → i32 x = x.
Proof. intros. unfold i32. rewrite Z.mod_small; lia. Qed.

Lemma i32_u32 x : i32 (u32 x) = i32 x.
Proof. unfold i32, u32. by rewrite Zplus_mod_idemp_l. Qed.

Lemma u32_i32 x : u32 (i32 x) = u32 x.
Proof.
  unfold i32, u32. rewrite Zminus_mod_idemp_l. f_equal. lia.
Qed.

#[export] Hint Resolve u32_range i32_range : kernel.
