(* ===== verification/Layout.v ===== *)
(** Constants and address arithmetic: src/param.h, src/fcntl.h, src/traps.h,
    src/memlayout.h and the paging part of src/mmu.h. *)
From S2P Require Import Prelude.

(** [O_RDONLY] and the other bits of src/fcntl.h. *)
Definition O_RDONLY : Z := 0.
Definition O_WRONLY : Z := 1.
Definition O_RDWR : Z := 2.
Definition O_CREATE : Z := 512.

(** The length of a name in a directory (src/fs.h). *)
Definition DIRSIZ : nat := 14.
(** The format of executables (src/elf.h). *)
Definition ELF_MAGIC : Z := 1179403647.
Definition sizeof_proghdr : Z := 32.

(** Privilege and segments (src/mmu.h). *)
Definition FL_IF : Z := 512.
Definition SEG_UCODE : Z := 3.
Definition SEG_UDATA : Z := 4.
Definition DPL_USER : Z := 3.
(** The numbers of traps and interrupts (src/traps.h). *)
Definition T_SYSCALL : Z := 64.
Definition T_IRQ0 : Z := 32.
Definition IRQ_TIMER : Z := 0.
Definition IRQ_KBD : Z := 1.
Definition IRQ_COM1 : Z := 4.
Definition IRQ_IDE : Z := 14.
Definition IRQ_ERROR : Z := 19.
Definition IRQ_SPURIOUS : Z := 31.

(** param.h *)
Definition NPROC : nat := 64.
Definition KSTACKSIZE : Z := 4096.
Definition NCPU : nat := 2.
Definition NOFILE : nat := 16.
Definition NFILE : nat := 100.
Definition NINODE : nat := 50.
Definition NDEV : nat := 10.
Definition ROOTDEV : Z := 1.
Definition MAXARG : nat := 32.
Definition MAXOPBLOCKS : nat := 10.
Definition LOGSIZE : nat := MAXOPBLOCKS * 3.
Definition NBUF : nat := MAXOPBLOCKS * 3.
Definition FSSIZE : Z := 1000.

(** memlayout.h *)
Definition EXTMEM : Z := 1048576.
Definition PHYSTOP : Z := 234881024.
Definition DEVSPACE : Z := 4261412864.
Definition KERNBASE : Z := 2147483648.
Definition KERNLINK : Z := KERNBASE + EXTMEM.
Definition V2P (a : Z) : Z := u32 (a - KERNBASE).
Definition P2V (a : Z) : Z := u32 (a + KERNBASE).

(** mmu.h *)
Definition PGSIZE : Z := 4096.
Definition NPDENTRIES : nat := 1024.
Definition NPTENTRIES : nat := 1024.
Definition PTXSHIFT : Z := 12.
Definition PDXSHIFT : Z := 22.
Definition PTE_P : Z := 1.
Definition PTE_W : Z := 2.
Definition PTE_U : Z := 4.
Definition PDX (va : Z) : Z := Z.land (Z.shiftr (u32 va) PDXSHIFT) 1023.
Definition PTX (va : Z) : Z := Z.land (Z.shiftr (u32 va) PTXSHIFT) 1023.
Definition PGADDR (d t o : Z) : Z :=
  u32 (Z.lor (Z.lor (Z.shiftl d PDXSHIFT) (Z.shiftl t PTXSHIFT)) o).
Definition PGROUNDUP (sz : Z) : Z := Z.land (u32 (sz + PGSIZE - 1)) (u32 (Z.lnot (PGSIZE - 1))).
Definition PGROUNDDOWN (a : Z) : Z := Z.land a (u32 (Z.lnot (PGSIZE - 1))).
Definition PTE_ADDR (pte : Z) : Z := Z.land pte (u32 (Z.lnot 4095)).
Definition PTE_FLAGS (pte : Z) : Z := Z.land pte 4095.

(** * Arithmetic *)

(** Clearing the low [w] bits of a 32-bit word. *)
Lemma land_mask w a : 0 ≤ w ≤ 32 → 0 ≤ a < 4294967296 → Z.land a (Z.shiftl (Z.ones (32 - w)) w) = a - a mod 2 ^ w.
Proof.
  intros Hw Ha. assert (Z.land a (Z.shiftl (Z.ones (32 - w)) w) = Z.shiftl (Z.land (Z.shiftr a w) (Z.ones (32 - w))) w) as ->.
  { apply Z.bits_inj'. intros n Hn. rewrite Z.land_spec, !Z.shiftl_spec by lia.
    destruct (decide (n < w)) as [Hlt|Hge].
    - rewrite !(Z.testbit_neg_r _ (n - w)) by lia. by rewrite andb_false_r.
    - rewrite Z.land_spec, Z.shiftr_spec by lia. by replace (n - w + w) with n by lia. }
  rewrite Z.land_ones, Z.shiftl_mul_pow2, Z.shiftr_div_pow2 by lia.
  assert (0 < 2 ^ w) as Hp by (apply Z.pow_pos_nonneg; lia).
  assert (2 ^ 32 = 2 ^ (32 - w) * 2 ^ w) as E by (rewrite <- Z.pow_add_r by lia; f_equal; lia). change (2 ^ 32) with 4294967296 in E.
  rewrite Z.mod_small; [pose proof (Z.div_mod a (2 ^ w)); lia|]. split; [apply Z.div_pos; lia|]. apply Z.div_lt_upper_bound; lia.
Qed.
Lemma land_page_mask a : 0 ≤ a < 4294967296 → Z.land a (u32 (Z.lnot 4095)) = a - a mod 4096.
Proof. exact (land_mask 12 a ltac:(lia)). Qed.
Lemma land_word_mask a : 0 ≤ a < 4294967296 → Z.land a (u32 (Z.lnot 3)) = a - a mod 4.
Proof. exact (land_mask 2 a ltac:(lia)). Qed.

Lemma PGROUNDDOWN_spec a : 0 ≤ a < 4294967296 → PGROUNDDOWN a = a - a mod 4096.
Proof. apply land_page_mask. Qed.

Lemma PGROUNDUP_spec a :
  0 ≤ a ≤ 4294963200 → PGROUNDUP a = (a + 4095) - (a + 4095) mod 4096 ∧
  PGROUNDUP a mod 4096 = 0 ∧ a ≤ PGROUNDUP a < a + 4096.
Proof.
  intros Ha. unfold PGROUNDUP. change (PGSIZE - 1) with 4095. unfold PGSIZE.
  rewrite u32_small by lia. replace (a + 4096 - 1) with (a + 4095) by lia.
  rewrite land_page_mask by lia. Z.div_mod_to_equations. lia.
Qed.

Lemma PTE_ADDR_spec pte : 0 ≤ pte < 4294967296 → PTE_ADDR pte = pte - pte mod 4096.
Proof. apply land_page_mask. Qed.

Lemma PTE_FLAGS_spec pte : PTE_FLAGS pte = pte mod 4096.
Proof. exact (Z.land_ones pte 12 ltac:(lia)). Qed.

Lemma PDX_spec va : 0 ≤ va < 4294967296 → PDX va = va / 4194304.
Proof.
  intros H. unfold PDX. rewrite u32_small by done.
  change 1023 with (Z.ones 10). rewrite Z.land_ones, Z.shiftr_div_pow2 by (unfold PDXSHIFT; lia).
  change (2 ^ PDXSHIFT) with 4194304. change (2 ^ 10) with 1024.
  Z.div_mod_to_equations. lia.
Qed.

Lemma PTX_spec va : 0 ≤ va < 4294967296 → PTX va = (va / 4096) mod 1024.
Proof.
  intros H. unfold PTX. rewrite u32_small by done.
  change 1023 with (Z.ones 10). by rewrite Z.land_ones, Z.shiftr_div_pow2 by (unfold PTXSHIFT; lia).
Qed.

Lemma V2P_P2V a : 0 ≤ a < KERNBASE → V2P (P2V a) = a.
Proof. unfold V2P, P2V, KERNBASE. intros H. rewrite (u32_small (a + _)) by lia. rewrite u32_small; lia. Qed.
Lemma P2V_V2P v : KERNBASE ≤ v < 4294967296 → P2V (V2P v) = v.
Proof. unfold V2P, P2V, KERNBASE. intros H. rewrite (u32_small (v - _)) by lia. rewrite u32_small; lia. Qed.

(** Flags are added to page-aligned addresses without carry. *)
Lemma lor_flags x f : x mod 4096 = 0 → 0 ≤ f < 4096 → Z.lor x f = x + f.
Proof.
  intros Hx Hf. assert (x = Z.shiftl (x / 4096) 12) as E.
  { rewrite Z.shiftl_mul_pow2 by lia. change (2 ^ 12) with 4096. Z.div_mod_to_equations. lia. }
  assert (Z.land x f = 0) as Hl.
  { rewrite E. apply Z.bits_inj'. intros n Hn. rewrite Z.land_spec, Z.shiftl_spec, Z.bits_0 by lia.
    destruct (decide (n < 12)); [by rewrite Z.testbit_neg_r by lia|].
    rewrite (Z.bits_above_log2 f n), andb_false_r; [done|lia|].
    destruct (decide (f = 0)) as [->|]; [simpl; lia|].
    assert (Z.log2 f < 12) by (apply Z.log2_lt_pow2; lia). lia. }
  by rewrite <- Z.lxor_lor, <- Z.add_nocarry_lxor.
Qed.

Lemma PTE_ADDR_flags x f :
  x mod 4096 = 0 → 0 ≤ x < 4294967296 → 0 ≤ f < 4096 → PTE_ADDR (x + f) = x.
Proof.
  intros Hx Hr Hf. assert (x + f < 4294967296) by (Z.div_mod_to_equations; lia).
  rewrite PTE_ADDR_spec by lia. rewrite Z.add_mod, Hx, Z.add_0_l, Z.mod_mod by lia.
  rewrite (Z.mod_small f) by lia. lia.
Qed.
