(* ===== verification/Bytes.v ===== *)
(** Bytes in memory and on disk: writing a block of bytes into a buffer
    ([splice]), and the little-endian representation of the 16-bit and 32-bit
    integers that C structures and arrays hold. *)
From S2P Require Import Prelude.

(** [l] written at address [p]. *)
Definition splice (m : list Z) (p : nat) (l : list Z) : list Z :=
  take p m ++ l ++ drop (p + length l) m.

Definition byte (c : Z) : Prop := 0 ≤ c < 256.

Lemma u8_byte c : byte (u8 c).
Proof. unfold byte, u8. by apply Z.mod_pos_bound. Qed.
Lemma u8_small c : byte c → u8 c = c.
Proof. apply Z.mod_small. Qed.

Lemma length_splice m p l : (p + length l ≤ length m)%nat → length (splice m p l) = length m.
Proof. intros H. unfold splice. rewrite !length_app, length_take, length_drop. lia. Qed.

Lemma lookup_splice m p l i :
  (p + length l ≤ length m)%nat →
  splice m p l !! i =
    if bool_decide (p ≤ i < p + length l)%nat then l !! (i - p)%nat else m !! i.
Proof.
  intros H. unfold splice. rewrite lookup_app.
  destruct (decide (i < p)%nat) as [Hi|Hi].
  - rewrite lookup_take_lt by done. destruct (m !! i) eqn:E.
    + by rewrite bool_decide_false by lia.
    + apply lookup_ge_None in E. lia.
  - rewrite lookup_take_ge, length_take, lookup_app, Nat.min_l by lia.
    case_bool_decide.
    + destruct (l !! (i - p)%nat) eqn:E; [done|]. apply lookup_ge_None in E. lia.
    + rewrite (proj2 (lookup_ge_None l _)) by lia. rewrite lookup_drop. f_equal. lia.
Qed.

Lemma splice_splice m p l1 l2 :
  (p + length l1 + length l2 ≤ length m)%nat →
  splice (splice m p l1) (p + length l1) l2 = splice m p (l1 ++ l2).
Proof.
  intros H. apply list_eq. intros i.
  rewrite !lookup_splice; rewrite ?length_app, ?length_splice by lia; try lia.
  repeat case_bool_decide; try lia; try done.
  - rewrite lookup_app_r by lia. f_equal. lia.
  - by rewrite lookup_app_l by lia.
Qed.

Lemma Forall_splice (P : Z → Prop) m p l : Forall P m → Forall P l → Forall P (splice m p l).
Proof.
  intros Hm Hl. unfold splice. rewrite !Forall_app. split_and!; [by apply Forall_take|done|by apply Forall_drop].
Qed.

Lemma splice_next m p q l1 l2 :
  q = (p + length l1)%nat → (q + length l2 ≤ length m)%nat →
  splice (splice m p l1) q l2 = splice m p (l1 ++ l2).
Proof. intros -> H. by apply splice_splice. Qed.

Lemma land_255 c : Z.land c 255 = u8 c.
Proof. exact (Z.land_ones c 8 ltac:(lia)). Qed.

(** * Little-endian integers *)

Definition le16 (x : Z) : list Z := [u8 x; u8 (Z.shiftr x 8)].
Definition le32 (x : Z) : list Z :=
  [u8 x; u8 (Z.shiftr x 8); u8 (Z.shiftr x 16); u8 (Z.shiftr x 24)].
Fixpoint of_le (l : list Z) : Z :=
  match l with [] => 0 | b :: l' => b + 256 * of_le l' end.

Lemma of_le32 x : of_le (le32 x) = u32 x.
Proof.
  unfold le32, of_le, u8, u32. rewrite !Z.shiftr_div_pow2 by lia.
  change (2 ^ 8) with 256. change (2 ^ 16) with 65536. change (2 ^ 24) with 16777216.
  Z.div_mod_to_equations. lia.
Qed.
Lemma of_le16 x : of_le (le16 x) = u16 x.
Proof.
  unfold le16, of_le, u8, u16. rewrite !Z.shiftr_div_pow2 by lia. change (2 ^ 8) with 256.
  Z.div_mod_to_equations. lia.
Qed.

Lemma le32_bytes x : Forall byte (le32 x).
Proof. repeat (constructor; [apply u8_byte|]). constructor. Qed.
Lemma le16_bytes x : Forall byte (le16 x).
Proof. repeat (constructor; [apply u8_byte|]). constructor. Qed.

Lemma of_le_range l : Forall byte l → 0 ≤ of_le l < 256 ^ Z.of_nat (length l).
Proof.
  induction 1 as [|b l Hb Hl IH]; cbn [of_le length]; [simpl; lia|].
  rewrite Nat2Z.inj_succ, Z.pow_succ_r by lia. unfold byte in Hb. lia.
Qed.

(** The bytes [n] at offset [off], and words of an array of words. *)
Definition slice (l : list Z) (off n : nat) : list Z := take n (drop off l).

Lemma slice_splice_eq l off x :
  (off + length x ≤ length l)%nat → slice (splice l off x) off (length x) = x.
Proof.
  intros H. unfold slice, splice. rewrite drop_app_length' by (rewrite length_take; lia).
  by rewrite take_app_length.
Qed.

Lemma length_slice l off n : (off + n ≤ length l)%nat → length (slice l off n) = n.
Proof. intros H. unfold slice. rewrite length_take, length_drop. lia. Qed.

Lemma lookup_slice l off n i :
  slice l off n !! i = if bool_decide (i < n)%nat then l !! (off + i)%nat else None.
Proof.
  unfold slice. case_bool_decide; [by rewrite lookup_take_lt, lookup_drop|].
  by rewrite lookup_take_ge by lia.
Qed.

Lemma slice_splice_ne l off x off' n :
  (off + length x ≤ length l)%nat → (off' + n ≤ off ∨ off + length x ≤ off')%nat →
  slice (splice l off x) off' n = slice l off' n.
Proof.
  intros H Ho. apply list_eq. intros i. rewrite !lookup_slice.
  case_bool_decide; [|done]. rewrite lookup_splice by done. by rewrite bool_decide_false by lia.
Qed.

Lemma Forall_slice (P : Z → Prop) l off n : Forall P l → Forall P (slice l off n).
Proof. intros H. by apply Forall_take, Forall_drop. Qed.

Definition word (l : list Z) (i : nat) : Z := of_le (slice l (4 * i) 4).
Definition set_word (i : nat) (x : Z) (l : list Z) : list Z := splice l (4 * i) (le32 x).

Lemma word_set_word l i j x :
  (4 * i + 4 ≤ length l)%nat → word (set_word i x l) j = if bool_decide (j = i) then u32 x else word l j.
Proof.
  intros H. unfold word, set_word. case_bool_decide as Hj.
  - subst j. change 4%nat with (length (le32 x)) at 2. by rewrite slice_splice_eq, of_le32.
  - f_equal. apply slice_splice_ne; simpl; lia.
Qed.

Lemma length_set_word l i x : (4 * i + 4 ≤ length l)%nat → length (set_word i x l) = length l.
Proof. intros H. apply length_splice. simpl. lia. Qed.

Lemma Forall_set_word l i x : Forall byte l → Forall byte (set_word i x l).
Proof. intros H. apply Forall_splice; [done|apply le32_bytes]. Qed.

Lemma word_range l i : Forall byte l → 0 ≤ word l i < 4294967296.
Proof.
  intros H. unfold word. pose proof (of_le_range _ (Forall_slice byte l (4 * i) 4 H)) as Hr.
  assert (length (slice l (4 * i) 4) ≤ 4)%nat as Hl by (unfold slice; rewrite length_take; lia).
  assert (256 ^ Z.of_nat (length (slice l (4 * i) 4)) ≤ 256 ^ 4) by (apply Z.pow_le_mono_r; lia).
  change (256 ^ 4) with 4294967296 in *. lia.
Qed.

(** An array of words. *)
Lemma length_le32s A : length (A ≫= le32) = (4 * length A)%nat.
Proof. induction A as [|x A IH]; [done|]. cbn [mbind list_bind]. rewrite length_app, IH. simpl. lia. Qed.

Lemma slice_le32s A k x : A !! k = Some x → slice (A ≫= le32) (4 * k) 4 = le32 x.
Proof.
  revert k. induction A as [|y A IH]; intros [|k] H; [done|done| |].
  - injection H as ->. done.
  - cbn [mbind list_bind]. replace (4 * S k)%nat with (4 + 4 * k)%nat by lia. unfold slice in *.
    change 4%nat with (length (le32 y)) at 2. rewrite <- drop_drop, drop_app_length. by apply IH.
Qed.

Lemma cstr_stop l r : 0 ∉ l → cstr (l ++ 0 :: r) = l.
Proof.
  induction l as [|c l IH]; intros H; cbn [app cstr]; [done|]. apply not_elem_of_cons in H as [H1 H2].
  rewrite bool_decide_false by congruence. by rewrite IH.
Qed.
