(* ===== verification/Spinlock.v ===== *)
(** Spin locks and the per-CPU interrupt state (src/spinlock.c, src/proc.c's
    [cpuid], [mycpu] and [myproc], src/proc.h's [struct cpu]).

    The state of the lock operations is a pair of the machine (the CPUs, and
    which of them executes) and the lock.  [acquire] and [release] are built
    from the pieces between which another CPU can run; the relation
    [lock_step] interleaves those pieces on all CPUs, and the theorems show
    mutual exclusion, that no [panic] of the lock code is reachable, and that
    interrupts are off on the CPU that holds the lock. *)
From S2P Require Import Prelude Layout.

(** [struct cpu]: of the task state only [ts.esp0], the kernel stack of the
    running process; [eflags_IF] and [cr3] are the interrupt flag and the
    page-table register of the CPU itself. *)
Record cpu := Cpu {
  apicid : Z;
  started : Z;
  ncli : Z;
  intena : bool;
  cproc : option nat;
  eflags_IF : bool;
  ts_esp0 : Z;
  cr3 : Z
}.

(** The first [ncpu] entries of [cpus]; [me] is the CPU whose registers and
    local APIC the running code reads. *)
Record machine := Machine { cpus : list cpu; me : nat }.

Record spinlock := Spinlock { locked : bool; lcpu : option nat }.

Definition upd_cpu (f : cpu → cpu) (i : nat) (m : machine) : machine :=
  Machine (alter f i (cpus m)) (me m).

Definition set_IF (b : bool) (c : cpu) : cpu :=
  Cpu (apicid c) (started c) (ncli c) (intena c) (cproc c) b (ts_esp0 c) (cr3 c).
Definition set_ncli (n : Z) (c : cpu) : cpu :=
  Cpu (apicid c) (started c) n (intena c) (cproc c) (eflags_IF c) (ts_esp0 c) (cr3 c).
Definition set_intena (b : bool) (c : cpu) : cpu :=
  Cpu (apicid c) (started c) (ncli c) b (cproc c) (eflags_IF c) (ts_esp0 c) (cr3 c).
Definition set_cproc (p : option nat) (c : cpu) : cpu :=
  Cpu (apicid c) (started c) (ncli c) (intena c) p (eflags_IF c) (ts_esp0 c) (cr3 c).

Definition set_esp0 (a : Z) (c : cpu) : cpu :=
  Cpu (apicid c) (started c) (ncli c) (intena c) (cproc c) (eflags_IF c) a (cr3 c).
Definition set_cr3 (a : Z) (c : cpu) : cpu :=
  Cpu (apicid c) (started c) (ncli c) (intena c) (cproc c) (eflags_IF c) (ts_esp0 c) a.

(** The instructions [pushfl; popl], [cli], [sti] and the APIC's ID register. *)
Definition readeflags_IF : M machine bool :=
  m ← get; c ← deref (cpus m !! me m); mret (eflags_IF c).
Definition cli : M machine unit := modify (λ m, upd_cpu (set_IF false) (me m) m).
Definition sti : M machine unit := modify (λ m, upd_cpu (set_IF true) (me m) m).
Definition lapicid : M machine Z :=
  m ← get; c ← deref (cpus m !! me m); mret (apicid c).

(** [mycpu]: the index of the entry whose [apicid] is the local APIC's. *)
Definition mycpu : M machine nat :=
  b ← readeflags_IF;
  panic_if b "mycpu called with interrupts enabled\n";;
  id ← lapicid;
  m ← get;
  match list_find (λ c, apicid c = id) (cpus m) with
  | Some (i, _) => mret i
  | None => panic "unknown apicid\n"
  end.

Definition cpuid : M machine nat := mycpu.

(** Fields of the CPU found by [mycpu()]. *)
Definition mycpu_get {A} (f : cpu → A) : M machine A :=
  i ← mycpu; m ← get; c ← deref (cpus m !! i); mret (f c).
Definition mycpu_upd (f : cpu → cpu) : M machine unit :=
  i ← mycpu; modify (upd_cpu f i).

Definition pushcli : M machine unit :=
  eflags ← readeflags_IF;
  cli;;
  n ← mycpu_get ncli;
  (if bool_decide (n = 0) then mycpu_upd (set_intena eflags) else mret tt);;
  mycpu_upd (λ c, set_ncli (ncli c + 1) c).

Definition popcli : M machine unit :=
  b ← readeflags_IF;
  panic_if b "popcli - interruptible";;
  mycpu_upd (λ c, set_ncli (ncli c - 1) c);;
  n ← mycpu_get ncli;
  panic_if (bool_decide (n < 0)) "popcli";;
  ie ← mycpu_get intena;
  if bool_decide (n = 0) && ie then sti else mret tt.

(** [myproc]: the process on this CPU, read with interrupts off. *)
Definition myproc : M machine (option nat) :=
  pushcli;; p ← mycpu_get cproc; popcli;; mret p.

Definition lockst : Type := machine * spinlock.
Definition onm {A} (m : M machine A) : M lockst A :=
  zoom fst (λ mc s, (mc, s.2)) m.
Definition set_lock (l : spinlock) (s : lockst) : lockst := (s.1, l).

Definition initlock : M lockst unit := modify (set_lock (Spinlock false None)).

Definition holding : M lockst bool :=
  s ← get;
  if locked s.2
  then i ← onm mycpu; mret (bool_decide (lcpu s.2 = Some i))
  else mret false.

(** One round of [acquire]: the [holding] check and one [xchg]. *)
Definition acquire_enter : M lockst unit :=
  onm pushcli;;
  h ← holding;
  panic_if h "acquire".
Definition acquire_xchg : M lockst unit := λ s,
  if locked s.2 then Spins s else Ret tt (set_lock (Spinlock true (lcpu s.2)) s) [].
Definition acquire_record : M lockst unit :=
  i ← onm mycpu;
  modify (λ s, set_lock (Spinlock (locked s.2) (Some i)) s).
Definition acquire : M lockst unit :=
  acquire_enter;; acquire_xchg;; acquire_record.

Definition release_clear : M lockst unit :=
  h ← holding;
  panic_if (negb h) "release";;
  modify (λ s, set_lock (Spinlock (locked s.2) None) s).
Definition release_store : M lockst unit :=
  modify (λ s, set_lock (Spinlock false (lcpu s.2)) s).
Definition release : M lockst unit :=
  release_clear;; release_store;; onm popcli.

(** [getcallerpcs]: follow the chain of saved frame pointers in [mem] (the
    words of kernel memory) from the frame below argument address [v]. *)
Fixpoint getcallerpcs_from (mem : Z → Z) (i : nat) (ebp : Z) : list Z :=
  match i with
  | O => []
  | S i' =>
      if bool_decide (ebp = 0) || bool_decide (ebp < 2147483648)
         || bool_decide (ebp = 4294967295)
      then replicate i 0
      else mem (u32 (ebp + 4)) :: getcallerpcs_from mem i' (mem ebp)
  end.
Definition getcallerpcs (mem : Z → Z) (v : Z) : list Z :=
  getcallerpcs_from mem 10 (u32 (v - 8)).

(** * Behaviour of the primitives on a well-formed machine *)

(** Every CPU has its own APIC id, and the running code is on one of them. *)
Definition mach_ok (m : machine) : Prop :=
  NoDup (apicid <$> cpus m) ∧ (me m < length (cpus m))%nat.

Definition pushed (c : cpu) : cpu :=
  Cpu (apicid c) (started c) (ncli c + 1)
      (if bool_decide (ncli c = 0) then eflags_IF c else intena c) (cproc c) false (ts_esp0 c) (cr3 c).
Definition popped (c : cpu) : cpu :=
  Cpu (apicid c) (started c) (ncli c - 1) (intena c) (cproc c)
      (bool_decide (ncli c = 1) && intena c) (ts_esp0 c) (cr3 c).

Lemma fmap_alter_apicid (f : cpu → cpu) (i : nat) (cs : list cpu) :
  (∀ c, apicid (f c) = apicid c) → apicid <$> alter f i cs = apicid <$> cs.
Proof.
  intros Hf. apply list_eq. intros j. rewrite !list_lookup_fmap.
  destruct (decide (i = j)) as [->|].
  - rewrite list_lookup_alter_eq. destruct (cs !! j); simpl; by rewrite ?Hf.
  - by rewrite list_lookup_alter_ne.
Qed.

Lemma mach_ok_upd f i m :
  (∀ c, apicid (f c) = apicid c) → mach_ok m → mach_ok (upd_cpu f i m).
Proof.
  intros Hf [Hnd Hlt]. split; simpl; [|by rewrite length_alter].
  by rewrite fmap_alter_apicid.
Qed.

Lemma lookup_me m : mach_ok m → ∃ c, cpus m !! me m = Some c.
Proof. intros [_ H]. by apply lookup_lt_is_Some. Qed.

Lemma find_apicid (l : list cpu) i c :
  NoDup (apicid <$> l) → l !! i = Some c →
  list_find (λ c', apicid c' = apicid c) l = Some (i, c).
Proof.
  intros Hnd Hi. apply list_find_Some. repeat split; [done|].
  intros j c' Hj Hlt Heq.
  assert (j = i); [|lia].
  eapply NoDup_lookup; [exact Hnd| |]; rewrite list_lookup_fmap.
  - by rewrite Hj; simpl; rewrite Heq.
  - by rewrite Hi.
Qed.

Lemma mycpu_run m c :
  mach_ok m → cpus m !! me m = Some c → eflags_IF c = false →
  mycpu m = Ret (me m) m [].
Proof.
  intros [Hnd Hlt] Hc HIF.
  unfold mycpu, readeflags_IF, lapicid. munfold. rewrite Hc. simpl.
  rewrite HIF. simpl. rewrite Hc. simpl. by rewrite (find_apicid _ (me m) c).
Qed.

Lemma mycpu_get_run {A} (f : cpu → A) m c :
  mach_ok m → cpus m !! me m = Some c → eflags_IF c = false →
  mycpu_get f m = Ret (f c) m [].
Proof.
  intros Hok Hc HIF. unfold mycpu_get.
  erewrite bind_run by (by eapply mycpu_run). munfold. by rewrite Hc.
Qed.

Lemma mycpu_upd_run f m c :
  mach_ok m → cpus m !! me m = Some c → eflags_IF c = false →
  mycpu_upd f m = Ret tt (upd_cpu f (me m) m) [].
Proof.
  intros Hok Hc HIF. unfold mycpu_upd.
  by erewrite bind_run by (by eapply mycpu_run).
Qed.

Lemma lookup_upd_me f m c :
  cpus m !! me m = Some c → cpus (upd_cpu f (me m) m) !! me m = Some (f c).
Proof. intros H. simpl. by rewrite list_lookup_alter_eq, H. Qed.

Lemma upd_upd f g i m : upd_cpu g i (upd_cpu f i m) = upd_cpu (g ∘ f) i m.
Proof. unfold upd_cpu. simpl. by rewrite list_alter_alter_eq. Qed.

Lemma upd_ext f g i m c :
  cpus m !! i = Some c → f c = g c → upd_cpu f i m = upd_cpu g i m.
Proof.
  intros Hc Hfg. unfold upd_cpu. f_equal. apply list_alter_ext; [|done]. naive_solver.
Qed.

Lemma pushcli_run m c :
  mach_ok m → cpus m !! me m = Some c →
  pushcli m = Ret tt (upd_cpu pushed (me m) m) [].
Proof.
  intros Hok Hc. unfold pushcli.
  erewrite bind_run by (unfold readeflags_IF; munfold; rewrite Hc; reflexivity).
  erewrite bind_run by reflexivity. rewrite !prepend_nil. simpl.
  set (m1 := upd_cpu (set_IF false) (me m) m).
  assert (mach_ok m1) as Hok1 by (by apply mach_ok_upd).
  assert (cpus m1 !! me m1 = Some (set_IF false c)) as Hc1 by exact (lookup_upd_me _ m _ Hc).
  erewrite bind_run by (by eapply mycpu_get_run). rewrite prepend_nil. simpl.
  case_bool_decide as Hn.
  - erewrite bind_run by (by eapply mycpu_upd_run). rewrite prepend_nil.
    assert (cpus (upd_cpu (set_intena (eflags_IF c)) (me m1) m1) !! me m1
            = Some (set_intena (eflags_IF c) (set_IF false c))) as Hc2
      by exact (lookup_upd_me _ m1 _ Hc1).
    erewrite mycpu_upd_run; [|by apply mach_ok_upd|exact Hc2|done]. simpl.
    unfold m1. rewrite !upd_upd. f_equal. eapply upd_ext; [done|].
    unfold pushed, compose. simpl. by rewrite bool_decide_true.
  - erewrite bind_run by reflexivity. rewrite prepend_nil.
    erewrite mycpu_upd_run; [|done|exact Hc1|done]. simpl.
    unfold m1. rewrite upd_upd. f_equal. eapply upd_ext; [done|].
    unfold pushed, compose. simpl. by rewrite bool_decide_false.
Qed.

Lemma popcli_run m c :
  mach_ok m → cpus m !! me m = Some c → eflags_IF c = false → 1 ≤ ncli c →
  popcli m = Ret tt (upd_cpu popped (me m) m) [].
Proof.
  intros Hok Hc HIF Hn. unfold popcli.
  erewrite bind_run by (unfold readeflags_IF; munfold; rewrite Hc; reflexivity).
  rewrite HIF. erewrite bind_run by reflexivity.
  erewrite bind_run by (by eapply mycpu_upd_run). rewrite !prepend_nil.
  set (m1 := upd_cpu _ (me m) m).
  assert (mach_ok m1) as Hok1 by (by apply mach_ok_upd).
  assert (cpus m1 !! me m1 = Some (set_ncli (ncli c - 1) c)) as Hc1
    by exact (lookup_upd_me _ m _ Hc).
  erewrite bind_run by (by eapply mycpu_get_run). simpl.
  rewrite prepend_nil, (bool_decide_false (ncli c - 1 < 0)) by lia.
  erewrite bind_run by reflexivity.
  erewrite bind_run by (by eapply mycpu_get_run). rewrite !prepend_nil. simpl.
  unfold m1. rewrite (bool_decide_ext (ncli c - 1 = 0) (ncli c = 1)) by lia.
  destruct (bool_decide (ncli c = 1) && intena c) eqn:E.
  - unfold sti, modify. simpl. rewrite upd_upd. f_equal. eapply upd_ext; [done|].
    unfold popped, compose, set_IF, set_ncli. simpl. by rewrite E.
  - unfold mret, M_ret. f_equal. eapply upd_ext; [done|].
    unfold popped, set_ncli. by rewrite E, HIF.
Qed.

(** [myproc] returns the CPU's process; the interrupt state is restored. *)
Lemma myproc_run m c :
  mach_ok m → cpus m !! me m = Some c → 0 ≤ ncli c →
  myproc m = Ret (cproc c) (upd_cpu (popped ∘ pushed) (me m) m) [].
Proof.
  intros Hok Hc Hn. unfold myproc.
  erewrite bind_run by (by eapply pushcli_run). rewrite prepend_nil.
  set (m1 := upd_cpu pushed (me m) m).
  assert (mach_ok m1) as Hok1 by (by apply mach_ok_upd).
  assert (cpus m1 !! me m1 = Some (pushed c)) as Hc1 by exact (lookup_upd_me _ m _ Hc).
  erewrite bind_run by (by eapply mycpu_get_run). rewrite prepend_nil. simpl.
  erewrite bind_run by (eapply popcli_run; [done|exact Hc1|done|simpl; lia]).
  rewrite prepend_nil. unfold m1. by rewrite upd_upd.
Qed.

Lemma onm_run {A} (o : M machine A) m l a m' t :
  o m = Ret a m' t → onm o (m, l) = Ret a (m', l) t.
Proof. intros H. unfold onm, zoom. simpl. by rewrite H. Qed.

Lemma holding_run m l c :
  mach_ok m → cpus m !! me m = Some c → eflags_IF c = false →
  holding (m, l) = Ret (locked l && bool_decide (lcpu l = Some (me m))) (m, l) [].
Proof.
  intros Hok Hc HIF. unfold holding. erewrite bind_run by reflexivity. simpl.
  rewrite prepend_nil. destruct (locked l); [|done].
  erewrite bind_run by (eapply onm_run, mycpu_run; done). done.
Qed.

(** [acquire] of a lock nobody holds takes it for this CPU and leaves
    interrupts off. *)
Lemma acquire_run m l c :
  mach_ok m → cpus m !! me m = Some c → locked l = false →
  acquire (m, l) = Ret tt (upd_cpu pushed (me m) m, Spinlock true (Some (me m))) [].
Proof.
  intros Hok Hc Hl. unfold acquire, acquire_enter.
  set (m1 := upd_cpu pushed (me m) m).
  assert (mach_ok m1) as Hok1 by (by apply mach_ok_upd).
  assert (cpus m1 !! me m1 = Some (pushed c)) as Hc1 by exact (lookup_upd_me _ m _ Hc).
  erewrite (bind_run (_ ≫= _)).
  2: { erewrite bind_run by (eapply onm_run, pushcli_run; done).
       erewrite bind_run by (eapply holding_run; done). rewrite Hl. reflexivity. }
  erewrite bind_run by (unfold acquire_xchg; simpl; rewrite Hl; reflexivity).
  unfold acquire_record, set_lock. simpl.
  erewrite bind_run by (eapply onm_run, mycpu_run; done). done.
Qed.

(** [acquire] of a lock this CPU already holds panics. *)
Lemma acquire_held m l c :
  mach_ok m → cpus m !! me m = Some c → locked l = true → lcpu l = Some (me m) →
  acquire (m, l) = Panic "acquire" (upd_cpu pushed (me m) m, l).
Proof.
  intros Hok Hc Hl Hcpu. unfold acquire, acquire_enter.
  set (m1 := upd_cpu pushed (me m) m).
  assert (mach_ok m1) as Hok1 by (by apply mach_ok_upd).
  assert (cpus m1 !! me m1 = Some (pushed c)) as Hc1 by exact (lookup_upd_me _ m _ Hc).
  unfold mbind at 1, M_bind at 1.
  erewrite bind_run by (eapply onm_run, pushcli_run; done).
  erewrite bind_run by (eapply holding_run; done).
  simpl. by rewrite Hl, Hcpu, bool_decide_true.
Qed.

(** [release] by the holder frees the lock and undoes the [pushcli]. *)
Lemma release_run m l c :
  mach_ok m → cpus m !! me m = Some c → eflags_IF c = false → 1 ≤ ncli c →
  locked l = true → lcpu l = Some (me m) →
  release (m, l) = Ret tt (upd_cpu popped (me m) m, Spinlock false None) [].
Proof.
  intros Hok Hc HIF Hn Hl Hcpu. unfold release, release_clear, release_store.
  erewrite (bind_run (_ ≫= _)).
  2: { erewrite bind_run by (eapply holding_run; done).
       rewrite Hl, Hcpu, bool_decide_true by done. reflexivity. }
  erewrite bind_run by reflexivity. unfold set_lock. simpl. rewrite !prepend_nil.
  by eapply onm_run, popcli_run.
Qed.

(** * Interleaving of the lock code on all CPUs *)

(** Where a CPU is in [acquire(lk); ...; release(lk)]. *)
Inductive lpc : Type :=
| Idle        (* not using the lock *)
| Trying      (* interrupts off, spinning on xchg *)
| Got         (* xchg returned 0, lk->cpu not yet written *)
| Critical    (* acquire has returned *)
| Cleared     (* release has written lk->cpu = 0 *)
| Stored.     (* locked = 0, popcli still to run *)

#[export] Instance lpc_eq_dec : EqDecision lpc.
Proof. solve_decision. Defined.

Record lsys := LSys { ls_cpus : list cpu; ls_lock : spinlock; ls_pc : list lpc }.

Definition on_cpu (i : nat) (σ : lsys) : lockst := (Machine (ls_cpus σ) i, ls_lock σ).
Definition put_cpu (i : nat) (pc : lpc) (s : lockst) (σ : lsys) : lsys :=
  LSys (cpus s.1) s.2 (<[i:=pc]> (ls_pc σ)).

(** The code between two points where another CPU can interfere. *)
Definition lcode (pc : lpc) : M lockst unit :=
  match pc with
  | Idle => acquire_enter
  | Trying => acquire_xchg
  | Got => acquire_record
  | Critical => release_clear
  | Cleared => release_store
  | Stored => onm popcli
  end.
Definition lnext (pc : lpc) : lpc :=
  match pc with
  | Idle => Trying | Trying => Got | Got => Critical
  | Critical => Cleared | Cleared => Stored | Stored => Idle
  end.

Inductive lock_step (σ : lsys) : lsys → Prop :=
| step_run i pc s' t :
    ls_pc σ !! i = Some pc →
    lcode pc (on_cpu i σ) = Ret tt s' t →
    lock_step σ (put_cpu i (lnext pc) s' σ)
| step_spin i s' :
    ls_pc σ !! i = Some Trying →
    acquire_xchg (on_cpu i σ) = Spins s' →
    lock_step σ (put_cpu i Trying s' σ).

Definition lock_init (σ : lsys) : Prop :=
  NoDup (apicid <$> ls_cpus σ) ∧ length (ls_pc σ) = length (ls_cpus σ) ∧
  ls_lock σ = Spinlock false None ∧
  Forall (λ pc, pc = Idle) (ls_pc σ) ∧ Forall (λ c, ncli c = 0) (ls_cpus σ).

Inductive lock_reach : lsys → Prop :=
| reach_init σ : lock_init σ → lock_reach σ
| reach_step σ σ' : lock_reach σ → lock_step σ σ' → lock_reach σ'.

(** The CPU owns the lock word. *)
Definition owns (pc : lpc) : Prop := pc = Got ∨ pc = Critical ∨ pc = Cleared.

Record lock_inv (σ : lsys) : Prop := {
  li_ids : NoDup (apicid <$> ls_cpus σ);
  li_len : length (ls_pc σ) = length (ls_cpus σ);
  li_locked : locked (ls_lock σ) = true ↔ ∃ i pc, ls_pc σ !! i = Some pc ∧ owns pc;
  li_unique : ∀ i j pi pj, ls_pc σ !! i = Some pi → ls_pc σ !! j = Some pj →
    owns pi → owns pj → i = j;
  li_cpu : ∀ i, lcpu (ls_lock σ) = Some i ↔ ls_pc σ !! i = Some Critical;
  li_cli : ∀ i pc c, ls_pc σ !! i = Some pc → ls_cpus σ !! i = Some c →
    (pc = Idle ∧ ncli c = 0) ∨ (pc ≠ Idle ∧ ncli c = 1 ∧ eflags_IF c = false)
}.

Section lock_invariant.
Context (σ : lsys) (Hinv : lock_inv σ).

Lemma on_cpu_ok i pc : ls_pc σ !! i = Some pc → mach_ok (on_cpu i σ).1.
Proof.
  intros Hi. split; simpl; [apply (li_ids _ Hinv)|].
  rewrite <- (li_len _ Hinv). by eapply lookup_lt_Some.
Qed.

(** What each piece of code does in a state that satisfies the invariant:
    it never panics, and only [xchg] can fail to make progress. *)
Lemma lcode_run i pc c :
  ls_pc σ !! i = Some pc → ls_cpus σ !! i = Some c →
  lcode pc (on_cpu i σ) =
    match pc with
    | Idle => Ret tt (upd_cpu pushed i (Machine (ls_cpus σ) i), ls_lock σ) []
    | Trying =>
        if locked (ls_lock σ) then Spins (on_cpu i σ)
        else Ret tt (Machine (ls_cpus σ) i, Spinlock true (lcpu (ls_lock σ))) []
    | Got => Ret tt (Machine (ls_cpus σ) i, Spinlock (locked (ls_lock σ)) (Some i)) []
    | Critical => Ret tt (Machine (ls_cpus σ) i, Spinlock (locked (ls_lock σ)) None) []
    | Cleared => Ret tt (Machine (ls_cpus σ) i, Spinlock false (lcpu (ls_lock σ))) []
    | Stored => Ret tt (upd_cpu popped i (Machine (ls_cpus σ) i), ls_lock σ) []
    end.
Proof.
  intros Hpc Hc. pose proof (on_cpu_ok _ _ Hpc) as Hok.
  pose proof (li_cli _ Hinv _ _ _ Hpc Hc) as Hcli.
  destruct pc; simpl; unfold on_cpu in *; simpl in *.
  - unfold acquire_enter. erewrite bind_run by (eapply onm_run, pushcli_run; done).
    assert (mach_ok (upd_cpu pushed i (Machine (ls_cpus σ) i))) as Hok1
      by (by apply mach_ok_upd).
    erewrite bind_run
      by (eapply holding_run; [done|exact (lookup_upd_me _ (Machine _ i) _ Hc)|done]).
    simpl. rewrite (bool_decide_false (lcpu (ls_lock σ) = Some i)).
    + by rewrite andb_false_r.
    + rewrite (li_cpu _ Hinv i). by rewrite Hpc.
  - done.
  - unfold acquire_record. by erewrite bind_run by (eapply onm_run, mycpu_run; naive_solver).
  - unfold release_clear. erewrite bind_run by (eapply holding_run; naive_solver). simpl.
    rewrite bool_decide_true by (by apply (li_cpu _ Hinv)).
    assert (locked (ls_lock σ) = true) as Hl
      by (apply (li_locked _ Hinv); exists i, Critical; unfold owns; auto).
    by rewrite Hl; munfold; unfold set_lock; simpl; rewrite Hl.
  - done.
  - erewrite onm_run by (eapply popcli_run; naive_solver lia). done.
Qed.

End lock_invariant.

Lemma lock_inv_init σ : lock_init σ → lock_inv σ.
Proof.
  intros (Hids & Hlen & Hl & Hpc & Hn).
  assert (∀ i pc, ls_pc σ !! i = Some pc → pc = Idle) as Hidle
    by (intros i pc H; by eapply Forall_lookup_1 in Hpc).
  split; rewrite ?Hl; simpl; [done|done|..].
  - split; [done|]. intros (i & pc & Hi & Ho). apply Hidle in Hi. unfold owns in Ho. naive_solver.
  - intros i j pi pj Hi _ Ho. apply Hidle in Hi. unfold owns in Ho. naive_solver.
  - intros i. split; [done|]. intros Hi. by apply Hidle in Hi.
  - intros i pc c Hi Hc. left. split; [by eapply Hidle|]. by eapply Forall_lookup_1 in Hn.
Qed.

(** The part of the invariant on CPU registers, for a step of CPU [i]. *)
Lemma cli_inv_step (cs : list cpu) (pcs : list lpc) i pc' (f : cpu → cpu) :
  (∀ j pc c, pcs !! j = Some pc → cs !! j = Some c →
    (pc = Idle ∧ ncli c = 0) ∨ (pc ≠ Idle ∧ ncli c = 1 ∧ eflags_IF c = false)) →
  (∀ c, cs !! i = Some c →
    (pc' = Idle ∧ ncli (f c) = 0) ∨ (pc' ≠ Idle ∧ ncli (f c) = 1 ∧ eflags_IF (f c) = false)) →
  ∀ j pc c, <[i:=pc']> pcs !! j = Some pc → alter f i cs !! j = Some c →
    (pc = Idle ∧ ncli c = 0) ∨ (pc ≠ Idle ∧ ncli c = 1 ∧ eflags_IF c = false).
Proof.
  intros Hold Hnew j pc c Hj Hc.
  apply list_lookup_insert_Some in Hj as [(-> & <- & _)|[Hne Hj]].
  - rewrite list_lookup_alter_eq in Hc. apply fmap_Some in Hc as (c0 & Hc0 & ->). by apply Hnew.
  - rewrite list_lookup_alter_ne in Hc by done. eauto.
Qed.

(** The part of the invariant on the lock word and the program counters:
    which transitions of one CPU keep it. *)
Definition word_inv (l : spinlock) (pcs : list lpc) : Prop :=
  (locked l = true ↔ ∃ i pc, pcs !! i = Some pc ∧ owns pc) ∧
  (∀ i j pi pj, pcs !! i = Some pi → pcs !! j = Some pj → owns pi → owns pj → i = j) ∧
  (∀ i, lcpu l = Some i ↔ pcs !! i = Some Critical).

Lemma word_inv_neutral l pcs i pc pc' :
  word_inv l pcs → pcs !! i = Some pc → ¬ owns pc → ¬ owns pc' →
  word_inv l (<[i:=pc']> pcs).
Proof.
  intros (Hl & Hu & Hc) Hi Ho Ho'.
  assert (pc ≠ Critical ∧ pc' ≠ Critical) as [Hn1 Hn2] by (unfold owns in *; naive_solver).
  repeat split.
  - intros H. apply Hl in H as (k & pk & Hk & Hok).
    exists k, pk. split; [|done]. rewrite list_lookup_insert_ne; naive_solver.
  - intros (k & pk & Hk & Hok). apply Hl. apply list_lookup_insert_Some in Hk. naive_solver.
  - intros a b pa pb Ha Hb Hoa Hob.
    apply list_lookup_insert_Some in Ha; apply list_lookup_insert_Some in Hb. naive_solver.
  - intros H. apply Hc in H. rewrite list_lookup_insert_ne; naive_solver.
  - intros H. apply Hc. apply list_lookup_insert_Some in H. naive_solver.
Qed.

Lemma word_inv_take l pcs i pc :
  word_inv l pcs → locked l = false → pcs !! i = Some pc →
  word_inv (Spinlock true (lcpu l)) (<[i:=Got]> pcs).
Proof.
  intros (Hl & Hu & Hc) Hfree Hi.
  assert (∀ k pk, pcs !! k = Some pk → ¬ owns pk) as Hno.
  { intros k pk Hk Ho. assert (locked l = true) by (apply Hl; eauto). congruence. }
  assert (i < length pcs)%nat by (by eapply lookup_lt_Some).
  repeat split; simpl.
  - intros _. exists i, Got. rewrite list_lookup_insert_eq by done. unfold owns; auto.
  - intros a b pa pb Ha Hb Hoa Hob.
    apply list_lookup_insert_Some in Ha; apply list_lookup_insert_Some in Hb. naive_solver.
  - intros H'. apply Hc in H'. exfalso. eapply (Hno _ _ H'). unfold owns; auto.
  - intros H'. apply Hc. apply list_lookup_insert_Some in H'. naive_solver.
Qed.

Lemma word_inv_own l pcs i pc pc' cpu' :
  word_inv l pcs → pcs !! i = Some pc → owns pc → owns pc' →
  cpu' = (if decide (pc' = Critical) then Some i else None) →
  word_inv (Spinlock (locked l) cpu') (<[i:=pc']> pcs).
Proof.
  intros (Hl & Hu & Hc) Hi Ho Ho' ->.
  assert (i < length pcs)%nat by (by eapply lookup_lt_Some).
  repeat split; simpl.
  - intros _. exists i, pc'. by rewrite list_lookup_insert_eq.
  - intros _. apply Hl. eauto.
  - intros a b pa pb Ha Hb Hoa Hob.
    apply list_lookup_insert_Some in Ha; apply list_lookup_insert_Some in Hb. naive_solver.
  - case_decide as Hd; [|done]. intros [= <-]. by rewrite Hd, list_lookup_insert_eq.
  - intros H'. apply list_lookup_insert_Some in H' as [(-> & -> & _)|[Hne H']].
    + by rewrite decide_True.
    + exfalso. apply Hne. eapply Hu; [exact Hi|exact H'|done|unfold owns; auto].
Qed.

Lemma word_inv_free l pcs i :
  word_inv l pcs → pcs !! i = Some Cleared →
  word_inv (Spinlock false (lcpu l)) (<[i:=Stored]> pcs).
Proof.
  intros (Hl & Hu & Hc) Hi.
  assert (∀ k pk, i ≠ k → pcs !! k = Some pk → ¬ owns pk) as Hno.
  { intros k pk Hne Hk Ho. apply Hne. eapply Hu; eauto. unfold owns; auto. }
  repeat split; simpl; [done|..].
  - intros (k & pk & Hk & Hok). apply list_lookup_insert_Some in Hk.
    unfold owns in *. naive_solver.
  - intros a b pa pb Ha Hb Hoa Hob.
    apply list_lookup_insert_Some in Ha; apply list_lookup_insert_Some in Hb.
    unfold owns in *. naive_solver.
  - intros H'. apply Hc in H'. rewrite list_lookup_insert_ne; naive_solver.
  - intros H'. apply Hc. apply list_lookup_insert_Some in H'. naive_solver.
Qed.

Lemma lock_inv_words σ : lock_inv σ → word_inv (ls_lock σ) (ls_pc σ).
Proof. intros []. by split_and!. Qed.

Lemma lock_inv_intro σ cs l pcs i pc' f :
  lock_inv σ → word_inv l pcs → pcs = <[i:=pc']> (ls_pc σ) →
  cs = alter f i (ls_cpus σ) → (∀ c, apicid (f c) = apicid c) →
  (∀ c, ls_cpus σ !! i = Some c →
    (pc' = Idle ∧ ncli (f c) = 0) ∨ (pc' ≠ Idle ∧ ncli (f c) = 1 ∧ eflags_IF (f c) = false)) →
  lock_inv (LSys cs l pcs).
Proof.
  intros Hinv (Hl & Hu & Hc) -> -> Hf Hcli.
  split; simpl; [|..|done|done|done|].
  - rewrite fmap_alter_apicid by done. apply (li_ids _ Hinv).
  - rewrite length_insert, length_alter. apply (li_len _ Hinv).
  - apply cli_inv_step; [apply (li_cli _ Hinv)|done].
Qed.

Lemma lock_inv_step σ σ' : lock_inv σ → lock_step σ σ' → lock_inv σ'.
Proof.
  intros Hinv Hstep. pose proof (lock_inv_words _ Hinv) as Hw.
  assert (∀ i pc, ls_pc σ !! i = Some pc → ∃ c, ls_cpus σ !! i = Some c) as Hcpu.
  { intros i pc Hi. apply lookup_lt_is_Some. rewrite <- (li_len _ Hinv). by eapply lookup_lt_Some. }
  assert (∀ i (l : list cpu), l = alter id i l) as Hid by (intros; by rewrite list_alter_id).
  destruct Hstep as [i pc s' t Hpc Hrun | i s' Hpc Hrun];
    destruct (Hcpu _ _ Hpc) as [c Hc]; pose proof (li_cli _ Hinv _ _ _ Hpc Hc) as Hcli.
  - rewrite (lcode_run _ Hinv i pc c Hpc Hc) in Hrun. unfold put_cpu.
    destruct pc; simpl in *.
    + injection Hrun as <- <-. eapply (lock_inv_intro σ _ _ _ i Trying pushed); try done.
      * eapply word_inv_neutral; eauto; unfold owns; naive_solver.
      * simpl. intros c' Hc'. simplify_eq. naive_solver lia.
    + destruct (locked (ls_lock σ)) eqn:Hfree; [done|]. injection Hrun as <- <-.
      eapply (lock_inv_intro σ _ _ _ i Got id); try done; [|naive_solver].
      by eapply word_inv_take.
    + injection Hrun as <- <-.
      eapply (lock_inv_intro σ _ _ _ i Critical id); try done; [|naive_solver].
      eapply word_inv_own; eauto; unfold owns; auto.
    + injection Hrun as <- <-.
      eapply (lock_inv_intro σ _ _ _ i Cleared id); try done; [|naive_solver].
      eapply word_inv_own; eauto; unfold owns; auto.
    + injection Hrun as <- <-.
      eapply (lock_inv_intro σ _ _ _ i Stored id); try done; [|naive_solver].
      by eapply word_inv_free.
    + injection Hrun as <- <-. eapply (lock_inv_intro σ _ _ _ i Idle popped); try done.
      * eapply word_inv_neutral; eauto; unfold owns; naive_solver.
      * simpl. intros c' Hc'. simplify_eq. naive_solver lia.
  - unfold acquire_xchg in Hrun. destruct (locked (on_cpu i σ).2); [|done].
    injection Hrun as <-. unfold put_cpu, on_cpu. simpl. rewrite list_insert_id by done.
    by destruct σ.
Qed.

Lemma lock_reach_inv σ : lock_reach σ → lock_inv σ.
Proof. induction 1; eauto using lock_inv_init, lock_inv_step. Qed.

(** C2: in every interleaving of [acquire]/[release] on all CPUs, at most one
    CPU is between the return of [acquire] and the call of [release], that CPU
    has interrupts off and is the one recorded in [lk->cpu]; and no piece of
    the lock code panics: it returns, or it spins because the lock is held. *)
Theorem spinlock_mutual_exclusion σ :
  lock_reach σ →
  (∀ i j, ls_pc σ !! i = Some Critical → ls_pc σ !! j = Some Critical → i = j) ∧
  (∀ i c, ls_pc σ !! i = Some Critical → ls_cpus σ !! i = Some c →
     eflags_IF c = false ∧ lcpu (ls_lock σ) = Some i ∧ locked (ls_lock σ) = true) ∧
  (∀ i pc, ls_pc σ !! i = Some pc →
     (∃ s', lcode pc (on_cpu i σ) = Ret tt s' []) ∨
     (pc = Trying ∧ locked (ls_lock σ) = true ∧ lcode pc (on_cpu i σ) = Spins (on_cpu i σ))).
Proof.
  intros Hr. pose proof (lock_reach_inv _ Hr) as Hinv. split_and!.
  - intros i j Hi Hj. eapply (li_unique _ Hinv); eauto; unfold owns; auto.
  - intros i c Hi Hc. pose proof (li_cli _ Hinv _ _ _ Hi Hc). split_and!; [naive_solver| |].
    + by apply (li_cpu _ Hinv).
    + apply (li_locked _ Hinv). exists i, Critical. unfold owns; auto.
  - intros i pc Hi.
    assert (is_Some (ls_cpus σ !! i)) as [c Hc].
    { apply lookup_lt_is_Some. rewrite <- (li_len _ Hinv). by eapply lookup_lt_Some. }
    rewrite (lcode_run _ Hinv i pc c Hi Hc). destruct pc; eauto.
    destruct (locked (ls_lock σ)); eauto.
Qed.

(** An executable schedule: CPU [i] runs its next piece of code. *)
Definition lock_do (σ : lsys) (i : nat) : lsys :=
  match ls_pc σ !! i with
  | Some pc => match lcode pc (on_cpu i σ) with
               | Ret _ s' _ => put_cpu i (lnext pc) s' σ
               | _ => σ
               end
  | None => σ
  end.

Lemma lock_do_reach l σ : lock_reach σ → lock_reach (foldl lock_do σ l).
Proof.
  revert σ; induction l as [|i l IH]; intros σ Hr; [done|]. simpl. apply IH.
  unfold lock_do. destruct (ls_pc σ !! i) eqn:Hi; [|done].
  destruct (lcode _ (on_cpu i σ)) as [[] s' t| | | |] eqn:Hrun; try done.
  eapply reach_step; [done|]. by eapply step_run.
Qed.

(** Two CPUs, the first one inside the critical section. *)
Definition two_cpus : lsys :=
  LSys [Cpu 0 1 0 false None true 0 0; Cpu 4 1 0 false None true 0 0] (Spinlock false None) [Idle; Idle].

Lemma two_cpus_reach : lock_reach (foldl lock_do two_cpus [0; 0; 1; 0; 1]%nat).
Proof.
  apply lock_do_reach, reach_init.
  split_and!; [by apply (bool_decide_unpack _)|done|done|..]; repeat constructor.
Qed.

Lemma spinlock_mutual_exclusion_witness :
  let σ := foldl lock_do two_cpus [0; 0; 1; 0; 1]%nat in
  ls_pc σ = [Critical; Trying] ∧
  (∀ i j, ls_pc σ !! i = Some Critical → ls_pc σ !! j = Some Critical → i = j).
Proof.
  split; [vm_compute; reflexivity|].
  apply (spinlock_mutual_exclusion _ two_cpus_reach).
Defined.

(** * Locks of the other components *)

(** The components that own a lock keep one bit for it: whether the executing
    CPU holds it.  Acquiring it twice and releasing it unheld panic as in
    spinlock.c; waiting for another CPU does not change the state of the
    waiting one, and mutual exclusion is the theorem above. *)
Definition lk_acquire {S} (g : S → bool) (p : bool → S → S) : M S unit :=
  s ← get; panic_if (g s) "acquire";; modify (p true).
Definition lk_release {S} (g : S → bool) (p : bool → S → S) : M S unit :=
  s ← get; panic_if (negb (g s)) "release";; modify (p false).

Lemma lk_acquire_run {S} (g : S → bool) p s : g s = false → lk_acquire g p s = Ret tt (p true s) [].
Proof. intros H. unfold lk_acquire. munfold. by rewrite H. Qed.
Lemma lk_release_run {S} (g : S → bool) p s : g s = true → lk_release g p s = Ret tt (p false s) [].
Proof. intros H. unfold lk_release. munfold. by rewrite H. Qed.
