(* ===== verification/Format.v ===== *)
(** Formatted output: the kernel's [printint] and [cprintf] (src/console.c),
    the user library's [printint] and [printf] (src/printf.c) and [atoi]
    (src/ulib.c).

    Output is the list of the characters passed to [consputc] or [putc].
    The arguments that C reads from the stack are a list of words and
    strings; a missing or mistyped argument is undefined behaviour. *)
From S2P Require Import Prelude.

Definition digits_lower : list Z := str "0123456789abcdef".
Definition digits_upper : list Z := str "0123456789ABCDEF".

(** The [do ... while] loop that fills [buf]: least significant digit first.
    [fuel] is the size of [buf]; [None] is a write past its end. *)
Fixpoint printint_digits (digits : list Z) (base : Z) (fuel : nat) (x : Z)
    : option (list Z) :=
  match fuel with
  | O => None
  | S fuel' =>
      c ← digits !! Z.to_nat (x mod base);
      let x' := x / base in
      if bool_decide (x' = 0) then Some [c]
      else rest ← printint_digits digits base fuel' x'; Some (c :: rest)
  end.

(** [printint]: [xx] is the argument as an [int]. *)
Definition printint_with (digits : list Z) (xx base : Z) (sign : bool) : option (list Z) :=
  let neg := sign && bool_decide (xx < 0) in
  let x := if neg then u32 (- xx) else u32 xx in
  buf ← printint_digits digits base 16 x;
  let buf := if neg then buf ++ [chr "-"] else buf in
  if bool_decide (length buf ≤ 16)%nat then Some (rev buf) else None.

Definition printint : Z → Z → bool → option (list Z) := printint_with digits_lower.
Definition u_printint : Z → Z → bool → option (list Z) := printint_with digits_upper.

(** A variadic argument: a 32-bit word or a [char*]. *)
Inductive farg : Type :=
| FInt (x : Z)
| FStr (s : option (list Z)).

Definition pop_int (ap : list farg) : option (Z * list farg) :=
  match ap with FInt x :: ap' => Some (x, ap') | _ => None end.
Definition pop_str (ap : list farg) : option (list Z * list farg) :=
  match ap with
  | FStr (Some s) :: ap' => Some (s, ap')
  | FStr None :: ap' => Some (str "(null)", ap')
  | _ => None
  end.

(** [cprintf]: the characters written. *)
Fixpoint cprintf_chars (fmt : list Z) (ap : list farg) : option (list Z) :=
  match fmt with
  | [] => Some []
  | c :: fmt' =>
      if bool_decide (c = 0) then Some []
      else if bool_decide (c ≠ chr "%") then
        rest ← cprintf_chars fmt' ap; Some (c :: rest)
      else
        match fmt' with
        | [] => Some []
        | c :: fmt'' =>
            if bool_decide (c = 0) then Some []
            else if bool_decide (c = chr "d") then
              '(x, ap') ← pop_int ap;
              o ← printint (i32 x) 10 true;
              rest ← cprintf_chars fmt'' ap'; Some (o ++ rest)
            else if bool_decide (c = chr "x") || bool_decide (c = chr "p") then
              '(x, ap') ← pop_int ap;
              o ← printint (i32 x) 16 false;
              rest ← cprintf_chars fmt'' ap'; Some (o ++ rest)
            else if bool_decide (c = chr "s") then
              '(s, ap') ← pop_str ap;
              rest ← cprintf_chars fmt'' ap'; Some (cstr s ++ rest)
            else if bool_decide (c = chr "%") then
              rest ← cprintf_chars fmt'' ap; Some (chr "%" :: rest)
            else
              rest ← cprintf_chars fmt'' ap; Some (chr "%" :: c :: rest)
        end
  end.

(** [cprintf] as kernel code: each character goes to [consputc]. *)
Definition cprintf {S} (fmt : string) (ap : list farg) : M S unit :=
  o ← deref (cprintf_chars (str fmt) ap);
  foreach o (λ c, emit (EvPutc c)).

(** The user library's [printf]: a two-state automaton over the format;
    [pct] is [state == '%']. *)
Fixpoint printf_chars (pct : bool) (fmt : list Z) (ap : list farg) : option (list Z) :=
  match fmt with
  | [] => Some []
  | c :: fmt' =>
      if bool_decide (c = 0) then Some []
      else if negb pct then
        if bool_decide (c = chr "%") then printf_chars true fmt' ap
        else rest ← printf_chars false fmt' ap; Some (c :: rest)
      else if bool_decide (c = chr "d") then
        '(x, ap') ← pop_int ap;
        o ← u_printint (i32 x) 10 true;
        rest ← printf_chars false fmt' ap'; Some (o ++ rest)
      else if bool_decide (c = chr "x") || bool_decide (c = chr "p") then
        '(x, ap') ← pop_int ap;
        o ← u_printint (i32 x) 16 false;
        rest ← printf_chars false fmt' ap'; Some (o ++ rest)
      else if bool_decide (c = chr "s") then
        '(s, ap') ← pop_str ap;
        rest ← printf_chars false fmt' ap'; Some (cstr s ++ rest)
      else if bool_decide (c = chr "c") then
        '(x, ap') ← pop_int ap;
        rest ← printf_chars false fmt' ap'; Some (u8 x :: rest)
      else if bool_decide (c = chr "%") then
        rest ← printf_chars false fmt' ap; Some (c :: rest)
      else
        rest ← printf_chars false fmt' ap; Some (chr "%" :: c :: rest)
  end.
Definition printf (fmt : list Z) (ap : list farg) : option (list Z) :=
  printf_chars false fmt ap.

(** [atoi]: the value of the leading decimal digits, in [int] arithmetic. *)
Fixpoint atoi_from (n : Z) (s : list Z) : Z :=
  match s with
  | c :: s' =>
      if bool_decide (chr "0" ≤ c) && bool_decide (c ≤ chr "9")
      then atoi_from (i32 (i32 (n * 10) + c - chr "0")) s'
      else n
  | [] => n
  end.
Definition atoi (s : list Z) : Z := atoi_from 0 s.

Example cprintf_ex :
  cprintf_chars (str "pid %d name %s %x%%") [FInt (-42); FStr (Some (str "sh")); FInt 255]
  = Some (str "pid -42 name sh ff%").
Proof. reflexivity. Qed.
Example printf_ex :
  printf (str "%d %x %c %q") [FInt 4294967254; FInt 48879; FInt 65] = Some (str "-42 BEEF A %q").
Proof. reflexivity. Qed.

(** * Correctness *)

(** The number a list of digit values denotes, least significant first. *)
Definition digits_value (base : Z) (ds : list Z) : Z := foldr (λ d v, d + base * v) 0 ds.

(** The character of a digit value in a digit table. *)
Definition digit_char (digits : list Z) (d : Z) : Z := default 0 (digits !! Z.to_nat d).

Lemma printint_digits_spec digits base fuel x :
  2 ≤ base → base ≤ Z.of_nat (length digits) → 0 ≤ x < base ^ Z.of_nat fuel →
  (1 ≤ fuel)%nat →
  ∃ ds, printint_digits digits base fuel x = Some (digit_char digits <$> ds) ∧
    Forall (λ d, 0 ≤ d < base) ds ∧ digits_value base ds = x ∧ (length ds ≤ fuel)%nat.
Proof.
  intros Hb Hlen. revert x. induction fuel as [|fuel IH]; intros x Hx Hf; [lia|]. cbn [printint_digits].
  pose proof (Z.mod_pos_bound x base ltac:(lia)) as Hm.
  assert (is_Some (digits !! Z.to_nat (x mod base))) as [c Hc] by (apply lookup_lt_is_Some; lia).
  assert (digit_char digits (x mod base) = c) as Hdc by (unfold digit_char; by rewrite Hc).
  rewrite Hc. simpl.
  pose proof (Z.div_mod x base ltac:(lia)) as Hdm.
  case_bool_decide as Hz.
  - exists [x mod base]. unfold digits_value. simpl. rewrite Hdc.
    split_and!; [done|by constructor|lia|lia].
  - destruct fuel as [|fuel].
    { change (Z.of_nat 1) with 1 in Hx. rewrite Z.pow_1_r in Hx. by rewrite Z.div_small in Hz. }
    destruct (IH (x / base)) as (ds & -> & Hds & Hv & Hl); [|lia|].
    { split; [by apply Z.div_pos; lia|]. apply Z.div_lt_upper_bound; [lia|].
      rewrite <- Z.pow_succ_r, <- Nat2Z.inj_succ by lia. apply Hx. }
    exists (x mod base :: ds). unfold digits_value in *. simpl. rewrite Hdc, Hv.
    split_and!; [done|by constructor|lia|lia].
Qed.

Lemma printint_digits_S digits base fuel x l :
  printint_digits digits base fuel x = Some l → printint_digits digits base (S fuel) x = Some l.
Proof.
  revert x l; induction fuel as [|n IH]; intros x l; [done|].
  intros Hp. cbn [printint_digits] in Hp. remember (S n) as n'. cbn [printint_digits]. subst n'.
  destruct (digits !! _) as [c|]; [|done]. cbn [mbind option_bind] in Hp |- *.
  case_bool_decide; [done|].
  destruct (printint_digits digits base n (x / base)) as [r|] eqn:E; [|done].
  by rewrite (IH _ _ E).
Qed.

Lemma printint_ok digits xx base sign :
  length digits = 16%nat → base = 10 ∨ base = 16 → -2147483648 ≤ xx < 2147483648 →
  ∃ ds, printint_with digits xx base sign =
      Some ((if sign && bool_decide (xx < 0) then [chr "-"] else []) ++
            rev (digit_char digits <$> ds)) ∧
    Forall (λ d, 0 ≤ d < base) ds ∧
    digits_value base ds = (if sign && bool_decide (xx < 0) then - xx else u32 xx).
Proof.
  intros Hlen Hbase Hxx. unfold printint_with. set (neg := sign && bool_decide (xx < 0)).
  assert (neg = true → xx < 0) as Hneg.
  { unfold neg. intros [_ H]%andb_prop. by apply bool_decide_eq_true in H. }
  remember (if neg then u32 (- xx) else u32 xx) as x eqn:Ex.
  assert (0 ≤ x < base ^ Z.of_nat 15) as Hx.
  { assert (0 ≤ x < 4294967296) by (rewrite Ex; destruct neg; apply u32_range).
    assert (4294967296 ≤ base ^ Z.of_nat 15) by (by destruct Hbase as [-> | ->]). lia. }
  destruct (printint_digits_spec digits base 15 x) as (ds & Hp & Hds & Hv & Hl); [lia|lia|done|lia|].
  apply printint_digits_S in Hp. rewrite Hp.
  simpl. exists ds. split_and!; [|done|].
  - rewrite bool_decide_true.
    + destruct neg; [by rewrite rev_app_distr|done].
    + destruct neg; rewrite ?length_app, length_fmap; simpl; lia.
  - rewrite Hv, Ex. destruct neg eqn:E; [|done]. rewrite u32_small; [done|].
    specialize (Hneg eq_refl). lia.
Qed.

(** * [cprintf] cannot fail *)

(** The arguments are of the kinds that the format names. *)
Fixpoint fmt_ok (fmt : list Z) (ap : list farg) : bool :=
  match fmt with
  | [] => true
  | c :: fmt' =>
      if bool_decide (c = 0) then true
      else if bool_decide (c ≠ chr "%") then fmt_ok fmt' ap
      else
        match fmt' with
        | [] => true
        | c :: fmt'' =>
            if bool_decide (c = 0) then true
            else if bool_decide (c = chr "d") || (bool_decide (c = chr "x") || bool_decide (c = chr "p")) then
              match ap with FInt _ :: ap' => fmt_ok fmt'' ap' | _ => false end
            else if bool_decide (c = chr "s") then match ap with FStr _ :: ap' => fmt_ok fmt'' ap' | _ => false end
            else fmt_ok fmt'' ap
        end
  end.
Lemma fmt_ok_chars n fmt ap : (length fmt ≤ n)%nat → fmt_ok fmt ap = true → is_Some (cprintf_chars fmt ap).
Proof.
  assert (∀ x b s, b = 10 ∨ b = 16 → ∃ o, printint (i32 x) b s = Some o) as Hp.
  { intros x b s Hb. destruct (printint_ok digits_lower (i32 x) b s) as (ds & E & _); [done|done|apply i32_range|]. by eexists. }
  revert fmt ap. induction n as [|n IH]; intros [|c fmt] ap Hn H; simpl in Hn; [by eexists|lia|by eexists|].
  cbn [fmt_ok] in H. cbn [cprintf_chars]. destruct (bool_decide (c = 0)); [by eexists|]. destruct (bool_decide (c ≠ chr "%")).
  { destruct (IH fmt ap ltac:(lia) H) as [o ->]. by eexists. }
  destruct fmt as [|c' fmt]; [by eexists|]. simpl in Hn. destruct (bool_decide (c' = 0)); [by eexists|].
  destruct (bool_decide (c' = chr "d")); [|destruct (bool_decide (c' = chr "x") || bool_decide (c' = chr "p"))]; cbn [orb] in H.
  - destruct ap as [|[x|] ap]; [done| |done]. destruct (IH fmt ap ltac:(lia) H) as [o E]. destruct (Hp x 10 true) as [d Ed]; [by left|].
    cbn [pop_int mbind option_bind]. rewrite Ed. cbn [mbind option_bind]. rewrite E. by eexists.
  - destruct ap as [|[x|] ap]; [done| |done]. destruct (IH fmt ap ltac:(lia) H) as [o E]. destruct (Hp x 16 false) as [d Ed]; [by right|].
    cbn [pop_int mbind option_bind]. rewrite Ed. cbn [mbind option_bind]. rewrite E. by eexists.
  - destruct (bool_decide (c' = chr "s")).
    + destruct ap as [|[|x] ap]; [done|done|]. destruct (IH fmt ap ltac:(lia) H) as [o E].
      destruct x; cbn [pop_str mbind option_bind]; rewrite E; by eexists.
    + destruct (IH fmt ap ltac:(lia) H) as [o E]. rewrite E. destruct (bool_decide _); by eexists.
Qed.
Lemma cprintf_run {S} fmt ap (s : S) : is_Some (cprintf_chars (str fmt) ap) → ∃ t, cprintf fmt ap s = Ret tt s t.
Proof.
  intros [o E]. unfold cprintf. rewrite E. cbn [deref]. rewrite bind_mret. clear E. induction o as [|c o [t IH]]; [by eexists|].
  cbn [foreach]. rewrite (bind_run _ _ s tt s [EvPutc c]) by done. rewrite IH. by eexists.
Qed.

Lemma foldl_dec_mono n l :
  0 ≤ n → Forall (λ d, 0 ≤ d < 10) l → n ≤ foldl (λ n d, n * 10 + d) n l.
Proof.
  revert n; induction l as [|d l IH]; intros n Hn Hl; [done|]. simpl.
  inversion Hl; subst. etransitivity; [|apply IH; [lia|done]]. lia.
Qed.

Lemma digit_char_dec digits d :
  take 10 digits = str "0123456789" → 0 ≤ d < 10 → digit_char digits d = chr "0" + d.
Proof.
  intros Ht Hd. unfold digit_char.
  rewrite <- (lookup_take_lt digits 10) by lia. rewrite Ht.
  assert (d = 0 ∨ d = 1 ∨ d = 2 ∨ d = 3 ∨ d = 4 ∨ d = 5 ∨ d = 6 ∨ d = 7 ∨ d = 8 ∨ d = 9)
    as Hcases by lia.
  by destruct_or! Hcases; subst.
Qed.

Lemma atoi_from_digits digits n l :
  take 10 digits = str "0123456789" → 0 ≤ n → Forall (λ d, 0 ≤ d < 10) l →
  foldl (λ n d, n * 10 + d) n l < 2147483648 →
  atoi_from n (digit_char digits <$> l) = foldl (λ n d, n * 10 + d) n l.
Proof.
  intros Ht. revert n; induction l as [|d l IH]; intros n Hn Hl Hlt; [done|].
  inversion Hl as [|? ? Hd Hl']; subst. simpl in *.
  rewrite digit_char_dec by done.
  pose proof (foldl_dec_mono (n * 10 + d) l ltac:(lia) Hl').
  assert (chr "0" = 48) as H0 by done. assert (chr "9" = 57) as H9 by done.
  rewrite (bool_decide_true (chr "0" ≤ _)), (bool_decide_true (_ ≤ chr "9")) by lia. simpl.
  rewrite (i32_small (n * 10)), i32_small by lia.
  replace (n * 10 + (chr "0" + d) - chr "0") with (n * 10 + d) by lia.
  apply IH; [lia|done|done].
Qed.

Lemma digits_value_foldl ds : digits_value 10 ds = foldl (λ n d, n * 10 + d) 0 (rev ds).
Proof.
  unfold digits_value. induction ds as [|d ds IH]; [done|].
  simpl. rewrite foldl_app. simpl. rewrite <- IH. lia.
Qed.

(** [printint] in base 10 or 16 never writes outside its 16-byte buffer
    and always returns; and printing a non-negative [int] in decimal and
    reading it back with the user library's [atoi] gives the same number. *)
Theorem printint_atoi_roundtrip :
  (∀ xx base sign, base = 10 ∨ base = 16 → -2147483648 ≤ xx < 2147483648 →
     is_Some (printint xx base sign) ∧ is_Some (u_printint xx base sign)) ∧
  (∀ x, 0 ≤ x < 2147483648 →
     (∃ s, printint x 10 true = Some s ∧ atoi s = x) ∧
     (∃ s, u_printint x 10 true = Some s ∧ atoi s = x)).
Proof.
  assert (∀ digits x, length digits = 16%nat → take 10 digits = str "0123456789" →
    0 ≤ x < 2147483648 → ∃ s, printint_with digits x 10 true = Some s ∧ atoi s = x) as Hrt.
  { intros digits x Hlen Ht Hx.
    destruct (printint_ok digits x 10 true) as (ds & -> & Hds & Hv); [done|auto|lia|].
    rewrite (bool_decide_false (x < 0)) in * by lia. simpl in *.
    rewrite u32_small in Hv by lia.
    eexists; split; [done|]. unfold atoi.
    assert (rev (digit_char digits <$> ds) = digit_char digits <$> rev ds) as ->
      by apply eq_sym, map_rev.
    rewrite digits_value_foldl in Hv.
    rewrite atoi_from_digits; [done|done|lia| |lia].
    apply Forall_rev. done. }
  split.
  - intros xx base sign Hb Hx.
    destruct (printint_ok digits_lower xx base sign) as (ds & H1 & _); [done|done|done|].
    destruct (printint_ok digits_upper xx base sign) as (ds' & H2 & _); [done|done|done|].
    unfold printint, u_printint. rewrite H1, H2. eauto.
  - intros x Hx. split; by apply Hrt.
Qed.

Lemma printint_atoi_roundtrip_witness :
  is_Some (printint (-2147483648) 10 true) ∧
  ∃ s, printint 1234 10 true = Some s ∧ atoi s = 1234.
Proof.
  destruct printint_atoi_roundtrip as [Htot Hrt]. split.
  - exact (proj1 (Htot (-2147483648) 10 true (or_introl eq_refl) ltac:(lia))).
  - exact (proj1 (Hrt 1234 ltac:(lia))).
Defined.
