(* ===== verification/CString.v ===== *)
(** The memory and string routines of src/string.c.

    The [mem*] routines work on one byte memory, a list indexed by address, so
    that source and destination can overlap; an access outside it is [None].
    The string routines have a source and a destination that do not overlap:
    each is the list of the bytes from the pointer to the end of its object. *)
From S2P Require Import Prelude Bytes.

Definition mread (m : list Z) (p : nat) : option Z := m !! p.
Definition mwrite (m : list Z) (p : nat) (c : Z) : option (list Z) :=
  if bool_decide (p < length m)%nat then Some (<[p := u8 c]> m) else None.

(** [rep stosb] and [rep stosl]: [cnt] stores of one byte, of one word. *)
Fixpoint stosb (m : list Z) (addr : nat) (data : Z) (cnt : nat) : option (list Z) :=
  match cnt with
  | O => Some m
  | S cnt' => m1 ← mwrite m addr data; stosb m1 (S addr) data cnt'
  end.
Fixpoint stosl (m : list Z) (addr : nat) (data : Z) (cnt : nat) : option (list Z) :=
  match cnt with
  | O => Some m
  | S cnt' =>
      m1 ← mwrite m addr data;
      m2 ← mwrite m1 (addr + 1)%nat (Z.shiftr data 8);
      m3 ← mwrite m2 (addr + 2)%nat (Z.shiftr data 16);
      m4 ← mwrite m3 (addr + 3)%nat (Z.shiftr data 24);
      stosl m4 (addr + 4)%nat data cnt'
  end.

Definition memset (m : list Z) (dst : nat) (c : Z) (n : nat) : option (list Z) :=
  if bool_decide (dst mod 4 = 0)%nat && bool_decide (n mod 4 = 0)%nat then
    let c := Z.land c 255 in
    stosl m dst (u32 (Z.lor (Z.lor (Z.lor (Z.shiftl c 24) (Z.shiftl c 16)) (Z.shiftl c 8)) c)) (n / 4)
  else stosb m dst c n.

Fixpoint memcmp (m : list Z) (s1 s2 : nat) (n : nat) : option Z :=
  match n with
  | O => Some 0
  | S n' =>
      a ← mread m s1; b ← mread m s2;
      if bool_decide (a ≠ b) then Some (a - b) else memcmp m (S s1) (S s2) n'
  end.

(** [while(n-- > 0) *--d = *--s;] and [while(n-- > 0) *d++ = *s++;] *)
Fixpoint copy_backward (m : list Z) (d s : nat) (n : nat) {struct n} : option (list Z) :=
  match n, d, s with
  | O, _, _ => Some m
  | S n', S d', S s' => c ← mread m s'; m1 ← mwrite m d' c; copy_backward m1 d' s' n'
  | _, _, _ => None
  end.
Fixpoint copy_forward (m : list Z) (d s : nat) (n : nat) : option (list Z) :=
  match n with
  | O => Some m
  | S n' => c ← mread m s; m1 ← mwrite m d c; copy_forward m1 (S d) (S s) n'
  end.

Definition memmove (m : list Z) (dst src : nat) (n : nat) : option (list Z) :=
  if bool_decide (src < dst)%nat && bool_decide (dst < src + n)%nat
  then copy_backward m (dst + n)%nat (src + n)%nat n
  else copy_forward m dst src n.

Definition memcpy (m : list Z) (dst src : nat) (n : nat) : option (list Z) := memmove m dst src n.

Fixpoint strncmp (p q : list Z) (n : nat) {struct n} : option Z :=
  match n, p, q with
  | O, _, _ => Some 0
  | S n', a :: p', b :: q' =>
      if bool_decide (a ≠ 0) && bool_decide (a = b) then strncmp p' q' n' else Some (u8 a - u8 b)
  | _, _, _ => None
  end.

(** The destination after [while(n-- > 0) *s++ = 0;]. *)
Fixpoint strncpy_pad (s : list Z) (n : nat) {struct n} : option (list Z) :=
  match n, s with
  | O, _ => Some s
  | S n', _ :: s' => r ← strncpy_pad s' n'; Some (0 :: r)
  | S _, [] => None
  end.
Fixpoint strncpy_loop (s t : list Z) (n : nat) {struct n} : option (list Z) :=
  match n, s, t with
  | O, _, _ => Some s
  | S n', _ :: s', c :: t' =>
      r ← (if bool_decide (c = 0) then strncpy_pad s' n' else strncpy_loop s' t' n'); Some (c :: r)
  | _, _, _ => None
  end.
Definition strncpy (s t : list Z) (n : Z) : option (list Z) := strncpy_loop s t (Z.to_nat n).

(** After [k] more copies at most, [*s = 0]. *)
Definition store_nul (s : list Z) : option (list Z) :=
  match s with _ :: s' => Some (0 :: s') | [] => None end.
Fixpoint safestrcpy_loop (s t : list Z) (k : nat) {struct k} : option (list Z) :=
  match k, s, t with
  | O, _, _ => store_nul s
  | S k', _ :: s', c :: t' =>
      r ← (if bool_decide (c = 0) then store_nul s' else safestrcpy_loop s' t' k'); Some (c :: r)
  | _, _, _ => None
  end.
Definition safestrcpy (s t : list Z) (n : Z) : option (list Z) :=
  if bool_decide (n ≤ 0) then Some s else safestrcpy_loop s t (Z.to_nat (n - 1)).

Fixpoint strlen_from (s : list Z) (n : Z) : option Z :=
  match s with
  | [] => None
  | c :: s' => if bool_decide (c = 0) then Some n else strlen_from s' (i32 (n + 1))
  end.
Definition strlen (s : list Z) : option Z := strlen_from s 0.

(** * Memory routines *)

Lemma mwrite_splice m p c : (p < length m)%nat → mwrite m p c = Some (splice m p [u8 c]).
Proof.
  intros Hp. unfold mwrite, splice. rewrite bool_decide_true by done. f_equal.
  rewrite insert_take_drop by done. simpl. by rewrite Nat.add_1_r.
Qed.

Lemma stosb_spec m addr data cnt :
  (addr + cnt ≤ length m)%nat →
  stosb m addr data cnt = Some (splice m addr (replicate cnt (u8 data))).
Proof.
  revert m addr. induction cnt as [|cnt IH]; intros m addr H; simpl.
  - unfold splice. simpl. by rewrite Nat.add_0_r, take_drop.
  - rewrite mwrite_splice by lia. simpl.
    rewrite IH by (rewrite length_splice; simpl; lia). f_equal.
    replace (S addr) with (addr + length [u8 data])%nat by (simpl; lia).
    rewrite splice_splice by (simpl; rewrite length_replicate; lia). done.
Qed.

(** The four bytes of the word that [memset] stores. *)
Definition fill_word (b : Z) : Z :=
  u32 (Z.lor (Z.lor (Z.lor (Z.shiftl b 24) (Z.shiftl b 16)) (Z.shiftl b 8)) b).

Lemma fill_word_bytes b :
  byte b → u8 (fill_word b) = b ∧ u8 (Z.shiftr (fill_word b) 8) = b ∧
    u8 (Z.shiftr (fill_word b) 16) = b ∧ u8 (Z.shiftr (fill_word b) 24) = b.
Proof.
  intros Hb. assert (forallb (λ b, let w := fill_word b in
      bool_decide (u8 w = b) && bool_decide (u8 (Z.shiftr w 8) = b)
      && bool_decide (u8 (Z.shiftr w 16) = b) && bool_decide (u8 (Z.shiftr w 24) = b))
    (Z.of_nat <$> seq 0 256) = true) as H by (vm_compute; reflexivity).
  rewrite forallb_forall in H. specialize (H b). cbv zeta in H.
  rewrite !andb_true_iff, !bool_decide_eq_true in H. destruct H as (((? & ?) & ?) & ?); [|done].
  apply list_elem_of_In, list_elem_of_fmap. unfold byte in Hb.
  exists (Z.to_nat b). split; [lia|]. apply elem_of_seq. lia.
Qed.

Lemma stosl_spec m addr b cnt :
  byte b → (addr + 4 * cnt ≤ length m)%nat →
  stosl m addr (fill_word b) cnt = Some (splice m addr (replicate (4 * cnt) b)).
Proof.
  intros Hb. destruct (fill_word_bytes b Hb) as (E0 & E1 & E2 & E3).
  revert m addr. induction cnt as [|cnt IH]; intros m addr H; cbn [stosl].
  - unfold splice. simpl. by rewrite Nat.add_0_r, take_drop.
  - assert (replicate (4 * S cnt) b = [b; b; b; b] ++ replicate (4 * cnt) b) as ->.
    { by replace (4 * S cnt)%nat with (4 + 4 * cnt)%nat by lia. }
    rewrite mwrite_splice, E0 by lia. simpl.
    rewrite mwrite_splice, E1 by (rewrite length_splice; simpl; lia). simpl.
    rewrite (splice_next m addr _ [b] [b]) by (simpl; lia). simpl.
    rewrite mwrite_splice, E2 by (rewrite length_splice; simpl; lia). simpl.
    rewrite (splice_next m addr _ [b; b] [b]) by (simpl; lia). simpl.
    rewrite mwrite_splice, E3 by (rewrite length_splice; simpl; lia). simpl.
    rewrite (splice_next m addr _ [b; b; b] [b]) by (simpl; lia). simpl.
    rewrite IH by (rewrite length_splice; simpl; lia). f_equal.
    rewrite (splice_next m addr _ [b; b; b; b]) by (rewrite ?length_replicate; simpl; lia).
    done.
Qed.

(** [memset] writes [n] copies of the low byte of [c] and nothing else,
    whichever of the byte and the word stores it uses. *)
Theorem memset_spec m dst c n :
  (dst + n ≤ length m)%nat → memset m dst c n = Some (splice m dst (replicate n (u8 c))).
Proof.
  intros H. unfold memset. case_bool_decide as H1; [case_bool_decide as H2|]; cbn [andb].
  - assert (n = 4 * (n / 4))%nat as Hn by (apply Nat.div_exact; lia).
    change (u32 _) with (fill_word (Z.land c 255)). rewrite land_255, stosl_spec.
    + by rewrite <- Hn.
    + apply u8_byte.
    + lia.
  - by apply stosb_spec.
  - by apply stosb_spec.
Qed.

(** Copying backwards or forwards one byte at a time is a block copy, when the
    bytes are read before they are overwritten. *)
Lemma copy_forward_spec m d s n :
  Forall byte m → (d + n ≤ length m)%nat → (s + n ≤ length m)%nat → (d ≤ s ∨ s + n ≤ d)%nat →
  copy_forward m d s n = Some (splice m d (take n (drop s m))).
Proof.
  revert m d s. induction n as [|n IH]; intros m d s Hm Hd Hs Ho; cbn [copy_forward].
  - unfold splice. simpl. by rewrite Nat.add_0_r, take_drop.
  - destruct (lookup_lt_is_Some_2 m s) as [c Hc]; [lia|]. unfold mread. rewrite Hc. simpl.
    assert (byte c) as Hb by (by eapply Forall_lookup_1).
    rewrite mwrite_splice, (u8_small c Hb) by lia. simpl.
    assert (length (take n (drop (S s) m)) = n) as Hl by (rewrite length_take, length_drop; lia).
    assert (take n (drop (S s) (splice m d [c])) = take n (drop (S s) m)) as Ht.
    { apply list_eq. intros i. destruct (decide (i < n)%nat) as [Hi|Hi].
      - rewrite !lookup_take_lt, !lookup_drop by done. rewrite lookup_splice by (simpl; lia).
        case_bool_decide as Hr; [|done]. simpl in Hr. lia.
      - rewrite !lookup_take_ge by lia. done. }
    rewrite IH, Ht; rewrite ?length_splice by (simpl; lia); try lia.
    + rewrite (drop_S m c s Hc). cbn [take].
      replace (S d) with (d + length [c])%nat by (simpl; lia).
      by rewrite splice_splice by (rewrite Hl; simpl; lia).
    + by apply Forall_splice; [|constructor].
Qed.

Lemma copy_backward_spec m d s n :
  Forall byte m → (d + n ≤ length m)%nat → (s ≤ d)%nat →
  copy_backward m (d + n) (s + n) n = Some (splice m d (take n (drop s m))).
Proof.
  revert m. induction n as [|n IH]; intros m Hm Hd Hs.
  - simpl. unfold splice. simpl. by rewrite Nat.add_0_r, take_drop.
  - rewrite !Nat.add_succ_r. cbn [copy_backward].
    destruct (lookup_lt_is_Some_2 m (s + n)%nat) as [c Hc]; [lia|]. unfold mread. rewrite Hc. simpl.
    assert (byte c) as Hb by (by eapply Forall_lookup_1).
    rewrite mwrite_splice, (u8_small c Hb) by lia. simpl.
    assert (take n (drop s (splice m (d + n) [c])) = take n (drop s m)) as Ht.
    { apply list_eq. intros i. destruct (decide (i < n)%nat) as [Hi|Hi].
      - rewrite !lookup_take_lt, !lookup_drop by done. rewrite lookup_splice by (simpl; lia).
        case_bool_decide as Hr; [|done]. simpl in Hr. lia.
      - rewrite !lookup_take_ge by lia. done. }
    assert (length (take n (drop s m)) = n) as Hl by (rewrite length_take, length_drop; lia).
    assert (length (take (S n) (drop s m)) = S n) as Hl' by (rewrite length_take, length_drop; lia).
    rewrite IH, Ht; rewrite ?length_splice by (simpl; lia); try lia.
    + f_equal. apply list_eq. intros i.
      rewrite !lookup_splice; rewrite ?Hl, ?Hl', ?length_splice by (simpl; lia); try (simpl; lia).
      simpl length. repeat case_bool_decide; try lia; try done.
      * by rewrite !lookup_take_lt by lia.
      * replace (i - (d + n))%nat with 0%nat by lia. rewrite lookup_take_lt, lookup_drop by lia.
        replace (s + (i - d))%nat with (s + n)%nat by lia. by rewrite Hc.
    + by apply Forall_splice; [|constructor].
Qed.

(** [memmove] copies the [n] source bytes to the destination and changes
    nothing else, also when the two regions overlap. *)
Theorem memmove_spec m dst src n :
  Forall byte m → (dst + n ≤ length m)%nat → (src + n ≤ length m)%nat →
  memmove m dst src n = Some (splice m dst (take n (drop src m))).
Proof.
  intros Hm Hd Hs. unfold memmove.
  case_bool_decide as H1; [case_bool_decide as H2|]; cbn [andb].
  - apply copy_backward_spec; [done|lia|lia].
  - apply copy_forward_spec; [done|lia|lia|lia].
  - apply copy_forward_spec; [done|lia|lia|lia].
Qed.

(** * Strings *)

Lemma cstr_nonzero l : Forall (λ c, c ≠ 0) (cstr l).
Proof. induction l as [|c l IH]; simpl; [done|]. case_bool_decide; auto. Qed.

Lemma strncpy_pad_spec s n :
  (n ≤ length s)%nat → strncpy_pad s n = Some (replicate n 0 ++ drop n s).
Proof.
  revert s. induction n as [|n IH]; intros [|x s] H; simpl in *; try done; try lia.
  rewrite IH by lia. done.
Qed.

Lemma strncpy_loop_spec s t n :
  (n ≤ length s)%nat → (0 ∈ t ∨ (n ≤ length t)%nat) →
  strncpy_loop s t n = Some (take n (cstr t ++ replicate n 0) ++ drop n s).
Proof.
  revert s t. induction n as [|n IH]; intros s t Hs Ht; [done|].
  destruct s as [|x s]; [simpl in Hs; lia|]. destruct t as [|c t].
  { destruct Ht as [Ht|Ht]; [by apply not_elem_of_nil in Ht|simpl in Ht; lia]. }
  cbn [strncpy_loop cstr]. case_bool_decide as Hc.
  - rewrite strncpy_pad_spec by (simpl in Hs; lia). subst c. simpl.
    by rewrite take_ge by (rewrite length_replicate; lia).
  - rewrite IH; [|simpl in Hs; lia|].
    + assert (take n (cstr t ++ replicate (S n) 0) = take n (cstr t ++ replicate n 0)) as E.
      { rewrite replicate_S_end, (assoc_L (++)).
        apply take_app_le. rewrite length_app, length_replicate. lia. }
      rewrite <- E. done.
    + destruct Ht as [Ht|Ht]; [left|right; simpl in Ht; lia].
      apply elem_of_cons in Ht as [Ht|Ht]; congruence.
Qed.

(** What [safestrcpy] leaves is a NUL-terminated prefix of the source. *)
Lemma safestrcpy_loop_spec s t k :
  (k < length s)%nat → (0 ∈ t ∨ (k ≤ length t)%nat) →
  ∃ r, safestrcpy_loop s t k = Some r ∧ length r = length s ∧ 0 ∈ take (S k) r ∧
    cstr r = take k (cstr t) ∧ drop (S k) r = drop (S k) s.
Proof.
  revert s t. induction k as [|k IH]; intros [|x s] t Hs Ht; simpl in Hs; try lia.
  { exists (0 :: s). split_and!; try done. simpl. set_solver. }
  destruct t as [|c t].
  { destruct Ht as [Ht|Ht]; [by apply not_elem_of_nil in Ht|simpl in Ht; lia]. }
  cbn [safestrcpy_loop cstr]. case_bool_decide as Hc.
  - destruct s as [|y s]; [simpl in Hs; lia|]. exists (c :: 0 :: s). subst c.
    split_and!; [done|done| |done|done]. simpl. set_solver.
  - destruct (IH s t) as (r & E & Hlen & Hin & Hcs & Hdr); [lia| |].
    { destruct Ht as [Ht|Ht]; [left|right; simpl in Ht; lia].
      apply elem_of_cons in Ht as [Ht|Ht]; congruence. }
    rewrite E. exists (c :: r). simpl. split_and!; [done|by rewrite Hlen| | |done].
    + apply elem_of_cons. by right.
    + rewrite bool_decide_false by done. by rewrite Hcs.
Qed.

(** [safestrcpy(s, t, n)] with [n > 0] writes at most [n] bytes, always
    leaves a NUL among them, and the string it leaves is the first [n-1]
    characters of [t]. *)
Theorem safestrcpy_spec s t n :
  0 < n → n ≤ Z.of_nat (length s) → (0 ∈ t ∨ n ≤ Z.of_nat (length t)) →
  ∃ r, safestrcpy s t n = Some r ∧ length r = length s ∧ 0 ∈ take (Z.to_nat n) r ∧
    cstr r = take (Z.to_nat n - 1) (cstr t) ∧ drop (Z.to_nat n) r = drop (Z.to_nat n) s.
Proof.
  intros H0 Hs Ht. unfold safestrcpy. rewrite bool_decide_false by lia.
  destruct (safestrcpy_loop_spec s t (Z.to_nat (n - 1))) as (r & E & H1 & H2 & H3 & H4); [lia| |].
  { destruct Ht; [by left|right; lia]. }
  replace (S (Z.to_nat (n - 1))) with (Z.to_nat n) in * by lia.
  exists r. split_and!; try done. rewrite H3. f_equal. lia.
Qed.

Lemma safestrcpy_length s t n r : safestrcpy s t n = Some r → length r = length s.
Proof.
  unfold safestrcpy. case_bool_decide; [by intros [= ->]|]. generalize (Z.to_nat (n - 1)). clear.
  intros k. revert s t r. induction k as [|k IH]; intros [|x s] [|c t] r; simpl; try done.
  1, 2: by intros [= <-].
  intros (r' & Hr' & [= <-])%bind_Some. simpl. f_equal.
  case_bool_decide; [|by eapply IH]. destruct s; [done|]. by injection Hr' as <-.
Qed.

Lemma strlen_from_spec s n :
  0 ∈ s → 0 ≤ n → n + Z.of_nat (length s) < 2147483648 →
  strlen_from s n = Some (n + Z.of_nat (length (cstr s))).
Proof.
  revert n. induction s as [|c s IH]; intros n H0 Hn Hl; [by apply not_elem_of_nil in H0|].
  simpl in *. case_bool_decide as Hc; [f_equal; simpl; lia|].
  rewrite i32_small by lia. rewrite IH; [simpl; f_equal; lia| |lia|lia].
  apply elem_of_cons in H0 as [?|?]; congruence.
Qed.

Lemma strlen_spec s :
  0 ∈ s → Z.of_nat (length s) < 2147483648 → strlen s = Some (Z.of_nat (length (cstr s))).
Proof. intros H0 Hl. unfold strlen. by rewrite strlen_from_spec by lia || done. Qed.

(** A string that may be read up to its NUL or for [n] characters. *)
Definition readable (p : list Z) (n : nat) : Prop := 0 ∈ p ∨ (n ≤ length p)%nat.

(** [strncmp] returns 0 exactly when the first [n] characters of the two
    strings agree. *)
Lemma strncmp_cstr p q n :
  Forall byte p → Forall byte q → readable p n → readable q n →
  ∃ r, strncmp p q n = Some r ∧ (r = 0 ↔ take n (cstr p) = take n (cstr q)).
Proof.
  revert p q. induction n as [|n IH]; intros p q Hp Hq H0p H0q; [by exists 0|].
  destruct p as [|a p]; [destruct H0p as [H|H]; [by apply not_elem_of_nil in H|simpl in H; lia]|].
  destruct q as [|b q]; [destruct H0q as [H|H]; [by apply not_elem_of_nil in H|simpl in H; lia]|].
  apply Forall_cons in Hp as [Ha Hp]. apply Forall_cons in Hq as [Hb Hq]. cbn [strncmp cstr].
  destruct (decide (a = 0)) as [->|Ha0].
  - rewrite (bool_decide_false (0 ≠ 0)) by congruence. simpl. eexists. split; [reflexivity|].
    rewrite !u8_small by done. case_bool_decide; simpl; split; intros; try lia; done.
  - rewrite (bool_decide_true (a ≠ 0)), (bool_decide_false (a = 0)) by done. simpl.
    case_bool_decide as Hab.
    + subst b. rewrite (bool_decide_false (a = 0)) by done. simpl.
      assert (∀ l, readable (a :: l) (S n) → readable l n) as Hrd.
      { intros l [[?|?]%elem_of_cons|H]; [congruence|by left|right; simpl in H; lia]. }
      destruct (IH p q Hp Hq (Hrd _ H0p) (Hrd _ H0q)) as (r & E & Hr).
      exists r. split; [done|]. rewrite Hr. split; [by intros ->|by intros [= ?]].
    + eexists. split; [reflexivity|]. rewrite !u8_small by done.
      split; [lia|]. case_bool_decide; simpl; intros [=]. lia.
Qed.

(** * Concrete runs *)

Lemma memset_spec_witness :
  memset [1; 2; 3; 4; 5; 6; 7; 8] 4 261 4 = Some [1; 2; 3; 4; 5; 5; 5; 5].
Proof. rewrite memset_spec by (simpl; lia). reflexivity. Defined.

Lemma memmove_spec_witness :
  memmove [1; 2; 3; 4; 5; 6] 2 0 4 = Some [1; 2; 1; 2; 3; 4] ∧
  memmove [1; 2; 3; 4; 5; 6] 0 2 4 = Some [3; 4; 5; 6; 5; 6].
Proof.
  assert (Forall byte [1; 2; 3; 4; 5; 6]) as Hb
    by (repeat (constructor; [unfold byte; lia|]); constructor).
  split; (rewrite memmove_spec by (exact Hb || (simpl; lia))); reflexivity.
Defined.

Lemma safestrcpy_spec_witness :
  ∃ r, safestrcpy [9; 9; 9; 9] [65; 66; 67; 68; 0] 3 = Some r ∧ cstr r = [65; 66].
Proof.
  destruct (safestrcpy_spec [9; 9; 9; 9] [65; 66; 67; 68; 0] 3) as (r & H1 & _ & _ & H2 & _);
    [lia|simpl; lia|right; simpl; lia|].
  exists r. exact (conj H1 H2).
Defined.
