(* ===== verification/Segments.v ===== *)
(** Segments, gates and the task state (src/mmu.h), and the code that fills
    the descriptor tables with them: [seginit] and the task state part of
    [switchuvm] (src/vm.c), [tvinit] and [idtinit] (src/trap.c), the operands
    of [lgdt] and [lidt] (src/x86.h).  The processor's reading of the tables
    is given as a function, and the theorem says what an interrupt, an
    exception or an [int] instruction does under the tables of the kernel. *)
From S2P Require Import Prelude Layout Bytes.

(** * Bit fields *)

(** A struct of bit fields: width and value of each, the first in the lowest
    bits; a value is cut to its width. *)
Fixpoint pack (l : list (Z * Z)) : Z :=
  match l with [] => 0 | (w, v) :: l' => v mod 2 ^ w + 2 ^ w * pack l' end.
(** The [w] bits of [x] from bit [off] on. *)
Definition field (x off w : Z) : Z := (x / 2 ^ off) mod 2 ^ w.

(** * The descriptors (src/mmu.h) *)

Definition SEG_KCODE : Z := 1.
Definition SEG_KDATA : Z := 2.
Definition SEG_TSS : Z := 5.
Definition NSEGS : Z := 6.

Record segdesc := Segdesc {
  lim_15_0 : Z; base_15_0 : Z; base_23_16 : Z; sd_type : Z; sd_s : Z; sd_dpl : Z; sd_p : Z;
  lim_19_16 : Z; sd_avl : Z; sd_rsv1 : Z; sd_db : Z; sd_g : Z; base_31_24 : Z
}.
Definition segdesc_bits (d : segdesc) : Z :=
  pack [(16, lim_15_0 d); (16, base_15_0 d); (8, base_23_16 d); (4, sd_type d); (1, sd_s d); (2, sd_dpl d); (1, sd_p d);
        (4, lim_19_16 d); (1, sd_avl d); (1, sd_rsv1 d); (1, sd_db d); (1, sd_g d); (8, base_31_24 d)].
Definition set_sd_s (v : Z) (d : segdesc) : segdesc :=
  Segdesc (lim_15_0 d) (base_15_0 d) (base_23_16 d) (sd_type d) v (sd_dpl d) (sd_p d)
    (lim_19_16 d) (sd_avl d) (sd_rsv1 d) (sd_db d) (sd_g d) (base_31_24 d).

Definition SEG (type base lim dpl : Z) : segdesc :=
  Segdesc (Z.land (Z.shiftr lim 12) 65535) (Z.land (u32 base) 65535) (Z.land (Z.shiftr (u32 base) 16) 255) type 1 dpl 1
    (Z.shiftr (u32 lim) 28) 0 0 1 1 (Z.shiftr (u32 base) 24).
Definition SEG16 (type base lim dpl : Z) : segdesc :=
  Segdesc (Z.land lim 65535) (Z.land (u32 base) 65535) (Z.land (Z.shiftr (u32 base) 16) 255) type 1 dpl 1
    (Z.shiftr (u32 lim) 16) 0 0 1 0 (Z.shiftr (u32 base) 24).

Definition STA_X : Z := 8.
Definition STA_W : Z := 2.
Definition STA_R : Z := 2.
Definition STS_T32A : Z := 9.
Definition STS_IG32 : Z := 14.
Definition STS_TG32 : Z := 15.

Record gatedesc := Gatedesc {
  off_15_0 : Z; gd_cs : Z; gd_args : Z; gd_rsv1 : Z; gd_type : Z; gd_s : Z; gd_dpl : Z; gd_p : Z; off_31_16 : Z
}.
Definition gatedesc_bits (g : gatedesc) : Z :=
  pack [(16, off_15_0 g); (16, gd_cs g); (5, gd_args g); (3, gd_rsv1 g); (4, gd_type g); (1, gd_s g); (2, gd_dpl g); (1, gd_p g);
        (16, off_31_16 g)].
Definition SETGATE (istrap : bool) (sel off d : Z) : gatedesc :=
  Gatedesc (Z.land (u32 off) 65535) sel 0 0 (if istrap then STS_TG32 else STS_IG32) 0 d 1 (Z.shiftr (u32 off) 16).

(** The fields of the task state that the kernel sets. *)
Record taskstate := Taskstate { ts_esp0 : Z; ts_ss0 : Z; ts_iomb : Z }.
Definition sizeof_taskstate : Z := 104.

(** * Filling the tables *)

(** [seginit]: the table of one CPU. *)
Definition seginit (gdt : list segdesc) : list segdesc :=
  let gdt := <[Z.to_nat SEG_KCODE := SEG (Z.lor STA_X STA_R) 0 4294967295 0]> gdt in
  let gdt := <[Z.to_nat SEG_KDATA := SEG STA_W 0 4294967295 0]> gdt in
  let gdt := <[Z.to_nat SEG_UCODE := SEG (Z.lor STA_X STA_R) 0 4294967295 DPL_USER]> gdt in
  <[Z.to_nat SEG_UDATA := SEG STA_W 0 4294967295 DPL_USER]> gdt.

(** [switchuvm] from the task state on: [tsaddr] is the address of the CPU's
    task state, [kstack] the process's kernel stack. *)
Definition switchuvm_tss (tsaddr kstack : Z) (gdt : list segdesc) : list segdesc * taskstate :=
  let gdt := <[Z.to_nat SEG_TSS := SEG16 STS_T32A tsaddr (sizeof_taskstate - 1) 0]> gdt in
  let gdt := alter (set_sd_s 0) (Z.to_nat SEG_TSS) gdt in
  (gdt, Taskstate (u32 (kstack + KSTACKSIZE)) (Z.shiftl SEG_KDATA 3) 65535).

(** [tvinit]: [vectors] are the entry points of src/vectors.S. *)
Definition tvinit_gates (vectors : nat → Z) (idt : list gatedesc) : list gatedesc :=
  foldl (λ idt i, <[i := SETGATE false (Z.shiftl SEG_KCODE 3) (vectors i) 0]> idt) idt (seq 0 256).
Definition tvinit (vectors : nat → Z) (idt : list gatedesc) : list gatedesc :=
  let idt := tvinit_gates vectors idt in
  <[Z.to_nat T_SYSCALL := SETGATE true (Z.shiftl SEG_KCODE 3) (vectors (Z.to_nat T_SYSCALL)) DPL_USER]> idt.

(** The three half words that [lgdt] and [lidt] load. *)
Definition lgdt (p size : Z) : list Z := [u16 (size - 1); u16 (u32 p); u16 (Z.shiftr (u32 p) 16)].
Definition lidt (p size : Z) : list Z := [u16 (size - 1); u16 (u32 p); u16 (Z.shiftr (u32 p) 16)].
Definition sizeof_gatedesc : Z := 8.
Definition sizeof_segdesc : Z := 8.
Definition idtinit (idt : Z) : list Z := lidt idt (256 * sizeof_gatedesc).

(** * The processor *)

(** What the processor reads in a segment descriptor. *)
Definition seg_base (x : Z) : Z := field x 16 24 + 16777216 * field x 56 8.
Definition seg_limit (x : Z) : Z :=
  let l := field x 0 16 + 65536 * field x 48 4 in if bool_decide (field x 55 1 = 1) then l * 4096 + 4095 else l.
Definition seg_dpl (x : Z) : Z := field x 45 2.
Definition seg_present (x : Z) : bool := bool_decide (field x 47 1 = 1).
Definition seg_conforming (x : Z) : bool := bool_decide (field x 42 1 = 1).
Definition seg_code (x : Z) : bool := bool_decide (field x 44 1 = 1) && bool_decide (field x 43 1 = 1).

(** What it reads in a gate. *)
Definition gate_offset (x : Z) : Z := field x 0 16 + 65536 * field x 48 16.
Definition gate_sel (x : Z) : Z := field x 16 16.
Definition gate_dpl (x : Z) : Z := field x 45 2.
Definition gate_type (x : Z) : Z := field x 40 5.
Definition gate_present (x : Z) : bool := bool_decide (field x 47 1 = 1).

(** The tables of a CPU, as bits. *)
Record tables := Tables { t_gdt : list Z; t_idt : list Z; t_ts : taskstate }.

(** Where an event takes the processor: instruction pointer, privilege level,
    the stack if it changes, and whether interrupts stay as they are. *)
Record entry := Entry { e_cs : Z; e_eip : Z; e_cpl : Z; e_stack : option (Z * Z); e_keepif : bool }.
Inductive delivery := Enters (e : entry) | Faults.

(** The event [n] at privilege level [cpl]; [software] for an [int]
    instruction, which the gate must allow. *)
Definition deliver (t : tables) (software : bool) (cpl : Z) (n : nat) : delivery :=
  match t_idt t !! n with
  | None => Faults
  | Some g =>
      if negb (gate_present g) then Faults else
      if software && bool_decide (gate_dpl g < cpl) then Faults else
      if negb (bool_decide (gate_type g = STS_IG32) || bool_decide (gate_type g = STS_TG32)) then Faults else
      match t_gdt t !! Z.to_nat (gate_sel g / 8) with
      | None => Faults
      | Some c =>
          if negb (seg_present c && seg_code c) || bool_decide (cpl < seg_dpl c) || bool_decide (seg_limit c < gate_offset g) then Faults else
          let new := if seg_conforming c then cpl else seg_dpl c in
          Enters (Entry (gate_sel g - gate_sel g mod 4 + new) (gate_offset g) new
            (if bool_decide (new < cpl) then Some (ts_ss0 (t_ts t), ts_esp0 (t_ts t)) else None)
            (bool_decide (gate_type g = STS_TG32)))
      end
  end.

(** The tables of a CPU that runs a process with the kernel stack [kstack]. *)
Definition kernel_tables (vectors : nat → Z) (tsaddr kstack : Z) (gdt : list segdesc) (idt : list gatedesc) : tables :=
  let '(gdt, ts) := switchuvm_tss tsaddr kstack (seginit gdt) in
  Tables (segdesc_bits <$> gdt) (gatedesc_bits <$> tvinit vectors idt) ts.

(** * Reading what was packed *)

Lemma pack_nonneg l : Forall (λ p, 0 ≤ p.1) l → 0 ≤ pack l.
Proof.
  induction 1 as [|[w v] l Hw _ IH]; [done|]. cbn in *. pose proof (Z.pow_pos_nonneg 2 w ltac:(lia) Hw).
  pose proof (Z.mod_pos_bound v (2 ^ w) ltac:(lia)). nia.
Qed.

Definition width (l : list (Z * Z)) : Z := foldr (λ p n, p.1 + n) 0 l.

Lemma width_nonneg l : Forall (λ p, 0 ≤ p.1) l → 0 ≤ width l.
Proof. induction 1 as [|p l Hp _ IH]; [done|]. cbn in *. unfold width in IH. lia. Qed.

Lemma field_pack l1 w v l2 :
  Forall (λ p, 0 ≤ p.1) l1 → 0 ≤ w → field (pack (l1 ++ (w, v) :: l2)) (width l1) w = v mod 2 ^ w.
Proof.
  intros H Hw. unfold field. assert (0 < 2 ^ w) as Hp by (by apply Z.pow_pos_nonneg). induction H as [|[w1 v1] l1 Hw1 Hl IH]; cbn [app pack width foldr fst].
  - rewrite Z.pow_0_r, Z.div_1_r, (Z.mul_comm (2 ^ w)), Z.mod_add by lia. apply Z.mod_mod. lia.
  - cbn in Hw1. fold (width l1). pose proof (width_nonneg l1 Hl) as Hwl.
    assert (0 < 2 ^ w1) as Hp1 by (by apply Z.pow_pos_nonneg). rewrite Z.pow_add_r, <- Z.div_div by (lia || apply Z.pow_nonzero; lia).
    rewrite (Z.mul_comm (2 ^ w1)), Z.div_add by lia.
    rewrite (Z.div_small (v1 mod 2 ^ w1)), Z.add_0_l by (by apply Z.mod_pos_bound). exact IH.
Qed.

(** A field that covers two neighbours. *)
Lemma field_join x off w1 w2 : 0 ≤ off → 0 ≤ w1 → 0 ≤ w2 → field x off (w1 + w2) = field x off w1 + 2 ^ w1 * field x (off + w1) w2.
Proof.
  intros H1 H2 H3. unfold field. rewrite !Z.pow_add_r by done. rewrite <- Z.div_div by (lia || apply Z.pow_nonzero; lia).
  apply Z.rem_mul_r; [lia|]. by apply Z.pow_pos_nonneg.
Qed.

Lemma field_nth l k w v off :
  l !! k = Some (w, v) → width (take k l) = off → Forall (λ p, 0 ≤ p.1) l → field (pack l) off w = v mod 2 ^ w.
Proof.
  intros Hk <- Hl. rewrite <- (take_drop_middle l k _ Hk) at 1. apply field_pack; [by apply Forall_take|].
  by apply (Forall_lookup_1 _ _ _ _ Hl Hk).
Qed.
(** The field [k] of a packed struct. *)
Ltac nth_field k := erewrite (field_nth _ k); [|reflexivity|reflexivity|repeat constructor; cbn; lia].

Lemma land_ones x n : 0 ≤ n → Z.land x (2 ^ n - 1) = x mod 2 ^ n.
Proof. intros H. rewrite <- Z.land_ones by done. by rewrite Z.ones_equiv. Qed.
Lemma halves x : 0 ≤ x < 4294967296 → Z.land (u32 x) 65535 mod 65536 + 65536 * (Z.shiftr (u32 x) 16 mod 65536) = x.
Proof.
  intros H. rewrite u32_small by done. change 65535 with (2 ^ 16 - 1). rewrite land_ones, Z.shiftr_div_pow2 by done.
  change (2 ^ 16) with 65536. Z.div_mod_to_equations. lia.
Qed.

Lemma gate_reads istrap sel off d :
  0 ≤ sel < 65536 → 0 ≤ off < 4294967296 → 0 ≤ d < 4 →
  let x := gatedesc_bits (SETGATE istrap sel off d) in
  gate_offset x = off ∧ gate_sel x = sel ∧ gate_dpl x = d ∧ gate_present x = true ∧ gate_type x = if istrap then STS_TG32 else STS_IG32.
Proof.
  intros Hs Ho Hd x. unfold x, gatedesc_bits, gate_offset, gate_sel, gate_dpl, gate_present, gate_type. clear x. split_and!.
  - nth_field 0%nat. nth_field 8%nat. by apply halves.
  - nth_field 1%nat. by apply Z.mod_small.
  - nth_field 6%nat. by apply Z.mod_small.
  - nth_field 7%nat. done.
  - change 5 with (4 + 1). rewrite field_join by done. nth_field 4%nat. nth_field 5%nat. by destruct istrap.
Qed.

Lemma base_parts x : 0 ≤ x < 4294967296 →
  Z.land (u32 x) 65535 mod 65536 + 65536 * (Z.land (Z.shiftr (u32 x) 16) 255 mod 256) + 16777216 * (Z.shiftr (u32 x) 24 mod 256) = x.
Proof.
  intros H. rewrite u32_small by done. change 65535 with (2 ^ 16 - 1). change 255 with (2 ^ 8 - 1). rewrite !land_ones, !Z.shiftr_div_pow2 by done.
  change (2 ^ 16) with 65536. change (2 ^ 8) with 256. change (2 ^ 24) with 16777216. Z.div_mod_to_equations. lia.
Qed.

(** A segment descriptor describes the segment it was made for: the limit of
    [SEG] in pages, that of [SEG16] in bytes. *)
Lemma seg_reads ty base lim d :
  0 ≤ ty < 16 → 0 ≤ base < 4294967296 → 0 ≤ lim < 4294967296 → 0 ≤ d < 4 →
  let x := segdesc_bits (SEG ty base lim d) in
  seg_base x = base ∧ seg_limit x = lim / 4096 * 4096 + 4095 ∧ seg_dpl x = d ∧ seg_present x = true ∧ field x 40 5 = 16 + ty.
Proof.
  intros Ht Hb Hl Hd x. unfold x, segdesc_bits, seg_base, seg_limit, seg_dpl, seg_present. clear x. split_and!.
  - change 24 with (16 + 8). rewrite field_join by done. nth_field 1%nat. nth_field 2%nat. nth_field 12%nat. by apply base_parts.
  - nth_field 11%nat. rewrite bool_decide_true by done. nth_field 0%nat. nth_field 7%nat. cbn [SEG lim_15_0 lim_19_16].
    rewrite u32_small by done. change 65535 with (2 ^ 16 - 1). rewrite !land_ones, !Z.shiftr_div_pow2 by done.
    change (2 ^ 16) with 65536. change (2 ^ 12) with 4096. change (2 ^ 28) with 268435456. change (2 ^ 4) with 16. Z.div_mod_to_equations. lia.
  - nth_field 5%nat. by apply Z.mod_small.
  - nth_field 6%nat. done.
  - change 5 with (4 + 1). rewrite field_join by done. nth_field 3%nat. nth_field 4%nat.
    cbn [set_sd_s SEG SEG16 sd_type sd_s]. rewrite (Z.mod_small ty) by done. change (2 ^ 4) with 16. change (1 mod 2 ^ 1) with 1. change (0 mod 2 ^ 1) with 0. lia.
Qed.

Lemma seg16_reads ty base lim d :
  0 ≤ ty < 16 → 0 ≤ base < 4294967296 → 0 ≤ lim < 1048576 → 0 ≤ d < 4 →
  let x := segdesc_bits (set_sd_s 0 (SEG16 ty base lim d)) in
  seg_base x = base ∧ seg_limit x = lim ∧ seg_dpl x = d ∧ seg_present x = true ∧ field x 40 5 = ty.
Proof.
  intros Ht Hb Hl Hd x. unfold x, segdesc_bits, seg_base, seg_limit, seg_dpl, seg_present. clear x. split_and!.
  - change 24 with (16 + 8). rewrite field_join by done. nth_field 1%nat. nth_field 2%nat. nth_field 12%nat. by apply base_parts.
  - nth_field 11%nat. rewrite bool_decide_false by done. nth_field 0%nat. nth_field 7%nat. cbn [set_sd_s SEG16 lim_15_0 lim_19_16].
    rewrite u32_small by lia. change 65535 with (2 ^ 16 - 1). rewrite !land_ones, !Z.shiftr_div_pow2 by done.
    change (2 ^ 16) with 65536. change (2 ^ 4) with 16. Z.div_mod_to_equations. lia.
  - nth_field 5%nat. by apply Z.mod_small.
  - nth_field 6%nat. done.
  - change 5 with (4 + 1). rewrite field_join by done. nth_field 3%nat. nth_field 4%nat.
    cbn [set_sd_s SEG SEG16 sd_type sd_s]. rewrite (Z.mod_small ty) by done. change (2 ^ 4) with 16. change (1 mod 2 ^ 1) with 1. change (0 mod 2 ^ 1) with 0. lia.
Qed.

(** * The tables *)

(** The first [n] turns of the loop of [tvinit]. *)
Definition gates (vectors : nat → Z) (idt : list gatedesc) (n : nat) : list gatedesc :=
  foldl (λ idt i, <[i := SETGATE false (Z.shiftl SEG_KCODE 3) (vectors i) 0]> idt) idt (seq 0 n).
Lemma length_gates vectors idt n : length (gates vectors idt n) = length idt.
Proof. unfold gates. induction n as [|n IH]; [done|]. rewrite seq_S, foldl_app. cbn [foldl]. by rewrite length_insert. Qed.

Lemma gates_lookup vectors idt n i :
  length idt = 256%nat → (n ≤ 256)%nat → (i < n)%nat → gates vectors idt n !! i = Some (SETGATE false (Z.shiftl SEG_KCODE 3) (vectors i) 0).
Proof.
  intros Hl. induction n as [|n IH]; intros Hn Hi; [lia|]. pose proof (length_gates vectors idt n) as Hlg. unfold gates in *.
  rewrite seq_S, foldl_app. cbn [foldl Nat.add]. destruct (decide (i = n)) as [->|Hne]; [apply list_lookup_insert_eq; lia|].
  rewrite list_lookup_insert_ne by done. apply IH; lia.
Qed.

(** The gates after [tvinit]. *)
Lemma tvinit_lookup vectors idt i :
  length idt = 256%nat → (i < 256)%nat →
  let sys := bool_decide (i = Z.to_nat T_SYSCALL) in
  tvinit vectors idt !! i = Some (SETGATE sys (Z.shiftl SEG_KCODE 3) (vectors i) (if sys then DPL_USER else 0)).
Proof.
  intros Hl Hi sys. unfold tvinit. change (tvinit_gates vectors idt) with (gates vectors idt 256).
  destruct (decide (i = Z.to_nat T_SYSCALL)) as [->|Hne].
  - unfold sys. rewrite bool_decide_true by done. rewrite list_lookup_insert_eq; [done|]. rewrite length_gates, Hl. change (Z.to_nat T_SYSCALL) with 64%nat. lia.
  - unfold sys. rewrite bool_decide_false by done. rewrite list_lookup_insert_ne by done. by apply gates_lookup.
Qed.

Lemma tvinit_out vectors idt i : length idt = 256%nat → (256 ≤ i)%nat → tvinit vectors idt !! i = None.
Proof.
  intros Hl Hi. apply lookup_ge_None_2. unfold tvinit. rewrite length_insert.
  change (tvinit_gates vectors idt) with (gates vectors idt 256). rewrite length_gates. lia.
Qed.

(** The segments of a CPU that runs a process. *)
Lemma gdt_lookup tsaddr kstack gdt :
  length gdt = 6%nat → let g := (switchuvm_tss tsaddr kstack (seginit gdt)).1 in
  g !! Z.to_nat SEG_KCODE = Some (SEG (Z.lor STA_X STA_R) 0 4294967295 0) ∧ g !! Z.to_nat SEG_KDATA = Some (SEG STA_W 0 4294967295 0) ∧
  g !! Z.to_nat SEG_UCODE = Some (SEG (Z.lor STA_X STA_R) 0 4294967295 DPL_USER) ∧ g !! Z.to_nat SEG_UDATA = Some (SEG STA_W 0 4294967295 DPL_USER) ∧
  g !! Z.to_nat SEG_TSS = Some (set_sd_s 0 (SEG16 STS_T32A tsaddr (sizeof_taskstate - 1) 0)).
Proof. intros Hl. do 6 (destruct gdt as [|? gdt]; [done|]). destruct gdt; [|done]. done. Qed.

(** Entering the kernel through a gate of [tvinit]. *)
Lemma deliver_run vectors tsaddr kstack gdt idt software cpl n :
  length gdt = 6%nat → length idt = 256%nat → 0 ≤ cpl ≤ 3 → (n < 256)%nat → 0 ≤ vectors n < 4294967296 →
  let sys := bool_decide (n = Z.to_nat T_SYSCALL) in
  deliver (kernel_tables vectors tsaddr kstack gdt idt) software cpl n =
    if software && negb sys && bool_decide (0 < cpl) then Faults
    else Enters (Entry 8 (vectors n) 0 (if bool_decide (0 < cpl) then Some (16, u32 (kstack + KSTACKSIZE)) else None) sys).
Proof.
  intros Hg Hi Hc Hn Hv sys. destruct (gdt_lookup tsaddr kstack gdt Hg) as (HK & _). unfold kernel_tables.
  destruct (switchuvm_tss tsaddr kstack (seginit gdt)) as [g ts] eqn:E. cbn [fst] in HK.
  assert (ts = Taskstate (u32 (kstack + KSTACKSIZE)) 16 65535) as -> by (unfold switchuvm_tss in E; by injection E as _ <-). clear E.
  unfold deliver. cbn [t_idt t_gdt t_ts ts_ss0 ts_esp0]. rewrite !list_lookup_fmap, (tvinit_lookup vectors idt n Hi Hn). fold sys. cbn [fmap option_fmap option_map].
  destruct (gate_reads sys (Z.shiftl SEG_KCODE 3) (vectors n) (if sys then DPL_USER else 0)) as (G1 & G2 & G3 & G4 & G5); [done|done|by destruct sys|].
  rewrite G1, G2, G3, G4, G5. cbn [negb]. change (Z.to_nat (Z.shiftl SEG_KCODE 3 / 8)) with (Z.to_nat SEG_KCODE). rewrite list_lookup_fmap, HK. cbn [fmap option_fmap option_map].
  set (c := segdesc_bits _). assert (seg_present c && seg_code c = true ∧ seg_dpl c = 0 ∧ seg_limit c = 4294967295 ∧ seg_conforming c = false) as (C1 & C2 & C3 & C4) by (by vm_compute).
  rewrite C1, C2, C3, C4. cbn [negb orb]. rewrite (bool_decide_false (cpl < 0)), (bool_decide_false (4294967295 < vectors n)) by lia. cbn [orb].
  assert (bool_decide ((if sys then DPL_USER else 0) < cpl) = negb sys && bool_decide (0 < cpl)) as ->.
  { destruct sys; cbn [negb andb]; [apply bool_decide_false; unfold DPL_USER; lia|done]. }
  rewrite (andb_assoc software). destruct (software && negb sys && bool_decide (0 < cpl)); [done|]. by destruct sys.
Qed.

(** C24: The descriptor tables keep user code out of the kernel except through
    the system call gate.  Whatever the tables held before: under the tables
    that [seginit], [tvinit] and [switchuvm] fill, every interrupt and
    exception enters the kernel at its own vector, with kernel privilege and
    interrupts off (on only for a system call), on the kernel stack of the
    running process when it comes from user mode; an [int] instruction of user
    code is accepted for vector 64 only, all others fault.  The code and data
    segments of kernel and user cover the whole address space with privilege 0
    and 3, and the task state descriptor is the CPU's own task state, whose
    I/O map lies outside of it, so that user code has no I/O instructions. *)
Theorem kernel_entry_protected (vectors : nat → Z) (tsaddr kstack : Z) (gdt : list segdesc) (idt : list gatedesc) :
  length gdt = Z.to_nat NSEGS → length idt = 256%nat → (∀ n, 0 ≤ vectors n < 4294967296) → 0 ≤ tsaddr < 4294967296 →
  let t := kernel_tables vectors tsaddr kstack gdt idt in
  let stack := (8 * SEG_KDATA, u32 (kstack + KSTACKSIZE)) in
  (∀ n cpl, (n < 256)%nat → cpl = 0 ∨ cpl = DPL_USER →
     deliver t false cpl n =
       Enters (Entry (8 * SEG_KCODE) (vectors n) 0 (if bool_decide (cpl = DPL_USER) then Some stack else None) (bool_decide (n = Z.to_nat T_SYSCALL)))) ∧
  (∀ n, deliver t true DPL_USER n =
     if bool_decide (n = Z.to_nat T_SYSCALL) then Enters (Entry (8 * SEG_KCODE) (vectors n) 0 (Some stack) true) else Faults) ∧
  (∀ k ty d, (k, ty, d) ∈ [(SEG_KCODE, 26, 0); (SEG_KDATA, 18, 0); (SEG_UCODE, 26, DPL_USER); (SEG_UDATA, 18, DPL_USER)] →
     ∃ x, t_gdt t !! Z.to_nat k = Some x ∧ seg_base x = 0 ∧ seg_limit x = 4294967295 ∧ seg_dpl x = d ∧ seg_present x = true ∧ field x 40 5 = ty) ∧
  (∃ x, t_gdt t !! Z.to_nat SEG_TSS = Some x ∧ seg_base x = tsaddr ∧ seg_limit x = sizeof_taskstate - 1 ∧ seg_dpl x = 0 ∧ seg_present x = true ∧
     field x 40 5 = STS_T32A ∧ seg_limit x < ts_iomb (t_ts t)).
Proof.
  intros Hg Hi Hv Ht t stack. change (Z.to_nat NSEGS) with 6%nat in Hg. split_and!.
  - intros n cpl Hn Hc. unfold t. assert (0 ≤ cpl ≤ 3) by (unfold DPL_USER in *; lia). rewrite deliver_run by done. cbn [andb].
    replace (bool_decide (0 < cpl)) with (bool_decide (cpl = DPL_USER)); [done|]. apply bool_decide_ext. unfold DPL_USER in *. lia.
  - intros n. destruct (decide (n < 256)%nat) as [Hn|Hn].
    + unfold t. rewrite deliver_run by done. cbn [andb]. case_bool_decide; done.
    + rewrite bool_decide_false by (change (Z.to_nat T_SYSCALL) with 64%nat; lia). unfold deliver, t, kernel_tables.
      destruct (switchuvm_tss tsaddr kstack (seginit gdt)). cbn [t_idt]. rewrite list_lookup_fmap, tvinit_out by (done || lia). done.
  - intros k ty d Hk. destruct (gdt_lookup tsaddr kstack gdt Hg) as (H1 & H2 & H3 & H4 & _). unfold t, kernel_tables.
    destruct (switchuvm_tss tsaddr kstack (seginit gdt)) as [g ts]. cbn [fst t_gdt] in *. setoid_rewrite list_lookup_fmap.
    rewrite !elem_of_cons in Hk. destruct Hk as [[= -> -> ->]|[[= -> -> ->]|[[= -> -> ->]|[[= -> -> ->]|Hk]]]]; [..|by apply elem_of_nil in Hk];
      eexists; (split; [rewrite ?H1, ?H2, ?H3, ?H4; reflexivity|]); apply seg_reads; done.
  - destruct (gdt_lookup tsaddr kstack gdt Hg) as (_ & _ & _ & _ & H5). unfold t, kernel_tables.
    assert (ts_iomb (switchuvm_tss tsaddr kstack (seginit gdt)).2 = 65535) as Hio by done.
    destruct (switchuvm_tss tsaddr kstack (seginit gdt)) as [g ts]. cbn [fst snd t_gdt t_ts] in *. rewrite list_lookup_fmap, H5.
    destruct (seg16_reads STS_T32A tsaddr (sizeof_taskstate - 1) 0) as (R1 & R2 & R3 & R4 & R5); [done..|].
    eexists. split; [reflexivity|]. rewrite Hio, R2. by split_and!.
Qed.

Lemma kernel_entry_protected_witness :
  let z := Segdesc 0 0 0 0 0 0 0 0 0 0 0 0 0 in let g := Gatedesc 0 0 0 0 0 0 0 0 0 in
  let t := kernel_tables (λ n, 2148560896) 2148700000 2380267520 (replicate 6 z) (replicate 256 g) in
  deliver t true DPL_USER 13 = Faults ∧ deliver t true DPL_USER 64 = Enters (Entry 8 2148560896 0 (Some (16, 2380271616)) true).
Proof.
  intros z g t. destruct (kernel_entry_protected (λ n, 2148560896) 2148700000 2380267520 (replicate 6 z) (replicate 256 g)) as (_ & H & _); [done..|].
  split; [exact (H 13%nat)|exact (H 64%nat)].
Defined.
