(* ===== verification/Devices.v ===== *)
(** The interrupt controllers, the clock and the serial line: src/lapic.c,
    src/ioapic.c, src/picirq.c and src/uart.c.

    A device is what its registers answer: a function from the accesses made
    so far to the value a read gives.  The code runs over the list of its
    accesses, and the theorems hold for every device, or for those that
    behave as stated. *)
From S2P Require Import Prelude Layout Bytes Format.

(** An I/O port, a register of the local APIC, and the two windows of the I/O
    APIC: the register it selects and the data of that register. *)
Inductive place := Port (p : Z) | Lapic (i : Z) | IoReg | IoData.
Inductive access := Read (p : place) | Write (p : place) (v : Z).
#[export] Instance place_eq_dec : EqDecision place.
Proof. solve_decision. Defined.
#[export] Instance access_eq_dec : EqDecision access.
Proof. solve_decision. Defined.

(** The accesses so far, the last one first. *)
Definition bus := list access.

Definition ID : Z := 8.
Definition VER : Z := 12.
Definition TPR : Z := 32.
Definition EOI : Z := 44.
Definition SVR : Z := 60.
Definition ENABLE : Z := 256.
Definition ESR : Z := 160.
Definition ICRLO : Z := 192.
Definition INIT : Z := 1280.
Definition STARTUP : Z := 1536.
Definition DELIVS : Z := 4096.
Definition ASSERT : Z := 16384.
Definition LEVEL : Z := 32768.
Definition BCAST : Z := 524288.
Definition ICRHI : Z := 196.
Definition TIMER : Z := 200.
Definition X1 : Z := 11.
Definition PERIODIC : Z := 131072.
Definition PCINT : Z := 208.
Definition LINT0 : Z := 212.
Definition LINT1 : Z := 216.
Definition ERROR : Z := 220.
Definition MASKED : Z := 65536.
Definition TICR : Z := 224.
Definition TDCR : Z := 248.

Definition CMOS_PORT : Z := 112.
Definition CMOS_RETURN : Z := 113.
Definition CMOS_STATA : Z := 10.
Definition CMOS_STATB : Z := 11.
Definition CMOS_UIP : Z := 128.
Definition SECS : Z := 0.
Definition MINS : Z := 2.
Definition HOURS : Z := 4.
Definition DAY : Z := 7.
Definition MONTH : Z := 8.
Definition YEAR : Z := 9.

Definition REG_ID : Z := 0.
Definition REG_VER : Z := 1.
Definition REG_TABLE : Z := 16.
Definition INT_DISABLED : Z := 65536.

Definition IO_PIC1 : Z := 32.
Definition IO_PIC2 : Z := 160.
Definition COM1 : Z := 1016.

Record rtcdate := Rtcdate { second : Z; minute : Z; hour : Z; day : Z; month : Z; year : Z }.
#[export] Instance rtcdate_eq_dec : EqDecision rtcdate.
Proof. solve_decision. Defined.

Section devices.
Context (dev : bus → place → Z).

Definition rd (p : place) : M bus Z := h ← get; modify (cons (Read p));; mret (dev h p).
Definition wr (p : place) (v : Z) : M bus unit := modify (cons (Write p v)).
(** [inb] and [outb] transfer a byte. *)
Definition inb (port : Z) : M bus Z := x ← rd (Port port); mret (u8 x).
Definition outb (port v : Z) : M bus unit := wr (Port port) (u8 v).

(** ** The local APIC (src/lapic.c) *)

Definition lapicw (index value : Z) : M bus unit := wr (Lapic index) (u32 value);; rd (Lapic ID);; mret tt.

(** [while(lapic[ICRLO] & DELIVS) ;] *)
Fixpoint wait_delivered (fuel : nat) : M bus unit :=
  match fuel with
  | O => undef
  | S fuel' => x ← rd (Lapic ICRLO); if bool_decide (Z.land x DELIVS ≠ 0) then wait_delivered fuel' else mret tt
  end.

(** [present] is the test of the pointer [lapic]. *)
Definition lapicinit (fuel : nat) (present : bool) : M bus unit :=
  if negb present then mret tt else
  lapicw SVR (Z.lor ENABLE (T_IRQ0 + IRQ_SPURIOUS));;
  lapicw TDCR X1;;
  lapicw TIMER (Z.lor PERIODIC (T_IRQ0 + IRQ_TIMER));;
  lapicw TICR 10000000;;
  lapicw LINT0 MASKED;;
  lapicw LINT1 MASKED;;
  v ← rd (Lapic VER);
  (if bool_decide (4 ≤ Z.land (Z.shiftr v 16) 255) then lapicw PCINT MASKED else mret tt);;
  lapicw ERROR (T_IRQ0 + IRQ_ERROR);;
  lapicw ESR 0;;
  lapicw ESR 0;;
  lapicw EOI 0;;
  lapicw ICRHI 0;;
  lapicw ICRLO (Z.lor (Z.lor BCAST INIT) LEVEL);;
  wait_delivered fuel;;
  lapicw TPR 0.

Definition lapicid (present : bool) : M bus Z :=
  if negb present then mret 0 else x ← rd (Lapic ID); mret (Z.shiftr x 24).
Definition lapiceoi (present : bool) : M bus unit := if present then lapicw EOI 0 else mret tt.

(** [lapicstartap]: the two half words of the warm reset vector are the
    result, the rest are accesses. *)
Definition lapicstartap (apicid addr : Z) : M bus (Z * Z) :=
  outb CMOS_PORT 15;;
  outb (CMOS_PORT + 1) 10;;
  let wrv := (0, u16 (Z.shiftr addr 4)) in
  lapicw ICRHI (Z.shiftl apicid 24);;
  lapicw ICRLO (Z.lor (Z.lor INIT LEVEL) ASSERT);;
  lapicw ICRLO (Z.lor INIT LEVEL);;
  foreach (seq 0 2) (λ _,
    lapicw ICRHI (Z.shiftl apicid 24);;
    lapicw ICRLO (Z.lor STARTUP (Z.shiftr addr 12)));;
  mret wrv.

(** ** The clock (src/lapic.c) *)

Definition cmos_read (reg : Z) : M bus Z := outb CMOS_PORT reg;; inb CMOS_RETURN.
Definition fill_rtcdate : M bus rtcdate :=
  s ← cmos_read SECS; mi ← cmos_read MINS; h ← cmos_read HOURS; d ← cmos_read DAY; mo ← cmos_read MONTH; y ← cmos_read YEAR;
  mret (Rtcdate s mi h d mo y).

(** The loop that reads the date twice. *)
Fixpoint cmos_stable (fuel : nat) : M bus rtcdate :=
  match fuel with
  | O => undef
  | S fuel' =>
      t1 ← fill_rtcdate;
      a ← cmos_read CMOS_STATA;
      if bool_decide (Z.land a CMOS_UIP ≠ 0) then cmos_stable fuel' else
      t2 ← fill_rtcdate;
      if bool_decide (t1 = t2) then mret t1 else cmos_stable fuel'
  end.
(** [CONV] *)
Definition conv (x : Z) : Z := u32 (Z.shiftr x 4 * 10 + Z.land x 15).
Definition convert (t : rtcdate) : rtcdate :=
  Rtcdate (conv (second t)) (conv (minute t)) (conv (hour t)) (conv (day t)) (conv (month t)) (conv (year t)).
Definition cmostime (fuel : nat) : M bus rtcdate :=
  sb ← cmos_read CMOS_STATB;
  let bcd := bool_decide (Z.land sb (Z.shiftl 1 2) = 0) in
  t1 ← cmos_stable fuel;
  let t1 := if bcd then convert t1 else t1 in
  mret (Rtcdate (second t1) (minute t1) (hour t1) (day t1) (month t1) (u32 (year t1 + 2000))).

(** ** The I/O APIC (src/ioapic.c) and the old controllers (src/picirq.c) *)

Definition ioapicread (reg : Z) : M bus Z := wr IoReg reg;; rd IoData.
Definition ioapicwrite (reg data : Z) : M bus unit := wr IoReg reg;; wr IoData (u32 data).
Definition ioapicinit (ioapicid : Z) : M bus unit :=
  v ← ioapicread REG_VER;
  let maxintr := Z.land (Z.shiftr v 16) 255 in
  i ← ioapicread REG_ID;
  let id := Z.shiftr i 24 in
  (if bool_decide (id ≠ ioapicid)
   then cprintf ("ioapicinit: id isn't equal to ioapicid; not a MP" +:+ String (Ascii.ascii_of_nat 10) EmptyString) [] else mret tt);;
  foreach (seqZ 0 (maxintr + 1)) (λ i,
    ioapicwrite (REG_TABLE + 2 * i) (Z.lor INT_DISABLED (T_IRQ0 + i));;
    ioapicwrite (REG_TABLE + 2 * i + 1) 0).
Definition ioapicenable (irq cpunum : Z) : M bus unit :=
  ioapicwrite (REG_TABLE + 2 * irq) (T_IRQ0 + irq);;
  ioapicwrite (REG_TABLE + 2 * irq + 1) (Z.shiftl cpunum 24).
Definition picinit : M bus unit := outb (IO_PIC1 + 1) 255;; outb (IO_PIC2 + 1) 255.

(** ** The serial line (src/uart.c) *)

(** [for(i = 0; i < 128 && !(inb(COM1+5) & 0x20); i++)]: [n] is what is left. *)
Fixpoint uart_wait (n : nat) : M bus unit :=
  match n with
  | O => mret tt
  | S n' => x ← inb (COM1 + 5); if bool_decide (Z.land x 32 = 0) then uart_wait n' else mret tt
  end.
Definition uartputc (uart : bool) (c : Z) : M bus unit :=
  if negb uart then mret tt else uart_wait 128;; outb (COM1 + 0) c.
Definition uartgetc (uart : bool) : M bus Z :=
  if negb uart then mret (-1) else
  x ← inb (COM1 + 5);
  if bool_decide (Z.land x 1 = 0) then mret (-1) else inb (COM1 + 0).
(** [uartinit]: the result is the variable [uart]. *)
Definition uartinit : M bus bool :=
  outb (COM1 + 2) 0;;
  outb (COM1 + 3) 128;;
  outb (COM1 + 0) (115200 / 9600);;
  outb (COM1 + 1) 0;;
  outb (COM1 + 3) 3;;
  outb (COM1 + 4) 0;;
  outb (COM1 + 1) 1;;
  x ← inb (COM1 + 5);
  if bool_decide (x = 255) then mret false else
  inb (COM1 + 2);;
  inb (COM1 + 0);;
  ioapicenable IRQ_COM1 0;;
  foreach (str ("xv6..." +:+ String (Ascii.ascii_of_nat 10) EmptyString)) (uartputc true);;
  mret true.
End devices.

(** * The I/O APIC *)

(** The register selected and the registers' contents, from the accesses. *)
Fixpoint io_sel (h : bus) : Z :=
  match h with [] => 0 | Write IoReg v :: _ => v | _ :: h' => io_sel h' end.
Fixpoint io_table (t0 : Z → Z) (h : bus) : Z → Z :=
  match h with
  | [] => t0
  | Write IoData v :: h' => λ r, if bool_decide (r = io_sel h') then v else io_table t0 h' r
  | _ :: h' => io_table t0 h'
  end.
(** The processor that the last request for [irq] names. *)
Definition routed (en : list (Z * Z)) (irq : Z) : option Z := foldl (λ r e, if bool_decide (e.1 = irq) then Some e.2 else r) None en.

Section ioapic.
Context (dev : bus → place → Z) (t0 : Z → Z).

Lemma ioapicwrite_run reg v h :
  ∃ h', ioapicwrite reg v h = Ret tt h' [] ∧ ∀ r, io_table t0 h' r = if bool_decide (r = reg) then u32 v else io_table t0 h r.
Proof. eexists. split; [reflexivity|]. intros r. done. Qed.

(** An entry of the redirection table. *)
Definition entry_is (h : bus) (i lo hi : Z) : Prop := io_table t0 h (REG_TABLE + 2 * i) = lo ∧ io_table t0 h (REG_TABLE + 2 * i + 1) = hi.

Lemma entry_write i lo hi h :
  ∃ h', (ioapicwrite (REG_TABLE + 2 * i) lo;; ioapicwrite (REG_TABLE + 2 * i + 1) hi) h = Ret tt h' [] ∧
    entry_is h' i (u32 lo) (u32 hi) ∧ ∀ j lo' hi', j ≠ i → entry_is h j lo' hi' → entry_is h' j lo' hi'.
Proof.
  destruct (ioapicwrite_run (REG_TABLE + 2 * i) lo h) as (h1 & R1 & H1). destruct (ioapicwrite_run (REG_TABLE + 2 * i + 1) hi h1) as (h2 & R2 & H2).
  exists h2. split; [rewrite (bind_run _ _ _ _ _ _ R1); by rewrite R2|]. unfold entry_is. split.
  - rewrite !H2, !H1. rewrite bool_decide_false, !bool_decide_true by lia. done.
  - intros j lo' hi' Hne. rewrite !H2, !H1. rewrite !bool_decide_false by lia. done.
Qed.

Lemma entries_write n h (lo hi : Z → Z) :
  ∃ h', foreach (seqZ 0 (Z.of_nat n)) (λ i, ioapicwrite (REG_TABLE + 2 * i) (lo i);; ioapicwrite (REG_TABLE + 2 * i + 1) (hi i)) h = Ret tt h' [] ∧
    ∀ i, 0 ≤ i < Z.of_nat n → entry_is h' i (u32 (lo i)) (u32 (hi i)).
Proof.
  assert (∀ m h, ∃ h', foreach (seqZ m (Z.of_nat n)) (λ i, ioapicwrite (REG_TABLE + 2 * i) (lo i);; ioapicwrite (REG_TABLE + 2 * i + 1) (hi i)) h = Ret tt h' [] ∧
    (∀ i, m ≤ i < m + Z.of_nat n → entry_is h' i (u32 (lo i)) (u32 (hi i))) ∧
    ∀ j x y, j < m → entry_is h j x y → entry_is h' j x y) as H.
  { clear h. induction n as [|n IH]; intros m h; [exists h; split_and!; [done|lia|done]|]. rewrite seqZ_cons by lia. cbn [foreach].
    destruct (entry_write m (lo m) (hi m) h) as (h1 & R1 & E1 & O1). rewrite Nat2Z.inj_succ, Z.pred_succ.
    destruct (IH (Z.succ m) h1) as (h2 & R2 & E2 & O2). exists h2. split_and!.
    - rewrite (bind_run _ _ _ _ _ _ R1). by rewrite R2.
    - intros i Hi. destruct (decide (i = m)) as [->|]; [apply O2; [lia|done]|apply E2; lia].
    - intros j x y Hj Hx. apply O2; [lia|]. apply O1; [lia|done]. }
  destruct (H 0 h) as (h' & R & E & _). exists h'. split; [done|]. intros i Hi. apply E. lia.
Qed.

(** What is in the table after some calls of [ioapicenable]. *)
Definition routing (max : Z) (r : Z → option Z) (h : bus) : Prop :=
  ∀ i, 0 ≤ i ≤ max → match r i with
    | None => entry_is h i (Z.lor INT_DISABLED (T_IRQ0 + i)) 0
    | Some cpu => entry_is h i (T_IRQ0 + i) (u32 (Z.shiftl cpu 24))
    end.

Lemma enable_run max r h irq cpu :
  routing max r h → max < 256 →
  ∃ h', ioapicenable irq cpu h = Ret tt h' [] ∧ routing max (λ i, if bool_decide (irq = i) then Some cpu else r i) h'.
Proof.
  intros Hr Hm. destruct (entry_write irq (T_IRQ0 + irq) (Z.shiftl cpu 24) h) as (h' & R & E & O). exists h'. split; [exact R|].
  intros i Hi. case_bool_decide as Hb; [subst irq; rewrite u32_small in E by (unfold T_IRQ0; lia); exact E|].
  specialize (Hr i Hi). destruct (r i); apply O; try done; by intros ->.
Qed.

Lemma enables_run max en r h :
  routing max r h → max < 256 →
  ∃ h', foreach en (λ e, ioapicenable e.1 e.2) h = Ret tt h' [] ∧
    routing max (λ i, foldl (λ r e, if bool_decide (e.1 = i) then Some e.2 else r) (r i) en) h'.
Proof.
  revert r h. induction en as [|[irq cpu] en IH]; intros r h Hr Hm; [by exists h|]. cbn [foreach].
  destruct (enable_run max r h irq cpu Hr Hm) as (h1 & R1 & H1). destruct (IH _ h1 H1 Hm) as (h2 & R2 & H2).
  exists h2. split; [rewrite (bind_run _ _ _ _ _ _ R1); by rewrite R2|exact H2].
Qed.

Lemma land_byte x : 0 ≤ Z.land x 255 < 256.
Proof. change 255 with (Z.ones 8). rewrite Z.land_ones by done. by apply Z.mod_pos_bound. Qed.

Lemma ioapicinit_run id h :
  let max := Z.land (Z.shiftr (dev (Write IoReg REG_VER :: h) IoData) 16) 255 in
  ∃ h' t, ioapicinit dev id h = Ret tt h' t ∧ routing max (λ _, None) h'.
Proof.
  intros max. pose proof (land_byte (Z.shiftr (dev (Write IoReg REG_VER :: h) IoData) 16)) as Hm. fold max in Hm. unfold ioapicinit.
  set (h1 := Read IoData :: Write IoReg REG_VER :: h). assert (ioapicread dev REG_VER h = Ret (dev (Write IoReg REG_VER :: h) IoData) h1 []) as R1 by done.
  mstep R1. cbv zeta. fold max. set (h2 := Read IoData :: Write IoReg REG_ID :: h1).
  assert (ioapicread dev REG_ID h1 = Ret (dev (Write IoReg REG_ID :: h1) IoData) h2 []) as R2 by done. mstep R2.
  destruct (entries_write (Z.to_nat (max + 1)) h2 (λ i, Z.lor INT_DISABLED (T_IRQ0 + i)) (λ _, 0)) as (h3 & R3 & E3). rewrite Z2Nat.id in R3 by lia.
  assert (∃ t, (if bool_decide (Z.shiftr (dev (Write IoReg REG_ID :: h1) IoData) 24 ≠ id)
    then cprintf ("ioapicinit: id isn't equal to ioapicid; not a MP" +:+ String (Ascii.ascii_of_nat 10) EmptyString) [] else mret tt) h2 = Ret tt h2 t) as [t R4].
  { case_bool_decide; [|by eexists]. apply cprintf_run. by eexists. }
  rewrite (bind_run _ _ _ _ _ _ R4), R3. eexists _, _. split; [reflexivity|]. intros i Hi. rewrite Z2Nat.id in E3 by lia.
  specialize (E3 i ltac:(lia)). replace (Z.lor INT_DISABLED (T_IRQ0 + i)) with (u32 (Z.lor INT_DISABLED (T_IRQ0 + i))); [exact E3|].
  apply u32_small. rewrite lor_flags by (done || (unfold T_IRQ0; lia)). unfold INT_DISABLED, T_IRQ0. lia.
Qed.
End ioapic.

(** C30: After [ioapicinit] exactly the interrupts that were asked for are let
    through.  Whatever the controller's registers held, after [ioapicinit] and
    any calls of [ioapicenable] (in the kernel those of [consoleinit],
    [uartinit] and [ideinit]) an interrupt line of the controller is enabled,
    edge triggered and active high, with the vector [T_IRQ0] plus its number,
    and goes to the processor that the last call for it named, if there was
    such a call; otherwise it is disabled and routed to none. *)
Theorem interrupts_routed (dev : bus → place → Z) (t0 : Z → Z) (id : Z) (en : list (Z * Z)) (h : bus) :
  let max := Z.land (Z.shiftr (dev (Write IoReg REG_VER :: h) IoData) 16) 255 in
  ∃ h' t, (ioapicinit dev id;; foreach en (λ e, ioapicenable e.1 e.2)) h = Ret tt h' t ∧
    ∀ i, 0 ≤ i ≤ max →
      let lo := io_table t0 h' (REG_TABLE + 2 * i) in let hi := io_table t0 h' (REG_TABLE + 2 * i + 1) in
      match routed en i with
      | None => lo = INT_DISABLED + T_IRQ0 + i ∧ hi = 0
      | Some cpu => lo = T_IRQ0 + i ∧ hi = u32 (cpu * 16777216)
      end.
Proof.
  intros max. pose proof (land_byte (Z.shiftr (dev (Write IoReg REG_VER :: h) IoData) 16)) as Hm. fold max in Hm.
  destruct (ioapicinit_run dev t0 id h) as (h1 & t1 & R1 & H1). fold max in H1.
  destruct (enables_run t0 max en _ h1 H1 ltac:(lia)) as (h2 & R2 & H2). exists h2. eexists. split; [rewrite (bind_run _ _ _ _ _ _ R1), R2; reflexivity|].
  intros i Hi lo hi. specialize (H2 i Hi). cbn in H2. fold (routed en i) in H2. unfold entry_is in H2. destruct (routed en i).
  - rewrite Z.shiftl_mul_pow2 in H2 by done. exact H2.
  - rewrite lor_flags in H2 by (done || (unfold T_IRQ0; lia)). rewrite Z.add_assoc in H2. exact H2.
Qed.

(** The lines the kernel asks for: keyboard and serial line on the first
    processor, the disk on the last of two. *)
Example kernel_lines :
  routed [(IRQ_KBD, 0); (IRQ_COM1, 0); (IRQ_IDE, 1)] IRQ_IDE = Some 1 ∧ routed [(IRQ_KBD, 0); (IRQ_COM1, 0); (IRQ_IDE, 1)] IRQ_TIMER = None.
Proof. done. Qed.

(** * The clock *)

(** Two decimal digits as the clock holds them. *)
Definition bcd (x : Z) : Z := 16 * (x / 10) + x mod 10.
Lemma conv_bcd x : 0 ≤ x < 100 → conv (bcd x) = x ∧ 0 ≤ bcd x < 256.
Proof.
  intros Hx. assert (0 ≤ bcd x < 256) as Hb by (unfold bcd; Z.div_mod_to_equations; lia). split; [|done]. unfold conv.
  change 15 with (Z.ones 4). rewrite Z.land_ones, Z.shiftr_div_pow2 by done. change (2 ^ 4) with 16.
  rewrite u32_small by (unfold bcd in *; Z.div_mod_to_equations; lia). unfold bcd. Z.div_mod_to_equations. lia.
Qed.

Lemma land_above x k : 0 ≤ k → 0 ≤ x < 2 ^ k → Z.land x (2 ^ k) = 0.
Proof.
  intros Hk Hx. apply Z.bits_inj'. intros n Hn. rewrite Z.land_spec, Z.bits_0. destruct (decide (n = k)) as [->|].
  - assert (Z.testbit x k = false) as -> by (apply Z.testbit_false; [done|]; by rewrite Z.div_small). done.
  - rewrite Z.pow2_bits_false by lia. apply andb_false_r.
Qed.

Section clock.
Context (dev : bus → place → Z).

(** While the code adds accesses to [h] only, the register [r] holds [v]. *)
Definition stands (h : bus) (r v : Z) : Prop := ∀ l, dev (Write (Port CMOS_PORT) r :: l ++ h) (Port CMOS_RETURN) = v.

Lemma cmos_read_run h r v l :
  stands h r v → 0 ≤ r < 256 → 0 ≤ v < 256 → ∃ l', cmos_read dev r (l ++ h) = Ret v (l' ++ h) [].
Proof.
  intros Hs Hr Hv. exists (Read (Port CMOS_RETURN) :: Write (Port CMOS_PORT) r :: l). 
  change (Ret (u8 (dev (Write (Port CMOS_PORT) (u8 r) :: l ++ h) (Port CMOS_RETURN))) (Read (Port CMOS_RETURN) :: Write (Port CMOS_PORT) (u8 r) :: l ++ h) [] =
          Ret v (Read (Port CMOS_RETURN) :: Write (Port CMOS_PORT) r :: l ++ h) []).
  unfold u8. by rewrite (Z.mod_small r), Hs, Z.mod_small by done.
Qed.

(** The registers hold the date. *)
Definition clock_at (h : bus) (t : rtcdate) : Prop :=
  stands h SECS (second t) ∧ stands h MINS (minute t) ∧ stands h HOURS (hour t) ∧ stands h DAY (day t) ∧ stands h MONTH (month t) ∧ stands h YEAR (year t) ∧
  Forall (λ x, 0 ≤ x < 256) [second t; minute t; hour t; day t; month t; year t].

Lemma fill_run h t l : clock_at h t → ∃ l', fill_rtcdate dev (l ++ h) = Ret t (l' ++ h) [].
Proof.
  intros (H1 & H2 & H3 & H4 & H5 & H6 & Hr). rewrite !Forall_cons in Hr. destruct Hr as (R1 & R2 & R3 & R4 & R5 & R6 & _). unfold fill_rtcdate.
  destruct (cmos_read_run h SECS _ l H1) as (l1 & E1); [done..|]. mstep E1.
  destruct (cmos_read_run h MINS _ l1 H2) as (l2 & E2); [done..|]. mstep E2.
  destruct (cmos_read_run h HOURS _ l2 H3) as (l3 & E3); [done..|]. mstep E3.
  destruct (cmos_read_run h DAY _ l3 H4) as (l4 & E4); [done..|]. mstep E4.
  destruct (cmos_read_run h MONTH _ l4 H5) as (l5 & E5); [done..|]. mstep E5.
  destruct (cmos_read_run h YEAR _ l5 H6) as (l6 & E6); [done..|]. mstep E6. exists l6. by destruct t.
Qed.

(** A date that [cmostime] returns was read twice, with no update under way
    in between; the two readings frame what the loop returns. *)
Lemma stable_twice fuel h t h' tr :
  cmos_stable dev fuel h = Ret t h' tr →
  ∃ h1 h2 a h3, fill_rtcdate dev h1 = Ret t h2 [] ∧ cmos_read dev CMOS_STATA h2 = Ret a h3 [] ∧ Z.land a CMOS_UIP = 0 ∧ fill_rtcdate dev h3 = Ret t h' [].
Proof.
  revert h tr. induction fuel as [|fuel IH]; intros h tr H; [done|]. cbn [cmos_stable] in H.
  destruct (fill_rtcdate dev h) as [t1 h2 tr1| | | |] eqn:E1; try done.
  assert (tr1 = []) as -> by (unfold fill_rtcdate, cmos_read, outb, inb in E1; cbn in E1; by injection E1).
  rewrite (bind_run _ _ _ _ _ _ E1), prepend_nil in H.
  destruct (cmos_read dev CMOS_STATA h2) as [a h3 tr2| | | |] eqn:E2; try done.
  assert (tr2 = []) as -> by (unfold cmos_read, outb, inb in E2; cbn in E2; by injection E2).
  rewrite (bind_run _ _ _ _ _ _ E2), prepend_nil in H. case_bool_decide as Hu; [by eapply IH|].
  destruct (fill_rtcdate dev h3) as [t2 h4 tr3| | | |] eqn:E3; try done.
  assert (tr3 = []) as -> by (unfold fill_rtcdate, cmos_read, outb, inb in E3; cbn in E3; by injection E3).
  rewrite (bind_run _ _ _ _ _ _ E3), prepend_nil in H. case_bool_decide as Ht; [|by eapply IH]. subst t2.
  injection H as <- <- _. exists h, h2, a, h3. by split_and!.
Qed.

(** On a clock that stands at a date in decimal digits [cmostime] gives that
    date, in the century from 2000 on. *)
Theorem cmostime_reads fuel h (t : rtcdate) a b :
  Forall (λ x, 0 ≤ x < 100) [second t; minute t; hour t; day t; month t; year t] →
  clock_at h (Rtcdate (bcd (second t)) (bcd (minute t)) (bcd (hour t)) (bcd (day t)) (bcd (month t)) (bcd (year t))) →
  stands h CMOS_STATA a → 0 ≤ a < 128 → stands h CMOS_STATB b → 0 ≤ b < 4 →
  ∃ h', cmostime dev (S fuel) h = Ret (Rtcdate (second t) (minute t) (hour t) (day t) (month t) (2000 + year t)) h' [].
Proof.
  intros Hr Hc Ha Har Hb Hbr. unfold cmostime. destruct (cmos_read_run h CMOS_STATB b [] Hb) as (l1 & E1); [done|lia|]. cbn [app] in E1. mstep E1.
  cbn [cmos_stable]. set (t' := Rtcdate _ _ _ _ _ _) in Hc. destruct (fill_run h t' l1 Hc) as (l2 & E2).
  destruct (cmos_read_run h CMOS_STATA a l2 Ha) as (l3 & E3); [done|lia|]. destruct (fill_run h t' l3 Hc) as (l4 & E4).
  pose proof (land_above a 7 ltac:(done) Har) as Hua. change (2 ^ 7) with CMOS_UIP in Hua.
  pose proof (land_above b 2 ltac:(done) Hbr) as Hub. change (2 ^ 2) with (Z.shiftl 1 2) in Hub.
  rewrite Hub, (bool_decide_true (0 = 0)) by done.
  assert (cmos_stable dev (S fuel) (l1 ++ h) = Ret t' (l4 ++ h) []) as R.
  { cbn [cmos_stable]. mstep E2. mstep E3. rewrite Hua, bool_decide_false by (intros []; done). mstep E4. by rewrite bool_decide_true. }
  cbn [cmos_stable] in R. rewrite (bind_run _ _ _ _ _ _ R). exists (l4 ++ h). cbv zeta iota. unfold t', convert. cbn [second minute hour day month year prepend mret].
  rewrite !Forall_cons in Hr. destruct Hr as (R1 & R2 & R3 & R4 & R5 & R6 & _).
  destruct (conv_bcd _ R1) as [-> _], (conv_bcd _ R2) as [-> _], (conv_bcd _ R3) as [-> _], (conv_bcd _ R4) as [-> _], (conv_bcd _ R5) as [-> _], (conv_bcd _ R6) as [-> _].
  rewrite u32_small by lia. rewrite (Z.add_comm 2000). done.
Qed.
End clock.

(** * The serial line *)

(** [uartputc] waits for at most 128 readings of the status and then sends the
    character; it stops waiting when the line is ready. *)
Lemma uartputc_sends (dev : bus → place → Z) c h :
  ∃ k, (k ≤ 128)%nat ∧ uartputc dev true c h = Ret tt (Write (Port COM1) (u8 c) :: replicate k (Read (Port (COM1 + 5))) ++ h) [] ∧
    (k = 128%nat ∨ ∃ j, k = S j ∧ Z.land (u8 (dev (replicate j (Read (Port (COM1 + 5))) ++ h) (Port (COM1 + 5)))) 32 ≠ 0).
Proof.
  assert (∀ n h, ∃ k, (k ≤ n)%nat ∧ uart_wait dev n h = Ret tt (replicate k (Read (Port (COM1 + 5))) ++ h) [] ∧
    (k = n ∨ ∃ j, k = S j ∧ Z.land (u8 (dev (replicate j (Read (Port (COM1 + 5))) ++ h) (Port (COM1 + 5)))) 32 ≠ 0)) as H.
  { clear h. induction n as [|n IH]; intros h; [exists 0%nat; split_and!; [done|done|by left]|]. cbn [uart_wait].
    assert (inb dev (COM1 + 5) h = Ret (u8 (dev h (Port (COM1 + 5)))) (Read (Port (COM1 + 5)) :: h) []) as R by done. mstep R.
    case_bool_decide as Hb.
    - destruct (IH (Read (Port (COM1 + 5)) :: h)) as (k & Hk & E & Hw). exists (S k). split_and!; [lia| |].
      + rewrite E. by rewrite replicate_S_end, <- (assoc_L (++)).
      + destruct Hw as [->|(j & -> & Hj)]; [by left|right]. exists (S j). split; [done|]. by rewrite replicate_S_end, <- (assoc_L (++)).
    - exists 1%nat. split_and!; [lia|done|right]. by exists 0%nat. }
  destruct (H 128%nat h) as (k & Hk & E & Hw). exists k. split_and!; [done| |done]. unfold uartputc. cbn [negb].
  rewrite (bind_run _ _ _ _ _ _ E). done.
Qed.

(** * The local APIC *)

Fixpoint last_write (h : bus) (p : place) : option Z :=
  match h with
  | [] => None
  | Write q v :: h' => if decide (q = p) then Some v else last_write h' p
  | Read _ :: h' => last_write h' p
  end.

Section lapic.
Context (dev : bus → place → Z) (fuel : nat).
(** The controller delivers a command in fewer than [fuel] readings. *)
Hypothesis delivers : ∀ h, ∃ k, (k < fuel)%nat ∧ Z.land (dev (replicate k (Read (Lapic ICRLO)) ++ h) (Lapic ICRLO)) DELIVS = 0.

Lemma lapicw_run i v h : lapicw dev i v h = Ret tt (Read (Lapic ID) :: Write (Lapic i) (u32 v) :: h) [].
Proof. done. Qed.

Lemma wait_run h : ∃ k, wait_delivered dev fuel h = Ret tt (replicate k (Read (Lapic ICRLO)) ++ h) [].
Proof.
  destruct (delivers h) as (k & Hk & H). clear delivers. revert h k H Hk. induction fuel as [|f IH]; intros h k H Hk; [lia|]. cbn [wait_delivered].
  assert (rd dev (Lapic ICRLO) h = Ret (dev h (Lapic ICRLO)) (Read (Lapic ICRLO) :: h) []) as R by done. mstep R.
  case_bool_decide as Hb; [|by exists 1%nat]. destruct k as [|k]; [by destruct Hb|].
  destruct (IH (Read (Lapic ICRLO) :: h) k) as (j & E); [by rewrite replicate_S_end, <- (assoc_L (++)) in H|lia|].
  exists (S j). rewrite E. by rewrite replicate_S_end, <- (assoc_L (++)).
Qed.

Lemma last_write_reads k q h p : last_write (replicate k (Read q) ++ h) p = last_write h p.
Proof. induction k as [|k IH]; [done|]. exact IH. Qed.

(** After [lapicinit] the timer interrupts periodically, the lines that are
    not used are masked, errors and spurious interrupts have their vectors,
    and no priority is held back. *)
Theorem lapicinit_sets h :
  ∃ h', lapicinit dev fuel true h = Ret tt h' [] ∧
    last_write h' (Lapic TIMER) = Some (PERIODIC + T_IRQ0 + IRQ_TIMER) ∧ last_write h' (Lapic TICR) = Some 10000000 ∧
    last_write h' (Lapic LINT0) = Some MASKED ∧ last_write h' (Lapic LINT1) = Some MASKED ∧
    last_write h' (Lapic SVR) = Some (ENABLE + T_IRQ0 + IRQ_SPURIOUS) ∧ last_write h' (Lapic ERROR) = Some (T_IRQ0 + IRQ_ERROR) ∧
    last_write h' (Lapic TPR) = Some 0.
Proof.
  unfold lapicinit. cbn [negb]. do 6 (rewrite (bind_run _ _ _ _ _ _ (lapicw_run _ _ _)), prepend_nil). set (h1 := Read (Lapic ID) :: _).
  assert (rd dev (Lapic VER) h1 = Ret (dev h1 (Lapic VER)) (Read (Lapic VER) :: h1) []) as R by done. mstep R.
  set (c := bool_decide (4 ≤ _)). assert (∃ l, (if c then lapicw dev PCINT MASKED else mret tt) (Read (Lapic VER) :: h1) = Ret tt (l ++ Read (Lapic VER) :: h1) [] ∧
    ∀ p, p ≠ Lapic PCINT → last_write (l ++ Read (Lapic VER) :: h1) p = last_write h1 p) as (l & R2 & Hl).
  { destruct c; [|by exists []]. exists [Read (Lapic ID); Write (Lapic PCINT) MASKED]. split; [done|]. intros p Hp. cbn [app last_write]. by rewrite decide_False by congruence. }
  mstep R2. set (h2 := l ++ _). do 6 (rewrite (bind_run _ _ _ _ _ _ (lapicw_run _ _ _)), prepend_nil). set (h3 := Read (Lapic ID) :: _).
  destruct (wait_run h3) as (k & R3). mstep R3. rewrite lapicw_run. eexists. split; [reflexivity|].
  cbn [last_write]. rewrite !last_write_reads. unfold h3. cbn [last_write]. unfold h2.
  repeat split; repeat (rewrite decide_False by done); rewrite ?Hl by done; unfold h1; cbn [last_write]; repeat (rewrite decide_False by done); by rewrite decide_True.
Qed.
End lapic.
