(* ===== verification/Sleeplock.v ===== *)
(** Sleep locks (src/sleeplock.c).

    A sleep lock protects its two words with a spin lock; a process that finds
    it held sleeps on the lock's address.  Besides the operations this file
    has the system of processes that contend for one lock, and the theorem
    that the lock excludes and loses no wakeup. *)
From S2P Require Import Prelude Spinlock.

Record sleeplock := SLock {
  sl_lk : bool;         (* the spin lock lk->lk is held *)
  sl_locked : bool;
  sl_pid : Z
}.
Definition set_sl_lk b l := SLock b (sl_locked l) (sl_pid l).
Definition set_sl_locked b l := SLock (sl_lk l) b (sl_pid l).
Definition set_sl_pid z l := SLock (sl_lk l) (sl_locked l) z.

Definition initsleeplock : M sleeplock unit :=
  modify (set_sl_lk false);; modify (set_sl_locked false);; modify (set_sl_pid 0).

(** [acquiresleep] run by the process [pid]; [c] is the lock's address.
    [sleep] releases the spin lock, and a process that is woken starts the
    loop again with the spin lock held, which is this code from its start. *)
Definition acquiresleep (c : chan) (pid : Z) : M sleeplock unit :=
  lk_acquire sl_lk set_sl_lk;;
  l ← get;
  (if sl_locked l then lk_release sl_lk set_sl_lk;; block c else mret tt);;
  modify (set_sl_locked true);;
  modify (set_sl_pid pid);;
  lk_release sl_lk set_sl_lk.

Definition releasesleep (c : chan) : M sleeplock unit :=
  lk_acquire sl_lk set_sl_lk;;
  modify (set_sl_locked false);;
  modify (set_sl_pid 0);;
  announce c;;
  lk_release sl_lk set_sl_lk.

Definition holdingsleep : M sleeplock bool :=
  lk_acquire sl_lk set_sl_lk;;
  l ← get;
  lk_release sl_lk set_sl_lk;;
  mret (sl_locked l).

(** * Runs *)

Lemma acquiresleep_free c pid : 
  acquiresleep c pid (SLock false false 0) = Ret tt (SLock false true pid) [].
Proof. done. Qed.
Lemma acquiresleep_free' c pid l :
  sl_lk l = false → sl_locked l = false → acquiresleep c pid l = Ret tt (SLock false true pid) [].
Proof. destruct l; simpl; intros -> ->. done. Qed.
Lemma acquiresleep_held c pid l :
  sl_lk l = false → sl_locked l = true → acquiresleep c pid l = Blocked c l [].
Proof. destruct l; simpl; intros -> ->. done. Qed.
Lemma releasesleep_run c l :
  sl_lk l = false → releasesleep c l = Ret tt (SLock false false 0) [EvWakeup (Some c)].
Proof. destruct l; simpl; intros ->. done. Qed.
Lemma holdingsleep_run l :
  sl_lk l = false → holdingsleep l = Ret (sl_locked l) l [].
Proof. destruct l; simpl; intros ->. done. Qed.

(** * Processes that contend for one lock *)

(** What a process is doing: not using the lock, wanting it (it is about to
    run, or was woken inside, [acquiresleep]), asleep in it, or the owner. *)
Inductive phase : Type := Idle | Wants | Asleep | Owns.

#[export] Instance phase_eq_dec : EqDecision phase.
Proof. solve_decision. Defined.

(** The lock and the processes by pid. *)
Record contest := Contest { ct_lock : sleeplock; ct_phase : gmap Z phase }.

(** [wakeup] on the lock's channel makes the sleepers want the lock again. *)
Definition rouse (c : chan) (t : list event) (m : gmap Z phase) : gmap Z phase :=
  if bool_decide (EvWakeup (Some c) ∈ t)
  then (λ ph, if bool_decide (ph = Asleep) then Wants else ph) <$> m else m.

Inductive contest_step (c : chan) : contest → contest → Prop :=
| ct_enter l m pid :
    m !! pid = Some Idle → contest_step c (Contest l m) (Contest l (<[pid := Wants]> m))
| ct_acquired l l' m pid t :
    m !! pid = Some Wants → acquiresleep c pid l = Ret tt l' t →
    contest_step c (Contest l m) (Contest l' (rouse c t (<[pid := Owns]> m)))
| ct_asleep l l' m pid t :
    m !! pid = Some Wants → acquiresleep c pid l = Blocked c l' t →
    contest_step c (Contest l m) (Contest l' (rouse c t (<[pid := Asleep]> m)))
| ct_release l l' m pid t :
    m !! pid = Some Owns → releasesleep c l = Ret tt l' t →
    contest_step c (Contest l m) (Contest l' (rouse c t (<[pid := Idle]> m))).

(** Any number of processes, none of them using the lock, and the lock as
    [initsleeplock] leaves it. *)
Inductive contest_reach (c : chan) : contest → Prop :=
| ct_init l0 l m t :
    initsleeplock l0 = Ret tt l t → (∀ pid ph, m !! pid = Some ph → ph = Idle) →
    contest_reach c (Contest l m)
| ct_next x y : contest_reach c x → contest_step c x y → contest_reach c y.

Record contest_inv (x : contest) : Prop := ContestInv {
  ci_lk : sl_lk (ct_lock x) = false;
  ci_owner pid : ct_phase x !! pid = Some Owns → sl_locked (ct_lock x) = true ∧ sl_pid (ct_lock x) = pid;
  ci_locked : sl_locked (ct_lock x) = true → ct_phase x !! sl_pid (ct_lock x) = Some Owns;
  ci_asleep pid : ct_phase x !! pid = Some Asleep → sl_locked (ct_lock x) = true
}.

Lemma contest_step_inv c x y : contest_inv x → contest_step c x y → contest_inv y.
Proof.
  intros [Hlk Ho Hl Ha] Hs.
  destruct Hs as [l m pid Hp|l l' m pid t Hp Hr|l l' m pid t Hp Hr|l l' m pid t Hp Hr]; simpl in *.
  - split; simpl; [done| | |].
    + intros q. destruct (decide (pid = q)) as [<-|]; [by rewrite lookup_insert_eq|].
      rewrite lookup_insert_ne by done. apply Ho.
    + intros Hk. rewrite lookup_insert_ne; [by apply Hl|]. intros ->. specialize (Hl Hk). congruence.
    + intros q. destruct (decide (pid = q)) as [<-|]; [by rewrite lookup_insert_eq|].
      rewrite lookup_insert_ne by done. apply Ha.
  - destruct (sl_locked l) eqn:E; [by rewrite acquiresleep_held in Hr|].
    rewrite acquiresleep_free' in Hr by done. injection Hr as <- <-.
    unfold rouse. rewrite bool_decide_false by set_solver.
    split; simpl; [done| | |]; intros.
    + split; [done|]. destruct (decide (pid = pid0)); [done|].
      rewrite lookup_insert_ne in * by done. destruct (Ho pid0); [done|congruence].
    + by rewrite lookup_insert_eq.
    + done.
  - destruct (sl_locked l) eqn:E; [|by rewrite acquiresleep_free' in Hr].
    rewrite acquiresleep_held in Hr by done. injection Hr as <- <-.
    unfold rouse. rewrite bool_decide_false by set_solver.
    split; simpl; [done| | |]; intros; try done.
    + destruct (decide (pid = pid0)) as [->|]; [by rewrite lookup_insert_eq in *|].
      rewrite lookup_insert_ne in * by done. split; [done|by apply Ho].
    + rewrite lookup_insert_ne; [by apply Hl|]. intros ->. specialize (Hl eq_refl). congruence.
  - rewrite releasesleep_run in Hr by done. injection Hr as <- <-.
    unfold rouse. rewrite bool_decide_true by set_solver.
    assert (∀ p ph, ((λ ph, if bool_decide (ph = Asleep) then Wants else ph) <$> <[pid:=Idle]> m) !! p = Some ph →
      ph ≠ Owns ∧ ph ≠ Asleep) as Hno.
    { intros p ph. rewrite lookup_fmap. destruct (decide (pid = p)) as [<-|Hne].
      - rewrite lookup_insert_eq. intros [= <-]. done.
      - rewrite lookup_insert_ne by done. destruct (m !! p) as [q|] eqn:Eq; [|done].
        simpl. intros [= <-]. destruct (Ho pid Hp) as [_ Hpid]. case_bool_decide; [done|].
        split; [|done]. intros ->. destruct (Ho p Eq). congruence. }
    split; simpl; [done| | |]; intros; try done; destruct (Hno _ _ H); done.
Qed.

(** C16: For any number of processes that use one sleep lock in any order, in
    every reachable state at most one process owns the lock, the lock is
    marked with that process's pid, and it is marked locked exactly when it
    has an owner; and no wakeup is lost: while a process is asleep waiting for
    the lock, the lock has an owner, whose [releasesleep] will wake it. *)
Theorem sleeplock_exclusive_no_lost_wakeup (c : chan) (x : contest) :
  contest_reach c x →
  (∀ p q, ct_phase x !! p = Some Owns → ct_phase x !! q = Some Owns → p = q) ∧
  (∀ p, ct_phase x !! p = Some Owns → sl_pid (ct_lock x) = p) ∧
  (sl_locked (ct_lock x) = true ↔ ∃ p, ct_phase x !! p = Some Owns) ∧
  (∀ p, ct_phase x !! p = Some Asleep →
     ∃ o, ct_phase x !! o = Some Owns ∧
     ∃ l' t, releasesleep c (ct_lock x) = Ret tt l' t ∧
       rouse c t (<[o := Idle]> (ct_phase x)) !! p = Some Wants ∧
       acquiresleep c p l' = Ret tt (SLock false true p) []).
Proof.
  intros Hr. assert (contest_inv x) as [Hlk Ho Hl Ha].
  { induction Hr as [l0 l m t Hi Hm|x y _ IH Hs]; [|by eapply contest_step_inv].
    injection Hi as <- <-. split; simpl; [done| |done|]; intros; specialize (Hm _ _ H); done. }
  split_and!.
  - intros p q Hp Hq. destruct (Ho p Hp), (Ho q Hq). congruence.
  - intros p Hp. by destruct (Ho p Hp).
  - split; [intros Hk; eexists; by apply Hl|]. intros [p Hp]. by destruct (Ho p Hp).
  - intros p Hp. specialize (Hl (Ha p Hp)). exists (sl_pid (ct_lock x)). split; [done|].
    eexists _, _. split_and!; [by apply releasesleep_run| |done].
    unfold rouse. rewrite bool_decide_true by set_solver. rewrite lookup_fmap, lookup_insert_ne by congruence.
    by rewrite Hp.
Qed.

(** Two processes: 1 has the lock, 2 sleeps. *)
Lemma sleeplock_exclusive_no_lost_wakeup_witness :
  let x := Contest (SLock false true 1) {[1 := Owns; 2 := Asleep]} in
  contest_reach CLog x ∧ ∃ o, ct_phase x !! o = Some Owns.
Proof.
  assert (contest_reach CLog (Contest (SLock false true 1) {[1 := Owns; 2 := Asleep]})) as Hr.
  { eapply (ct_next _ (Contest (SLock false true 1) {[1 := Owns; 2 := Wants]}));
      [|exact (ct_asleep CLog (SLock false true 1) _ {[1 := Owns; 2 := Wants]} 2 [] eq_refl eq_refl)].
    eapply (ct_next _ (Contest (SLock false true 1) {[1 := Owns; 2 := Idle]}));
      [|exact (ct_enter CLog (SLock false true 1) {[1 := Owns; 2 := Idle]} 2 eq_refl)].
    eapply (ct_next _ (Contest (SLock false false 0) {[1 := Wants; 2 := Idle]}));
      [|exact (ct_acquired CLog (SLock false false 0) _ {[1 := Wants; 2 := Idle]} 1 [] eq_refl eq_refl)].
    eapply (ct_next _ (Contest (SLock false false 0) {[1 := Idle; 2 := Idle]}));
      [|exact (ct_enter CLog (SLock false false 0) {[1 := Idle; 2 := Idle]} 1 eq_refl)].
    eapply (ct_init CLog (SLock true true 9) _ _ []); [done|].
    intros pid ph. rewrite lookup_insert_Some, lookup_singleton_Some. naive_solver. }
  split; [exact Hr|].
  destruct (proj2 (proj2 (proj2 (sleeplock_exclusive_no_lost_wakeup CLog _ Hr))) 2 eq_refl) as (o & Ho & _).
  by exists o.
Defined.
