(* ===== verification/Bio.v ===== *)
(** The buffer cache (src/bio.c, src/buf.h) over the disk of src/memide.c.

    The cache is the array of buffers with the [prev]/[next] pointers that
    link them in the order of use; a [struct buf*] is an index, and the index
    [NBUF] is [&bcache.head].  A disk is the list of its 512-byte blocks.  The
    second half of the file gives the cache its meaning: [brep] relates it to
    an abstract state (the contents of every block as the kernel sees them, the
    contents on disk, the dirty and the locked blocks), in which recycling a
    buffer is invisible, and every operation is shown to implement one
    operation on the abstract state. *)
From stdpp Require Import functions.
From S2P Require Import Prelude Layout Bytes Spinlock Sleeplock.

Definition BSIZE : Z := 512.
Definition B_VALID : Z := 2.
Definition B_DIRTY : Z := 4.

Record buf := Buf {
  b_flags : Z;
  b_dev : Z;
  b_blockno : Z;
  b_lock : sleeplock;
  b_refcnt : Z;
  b_prev : nat;
  b_next : nat;
  b_data : list Z
}.
Definition set_bflags v b := Buf v (b_dev b) (b_blockno b) (b_lock b) (b_refcnt b) (b_prev b) (b_next b) (b_data b).
Definition set_bdev v b := Buf (b_flags b) v (b_blockno b) (b_lock b) (b_refcnt b) (b_prev b) (b_next b) (b_data b).
Definition set_bblockno v b := Buf (b_flags b) (b_dev b) v (b_lock b) (b_refcnt b) (b_prev b) (b_next b) (b_data b).
Definition set_block v b := Buf (b_flags b) (b_dev b) (b_blockno b) v (b_refcnt b) (b_prev b) (b_next b) (b_data b).
Definition set_brefcnt v b := Buf (b_flags b) (b_dev b) (b_blockno b) (b_lock b) v (b_prev b) (b_next b) (b_data b).
Definition set_bprev v b := Buf (b_flags b) (b_dev b) (b_blockno b) (b_lock b) (b_refcnt b) v (b_next b) (b_data b).
Definition set_bnext v b := Buf (b_flags b) (b_dev b) (b_blockno b) (b_lock b) (b_refcnt b) (b_prev b) v (b_data b).
Definition set_bdata v b := Buf (b_flags b) (b_dev b) (b_blockno b) (b_lock b) (b_refcnt b) (b_prev b) (b_next b) v.

(** [bcache], the disk, and the pid of the running process. *)
Record bstate := BState {
  bc_held : bool;                 (* bcache.lock *)
  bufs : list buf;                (* bcache.buf, then bcache.head *)
  memdisk : list (list Z);
  curpid : Z
}.
Definition set_bheld v s := BState v (bufs s) (memdisk s) (curpid s).
Definition set_bufs v s := BState (bc_held s) v (memdisk s) (curpid s).
Definition set_memdisk v s := BState (bc_held s) (bufs s) v (curpid s).

(** [&bcache.head]. *)
Definition bhead : nat := NBUF.

Definition buf_get (i : nat) : M bstate buf := s ← get; deref (bufs s !! i).
Definition buf_upd (i : nat) (f : buf → buf) : M bstate unit :=
  b ← buf_get i; modify (λ s, set_bufs (<[i := f b]> (bufs s)) s).
(** Run sleep-lock code on [b->lock]. *)
Definition on_block {A} (i : nat) (m : M sleeplock A) : M bstate A :=
  b ← buf_get i;
  zoom (λ _, b_lock b) (λ l s, set_bufs (<[i := set_block l b]> (bufs s)) s) m.
Definition bacquiresleep (i : nat) : M bstate unit :=
  s ← get; on_block i (acquiresleep (CBufLock i) (curpid s)).

(** ** memide.c *)

Definition disksize (s : bstate) : Z := Z.of_nat (length (memdisk s)).

Definition iderw (i : nat) : M bstate unit :=
  held ← on_block i holdingsleep;
  panic_if (negb held) "iderw: buf not locked";;
  b ← buf_get i;
  s ← get;
  panic_if (bool_decide (Z.land (b_flags b) (Z.lor B_VALID B_DIRTY) = B_VALID)) "iderw: nothing to do";;
  panic_if (bool_decide (b_dev b ≠ 1)) "iderw: request not for disk 1";;
  panic_if (bool_decide (disksize s ≤ b_blockno b)) "iderw: block out of range";;
  let p := Z.to_nat (b_blockno b) in
  (if bool_decide (Z.land (b_flags b) B_DIRTY ≠ 0) then
     buf_upd i (λ b, set_bflags (Z.land (b_flags b) (Z.lnot B_DIRTY)) b);;
     modify (λ s, set_memdisk (<[p := b_data b]> (memdisk s)) s);;
     emit (EvDisk 1 (b_blockno b) (b_data b))
   else d ← deref (memdisk s !! p); buf_upd i (set_bdata d));;
  buf_upd i (λ b, set_bflags (Z.lor (b_flags b) B_VALID) b).

(** ** bio.c *)

(** One turn of the loop of [binit]. *)
Definition binit_buf (i : nat) : M bstate unit :=
  h ← buf_get bhead;
  buf_upd i (set_bnext (b_next h));;
  buf_upd i (set_bprev bhead);;
  on_block i initsleeplock;;
  h ← buf_get bhead;
  buf_upd (b_next h) (set_bprev i);;
  buf_upd bhead (set_bnext i).
Definition binit : M bstate unit :=
  modify (set_bheld false);;
  buf_upd bhead (set_bprev bhead);;
  buf_upd bhead (set_bnext bhead);;
  foreach (seq 0 NBUF) binit_buf.

(** The two loops of [bget]; the list has [NBUF] nodes, and one more test
    finds its end. *)
Fixpoint bget_cached (fuel : nat) (i : nat) (dev blockno : Z) {struct fuel} : M bstate (option nat) :=
  match fuel with
  | O => undef
  | S fuel' =>
      if bool_decide (i = bhead) then mret None else
      b ← buf_get i;
      if bool_decide (b_dev b = dev) && bool_decide (b_blockno b = blockno)
      then mret (Some i) else bget_cached fuel' (b_next b) dev blockno
  end.
Fixpoint bget_unused (fuel : nat) (i : nat) {struct fuel} : M bstate (option nat) :=
  match fuel with
  | O => undef
  | S fuel' =>
      if bool_decide (i = bhead) then mret None else
      b ← buf_get i;
      if bool_decide (b_refcnt b = 0) && bool_decide (Z.land (b_flags b) B_DIRTY = 0)
      then mret (Some i) else bget_unused fuel' (b_prev b)
  end.

Definition bget (dev blockno : Z) : M bstate nat :=
  lk_acquire bc_held set_bheld;;
  h ← buf_get bhead;
  r ← bget_cached (S NBUF) (b_next h) dev blockno;
  match r with
  | Some b =>
      buf_upd b (λ x, set_brefcnt (u32 (b_refcnt x + 1)) x);;
      lk_release bc_held set_bheld;;
      bacquiresleep b;;
      mret b
  | None =>
      h ← buf_get bhead;
      r ← bget_unused (S NBUF) (b_prev h);
      match r with
      | Some b =>
          buf_upd b (set_bdev dev);;
          buf_upd b (set_bblockno blockno);;
          buf_upd b (set_bflags 0);;
          buf_upd b (set_brefcnt 1);;
          lk_release bc_held set_bheld;;
          bacquiresleep b;;
          mret b
      | None => panic "bget: no buffers"
      end
  end.

Definition bread (dev blockno : Z) : M bstate nat :=
  b ← bget dev blockno;
  x ← buf_get b;
  (if bool_decide (Z.land (b_flags x) B_VALID = 0) then iderw b else mret tt);;
  mret b.

Definition bwrite (b : nat) : M bstate unit :=
  held ← on_block b holdingsleep;
  panic_if (negb held) "bwrite";;
  buf_upd b (λ x, set_bflags (Z.lor (b_flags x) B_DIRTY) x);;
  iderw b.

Definition brelse (b : nat) : M bstate unit :=
  held ← on_block b holdingsleep;
  panic_if (negb held) "brelse";;
  on_block b (releasesleep (CBufLock b));;
  lk_acquire bc_held set_bheld;;
  buf_upd b (λ x, set_brefcnt (u32 (b_refcnt x - 1)) x);;
  x ← buf_get b;
  (if bool_decide (b_refcnt x = 0) then
     x ← buf_get b; buf_upd (b_next x) (set_bprev (b_prev x));;
     x ← buf_get b; buf_upd (b_prev x) (set_bnext (b_next x));;
     h ← buf_get bhead; buf_upd b (set_bnext (b_next h));;
     buf_upd b (set_bprev bhead);;
     h ← buf_get bhead; buf_upd (b_next h) (set_bprev b);;
     buf_upd bhead (set_bnext b)
   else mret tt);;
  lk_release bc_held set_bheld.

(** [b->data], read and written by the code that has the buffer locked. *)
Definition bdata_get (b : nat) : M bstate (list Z) := x ← buf_get b; mret (b_data x).
Definition bdata_set (b : nat) (d : list Z) : M bstate unit := buf_upd b (set_bdata d).

(** * The list of buffers *)

Definition nx (bs : list buf) (i : nat) : nat := default O (b_next <$> bs !! i).
Definition pv (bs : list buf) (i : nat) : nat := default O (b_prev <$> bs !! i).

(** From [x] forward through [l] to [y], and back. *)
Fixpoint seg (n p : nat → nat) (x : nat) (l : list nat) (y : nat) : Prop :=
  match l with
  | [] => n x = y ∧ p y = x
  | z :: l' => n x = z ∧ p z = x ∧ seg n p z l' y
  end.

Lemma seg_app n p x l1 z l2 y : seg n p x (l1 ++ z :: l2) y ↔ seg n p x l1 z ∧ seg n p z l2 y.
Proof. revert x. induction l1 as [|w l1 IH]; intros x; simpl; [naive_solver|]. rewrite IH. naive_solver. Qed.

Lemma seg_ext n p n' p' x l y :
  (∀ i, i ∈ x :: l → n' i = n i) → (∀ i, i ∈ l ++ [y] → p' i = p i) →
  seg n p x l y → seg n' p' x l y.
Proof.
  revert x. induction l as [|z l IH]; intros x Hn Hp; cbn [seg].
  - intros [H1 H2]. split; [rewrite Hn|rewrite Hp]; set_solver.
  - intros (H1 & H2 & H3). split_and!; [rewrite Hn|rewrite Hp|apply IH]; set_solver.
Qed.

Lemma seg_prev_in n p x l z : seg n p x l z → p z ∈ x :: l.
Proof. revert x. induction l as [|w l IH]; intros x; cbn [seg]; [set_solver|]. intros (_ & _ & H). specialize (IH w H). set_solver. Qed.

(** The last node before [z] made to point to [t] instead. *)
Lemma seg_retarget n p x l z t :
  NoDup (x :: l) → t ∉ l → seg n p x l z →
  seg (<[p z := t]> n) (<[t := p z]> p) x l t.
Proof.
  revert x. induction l as [|w l IH]; intros x Hnd Ht; cbn [seg].
  - intros [<- Hp]. rewrite Hp. by rewrite !fn_lookup_insert.
  - intros (Hx & Hw & Hs). apply NoDup_cons in Hnd as [Hx' Hnd].
    pose proof (seg_prev_in _ _ _ _ _ Hs).
    split_and!; [| |apply IH; [done|set_solver|done]].
    + rewrite fn_lookup_insert_ne; [done|]. intros E. by rewrite E in *.
    + rewrite fn_lookup_insert_ne; [done|]. intros E. apply Ht. rewrite E. set_solver.
Qed.

Lemma seg_unlink n p h l1 b l2 :
  NoDup (h :: l1 ++ b :: l2) → seg n p h (l1 ++ b :: l2) h →
  seg (<[p b := n b]> n) (<[n b := p b]> p) h (l1 ++ l2) h.
Proof.
  rewrite seg_app. intros Hnd [H1 H2].
  assert (NoDup (h :: l1)) as Hnd1.
  { rewrite NoDup_cons in Hnd |- *. destruct Hnd as [Hh Hnd]. apply NoDup_app in Hnd as [? _]. set_solver. }
  pose proof (seg_prev_in _ _ _ _ _ H1) as Hp.
  apply NoDup_cons in Hnd as [Hh Hnd]. apply NoDup_app in Hnd as (Hl1 & Hdis & Hnd2).
  destruct l2 as [|t l2]; cbn [seg] in H2.
  - destruct H2 as [-> _]. rewrite app_nil_r. apply seg_retarget; [done|set_solver|done].
  - destruct H2 as (-> & _ & H2). rewrite seg_app. split; [apply seg_retarget; [done|set_solver|done]|].
    rewrite !NoDup_cons in Hnd2. destruct Hnd2 as (? & ? & ?).
    revert H2. apply seg_ext; intros i Hi; rewrite fn_lookup_insert_ne; try done; intros <-; set_solver.
Qed.

Lemma seg_push n p h b l :
  b ∉ h :: l → h ∉ l → NoDup l → seg n p h l h →
  seg (<[h := b]> (<[b := n h]> n)) (<[n h := b]> (<[b := h]> p)) h (b :: l) h.
Proof.
  intros Hb Hh Hnd Hs. cbn [seg].
  assert (n h ∈ l ++ [h]) as Hnh by (destruct l; cbn [seg] in Hs; destruct Hs; set_solver).
  assert (b ≠ n h) by set_solver. assert (h ≠ b) by set_solver.
  split_and!.
  - by rewrite fn_lookup_insert.
  - by rewrite fn_lookup_insert_ne, fn_lookup_insert.
  - destruct l as [|t l]; cbn [seg] in *.
    + destruct Hs as [-> _]. rewrite fn_lookup_insert_ne, !fn_lookup_insert by done. done.
    + destruct Hs as (-> & _ & Hs). rewrite fn_lookup_insert_ne, !fn_lookup_insert by done.
      split_and!; try done. apply NoDup_cons in Hnd as [? ?].
      revert Hs. apply seg_ext; intros i Hi; rewrite !fn_lookup_insert_ne; try done; intros <-; set_solver.
Qed.

(** ** Walking the list *)

Lemma seg_first n p x l y : seg n p x l y → n x = default y (head l).
Proof. destruct l; simpl; naive_solver. Qed.
Lemma seg_last n p x l y : seg n p x l y → p y = default x (last l).
Proof.
  destruct l as [|z l _] using rev_ind; simpl; [naive_solver|].
  rewrite seg_app, last_snoc. simpl. naive_solver.
Qed.

Lemma buf_get_run i b s : bufs s !! i = Some b → buf_get i s = Ret b s [].
Proof. intros H. unfold buf_get. munfold. by rewrite H. Qed.

Lemma bget_cached_run s dev bno l : ∀ x fuel,
  (length l < fuel)%nat → bhead ∉ l → (∀ i, i ∈ l → is_Some (bufs s !! i)) →
  seg (nx (bufs s)) (pv (bufs s)) x l bhead →
  ∃ r, bget_cached fuel (nx (bufs s) x) dev bno s = Ret r s [] ∧
    match r with
    | Some i => i ∈ l ∧ ∃ b, bufs s !! i = Some b ∧ b_dev b = dev ∧ b_blockno b = bno
    | None => ∀ i b, i ∈ l → bufs s !! i = Some b → ¬ (b_dev b = dev ∧ b_blockno b = bno)
    end.
Proof.
  induction l as [|z l IH]; intros x fuel Hf Hh Hsome; cbn [seg]; destruct fuel as [|fuel]; try (simpl in Hf; lia).
  - intros [-> _]. exists None. cbn [bget_cached]. rewrite bool_decide_true by done.
    split; [done|]. intros i b Hi. by apply not_elem_of_nil in Hi.
  - intros (-> & _ & Hs). cbn [bget_cached]. rewrite bool_decide_false by set_solver.
    destruct (Hsome z) as [b Hb]; [set_solver|].
    rewrite (bind_run _ _ _ _ _ _ (buf_get_run z b s Hb)), prepend_nil.
    destruct (bool_decide (b_dev b = dev) && bool_decide (b_blockno b = bno)) eqn:E.
    + apply andb_true_iff in E as [E1%bool_decide_eq_true E2%bool_decide_eq_true].
      exists (Some z). split; [done|]. split; [set_solver|]. by exists b.
    + replace (b_next b) with (nx (bufs s) z) by (unfold nx; by rewrite Hb).
      destruct (IH z fuel) as (r & Hr & Hm); [simpl in Hf; lia|set_solver|set_solver|done|].
      exists r. split; [done|]. destruct r as [i|].
      * destruct Hm as [? ?]. split; [set_solver|done].
      * intros i b' [->|Hi]%elem_of_cons Hb'; [|by eapply Hm].
        rewrite Hb in Hb'. injection Hb' as <-. intros [E1 E2].
        rewrite !bool_decide_true in E by done. done.
Qed.

Lemma bget_unused_run s l : ∀ y fuel,
  (length l < fuel)%nat → bhead ∉ l → (∀ i, i ∈ l → is_Some (bufs s !! i)) →
  seg (nx (bufs s)) (pv (bufs s)) bhead l y →
  ∃ r, bget_unused fuel (pv (bufs s) y) s = Ret r s [] ∧
    match r with
    | Some i => i ∈ l ∧ ∃ b, bufs s !! i = Some b ∧ b_refcnt b = 0 ∧ Z.land (b_flags b) B_DIRTY = 0
    | None => ∀ i b, i ∈ l → bufs s !! i = Some b → ¬ (b_refcnt b = 0 ∧ Z.land (b_flags b) B_DIRTY = 0)
    end.
Proof.
  induction l as [|z l IH] using rev_ind; intros y fuel Hf Hh Hsome Hs; destruct fuel as [|fuel]; try lia.
  - destruct Hs as [_ ->]. exists None. cbn [bget_unused]. rewrite bool_decide_true by done.
    split; [done|]. intros i b Hi. by apply not_elem_of_nil in Hi.
  - rewrite seg_app in Hs. destruct Hs as [Hs (_ & ->)]. cbn [bget_unused]. rewrite bool_decide_false by set_solver.
    destruct (Hsome z) as [b Hb]; [set_solver|].
    rewrite (bind_run _ _ _ _ _ _ (buf_get_run z b s Hb)), prepend_nil.
    destruct (bool_decide (b_refcnt b = 0) && bool_decide (Z.land (b_flags b) B_DIRTY = 0)) eqn:E.
    + apply andb_true_iff in E as [E1%bool_decide_eq_true E2%bool_decide_eq_true].
      exists (Some z). split; [done|]. split; [set_solver|]. by exists b.
    + replace (b_prev b) with (pv (bufs s) z) by (unfold pv; by rewrite Hb).
      rewrite length_app in Hf. simpl in Hf.
      destruct (IH z fuel) as (r & Hr & Hm); [lia|set_solver|set_solver|done|].
      exists r. split; [done|]. destruct r as [i|].
      * destruct Hm as [? ?]. split; [set_solver|done].
      * intros i b' [Hi|Hi%list_elem_of_singleton]%elem_of_app Hb'; [by eapply Hm|subst i].
        rewrite Hb in Hb'. injection Hb' as <-. intros [E1 E2].
        rewrite !bool_decide_true in E by done. done.
Qed.

(** * What the cache means *)

(** The abstract state: the blocks as the kernel sees them, the blocks on the
    disk, the blocks marked dirty, and the locked blocks with their buffers. *)
Record acache := ACache {
  a_data : list (list Z);
  a_disk : list (list Z);
  a_dirty : gset Z;
  a_locked : gmap Z nat
}.

Definition block_ok (d : list Z) : Prop := length d = 512%nat ∧ Forall byte d.

Definition flags_of (a : acache) (x : Z) : Z := if bool_decide (x ∈ a_dirty a) then 6 else 2.

(** Buffer [i] holds a block. *)
Record in_use (a : acache) (i : nat) (b : buf) : Prop := InUse {
  iu_dev : b_dev b = 1;
  iu_range : 0 ≤ b_blockno b < Z.of_nat (length (a_disk a));
  iu_flags : b_flags b = flags_of a (b_blockno b);
  iu_data : a_data a !! Z.to_nat (b_blockno b) = Some (b_data b);
  iu_locked : sl_locked (b_lock b) = bool_decide (a_locked a !! b_blockno b = Some i)
}.
(** A buffer that has not been used since boot. *)
Definition not_used (b : buf) : Prop := b_dev b = 0 ∧ b_flags b = 0 ∧ sl_locked (b_lock b) = false.

(** No process waits for the buffer: its count is that of its holder. *)
Record buf_ok (a : acache) (i : nat) (b : buf) : Prop := BufOk {
  bo_lk : sl_lk (b_lock b) = false;
  bo_ref : b_refcnt b = if sl_locked (b_lock b) then 1 else 0;
  bo_case : not_used b ∨ in_use a i b
}.

Record content (bs : list buf) (a : acache) : Prop := Content {
  c_ok i b : (i < NBUF)%nat → bs !! i = Some b → buf_ok a i b;
  c_uniq i j b b' :
    (i < NBUF)%nat → (j < NBUF)%nat → bs !! i = Some b → bs !! j = Some b' →
    b_dev b = 1 → b_dev b' = 1 → b_blockno b = b_blockno b' → i = j;
  c_dirty x : x ∈ a_dirty a →
    ∃ i b, (i < NBUF)%nat ∧ bs !! i = Some b ∧ b_dev b = 1 ∧ b_blockno b = x;
  c_locked x i : a_locked a !! x = Some i →
    (i < NBUF)%nat ∧ ∃ b, bs !! i = Some b ∧ b_dev b = 1 ∧ b_blockno b = x;
  c_clean x : 0 ≤ x → x ∉ a_dirty a → a_locked a !! x = None →
    a_data a !! Z.to_nat x = a_disk a !! Z.to_nat x;
  c_len : length (a_data a) = length (a_disk a);
  c_blocks : Forall block_ok (a_data a) ∧ Forall block_ok (a_disk a)
}.

Definition ring (bs : list buf) (l : list nat) : Prop :=
  seg (nx bs) (pv bs) bhead l bhead ∧ l ≡ₚ seq 0 NBUF.

Record brep (s : bstate) (a : acache) : Prop := BRep {
  br_held : bc_held s = false;
  br_len : length (bufs s) = S NBUF;
  br_ring : ∃ l, ring (bufs s) l;
  br_content : content (bufs s) a;
  br_disk : memdisk s = a_disk a
}.

(** The operations on abstract states. *)
Definition a_lock (x : Z) (i : nat) (a : acache) : acache :=
  ACache (a_data a) (a_disk a) (a_dirty a) (<[x := i]> (a_locked a)).
Definition a_unlock (x : Z) (a : acache) : acache :=
  ACache (a_data a) (a_disk a) (a_dirty a) (delete x (a_locked a)).
Definition a_set (x : Z) (d : list Z) (a : acache) : acache :=
  ACache (<[Z.to_nat x := d]> (a_data a)) (a_disk a) (a_dirty a) (a_locked a).
Definition a_mark (x : Z) (a : acache) : acache :=
  ACache (a_data a) (a_disk a) ({[x]} ∪ a_dirty a) (a_locked a).
Definition a_write (x : Z) (d : list Z) (a : acache) : acache :=
  ACache (a_data a) (<[Z.to_nat x := d]> (a_disk a)) (a_dirty a ∖ {[x]}) (a_locked a).

(** Enough buffers to read block [x]. *)
Definition room (a : acache) (x : Z) : Prop :=
  x ∈ a_dirty a ∨ (size (a_dirty a ∪ dom (a_locked a)) < NBUF)%nat.

(** [a'] is [a] except at block [x]. *)
Definition agree_off (x : Z) (a a' : acache) : Prop :=
  length (a_data a') = length (a_data a) ∧ length (a_disk a') = length (a_disk a) ∧
  ∀ y, y ≠ x →
    (0 ≤ y → 0 ≤ x → a_data a' !! Z.to_nat y = a_data a !! Z.to_nat y ∧
             a_disk a' !! Z.to_nat y = a_disk a !! Z.to_nat y) ∧
    (y ∈ a_dirty a' ↔ y ∈ a_dirty a) ∧ a_locked a' !! y = a_locked a !! y.

Lemma buf_ok_agree x a a' i b :
  agree_off x a a' → 0 ≤ x → (b_dev b = 1 → b_blockno b ≠ x) → buf_ok a i b → buf_ok a' i b.
Proof.
  intros (Hl1 & Hl2 & Ho) Hx0 Hx [Hlk Href Hc]. split; [done|done|].
  destruct Hc as [Hn|[Hd Hr Hf Hdt Hk]]; [by left|right].
  destruct (Ho (b_blockno b)) as (Hv & Hdi & Hlo); [by apply Hx|]. destruct Hv as [Hv1 _]; [lia|done|].
  split; [done|by rewrite Hl2| |by rewrite Hv1|by rewrite Hlo].
  rewrite Hf. unfold flags_of. by rewrite (bool_decide_ext _ _ Hdi).
Qed.

(** Replacing one buffer: it goes on holding its block, or it is recycled. *)
Lemma content_update bs a a' i b b' x :
  content bs a → (i < NBUF)%nat → bs !! i = Some b →
  buf_ok a' i b' → in_use a' i b' → b_blockno b' = x →
  (b_dev b = 1 ∧ b_blockno b = x) ∨
  ((∀ j c, (j < NBUF)%nat → bs !! j = Some c → b_dev c = 1 → b_blockno c ≠ x) ∧
   (b_dev b = 1 → b_blockno b ∉ a_dirty a ∧ a_locked a !! b_blockno b = None)) →
  agree_off x a a' →
  (x ∉ a_dirty a' → a_locked a' !! x = None → a_data a' !! Z.to_nat x = a_disk a' !! Z.to_nat x) →
  (∀ j, a_locked a' !! x = Some j → j = i) →
  Forall block_ok (a_data a') ∧ Forall block_ok (a_disk a') →
  content (<[i := b']> bs) a'.
Proof.
  intros Hc Hi Hb Hok' Hu Hx Hcase Ha Hcl Hlk Hbl.
  assert (0 ≤ x) as Hx0 by (destruct Hu; lia).
  assert (i < length bs)%nat as Hil by (by eapply lookup_lt_Some).
  assert (∀ j c, (j < NBUF)%nat → j ≠ i → bs !! j = Some c → b_dev c = 1 → b_blockno c ≠ x) as Hoff.
  { intros j c Hj Hji Hjc Hd Hcx. destruct Hcase as [[Hd' Hx']|[Hnc _]]; [|by eapply Hnc].
    apply Hji. eapply (c_uniq _ _ Hc j i c b); congruence || done. }
  assert (∀ y, y ≠ x → (y ∈ a_dirty a ∨ is_Some (a_locked a !! y)) → b_dev b = 1 → b_blockno b ≠ y) as Hpin.
  { intros y Hyx Hy Hd <-. destruct Hcase as [[_ Hx']|[_ Hev]]; [done|].
    destruct (Hev Hd) as [E1 E2]. rewrite E2 in Hy. destruct Hy as [?|[? ?]]; done. }
  destruct (Ha) as (Hl1 & Hl2 & Ho). split.
  - intros j c Hj. destruct (decide (i = j)) as [<-|Hne].
    + rewrite list_lookup_insert_eq by done. by intros [= <-].
    + rewrite list_lookup_insert_ne by done. intros Hjc.
      apply (buf_ok_agree x a); [done|done|by apply (Hoff j)|by apply (c_ok _ _ Hc j)].
  - intros j k c c' Hj Hk. destruct (decide (i = j)) as [<-|Hne1], (decide (i = k)) as [<-|Hne2];
      rewrite ?list_lookup_insert_eq, ?list_lookup_insert_ne by done; [done| | |].
    + intros [= <-] Hkc Hd Hd' E. destruct (Hoff k c' Hk (not_eq_sym Hne2) Hkc Hd'). congruence.
    + intros Hjc [= <-] Hd Hd' E. destruct (Hoff j c Hj (not_eq_sym Hne1) Hjc Hd). congruence.
    + by apply (c_uniq _ _ Hc).
  - intros y Hy. destruct (decide (y = x)) as [->|Hyx].
    + exists i, b'. rewrite list_lookup_insert_eq by done. by destruct Hu.
    + destruct (Ho y Hyx) as (_ & Hd & _). apply Hd in Hy.
      destruct (c_dirty _ _ Hc y Hy) as (j & c & Hj & Hjc & Hcd & Hcb). exists j, c.
      rewrite list_lookup_insert_ne; [done|]. intros <-. rewrite Hb in Hjc. injection Hjc as <-.
      by apply (Hpin y Hyx); [left|..].
  - intros y j Hy. destruct (decide (y = x)) as [->|Hyx].
    + rewrite (Hlk j Hy). split; [done|]. exists b'. rewrite list_lookup_insert_eq by done. by destruct Hu.
    + destruct (Ho y Hyx) as (_ & _ & Hl). rewrite Hl in Hy.
      destruct (c_locked _ _ Hc y j Hy) as (Hj & c & Hjc & Hcd & Hcb). split; [done|]. exists c.
      rewrite list_lookup_insert_ne; [done|]. intros <-. rewrite Hb in Hjc. injection Hjc as <-.
      by apply (Hpin y Hyx); [right|..].
  - intros y Hy0 Hyd Hyl. destruct (decide (y = x)) as [->|Hyx]; [by apply Hcl|].
    destruct (Ho y Hyx) as (Hv & Hd & Hl). destruct Hv as [-> ->]; [done|done|].
    apply (c_clean _ _ Hc); [done|naive_solver|congruence].
  - rewrite Hl1, Hl2. apply (c_len _ _ Hc).
  - done.
Qed.

(** ** The parts of a state *)

(** Pointers do not matter to the content, content does not matter to the
    list. *)
Definition strip (b : buf) : buf := set_bprev O (set_bnext O b).

Lemma buf_ok_strip a i b b' : strip b = strip b' → buf_ok a i b → buf_ok a i b'.
Proof.
  destruct b, b'. unfold strip, set_bprev, set_bnext. simpl. intros [= -> -> -> -> -> ->] [H1 H2 H3].
  split; [done|done|]. destruct H3 as [H3|[? ? ? ? ?]]; [by left|right]. by split.
Qed.

Lemma content_strip bs bs' a : strip <$> bs = strip <$> bs' → content bs a → content bs' a.
Proof.
  intros Hs Hc.
  assert (∀ i b', bs' !! i = Some b' → ∃ b, bs !! i = Some b ∧ strip b = strip b') as Hbk.
  { intros i b' Hb'. assert ((strip <$> bs) !! i = Some (strip b')) as E by (rewrite Hs, list_lookup_fmap; by rewrite Hb').
    rewrite list_lookup_fmap in E. destruct (bs !! i) as [b|]; [|done]. apply (inj Some) in E. eauto. }
  assert (∀ i b, bs !! i = Some b → ∃ b', bs' !! i = Some b' ∧ strip b = strip b') as Hfw.
  { intros i b Hb. assert ((strip <$> bs') !! i = Some (strip b)) as E by (rewrite <- Hs, list_lookup_fmap; by rewrite Hb).
    rewrite list_lookup_fmap in E. destruct (bs' !! i) as [b'|]; [|done]. apply (inj Some) in E. eauto. }
  assert (∀ b b', strip b = strip b' → b_dev b = b_dev b' ∧ b_blockno b = b_blockno b') as Hst.
  { intros [] []. unfold strip, set_bprev, set_bnext. simpl. by intros [= -> -> -> -> -> ->]. }
  destruct Hc as [H1 H2 H3 H4 H5 H6 H7]. split; try done.
  - intros i b' Hi Hb'. destruct (Hbk i b' Hb') as (b & Hb & E). eapply buf_ok_strip; [done|]. by apply H1.
  - intros i j b' c' Hi Hj Hb' Hc'. destruct (Hbk i b' Hb') as (b & Hb & E), (Hbk j c' Hc') as (c & Hc & E').
    destruct (Hst b b' E) as [<- <-], (Hst c c' E') as [<- <-]. by apply H2.
  - intros x Hx. destruct (H3 x Hx) as (i & b & Hi & Hb & Hd & Hn). destruct (Hfw i b Hb) as (b' & Hb' & E).
    exists i, b'. by destruct (Hst b b' E) as [<- <-].
  - intros x i Hx. destruct (H4 x i Hx) as (Hi & b & Hb & Hd & Hn). destruct (Hfw i b Hb) as (b' & Hb' & E).
    split; [done|]. exists b'. by destruct (Hst b b' E) as [<- <-].
Qed.

Lemma nx_insert bs i b : (i < length bs)%nat → ∀ j, nx (<[i := b]> bs) j = (<[i := b_next b]> (nx bs) : nat → nat) j.
Proof.
  intros Hi j. unfold nx at 1. destruct (decide (i = j)) as [<-|].
  - by rewrite list_lookup_insert_eq, fn_lookup_insert.
  - by rewrite list_lookup_insert_ne, fn_lookup_insert_ne.
Qed.
Lemma pv_insert bs i b : (i < length bs)%nat → ∀ j, pv (<[i := b]> bs) j = (<[i := b_prev b]> (pv bs) : nat → nat) j.
Proof.
  intros Hi j. unfold pv at 1. destruct (decide (i = j)) as [<-|].
  - by rewrite list_lookup_insert_eq, fn_lookup_insert.
  - by rewrite list_lookup_insert_ne, fn_lookup_insert_ne.
Qed.

Lemma ring_insert bs i b b' l :
  bs !! i = Some b → b_next b' = b_next b → b_prev b' = b_prev b → ring bs l → ring (<[i := b']> bs) l.
Proof.
  intros Hb Hn Hp [Hs Hl]. assert (i < length bs)%nat by (by eapply lookup_lt_Some). split; [|done].
  revert Hs. apply seg_ext; intros j _.
  - rewrite nx_insert by done. destruct (decide (i = j)) as [<-|]; [|by rewrite fn_lookup_insert_ne].
    rewrite fn_lookup_insert, Hn. unfold nx. by rewrite Hb.
  - rewrite pv_insert by done. destruct (decide (i = j)) as [<-|]; [|by rewrite fn_lookup_insert_ne].
    rewrite fn_lookup_insert, Hp. unfold pv. by rewrite Hb.
Qed.

Lemma ring_in bs l i : ring bs l → i ∈ l ↔ (i < NBUF)%nat.
Proof. intros [_ Hp]. rewrite Hp, elem_of_seq. lia. Qed.
Lemma ring_nodup bs l : ring bs l → NoDup (bhead :: l) ∧ length l = NBUF.
Proof.
  intros Hr. pose proof (ring_in bs l bhead Hr) as Hh. destruct Hr as [_ Hp]. split.
  - apply NoDup_cons. split; [|rewrite Hp; apply NoDup_seq]. unfold bhead in *. intros ?%Hh. lia.
  - by rewrite Hp, length_seq.
Qed.

(** ** Runs of the small operations *)

Lemma buf_upd_run i f b s :
  bufs s !! i = Some b → buf_upd i f s = Ret tt (set_bufs (<[i := f b]> (bufs s)) s) [].
Proof. intros H. unfold buf_upd. by rewrite (bind_run _ _ _ _ _ _ (buf_get_run i b s H)). Qed.

Lemma on_block_run {A} i (m : M sleeplock A) b s v l' t :
  bufs s !! i = Some b → m (b_lock b) = Ret v l' t →
  on_block i m s = Ret v (set_bufs (<[i := set_block l' b]> (bufs s)) s) t.
Proof.
  intros H Hm. unfold on_block. rewrite (bind_run _ _ _ _ _ _ (buf_get_run i b s H)), prepend_nil.
  unfold zoom. by rewrite Hm.
Qed.

Lemma set_bufs_id s : set_bufs (bufs s) s = s.
Proof. by destruct s. Qed.

Lemma set_bufs_twice x y s : set_bufs x (set_bufs y s) = set_bufs x s.
Proof. done. Qed.

Lemma bholding_run i b s :
  bufs s !! i = Some b → sl_lk (b_lock b) = false →
  on_block i holdingsleep s = Ret (sl_locked (b_lock b)) s [].
Proof.
  intros H Hlk. rewrite (on_block_run i _ b s _ _ _ H (holdingsleep_run _ Hlk)).
  replace (set_block (b_lock b) b) with b by (by destruct b). by rewrite list_insert_id, set_bufs_id.
Qed.

(** A read: the buffer is locked and not valid. *)
Lemma iderw_read i b d s :
  bufs s !! i = Some b → sl_lk (b_lock b) = false → sl_locked (b_lock b) = true →
  b_flags b = 0 → b_dev b = 1 → 0 ≤ b_blockno b → memdisk s !! Z.to_nat (b_blockno b) = Some d →
  iderw i s = Ret tt (set_bufs (<[i := set_bflags 2 (set_bdata d b)]> (bufs s)) s) [].
Proof.
  intros Hb Hlk Hl Hf Hd H0 Hdk. unfold iderw. mstep (bholding_run i b s Hb Hlk).
  rewrite Hl. cbn [negb panic_if]. rewrite (bind_run _ _ s tt s [] eq_refl), prepend_nil.
  mstep (buf_get_run i b s Hb). rewrite (bind_run _ _ s s s [] eq_refl), prepend_nil.
  rewrite Hf, Hd. do 2 rewrite (bind_run _ _ s tt s [] eq_refl), prepend_nil.
  rewrite (bool_decide_false (disksize s ≤ _)).
  2: { apply lookup_lt_Some in Hdk. unfold disksize. lia. }
  rewrite (bind_run _ _ s tt s [] eq_refl), prepend_nil. rewrite bool_decide_false by (intros H; by apply H).
  rewrite (bind_run _ _ s tt (set_bufs (<[i := set_bdata d b]> (bufs s)) s) []), prepend_nil.
  2: { rewrite (bind_run _ _ s d s []), prepend_nil by (unfold deref; by rewrite Hdk). by apply buf_upd_run. }
  rewrite (buf_upd_run i _ (set_bdata d b)).
  - simpl. rewrite list_insert_insert_eq, Hf. by destruct s.
  - simpl. apply list_lookup_insert_eq. by eapply lookup_lt_Some.
Qed.

(** A write: the buffer is locked and dirty. *)
Lemma iderw_write i b s :
  bufs s !! i = Some b → sl_lk (b_lock b) = false → sl_locked (b_lock b) = true →
  b_flags b = 6 → b_dev b = 1 → 0 ≤ b_blockno b < Z.of_nat (length (memdisk s)) →
  iderw i s = Ret tt (set_memdisk (<[Z.to_nat (b_blockno b) := b_data b]> (memdisk s))
                        (set_bufs (<[i := set_bflags 2 b]> (bufs s)) s))
                     [EvDisk 1 (b_blockno b) (b_data b)].
Proof.
  intros Hb Hlk Hl Hf Hd H0. unfold iderw. mstep (bholding_run i b s Hb Hlk).
  rewrite Hl. cbn [negb panic_if]. rewrite (bind_run _ _ s tt s [] eq_refl), prepend_nil.
  mstep (buf_get_run i b s Hb). rewrite (bind_run _ _ s s s [] eq_refl), prepend_nil.
  rewrite Hf, Hd. do 2 rewrite (bind_run _ _ s tt s [] eq_refl), prepend_nil.
  rewrite (bool_decide_false (disksize s ≤ _)) by (unfold disksize; lia).
  rewrite (bind_run _ _ s tt s [] eq_refl), prepend_nil. rewrite bool_decide_true by done.
  assert (i < length (bufs s))%nat by (by eapply lookup_lt_Some).
  erewrite (bind_run _ _ s tt _ [EvDisk 1 (b_blockno b) (b_data b)]).
  2: { mstep (buf_upd_run i (λ b, set_bflags (Z.land (b_flags b) (Z.lnot B_DIRTY)) b) b s Hb). reflexivity. }
  erewrite (buf_upd_run i). 2: { simpl. by apply list_lookup_insert_eq. }
  simpl. rewrite list_insert_insert_eq, Hf. by destruct s.
Qed.

(** ** Facts about represented states *)

Lemma brep_locked s a x i :
  brep s a → a_locked a !! x = Some i →
  ∃ b, bufs s !! i = Some b ∧ (i < NBUF)%nat ∧ in_use a i b ∧ b_blockno b = x ∧
       sl_lk (b_lock b) = false ∧ sl_locked (b_lock b) = true ∧ b_refcnt b = 1.
Proof.
  intros [_ _ _ Hc _] Hx. destruct (c_locked _ _ Hc x i Hx) as (Hi & b & Hb & Hd & Hn).
  destruct (c_ok _ _ Hc i b Hi Hb) as [Hlk Hr Hcase]. exists b.
  destruct Hcase as [(? & _)|Hu]; [congruence|].
  assert (sl_locked (b_lock b) = true) as Hl.
  { rewrite (iu_locked _ _ _ Hu), Hn. by apply bool_decide_eq_true. }
  rewrite Hl in Hr. done.
Qed.

(** A buffer that no one has locked and that is not dirty is found when there
    is room. *)
Lemma pigeonhole bs a :
  content bs a → length bs = S NBUF → (size (a_dirty a ∪ dom (a_locked a)) < NBUF)%nat →
  ¬ (∀ i b, (i < NBUF)%nat → bs !! i = Some b → ¬ (b_refcnt b = 0 ∧ Z.land (b_flags b) B_DIRTY = 0)).
Proof.
  intros Hc Hlen Hroom Hall.
  assert (∀ i, (i < NBUF)%nat → ∃ b, bs !! i = Some b ∧ in_use a i b ∧
            b_blockno b ∈ a_dirty a ∪ dom (a_locked a)) as Hbusy.
  { intros i Hi. destruct (lookup_lt_is_Some_2 bs i) as [b Hb]; [lia|]. exists b. split; [done|].
    destruct (c_ok _ _ Hc i b Hi Hb) as [_ Hr Hcase]. specialize (Hall i b Hi Hb).
    destruct Hcase as [(_ & Hf & Hl)|Hu]; [rewrite Hl in Hr; rewrite Hf in Hall; naive_solver|].
    split; [done|]. rewrite Hr, (iu_flags _ _ _ Hu) in Hall. unfold flags_of in Hall.
    case_bool_decide; [set_solver|]. destruct (sl_locked (b_lock b)) eqn:El; [|naive_solver].
    rewrite (iu_locked _ _ _ Hu) in El. apply bool_decide_eq_true in El.
    apply elem_of_union. right. by eapply elem_of_dom_2. }
  set (f i := default 0 (b_blockno <$> bs !! i)).
  assert (NoDup (f <$> seq 0 NBUF)) as Hnd.
  { apply NoDup_fmap_2_strong; [|apply NoDup_seq]. intros i j Hi%elem_of_seq Hj%elem_of_seq.
    destruct (Hbusy i) as (b & Hb & [] & _), (Hbusy j) as (c & Hjc & [] & _); [lia..|].
    unfold f. rewrite Hb, Hjc. simpl. intros E. eapply (c_uniq _ _ Hc i j b c); done || lia. }
  assert (list_to_set (f <$> seq 0 NBUF) ⊆ a_dirty a ∪ dom (a_locked a)) as Hsub.
  { intros x Hx. apply elem_of_list_to_set, list_elem_of_fmap in Hx as (i & -> & Hi%elem_of_seq).
    destruct (Hbusy i) as (b & Hb & _ & Hin); [lia|]. unfold f. by rewrite Hb. }
  apply subseteq_size in Hsub. rewrite size_list_to_set, length_fmap, length_seq in Hsub by done. lia.
Qed.

Lemma brep_update s a a' i b b' x :
  brep s a → (i < NBUF)%nat → bufs s !! i = Some b →
  b_next b' = b_next b → b_prev b' = b_prev b → a_disk a' = a_disk a →
  content (<[i := b']> (bufs s)) a' → b_blockno b' = x →
  brep (set_bufs (<[i := b']> (bufs s)) s) a'.
Proof.
  intros [H1 H2 [l H3] H4 H5] Hi Hb Hn Hp Hd Hc _. split; simpl; try done.
  - by rewrite length_insert.
  - exists l. by eapply ring_insert.
  - by rewrite Hd.
Qed.

Lemma a_lock_agree x i a : agree_off x a (a_lock x i a).
Proof. unfold agree_off, a_lock. simpl. split_and!; try done. intros y Hy. by rewrite lookup_insert_ne. Qed.
Lemma a_unlock_agree x a : agree_off x a (a_unlock x a).
Proof. unfold agree_off, a_unlock. simpl. split_and!; try done. intros y Hy. by rewrite lookup_delete_ne. Qed.
Lemma a_set_agree x d a : agree_off x a (a_set x d a).
Proof.
  unfold agree_off, a_set. simpl. split_and!; try done; [by rewrite length_insert|].
  intros y Hy. split_and!; try done; intros; by rewrite list_lookup_insert_ne by lia.
Qed.
Lemma a_mark_agree x a : agree_off x a (a_mark x a).
Proof. unfold agree_off, a_mark. simpl. split_and!; try done. intros y Hy. split_and!; try done; set_solver. Qed.
Lemma a_write_agree x d a : agree_off x a (a_write x d a).
Proof.
  unfold agree_off, a_write. simpl. split_and!; try done; [by rewrite length_insert|].
  intros y Hy. split_and!; try set_solver; intros; by rewrite list_lookup_insert_ne by lia.
Qed.

Lemma flags_of_valid a x : Z.land (flags_of a x) B_VALID ≠ 0.
Proof. unfold flags_of. by case_bool_decide. Qed.

(** ** The operations implement the abstract ones *)

Lemma bacquiresleep_run i b s :
  bufs s !! i = Some b → sl_lk (b_lock b) = false → sl_locked (b_lock b) = false →
  bacquiresleep i s =
    Ret tt (set_bufs (<[i := set_block (SLock false true (curpid s)) b]> (bufs s)) s) [].
Proof.
  intros Hb Hlk Hl. unfold bacquiresleep. rewrite (bind_run _ _ s s s [] eq_refl), prepend_nil.
  by apply on_block_run, acquiresleep_free'.
Qed.

(** Block [x] is in buffer [i]. *)
Lemma bget_hit s a x i b :
  brep s a → (i < NBUF)%nat → bufs s !! i = Some b → b_dev b = 1 → b_blockno b = x →
  a_locked a !! x = None →
  bget 1 x s = Ret i (set_bufs (<[i := set_block (SLock false true (curpid s)) (set_brefcnt 1 b)]> (bufs s)) s) [].
Proof.
  intros [Hh Hlen [l Hr] Hc Hdk] Hi Hb Hd Hx Hnl.
  destruct (c_ok _ _ Hc i b Hi Hb) as [Hlk Href Hcase].
  destruct Hcase as [(? & _)|Hu]; [congruence|].
  assert (sl_locked (b_lock b) = false) as Hl by (rewrite (iu_locked _ _ _ Hu), Hx, Hnl; done).
  destruct (ring_nodup _ _ Hr) as [[Hhl _]%NoDup_cons Hll].
  destruct (lookup_lt_is_Some_2 (bufs s) bhead) as [h Hhd]; [unfold bhead; lia|].
  unfold bget. mstep (lk_acquire_run bc_held set_bheld s Hh).
  mstep (buf_get_run bhead h (set_bheld true s) Hhd).
  destruct (bget_cached_run (set_bheld true s) 1 x l bhead (S NBUF)) as (r & Hrun & Hm); try (simpl; lia || done).
  { intros j Hj. apply lookup_lt_is_Some_2. simpl. apply (ring_in _ _ _ Hr) in Hj. lia. }
  { apply Hr. }
  replace (b_next h) with (nx (bufs (set_bheld true s)) bhead) by (unfold nx; simpl; by rewrite Hhd).
  mstep Hrun. destruct r as [j|].
  2: { exfalso. apply (Hm i b); [by apply (ring_in _ _ _ Hr)|done|done]. }
  destruct Hm as (Hj & c & Hjc & Hcd & Hcx). simpl in Hjc.
  assert (j = i) as ->.
  { eapply (c_uniq _ _ Hc j i c b); try done; [by apply (ring_in _ _ _ Hr)|congruence]. }
  rewrite Hb in Hjc. injection Hjc as <-. rewrite Hl in Href.
  mstep (buf_upd_run i (λ x, set_brefcnt (u32 (b_refcnt x + 1)) x) b (set_bheld true s) Hb).
  rewrite Href. change (u32 (0 + 1)) with 1.
  rewrite (bind_run _ _ _ tt (set_bufs (<[i := set_brefcnt 1 b]> (bufs s)) s) []), prepend_nil
    by (destruct s; simpl in *; by rewrite Hh).
  assert (i < length (bufs s))%nat by (by eapply lookup_lt_Some).
  erewrite (bind_run _ _ _ tt _ []).
  2: { apply (bacquiresleep_run i (set_brefcnt 1 b)); [|done..]. simpl. by apply list_lookup_insert_eq. }
  rewrite prepend_nil. simpl. by rewrite list_insert_insert_eq.
Qed.

(** Block [x] is in no buffer: an unused one is recycled. *)
Lemma bget_miss s a x :
  brep s a → (∀ i b, (i < NBUF)%nat → bufs s !! i = Some b → b_dev b = 1 → b_blockno b ≠ x) →
  (size (a_dirty a ∪ dom (a_locked a)) < NBUF)%nat →
  ∃ i b, (i < NBUF)%nat ∧ bufs s !! i = Some b ∧ sl_lk (b_lock b) = false ∧
    (b_dev b = 1 → b_blockno b ∉ a_dirty a ∧ a_locked a !! b_blockno b = None) ∧
    bget 1 x s = Ret i (set_bufs (<[i := Buf 0 1 x (SLock false true (curpid s)) 1 (b_prev b) (b_next b) (b_data b)]>
                         (bufs s)) s) [].
Proof.
  intros [Hh Hlen [l Hr] Hc Hdk] Hnc Hroom.
  destruct (ring_nodup _ _ Hr) as [[Hhl _]%NoDup_cons Hll].
  destruct (lookup_lt_is_Some_2 (bufs s) bhead) as [h Hhd]; [unfold bhead; lia|].
  assert (∀ j, j ∈ l → is_Some (bufs (set_bheld true s) !! j)) as Hsome.
  { intros j Hj. apply lookup_lt_is_Some_2. simpl. apply (ring_in _ _ _ Hr) in Hj. lia. }
  destruct (bget_cached_run (set_bheld true s) 1 x l bhead (S NBUF)) as (r & Hrun & Hm); try (simpl; lia || done).
  { apply Hr. }
  destruct r as [j|].
  { destruct Hm as (Hj & c & Hjc & Hcd & Hcx). destruct (Hnc j c); try done. by apply (ring_in _ _ _ Hr). }
  destruct (bget_unused_run (set_bheld true s) l bhead (S NBUF)) as (r & Hrun2 & Hm2); try (simpl; lia || done).
  { apply Hr. }
  destruct r as [i|].
  2: { destruct (pigeonhole _ _ Hc Hlen Hroom). intros i b Hi. apply Hm2. by apply (ring_in _ _ _ Hr). }
  destruct Hm2 as (Hi & b & Hb & Href & Hfl). apply (ring_in _ _ _ Hr) in Hi. simpl in Hb.
  destruct (c_ok _ _ Hc i b Hi Hb) as [Hlk Href' Hcase]. rewrite Href in Href'.
  destruct (sl_locked (b_lock b)) eqn:El; [done|].
  exists i, b. split_and!; try done.
  { intros Hd. destruct Hcase as [(? & _)|Hu]; [congruence|]. rewrite (iu_flags _ _ _ Hu) in Hfl.
    rewrite (iu_locked _ _ _ Hu) in El. apply bool_decide_eq_false in El. split.
    - unfold flags_of in Hfl. by case_bool_decide.
    - destruct (a_locked a !! b_blockno b) as [j|] eqn:E; [|done]. exfalso.
      destruct (c_locked _ _ Hc _ _ E) as (Hj & c & Hjc & Hcd & Hcx).
      apply El. f_equal. by eapply (c_uniq _ _ Hc j i c b). }
  unfold bget. mstep (lk_acquire_run bc_held set_bheld s Hh).
  mstep (buf_get_run bhead h (set_bheld true s) Hhd).
  replace (b_next h) with (nx (bufs (set_bheld true s)) bhead) by (unfold nx; simpl; by rewrite Hhd).
  mstep Hrun. mstep (buf_get_run bhead h (set_bheld true s) Hhd).
  replace (b_prev h) with (pv (bufs (set_bheld true s)) bhead) by (unfold pv; simpl; by rewrite Hhd).
  mstep Hrun2. assert (i < length (bufs s))%nat by (by eapply lookup_lt_Some).
  mstep (buf_upd_run i (set_bdev 1) b (set_bheld true s) Hb).
  do 3 (erewrite (bind_run (buf_upd i _)), prepend_nil;
    [|apply buf_upd_run; simpl; rewrite ?list_insert_insert_eq; by apply list_lookup_insert_eq]; simpl).
  rewrite !list_insert_insert_eq.
  erewrite (bind_run (lk_release _ _)), prepend_nil; [|by apply lk_release_run].
  erewrite (bind_run (bacquiresleep i)), prepend_nil.
  2: { apply bacquiresleep_run; [simpl; by apply list_lookup_insert_eq|done|done]. }
  destruct s; simpl in *. by rewrite list_insert_insert_eq, Hh.
Qed.

Lemma cached_or_not (bs : list buf) (x : Z) (n : nat) :
  (∃ i b, (i < n)%nat ∧ bs !! i = Some b ∧ b_dev b = 1 ∧ b_blockno b = x) ∨
  (∀ i b, (i < n)%nat → bs !! i = Some b → b_dev b = 1 → b_blockno b ≠ x).
Proof.
  induction n as [|n [(i & b & Hi & Hb)|IH]]; [right; lia|left; exists i, b; split; [lia|done]|].
  destruct (bs !! n) as [b|] eqn:E; [destruct (decide (b_dev b = 1 ∧ b_blockno b = x)) as [H|H]|].
  - left. exists n, b. split; [lia|done].
  - right. intros i c Hi Hc. destruct (decide (i = n)) as [->|]; [|apply (IH i c); [lia|done]].
    rewrite E in Hc. injection Hc as <-. naive_solver.
  - right. intros i c Hi Hc. destruct (decide (i = n)) as [->|]; [congruence|apply (IH i c); [lia|done]].
Qed.

Lemma bread_spec s a x :
  brep s a → a_locked a !! x = None → 0 ≤ x < Z.of_nat (length (a_disk a)) → room a x →
  ∃ i s', bread 1 x s = Ret i s' [] ∧ brep s' (a_lock x i a) ∧ curpid s' = curpid s.
Proof.
  intros Hrep Hnl Hx Hroom. pose proof Hrep as [Hh Hlen _ Hc Hdk].
  destruct (lookup_lt_is_Some_2 (a_data a) (Z.to_nat x)) as [d Hd]; [rewrite (c_len _ _ Hc); lia|].
  destruct (cached_or_not (bufs s) x NBUF) as [(i & b & Hi & Hb & Hbd & Hbx)|Hnc'].
  - exists i. eexists. assert (i < length (bufs s))%nat by (by eapply lookup_lt_Some).
    destruct (c_ok _ _ Hc i b Hi Hb) as [Hlk Href [(? & _)|Hu]]; [congruence|].
    unfold bread. mstep (bget_hit s a x i b Hrep Hi Hb Hbd Hbx Hnl).
    erewrite (bind_run (buf_get i)), prepend_nil; [|apply buf_get_run; simpl; by apply list_lookup_insert_eq].
    cbn [set_block set_brefcnt b_flags]. rewrite (iu_flags _ _ _ Hu), bool_decide_false by apply flags_of_valid.
    rewrite bind_mret. split_and!; [reflexivity| |done].
    eapply (brep_update _ a _ i b); try done. eapply (content_update _ a _ i b _ x); try done.
    + split; simpl; try done. right. split; simpl; try apply Hu.
      rewrite Hbx, lookup_insert_eq. by rewrite bool_decide_true.
    + split; simpl; try apply Hu. rewrite Hbx, lookup_insert_eq. by rewrite bool_decide_true.
    + by left.
    + apply a_lock_agree.
    + simpl. by rewrite lookup_insert_eq.
    + intros j. simpl. rewrite lookup_insert_eq. by intros [= <-].
    + apply (c_blocks _ _ Hc).
  - assert (x ∉ a_dirty a) as Hnd.
    { intros Hin. destruct (c_dirty _ _ Hc x Hin) as (i & b & Hi & Hb & Hbd & Hbx). by apply (Hnc' i b). }
    destruct Hroom as [?|Hroom]; [done|].
    destruct (bget_miss s a x Hrep Hnc' Hroom) as (i & b & Hi & Hb & Hlk & Hev & Hrun).
    assert (i < length (bufs s))%nat by (by eapply lookup_lt_Some).
    exists i. eexists. unfold bread. mstep Hrun.
    erewrite (bind_run (buf_get i)), prepend_nil; [|apply buf_get_run; simpl; by apply list_lookup_insert_eq].
    rewrite bool_decide_true by done.
    erewrite (bind_run (iderw i)), prepend_nil.
    2: { eapply (iderw_read i _ d); simpl; [by apply list_lookup_insert_eq|done..|simpl; lia|].
         simpl. rewrite Hdk, <- (c_clean _ _ Hc x); [done|lia|done|done]. }
    split_and!; [reflexivity| |done]. rewrite set_bufs_twice. simpl. rewrite list_insert_insert_eq.
    eapply (brep_update _ a _ i b); try done. eapply (content_update _ a _ i b _ x); try done.
    + split; simpl; try done. right. split; simpl; try done.
      * unfold flags_of. simpl. by rewrite bool_decide_false.
      * rewrite lookup_insert_eq. by rewrite bool_decide_true.
    + split; simpl; try done.
      * unfold flags_of. simpl. by rewrite bool_decide_false.
      * rewrite lookup_insert_eq. by rewrite bool_decide_true.
    + by right.
    + apply a_lock_agree.
    + simpl. by rewrite lookup_insert_eq.
    + intros j. simpl. rewrite lookup_insert_eq. by intros [= <-].
    + apply (c_blocks _ _ Hc).
Qed.

Lemma bdata_get_spec s a x i d :
  brep s a → a_locked a !! x = Some i → a_data a !! Z.to_nat x = Some d → bdata_get i s = Ret d s [].
Proof.
  intros Hr Hx Hd. destruct (brep_locked s a x i Hr Hx) as (b & Hb & Hi & Hu & Hbx & _).
  unfold bdata_get. mstep (buf_get_run i b s Hb). rewrite <- Hbx, (iu_data _ _ _ Hu) in Hd. by injection Hd as <-.
Qed.

Lemma blockno_spec s a x i :
  brep s a → a_locked a !! x = Some i → ∃ b, buf_get i s = Ret b s [] ∧ b_blockno b = x.
Proof.
  intros Hr Hx. destruct (brep_locked s a x i Hr Hx) as (b & Hb & Hi & Hu & Hbx & _).
  exists b. split; [by apply buf_get_run|done].
Qed.

(** A change of a locked buffer that keeps its block. *)
Lemma locked_update s a a' x i b b' :
  brep s a → a_locked a !! x = Some i → bufs s !! i = Some b → a_disk a' = a_disk a →
  b_next b' = b_next b → b_prev b' = b_prev b → b_lock b' = b_lock b → b_refcnt b' = b_refcnt b →
  b_dev b' = b_dev b → b_blockno b' = b_blockno b → b_flags b' = flags_of a' x →
  a_data a' !! Z.to_nat x = Some (b_data b') → a_locked a' = a_locked a → agree_off x a a' →
  Forall block_ok (a_data a') →
  brep (set_bufs (<[i := b']> (bufs s)) s) a'.
Proof.
  intros Hr Hx Hb Hdk Hn Hp Hl Href Hd Hbn Hf Hdt Hlk Hag Hbl.
  destruct (brep_locked s a x i Hr Hx) as (b0 & Hb0 & Hi & Hu & Hbx & Hk1 & Hk2 & Hk3).
  rewrite Hb in Hb0. injection Hb0 as <-. pose proof Hr as [_ _ _ Hc _].
  assert (in_use a' i b') as Hu'.
  { split; rewrite ?Hd, ?Hbn, ?Hdk, ?Hl, ?Hlk, ?Hbx; try done; try apply Hu.
    - rewrite <- Hbx. apply Hu.
    - rewrite Hx, bool_decide_true by done. done. }
  eapply (brep_update _ a _ i b); try done.
  eapply (content_update _ a _ i b _ x); try done.
  - split; [by rewrite Hl|by rewrite Href, Hl, Hk2|by right].
  - congruence.
  - left. split; [apply Hu|done].
  - rewrite Hlk, Hx. done.
  - intros j. rewrite Hlk, Hx. by intros [= <-].
  - split; [done|]. rewrite Hdk. apply (c_blocks _ _ Hc).
Qed.

Lemma bdata_set_spec s a x i d :
  brep s a → a_locked a !! x = Some i → block_ok d →
  ∃ s', bdata_set i d s = Ret tt s' [] ∧ brep s' (a_set x d a) ∧ curpid s' = curpid s.
Proof.
  intros Hr Hx Hd. destruct (brep_locked s a x i Hr Hx) as (b & Hb & Hi & Hu & Hbx & Hk1 & Hk2 & Hk3).
  pose proof Hr as [_ _ _ Hc _].
  eexists. split; [by apply buf_upd_run|]. split; [|done].
  eapply (locked_update s a _ x i b); try done; simpl.
  - rewrite (iu_flags _ _ _ Hu), Hbx. done.
  - apply list_lookup_insert_eq. rewrite (c_len _ _ Hc). destruct Hu. lia.
  - apply a_set_agree.
  - apply Forall_insert; [apply (c_blocks _ _ Hc)|done].
Qed.

Lemma bmark_spec s a x i :
  brep s a → a_locked a !! x = Some i →
  ∃ s', buf_upd i (λ b, set_bflags (Z.lor (b_flags b) B_DIRTY) b) s = Ret tt s' [] ∧
    brep s' (a_mark x a) ∧ curpid s' = curpid s.
Proof.
  intros Hr Hx. destruct (brep_locked s a x i Hr Hx) as (b & Hb & Hi & Hu & Hbx & Hk1 & Hk2 & Hk3).
  pose proof Hr as [_ _ _ Hc _].
  eexists. split; [by apply buf_upd_run|]. split; [|done].
  eapply (locked_update s a _ x i b); try done; simpl.
  - rewrite (iu_flags _ _ _ Hu). unfold flags_of at 2. simpl. rewrite (bool_decide_true (x ∈ _)) by set_solver.
    unfold flags_of. by case_bool_decide.
  - rewrite <- Hbx. apply Hu.
  - apply a_mark_agree.
  - apply (c_blocks _ _ Hc).
Qed.

Lemma bwrite_spec s a x i d :
  brep s a → a_locked a !! x = Some i → a_data a !! Z.to_nat x = Some d →
  ∃ s', bwrite i s = Ret tt s' [EvDisk 1 x d] ∧ brep s' (a_write x d a) ∧ curpid s' = curpid s.
Proof.
  intros Hr Hx Hd. destruct (brep_locked s a x i Hr Hx) as (b & Hb & Hi & Hu & Hbx & Hk1 & Hk2 & Hk3).
  pose proof Hr as [Hh Hlen [l Hring] Hc Hdk]. assert (i < length (bufs s))%nat by (by eapply lookup_lt_Some).
  assert (b_data b = d) as Hbd by (rewrite <- Hbx, (iu_data _ _ _ Hu) in Hd; by injection Hd).
  assert (Z.lor (b_flags b) B_DIRTY = 6) as Hfl.
  { rewrite (iu_flags _ _ _ Hu). unfold flags_of. by case_bool_decide. }
  eexists. split_and!.
  - unfold bwrite. mstep (bholding_run i b s Hb Hk1). rewrite Hk2. cbn [negb panic_if]. rewrite bind_mret.
    mstep (buf_upd_run i (λ x, set_bflags (Z.lor (b_flags x) B_DIRTY) x) b s Hb). rewrite Hfl.
    erewrite (iderw_write i (set_bflags 6 b)); simpl; try done.
    + rewrite Hbx, Hbd, list_insert_insert_eq. reflexivity.
    + by apply list_lookup_insert_eq.
    + apply Hu.
    + rewrite Hdk. apply Hu.
  - split; simpl; try done.
    + by rewrite length_insert.
    + exists l. by eapply ring_insert.
    + destruct Hu as [U1 U2 U3 U4 U5].
      eapply (content_update _ a _ i b _ x); try done; simpl.
      * split; simpl; [done|by rewrite Hk2|]. right. split; simpl; try done; [by rewrite length_insert|].
        unfold flags_of. simpl. by rewrite bool_decide_false by set_solver.
      * split; simpl; try done; [by rewrite length_insert|].
        unfold flags_of. simpl. by rewrite bool_decide_false by set_solver.
      * by left.
      * apply a_write_agree.
      * intros _ E. congruence.
      * intros j. rewrite Hx. by intros [= <-].
      * split; [apply (c_blocks _ _ Hc)|]. apply Forall_insert; [apply (c_blocks _ _ Hc)|].
        exact (Forall_lookup_1 _ _ _ _ (proj1 (c_blocks _ _ Hc)) Hd).
    + by rewrite Hdk.
  - done.
Qed.

(** The pointer updates of [brelse]: out of the list, and to its front. *)
Definition unlink (i : nat) (bs : list buf) : list buf :=
  let bs1 := alter (set_bprev (pv bs i)) (nx bs i) bs in
  alter (set_bnext (nx bs1 i)) (pv bs1 i) bs1.
Definition push (i : nat) (bs : list buf) : list buf :=
  let bs1 := alter (set_bnext (nx bs bhead)) i bs in
  let bs2 := alter (set_bprev bhead) i bs1 in
  let bs3 := alter (set_bprev i) (nx bs2 bhead) bs2 in
  alter (set_bnext i) bhead bs3.

Lemma strip_alter (bs : list buf) (j : nat) f : (∀ b, strip (f b) = strip b) → strip <$> alter f j bs = strip <$> bs.
Proof.
  intros Hf. apply list_eq. intros k. rewrite !list_lookup_fmap.
  destruct (decide (j = k)) as [<-|]; [|by rewrite list_lookup_alter_ne].
  rewrite list_lookup_alter_eq. destruct (bs !! j); simpl; by rewrite ?Hf.
Qed.

Lemma front_strip i bs : strip <$> push i (unlink i bs) = strip <$> bs.
Proof. unfold push, unlink. cbv zeta. by rewrite !strip_alter by (by intros []). Qed.

Lemma nx_alter_next (bs : list buf) (j : nat) v : (j < length bs)%nat → ∀ k, nx (alter (set_bnext v) j bs) k = (<[j := v]> (nx bs) : nat → nat) k.
Proof.
  intros [b Hb]%lookup_lt_is_Some_2 k. unfold nx at 1. destruct (decide (j = k)) as [<-|].
  - by rewrite list_lookup_alter_eq, Hb, fn_lookup_insert.
  - by rewrite list_lookup_alter_ne, fn_lookup_insert_ne.
Qed.
Lemma pv_alter_prev (bs : list buf) (j : nat) v : (j < length bs)%nat → ∀ k, pv (alter (set_bprev v) j bs) k = (<[j := v]> (pv bs) : nat → nat) k.
Proof.
  intros [b Hb]%lookup_lt_is_Some_2 k. unfold pv at 1. destruct (decide (j = k)) as [<-|].
  - by rewrite list_lookup_alter_eq, Hb, fn_lookup_insert.
  - by rewrite list_lookup_alter_ne, fn_lookup_insert_ne.
Qed.
Lemma nx_alter_prev (bs : list buf) (j : nat) v k : nx (alter (set_bprev v) j bs) k = nx bs k.
Proof.
  unfold nx. destruct (decide (j = k)) as [<-|]; [rewrite list_lookup_alter_eq|by rewrite list_lookup_alter_ne].
  by destruct (bs !! j).
Qed.
Lemma pv_alter_next (bs : list buf) (j : nat) v k : pv (alter (set_bnext v) j bs) k = pv bs k.
Proof.
  unfold pv. destruct (decide (j = k)) as [<-|]; [rewrite list_lookup_alter_eq|by rewrite list_lookup_alter_ne].
  by destruct (bs !! j).
Qed.

Lemma unlink_ptrs i bs :
  (i < length bs)%nat → (nx bs i < length bs)%nat → (pv bs i < length bs)%nat → nx bs i ≠ i →
  (∀ k, nx (unlink i bs) k = (<[pv bs i := nx bs i]> (nx bs) : nat → nat) k) ∧
  (∀ k, pv (unlink i bs) k = (<[nx bs i := pv bs i]> (pv bs) : nat → nat) k).
Proof.
  intros Hi Hn Hp Hne. unfold unlink. cbv zeta.
  assert (pv (alter (set_bprev (pv bs i)) (nx bs i) bs) i = pv bs i) as E.
  { by rewrite pv_alter_prev, fn_lookup_insert_ne. }
  rewrite E, nx_alter_prev. split; intros k.
  - rewrite nx_alter_next by (by rewrite length_alter).
    unfold insert, fn_insert. by rewrite nx_alter_prev.
  - by rewrite pv_alter_next, pv_alter_prev.
Qed.

Lemma push_ptrs i bs :
  (i < length bs)%nat → (bhead < length bs)%nat → (nx bs bhead < length bs)%nat → i ≠ bhead →
  (∀ k, nx (push i bs) k = (<[bhead := i]> (<[i := nx bs bhead]> (nx bs)) : nat → nat) k) ∧
  (∀ k, pv (push i bs) k = (<[nx bs bhead := i]> (<[i := bhead]> (pv bs)) : nat → nat) k).
Proof.
  intros Hi Hh Hn Hne. unfold push. cbv zeta.
  assert (nx (alter (set_bprev bhead) i (alter (set_bnext (nx bs bhead)) i bs)) bhead = nx bs bhead) as E.
  { by rewrite nx_alter_prev, nx_alter_next, fn_lookup_insert_ne. }
  rewrite E. split; intros k.
  - rewrite nx_alter_next by (by rewrite !length_alter).
    unfold insert, fn_insert. rewrite !nx_alter_prev, nx_alter_next by done. done.
  - rewrite pv_alter_next, pv_alter_prev by (by rewrite !length_alter).
    unfold insert, fn_insert. rewrite pv_alter_prev by (by rewrite length_alter).
    unfold insert, fn_insert. by rewrite pv_alter_next.
Qed.

Lemma length_unlink i bs : length (unlink i bs) = length bs.
Proof. unfold unlink. by rewrite !length_alter. Qed.

Lemma front_ring i bs l1 l2 :
  length bs = S NBUF → ring bs (l1 ++ i :: l2) → ring (push i (unlink i bs)) (i :: l1 ++ l2).
Proof.
  intros Hlen Hr. pose proof (ring_nodup _ _ Hr) as [Hnd _].
  assert (∀ j, j ∈ bhead :: l1 ++ i :: l2 → (j < length bs)%nat) as Hin.
  { intros j [->|Hj]%elem_of_cons; [unfold bhead; lia|]. apply (ring_in _ _ _ Hr) in Hj. lia. }
  destruct Hr as [Hs Hp]. split; [|rewrite <- Hp; apply Permutation_middle].
  pose proof (seg_unlink _ _ _ _ _ _ Hnd Hs) as Hu.
  assert (i ∉ bhead :: l1 ++ l2 ∧ bhead ∉ l1 ++ l2 ∧ NoDup (l1 ++ l2)) as (Hi1 & Hh1 & Hnd1).
  { rewrite <- (Permutation_middle l1 l2 i), !NoDup_cons in Hnd. set_solver. }
  assert (nx bs i ∈ bhead :: l1 ++ l2 ∧ pv bs i ∈ bhead :: l1 ++ l2) as [Hni Hpi].
  { rewrite seg_app in Hs. destruct Hs as [Hs1 Hs2]. apply seg_prev_in in Hs1. apply seg_first in Hs2.
    rewrite Hs2. split; [|set_solver]. destruct l2; simpl; set_solver. }
  destruct (unlink_ptrs i bs) as [En Ep]; [apply Hin; set_solver..|intros E; by rewrite E in Hni|].
  apply (seg_ext _ _ (nx (unlink i bs)) (pv (unlink i bs))) in Hu; [|intros; apply En|intros; apply Ep].
  assert (nx (unlink i bs) bhead ∈ bhead :: l1 ++ l2) as Hnh.
  { apply seg_first in Hu. rewrite Hu. destruct (l1 ++ l2); simpl; set_solver. }
  destruct (push_ptrs i (unlink i bs)) as [En' Ep'];
    [rewrite length_unlink; apply Hin; set_solver..|intros ->; apply Hi1, elem_of_cons; by left|].
  pose proof (seg_push _ _ _ i _ Hi1 Hh1 Hnd1 Hu) as Hf.
  revert Hf. apply seg_ext; intros; [apply En'|apply Ep'].
Qed.

Lemma buf_upd_alter i f s :
  (i < length (bufs s))%nat → buf_upd i f s = Ret tt (set_bufs (alter f i (bufs s)) s) [].
Proof.
  intros [b Hb]%lookup_lt_is_Some_2. rewrite (buf_upd_run i f b s Hb). do 2 f_equal.
  apply list_eq. intros j. destruct (decide (i = j)) as [<-|].
  - rewrite list_lookup_insert_eq, list_lookup_alter_eq, Hb by (by eapply lookup_lt_Some). done.
  - by rewrite list_lookup_insert_ne, list_lookup_alter_ne.
Qed.

Lemma nx_get i b s : bufs s !! i = Some b → b_next b = nx (bufs s) i.
Proof. intros H. unfold nx. by rewrite H. Qed.
Lemma pv_get i b s : bufs s !! i = Some b → b_prev b = pv (bufs s) i.
Proof. intros H. unfold pv. by rewrite H. Qed.

(** The branch of [brelse] for a buffer that no one else uses. *)
Lemma move_front_run i s l1 l2 :
  length (bufs s) = S NBUF → ring (bufs s) (l1 ++ i :: l2) →
  (x ← buf_get i; buf_upd (b_next x) (set_bprev (b_prev x));;
   x ← buf_get i; buf_upd (b_prev x) (set_bnext (b_next x));;
   h ← buf_get bhead; buf_upd i (set_bnext (b_next h));;
   buf_upd i (set_bprev bhead);;
   h ← buf_get bhead; buf_upd (b_next h) (set_bprev i);;
   buf_upd bhead (set_bnext i)) s = Ret tt (set_bufs (push i (unlink i (bufs s))) s) [].
Proof.
  intros Hlen Hr. pose proof (ring_nodup _ _ Hr) as [Hnd _].
  assert (∀ j, j ∈ bhead :: l1 ++ i :: l2 → (j < S NBUF)%nat) as Hin.
  { intros j [->|Hj]%elem_of_cons; [unfold bhead; lia|]. apply (ring_in _ _ _ Hr) in Hj. lia. }
  assert (∀ bs : list buf, length bs = S NBUF → is_Some (bs !! i) ∧ is_Some (bs !! bhead)) as Hsome.
  { intros bs Hb. split; apply lookup_lt_is_Some_2; rewrite Hb; apply Hin; set_solver. }
  pose proof (seg_unlink _ _ _ _ _ _ Hnd (proj1 Hr)) as Hu.
  assert (i ∉ bhead :: l1 ++ l2) as Hi1.
  { rewrite <- (Permutation_middle l1 l2 i), !NoDup_cons in Hnd. set_solver. }
  assert (nx (bufs s) i ∈ bhead :: l1 ++ l2 ∧ pv (bufs s) i ∈ bhead :: l1 ++ l2) as [Hni Hpi].
  { destruct Hr as [Hs _]. rewrite seg_app in Hs. destruct Hs as [Hs1 Hs2]. apply seg_prev_in in Hs1. apply seg_first in Hs2.
    rewrite Hs2. split; [|set_solver]. destruct l2; simpl; set_solver. }
  assert (∀ j, j ∈ bhead :: l1 ++ l2 → (j < S NBUF)%nat) as Hin' by set_solver.
  destruct (unlink_ptrs i (bufs s)) as [En _]; [rewrite Hlen; apply Hin; set_solver..|intros E; by rewrite E in Hni|].
  assert (nx (unlink i (bufs s)) bhead ∈ bhead :: l1 ++ l2) as Hnh.
  { rewrite En. apply seg_first in Hu. rewrite Hu. destruct (l1 ++ l2); simpl; set_solver. }
  assert (i ≠ bhead) as Hib by (intros ->; apply Hi1, elem_of_cons; by left).
  destruct (Hsome (bufs s) Hlen) as [[b Hb] _]. mstep (buf_get_run i b s Hb).
  rewrite (nx_get i b s Hb), (pv_get i b s Hb).
  erewrite (bind_run (buf_upd _ _)), prepend_nil by (apply buf_upd_alter; rewrite Hlen; by apply Hin').
  set (bs1 := alter _ _ _). assert (length bs1 = S NBUF) as Hl1 by (unfold bs1; by rewrite length_alter).
  destruct (Hsome bs1 Hl1) as [[b1 Hb1] _]. mstep (buf_get_run i b1 (set_bufs bs1 s) Hb1).
  rewrite (nx_get i b1 (set_bufs bs1 s) Hb1), (pv_get i b1 (set_bufs bs1 s) Hb1). cbn [bufs set_bufs].
  assert (pv bs1 i = pv (bufs s) i) as Ep.
  { unfold bs1. rewrite pv_alter_prev, fn_lookup_insert_ne; [done|intros E; by rewrite E in Hni|rewrite Hlen; by apply Hin']. }
  erewrite (bind_run (buf_upd _ _)), prepend_nil by (apply buf_upd_alter; simpl; rewrite Hl1, Ep; by apply Hin').
  rewrite set_bufs_twice. cbn [bufs set_bufs]. fold (unlink i (bufs s)).
  set (bs2 := unlink i (bufs s)) in *.
  assert (length bs2 = S NBUF) as Hl2 by (unfold bs2; by rewrite length_unlink).
  change (alter (set_bnext (nx bs1 i)) (pv bs1 i) bs1) with bs2.
  destruct (Hsome bs2 Hl2) as [_ [h Hh]]. mstep (buf_get_run bhead h (set_bufs bs2 s) Hh).
  rewrite (nx_get bhead h (set_bufs bs2 s) Hh). cbn [bufs set_bufs].
  erewrite (bind_run (buf_upd _ _)), prepend_nil by (apply buf_upd_alter; simpl; rewrite Hl2; apply Hin; set_solver).
  rewrite set_bufs_twice. cbn [bufs set_bufs].
  erewrite (bind_run (buf_upd _ _)), prepend_nil
    by (apply buf_upd_alter; simpl; rewrite length_alter, Hl2; apply Hin; set_solver).
  rewrite set_bufs_twice. cbn [bufs set_bufs].
  set (bs3 := alter (set_bprev bhead) i _).
  assert (length bs3 = S NBUF) as Hl3 by (unfold bs3; by rewrite !length_alter).
  destruct (Hsome bs3 Hl3) as [_ [h' Hh']]. mstep (buf_get_run bhead h' (set_bufs bs3 s) Hh').
  rewrite (nx_get bhead h' (set_bufs bs3 s) Hh'). cbn [bufs set_bufs].
  assert (nx bs3 bhead = nx bs2 bhead) as En3.
  { unfold bs3. rewrite nx_alter_prev, nx_alter_next, fn_lookup_insert_ne; [done|done|].
    rewrite Hl2. apply Hin. set_solver. }
  erewrite (bind_run (buf_upd _ _)), prepend_nil by (apply buf_upd_alter; simpl; rewrite Hl3, En3; by apply Hin').
  rewrite buf_upd_alter; [done|]. simpl. rewrite length_alter, Hl3. unfold bhead. lia.
Qed.

Lemma brelse_spec s a x i :
  brep s a → a_locked a !! x = Some i →
  (x ∈ a_dirty a ∨ a_data a !! Z.to_nat x = a_disk a !! Z.to_nat x) →
  ∃ s', brelse i s = Ret tt s' [EvWakeup (Some (CBufLock i))] ∧ brep s' (a_unlock x a) ∧ curpid s' = curpid s.
Proof.
  intros Hr Hx Hcl. destruct (brep_locked s a x i Hr Hx) as (b & Hb & Hi & Hu & Hbx & Hk1 & Hk2 & Hk3).
  pose proof Hr as [Hh Hlen [l Hring] Hc Hdk]. assert (i < length (bufs s))%nat by (by eapply lookup_lt_Some).
  set (b' := set_brefcnt 0 (set_block (SLock false false 0) b)).
  set (s2 := set_bufs (<[i := b']> (bufs s)) s).
  assert (ring (bufs s2) l) as Hring2 by (by eapply ring_insert).
  destruct (list_elem_of_split l i) as (l1 & l2 & ->); [by apply (ring_in _ _ _ Hring)|].
  assert (length (bufs s2) = S NBUF) as Hlen2 by (simpl; by rewrite length_insert).
  exists (set_bufs (push i (unlink i (bufs s2))) s). split_and!; [| |done].
  - unfold brelse. mstep (bholding_run i b s Hb Hk1). rewrite Hk2. cbn [negb panic_if]. rewrite bind_mret.
    rewrite (bind_run _ _ _ _ _ _ (on_block_run i _ b s _ _ _ Hb (releasesleep_run _ _ Hk1))).
    erewrite (bind_run (lk_acquire _ _)), prepend_nil by (by apply lk_acquire_run).
    erewrite (bind_run (buf_upd i _)), prepend_nil
      by (apply buf_upd_run; simpl; by apply list_lookup_insert_eq).
    cbn [bufs set_bufs set_bheld]. rewrite list_insert_insert_eq.
    replace (set_brefcnt (u32 (b_refcnt (set_block (SLock false false 0) b) - 1)) (set_block (SLock false false 0) b))
      with b' by (simpl; by rewrite Hk3).
    erewrite (bind_run (buf_get i)), prepend_nil
      by (apply buf_get_run; simpl; by apply list_lookup_insert_eq).
    rewrite bool_decide_true by done.
    erewrite bind_run; [|exact (move_front_run i (set_bheld true s2) l1 l2 Hlen2 Hring2)].
    rewrite lk_release_run by done. simpl. destruct s; simpl in *. by rewrite Hh.
  - split; simpl; try done.
    + unfold push. by rewrite !length_alter, length_unlink, length_insert.
    + eexists. apply front_ring; [done|]. exact Hring2.
    + eapply content_strip; [symmetry; apply front_strip|]. simpl. destruct Hu as [U1 U2 U3 U4 U5].
      eapply (content_update _ a _ i b b' x); try done; simpl.
      * split; simpl; [done..|]. right. split; simpl; try done. by rewrite Hbx, lookup_delete_eq.
      * split; simpl; try done. by rewrite Hbx, lookup_delete_eq.
      * by left.
      * apply a_unlock_agree.
      * intros Hnd _. by destruct Hcl.
      * intros j. by rewrite lookup_delete_eq.
      * apply (c_blocks _ _ Hc).
Qed.

(** ** The boot state *)

Definition buf_zero : buf := Buf 0 0 0 (SLock false false 0) 0 O O (replicate 512 0).
(** The cache in the zeroed data segment, over a disk. *)
Definition bss (disk : list (list Z)) (pid : Z) : bstate :=
  BState false (replicate (S NBUF) buf_zero) disk pid.

(** The list that [binit] builds. *)
Definition booted_bufs : list buf :=
  Eval vm_compute in
    match binit (bss [] 0) with Ret _ s _ => bufs s | _ => [] end.
Definition booted (disk : list (list Z)) (pid : Z) : bstate := BState false booted_bufs disk pid.

Lemma binit_run disk pid : binit (bss disk pid) = Ret tt (booted disk pid) [].
Proof. vm_compute. reflexivity. Qed.

Definition a_boot (disk : list (list Z)) : acache := ACache disk disk ∅ ∅.

Lemma booted_brep disk pid : Forall block_ok disk → brep (booted disk pid) (a_boot disk).
Proof.
  intros Hd. split; [done..| | |done].
  - exists (reverse (seq 0 NBUF)). split; [|by rewrite reverse_Permutation]. vm_compute. repeat split; reflexivity.
  - assert (Forall (λ b, sl_lk (b_lock b) = false ∧ sl_locked (b_lock b) = false ∧ b_refcnt b = 0 ∧
                         b_dev b = 0 ∧ b_flags b = 0) booted_bufs) as Hall.
    { vm_compute. repeat constructor. }
    rewrite Forall_lookup in Hall. split; simpl; try done.
    + intros i b Hi Hb. destruct (Hall i b Hb) as (H1 & H2 & H3 & H4 & H5). split; [done|by rewrite H2|].
      by left.
    + intros i j b b' Hi Hj Hb Hb' E. destruct (Hall i b Hb) as (_ & _ & _ & H4 & _). congruence.
Qed.


Lemma block_ok_replicate c : byte c → block_ok (replicate 512 c).
Proof. split; [apply length_replicate|by apply Forall_replicate]. Qed.

(** A disk of two blocks. *)
Definition tiny_disk : list (list Z) := [replicate 512 7; replicate 512 8].
Lemma tiny_disk_ok : Forall block_ok tiny_disk.
Proof. by repeat (apply Forall_cons; split; [by apply block_ok_replicate|]). Qed.

