(* ===== verification/Ide.v ===== *)
(** The disk driver (src/ide.c): the queue of requests, threaded through the
    buffers, and the commands given to the controller.

    The controller is hardware: it latches the registers written with [outb],
    carries a command out on its disks ([complete]) and then interrupts.  The
    theorem shows that the driver and the controller together serve the
    requests one by one in the order they were made, each as if the disk were
    read or written at once. *)
From S2P Require Import Prelude Layout Bytes Spinlock Bio.

Module Ide.

Definition SECTOR_SIZE : Z := 512.
Definition IDE_CMD_READ : Z := 32.
Definition IDE_CMD_WRITE : Z := 48.
Definition IDE_CMD_RDMUL : Z := 196.
Definition IDE_CMD_WRMUL : Z := 197.

(** The fields of [struct buf] that the driver uses. *)
Record ibuf := IBuf { ib_flags : Z; ib_dev : Z; ib_blockno : Z; ib_qnext : option nat; ib_data : list Z }.
Definition set_flags v b := IBuf v (ib_dev b) (ib_blockno b) (ib_qnext b) (ib_data b).
Definition set_qnext v b := IBuf (ib_flags b) (ib_dev b) (ib_blockno b) v (ib_data b).
Definition set_data v b := IBuf (ib_flags b) (ib_dev b) (ib_blockno b) (ib_qnext b) v.

(** The controller: its registers, the command it is carrying out, with the
    data of a write, whether that command fails, and the two disks. *)
Record command := Command { cm_drive : Z; cm_sector : Z; cm_cmd : Z; cm_data : list Z }.
Record controller := Controller {
  r_ctl : Z; r_count : Z; r_lba0 : Z; r_lba1 : Z; r_lba2 : Z; r_drive : Z;
  active : option command;
  failed : bool;
  disks : list (list (list Z))
}.
Definition set_active v c := Controller (r_ctl c) (r_count c) (r_lba0 c) (r_lba1 c) (r_lba2 c) (r_drive c) v (failed c) (disks c).
Definition set_disks v c := Controller (r_ctl c) (r_count c) (r_lba0 c) (r_lba1 c) (r_lba2 c) (r_drive c) (active c) (failed c) v.

(** The command in the registers: drive bit and 28-bit sector number. *)
Definition latch (cmd : Z) (c : controller) : command :=
  Command (Z.land (Z.shiftr (r_drive c) 4) 1)
    (r_lba0 c + 256 * r_lba1 c + 65536 * r_lba2 c + 16777216 * Z.land (r_drive c) 15) cmd [].

Record idestate := IdeState {
  id_held : bool;                 (* idelock *)
  idequeue : option nat;
  id_bufs : list ibuf;
  havedisk1 : bool;
  id_ctl : controller
}.
Definition set_held v s := IdeState v (idequeue s) (id_bufs s) (havedisk1 s) (id_ctl s).
Definition set_queue v s := IdeState (id_held s) v (id_bufs s) (havedisk1 s) (id_ctl s).
Definition set_bufs v s := IdeState (id_held s) (idequeue s) v (havedisk1 s) (id_ctl s).
Definition set_ctl v s := IdeState (id_held s) (idequeue s) (id_bufs s) (havedisk1 s) v.

Definition buf_get (i : nat) : M idestate ibuf := s ← get; deref (id_bufs s !! i).
Definition buf_upd (i : nat) (f : ibuf → ibuf) : M idestate unit :=
  b ← buf_get i; modify (λ s, set_bufs (<[i := f b]> (id_bufs s)) s).

(** ** Input and output *)

Definition port_write (port v : Z) (c : controller) : controller :=
  let v := u8 v in
  if bool_decide (port = 1014) then Controller v (r_count c) (r_lba0 c) (r_lba1 c) (r_lba2 c) (r_drive c) (active c) (failed c) (disks c)
  else if bool_decide (port = 498) then Controller (r_ctl c) v (r_lba0 c) (r_lba1 c) (r_lba2 c) (r_drive c) (active c) (failed c) (disks c)
  else if bool_decide (port = 499) then Controller (r_ctl c) (r_count c) v (r_lba1 c) (r_lba2 c) (r_drive c) (active c) (failed c) (disks c)
  else if bool_decide (port = 500) then Controller (r_ctl c) (r_count c) (r_lba0 c) v (r_lba2 c) (r_drive c) (active c) (failed c) (disks c)
  else if bool_decide (port = 501) then Controller (r_ctl c) (r_count c) (r_lba0 c) (r_lba1 c) v (r_drive c) (active c) (failed c) (disks c)
  else if bool_decide (port = 502) then Controller (r_ctl c) (r_count c) (r_lba0 c) (r_lba1 c) (r_lba2 c) v (active c) (failed c) (disks c)
  else if bool_decide (port = 503) then set_active (Some (latch v c)) c
  else c.
Definition outb (port v : Z) : M idestate unit := modify (λ s, set_ctl (port_write port v (id_ctl s)) s).
(** [outsl(0x1f0, addr, cnt)]: the data of the write command. *)
Definition outsl (data : list Z) : M idestate unit :=
  modify (λ s, set_ctl (set_active ((λ c, Command (cm_drive c) (cm_sector c) (cm_cmd c) data) <$> active (id_ctl s)) (id_ctl s)) s).
(** The block on a drive. *)
Definition sector (ds : list (list (list Z))) (drive n : Z) : option (list Z) := ds !! Z.to_nat drive ≫= λ d, d !! Z.to_nat n.
Definition set_sector (drive n : Z) (data : list Z) (ds : list (list (list Z))) : list (list (list Z)) :=
  alter (λ d, <[Z.to_nat n := data]> d) (Z.to_nat drive) ds.
(** [insl(0x1f0, addr, cnt)]: the block that the command read, after which the
    controller is idle. *)
Definition insl : M idestate (list Z) :=
  s ← get;
  c ← deref (active (id_ctl s));
  d ← deref (sector (disks (id_ctl s)) (cm_drive c) (cm_sector c));
  modify (λ s, set_ctl (set_active None (id_ctl s)) s);;
  mret d.
(** [idewait], once the controller is ready: its error bits. *)
Definition idewait (checkerr : bool) : M idestate Z := s ← get; mret (if checkerr && failed (id_ctl s) then -1 else 0).

(** The controller carries out its command: it is idle after a write, and has
    the block ready after a read. *)
Definition complete (s : idestate) : idestate :=
  match active (id_ctl s) with
  | Some c =>
      if bool_decide (cm_cmd c = IDE_CMD_WRITE) then
        let ds := disks (id_ctl s) in
        set_ctl (set_active None (set_disks (if failed (id_ctl s) then ds else set_sector (cm_drive c) (cm_sector c) (cm_data c) ds) (id_ctl s))) s
      else s
  | None => s
  end.

(** ** The driver *)

Definition idestart (b : option nat) : M idestate unit :=
  match b with
  | None => panic "idestart"
  | Some i =>
      b ← buf_get i;
      panic_if (bool_decide (FSSIZE ≤ ib_blockno b)) "incorrect blockno";;
      let sector_per_block := BSIZE / SECTOR_SIZE in
      let sector := ib_blockno b * sector_per_block in
      let read_cmd := if bool_decide (sector_per_block = 1) then IDE_CMD_READ else IDE_CMD_RDMUL in
      let write_cmd := if bool_decide (sector_per_block = 1) then IDE_CMD_WRITE else IDE_CMD_WRMUL in
      panic_if (bool_decide (sector_per_block > 7)) "idestart";;
      idewait false;;
      outb 1014 0;;
      outb 498 sector_per_block;;
      outb 499 (Z.land sector 255);;
      outb 500 (Z.land (Z.shiftr sector 8) 255);;
      outb 501 (Z.land (Z.shiftr sector 16) 255);;
      outb 502 (Z.lor (Z.lor 224 (Z.shiftl (Z.land (ib_dev b) 1) 4)) (Z.land (Z.shiftr sector 24) 15));;
      if bool_decide (Z.land (ib_flags b) B_DIRTY ≠ 0) then outb 503 write_cmd;; outsl (ib_data b)
      else outb 503 read_cmd
  end.

Definition ide_acquire : M idestate unit := lk_acquire id_held set_held.
Definition ide_release : M idestate unit := lk_release id_held set_held.

Definition ideintr : M idestate unit :=
  ide_acquire;;
  s ← get;
  match idequeue s with
  | None => ide_release
  | Some i =>
      b ← buf_get i;
      modify (set_queue (ib_qnext b));;
      (if bool_decide (Z.land (ib_flags b) B_DIRTY ≠ 0) then mret tt
       else
         r ← idewait true;
         if bool_decide (0 ≤ r) then d ← insl; buf_upd i (set_data d) else mret tt);;
      buf_upd i (λ b, set_flags (Z.lor (ib_flags b) B_VALID) b);;
      buf_upd i (λ b, set_flags (Z.land (ib_flags b) (Z.lnot B_DIRTY)) b);;
      announce (CBuf i);;
      s ← get;
      (match idequeue s with None => mret tt | q => idestart q end);;
      ide_release
  end.

(** [for(pp=&idequeue; *pp; pp=&( *pp)->qnext); *pp = b;] from the buffer [j]
    on. *)
Fixpoint append_at (fuel : nat) (j : nat) (b : nat) : M idestate unit :=
  match fuel with
  | O => undef
  | S fuel' =>
      x ← buf_get j;
      match ib_qnext x with
      | Some k => append_at fuel' k b
      | None => buf_upd j (set_qnext (Some b))
      end
  end.
(** [ideinit], for the values that [inb(0x1f7)] gives while drive 1 is
    selected: disk 1 is there when one of the first thousand is not 0. *)
Definition ideinit (inb : nat → Z) : M idestate unit :=
  modify (set_held false);;
  idewait false;;
  outb 502 (Z.lor 224 (Z.shiftl 1 4));;
  modify (λ s, IdeState (id_held s) (idequeue s) (id_bufs s) (havedisk1 s || existsb (λ i, bool_decide (inb i ≠ 0)) (seq 0 1000)) (id_ctl s));;
  outb 502 (Z.lor 224 (Z.shiftl 0 4)).

(** [iderw] up to its wait, for a buffer whose lock the process holds. *)
Definition iderw_start (i : nat) : M idestate unit :=
  b ← buf_get i;
  panic_if (bool_decide (Z.land (ib_flags b) (Z.lor B_VALID B_DIRTY) = B_VALID)) "iderw: nothing to do";;
  s ← get;
  panic_if (bool_decide (ib_dev b ≠ 0) && negb (havedisk1 s)) "iderw: ide disk 1 not present";;
  ide_acquire;;
  buf_upd i (set_qnext None);;
  s ← get;
  (match idequeue s with
   | None => modify (set_queue (Some i))
   | Some j => append_at (S (length (id_bufs s))) j i
   end);;
  s ← get;
  if bool_decide (idequeue s = Some i) then idestart (Some i) else mret tt.
(** One test of the loop that waits, with [idelock] held: the process sleeps
    on the buffer, or is done. *)
Definition iderw_wait (i : nat) : M idestate unit :=
  b ← buf_get i;
  if bool_decide (Z.land (ib_flags b) (Z.lor B_VALID B_DIRTY) ≠ B_VALID) then ide_release;; block (CBuf i)
  else ide_release.

(** * The queue *)

(** The list that starts at [o] has the buffers [q]. *)
Fixpoint linked (bs : list ibuf) (o : option nat) (q : list nat) : Prop :=
  match q with
  | [] => o = None
  | i :: q' => o = Some i ∧ ∃ b, bs !! i = Some b ∧ linked bs (ib_qnext b) q'
  end.

Lemma linked_other bs o q i b : i ∉ q → linked bs o q → linked (<[i := b]> bs) o q.
Proof.
  revert o. induction q as [|j q IH]; intros o Hi H; [done|]. apply not_elem_of_cons in Hi as [Hij Hi]. destruct H as (-> & x & Hx & H).
  split; [done|]. exists x. split; [by rewrite list_lookup_insert_ne|by apply IH].
Qed.
Lemma linked_in bs o q i : linked bs o q → i ∈ q → ∃ b, bs !! i = Some b.
Proof.
  revert o. induction q as [|j q IH]; intros o H Hi; [by apply not_elem_of_nil in Hi|]. destruct H as (-> & x & Hx & H).
  apply elem_of_cons in Hi as [->|Hi]; [by exists x|by eapply IH].
Qed.
Lemma linked_length bs o q : linked bs o q → NoDup q → (length q ≤ length bs)%nat.
Proof.
  intros H Hn. rewrite <- (length_seq (length bs) 0). apply submseteq_length, NoDup_submseteq; [done|].
  intros i Hi. destruct (linked_in _ _ _ _ H Hi) as [b Hb%lookup_lt_Some]. apply elem_of_seq. lia.
Qed.

Lemma ibuf_get_run s i b : id_bufs s !! i = Some b → buf_get i s = Ret b s [].
Proof. intros H. unfold buf_get. rewrite bind_get. by rewrite H. Qed.
Lemma ibuf_upd_run s i b f : id_bufs s !! i = Some b → buf_upd i f s = Ret tt (set_bufs (<[i := f b]> (id_bufs s)) s) [].
Proof. intros H. unfold buf_upd. by mstep (ibuf_get_run s i b H). Qed.

(** The last buffer of the queue gets the successor [i]. *)
Lemma append_at_run fuel j q i s :
  linked (id_bufs s) (Some j) q → (length q ≤ fuel)%nat → NoDup q →
  ∃ l b, l ∈ q ∧ id_bufs s !! l = Some b ∧
    append_at fuel j i s = Ret tt (set_bufs (<[l := set_qnext (Some i) b]> (id_bufs s)) s) [] ∧
    (∀ bi, i ∉ q → id_bufs s !! i = Some bi → ib_qnext bi = None → linked (<[l := set_qnext (Some i) b]> (id_bufs s)) (Some j) (q ++ [i])).
Proof.
  revert j q. induction fuel as [|fuel IH]; intros j q H Hf Hn; destruct q as [|k q]; simpl in Hf; try lia; [done|done|].
  destruct H as ([= ->] & x & Hx & H). apply NoDup_cons in Hn as [Hk Hn]. cbn [append_at]. mstep (ibuf_get_run s k x Hx).
  destruct (ib_qnext x) as [j'|] eqn:Ej.
  - destruct (IH j' q H ltac:(lia) Hn) as (l & b & Hl & Hb & R & Hlk). exists l, b. split_and!; [by constructor|done|done|].
    intros bi Hi Hbi Hbn. apply not_elem_of_cons in Hi as [_ Hi]. split; [done|]. exists x.
    split; [rewrite list_lookup_insert_ne; [done|set_solver]|]. rewrite Ej. by eapply Hlk.
  - exists k, x. assert (q = []) as -> by (destruct q; [done|by destruct H]). split_and!; [by constructor|done| |].
    + by apply ibuf_upd_run.
    + intros bi Hi Hbi Hbn. split; [done|]. exists (set_qnext (Some i) x). split; [apply list_lookup_insert_eq; by eapply lookup_lt_Some|].
      split; [done|]. exists bi. split; [|done]. rewrite list_lookup_insert_ne; [done|set_solver].
Qed.

(** * Requests *)

Definition dirty (b : ibuf) : bool := bool_decide (Z.land (ib_flags b) B_DIRTY ≠ 0).
(** A request the driver can serve. *)
Definition pending (b : ibuf) : Prop :=
  Z.land (ib_flags b) (Z.lor B_VALID B_DIRTY) ≠ B_VALID ∧ 0 ≤ ib_blockno b < FSSIZE ∧ (ib_dev b = 0 ∨ ib_dev b = 1).
(** The command for it. *)
Definition command_of (b : ibuf) : command :=
  if dirty b then Command (ib_dev b) (ib_blockno b) IDE_CMD_WRITE (ib_data b) else Command (ib_dev b) (ib_blockno b) IDE_CMD_READ [].
(** The request served at once: the buffer and the disks after it. *)
Definition done_flags (f : Z) : Z := Z.land (Z.lor f B_VALID) (Z.lnot B_DIRTY).
Definition serve (b : ibuf) (ds : list (list (list Z))) : option (ibuf * list (list (list Z))) :=
  if dirty b then Some (set_flags (done_flags (ib_flags b)) b, set_sector (ib_dev b) (ib_blockno b) (ib_data b) ds)
  else (λ d, (set_flags (done_flags (ib_flags b)) (set_data d b), ds)) <$> sector ds (ib_dev b) (ib_blockno b).
(** A buffer without its link. *)
Definition plain (b : ibuf) : ibuf := set_qnext None b.

Record ide_inv (s : idestate) (q : list nat) : Prop := IdeInv {
  iv_held : id_held s = false;
  iv_linked : linked (id_bufs s) (idequeue s) q;
  iv_nodup : NoDup q;
  iv_pending i b : i ∈ q → id_bufs s !! i = Some b → pending b;
  iv_active : active (id_ctl s) = (i ← head q; b ← id_bufs s !! i; Some (command_of b));
  iv_failed : failed (id_ctl s) = false;
  iv_disks d : d = 0 ∨ d = 1 → ∃ l, disks (id_ctl s) !! Z.to_nat d = Some l ∧ Z.of_nat (length l) = FSSIZE
}.

Lemma latch_block n dev c cmd :
  0 ≤ n < FSSIZE → dev = 0 ∨ dev = 1 →
  r_lba0 c = u8 (Z.land n 255) → r_lba1 c = u8 (Z.land (Z.shiftr n 8) 255) → r_lba2 c = u8 (Z.land (Z.shiftr n 16) 255) →
  r_drive c = u8 (Z.lor (Z.lor 224 (Z.shiftl (Z.land dev 1) 4)) (Z.land (Z.shiftr n 24) 15)) → latch cmd c = Command dev n cmd [].
Proof.
  unfold FSSIZE. intros Hn Hd H0 H1 H2 Hr. unfold latch.
  assert (Z.shiftr n 16 = 0 ∧ Z.shiftr n 24 = 0) as [E1 E2].
  { rewrite !Z.shiftr_div_pow2 by lia. split; apply Z.div_small; lia. }
  rewrite E2 in Hr. rewrite E1 in H2. rewrite H0, H1, H2, Hr, !land_255. rewrite (Z.shiftr_div_pow2 n 8) by lia. change (2 ^ 8) with 256.
  change (u8 (u8 0)) with 0. f_equal.
  - by destruct Hd as [-> | ->].
  - assert (Z.land (u8 (Z.lor (Z.lor 224 (Z.shiftl (Z.land dev 1) 4)) (Z.land 0 15))) 15 = 0) as -> by (by destruct Hd as [-> | ->]).
    unfold u8. Z.div_mod_to_equations. lia.
Qed.

(** [idestart] gives the controller the buffer's command. *)
Lemma idestart_run s i b :
  id_bufs s !! i = Some b → pending b →
  ∃ c, idestart (Some i) s = Ret tt (set_ctl c s) [] ∧ active c = Some (command_of b) ∧
    failed c = failed (id_ctl s) ∧ disks c = disks (id_ctl s).
Proof.
  intros Hb (_ & Hn & Hd). unfold idestart. mstep (ibuf_get_run s i b Hb). rewrite (bool_decide_false (FSSIZE ≤ ib_blockno b)) by lia. cbn [panic_if].
  rewrite bind_mret. change (BSIZE / SECTOR_SIZE) with 1. rewrite (bool_decide_true (1 = 1)), (bool_decide_false (1 > 7)) by lia.
  cbn [panic_if]. rewrite bind_mret, Z.mul_1_r. mstep (eq_refl : idewait false s = Ret 0 s []). unfold outb, outsl. rewrite !bind_modify.
  unfold command_of, dirty. destruct (bool_decide (Z.land (ib_flags b) B_DIRTY ≠ 0)).
  - eexists. split_and!; [rewrite bind_modify; reflexivity| |done|done]. cbn [active set_active id_ctl set_ctl]. unfold port_write at 1. cbn [active set_active].
    rewrite (latch_block (ib_blockno b) (ib_dev b)) by done. done.
  - eexists. split_and!; [reflexivity| |done|done]. unfold port_write at 1. cbn [active set_active].
    rewrite (latch_block (ib_blockno b) (ib_dev b)) by done. done.
Qed.

(** ** Buffers up to their links *)

Lemma plain_lookup (bs bs' : list ibuf) (i : nat) b' : plain <$> bs' = plain <$> bs → bs' !! i = Some b' → ∃ b, bs !! i = Some b ∧ plain b' = plain b.
Proof.
  intros E H. assert ((plain <$> bs') !! i = Some (plain b')) as Hl by (by rewrite list_lookup_fmap, H).
  rewrite E, list_lookup_fmap in Hl. destruct (bs !! i) as [b|]; [|done]. apply (inj Some) in Hl. by exists b.
Qed.
Lemma plain_fields b b' : plain b = plain b' → ib_flags b = ib_flags b' ∧ ib_dev b = ib_dev b' ∧ ib_blockno b = ib_blockno b' ∧ ib_data b = ib_data b'.
Proof. destruct b, b'. unfold plain, set_qnext. simpl. naive_solver. Qed.
Lemma plain_pending b b' : plain b = plain b' → pending b → pending b'.
Proof. intros (E1 & E2 & E3 & _)%plain_fields. unfold pending. by rewrite E1, E2, E3. Qed.
Lemma plain_command b b' : plain b = plain b' → command_of b = command_of b'.
Proof. intros (E1 & E2 & E3 & E4)%plain_fields. unfold command_of, dirty. by rewrite E1, E2, E3, E4. Qed.
Lemma plain_link (bs : list ibuf) (i : nat) b o : bs !! i = Some b → plain <$> <[i := set_qnext o b]> bs = plain <$> bs.
Proof. intros H. rewrite list_fmap_insert. apply list_insert_id. by rewrite list_lookup_fmap, H. Qed.

(** ** Making a request *)

(** The buffer is queued, and the disk started if it was idle. *)
Lemma iderw_start_run s q i b :
  ide_inv s q → id_bufs s !! i = Some b → i ∉ q → pending b → ib_dev b = 0 ∨ havedisk1 s = true →
  ∃ s', iderw_start i s = Ret tt s' [] ∧ id_held s' = true ∧ ide_inv (set_held false s') (q ++ [i]) ∧
    disks (id_ctl s') = disks (id_ctl s) ∧ plain <$> id_bufs s' = plain <$> id_bufs s.
Proof.
  intros [H1 H2 H3 H4 H5 H6 H7] Hb Hi Hp Hd. pose proof Hp as (Hp1 & _). unfold iderw_start. mstep (ibuf_get_run s i b Hb).
  rewrite (bool_decide_false (_ = B_VALID)) by done. cbn [panic_if]. rewrite bind_mret, bind_get.
  assert (bool_decide (ib_dev b ≠ 0) && negb (havedisk1 s) = false) as ->.
  { destruct Hd as [-> | ->]; [by rewrite bool_decide_false by congruence|apply andb_false_r]. }
  cbn [panic_if]. rewrite bind_mret. unfold ide_acquire. mstep (lk_acquire_run id_held set_held s H1). set (s1 := set_held true s).
  mstep (ibuf_upd_run s1 i b (set_qnext None) Hb). set (s2 := set_bufs _ s1). rewrite bind_get.
  assert (id_bufs s2 !! i = Some (set_qnext None b)) as Hb2 by (apply list_lookup_insert_eq; by eapply lookup_lt_Some).
  assert (linked (id_bufs s2) (idequeue s2) q) as Hl2 by (by apply linked_other).
  assert (plain <$> id_bufs s2 = plain <$> id_bufs s) as Hpl2 by (by apply plain_link).
  destruct (idequeue s2) as [j|] eqn:Ej.
  - assert (∃ q', q = j :: q') as [q' Eq] by (destruct q as [|k q']; [done|]; destruct Hl2 as ([= ->] & _); eauto).
    destruct (append_at_run (S (length (id_bufs s2))) j q i s2 Hl2) as (l & bl & Hl & Hbl & R & Hlk);
      [pose proof (linked_length _ _ _ Hl2 H3); lia|done|].
    mstep R. set (s3 := set_bufs _ s2). rewrite bind_get. rewrite bool_decide_false.
    2: { change (idequeue s3) with (idequeue s2). rewrite Ej. intros [= ->]. rewrite Eq in Hi. set_solver. }
    assert (plain <$> id_bufs s3 = plain <$> id_bufs s) as Hpl3 by (rewrite <- Hpl2; by apply plain_link).
    exists s3. split_and!; try done. split; try done.
    + change (idequeue (set_held false s3)) with (idequeue s2). rewrite Ej. by apply (Hlk (set_qnext None b)).
    + apply NoDup_app. split_and!; [done| |apply NoDup_singleton]. intros x Hx ->%list_elem_of_singleton. done.
    + intros k bk Hk Hbk. destruct (plain_lookup _ _ _ _ Hpl3 Hbk) as (b0 & Hb0 & Eb). eapply plain_pending; [symmetry; exact Eb|].
      apply elem_of_app in Hk as [Hk| ->%list_elem_of_singleton]; [by eapply H4|]. rewrite Hb in Hb0. by injection Hb0 as <-.
    + change (id_ctl (set_held false s3)) with (id_ctl s). rewrite H5, Eq. cbn [head app mbind option_bind id_bufs set_held].
      destruct (id_bufs s3 !! j) as [bj|] eqn:Ebj.
      * destruct (plain_lookup _ _ _ _ Hpl3 Ebj) as (b0 & -> & Eb). simpl. f_equal. symmetry. by apply plain_command.
      * destruct (id_bufs s !! j) eqn:E; [|done]. apply lookup_ge_None in Ebj. apply lookup_lt_Some in E.
        apply (f_equal length) in Hpl3. rewrite !length_fmap in Hpl3. lia.
  - assert (q = []) as -> by (destruct q as [|k q']; [done|by destruct Hl2]). rewrite bind_modify, bind_get. cbn [idequeue set_queue].
    rewrite bool_decide_true by done. destruct (idestart_run (set_queue (Some i) s2) i (set_qnext None b) Hb2) as (c & R & Ha & Hf & Hdk); [done|].
    exists (set_ctl c (set_queue (Some i) s2)). split_and!; try done. split; try done.
    + split; [done|]. by exists (set_qnext None b).
    + apply NoDup_singleton.
    + intros k bk ->%list_elem_of_singleton. cbn [id_bufs set_held set_ctl set_queue]. rewrite Hb2. by intros [= <-].
    + cbn [id_ctl set_held set_ctl active head mbind option_bind id_bufs set_queue app]. rewrite Ha, Hb2. done.
    + simpl. by rewrite Hf.
    + simpl. by rewrite Hdk.
Qed.

(** ** Serving the first request *)

(** The end of [ideintr], after the transfer. *)
Definition finish (i : nat) : M idestate unit :=
  buf_upd i (λ b, set_flags (Z.lor (ib_flags b) B_VALID) b);;
  buf_upd i (λ b, set_flags (Z.land (ib_flags b) (Z.lnot B_DIRTY)) b);;
  announce (CBuf i);;
  s ← get;
  (match idequeue s with None => mret tt | q => idestart q end);;
  ide_release.

Lemma finish_run s i b q :
  ide_inv (set_held false (set_ctl (set_active (i ← head q; b ← id_bufs s !! i; Some (command_of b)) (id_ctl s)) s)) q →
  id_held s = true → active (id_ctl s) = None → id_bufs s !! i = Some b → i ∉ q →
  ∃ s', finish i s = Ret tt s' [EvWakeup (Some (CBuf i))] ∧ ide_inv s' q ∧ disks (id_ctl s') = disks (id_ctl s) ∧
    id_bufs s' = <[i := set_flags (done_flags (ib_flags b)) b]> (id_bufs s).
Proof.
  intros [_ H2 H3 H4 _ H6 H7] Hh Ha Hb Hi. cbn [id_bufs idequeue id_ctl set_held set_ctl failed disks set_active] in *.
  unfold finish. pose proof (lookup_lt_Some _ _ _ Hb) as Hlt. mstep (ibuf_upd_run s i b (λ b, set_flags (Z.lor (ib_flags b) B_VALID) b) Hb).
  set (b1 := set_flags (Z.lor (ib_flags b) B_VALID) b). set (s1 := set_bufs _ s).
  assert (id_bufs s1 !! i = Some b1) as Hb1 by (by apply list_lookup_insert_eq).
  mstep (ibuf_upd_run s1 i b1 (λ b, set_flags (Z.land (ib_flags b) (Z.lnot B_DIRTY)) b) Hb1). set (s2 := set_bufs _ s1).
  assert (id_bufs s2 = <[i := set_flags (done_flags (ib_flags b)) b]> (id_bufs s)) as Eb2.
  { unfold s2, s1. cbn [id_bufs set_bufs]. rewrite list_insert_insert_eq. done. }
  rewrite (bind_run _ _ s2 tt s2 [EvWakeup (Some (CBuf i))]) by done. rewrite bind_get.
  assert (linked (id_bufs s2) (idequeue s2) q) as Hl2 by (rewrite Eb2; by apply linked_other).
  assert (∀ j, j ∈ q → id_bufs s2 !! j = id_bufs s !! j) as Hq by (intros j Hj; rewrite Eb2; apply list_lookup_insert_ne; set_solver).
  assert (∀ j bj, j ∈ q → id_bufs s2 !! j = Some bj → pending bj) as Hp2 by (intros j bj Hj; rewrite Hq by done; by apply H4).
  destruct q as [|j q].
  - cbn [linked] in Hl2. rewrite Hl2, bind_mret. unfold ide_release. rewrite lk_release_run by done. eexists. split_and!; [done| |done|done].
    by split.
  - destruct Hl2 as (Ej & bj & Hbj & Hl2). rewrite Ej. destruct (idestart_run s2 j bj Hbj) as (c & R & Hac & Hf & Hd); [apply (Hp2 j); [by constructor|done]|].
    mstep R. unfold ide_release. rewrite lk_release_run by done. eexists. split_and!; [done| | |done].
    + split; cbn [id_held set_held id_bufs set_ctl idequeue id_ctl]; try done.
      * split; [done|]. by exists bj.
      * rewrite Hac. cbn [head mbind option_bind]. by rewrite Hbj.
      * by rewrite Hf.
      * by rewrite Hd.
    + exact Hd.
Qed.

(** The transfer: the disks as after the request, the controller idle. *)
Definition transfer (i : nat) (b : ibuf) : M idestate unit :=
  if dirty b then mret tt
  else
    r ← idewait true;
    if bool_decide (0 ≤ r) then d ← insl; buf_upd i (set_data d) else mret tt.

Lemma transfer_run s i b :
  id_bufs s !! i = Some b → pending b → active (id_ctl s) = Some (command_of b) → failed (id_ctl s) = false →
  (∀ d, d = 0 ∨ d = 1 → ∃ l, disks (id_ctl s) !! Z.to_nat d = Some l ∧ Z.of_nat (length l) = FSSIZE) →
  ∃ b' ds' c', let s1 := set_queue (ib_qnext b) (set_held true (complete s)) in
    transfer i b s1 = Ret tt (set_ctl c' (set_bufs (<[i := b']> (id_bufs s)) s1)) [] ∧
    serve b (disks (id_ctl s)) = Some (set_flags (done_flags (ib_flags b')) b', ds') ∧
    active c' = None ∧ failed c' = false ∧ disks c' = ds' ∧
    (∀ d, d = 0 ∨ d = 1 → ∃ l, ds' !! Z.to_nat d = Some l ∧ Z.of_nat (length l) = FSSIZE).
Proof.
  intros Hb (_ & Hn & Hd) Ha Hf Hds. unfold complete, transfer, serve. rewrite Ha. unfold command_of. destruct (dirty b) eqn:Ed.
  - rewrite bool_decide_true by done. rewrite Hf. eexists b, _, _. split_and!; [|done|..].
    + rewrite list_insert_id by done. reflexivity.
    + done.
    + done.
    + done.
    + intros d Hd'. cbn [cm_drive cm_sector cm_data]. destruct (Hds d Hd') as (l & Hl & Hll). unfold set_sector.
      destruct (decide (Z.to_nat d = Z.to_nat (ib_dev b))) as [<-|Hne].
      * rewrite list_lookup_alter_eq, Hl. eexists. split; [reflexivity|]. by rewrite length_insert.
      * rewrite list_lookup_alter_ne by done. by exists l.
  - rewrite bool_decide_false by done. destruct (Hds _ Hd) as (l & Hl & Hll).
    destruct (lookup_lt_is_Some_2 l (Z.to_nat (ib_blockno b))) as [x Hx]; [lia|].
    assert (sector (disks (id_ctl s)) (ib_dev b) (ib_blockno b) = Some x) as Hs by (unfold sector; by rewrite Hl).
    set (s1 := set_queue _ _). assert (idewait true s1 = Ret 0 s1 []) as R by (unfold idewait; rewrite bind_get; cbn; by rewrite Hf).
    rewrite Hs. cbn [fmap option_fmap option_map]. eexists (set_data x b), _, (set_active None (id_ctl s)). split_and!; try done.
    mstep R. rewrite bool_decide_true by done.
    assert (insl s1 = Ret x (set_ctl (set_active None (id_ctl s)) s1) []) as R2.
    { unfold insl. rewrite bind_get. cbn [id_ctl s1 set_queue set_held]. rewrite Ha. unfold command_of. rewrite Ed. cbn [deref].
      rewrite bind_mret. cbn [cm_drive cm_sector]. rewrite Hs. cbn [deref]. by rewrite bind_mret, bind_modify. }
    mstep R2. by rewrite (ibuf_upd_run _ i b).
Qed.

Lemma ideintr_unfold i b s :
  id_held s = false → idequeue s = Some i → id_bufs s !! i = Some b →
  ideintr s = (transfer i b;; finish i) (set_queue (ib_qnext b) (set_held true s)).
Proof.
  intros Hh Hq Hb. unfold ideintr, ide_acquire. mstep (lk_acquire_run id_held set_held s Hh). rewrite bind_get. cbn [idequeue set_held]. rewrite Hq.
  mstep (ibuf_get_run (set_held true s) i b Hb). rewrite bind_modify. done.
Qed.

Lemma complete_fields s : id_held (complete s) = id_held s ∧ idequeue (complete s) = idequeue s ∧ id_bufs (complete s) = id_bufs s.
Proof. unfold complete. destruct (active (id_ctl s)); [|done]. by case_bool_decide. Qed.

Lemma ideintr_run s i q :
  ide_inv s (i :: q) →
  ∃ b b' ds' s', id_bufs s !! i = Some b ∧ serve b (disks (id_ctl s)) = Some (b', ds') ∧
    ideintr (complete s) = Ret tt s' [EvWakeup (Some (CBuf i))] ∧ ide_inv s' q ∧
    disks (id_ctl s') = ds' ∧ id_bufs s' = <[i := b']> (id_bufs s).
Proof.
  intros [H1 (H2 & b & Hb & Hl) [Hi H3]%NoDup_cons H4 H5 H6 H7]. destruct (complete_fields s) as (C1 & C2 & C3).
  cbn [head mbind option_bind] in H5. rewrite Hb in H5. cbn [mbind option_bind] in H5.
  destruct (transfer_run s i b Hb) as (x & ds' & c' & R & Hs & Ha & Hf & Hd & Hds); [apply (H4 i b); [by constructor|done]|done|done|done|].
  rewrite (ideintr_unfold i b) by congruence. mstep R. set (s3 := set_ctl c' _).
  assert (∀ j, j ∈ q → id_bufs s3 !! j = id_bufs s !! j) as Hq by (intros j Hj; apply list_lookup_insert_ne; set_solver).
  destruct (finish_run s3 i x q) as (s' & R' & Hinv & Hd' & Hb'); try done.
  - split; cbn [id_held set_held id_bufs set_ctl idequeue id_ctl active set_active failed disks]; try done.
    + by apply linked_other.
    + intros j bj Hj. change (id_bufs s3 !! j = Some bj → pending bj). rewrite Hq by done. apply H4. by constructor.
    + change (disks (id_ctl s3)) with (disks c'). by rewrite Hd.
  - apply list_lookup_insert_eq. by eapply lookup_lt_Some.
  - exists b, (set_flags (done_flags (ib_flags x)) x), ds', s'. split_and!; try done; [by rewrite Hd'|]. rewrite Hb'. unfold s3. cbn [id_bufs set_ctl set_bufs].
    by rewrite list_insert_insert_eq.
Qed.

Lemma iderw_wait_run s i b :
  id_bufs s !! i = Some b → id_held s = true →
  iderw_wait i s = if bool_decide (Z.land (ib_flags b) (Z.lor B_VALID B_DIRTY) = B_VALID) then Ret tt (set_held false s) [] else Blocked (CBuf i) (set_held false s) [].
Proof.
  intros Hb Hh. unfold iderw_wait, ide_release. mstep (ibuf_get_run s i b Hb). destruct (decide (Z.land (ib_flags b) (Z.lor B_VALID B_DIRTY) = B_VALID)) as [E|E].
  - rewrite (bool_decide_false (_ ≠ _)), (bool_decide_true (_ = _)) by tauto. by apply lk_release_run.
  - rewrite (bool_decide_true (_ ≠ _)), (bool_decide_false (_ = _)) by tauto. mstep (lk_release_run id_held set_held s Hh). done.
Qed.

Lemma served_done b ds b' ds' : serve b ds = Some (b', ds') → Z.land (ib_flags b') (Z.lor B_VALID B_DIRTY) = B_VALID.
Proof.
  assert (∀ f, Z.land (done_flags f) (Z.lor B_VALID B_DIRTY) = B_VALID) as Hf.
  { intros f. unfold done_flags, B_VALID, B_DIRTY. apply Z.bits_inj'. intros k Hk. rewrite !Z.land_spec, Z.lor_spec, Z.lnot_spec by done.
    destruct (decide (k < 3)) as [Hlt|]; [|].
    - assert (k = 0 ∨ k = 1 ∨ k = 2) as [-> | [-> | ->]] by lia; by rewrite ?andb_false_r, ?orb_true_r, ?andb_false_r.
    - assert (∀ c, 0 < c < 8 → Z.testbit c k = false) as Hc.
      { intros c Hc. apply Z.bits_above_log2; [lia|]. apply (Z.lt_le_trans _ 3); [|lia]. apply Z.log2_lt_pow2; lia. }
      rewrite (Hc (Z.lor 2 4)), (Hc 2) by done. by rewrite andb_false_r. }
  unfold serve. destruct (dirty b); [intros [= <- _]; apply Hf|]. destruct (sector _ _ _); [|done]. intros [= <- _]. apply Hf.
Qed.
Lemma ideintr_idle s : ide_inv s [] → ideintr s = Ret tt s [].
Proof.
  intros [H1 H2 _ _ _ _ _]. cbn [linked] in H2. unfold ideintr, ide_acquire, ide_release. mstep (lk_acquire_run id_held set_held s H1). rewrite bind_get.
  cbn [idequeue set_held]. rewrite H2, lk_release_run by done. destruct s; simpl in *. by subst.
Qed.


(** A write of block 3 under way, a read of block 3 not yet made. *)
Definition ex_write : ibuf := IBuf B_DIRTY 0 3 None [7; 8].
Definition ex_read : ibuf := IBuf 0 0 3 None [].
Definition ex_ide : idestate :=
  IdeState false (Some 0%nat) [ex_write; ex_read] false
    (Controller 0 1 3 0 0 224 (Some (command_of ex_write)) false [replicate 1000 [0; 0]; replicate 1000 [0; 0]]).

End Ide.
