(* ===== verification/Log.v ===== *)
(** The write-ahead log (src/log.c) and the super block it is found through.

    The second half proves that a commit is atomic across crashes: the disk
    writes of [commit] are computed, a crash keeps a prefix of them, and
    recovery by [initlog] on a freshly booted cache gives either all or none
    of the transaction, also when recovery itself is interrupted. *)
From S2P Require Import Prelude Layout Bytes Spinlock Sleeplock Bio.

(** [struct superblock] (src/fs.h). *)
Record superblock := Superblock {
  sb_size : Z; sb_nblocks : Z; sb_ninodes : Z; sb_nlog : Z;
  sb_logstart : Z; sb_inodestart : Z; sb_bmapstart : Z
}.
Definition superblock_of (d : list Z) : superblock :=
  Superblock (word d 0) (word d 1) (word d 2) (word d 3) (word d 4) (word d 5) (word d 6).

(** src/fs.c: read the super block. *)
Definition readsb (dev : Z) : M bstate superblock :=
  bp ← bread dev 1;
  d ← bdata_get bp;
  brelse bp;;
  mret (superblock_of d).

(** [struct log], with the buffer cache below it. *)
Record lstate := LState {
  l_bio : bstate;
  l_held : bool;                  (* log.lock *)
  l_start : Z;
  l_size : Z;
  l_outstanding : Z;
  l_committing : bool;
  l_dev : Z;
  lh_n : Z;                       (* log.lh.n *)
  lh_block : list Z               (* log.lh.block, LOGSIZE entries *)
}.
Definition set_lbio v l := LState v (l_held l) (l_start l) (l_size l) (l_outstanding l) (l_committing l) (l_dev l) (lh_n l) (lh_block l).
Definition set_lheld v l := LState (l_bio l) v (l_start l) (l_size l) (l_outstanding l) (l_committing l) (l_dev l) (lh_n l) (lh_block l).
Definition set_lstart v l := LState (l_bio l) (l_held l) v (l_size l) (l_outstanding l) (l_committing l) (l_dev l) (lh_n l) (lh_block l).
Definition set_lsize v l := LState (l_bio l) (l_held l) (l_start l) v (l_outstanding l) (l_committing l) (l_dev l) (lh_n l) (lh_block l).
Definition set_outstanding v l := LState (l_bio l) (l_held l) (l_start l) (l_size l) v (l_committing l) (l_dev l) (lh_n l) (lh_block l).
Definition set_committing v l := LState (l_bio l) (l_held l) (l_start l) (l_size l) (l_outstanding l) v (l_dev l) (lh_n l) (lh_block l).
Definition set_ldev v l := LState (l_bio l) (l_held l) (l_start l) (l_size l) (l_outstanding l) (l_committing l) v (lh_n l) (lh_block l).
Definition set_lhn v l := LState (l_bio l) (l_held l) (l_start l) (l_size l) (l_outstanding l) (l_committing l) (l_dev l) v (lh_block l).
Definition set_lhblock v l := LState (l_bio l) (l_held l) (l_start l) (l_size l) (l_outstanding l) (l_committing l) (l_dev l) (lh_n l) v.

Definition on_bio {A} : M bstate A → M lstate A := zoom l_bio set_lbio.
Definition log_acquire : M lstate unit := lk_acquire l_held set_lheld.
Definition log_release : M lstate unit := lk_release l_held set_lheld.

(** [log.lh.block[i]], read and written. *)
Definition lhblock_get (i : nat) : M lstate Z := l ← get; deref (lh_block l !! i).
Definition lhblock_set (i : nat) (v : Z) : M lstate unit :=
  lhblock_get i;; modify (λ l, set_lhblock (<[i := v]> (lh_block l)) l).

(** The words of a buffer's data. *)
Definition bword_get (b i : nat) : M bstate Z :=
  d ← bdata_get b;
  if bool_decide (4 * i + 4 ≤ length d)%nat then mret (word d i) else undef.
Definition bword_set (b i : nat) (v : Z) : M bstate unit :=
  d ← bdata_get b;
  if bool_decide (4 * i + 4 ≤ length d)%nat then bdata_set b (set_word i v d) else undef.

(** One turn of the loop of [install_trans]. *)
Definition install_block (tail : nat) : M lstate unit :=
  l ← get;
  lbuf ← on_bio (bread (l_dev l) (u32 (l_start l + Z.of_nat tail + 1)));
  dst ← lhblock_get tail;
  dbuf ← on_bio (bread (l_dev l) (u32 dst));
  d ← on_bio (bdata_get lbuf);
  on_bio (bdata_set dbuf d);;
  on_bio (bwrite dbuf);;
  on_bio (brelse lbuf);;
  on_bio (brelse dbuf).
Definition install_trans : M lstate unit :=
  l ← get; foreach (seq 0 (Z.to_nat (lh_n l))) install_block.

Definition read_head : M lstate unit :=
  l ← get;
  b ← on_bio (bread (l_dev l) (u32 (l_start l)));
  n ← on_bio (bword_get b 0);
  modify (set_lhn (i32 n));;
  foreach (seq 0 (Z.to_nat (i32 n))) (λ i, v ← on_bio (bword_get b (S i)); lhblock_set i (i32 v));;
  on_bio (brelse b).

Definition write_head : M lstate unit :=
  l ← get;
  b ← on_bio (bread (l_dev l) (u32 (l_start l)));
  on_bio (bword_set b 0 (lh_n l));;
  foreach (seq 0 (Z.to_nat (lh_n l))) (λ i, v ← lhblock_get i; on_bio (bword_set b (S i) v));;
  on_bio (bwrite b);;
  on_bio (brelse b).

Definition recover_from_log : M lstate unit :=
  read_head;;
  install_trans;;
  modify (set_lhn 0);;
  write_head.

Definition sizeof_logheader : Z := 4 + 4 * Z.of_nat LOGSIZE.

Definition initlog (dev : Z) : M lstate unit :=
  panic_if (bool_decide (BSIZE ≤ sizeof_logheader)) "initlog: too big logheader";;
  modify (set_lheld false);;
  sb ← on_bio (readsb dev);
  modify (set_lstart (i32 (sb_logstart sb)));;
  modify (set_lsize (i32 (sb_nlog sb)));;
  modify (set_ldev dev);;
  recover_from_log.

(** [begin_op]: a process that has to wait sleeps on [&log] and, when it is
    woken, starts the loop again. *)
Definition begin_op : M lstate unit :=
  log_acquire;;
  l ← get;
  if l_committing l || bool_decide (Z.of_nat LOGSIZE < lh_n l + (l_outstanding l + 1) * Z.of_nat MAXOPBLOCKS)
  then log_release;; block CLog
  else modify (set_outstanding (l_outstanding l + 1));; log_release.

(** One turn of the loop of [write_log]. *)
Definition write_log_block (tail : nat) : M lstate unit :=
  l ← get;
  to ← on_bio (bread (l_dev l) (u32 (l_start l + Z.of_nat tail + 1)));
  src ← lhblock_get tail;
  from ← on_bio (bread (l_dev l) (u32 src));
  d ← on_bio (bdata_get from);
  on_bio (bdata_set to d);;
  on_bio (bwrite to);;
  on_bio (brelse from);;
  on_bio (brelse to).
Definition write_log : M lstate unit :=
  l ← get; foreach (seq 0 (Z.to_nat (lh_n l))) write_log_block.

Definition commit : M lstate unit :=
  l ← get;
  if bool_decide (0 < lh_n l) then
    write_log;;
    write_head;;
    install_trans;;
    modify (set_lhn 0);;
    write_head
  else mret tt.

Definition end_op : M lstate unit :=
  log_acquire;;
  modify (λ l, set_outstanding (l_outstanding l - 1) l);;
  l ← get;
  panic_if (l_committing l) "log.committing";;
  let do_commit := bool_decide (l_outstanding l = 0) in
  (if do_commit then modify (set_committing true) else announce CLog);;
  log_release;;
  if do_commit then
    commit;;
    log_acquire;;
    modify (set_committing false);;
    announce CLog;;
    log_release
  else mret tt.

(** The search loop of [log_write]: the position of [v] among the first [n]
    entries, or [n]. *)
Fixpoint log_find (bl : list Z) (v : Z) (n : nat) {struct n} : nat :=
  match n, bl with
  | S n', x :: bl' => if bool_decide (u32 x = v) then O else S (log_find bl' v n')
  | _, _ => O
  end.

Definition log_write (b : nat) : M lstate unit :=
  l ← get;
  panic_if (bool_decide (Z.of_nat LOGSIZE ≤ lh_n l) || bool_decide (l_size l - 1 ≤ lh_n l))
    "too big a transaction";;
  panic_if (bool_decide (l_outstanding l < 1)) "log_write outside of trans";;
  log_acquire;;
  x ← on_bio (buf_get b);
  let i := log_find (lh_block l) (b_blockno x) (Z.to_nat (lh_n l)) in
  lhblock_set i (i32 (b_blockno x));;
  (if bool_decide (Z.of_nat i = lh_n l) then modify (λ l, set_lhn (lh_n l + 1) l) else mret tt);;
  on_bio (buf_upd b (λ x, set_bflags (Z.lor (b_flags x) B_DIRTY) x));;
  log_release.

(** * Disk writes *)

(** The blocks a run writes to the disk, in order. *)
Definition dwrites (t : list event) : list (Z * list Z) :=
  omap (λ e, match e with EvDisk _ b d => Some (b, d) | _ => None end) t.

Lemma dwrites_app t1 t2 : dwrites (t1 ++ t2) = dwrites t1 ++ dwrites t2.
Proof. apply omap_app. Qed.

(** A block written through the cache to the disk. *)
Definition a_store (a : acache) (w : Z * list Z) : acache :=
  ACache (<[Z.to_nat w.1 := w.2]> (a_data a)) (<[Z.to_nat w.1 := w.2]> (a_disk a))
    (a_dirty a ∖ {[w.1]}) (a_locked a).
Definition exec (W : list (Z * list Z)) (a : acache) : acache := foldl a_store a W.

(** A disk after some writes. *)
Definition apply_writes (W : list (Z * list Z)) (dk : list (list Z)) : list (list Z) :=
  foldl (λ dk w, <[Z.to_nat w.1 := w.2]> dk) dk W.

Lemma exec_disk W a : a_disk (exec W a) = apply_writes W (a_disk a).
Proof. revert a. induction W as [|w W IH]; intros a; [done|]. simpl. by rewrite IH. Qed.
Lemma exec_data W a : a_data (exec W a) = apply_writes W (a_data a).
Proof. revert a. induction W as [|w W IH]; intros a; [done|]. simpl. by rewrite IH. Qed.
Lemma exec_locked W a : a_locked (exec W a) = a_locked a.
Proof. revert a. induction W as [|w W IH]; intros a; [done|]. simpl. by rewrite IH. Qed.
Lemma exec_app W1 W2 a : exec (W1 ++ W2) a = exec W2 (exec W1 a).
Proof. apply foldl_app. Qed.
Lemma length_apply_writes W dk : length (apply_writes W dk) = length dk.
Proof. revert dk. induction W as [|w W IH]; intros dk; [done|]. simpl. by rewrite IH, length_insert. Qed.

Lemma apply_writes_off W dk (x : Z) :
  0 ≤ x → Forall (λ w, 0 ≤ w.1) W → x ∉ W.*1 → apply_writes W dk !! Z.to_nat x = dk !! Z.to_nat x.
Proof.
  intros Hx. revert dk. induction W as [|w W IH]; intros dk Hall Hn; [done|].
  apply Forall_cons in Hall as [Hw Hall]. rewrite fmap_cons, not_elem_of_cons in Hn. destruct Hn as [Hne Hn].
  simpl. rewrite IH by done. rewrite list_lookup_insert_ne; [done|lia].
Qed.

(** * The log in a represented state *)

(** The log header [L] in memory over the abstract cache [a]. *)
Record lrep (l : lstate) (a : acache) (start size : Z) (L : list Z) : Prop := LRep {
  lr_bio : brep (l_bio l) a;
  lr_held : l_held l = false;
  lr_dev : l_dev l = 1;
  lr_start : l_start l = start;
  lr_size : l_size l = size;
  lr_n : lh_n l = Z.of_nat (length L);
  lr_len : length (lh_block l) = LOGSIZE;
  lr_block : ∃ rest, lh_block l = L ++ rest
}.

(** Where the log is on a disk of [N] blocks, and which blocks it may hold:
    those after the log. *)
Record geometry (start size : Z) (N : nat) (L : list Z) : Prop := Geometry {
  ge_start : 2 ≤ start;
  ge_size : size ≤ Z.of_nat LOGSIZE;
  ge_end : start + size ≤ Z.of_nat N < 2147483648;
  ge_n : Z.of_nat (length L) < size;
  ge_blocks : Forall (λ x, start + size ≤ x < Z.of_nat N) L;
  ge_nodup : NoDup L
}.

Lemma on_bio_run {A} (m : M bstate A) l v b' t :
  m (l_bio l) = Ret v b' t → on_bio m l = Ret v (set_lbio b' l) t.
Proof. intros H. unfold on_bio, zoom. by rewrite H. Qed.

Lemma lrep_lbio l a b' a' start size L :
  lrep l a start size L → brep b' a' → lrep (set_lbio b' l) a' start size L.
Proof. intros [] Hb. by split. Qed.

Lemma set_lbio_twice x y l : set_lbio x (set_lbio y l) = set_lbio x l.
Proof. done. Qed.

Lemma lhblock_get_run l k x : lh_block l !! k = Some x → lhblock_get k l = Ret x l [].
Proof. intros H. unfold lhblock_get. rewrite bind_get. by rewrite H. Qed.

Lemma lrep_block l a start size L k x :
  lrep l a start size L → L !! k = Some x → lh_block l !! k = Some x.
Proof. intros [] Hk. destruct lr_block0 as [rest ->]. by apply lookup_app_l_Some. Qed.

Lemma u32_blk x (N : nat) : 0 ≤ x < Z.of_nat N → Z.of_nat N < 2147483648 → u32 x = x.
Proof. intros. apply u32_small. lia. Qed.

Lemma delete_two (x y : Z) (i j : nat) (m : gmap Z nat) :
  m !! x = None → m !! y = None → x ≠ y → delete x (delete y (<[y := j]> (<[x := i]> m))) = m.
Proof.
  intros Hx Hy Hne. rewrite delete_insert_id by (by rewrite lookup_insert_ne). by rewrite delete_insert_id.
Qed.

(** ** Copying one block *)

(** The block read first and the block read second are both locked. *)
Lemma lock_two a x y i j :
  a_locked a = ∅ → x ≠ y →
  a_locked (a_lock y j (a_lock x i a)) !! x = Some i ∧ a_locked (a_lock y j (a_lock x i a)) !! y = Some j ∧
  delete x (delete y (a_locked (a_lock y j (a_lock x i a)))) = ∅ ∧
  delete y (delete x (a_locked (a_lock y j (a_lock x i a)))) = ∅.
Proof.
  intros He Hne. simpl. rewrite He. split_and!.
  - by rewrite lookup_insert_ne, lookup_insert_eq.
  - by rewrite lookup_insert_eq.
  - by apply delete_two.
  - rewrite delete_delete. by apply delete_two.
Qed.

Lemma room_small a x : (size (a_dirty a ∪ dom (a_locked a)) < NBUF)%nat → room a x.
Proof. by right. Qed.

Section copy.
  Context (l : lstate) (a : acache) (start size : Z) (L : list Z) (N k : nat) (y : Z) (d : list Z).
  Context (Hl : lrep l a start size L) (Hg : geometry start size N L).
  Context (HN : length (a_disk a) = N) (Hnl : a_locked a = ∅) (Hk : L !! k = Some y).

Lemma copy_facts :
  let x := start + Z.of_nat k + 1 in
  0 ≤ x < Z.of_nat (length (a_disk a)) ∧ 0 ≤ y < Z.of_nat (length (a_disk a)) ∧ x ≠ y ∧ u32 x = x ∧ u32 y = y.
Proof.
  destruct Hg as [G1 G2 G3 G4 G5 G6]. pose proof (lookup_lt_Some _ _ _ Hk).
  pose proof (Forall_lookup_1 _ _ _ _ G5 Hk) as Hy. simpl in Hy. rewrite HN. cbv zeta.
  split_and!; try lia; apply u32_small; lia.
Qed.

Lemma write_log_block_spec :
  (base.size (a_dirty a) < NBUF)%nat → y ∈ a_dirty a → a_data a !! Z.to_nat y = Some d →
  ∃ l' t, write_log_block k l = Ret tt l' t ∧ dwrites t = [(start + Z.of_nat k + 1, d)] ∧
    lrep l' (a_store a (start + Z.of_nat k + 1, d)) start size L ∧ l' = set_lbio (l_bio l') l.
Proof.
  intros Hroom Hdy Hd. destruct copy_facts as (Hx & Hy & Hne & Ux & Uy).
  set (x := start + Z.of_nat k + 1) in *. pose proof Hl as [Hb _ Hdev Hst _ _ _ _].
  pose proof (br_content _ _ Hb) as Hc.
  destruct (bread_spec (l_bio l) a x Hb) as (i & b1 & R1 & B1 & _); [by rewrite Hnl|done| |].
  { apply room_small. by rewrite Hnl, dom_empty_L, (right_id_L ∅ (∪)). }
  destruct (bread_spec b1 _ y B1) as (j & b2 & R2 & B2 & _); [simpl; by rewrite Hnl, lookup_insert_ne|done|by left|].
  destruct (lock_two a x y i j Hnl Hne) as (Lx & Ly & Dxy & Dyx).
  pose proof (bdata_get_spec b2 _ y j d B2 Ly Hd) as R3.
  assert (block_ok d) as Hok by exact (Forall_lookup_1 _ _ _ _ (proj1 (c_blocks _ _ Hc)) Hd).
  destruct (bdata_set_spec b2 _ x i d B2 Lx Hok) as (b4 & R4 & B4 & _).
  assert (<[Z.to_nat x := d]> (a_data a) !! Z.to_nat x = Some d) as Hdx.
  { apply list_lookup_insert_eq. rewrite (c_len _ _ Hc). lia. }
  destruct (bwrite_spec b4 _ x i d B4 Lx Hdx) as (b5 & R5 & B5 & _).
  destruct (brelse_spec b5 _ y j B5 Ly) as (b6 & R6 & B6 & _); [left; simpl; set_solver|].
  destruct (brelse_spec b6 _ x i B6) as (b7 & R7 & B7 & _).
  { cbn [a_unlock a_locked]. by rewrite lookup_delete_ne. }
  { right. simpl. rewrite Hdx, list_lookup_insert_eq; [done|lia]. }
  eexists (set_lbio b7 l), _. split_and!.
  - unfold write_log_block. rewrite bind_get, Hdev, Hst. fold x. rewrite Ux.
    mstep (on_bio_run _ l _ _ _ R1).
    mstep (lhblock_get_run (set_lbio b1 l) k y (lrep_block _ _ _ _ _ _ _ Hl Hk)). rewrite Uy.
    mstep (on_bio_run _ (set_lbio b1 l) _ _ _ R2).
    mstep (on_bio_run _ (set_lbio b2 l) _ _ _ R3).
    mstep (on_bio_run _ (set_lbio b2 l) _ _ _ R4).
    mstep (on_bio_run _ (set_lbio b4 l) _ _ _ R5).
    mstep (on_bio_run _ (set_lbio b5 l) _ _ _ R6).
    rewrite set_lbio_twice, (on_bio_run _ (set_lbio b6 l) _ _ _ R7). reflexivity.
  - done.
  - eapply lrep_lbio; [done|]. 
    replace (a_store a (x, d)) with
      (a_unlock x (a_unlock y (a_write x d (a_set x d (a_lock y j (a_lock x i a)))))); [done|].
    unfold a_store, a_unlock, a_write, a_set. cbn [a_data a_disk a_dirty a_locked fst snd].
    f_equal. rewrite Dxy. by rewrite Hnl.
  - done.
Qed.

Lemma install_block_spec :
  (base.size (a_dirty a) < NBUF)%nat → y ∈ a_dirty a ∨ (base.size (a_dirty a) + 1 < NBUF)%nat →
  a_data a !! Z.to_nat (start + Z.of_nat k + 1) = Some d → start + Z.of_nat k + 1 ∉ a_dirty a →
  ∃ l' t, install_block k l = Ret tt l' t ∧ dwrites t = [(y, d)] ∧
    lrep l' (a_store a (y, d)) start size L ∧ l' = set_lbio (l_bio l') l.
Proof.
  intros Hroom Hroom2 Hd Hcl. destruct copy_facts as (Hx & Hy & Hne & Ux & Uy).
  set (x := start + Z.of_nat k + 1) in *. pose proof Hl as [Hb _ Hdev Hst _ _ _ _].
  pose proof (br_content _ _ Hb) as Hc.
  destruct (bread_spec (l_bio l) a x Hb) as (i & b1 & R1 & B1 & _); [by rewrite Hnl|done| |].
  { apply room_small. by rewrite Hnl, dom_empty_L, (right_id_L ∅ (∪)). }
  destruct (bread_spec b1 _ y B1) as (j & b2 & R2 & B2 & _); [simpl; by rewrite Hnl, lookup_insert_ne|done| |].
  { destruct Hroom2 as [?|Hs]; [by left|right]. simpl. rewrite Hnl, dom_insert_L, dom_empty_L.
    rewrite (right_id_L ∅ (∪)), size_union_alt. 
    pose proof (subseteq_size ({[x]} ∖ a_dirty a) ({[x]} : gset Z) ltac:(set_solver)). rewrite size_singleton in *. lia. }
  destruct (lock_two a x y i j Hnl Hne) as (Lx & Ly & Dxy & Dyx).
  pose proof (bdata_get_spec b2 _ x i d B2 Lx Hd) as R3.
  assert (block_ok d) as Hok by exact (Forall_lookup_1 _ _ _ _ (proj1 (c_blocks _ _ Hc)) Hd).
  destruct (bdata_set_spec b2 _ y j d B2 Ly Hok) as (b4 & R4 & B4 & _).
  assert (<[Z.to_nat y := d]> (a_data a) !! Z.to_nat y = Some d) as Hdy.
  { apply list_lookup_insert_eq. rewrite (c_len _ _ Hc). lia. }
  destruct (bwrite_spec b4 _ y j d B4 Ly Hdy) as (b5 & R5 & B5 & _).
  destruct (brelse_spec b5 _ x i B5 Lx) as (b6 & R6 & B6 & _).
  { right. simpl. rewrite !list_lookup_insert_ne by lia. apply (c_clean _ _ Hc); [lia|done|by rewrite Hnl]. }
  destruct (brelse_spec b6 _ y j B6) as (b7 & R7 & B7 & _).
  { cbn [a_unlock a_locked]. by rewrite lookup_delete_ne. }
  { right. simpl. rewrite Hdy, list_lookup_insert_eq; [done|lia]. }
  eexists (set_lbio b7 l), _. split_and!.
  - unfold install_block. rewrite bind_get, Hdev, Hst. fold x. rewrite Ux.
    mstep (on_bio_run _ l _ _ _ R1).
    mstep (lhblock_get_run (set_lbio b1 l) k y (lrep_block _ _ _ _ _ _ _ Hl Hk)). rewrite Uy.
    mstep (on_bio_run _ (set_lbio b1 l) _ _ _ R2).
    mstep (on_bio_run _ (set_lbio b2 l) _ _ _ R3).
    mstep (on_bio_run _ (set_lbio b2 l) _ _ _ R4).
    mstep (on_bio_run _ (set_lbio b4 l) _ _ _ R5).
    mstep (on_bio_run _ (set_lbio b5 l) _ _ _ R6).
    rewrite set_lbio_twice, (on_bio_run _ (set_lbio b6 l) _ _ _ R7). reflexivity.
  - done.
  - eapply lrep_lbio; [done|]. 
    replace (a_store a (y, d)) with
      (a_unlock y (a_unlock x (a_write y d (a_set y d (a_lock y j (a_lock x i a)))))); [done|].
    unfold a_store, a_unlock, a_write, a_set. cbn [a_data a_disk a_dirty a_locked fst snd].
    f_equal. rewrite Dyx. by rewrite Hnl.
  - done.
Qed.
End copy.

(** ** The header block *)

Fixpoint hdr_loop (k : nat) (L : list Z) (d : list Z) : list Z :=
  match L with [] => d | x :: L' => hdr_loop (S k) L' (set_word (S k) x d) end.
(** The header block for [L], written over the block [d]. *)
Definition hdr (L : list Z) (d : list Z) : list Z :=
  hdr_loop 0 L (set_word 0 (Z.of_nat (length L)) d).

(** The header block [d] holds [L]. *)
Definition header_is (d : list Z) (L : list Z) : Prop :=
  word d 0 = Z.of_nat (length L) ∧ ∀ k x, L !! k = Some x → word d (S k) = x.

Lemma set_word_ok i x d : (i < 128)%nat → block_ok d → block_ok (set_word i x d).
Proof. intros Hi [Hl Hb]. split; [rewrite length_set_word; lia|by apply Forall_set_word]. Qed.

Lemma hdr_loop_ok L : ∀ k d, (k + length L < 127)%nat → block_ok d → block_ok (hdr_loop k L d).
Proof.
  induction L as [|x L IH]; intros k d Hk Hd; [done|]. simpl in *. apply IH; [lia|].
  apply set_word_ok; [lia|done].
Qed.

Lemma hdr_loop_word L : ∀ k d j, (k + length L < 127)%nat → block_ok d →
  word (hdr_loop k L d) j =
    if bool_decide (S k ≤ j < S k + length L)%nat then u32 (default 0 (L !! (j - S k)%nat)) else word d j.
Proof.
  induction L as [|x L IH]; intros k d j Hk Hd; cbn [hdr_loop length] in *.
  - by rewrite bool_decide_false by lia.
  - rewrite IH by (lia || (apply set_word_ok; [lia|done])).
    case_bool_decide as H1.
    + rewrite bool_decide_true by lia. replace (j - S k)%nat with (S (j - S (S k))) by lia. done.
    + rewrite word_set_word by (destruct Hd; lia). case_bool_decide as H2.
      * subst j. rewrite bool_decide_true by lia. by rewrite Nat.sub_diag.
      * rewrite bool_decide_false by lia. done.
Qed.

Lemma hdr_ok L d : (length L < 127)%nat → block_ok d → block_ok (hdr L d).
Proof. intros Hl Hd. apply hdr_loop_ok; [lia|]. apply set_word_ok; [lia|done]. Qed.

Lemma hdr_is L d :
  (length L < 127)%nat → Forall (λ x, 0 ≤ x < 2147483648) L → block_ok d → header_is (hdr L d) L.
Proof.
  intros Hl HL Hd. assert (block_ok (set_word 0 (Z.of_nat (length L)) d)) by (apply set_word_ok; [lia|done]).
  unfold hdr. split.
  - rewrite hdr_loop_word, bool_decide_false, word_set_word, bool_decide_true by (lia || done || (destruct Hd; lia)).
    apply u32_small. lia.
  - intros k x Hk. pose proof (lookup_lt_Some _ _ _ Hk). rewrite hdr_loop_word, bool_decide_true by (lia || done).
    rewrite Nat.sub_succ, Nat.sub_0_r, Hk. simpl. apply u32_small.
    pose proof (Forall_lookup_1 _ _ _ _ HL Hk). simpl in *. lia.
Qed.

Lemma a_set_twice x d1 d2 a : a_set x d2 (a_set x d1 a) = a_set x d2 a.
Proof. unfold a_set. simpl. by rewrite list_insert_insert_eq. Qed.

Lemma bword_set_spec s a x i d k v :
  brep s a → a_locked a !! x = Some i → a_data a !! Z.to_nat x = Some d → block_ok d → (k < 128)%nat →
  ∃ s', bword_set i k v s = Ret tt s' [] ∧ brep s' (a_set x (set_word k v d) a) ∧ curpid s' = curpid s.
Proof.
  intros Hr Hx Hd Hok Hk. unfold bword_set. rewrite (bind_run _ _ _ _ _ _ (bdata_get_spec s a x i d Hr Hx Hd)), prepend_nil.
  rewrite bool_decide_true by (destruct Hok; lia). apply (bdata_set_spec s a x i); [done..|by apply set_word_ok].
Qed.

Lemma bword_get_spec s a x i d k :
  brep s a → a_locked a !! x = Some i → a_data a !! Z.to_nat x = Some d → block_ok d → (k < 128)%nat →
  bword_get i k s = Ret (word d k) s [].
Proof.
  intros Hr Hx Hd Hok Hk. unfold bword_get. rewrite (bind_run _ _ _ _ _ _ (bdata_get_spec s a x i d Hr Hx Hd)), prepend_nil.
  by rewrite bool_decide_true by (destruct Hok; lia).
Qed.

Lemma write_head_loop start size x b L2 : ∀ L1 l a d,
  lrep l a start size (L1 ++ L2) → (length L1 + length L2 < 127)%nat →
  a_locked a !! x = Some b → a_data a !! Z.to_nat x = Some d → block_ok d →
  ∃ l', foreach (seq (length L1) (length L2)) (λ i, v ← lhblock_get i; on_bio (bword_set b (S i) v)) l = Ret tt l' [] ∧
    lrep l' (a_set x (hdr_loop (length L1) L2 d) a) start size (L1 ++ L2) ∧ l' = set_lbio (l_bio l') l.
Proof.
  induction L2 as [|y L2 IH]; intros L1 l a d Hl Hlen Hx Hd Hok; cbn [length seq foreach hdr_loop].
  - exists l. split_and!; [done| |by destruct l]. unfold a_set. rewrite list_insert_id by done. by destruct a.
  - cbn [length] in Hlen.
    assert (lh_block l !! length L1 = Some y) as Hy.
    { eapply lrep_block; [done|]. by rewrite list_lookup_middle. }
    destruct (bword_set_spec (l_bio l) a x b d (S (length L1)) y (lr_bio _ _ _ _ _ Hl)) as (s' & R & B & _); try done; [lia|].
    rewrite (bind_run _ _ l tt (set_lbio s' l) []), prepend_nil.
    2: { mstep (lhblock_get_run l _ y Hy). by apply on_bio_run. }
    destruct (IH (L1 ++ [y]) (set_lbio s' l) (a_set x (set_word (S (length L1)) y d) a) (set_word (S (length L1)) y d))
      as (l' & R' & Hl' & E).
    { rewrite <- (assoc_L (++)). by eapply lrep_lbio. }
    { rewrite length_app. simpl. lia. }
    { done. }
    { simpl. apply list_lookup_insert_eq. by eapply lookup_lt_Some. }
    { apply set_word_ok; [lia|done]. }
    rewrite length_app, <- (assoc_L (++)), Nat.add_1_r in *. exists l'.
    split_and!; [done|by rewrite a_set_twice in Hl'|by rewrite E].
Qed.

Lemma write_head_spec l a start size L N d :
  lrep l a start size L → geometry start size N L → length (a_disk a) = N → a_locked a = ∅ →
  (base.size (a_dirty a) < NBUF)%nat → a_data a !! Z.to_nat start = Some d →
  ∃ l' t, write_head l = Ret tt l' t ∧ dwrites t = [(start, hdr L d)] ∧
    lrep l' (a_store a (start, hdr L d)) start size L ∧ l' = set_lbio (l_bio l') l.
Proof.
  intros Hl Hg HN Hnl Hroom Hd. pose proof Hl as [Hb _ Hdev Hst _ Hn _ _].
  pose proof (br_content _ _ Hb) as Hc. destruct Hg as [G1 G2 G3 G4 G5 G6].
  unfold LOGSIZE, MAXOPBLOCKS in G2.
  assert (block_ok d) as Hok by exact (Forall_lookup_1 _ _ _ _ (proj1 (c_blocks _ _ Hc)) Hd).
  destruct (bread_spec (l_bio l) a start Hb) as (i & b1 & R1 & B1 & _); [by rewrite Hnl|lia| |].
  { apply room_small. by rewrite Hnl, dom_empty_L, (right_id_L ∅ (∪)). }
  assert (a_locked (a_lock start i a) !! start = Some i) as Lx by (simpl; by rewrite lookup_insert_eq).
  destruct (bword_set_spec b1 _ start i d 0 (lh_n l) B1 Lx Hd Hok) as (b2 & R2 & B2 & _); [lia|].
  rewrite Hn in B2. set (d0 := set_word 0 (Z.of_nat (length L)) d) in *.
  assert (a_data (a_set start d0 (a_lock start i a)) !! Z.to_nat start = Some d0) as Hd0.
  { simpl. apply list_lookup_insert_eq. by eapply lookup_lt_Some. }
  destruct (write_head_loop start size start i L [] (set_lbio b2 l) _ d0
    (lrep_lbio _ _ _ _ _ _ _ Hl B2)) as (l3 & R3 & Hl3 & E3); [simpl; lia|done|done|apply set_word_ok; [lia|done]|].
  fold (hdr L d) in Hl3. rewrite a_set_twice in Hl3. cbn [app length] in *.
  assert (a_data (a_set start (hdr L d) (a_lock start i a)) !! Z.to_nat start = Some (hdr L d)) as Hd3.
  { simpl. apply list_lookup_insert_eq. by eapply lookup_lt_Some. }
  destruct (bwrite_spec _ _ start i _ (lr_bio _ _ _ _ _ Hl3) Lx Hd3) as (b4 & R4 & B4 & _).
  destruct (brelse_spec b4 _ start i B4 Lx) as (b5 & R5 & B5 & _).
  { right. etransitivity; [exact Hd3|]. symmetry. simpl. apply list_lookup_insert_eq.
    rewrite <- (c_len _ _ Hc). by eapply lookup_lt_Some. }
  exists (set_lbio b5 l). eexists. split_and!.
  - unfold write_head. rewrite bind_get, Hdev, Hst, (u32_small start) by lia.
    mstep (on_bio_run _ l _ _ _ R1). mstep (on_bio_run _ (set_lbio b1 l) _ _ _ R2).
    rewrite Hn, Nat2Z.id, !set_lbio_twice. mstep R3. mstep (on_bio_run _ l3 _ _ _ R4).
    rewrite (on_bio_run _ (set_lbio b4 l3) _ _ _ R5). rewrite E3. reflexivity.
  - done.
  - eapply lrep_lbio; [done|].
    replace (a_store a (start, hdr L d)) with
      (a_unlock start (a_write start (hdr L d) (a_set start (hdr L d) (a_lock start i a)))); [done|].
    unfold a_store, a_unlock, a_write, a_set. cbn [a_data a_disk a_dirty a_locked a_lock fst snd].
    f_equal. rewrite Hnl. by rewrite delete_insert_id.
  - done.
Qed.

(** Reading the header: the entries are copied one by one. *)
Lemma read_head_loop b x d : ∀ L2 L1 l a,
  brep (l_bio l) a → a_locked a !! x = Some b → a_data a !! Z.to_nat x = Some d → block_ok d →
  length (lh_block l) = LOGSIZE → (length L1 + length L2 ≤ LOGSIZE)%nat →
  (∃ rest, lh_block l = L1 ++ rest) → (∀ k y, L2 !! k = Some y → word d (S (length L1 + k)) = y ∧ i32 y = y) →
  ∃ bl, foreach (seq (length L1) (length L2)) (λ i, v ← on_bio (bword_get b (S i)); lhblock_set i (i32 v)) l =
      Ret tt (set_lhblock bl l) [] ∧ length bl = LOGSIZE ∧ ∃ rest, bl = (L1 ++ L2) ++ rest.
Proof.
  induction L2 as [|y L2 IH]; intros L1 l a Hb Hx Hd Hok Hlen HL [rest Hr] Hw; cbn [length seq foreach].
  - exists (lh_block l). rewrite app_nil_r. split_and!; [by destruct l|done|by exists rest].
  - cbn [length] in HL. destruct (Hw O y eq_refl) as [Hw0 Hi0]. rewrite Nat.add_0_r in Hw0.
    rewrite Hr, length_app in Hlen. destruct rest as [|r rest]; [cbn [length] in Hlen; unfold LOGSIZE, MAXOPBLOCKS in *; lia|].
    set (l1 := set_lhblock (L1 ++ y :: rest) l).
    rewrite (bind_run _ _ l tt l1 []), prepend_nil.
    2: { erewrite bind_run, prepend_nil; [|apply on_bio_run; eapply (bword_get_spec _ a x); try done].
         2: { unfold LOGSIZE, MAXOPBLOCKS in *. lia. }
         rewrite Hw0, Hi0. replace (set_lbio (l_bio l) l) with l by (by destruct l).
         unfold lhblock_set. rewrite (bind_run _ _ l r l []), prepend_nil.
         2: { apply lhblock_get_run. rewrite Hr. by rewrite list_lookup_middle. }
         unfold modify, l1. rewrite Hr. by rewrite insert_app_r_alt, Nat.sub_diag by lia. }
    destruct (IH (L1 ++ [y]) l1 a) as (bl & R & Hl' & rest' & Hr'); try done.
    { simpl. rewrite !length_app in *. cbn [length] in *. lia. }
    { rewrite length_app. cbn [length]. lia. }
    { exists rest. simpl. by rewrite <- (assoc_L (++)). }
    { intros k z Hk. rewrite length_app. cbn [length].
      replace (length L1 + 1 + k)%nat with (length L1 + S k)%nat by lia. by apply Hw. }
    rewrite length_app, Nat.add_1_r in R. exists bl.
    split_and!; [exact R|done|]. exists rest'. rewrite Hr'. by rewrite <- !(assoc_L (++)).
Qed.

Lemma read_head_spec l a start size L N d :
  brep (l_bio l) a → l_held l = false → l_dev l = 1 → l_start l = start → l_size l = size →
  length (lh_block l) = LOGSIZE → geometry start size N L → length (a_disk a) = N → a_locked a = ∅ →
  (base.size (a_dirty a) < NBUF)%nat → start ∉ a_dirty a →
  a_data a !! Z.to_nat start = Some d → header_is d L →
  ∃ l' t, read_head l = Ret tt l' t ∧ dwrites t = [] ∧ lrep l' a start size L ∧
    l_outstanding l' = l_outstanding l ∧ l_committing l' = l_committing l.
Proof.
  intros Hb Hh Hdev Hst Hsz Hlen Hg HN Hnl Hroom Hnd Hd [Hh0 Hhk].
  pose proof (br_content _ _ Hb) as Hc. destruct Hg as [G1 G2 G3 G4 G5 G6].
  assert (block_ok d) as Hok by exact (Forall_lookup_1 _ _ _ _ (proj1 (c_blocks _ _ Hc)) Hd).
  destruct (bread_spec (l_bio l) a start Hb) as (i & b1 & R1 & B1 & _); [by rewrite Hnl|lia| |].
  { apply room_small. by rewrite Hnl, dom_empty_L, (right_id_L ∅ (∪)). }
  assert (a_locked (a_lock start i a) !! start = Some i) as Lx by (simpl; by rewrite lookup_insert_eq).
  pose proof (bword_get_spec b1 _ start i d 0 B1 Lx Hd Hok ltac:(lia)) as R2. rewrite Hh0 in R2.
  set (l2 := set_lhn (Z.of_nat (length L)) (set_lbio b1 l)).
  destruct (read_head_loop i start d L [] l2 (a_lock start i a)) as (bl & R3 & Hl3 & rest & Hr3); try done.
  { cbn [length]. unfold LOGSIZE, MAXOPBLOCKS in *. lia. }
  { by exists (lh_block l). }
  { intros k y Hk. cbn [length Nat.add]. rewrite (Hhk k y Hk). split; [done|].
    pose proof (Forall_lookup_1 _ _ _ _ G5 Hk). simpl in *. apply i32_small. lia. }
  destruct (brelse_spec b1 _ start i B1 Lx) as (b4 & R4 & B4 & _).
  { right. simpl. apply (c_clean _ _ Hc); [lia|done|by rewrite Hnl]. }
  exists (set_lbio b4 (set_lhblock bl l2)). eexists. split_and!.
  - unfold read_head. rewrite bind_get, Hdev, Hst, (u32_small start) by lia.
    mstep (on_bio_run _ l _ _ _ R1). mstep (on_bio_run _ (set_lbio b1 l) _ _ _ R2).
    rewrite bind_modify, set_lbio_twice, (i32_small (Z.of_nat (length L))), Nat2Z.id by (unfold LOGSIZE, MAXOPBLOCKS in *; lia).
    mstep R3. by rewrite (on_bio_run (brelse i) (set_lhblock bl l2) _ _ _ R4).
  - done.
  - split; cbn [set_lbio l_bio l_held l_dev l_start l_size lh_n lh_block]; try done.
    + replace a with (a_unlock start (a_lock start i a)); [done|].
      unfold a_unlock, a_lock. cbn [a_data a_disk a_dirty a_locked]. rewrite Hnl, delete_insert_id by done.
      rewrite <- Hnl. by destruct a.
    + by exists rest.
  - done.
  - done.
Qed.

(** ** The loops *)

(** Only the cache below the log changed. *)
Definition keeps (l l' : lstate) : Prop := l' = set_lbio (l_bio l') l.
Lemma keeps_refl l : keeps l l.
Proof. by destruct l. Qed.
Lemma keeps_trans l1 l2 l3 : keeps l1 l2 → keeps l2 l3 → keeps l1 l3.
Proof. unfold keeps. intros -> ->. by destruct l1, l2. Qed.

(** A loop whose turn [j] writes the one block [W j]. *)
Lemma foreach_exec start size L (f : nat → M lstate unit) (W : nat → Z * list Z) (I : nat → acache → Prop) n :
  ∀ k l a, lrep l a start size L → I k a →
  (∀ j l a, (k ≤ j < k + n)%nat → lrep l a start size L → I j a →
     ∃ l' t, f j l = Ret tt l' t ∧ dwrites t = [W j] ∧ lrep l' (a_store a (W j)) start size L ∧ keeps l l' ∧
       I (S j) (a_store a (W j))) →
  ∃ l' t, foreach (seq k n) f l = Ret tt l' t ∧ dwrites t = W <$> seq k n ∧
    lrep l' (exec (W <$> seq k n) a) start size L ∧ keeps l l' ∧ I (k + n)%nat (exec (W <$> seq k n) a).
Proof.
  induction n as [|n IH]; intros k l a Hl HI Hstep; cbn [seq foreach fmap list_fmap].
  - exists l, []. rewrite Nat.add_0_r. split_and!; try done. apply keeps_refl.
  - destruct (Hstep k l a) as (l1 & t1 & R1 & D1 & Hl1 & K1 & I1); [lia|done|done|].
    destruct (IH (S k) l1 (a_store a (W k)) Hl1 I1) as (l2 & t2 & R2 & D2 & Hl2 & K2 & I2).
    { intros j l' a' Hj. apply Hstep. lia. }
    exists l2, (t1 ++ t2). rewrite (bind_run _ _ _ _ _ _ R1), R2, dwrites_app, D1, D2.
    rewrite <- Nat.add_succ_comm. split_and!; try done. by eapply keeps_trans.
Qed.

(** The writes of [write_log] and of [install_trans], for log contents [C]. *)
Definition log_writes (start : Z) (n : nat) (C : nat → list Z) : list (Z * list Z) :=
  (λ k, (start + Z.of_nat k + 1, C k)) <$> seq 0 n.
Definition home_writes (L : list Z) (C : nat → list Z) : list (Z * list Z) :=
  (λ k, (default 0 (L !! k), C k)) <$> seq 0 (length L).

Lemma geometry_block start size N L k y :
  geometry start size N L → L !! k = Some y →
  start + Z.of_nat k + 1 < start + size ≤ y ∧ y < Z.of_nat N ∧ (k < length L)%nat.
Proof.
  intros [G1 G2 G3 G4 G5 G6] Hk. pose proof (lookup_lt_Some _ _ _ Hk).
  pose proof (Forall_lookup_1 _ _ _ _ G5 Hk) as Hy. simpl in Hy. lia.
Qed.

Lemma geometry_small start size N L : geometry start size N L → (length L < NBUF)%nat.
Proof. intros [G1 G2 G3 G4 G5 G6]. unfold LOGSIZE, NBUF, MAXOPBLOCKS in *. lia. Qed.

Lemma size_list_le (L : list Z) : (base.size (list_to_set L : gset Z) ≤ length L)%nat.
Proof.
  induction L as [|x L IH]; simpl; [done|].
  rewrite size_union_alt. pose proof (subseteq_size (list_to_set L ∖ {[x]} : gset Z) (list_to_set L) ltac:(set_solver)).
  rewrite size_singleton. lia.
Qed.

Lemma write_log_spec l a start size L N (C : nat → list Z) :
  lrep l a start size L → geometry start size N L → length (a_disk a) = N → a_locked a = ∅ →
  a_dirty a = list_to_set L → (∀ k y, L !! k = Some y → a_data a !! Z.to_nat y = Some (C k)) →
  ∃ l' t, write_log l = Ret tt l' t ∧ dwrites t = log_writes start (length L) C ∧
    lrep l' (exec (log_writes start (length L) C) a) start size L ∧ keeps l l' ∧
    a_dirty (exec (log_writes start (length L) C) a) = list_to_set L.
Proof.
  intros Hl Hg HN Hnl Hdt HC. pose proof (geometry_small _ _ _ _ Hg) as Hsm.
  destruct (foreach_exec start size L write_log_block (λ k, (start + Z.of_nat k + 1, C k))
    (λ _ a', length (a_disk a') = N ∧ a_locked a' = ∅ ∧ a_dirty a' = list_to_set L ∧
             ∀ k y, L !! k = Some y → a_data a' !! Z.to_nat y = Some (C k)) (length L) 0 l a Hl)
    as (l' & t & R & D & Hl' & K & _ & _ & Hdt' & _); [done| |].
  - intros j l1 a1 Hj Hl1 (I1 & I2 & I3 & I4). destruct (lookup_lt_is_Some_2 L j) as [y Hy]; [lia|].
    destruct (write_log_block_spec l1 a1 start size L N j y (C j) Hl1 Hg I1 I2 Hy) as (l2 & t2 & R2 & D2 & Hl2 & K2).
    { rewrite I3. pose proof (size_list_le L). lia. }
    { rewrite I3. apply elem_of_list_to_set. by eapply list_elem_of_lookup_2. }
    { by apply I4. }
    exists l2, t2. split_and!; try done; simpl.
    + by rewrite length_insert.
    + rewrite I3. apply set_eq. intros z. rewrite elem_of_difference, elem_of_singleton, elem_of_list_to_set.
      split; [naive_solver|]. intros Hz. split; [done|]. intros ->.
      apply list_elem_of_lookup in Hz as [k Hk]. pose proof (geometry_block _ _ _ _ _ _ Hg Hk).
      destruct Hg. lia.
    + intros k z Hk. pose proof (geometry_block _ _ _ _ _ _ Hg Hk). destruct Hg.
      rewrite list_lookup_insert_ne by lia. by apply I4.
  - exists l', t. split_and!; try done. unfold write_log. rewrite bind_get, (lr_n _ _ _ _ _ Hl), Nat2Z.id. done.
Qed.

(** The dirty blocks before turn [k] of [install_trans]: in a commit the
    blocks that are still to be installed, in recovery none. *)
Definition pending (recovering : bool) (L : list Z) (k : nat) : gset Z :=
  if recovering then ∅ else list_to_set (drop k L).

Lemma pending_facts recovering L k y :
  NoDup L → (length L < NBUF)%nat → L !! k = Some y →
  pending recovering L (S k) = pending recovering L k ∖ {[y]} ∧ (base.size (pending recovering L k) < NBUF)%nat ∧
  (y ∈ pending recovering L k ∨ (base.size (pending recovering L k) + 1 < NBUF)%nat) ∧
  pending recovering L k ⊆ list_to_set L.
Proof.
  intros Hnd Hlen Hk. unfold pending. destruct recovering.
  - rewrite size_empty. unfold NBUF, MAXOPBLOCKS. split_and!; [set_solver|lia|right; lia|set_solver].
  - rewrite (drop_S L y k Hk). simpl. assert (y ∉ drop (S k) L) as Hny.
    { rewrite <- (take_drop (S k) L) in Hnd. apply NoDup_app in Hnd as (_ & Hd & _). apply Hd.
      rewrite (take_S_r L k y Hk). set_solver. }
    pose proof (size_list_le (drop k L)) as Hs. rewrite length_drop, (drop_S L y k Hk) in Hs. simpl in Hs.
    split_and!; [set_solver|lia|left; set_solver|].
    rewrite <- (take_drop (S k) L) at 2. rewrite (take_S_r L k y Hk). set_solver.
Qed.

Lemma install_trans_spec recovering l a start size L N (C : nat → list Z) :
  lrep l a start size L → geometry start size N L → length (a_disk a) = N → a_locked a = ∅ →
  a_dirty a = pending recovering L 0 →
  (∀ k, (k < length L)%nat → a_data a !! Z.to_nat (start + Z.of_nat k + 1) = Some (C k)) →
  ∃ l' t, install_trans l = Ret tt l' t ∧ dwrites t = home_writes L C ∧
    lrep l' (exec (home_writes L C) a) start size L ∧ keeps l l' ∧ a_dirty (exec (home_writes L C) a) = ∅.
Proof.
  intros Hl Hg HN Hnl Hdt HC. pose proof (geometry_small _ _ _ _ Hg) as Hsm.
  destruct (foreach_exec start size L install_block (λ k, (default 0 (L !! k), C k))
    (λ j a', length (a_disk a') = N ∧ a_locked a' = ∅ ∧ a_dirty a' = pending recovering L j ∧
             ∀ k, (k < length L)%nat → a_data a' !! Z.to_nat (start + Z.of_nat k + 1) = Some (C k)) (length L) 0 l a Hl)
    as (l' & t & R & D & Hl' & K & _ & _ & Hdt' & _); [done| |].
  - intros j l1 a1 Hj Hl1 (I1 & I2 & I3 & I4). destruct (lookup_lt_is_Some_2 L j) as [y Hy]; [lia|].
    destruct (pending_facts recovering L j y (ge_nodup _ _ _ _ Hg) Hsm Hy) as (P1 & P2 & P3 & P4).
    pose proof (geometry_block _ _ _ _ _ _ Hg Hy) as Hgy.
    destruct (install_block_spec l1 a1 start size L N j y (C j) Hl1 Hg I1 I2 Hy) as (l2 & t2 & R2 & D2 & Hl2 & K2).
    { by rewrite I3. } { by rewrite I3. } { apply I4. lia. }
    { rewrite I3. intros Hin. apply P4, elem_of_list_to_set, list_elem_of_lookup in Hin as [k Hk].
      pose proof (geometry_block _ _ _ _ _ _ Hg Hk). lia. }
    rewrite Hy. exists l2, t2. split_and!; try done; simpl.
    + by rewrite length_insert.
    + by rewrite I3, P1.
    + intros k Hk. destruct Hg. rewrite list_lookup_insert_ne by lia. by apply I4.
  - exists l', t. split_and!; try done; [unfold install_trans; by rewrite bind_get, (lr_n _ _ _ _ _ Hl), Nat2Z.id|].
    unfold home_writes. rewrite Hdt'. unfold pending. destruct recovering; [done|]. by rewrite drop_ge by lia.
Qed.

(** ** Commit and recovery as sequences of disk writes *)

Lemma apply_writes_app W1 W2 dk : apply_writes (W1 ++ W2) dk = apply_writes W2 (apply_writes W1 dk).
Proof. apply foldl_app. Qed.

Lemma apply_writes_ok W dk :
  Forall (λ w : Z * list Z, block_ok w.2) W → Forall block_ok dk → Forall block_ok (apply_writes W dk).
Proof.
  intros HW. revert dk. induction HW as [|w W Hw HW IH]; intros dk Hok; [done|]. simpl. apply IH.
  by apply Forall_insert.
Qed.

Lemma apply_writes_at W (dk : list (list Z)) k (x : Z) v :
  NoDup W.*1 → Forall (λ w, 0 ≤ w.1 < Z.of_nat (length dk)) W → W !! k = Some (x, v) →
  apply_writes W dk !! Z.to_nat x = Some v.
Proof.
  revert dk k. induction W as [|w W IH]; intros dk k Hnd Hall Hk; [done|].
  rewrite fmap_cons, NoDup_cons in Hnd. destruct Hnd as [Hn Hnd].
  apply Forall_cons in Hall as [Hw Hall]. destruct k as [|k]; simpl in Hk.
  - injection Hk as ->. simpl in *. rewrite apply_writes_off.
    + apply list_lookup_insert_eq. lia.
    + lia.
    + eapply Forall_impl; [exact Hall|]. simpl. lia.
    + done.
  - simpl. eapply IH; [done| |done]. eapply Forall_impl; [exact Hall|]. simpl. intros. by rewrite length_insert.
Qed.

(** The abstract cache is clean: nothing locked, dirty blocks are those of
    the log. *)
Lemma lrep_empty l a start size L :
  lrep l a start size L → lrep (set_lhn 0 l) a start size [].
Proof. intros []. split; try done. by exists (lh_block l). Qed.

Lemma geometry_nil start size N L : geometry start size N L → geometry start size N [].
Proof. intros [G1 G2 G3 G4 G5 G6]. split; simpl; try done; [lia|constructor]. Qed.

Definition commit_writes (start : Z) (L : list Z) (C : nat → list Z) (h : list Z) : list (Z * list Z) :=
  log_writes start (length L) C ++ [(start, hdr L h)] ++ home_writes L C ++ [(start, hdr [] (hdr L h))].

Lemma log_writes_off start n C dk x :
  0 ≤ start → 0 ≤ x → ¬ (start < x ≤ start + Z.of_nat n) →
  apply_writes (log_writes start n C) dk !! Z.to_nat x = dk !! Z.to_nat x.
Proof.
  intros Hs Hx Hn. apply apply_writes_off; [done| |]; unfold log_writes.
  - apply Forall_fmap, Forall_forall. intros k Hk. simpl. lia.
  - rewrite <- list_fmap_compose. intros Hin. apply list_elem_of_fmap in Hin as (k & -> & Hk%elem_of_seq).
    simpl in Hn. lia.
Qed.

Lemma log_writes_at start n C (dk : list (list Z)) k :
  0 ≤ start → start + Z.of_nat n < Z.of_nat (length dk) → (k < n)%nat →
  apply_writes (log_writes start n C) dk !! Z.to_nat (start + Z.of_nat k + 1) = Some (C k).
Proof.
  intros Hs Hlen Hk. unfold log_writes. eapply (apply_writes_at _ _ k).
  - rewrite <- list_fmap_compose. apply NoDup_fmap_2_strong; [|apply NoDup_seq]. intros x y _ _. simpl. lia.
  - apply Forall_fmap, Forall_forall. intros j [? ?]%elem_of_seq. simpl. lia.
  - rewrite list_lookup_fmap, lookup_seq_lt by done. done.
Qed.

Lemma home_writes_fst L C : (home_writes L C).*1 = L.
Proof.
  unfold home_writes. rewrite <- list_fmap_compose. apply list_eq. intros k. rewrite list_lookup_fmap.
  destruct (decide (k < length L)%nat) as [Hk|Hk].
  - rewrite lookup_seq_lt by done. simpl. destruct (lookup_lt_is_Some_2 L k Hk) as [y Hy]. by rewrite Hy.
  - rewrite lookup_seq_ge by lia. symmetry. apply lookup_ge_None. lia.
Qed.

Lemma home_writes_off L C dk x :
  0 ≤ x → Forall (λ y, 0 ≤ y) L → x ∉ L →
  apply_writes (home_writes L C) dk !! Z.to_nat x = dk !! Z.to_nat x.
Proof.
  intros Hx HL Hn. apply apply_writes_off; [done| |by rewrite home_writes_fst].
  change (Forall ((λ y, 0 ≤ y) ∘ fst) (home_writes L C)). by rewrite <- Forall_fmap, home_writes_fst.
Qed.

Lemma home_writes_at L C (dk : list (list Z)) k y :
  NoDup L → Forall (λ y, 0 ≤ y < Z.of_nat (length dk)) L → L !! k = Some y →
  apply_writes (home_writes L C) dk !! Z.to_nat y = Some (C k).
Proof.
  intros Hnd HL Hk. eapply (apply_writes_at _ _ k).
  - by rewrite home_writes_fst.
  - change (Forall ((λ y, 0 ≤ y < Z.of_nat (length dk)) ∘ fst) (home_writes L C)).
    by rewrite <- Forall_fmap, home_writes_fst.
  - unfold home_writes. rewrite list_lookup_fmap, lookup_seq_lt by (by eapply lookup_lt_Some). simpl. by rewrite Hk.
Qed.

Lemma geometry_pos start size N L : geometry start size N L → Forall (λ y, 0 ≤ y) L.
Proof. intros [G1 G2 G3 G4 G5 G6]. eapply Forall_impl; [exact G5|]. simpl. lia. Qed.

Lemma geometry_notin start size N L x : geometry start size N L → x < start + size → x ∉ L.
Proof. intros [_ _ _ _ G5 _] Hx Hin. rewrite Forall_forall in G5. specialize (G5 x Hin). simpl in G5. lia. Qed.

Lemma commit_spec l a start size L N (C : nat → list Z) h :
  lrep l a start size L → geometry start size N L → length (a_disk a) = N → a_locked a = ∅ →
  a_dirty a = list_to_set L → (∀ k y, L !! k = Some y → a_data a !! Z.to_nat y = Some (C k)) →
  a_data a !! Z.to_nat start = Some h → L ≠ [] →
  ∃ l' t, commit l = Ret tt l' t ∧ dwrites t = commit_writes start L C h ∧
    lrep l' (exec (commit_writes start L C h) a) start size [] ∧
    l_outstanding l' = l_outstanding l ∧ l_committing l' = l_committing l ∧
    a_dirty (exec (commit_writes start L C h) a) = ∅.
Proof.
  intros Hl Hg HN Hnl Hdt HC Hh Hne. pose proof Hg as [G1 G2 G3 G4 G5 G6].
  pose proof (geometry_small _ _ _ _ Hg) as Hsm.
  assert (length (a_data a) = N) as HNd by (by rewrite (c_len _ _ (br_content _ _ (lr_bio _ _ _ _ _ Hl)))).
  destruct (write_log_spec l a start size L N C Hl Hg HN Hnl Hdt HC) as (l1 & t1 & R1 & D1 & Hl1 & K1 & Hd1).
  set (a1 := exec (log_writes start (length L) C) a) in *.
  assert (a_data a1 !! Z.to_nat start = Some h) as Hh1.
  { unfold a1. rewrite exec_data, log_writes_off; [done|lia|lia|lia]. }
  destruct (write_head_spec l1 a1 start size L N h Hl1 Hg) as (l2 & t2 & R2 & D2 & Hl2 & K2); try done.
  { unfold a1. by rewrite exec_disk, length_apply_writes. }
  { unfold a1. by rewrite exec_locked. }
  { rewrite Hd1. pose proof (size_list_le L). lia. }
  set (a2 := a_store a1 (start, hdr L h)) in *.
  destruct (install_trans_spec false l2 a2 start size L N C Hl2 Hg) as (l3 & t3 & R3 & D3 & Hl3 & K3 & Hd3).
  { simpl. unfold a1. by rewrite length_insert, exec_disk, length_apply_writes. }
  { simpl. unfold a1. by rewrite exec_locked. }
  { simpl. rewrite Hd1, drop_0. apply set_eq. intros z. rewrite elem_of_difference, elem_of_singleton, elem_of_list_to_set.
    split; [naive_solver|]. intros Hz. split; [done|]. intros ->. revert Hz. by eapply geometry_notin; [done|lia]. }
  { intros k Hk. simpl. rewrite list_lookup_insert_ne by lia. unfold a1. rewrite exec_data.
    apply log_writes_at; lia. }
  set (a3 := exec (home_writes L C) a2) in *.
  assert (a_data a3 !! Z.to_nat start = Some (hdr L h)) as Hh3.
  { unfold a3. rewrite exec_data, home_writes_off; [|lia|by eapply geometry_pos|by eapply geometry_notin; [done|lia]].
    simpl. apply list_lookup_insert_eq. unfold a1. rewrite exec_data, length_apply_writes. lia. }
  destruct (write_head_spec (set_lhn 0 l3) a3 start size [] N (hdr L h)) as (l4 & t4 & R4 & D4 & Hl4 & K4); try done.
  { by eapply lrep_empty. } { by eapply geometry_nil. }
  { unfold a3. rewrite exec_disk, length_apply_writes. simpl. unfold a1.
    by rewrite length_insert, exec_disk, length_apply_writes. }
  { unfold a3, a2, a1. rewrite exec_locked. simpl. by rewrite exec_locked. }
  { rewrite Hd3, size_empty. unfold NBUF, MAXOPBLOCKS. lia. }
  assert (exec (commit_writes start L C h) a = a_store a3 (start, hdr [] (hdr L h))) as Hex.
  { unfold commit_writes. rewrite !exec_app. done. }
  exists l4, (t1 ++ t2 ++ t3 ++ t4). rewrite Hex. split_and!; try done.
  - unfold commit. rewrite bind_get, (lr_n _ _ _ _ _ Hl), bool_decide_true by (destruct L; [done|simpl; lia]).
    rewrite (bind_run _ _ _ _ _ _ R1), (bind_run _ _ _ _ _ _ R2), (bind_run _ _ _ _ _ _ R3), bind_modify, R4.
    rewrite !prepend_prepend. simpl. by rewrite <- !(assoc_L (++)).
  - rewrite !dwrites_app, D1, D2, D3, D4. done.
  - rewrite K4. simpl. rewrite K3, K2, K1. done.
  - rewrite K4. simpl. rewrite K3, K2, K1. done.
  - simpl. rewrite Hd3. set_solver.
Qed.

(** A kernel that has just booted on a disk: [binit] done, [log] zeroed. *)
Definition fresh (disk : list (list Z)) : lstate :=
  LState (booted disk 1) false 0 0 0 false 0 0 (replicate LOGSIZE 0).

(** A disk with a log: super block, header for [L], geometry. *)
Record log_disk (dk : list (list Z)) (start size : Z) (L : list Z) (h : list Z) : Prop := LogDisk {
  ld_blocks : Forall block_ok dk;
  ld_sb : ∃ sbd, dk !! 1%nat = Some sbd ∧ sb_logstart (superblock_of sbd) = start ∧ sb_nlog (superblock_of sbd) = size;
  ld_head : dk !! Z.to_nat start = Some h;
  ld_is : header_is h L;
  ld_geo : geometry start size (length dk) L
}.

Lemma readsb_spec s a sbd :
  brep s a → a_locked a = ∅ → (base.size (a_dirty a) < NBUF)%nat → 1 ∉ a_dirty a →
  a_data a !! 1%nat = Some sbd →
  ∃ s' t, readsb 1 s = Ret (superblock_of sbd) s' t ∧ dwrites t = [] ∧ brep s' a.
Proof.
  intros Hb Hnl Hroom Hnd Hd. pose proof (br_content _ _ Hb) as Hc.
  destruct (bread_spec s a 1 Hb) as (i & b1 & R1 & B1 & _); [by rewrite Hnl| | |].
  { apply lookup_lt_Some in Hd. rewrite (c_len _ _ Hc) in Hd. lia. }
  { apply room_small. by rewrite Hnl, dom_empty_L, (right_id_L ∅ (∪)). }
  assert (a_locked (a_lock 1 i a) !! 1 = Some i) as Lx by (simpl; by rewrite lookup_insert_eq).
  pose proof (bdata_get_spec b1 _ 1 i sbd B1 Lx Hd) as R2.
  destruct (brelse_spec b1 _ 1 i B1 Lx) as (b3 & R3 & B3 & _).
  { right. simpl. apply (c_clean _ _ Hc 1); [lia|done|by rewrite Hnl]. }
  exists b3. eexists. split_and!.
  - unfold readsb. mstep R1. mstep R2. mstep R3. reflexivity.
  - done.
  - replace a with (a_unlock 1 (a_lock 1 i a)); [done|].
    unfold a_unlock, a_lock. cbn [a_data a_disk a_dirty a_locked]. rewrite Hnl, delete_insert_id by done.
    rewrite <- Hnl. by destruct a.
Qed.

(** The log contents on a disk. *)
Definition logged (dk : list (list Z)) (start : Z) (k : nat) : list Z :=
  default [] (dk !! Z.to_nat (start + Z.of_nat k + 1)).
Definition recovery_writes (dk : list (list Z)) (start : Z) (L : list Z) (h : list Z) : list (Z * list Z) :=
  home_writes L (logged dk start) ++ [(start, hdr [] h)].

(** [initlog] on a cache [b0] that has read but not changed the disk. *)
Lemma initlog_from b0 dk start size L h :
  log_disk dk start size L h → brep b0 (a_boot dk) →
  ∃ l t, initlog 1 (set_lbio b0 (fresh dk)) = Ret tt l t ∧ dwrites t = recovery_writes dk start L h ∧
    memdisk (l_bio l) = apply_writes (recovery_writes dk start L h) dk ∧
    lrep l (exec (recovery_writes dk start L h) (a_boot dk)) start size [] ∧
    l_outstanding l = 0 ∧ l_committing l = false ∧
    a_dirty (exec (recovery_writes dk start L h) (a_boot dk)) = ∅.
Proof.
  intros [Hok (sbd & Hsb & Hst & Hsz) Hh His Hg] Hb. pose proof Hg as [G1 G2 G3 G4 G5 G6].
  assert (base.size (∅ : gset Z) < NBUF)%nat as Hroom by (rewrite size_empty; unfold NBUF, MAXOPBLOCKS; lia).
  destruct (readsb_spec b0 (a_boot dk) sbd Hb eq_refl Hroom) as (b1 & t1 & R1 & D1 & B1); [set_solver|done|].
  set (l1 := set_ldev 1 (set_lsize size (set_lstart start (set_lbio b1 (fresh dk))))).
  destruct (read_head_spec l1 (a_boot dk) start size L (length dk) h) as (l2 & t2 & R2 & D2 & Hl2 & K2 & K2'); try done.
  destruct (install_trans_spec true l2 (a_boot dk) start size L (length dk) (logged dk start) Hl2 Hg)
    as (l3 & t3 & R3 & D3 & Hl3 & K3 & Hd3); try done.
  { intros k Hk. simpl. unfold logged. destruct (lookup_lt_is_Some_2 dk (Z.to_nat (start + Z.of_nat k + 1))) as [c Hc];
      [lia|]. by rewrite Hc. }
  set (a3 := exec (home_writes L (logged dk start)) (a_boot dk)) in *.
  destruct (write_head_spec (set_lhn 0 l3) a3 start size [] (length dk) h) as (l4 & t4 & R4 & D4 & Hl4 & K4).
  { by eapply lrep_empty. } { by eapply geometry_nil. }
  { unfold a3. by rewrite exec_disk, length_apply_writes. } { unfold a3. by rewrite exec_locked. } { by rewrite Hd3. }
  { unfold a3. rewrite exec_data, home_writes_off; [done|lia|by eapply geometry_pos|by eapply geometry_notin; [done|lia]]. }
  assert (exec (recovery_writes dk start L h) (a_boot dk) = a_store a3 (start, hdr [] h)) as Hex.
  { unfold recovery_writes. by rewrite exec_app. }
  exists l4, (t1 ++ t2 ++ t3 ++ t4). rewrite Hex. split_and!; try done.
  - unfold initlog. rewrite (bool_decide_false (BSIZE ≤ _)) by (unfold BSIZE, sizeof_logheader, LOGSIZE, MAXOPBLOCKS; lia).
    cbn [panic_if]. rewrite bind_mret, bind_modify.
    rewrite (bind_run _ _ _ _ _ _ (on_bio_run _ (set_lheld false (set_lbio b0 (fresh dk))) _ _ _ R1)).
    rewrite Hst, Hsz, !i32_small by (unfold LOGSIZE, MAXOPBLOCKS in *; lia). rewrite !bind_modify. unfold recover_from_log.
    rewrite (bind_run _ _ l1 _ _ _ R2), (bind_run _ _ _ _ _ _ R3), bind_modify, R4.
    rewrite !prepend_prepend. simpl. by rewrite <- !(assoc_L (++)).
  - by rewrite !dwrites_app, D1, D2, D3, D4.
  - rewrite (br_disk _ _ (lr_bio _ _ _ _ _ Hl4)), <- Hex, exec_disk. done.
  - rewrite K4. simpl. rewrite K3. simpl. by rewrite K2.
  - rewrite K4. simpl. rewrite K3. simpl. by rewrite K2'.
  - simpl. rewrite Hd3. set_solver.
Qed.

Lemma initlog_spec dk start size L h :
  log_disk dk start size L h →
  ∃ l t, initlog 1 (fresh dk) = Ret tt l t ∧ dwrites t = recovery_writes dk start L h ∧
    memdisk (l_bio l) = apply_writes (recovery_writes dk start L h) dk ∧
    lrep l (exec (recovery_writes dk start L h) (a_boot dk)) start size [] ∧
    l_outstanding l = 0 ∧ l_committing l = false ∧
    a_dirty (exec (recovery_writes dk start L h) (a_boot dk)) = ∅.
Proof. intros H. exact (initlog_from (booted dk 1) dk start size L h H (booted_brep dk 1 (ld_blocks _ _ _ _ _ H))). Qed.

(** ** Crashes *)

(** The disk that recovery leaves after a boot on [dk]. *)
Definition recovered (dk r : list (list Z)) : Prop :=
  ∃ l t, initlog 1 (fresh dk) = Ret tt l t ∧ memdisk (l_bio l) = r.

(** The two disks agree on every block outside the log. *)
Definition agree_off_log (start size : Z) (d1 d2 : list (list Z)) : Prop :=
  ∀ x, 0 ≤ x → ¬ (start ≤ x < start + size) → d1 !! Z.to_nat x = d2 !! Z.to_nat x.

Lemma recovered_spec dk start size L h :
  log_disk dk start size L h →
  let r := apply_writes (recovery_writes dk start L h) dk in
  recovered dk r ∧
  (∀ k y, L !! k = Some y → r !! Z.to_nat y = dk !! Z.to_nat (start + Z.of_nat k + 1)) ∧
  (∀ x, 0 ≤ x → x ≠ start → x ∉ L → r !! Z.to_nat x = dk !! Z.to_nat x) ∧
  log_disk r start size [] (hdr [] h).
Proof.
  intros Hld r. destruct (initlog_spec dk start size L h Hld) as (l & t & R & D & Hm & _).
  pose proof Hld as [Hok (sbd & Hsb & Hst & Hsz) Hh His Hg]. pose proof Hg as [G1 G2 G3 G4 G5 G6].
  pose proof (geometry_pos _ _ _ _ Hg) as Hpos.
  assert (∀ x, 0 ≤ x → x ≠ start → x ∉ L → r !! Z.to_nat x = dk !! Z.to_nat x) as Hoff.
  { intros x Hx Hxs HxL. unfold r, recovery_writes. rewrite apply_writes_app. simpl.
    rewrite list_lookup_insert_ne by lia. by apply home_writes_off. }
  assert (length r = length dk) as Hlen by (unfold r; apply length_apply_writes).
  assert (block_ok h) as Hokh by (by eapply Forall_lookup_1; [exact Hok|]).
  assert (∀ k y, L !! k = Some y → r !! Z.to_nat y = dk !! Z.to_nat (start + Z.of_nat k + 1)) as Hin.
  { intros k y Hk. pose proof (geometry_block _ _ _ _ _ _ Hg Hk). unfold r, recovery_writes. rewrite apply_writes_app. simpl.
    rewrite list_lookup_insert_ne by lia. rewrite (home_writes_at L _ dk k y); [|done| |done].
    - unfold logged. destruct (lookup_lt_is_Some_2 dk (Z.to_nat (start + Z.of_nat k + 1))) as [c Hc]; [lia|]. by rewrite Hc.
    - eapply Forall_impl; [exact G5|]. simpl. lia. }
  split_and!; [by exists l, t|done|done|]. split.
  - apply Forall_lookup. intros i c Hc.
    destruct (decide (Z.of_nat i = start)) as [Hi|Hi].
    { unfold r, recovery_writes in Hc. rewrite apply_writes_app in Hc. simpl in Hc.
      replace i with (Z.to_nat start) in Hc by lia. rewrite list_lookup_insert_eq in Hc by (rewrite length_apply_writes; lia).
      injection Hc as <-. apply hdr_ok; [simpl; lia|done]. }
    replace i with (Z.to_nat (Z.of_nat i)) in Hc by lia.
    destruct (decide (Z.of_nat i ∈ L)) as [HiL|HiL].
    + apply list_elem_of_lookup in HiL as [k Hk]. rewrite (Hin k _ Hk) in Hc. by eapply Forall_lookup_1.
    + rewrite Hoff in Hc by (lia || done). by eapply Forall_lookup_1.
  - exists sbd. split; [|done]. change 1%nat with (Z.to_nat 1). rewrite Hoff; [done|lia|lia|].
    eapply geometry_notin; [done|lia].
  - unfold r, recovery_writes. rewrite apply_writes_app. simpl. apply list_lookup_insert_eq. rewrite length_apply_writes. lia.
  - apply hdr_is; [simpl; lia|constructor|done].
  - rewrite Hlen. by eapply geometry_nil.
Qed.

Lemma recovered_unique dk r1 r2 : recovered dk r1 → recovered dk r2 → r1 = r2.
Proof. intros (l1 & t1 & R1 & <-) (l2 & t2 & R2 & <-). congruence. Qed.

(** Some of the blocks already installed: recovery gives the same disk. *)
Lemma partial_install dk start size L h j (C := logged dk start) :
  log_disk dk start size L h → (j ≤ length L)%nat →
  let d := apply_writes (take j (home_writes L C)) dk in
  log_disk d start size L h ∧
  ∃ r r', recovered dk r ∧ recovered d r' ∧ agree_off_log start size r r'.
Proof.
  intros Hld Hj d. pose proof Hld as [Hok (sbd & Hsb & Hst & Hsz) Hh His Hg]. pose proof Hg as [G1 G2 G3 G4 G5 G6].
  pose proof (geometry_pos _ _ _ _ Hg) as Hpos.
  assert (∀ x, 0 ≤ x → x ∉ L → d !! Z.to_nat x = dk !! Z.to_nat x) as Hoff.
  { intros x Hx HxL. apply apply_writes_off; [done| |].
    - apply Forall_take. change (Forall ((λ y, 0 ≤ y) ∘ fst) (home_writes L C)). by rewrite <- Forall_fmap, home_writes_fst.
    - rewrite fmap_take, home_writes_fst. intros Hin. apply HxL.
      rewrite <- (take_drop j L). set_solver. }
  assert (length d = length dk) as Hlen by apply length_apply_writes.
  assert (log_disk d start size L h) as Hld'.
  { split.
    - unfold d. assert (Forall (λ w : Z * list Z, block_ok w.2) (take j (home_writes L C))) as HW.
      { apply Forall_take, Forall_fmap, Forall_forall. intros k [? ?]%elem_of_seq. simpl. unfold C, logged.
        destruct (lookup_lt_is_Some_2 dk (Z.to_nat (start + Z.of_nat k + 1))) as [c Hc]; [lia|]. rewrite Hc. simpl.
        by eapply Forall_lookup_1. }
      by apply apply_writes_ok.
    - exists sbd. split; [|done]. change 1%nat with (Z.to_nat 1). rewrite Hoff; [done|lia|]. eapply geometry_notin; [done|lia].
    - rewrite Hoff; [done|lia|]. eapply geometry_notin; [done|lia].
    - done.
    - by rewrite Hlen. }
  split; [done|]. destruct (recovered_spec dk start size L h Hld) as (R1 & I1 & O1 & _).
  destruct (recovered_spec d start size L h Hld') as (R2 & I2 & O2 & _).
  eexists _, _. split_and!; [exact R1|exact R2|]. intros x Hx Hnl.
  destruct (decide (x ∈ L)) as [HxL|HxL].
  - apply list_elem_of_lookup in HxL as [k Hk]. rewrite (I1 k x Hk), (I2 k x Hk). symmetry. apply Hoff; [lia|].
    pose proof (geometry_block _ _ _ _ _ _ Hg Hk). eapply geometry_notin; [done|lia].
  - rewrite O1, O2 by (lia || done). symmetry. by apply Hoff.
Qed.

Lemma agree_off_log_trans start size d1 d2 d3 :
  agree_off_log start size d1 d2 → agree_off_log start size d2 d3 → agree_off_log start size d1 d3.
Proof. intros H1 H2 x Hx Hn. rewrite H1 by done. by apply H2. Qed.
Lemma agree_off_log_sym start size d1 d2 : agree_off_log start size d1 d2 → agree_off_log start size d2 d1.
Proof. intros H x Hx Hn. symmetry. by apply H. Qed.

(** With an empty log recovery changes nothing outside the log. *)
Lemma recover_empty dk start size h :
  log_disk dk start size [] h → ∃ r, recovered dk r ∧ agree_off_log start size r dk.
Proof.
  intros Hld. destruct (recovered_spec dk start size [] h Hld) as (R & _ & O & _).
  eexists. split; [exact R|]. intros x Hx Hn. destruct (ld_geo _ _ _ _ _ Hld).
  apply O; [done|lia|set_solver].
Qed.

(** A crash during recovery, at any of its writes, is harmless. *)
Lemma recovery_crash dk start size L h :
  log_disk dk start size L h →
  ∃ l t, initlog 1 (fresh dk) = Ret tt l t ∧
    ∀ j, ∃ r, recovered (apply_writes (take j (dwrites t)) dk) r ∧ agree_off_log start size (memdisk (l_bio l)) r.
Proof.
  intros Hld. destruct (initlog_spec dk start size L h Hld) as (l & t & R & D & Hm & _).
  exists l, t. split; [done|]. intros j. rewrite D.
  assert (length (home_writes L (logged dk start)) = length L) as HlW by (rewrite <- (home_writes_fst L (logged dk start)) at 2; by rewrite length_fmap).
  destruct (decide (j ≤ length L)%nat) as [Hj|Hj].
  - unfold recovery_writes. rewrite take_app_le by lia.
    destruct (partial_install dk start size L h j Hld Hj) as (_ & r & r' & R1 & R2 & Ha).
    exists r'. split; [done|]. replace (memdisk (l_bio l)) with r; [done|].
    apply (recovered_unique dk); [done|]. by exists l, t.
  - rewrite take_ge by (unfold recovery_writes; rewrite length_app; simpl; lia).
    destruct (recovered_spec dk start size L h Hld) as (_ & _ & _ & Hld').
    destruct (recover_empty _ _ _ _ Hld') as (r & R2 & Ha). exists r. split; [done|].
    rewrite Hm. by apply agree_off_log_sym.
Qed.

(** The state in which the last [end_op] commits: the header in memory lists
    the dirty blocks, no buffer is locked, and the log on disk is empty. *)
Record txn_ready (l : lstate) (a : acache) (start size : Z) (L : list Z) (h : list Z) : Prop := TxnReady {
  tr_rep : lrep l a start size L;
  tr_geo : geometry start size (length (a_disk a)) L;
  tr_locked : a_locked a = ∅;
  tr_dirty : a_dirty a = list_to_set L;
  tr_disk : log_disk (a_disk a) start size [] h
}.

Definition txn_content (a : acache) (L : list Z) (k : nat) : list Z :=
  default [] (L !! k ≫= λ y, a_data a !! Z.to_nat y).

Section crash.
  Context (l : lstate) (a : acache) (start size : Z) (L : list Z) (h : list Z).
  Context (Ht : txn_ready l a start size L h).
Let C := txn_content a L.
Let D0 := a_disk a.

Lemma txn_facts :
  (∀ k y, L !! k = Some y → a_data a !! Z.to_nat y = Some (C k)) ∧
  a_data a !! Z.to_nat start = Some h ∧ (∀ k, (k < length L)%nat → block_ok (C k)) ∧ block_ok h ∧
  (∀ x, 0 ≤ x → x ∉ L → a_data a !! Z.to_nat x = D0 !! Z.to_nat x).
Proof.
  destruct Ht as [[Hb _ _ _ _ _ _ _] Hg Hnl Hd [Hok Hsb Hh His _]]. pose proof (br_content _ _ Hb) as Hc.
  assert (∀ x, 0 ≤ x → x ∉ L → a_data a !! Z.to_nat x = D0 !! Z.to_nat x) as Hcl.
  { intros x Hx HxL. apply (c_clean _ _ Hc); [done| |by rewrite Hnl]. rewrite Hd. by rewrite elem_of_list_to_set. }
  assert (∀ k y, L !! k = Some y → a_data a !! Z.to_nat y = Some (C k)) as HC.
  { intros k y Hk. unfold C, txn_content. rewrite Hk. simpl. pose proof (geometry_block _ _ _ _ _ _ Hg Hk). destruct Hg.
    destruct (lookup_lt_is_Some_2 (a_data a) (Z.to_nat y)) as [c Hcy]; [rewrite (c_len _ _ Hc); lia|]. by rewrite Hcy. }
  destruct Hg as [G1 G2 G3 G4 G5 G6].
  split_and!; try done.
  - rewrite Hcl; [done|lia|]. intros Hin. rewrite Forall_forall in G5. specialize (G5 _ Hin). simpl in G5. lia.
  - intros k Hk. destruct (lookup_lt_is_Some_2 L k Hk) as [y Hy].
    exact (Forall_lookup_1 _ _ _ _ (proj1 (c_blocks _ _ Hc)) (HC k y Hy)).
  - by eapply Forall_lookup_1.
Qed.

Lemma length_log_writes : length (log_writes start (length L) C) = length L.
Proof. unfold log_writes. by rewrite length_fmap, length_seq. Qed.

(** Before the header is written: the old contents. *)
Lemma crash_before k :
  (k ≤ length L)%nat → log_disk (apply_writes (take k (log_writes start (length L) C)) D0) start size [] h ∧
  agree_off_log start size (apply_writes (take k (log_writes start (length L) C)) D0) D0.
Proof.
  intros Hk. destruct txn_facts as (HC & Hh & HCok & Hhok & Hcl).
  destruct Ht as [_ Hg _ _ [Hok (sbd & Hsb & Hst & Hsz) Hhd His Hg0]]. pose proof Hg as [G1 G2 G3 G4 G5 G6].
  assert (take k (log_writes start (length L) C) = log_writes start k C) as ->.
  { unfold log_writes. by rewrite <- fmap_take, take_seq, Nat.min_l. }
  assert (∀ x, 0 ≤ x → ¬ (start < x < start + size) →
    apply_writes (log_writes start k C) D0 !! Z.to_nat x = D0 !! Z.to_nat x) as Hoff.
  { intros x Hx Hn. apply log_writes_off; lia. }
  split; [|intros x Hx Hn; apply Hoff; lia]. split.
  - apply apply_writes_ok; [|done]. apply Forall_fmap, Forall_forall. intros j [? ?]%elem_of_seq. apply HCok. lia.
  - exists sbd. split; [|done]. change 1%nat with (Z.to_nat 1). rewrite Hoff; [done|lia|lia].
  - rewrite Hoff; [done|lia|lia].
  - done.
  - by rewrite length_apply_writes.
Qed.

(** The disk at the commit point. *)
Definition commit_point : list (list Z) :=
  apply_writes (log_writes start (length L) C ++ [(start, hdr L h)]) D0.

Lemma commit_point_facts :
  log_disk commit_point start size L (hdr L h) ∧
  (∀ k, (k < length L)%nat → logged commit_point start k = C k) ∧
  ∃ r, recovered commit_point r ∧ agree_off_log start size r (a_data a).
Proof.
  destruct txn_facts as (HC & Hh & HCok & Hhok & Hcl).
  destruct (crash_before (length L)) as [[Hok (sbd & Hsb & Hst & Hsz) Hhd His Hg0] Hag]; [done|].
  rewrite take_ge in * by (by rewrite length_log_writes). set (D1 := apply_writes _ D0) in *.
  pose proof (tr_geo _ _ _ _ _ _ Ht) as Hg. pose proof Hg as [G1 G2 G3 G4 G5 G6].
  assert (length D1 = length D0) as Hlen by apply length_apply_writes.
  assert (commit_point = <[Z.to_nat start := hdr L h]> D1) as Hcp by (unfold commit_point; by rewrite apply_writes_app).
  assert (length L < 127)%nat as HL by (unfold LOGSIZE, MAXOPBLOCKS in *; lia).
  assert (log_disk commit_point start size L (hdr L h)) as Hld.
  { rewrite Hcp. split.
    - apply Forall_insert; [done|]. by apply hdr_ok.
    - exists sbd. split; [|done]. rewrite list_lookup_insert_ne by lia. done.
    - apply list_lookup_insert_eq. unfold D0 in *. lia.
    - apply hdr_is; [done| |done]. eapply Forall_impl; [exact G5|]. simpl. unfold D0 in *. lia.
    - rewrite length_insert, Hlen. done. }
  assert (∀ k, (k < length L)%nat → commit_point !! Z.to_nat (start + Z.of_nat k + 1) = Some (C k)) as Hlog.
  { intros k Hk. rewrite Hcp, list_lookup_insert_ne by lia. unfold D1. apply log_writes_at; unfold D0; lia. }
  split; [done|]. split; [intros k Hk; unfold logged; by rewrite Hlog|].
  destruct (recovered_spec _ _ _ _ _ Hld) as (R & I & O & _). eexists. split; [exact R|]. intros x Hx Hn.
  destruct (decide (x ∈ L)) as [HxL|HxL].
  - apply list_elem_of_lookup in HxL as [k Hk]. rewrite (I k x Hk), (HC k x Hk). apply Hlog. by eapply lookup_lt_Some.
  - rewrite O by (lia || done). rewrite Hcl by done. rewrite Hcp, list_lookup_insert_ne by lia. apply Hag; [done|lia].
Qed.

(** After the header is written: the new contents. *)
Lemma crash_after j :
  ∃ L' h', log_disk (apply_writes (take j (home_writes L C ++ [(start, hdr [] (hdr L h))])) commit_point) start size L' h' ∧
  ∃ r, recovered (apply_writes (take j (home_writes L C ++ [(start, hdr [] (hdr L h))])) commit_point) r ∧
    agree_off_log start size r (a_data a).
Proof.
  destruct commit_point_facts as (Hld & Hlog & r & R & Ha).
  assert (home_writes L C = home_writes L (logged commit_point start)) as HW.
  { unfold home_writes. apply list_fmap_ext. intros i k Hk. apply lookup_seq in Hk as [-> Hi]. simpl.
    by rewrite Hlog. }
  assert (length (home_writes L C) = length L) as HlW by (rewrite <- (home_writes_fst L C) at 2; by rewrite length_fmap).
  destruct (decide (j ≤ length L)%nat) as [Hj|Hj].
  - rewrite take_app_le by lia. rewrite HW.
    destruct (partial_install _ start size L _ j Hld Hj) as (Hld' & r1 & r2 & R1 & R2 & Ha').
    exists L, (hdr L h). split; [done|]. exists r2. split; [done|].
    rewrite (recovered_unique _ _ _ R1 R) in Ha'. eapply agree_off_log_trans; [by apply agree_off_log_sym|done].
  - rewrite take_ge by (rewrite length_app; simpl; lia). rewrite HW.
    destruct (recovered_spec _ start size L _ Hld) as (R1 & _ & _ & Hld').
    exists [], (hdr [] (hdr L h)). split; [done|].
    destruct (recover_empty _ _ _ _ Hld') as (r2 & R2 & Ha2). exists r2. split; [done|].
    eapply agree_off_log_trans; [done|]. by rewrite <- (recovered_unique _ _ _ R R1).
Qed.
End crash.

(** ** [log_write] and the operations around it *)

(** The header after logging block [x]. *)
Definition absorb (x : Z) (L : list Z) : list Z := if bool_decide (x ∈ L) then L else L ++ [x].

Lemma log_find_spec x L rest :
  Forall (λ y, u32 y = y) L →
  log_find (L ++ rest) x (length L) =
    match list_find (x =.) L with Some (i, _) => i | None => length L end.
Proof.
  induction 1 as [|y L Hy HL IH]; cbn [log_find length app list_find]; [by destruct rest|].
  rewrite Hy. destruct (decide (x = y)) as [->|Hne].
  - by rewrite bool_decide_true.
  - rewrite bool_decide_false by congruence. rewrite IH. destruct (list_find (x =.) L) as [[i z]|] eqn:E; simpl; by rewrite E || done.
Qed.

Lemma log_write_spec l a start size L N x b :
  lrep l a start size L → Forall (λ y, 0 ≤ y < Z.of_nat N) L → Z.of_nat N < 2147483648 → 0 ≤ x < Z.of_nat N →
  a_locked a !! x = Some b → 1 ≤ l_outstanding l → (length L < LOGSIZE)%nat → Z.of_nat (length L) < size - 1 →
  ∃ l', log_write b l = Ret tt l' [] ∧ lrep l' (a_mark x a) start size (absorb x L) ∧
    l_outstanding l' = l_outstanding l ∧ l_committing l' = l_committing l.
Proof.
  intros Hl HL HN Hx Hb Hout Hlen Hsz. pose proof Hl as [Hbr Hh Hdev Hst Hs Hn Hlb [rest Hr]].
  destruct (blockno_spec (l_bio l) a x b Hbr Hb) as (bf & R1 & Hbf).
  destruct (bmark_spec (l_bio l) a x b Hbr Hb) as (b2 & R2 & B2 & _).
  assert (Forall (λ y, u32 y = y) L) as HLu by (eapply Forall_impl; [exact HL|]; simpl; intros; apply u32_small; lia).
  set (i := match list_find (x =.) L with Some (i, _) => i | None => length L end).
  assert (log_find (lh_block l) x (length L) = i) as Hfind by (rewrite Hr; by apply log_find_spec).
  assert (i < length (lh_block l))%nat as Hi.
  { rewrite Hlb. unfold i. destruct (list_find (x =.) L) as [[j z]|] eqn:E; [|done].
    apply list_find_Some in E as (E & _ & _). apply lookup_lt_Some in E. lia. }
  destruct (lookup_lt_is_Some_2 _ _ Hi) as [old Hold].
  set (bl := <[i := x]> (lh_block l)).
  set (n' := if bool_decide (Z.of_nat i = lh_n l) then lh_n l + 1 else lh_n l).
  exists (set_lbio b2 (set_lhn n' (set_lhblock bl l))). split_and!; [| |done|done].
  - unfold log_write. rewrite bind_get, Hn, Hs.
    rewrite !bool_decide_false by lia. cbn [orb panic_if]. rewrite !bind_mret.
    unfold log_acquire. mstep (lk_acquire_run l_held set_lheld l Hh).
    mstep (on_bio_run _ (set_lheld true l) _ _ _ R1). rewrite Hbf, Nat2Z.id, Hfind, i32_small by lia.
    replace (set_lbio (l_bio l) (set_lheld true l)) with (set_lheld true l) by (by destruct l).
    unfold lhblock_set at 1. rewrite (bind_run _ _ (set_lheld true l) tt (set_lhblock bl (set_lheld true l)) []), prepend_nil.
    2: { rewrite (bind_run _ _ _ old _ [] (lhblock_get_run (set_lheld true l) i old Hold)), prepend_nil. done. }
    rewrite <- Hn. rewrite (bind_run _ _ _ tt (set_lhn n' (set_lhblock bl (set_lheld true l))) []), prepend_nil.
    2: { unfold n'. case_bool_decide; [done|]. by destruct l. }
    mstep (on_bio_run _ (set_lhn n' (set_lhblock bl (set_lheld true l))) _ _ _ R2).
    unfold log_release. rewrite lk_release_run by done. destruct l; simpl in *. by rewrite Hh.
  - split; simpl; try done.
    + unfold n', absorb. rewrite Hn. unfold i. destruct (list_find (x =.) L) as [[j z]|] eqn:E.
      * apply list_find_Some in E as (E & <- & _). pose proof (lookup_lt_Some _ _ _ E).
        rewrite bool_decide_false by lia. rewrite bool_decide_true; [done|]. by eapply list_elem_of_lookup_2.
      * rewrite bool_decide_true by done. apply list_find_None in E. rewrite bool_decide_false.
        { rewrite length_app. simpl. lia. }
        intros Hin. rewrite Forall_forall in E. by apply (E x Hin).
    + unfold bl. by rewrite length_insert.
    + unfold bl, absorb, i. rewrite Hr. destruct (list_find (x =.) L) as [[j z]|] eqn:E.
      * apply list_find_Some in E as (E & <- & _). exists rest. rewrite bool_decide_true by (by eapply list_elem_of_lookup_2).
        rewrite insert_app_l by (by eapply lookup_lt_Some). by rewrite list_insert_id.
      * apply list_find_None in E. rewrite bool_decide_false.
        2: { intros Hin. rewrite Forall_forall in E. by apply (E x Hin). }
        rewrite Hr, length_app in Hlb. destruct rest as [|r rest]; [cbn [length] in Hlb; lia|].
        exists rest. rewrite insert_app_r_alt, Nat.sub_diag by lia. simpl. by rewrite <- (assoc_L (++)).
Qed.

(** Whether [begin_op] lets an operation start. *)
Definition admits (l : lstate) : bool :=
  negb (l_committing l) && bool_decide (lh_n l + (l_outstanding l + 1) * Z.of_nat MAXOPBLOCKS ≤ Z.of_nat LOGSIZE).

Lemma begin_op_run l :
  l_held l = false →
  begin_op l = if admits l then Ret tt (set_outstanding (l_outstanding l + 1) l) [] else Blocked CLog l [].
Proof.
  intros Hh. unfold begin_op, log_acquire, log_release, admits. mstep (lk_acquire_run l_held set_lheld l Hh).
  rewrite bind_get. cbn [l_committing l_outstanding lh_n set_lheld].
  destruct (l_committing l); cbn [orb negb andb].
  - erewrite bind_run, prepend_nil; [|by apply lk_release_run]. destruct l; simpl in *. by rewrite Hh.
  - case_bool_decide; [rewrite bool_decide_false by lia|rewrite bool_decide_true by lia].
    + erewrite bind_run, prepend_nil; [|by apply lk_release_run]. destruct l; simpl in *. by rewrite Hh.
    + rewrite bind_modify, lk_release_run by done. destruct l; simpl in *. by rewrite Hh.
Qed.

(** [end_op] of an operation that is not the last. *)
Lemma end_op_more l :
  l_held l = false → l_committing l = false → l_outstanding l ≠ 1 →
  end_op l = Ret tt (set_outstanding (l_outstanding l - 1) l) [EvWakeup (Some CLog)].
Proof.
  intros Hh Hc Ho. unfold end_op, log_acquire, log_release. mstep (lk_acquire_run l_held set_lheld l Hh).
  rewrite bind_modify, bind_get. cbn [l_committing l_outstanding set_outstanding set_lheld]. rewrite Hc.
  cbn [panic_if]. rewrite bind_mret, bool_decide_false by lia.
  rewrite (bind_run (announce CLog) _ _ tt _ [EvWakeup (Some CLog)] eq_refl).
  erewrite bind_run, prepend_nil; [|by apply lk_release_run]. destruct l; simpl in *. by rewrite Hh.
Qed.

(** The last [end_op] commits. *)
Lemma end_op_last l l' t :
  l_held l = false → l_committing l = false → l_outstanding l = 1 →
  commit (set_committing true (set_outstanding 0 l)) = Ret tt l' t → l_held l' = false →
  end_op l = Ret tt (set_committing false l') (t ++ [EvWakeup (Some CLog)]).
Proof.
  intros Hh Hc Ho Hr Hh'. unfold end_op, log_acquire, log_release. mstep (lk_acquire_run l_held set_lheld l Hh).
  rewrite bind_modify, bind_get. cbn [l_committing l_outstanding set_outstanding set_lheld]. rewrite Hc, Ho.
  cbn [panic_if]. rewrite bind_mret, bool_decide_true by lia. rewrite bind_modify.
  erewrite bind_run, prepend_nil; [|by apply lk_release_run].
  replace (set_lheld false _) with (set_committing true (set_outstanding 0 l)) by (destruct l; simpl in *; by rewrite Hh).
  rewrite (bind_run _ _ _ _ _ _ Hr). erewrite bind_run, prepend_nil; [|by apply lk_acquire_run].
  rewrite bind_modify. rewrite (bind_run (announce CLog) _ _ tt _ [EvWakeup (Some CLog)] eq_refl), lk_release_run by done.
  simpl. destruct l'; simpl in *. by subst.
Qed.

Lemma lrep_flags l a start size L b n :
  lrep l a start size L → lrep (set_committing b (set_outstanding n l)) a start size L.
Proof. intros []. by split. Qed.

Lemma commit_nothing l : lh_n l = 0 → commit l = Ret tt l [].
Proof. intros H. unfold commit. by rewrite bind_get, H. Qed.


(** ** A small disk: super block, a log of three blocks, one more block *)

Definition zero_block : list Z := replicate 512 0.
Definition small_sb : list Z := set_word 4 2 (set_word 3 3 (set_word 0 6 zero_block)).
Definition small_disk : list (list Z) := [zero_block; small_sb; zero_block; zero_block; zero_block; replicate 512 7].

Lemma zero_block_ok : block_ok zero_block.
Proof. apply block_ok_replicate. unfold byte. lia. Qed.

Lemma small_sb_ok : block_ok small_sb.
Proof. unfold small_sb. repeat (apply set_word_ok; [lia|]). exact zero_block_ok. Qed.
Lemma seven_ok : block_ok (replicate 512 7).
Proof. apply block_ok_replicate. unfold byte. lia. Qed.

#[local] Opaque small_sb zero_block replicate.

Lemma small_log_disk : log_disk small_disk 2 3 [] zero_block.
Proof.
  pose proof zero_block_ok as Hz. split.
  - unfold small_disk. repeat (apply Forall_cons_2; [first [exact Hz|exact small_sb_ok|exact seven_ok]|]). constructor.
  - exists small_sb. vm_compute. done.
  - done.
  - split; [by vm_compute|done].
  - split; simpl; unfold LOGSIZE, MAXOPBLOCKS; try lia; constructor.
Qed.

(** A transaction that overwrites block 5 with 9's. *)
Lemma small_txn : ∃ l a h,
  txn_ready l a 2 3 [5] h ∧ l_outstanding l = 1 ∧ l_committing l = false ∧
  a_disk a !! 5%nat = Some (replicate 512 7) ∧ a_data a !! 5%nat = Some (replicate 512 9).
Proof.
  pose proof small_log_disk as Hld.
  destruct (initlog_spec _ _ _ _ _ Hld) as (l0 & t0 & _ & _ & _ & Hl0 & Ho0 & Hc0 & Hd0).
  set (a0 := exec _ _) in *.
  assert (a_locked a0 = ∅) as Hnl by (unfold a0; by rewrite exec_locked).
  set (dk := apply_writes (recovery_writes small_disk 2 [] zero_block) small_disk) in *.
  assert (a_disk a0 = dk ∧ a_data a0 = dk) as [Hdk Hdt] by (unfold a0; by rewrite exec_disk, exec_data).
  destruct (recovered_spec _ _ _ _ _ Hld) as (_ & _ & Hoff & Hld'). fold dk in Hoff, Hld'.
  assert (length dk = 6%nat) as Hlen by (unfold dk; by rewrite length_apply_writes).
  assert (dk !! 5%nat = Some (replicate 512 7)) as H5 by (change 5%nat with (Z.to_nat 5); rewrite Hoff; [done|lia|lia|set_solver]).
  clearbody a0 dk. set (l1 := set_outstanding 1 l0).
  assert (lrep l1 a0 2 3 []) as Hl1 by (destruct Hl0; by split).
  destruct (bread_spec (l_bio l1) a0 5 (lr_bio _ _ _ _ _ Hl1)) as (i & b2 & _ & B2 & _).
  { by rewrite Hnl. } { rewrite Hdk, Hlen. lia. }
  { apply room_small. rewrite Hnl, Hd0, dom_empty_L. change (size _) with 0%nat. unfold NBUF, MAXOPBLOCKS. lia. }
  assert (a_locked (a_lock 5 i a0) !! 5 = Some i) as Lx by (simpl; by rewrite lookup_insert_eq).
  assert (block_ok (replicate 512 9)) as H9 by (apply block_ok_replicate; unfold byte; lia).
  destruct (bdata_set_spec b2 _ 5 i (replicate 512 9) B2 Lx H9) as (b3 & _ & B3 & _).
  destruct (log_write_spec (set_lbio b3 l1) _ 2 3 [] 6 5 i (lrep_lbio _ _ _ _ _ _ _ Hl1 B3)) as (l4 & _ & Hl4 & Ho4 & Hc4).
  { constructor. } { lia. } { lia. } { done. } { simpl. lia. } { simpl. unfold LOGSIZE, MAXOPBLOCKS. lia. } { simpl. lia. }
  destruct (brelse_spec (l_bio l4) _ 5 i (lr_bio _ _ _ _ _ Hl4) Lx) as (b5 & _ & B5 & _); [left; simpl; set_solver|].
  exists (set_lbio b5 l4), (a_unlock 5 (a_mark 5 (a_set 5 (replicate 512 9) (a_lock 5 i a0)))), (hdr [] zero_block).
  split_and!; simpl; rewrite ?Hdk, ?Hdt; try done.
  - split; simpl; rewrite ?Hdk, ?Hlen; try done.
    + apply (lrep_lbio _ _ _ _ _ _ _ Hl4 B5).
    + split; simpl; unfold LOGSIZE, MAXOPBLOCKS; try lia; [|by apply NoDup_singleton]. apply Forall_singleton. lia.
    + rewrite Hnl. by rewrite delete_insert_id.
    + rewrite Hd0. set_solver.
  - rewrite Hc4. exact Hc0.
  - apply list_lookup_insert_eq. rewrite Hlen. lia.
Qed.


(** The log accepts fewer blocks than [begin_op] reserves.  With the log
    of [LOGSIZE] blocks that mkfs makes, [begin_op] admits three operations of
    [MAXOPBLOCKS] blocks each, 30 blocks in all; but one block of the log is
    its header, and [log_write] panics ("too big a transaction") on the 30th. *)
Theorem reservation_exceeds_log (l : lstate) (b : nat) :
  l_held l = false → l_committing l = false → l_outstanding l = 0 → lh_n l = 0 → l_size l = Z.of_nat LOGSIZE →
  (begin_op;; begin_op;; begin_op) l = Ret tt (set_outstanding 3 l) [] ∧
  ∀ l', l_size l' = Z.of_nat LOGSIZE → lh_n l' = 3 * Z.of_nat MAXOPBLOCKS - 1 →
    log_write b l' = Panic "too big a transaction" l'.
Proof.
  intros Hh Hc Ho Hn Hs. split.
  - erewrite bind_run, prepend_nil.
    2: { rewrite begin_op_run by done. unfold admits. rewrite Hc, Ho, Hn. reflexivity. }
    erewrite bind_run, prepend_nil.
    2: { rewrite begin_op_run by done. unfold admits. simpl. rewrite Hc, Hn. reflexivity. }
    rewrite begin_op_run by done. unfold admits. simpl. rewrite Hc, Hn. reflexivity.
  - intros l' Hs' Hn'. unfold log_write. rewrite bind_get, Hs', Hn'. reflexivity.
Qed.

Lemma reservation_exceeds_log_witness :
  (begin_op;; begin_op;; begin_op) (set_lsize 30 (fresh [])) = Ret tt (set_outstanding 3 (set_lsize 30 (fresh []))) [].
Proof. exact (proj1 (reservation_exceeds_log (set_lsize 30 (fresh [])) 0 eq_refl eq_refl eq_refl eq_refl eq_refl)). Defined.
