(* ===== verification/Console.v ===== *)
(** The console (src/console.c): the screen, the input line editor, and the
    loops of [consoleread] and [consolewrite].  (The two functions themselves
    also unlock and relock an inode; they are in Fs.v.)

    The CGA memory is a list of 80x25 cells and the cursor register a number;
    characters sent to the serial port are [EvPutc] events.  The theorems say
    that the cursor stays on the screen, and that the ring buffer with its
    three indices implements a line discipline on two plain lists. *)
From S2P Require Import Prelude Bytes Spinlock.

Record cstate := CState {
  cons_held : bool;               (* cons.lock *)
  locking : bool;                 (* cons.locking *)
  panicked : bool;
  crt : list Z;                   (* CGA memory *)
  crt_pos : Z;                    (* cursor register of the CRT controller *)
  in_buf : list Z;                (* input.buf, as bytes *)
  in_r : Z;
  in_w : Z;
  in_e : Z
}.
Definition set_cheld v s := CState v (locking s) (panicked s) (crt s) (crt_pos s) (in_buf s) (in_r s) (in_w s) (in_e s).
Definition set_locking v s := CState (cons_held s) v (panicked s) (crt s) (crt_pos s) (in_buf s) (in_r s) (in_w s) (in_e s).
Definition set_crt v s := CState (cons_held s) (locking s) (panicked s) v (crt_pos s) (in_buf s) (in_r s) (in_w s) (in_e s).
Definition set_pos v s := CState (cons_held s) (locking s) (panicked s) (crt s) v (in_buf s) (in_r s) (in_w s) (in_e s).
Definition set_inbuf v s := CState (cons_held s) (locking s) (panicked s) (crt s) (crt_pos s) v (in_r s) (in_w s) (in_e s).
Definition set_inr v s := CState (cons_held s) (locking s) (panicked s) (crt s) (crt_pos s) (in_buf s) v (in_w s) (in_e s).
Definition set_inw v s := CState (cons_held s) (locking s) (panicked s) (crt s) (crt_pos s) (in_buf s) (in_r s) v (in_e s).
Definition set_ine v s := CState (cons_held s) (locking s) (panicked s) (crt s) (crt_pos s) (in_buf s) (in_r s) (in_w s) v.

Definition BACKSPACE : Z := 256.
Definition INPUT_BUF : Z := 128.
(** [C(x)]: Control-x. *)
Definition ctrl (s : string) : Z := chr s - 64.

Definition crt_set (pos : Z) (v : Z) : M cstate unit :=
  s ← get;
  if bool_decide (0 ≤ pos < Z.of_nat (length (crt s)))
  then modify (set_crt (<[Z.to_nat pos := v]> (crt s))) else undef.

(** [crt[0..23*80)] moved up one row, and the rest from [pos] to the end of
    row 24 cleared. *)
Definition scroll (pos : Z) (l : list Z) : list Z :=
  let l := splice l 0 (slice l 80 (23 * 80)) in
  splice l (Z.to_nat pos) (replicate (Z.to_nat (24 * 80 - pos)) 0).

Definition cgaputc (c : Z) : M cstate unit :=
  s ← get;
  let pos := crt_pos s in
  pos ← (if bool_decide (c = 10) then mret (pos + (80 - pos mod 80))
         else if bool_decide (c = BACKSPACE) then mret (if bool_decide (0 < pos) then pos - 1 else pos)
         else crt_set pos (Z.lor (Z.land c 255) 1792);; mret (pos + 1));
  panic_if (bool_decide (pos < 0) || bool_decide (25 * 80 < pos)) "pos under/overflow";;
  pos ← (if bool_decide (24 ≤ pos / 80) then
           modify (λ s, set_crt (scroll (pos - 80) (crt s)) s);; mret (pos - 80)
         else mret pos);
  (* the two halves of the cursor register *)
  modify (set_pos (u8 (Z.shiftr pos 8) * 256 + u8 pos));;
  crt_set pos (Z.lor 32 1792).

Definition uartputc (c : Z) : M cstate unit := emit (EvPutc c).

Definition consputc (c : Z) : M cstate unit :=
  s ← get;
  if panicked s then spin else
  (if bool_decide (c = BACKSPACE) then uartputc 8;; uartputc 32;; uartputc 8 else uartputc c);;
  cgaputc c.

(** [input.buf[i % INPUT_BUF]] for an unsigned [i]. *)
Definition inbuf_get (i : Z) : M cstate Z :=
  s ← get; deref (in_buf s !! Z.to_nat (u32 i mod INPUT_BUF)).
Definition inbuf_set (i : Z) (c : Z) : M cstate unit :=
  inbuf_get i;; modify (λ s, set_inbuf (<[Z.to_nat (u32 i mod INPUT_BUF) := u8 c]> (in_buf s)) s).

(** The loop of Control-U; at most [INPUT_BUF] characters are edited. *)
Fixpoint kill_line (fuel : nat) : M cstate unit :=
  match fuel with
  | O => undef
  | S fuel' =>
      s ← get;
      if bool_decide (in_e s = in_w s) then mret tt else
      c ← inbuf_get (in_e s - 1);
      if bool_decide (c = 10) then mret tt else
      modify (set_ine (u32 (in_e s - 1)));;
      consputc BACKSPACE;;
      kill_line fuel'
  end.

(** One character in [consoleintr]; the result says whether it asked for a
    process listing. *)
Definition consoleintr_char (c : Z) : M cstate bool :=
  if bool_decide (c = ctrl "P") then mret true
  else if bool_decide (c = ctrl "U") then kill_line 129;; mret false
  else if bool_decide (c = ctrl "H") || bool_decide (c = 127) then
    s ← get;
    (if bool_decide (in_e s ≠ in_w s)
     then modify (set_ine (u32 (in_e s - 1)));; consputc BACKSPACE else mret tt);;
    mret false
  else
    s ← get;
    if bool_decide (c ≠ 0) && bool_decide (u32 (in_e s - in_r s) < INPUT_BUF) then
      let c := if bool_decide (c = 13) then 10 else c in
      inbuf_set (in_e s) c;;
      modify (set_ine (u32 (in_e s + 1)));;
      consputc c;;
      s ← get;
      (if bool_decide (c = 10) || bool_decide (c = ctrl "D") || bool_decide (in_e s = u32 (in_r s + INPUT_BUF))
       then modify (set_inw (in_e s));; announce CInput else mret tt);;
      mret false
    else mret false.

(** [consoleintr(getc)], for the characters that [getc] returns before its
    first negative result.  The result says whether [procdump] is called at
    the end, after the lock is released. *)
Fixpoint consoleintr_loop (cs : list Z) (doprocdump : bool) : M cstate bool :=
  match cs with
  | [] => mret doprocdump
  | c :: cs' => d ← consoleintr_char c; consoleintr_loop cs' (doprocdump || d)
  end.
Definition consoleintr (cs : list Z) : M cstate bool :=
  lk_acquire cons_held set_cheld;;
  d ← consoleintr_loop cs false;
  lk_release cons_held set_cheld;;
  mret d.

(** How the loop of [consoleread] leaves off: finished, killed while waiting,
    or asleep, with [n] still to read and the bytes stored so far. *)
Inductive cread : Type :=
| CDone (n : Z) (out : list Z)
| CKilled (out : list Z)
| CAsleep (n : Z) (out : list Z).

(** The loop of [consoleread] run with the lock held; [target] is the
    original [n].  A process that sleeps continues with this loop. *)
Fixpoint consoleread_loop (fuel : nat) (killed : bool) (target n : Z) (out : list Z) : M cstate cread :=
  match fuel with
  | O => undef
  | S fuel' =>
      if bool_decide (0 < n) then
        s ← get;
        if bool_decide (in_r s = in_w s) then mret (if killed then CKilled out else CAsleep n out) else
        c ← inbuf_get (in_r s);
        modify (set_inr (u32 (in_r s + 1)));;
        if bool_decide (c = ctrl "D") then
          (* if(n < target), an unsigned comparison *)
          (if bool_decide (u32 n < u32 target) then modify (λ s, set_inr (u32 (in_r s - 1)) s) else mret tt);;
          mret (CDone n out)
        else if bool_decide (c = 10) then mret (CDone (n - 1) (out ++ [c]))
        else consoleread_loop fuel' killed target (n - 1) (out ++ [c])
      else mret (CDone n out)
  end.

(** The locked part of [consoleread]: the loop runs at most [INPUT_BUF] times
    before it sleeps or stops. *)
Definition consoleread_body (killed : bool) (target n : Z) (out : list Z) : M cstate cread :=
  lk_acquire cons_held set_cheld;;
  r ← consoleread_loop 129 killed target n out;
  lk_release cons_held set_cheld;;
  mret r.

Definition consolewrite_body (bytes : list Z) : M cstate unit :=
  lk_acquire cons_held set_cheld;;
  foreach bytes (λ c, consputc (Z.land c 255));;
  lk_release cons_held set_cheld.

(** The console's own part of [consoleinit]. *)
Definition consoleinit_cons : M cstate unit :=
  modify (set_cheld false);; modify (set_locking true).

(** * The screen *)

Definition screen_ok (s : cstate) : Prop := length (crt s) = 2000%nat ∧ 0 ≤ crt_pos s < 1920.

(** [s'] is [s] except for the screen. *)
Definition same_input (s s' : cstate) : Prop := s' = set_pos (crt_pos s') (set_crt (crt s') s).

(** The cursor after a character. *)
Definition next_pos (c pos : Z) : Z :=
  let p := if bool_decide (c = 10) then pos + (80 - pos mod 80)
           else if bool_decide (c = BACKSPACE) then Z.max 0 (pos - 1) else pos + 1 in
  if bool_decide (24 ≤ p / 80) then p - 80 else p.

Lemma next_pos_range c pos : 0 ≤ pos < 1920 → 0 ≤ next_pos c pos < 1920.
Proof.
  intros H. unfold next_pos. repeat case_bool_decide; Z.div_mod_to_equations; lia.
Qed.

Lemma crt_set_run pos v s :
  0 ≤ pos < Z.of_nat (length (crt s)) → crt_set pos v s = Ret tt (set_crt (<[Z.to_nat pos := v]> (crt s)) s) [].
Proof. intros H. unfold crt_set. rewrite bind_get. by rewrite bool_decide_true. Qed.

Lemma length_scroll pos l : length l = 2000%nat → 0 ≤ pos ≤ 1920 → length (scroll pos l) = 2000%nat.
Proof.
  intros Hl Hp. unfold scroll. assert (length (slice l 80 (23 * 80)) = 1840)%nat as Hs by (rewrite length_slice; lia).
  rewrite !length_splice; rewrite ?length_replicate, ?Hs; lia || (rewrite length_splice; lia).
Qed.

Lemma cursor_halves pos : 0 ≤ pos < 65536 → u8 (Z.shiftr pos 8) * 256 + u8 pos = pos.
Proof.
  intros H. unfold u8. rewrite Z.shiftr_div_pow2 by lia. change (2 ^ 8) with 256. Z.div_mod_to_equations. lia.
Qed.

Lemma cgaputc_run c s :
  screen_ok s →
  ∃ s', cgaputc c s = Ret tt s' [] ∧ screen_ok s' ∧ same_input s s' ∧ crt_pos s' = next_pos c (crt_pos s) ∧
    (c ≠ 10 → c ≠ BACKSPACE → next_pos c (crt_pos s) = crt_pos s + 1 →
       crt s' !! Z.to_nat (crt_pos s) = Some (Z.lor (Z.land c 255) 1792)).
Proof.
  intros [Hl Hp]. pose proof (next_pos_range c _ Hp) as Hn. unfold cgaputc. rewrite bind_get.
  set (p := if bool_decide (c = 10) then crt_pos s + (80 - crt_pos s mod 80)
            else if bool_decide (c = BACKSPACE) then Z.max 0 (crt_pos s - 1) else crt_pos s + 1).
  set (l1 := if bool_decide (c = 10) then crt s else if bool_decide (c = BACKSPACE) then crt s
             else <[Z.to_nat (crt_pos s) := Z.lor (Z.land c 255) 1792]> (crt s)).
  assert (0 ≤ p ≤ 1920) as Hpr by (unfold p; repeat case_bool_decide; Z.div_mod_to_equations; lia).
  assert (length l1 = 2000%nat) as Hl1 by (unfold l1; repeat case_bool_decide; by rewrite ?length_insert).
  rewrite (bind_run _ _ s p (set_crt l1 s) []), prepend_nil.
  2: { unfold p, l1. case_bool_decide; [by destruct s|]. case_bool_decide.
       - replace (if bool_decide (0 < crt_pos s) then _ else _) with (Z.max 0 (crt_pos s - 1)) by (case_bool_decide; lia).
         by destruct s.
       - rewrite (bind_run _ _ _ _ _ _ (crt_set_run (crt_pos s) _ s ltac:(lia))), prepend_nil. done. }
  rewrite (bool_decide_false (p < 0)), (bool_decide_false (25 * 80 < p)) by lia. cbn [orb panic_if]. rewrite bind_mret.
  set (l2 := if bool_decide (24 ≤ p / 80) then scroll (p - 80) l1 else l1).
  assert (length l2 = 2000%nat) as Hl2 by (unfold l2; case_bool_decide; [apply length_scroll; Z.div_mod_to_equations; lia|done]).
  rewrite (bind_run _ _ _ (next_pos c (crt_pos s)) (set_crt l2 s) []), prepend_nil.
  2: { unfold next_pos. fold p. unfold l2. by case_bool_decide. }
  rewrite bind_modify, cursor_halves by lia.
  rewrite crt_set_run by (simpl; lia). eexists. split_and!; [done| |done|done|].
  - split; simpl; [by rewrite length_insert|done].
  - intros Hc1 Hc2 Hp1. simpl. rewrite list_lookup_insert_ne by lia. unfold l2.
    assert (bool_decide (24 ≤ p / 80) = false) as E.
    { apply bool_decide_eq_false. intros Hq. unfold next_pos in Hp1. fold p in Hp1. rewrite bool_decide_true in Hp1 by done.
      unfold p in Hp1. rewrite !bool_decide_false in Hp1 by done. lia. }
    rewrite E. unfold l1. rewrite !bool_decide_false by done. apply list_lookup_insert_eq. lia.
Qed.

Definition putc_trace (c : Z) : list event :=
  if bool_decide (c = BACKSPACE) then [EvPutc 8; EvPutc 32; EvPutc 8] else [EvPutc c].

Lemma consputc_run c s :
  screen_ok s → panicked s = false →
  ∃ s', consputc c s = Ret tt s' (putc_trace c) ∧ screen_ok s' ∧ same_input s s' ∧
    crt_pos s' = next_pos c (crt_pos s) ∧
    (c ≠ 10 → c ≠ BACKSPACE → next_pos c (crt_pos s) = crt_pos s + 1 →
       crt s' !! Z.to_nat (crt_pos s) = Some (Z.lor (Z.land c 255) 1792)).
Proof.
  intros Hs Hp. destruct (cgaputc_run c s Hs) as (s' & R & H). exists s'. split; [|done].
  unfold consputc. rewrite bind_get, Hp. rewrite (bind_run _ _ s tt s (putc_trace c)).
  - rewrite R. simpl. by rewrite app_nil_r.
  - unfold putc_trace. by case_bool_decide.
Qed.

Lemma same_input_trans s1 s2 s3 : same_input s1 s2 → same_input s2 s3 → same_input s1 s3.
Proof. unfold same_input. intros -> ->. done. Qed.

(** Whatever is printed, the cursor stays on the 24 rows above the last
    one and no write leaves the CGA memory: [consputc] of any sequence of
    characters (newlines and backspaces included) returns, never reaches the
    "pos under/overflow" panic, sends the characters to the serial port, and
    touches nothing but the screen. *)
Theorem console_output_safe (cs : list Z) (s : cstate) :
  screen_ok s → panicked s = false →
  ∃ s', foreach cs consputc s = Ret tt s' (cs ≫= putc_trace) ∧ screen_ok s' ∧ same_input s s'.
Proof.
  revert s. induction cs as [|c cs IH]; intros s Hs Hp; cbn [foreach].
  - exists s. split_and!; [done|done|by destruct s].
  - destruct (consputc_run c s Hs Hp) as (s1 & R & Hs1 & E1 & _).
    destruct (IH s1 Hs1) as (s2 & R2 & Hs2 & E2); [by rewrite E1|].
    exists s2. rewrite (bind_run _ _ _ _ _ _ R), R2. split_and!; [done|done|by eapply same_input_trans].
Qed.

Definition blank_console : cstate :=
  CState false true false (replicate 2000 1824) 0 (replicate 128 0) 0 0 0.

Lemma blank_screen_ok : screen_ok blank_console.
Proof. split; [apply length_replicate|simpl; lia]. Qed.

Lemma console_output_safe_witness :
  ∃ s', foreach [104; 10; BACKSPACE] consputc blank_console =
    Ret tt s' [EvPutc 104; EvPutc 10; EvPutc 8; EvPutc 32; EvPutc 8] ∧ screen_ok s' ∧ same_input blank_console s'.
Proof. exact (console_output_safe [104; 10; BACKSPACE] blank_console blank_screen_ok eq_refl). Defined.

(** * The line discipline *)

(** The buffer holds the lines that can be read, [com], followed by the line
    that is being edited, [ed]. *)
Record cring (s : cstate) (com ed : list Z) : Prop := CRing {
  ci_screen : screen_ok s;
  ci_panicked : panicked s = false;
  ci_buf : length (in_buf s) = 128%nat;
  ci_r : 0 ≤ in_r s < 4294967296;
  ci_w : in_w s = u32 (in_r s + Z.of_nat (length com));
  ci_e : in_e s = u32 (in_r s + Z.of_nat (length (com ++ ed)));
  ci_fit : (length (com ++ ed) ≤ 128)%nat;
  ci_chars k c : (com ++ ed) !! k = Some c → in_buf s !! Z.to_nat ((in_r s + Z.of_nat k) mod 128) = Some c
}.
(** The edited line has no newline yet. *)
Definition cinv (s : cstate) (com ed : list Z) : Prop := cring s com ed ∧ 10 ∉ ed.

(** What a character typed does. *)
Definition key (c : Z) (x : list Z * list Z) : list Z * list Z :=
  let '(com, ed) := x in
  if bool_decide (c = 16) then x                                        (* Control-P *)
  else if bool_decide (c = 21) then (com, [])                           (* Control-U *)
  else if bool_decide (c = 8) || bool_decide (c = 127) then (com, take (length ed - 1) ed)
  else if bool_decide (c = 0) || bool_decide (128 ≤ length (com ++ ed))%nat then x
  else
    let c := if bool_decide (c = 13) then 10 else c in
    let ed := ed ++ [c] in
    if bool_decide (c = 10) || bool_decide (c = 4) || bool_decide (length (com ++ ed) = 128)%nat
    then (com ++ ed, []) else (com, ed).

(** What a read of up to [n] bytes does: the bytes, the rest of the input,
    and whether the reader has to wait for more. *)
Fixpoint read_line (first : bool) (n : nat) (com : list Z) : list Z * list Z * bool :=
  match n, com with
  | O, _ => ([], com, false)
  | S _, [] => ([], [], true)
  | S n', c :: com' =>
      if bool_decide (c = 4) then ([], if first then com' else com, false)
      else if bool_decide (c = 10) then ([c], com', false)
      else let '(out, rest, wait) := read_line false n' com' in (c :: out, rest, wait)
  end.

Lemma u32_idx x : u32 x mod 128 = x mod 128.
Proof. unfold u32. apply (Z.mod_mod_divide x 4294967296 128). by exists 33554432. Qed.

Lemma u32_add_inj x a b : 0 ≤ a ≤ 128 → 0 ≤ b ≤ 128 → u32 (x + a) = u32 (x + b) → a = b.
Proof. intros Ha Hb. unfold u32. Z.div_mod_to_equations. lia. Qed.

Lemma u32_diff x a : 0 ≤ a ≤ 128 → u32 (u32 (x + a) - x) = a.
Proof. intros Ha. unfold u32. Z.div_mod_to_equations. lia. Qed.

Lemma u32_pred x a : 1 ≤ a ≤ 128 → u32 (u32 (x + a) - 1) = u32 (x + (a - 1)).
Proof. intros Ha. unfold u32. Z.div_mod_to_equations. lia. Qed.
Lemma u32_succ x a : 0 ≤ a ≤ 128 → u32 (u32 (x + a) + 1) = u32 (x + (a + 1)).
Proof. intros Ha. unfold u32. Z.div_mod_to_equations. lia. Qed.

Lemma idx_ne (r j k : Z) : 0 ≤ j < 128 → 0 ≤ k < 128 → j ≠ k → (r + j) mod 128 ≠ (r + k) mod 128.
Proof. intros. Z.div_mod_to_equations. lia. Qed.

Lemma inbuf_get_run i c s : in_buf s !! Z.to_nat (u32 i mod INPUT_BUF) = Some c → inbuf_get i s = Ret c s [].
Proof. intros H. unfold inbuf_get. rewrite bind_get. by rewrite H. Qed.

Lemma cring_putc c s com ed :
  cring s com ed → ∃ s', consputc c s = Ret tt s' (putc_trace c) ∧ cring s' com ed ∧ cons_held s' = cons_held s.
Proof.
  intros [H1 H2 H3 H4 H5 H6 H7 H8]. destruct (consputc_run c s H1 H2) as (s' & R & Hs & E & _).
  exists s'. split_and!; [done| |by rewrite E]. split; try done; by rewrite E.
Qed.

(** Dropping the last edited character. *)
Lemma cinv_back s com ed :
  cinv s com ed → ed ≠ [] → cinv (set_ine (u32 (in_e s - 1)) s) com (take (length ed - 1) ed).
Proof.
  intros [[H1 H2 H3 H4 H5 H6 H7 H8] H9] Hne. assert (1 ≤ length ed)%nat by (destruct ed; [done|simpl; lia]).
  rewrite length_app in *. split; [split; simpl; try done|].
  - rewrite H6, length_app, length_take, u32_pred by lia. f_equal. lia.
  - rewrite length_app, length_take. lia.
  - intros k c Hk. apply H8. rewrite lookup_app in Hk |- *. destruct (com !! k); [done|].
    by apply lookup_take_Some in Hk as [? _].
  - intros Hin. apply H9. rewrite <- (take_drop (length ed - 1) ed). set_solver.
Qed.

Lemma cring_edit_end s com ed : cring s com ed → in_e s = in_w s ↔ ed = [].
Proof.
  intros [H1 H2 H3 H4 H5 H6 H7 H8]. rewrite H5, H6, length_app in *. split.
  - intros E%u32_add_inj; [|lia..]. destruct ed; [done|simpl in E; lia].
  - intros ->. simpl. f_equal. lia.
Qed.

Lemma kill_line_run fuel s com ed :
  cinv s com ed → (length ed < fuel)%nat →
  ∃ s' t, kill_line fuel s = Ret tt s' t ∧ cinv s' com [] ∧ cons_held s' = cons_held s.
Proof.
  revert s ed. induction fuel as [|fuel IH]; intros s ed Hi Hf; [lia|]. cbn [kill_line]. rewrite bind_get.
  destruct (decide (ed = [])) as [->|Hne].
  - rewrite bool_decide_true by (by apply (cring_edit_end s com [] (proj1 Hi))). by exists s, [].
  - rewrite bool_decide_false by (by rewrite (cring_edit_end s com ed) by apply Hi).
    assert (1 ≤ length ed)%nat as Hl by (destruct ed; [done|simpl; lia]).
    destruct (lookup_lt_is_Some_2 ed (length ed - 1)) as [c Hc]; [lia|].
    erewrite bind_run, prepend_nil.
    2: { apply (inbuf_get_run _ c). unfold INPUT_BUF. rewrite u32_idx.
         destruct Hi as [[H1 H2 H3 H4 H5 H6 H7 H8] H9]. rewrite length_app in *.
         rewrite <- (H8 (length com + (length ed - 1))%nat).
         - f_equal. f_equal. rewrite H6. rewrite <- (u32_idx (_ - 1)), u32_pred, u32_idx by lia. f_equal. lia.
         - rewrite lookup_app_r by lia. rewrite <- Hc. f_equal. lia. }
    rewrite bool_decide_false.
    2: { intros ->. apply (proj2 Hi). by eapply list_elem_of_lookup_2. }
    rewrite bind_modify.
    destruct (cinv_back s com ed Hi Hne) as [Hr Hl'].
    destruct (cring_putc BACKSPACE _ _ _ Hr) as (s1 & R1 & Hi1 & Hh1).
    destruct (IH s1 _ (conj Hi1 Hl')) as (s2 & t2 & R2 & Hi2 & Hh2); [rewrite length_take; lia|].
    rewrite (bind_run _ _ _ _ _ _ R1), R2. eexists _, _. split_and!; [done|done|by rewrite Hh2, Hh1].
Qed.

(** A new character at the end of the edited line. *)
Lemma cring_type s com ed c :
  cring s com ed → (length (com ++ ed) < 128)%nat → byte c →
  cring (set_ine (u32 (in_e s + 1)) (set_inbuf (<[Z.to_nat (u32 (in_e s) mod INPUT_BUF) := u8 c]> (in_buf s)) s)) com (ed ++ [c]).
Proof.
  intros [H1 H2 H3 H4 H5 H6 H7 H8] Hlt Hb. rewrite u8_small by done. unfold INPUT_BUF.
  rewrite u32_idx, H6, u32_idx. rewrite length_app in *. split; simpl; try done.
  - by rewrite length_insert.
  - rewrite !length_app, u32_succ by lia. f_equal. simpl. lia.
  - rewrite !length_app. simpl. lia.
  - intros k x Hk. rewrite (assoc_L (++)) in Hk. pose proof (lookup_lt_Some _ _ _ Hk) as Hkl. rewrite !length_app in Hkl. simpl in Hkl.
    destruct (decide (k = length com + length ed)%nat) as [->|Hk'].
    + rewrite lookup_app_r, length_app, Nat.sub_diag in Hk by (rewrite length_app; lia). injection Hk as <-.
      rewrite list_lookup_insert_eq; [done|]. rewrite H3. pose proof (Z.mod_pos_bound (in_r s + Z.of_nat (length com + length ed)) 128). lia.
    + rewrite lookup_app_l in Hk by (rewrite length_app; lia). rewrite list_lookup_insert_ne; [by apply H8|].
      intros E. apply (idx_ne (in_r s) (Z.of_nat (length com + length ed)) (Z.of_nat k)); [lia|lia|lia|].
      pose proof (Z.mod_pos_bound (in_r s + Z.of_nat (length com + length ed)) 128).
      pose proof (Z.mod_pos_bound (in_r s + Z.of_nat k) 128). lia.
Qed.

Lemma consoleintr_char_run s com ed c :
  cinv s com ed → 0 ≤ c < 256 →
  ∃ s' t, consoleintr_char c s = Ret (bool_decide (c = 16)) s' t ∧
    cinv s' (key c (com, ed)).1 (key c (com, ed)).2 ∧ cons_held s' = cons_held s.
Proof.
  intros Hi Hc. unfold consoleintr_char, key.
  change (ctrl "P") with 16. change (ctrl "U") with 21. change (ctrl "H") with 8. change (ctrl "D") with 4.
  case_bool_decide as E1; [by exists s, []|].
  case_bool_decide as E2.
  { destruct (kill_line_run 129 s com ed Hi) as (s' & t & R & Hi' & Hh).
    { pose proof (ci_fit _ _ _ (proj1 Hi)) as Hf. rewrite length_app in Hf. lia. }
    rewrite (bind_run _ _ _ _ _ _ R). eexists _, _. done. }
  destruct (bool_decide (c = 8) || bool_decide (c = 127)) eqn:E3.
  { rewrite bind_get. destruct (decide (ed = [])) as [->|Hne].
    - rewrite bool_decide_false by (rewrite (cring_edit_end s com [] (proj1 Hi)); naive_solver). rewrite bind_mret.
      by exists s, [].
    - rewrite bool_decide_true by (by rewrite (cring_edit_end s com ed (proj1 Hi))).
      destruct (cinv_back s com ed Hi Hne) as [Hr Hl'].
      destruct (cring_putc BACKSPACE _ _ _ Hr) as (s1 & R1 & Hi1 & Hh1).
      rewrite (bind_run _ _ s tt s1 (putc_trace BACKSPACE)) by (by rewrite bind_modify). eexists _, _. done. }
  rewrite bind_get. pose proof (proj1 Hi) as Hr. pose proof Hr as [H1 H2 H3 H4 H5 H6 H7 H8].
  rewrite H6, u32_diff by lia. unfold INPUT_BUF at 1.
  destruct (bool_decide (c = 0) || bool_decide (128 ≤ length (com ++ ed))%nat) eqn:E4.
  { replace (bool_decide (c ≠ 0) && bool_decide (Z.of_nat (length (com ++ ed)) < 128)) with false; [by exists s, []|].
    symmetry. apply andb_false_iff. apply orb_true_iff in E4 as [E%bool_decide_eq_true|E%bool_decide_eq_true].
    - left. apply bool_decide_eq_false. naive_solver.
    - right. apply bool_decide_eq_false. lia. }
  apply orb_false_iff in E4 as [E4%bool_decide_eq_false E5%bool_decide_eq_false].
  rewrite (bool_decide_true (c ≠ 0)), (bool_decide_true (Z.of_nat _ < 128)) by (done || lia). cbn [andb].
  set (d := if bool_decide (c = 13) then 10 else c).
  assert (byte d) as Hd by (unfold d, byte; destruct (bool_decide (c = 13)); lia).
  assert (length (com ++ ed) < 128)%nat as Hlt by lia.
  pose proof (cring_type s com ed d Hr Hlt Hd) as Ht. rewrite H6 in Ht.
  set (s1 := set_ine _ (set_inbuf _ s)) in Ht.
  destruct (lookup_lt_is_Some_2 (in_buf s) (Z.to_nat (u32 (u32 (in_r s + Z.of_nat (length (com ++ ed)))) mod INPUT_BUF))) as [old Hold].
  { rewrite H3. unfold INPUT_BUF. pose proof (Z.mod_pos_bound (u32 (u32 (in_r s + Z.of_nat (length (com ++ ed))))) 128). lia. }
  rewrite (bind_run _ _ s tt (set_inbuf (<[Z.to_nat (u32 (u32 (in_r s + Z.of_nat (length (com ++ ed)))) mod INPUT_BUF) := u8 d]> (in_buf s)) s) []), prepend_nil.
  2: { unfold inbuf_set. rewrite (bind_run _ _ _ _ _ _ (inbuf_get_run _ old s Hold)), prepend_nil. done. }
  rewrite bind_modify. fold s1.
  destruct (cring_putc d s1 _ _ Ht) as (s2 & R2 & Hi2 & Hh2). rewrite (bind_run _ _ _ _ _ _ R2). rewrite bind_get.
  pose proof Hi2 as [I1 I2 I3 I4 I5 I6 I7 I8].
  assert (bool_decide (in_e s2 = u32 (in_r s2 + INPUT_BUF)) = bool_decide (length (com ++ ed ++ [d]) = 128%nat)) as ->.
  { apply bool_decide_ext. rewrite I6. unfold INPUT_BUF. split; [intros E%u32_add_inj; lia|intros ->; done]. }
  destruct (bool_decide (d = 10) || bool_decide (d = 4) || bool_decide (length (com ++ ed ++ [d]) = 128%nat)) eqn:E6.
  - rewrite (bind_run _ _ s2 tt (set_inw (in_e s2) s2) [EvWakeup (Some CInput)]).
    2: { by rewrite bind_modify. }
    eexists _, _. split_and!; [reflexivity| |done].
    split; [|set_solver]. split; rewrite ?app_nil_r; try done.
  - rewrite bind_mret. eexists _, _. split_and!; [reflexivity| |done].
    split; [done|]. simpl. apply orb_false_iff in E6 as [[E6%bool_decide_eq_false _]%orb_false_iff _].
    pose proof (proj2 Hi). set_solver.
Qed.

Lemma consoleintr_loop_run cs : ∀ s com ed d,
  cinv s com ed → Forall (λ c, 0 ≤ c < 256) cs →
  ∃ s' t, consoleintr_loop cs d s = Ret (d || bool_decide (16 ∈ cs)) s' t ∧
    (let '(com', ed') := foldl (λ x c, key c x) (com, ed) cs in cinv s' com' ed') ∧ cons_held s' = cons_held s.
Proof.
  induction cs as [|c cs IH]; intros s com ed d Hi Hcs; cbn [consoleintr_loop foldl].
  - exists s, []. rewrite bool_decide_false by set_solver. by rewrite orb_false_r.
  - apply Forall_cons in Hcs as [Hc Hcs].
    destruct (consoleintr_char_run s com ed c Hi Hc) as (s1 & t1 & R1 & Hi1 & Hh1).
    destruct (key c (com, ed)) as [com1 ed1] eqn:Ek.
    destruct (IH s1 com1 ed1 (d || bool_decide (c = 16)) Hi1 Hcs) as (s2 & t2 & R2 & Hi2 & Hh2).
    rewrite (bind_run _ _ _ _ _ _ R1), R2. eexists _, _. split_and!; [|done|congruence]. simpl. f_equal.
    rewrite <- orb_assoc. f_equal. symmetry. rewrite (bool_decide_ext _ (c = 16 ∨ 16 ∈ cs)) by set_solver.
    apply bool_decide_or.
Qed.

Lemma consoleread_loop_run fuel : ∀ s com ed target n first out killed,
  cinv s com ed → (length com < fuel)%nat → 0 ≤ Z.of_nat n ≤ target → target < 2147483648 →
  first = bool_decide (Z.of_nat n = target) →
  ∃ s', consoleread_loop fuel killed target (Z.of_nat n) out s =
      (let '(o, rest, wait) := read_line first n com in
       Ret (if wait then if killed then CKilled (out ++ o) else CAsleep (Z.of_nat (n - length o)) (out ++ o)
            else CDone (Z.of_nat (n - length o)) (out ++ o)) s' []) ∧
    cinv s' (read_line first n com).1.2 ed ∧ cons_held s' = cons_held s.
Proof.
  induction fuel as [|fuel IH]; intros s com ed target n first out killed Hi Hf Hn Ht Hfirst; [lia|].
  cbn [consoleread_loop]. destruct n as [|n].
  { rewrite bool_decide_false by lia. exists s. cbn [read_line]. rewrite app_nil_r. done. }
  rewrite bool_decide_true by lia. rewrite bind_get. pose proof (proj1 Hi) as [H1 H2 H3 H4 H5 H6 H7 H8].
  rewrite length_app in H7.
  destruct com as [|c com].
  { rewrite bool_decide_true by (rewrite H5; simpl; rewrite Z.add_0_r; by rewrite u32_small). exists s.
    cbn [read_line]. rewrite app_nil_r. by destruct killed. }
  cbn [length] in *. rewrite bool_decide_false.
  2: { rewrite H5. intros E. assert (u32 (in_r s + 0) = u32 (in_r s + Z.of_nat (S (length com)))) as E'.
       { by rewrite Z.add_0_r, u32_small. } apply u32_add_inj in E'; lia. }
  erewrite bind_run, prepend_nil.
  2: { apply (inbuf_get_run _ c). unfold INPUT_BUF. rewrite u32_idx, <- (H8 O c eq_refl). by rewrite Z.add_0_r. }
  rewrite bind_modify. change (ctrl "D") with 4. set (s1 := set_inr (u32 (in_r s + 1)) s).
  assert (cinv s1 com ed) as Hi1.
  { split; [|apply Hi]. split; simpl; try done.
    - apply u32_range.
    - rewrite H5. unfold u32. rewrite Zplus_mod_idemp_l. f_equal. simpl. lia.
    - rewrite H6. unfold u32. rewrite Zplus_mod_idemp_l. f_equal. simpl. lia.
    - rewrite length_app. lia.
    - intros k x Hk. rewrite <- (H8 (S k) x Hk). rewrite <- u32_idx. unfold u32 at 1 2. rewrite Zplus_mod_idemp_l.
      fold (u32 (in_r s + 1 + Z.of_nat k)). rewrite u32_idx. f_equal. f_equal. f_equal. lia. }
  cbn [read_line]. destruct (decide (c = 4)) as [E1|E1];
    [rewrite !(bool_decide_true (c = 4)) by done|rewrite !(bool_decide_false (c = 4)) by done].
  - (* end of file *)
    rewrite (u32_small (Z.of_nat (S n))), (u32_small target) by lia. subst first.
    destruct (decide (Z.of_nat (S n) = target)) as [Et|Et].
    + rewrite (bool_decide_false (_ < _)), (bool_decide_true (_ = target)) by lia. rewrite bind_mret.
      exists s1. rewrite app_nil_r. done.
    + rewrite (bool_decide_true (_ < _)), (bool_decide_false (_ = target)) by lia. rewrite bind_modify. exists s.
      replace (set_inr (u32 (in_r s1 - 1)) s1) with s; [by rewrite app_nil_r|].
      unfold s1. destruct s; unfold set_inr; simpl in *. f_equal. unfold u32. rewrite Zminus_mod_idemp_l, Z.mod_small; lia.
  - destruct (decide (c = 10)) as [E2|E2];
      [rewrite !(bool_decide_true (c = 10)) by done|rewrite !(bool_decide_false (c = 10)) by done].
    + exists s1. replace (Z.of_nat (S n) - 1) with (Z.of_nat (S n - length [c])) by (cbn [length]; lia). done.
    + replace (Z.of_nat (S n) - 1) with (Z.of_nat n) by lia.
      destruct (IH s1 com ed target n false (out ++ [c]) killed Hi1) as (s' & R & Hi' & Hh'); try lia.
      { symmetry. apply bool_decide_eq_false. lia. }
      exists s'. rewrite R. destruct (read_line false n com) as [[o rest] wait] eqn:Er. cbn [fst snd length] in *.
      split_and!; [|done|by rewrite Hh']. rewrite <- (assoc_L (++)). cbn [app]. by rewrite Nat.sub_succ.
Qed.

(** C13: The console's ring buffer implements a line discipline on two lists,
    the input that can be read and the line being edited.  [consoleintr]
    handles any sequence of characters, with kill-line, backspace, carriage
    return, the end-of-file mark and a full buffer, exactly as [key] says, and
    asks for a process listing exactly when Control-P was typed; the loop of
    [consoleread] returns what [read_line] says: the bytes up to the newline,
    the end-of-file mark (kept for the next read if bytes were read) or the
    count, or it sleeps when the input runs out, or gives up when the process
    was killed.  Both return with the lock released, for counters anywhere in
    the 32-bit range. *)
Theorem console_line_discipline (s : cstate) (com ed : list Z) :
  cinv s com ed → cons_held s = false →
  (∀ cs, Forall (λ c, 0 ≤ c < 256) cs →
     ∃ s' t, consoleintr cs s = Ret (bool_decide (16 ∈ cs)) s' t ∧ cons_held s' = false ∧
       let '(com', ed') := foldl (λ x c, key c x) (com, ed) cs in cinv s' com' ed') ∧
  (∀ n killed, Z.of_nat n < 2147483648 →
     let '(out, rest, wait) := read_line true n com in
     ∃ s', consoleread_body killed (Z.of_nat n) (Z.of_nat n) [] s =
         Ret (if wait then if killed then CKilled out else CAsleep (Z.of_nat (n - length out)) out
              else CDone (Z.of_nat (n - length out)) out) s' [] ∧
       cinv s' rest ed ∧ cons_held s' = false).
Proof.
  intros Hi Hh.
  assert (∀ b x com ed, cinv x com ed → cinv (set_cheld b x) com ed) as Hheld.
  { intros b x com' ed' [[] Hl]. by split. }
  split.
  - intros cs Hcs. destruct (consoleintr_loop_run cs _ com ed false (Hheld true s com ed Hi) Hcs) as (s1 & t1 & R1 & Hi1 & Hh1).
    exists (set_cheld false s1). eexists. split_and!.
    + unfold consoleintr. mstep (lk_acquire_run cons_held set_cheld s Hh). rewrite (bind_run _ _ _ _ _ _ R1).
      erewrite (bind_run (lk_release _ _)); [|by apply lk_release_run]. reflexivity.
    + done.
    + destruct (foldl _ _ cs) as [com' ed']. by apply Hheld.
  - intros n killed Hn.
    destruct (consoleread_loop_run 129 (set_cheld true s) com ed (Z.of_nat n) n true [] killed) as (s1 & R1 & Hi1 & Hh1).
    { by apply Hheld. } { pose proof (ci_fit _ _ _ (proj1 Hi)) as Hf. rewrite length_app in Hf. lia. } { lia. } { lia. }
    { by rewrite bool_decide_true. }
    destruct (read_line true n com) as [[out rest] wait]. exists (set_cheld false s1). split_and!; [|by apply Hheld|done].
    unfold consoleread_body. mstep (lk_acquire_run cons_held set_cheld s Hh). mstep R1.
    erewrite (bind_run (lk_release _ _)), prepend_nil; [|by apply lk_release_run]. done.
Qed.

Lemma blank_cinv : cinv blank_console [] [].
Proof.
  split; [|set_solver]. split; try done; simpl; lia.
Qed.

(** "ab", a backspace, "c", return: a reader of up to 10 bytes gets "ac\n". *)
Lemma console_line_discipline_witness :
  let cs := [97; 98; 8; 99; 13] in
  ∃ s' t, consoleintr cs blank_console = Ret false s' t ∧ cons_held s' = false ∧ cinv s' [97; 99; 10] [].
Proof.
  assert (Forall (λ c, 0 ≤ c < 256) [97; 98; 8; 99; 13]) as Hcs by (repeat constructor; lia).
  exact (proj1 (console_line_discipline blank_console [] [] blank_cinv eq_refl) [97; 98; 8; 99; 13] Hcs).
Defined.
