(* ===== verification/Kbd.v ===== *)
(** The keyboard driver (src/kbd.c and the tables of src/kbd.h), from the
    scan codes the controller delivers to the characters for the console.

    Reading the two I/O ports is represented by their result: no data, or a
    data byte. *)
From S2P Require Import Prelude Bytes Console.

Definition SHIFT : Z := 1.
Definition CTL : Z := 2.
Definition ALT : Z := 4.
Definition CAPSLOCK : Z := 8.
Definition NUMLOCK : Z := 16.
Definition SCROLLLOCK : Z := 32.
Definition E0ESC : Z := 64.

(** A table of 256 [uchar]s: the first entries in order, then entries by
    index, zero elsewhere. *)
Definition designate (base : list Z) (entries : list (Z * Z)) : list Z :=
  u8 <$> foldl (λ l e, <[Z.to_nat e.1 := e.2]> l) (base ++ replicate (256 - length base) 0) entries.

Definition shiftcode : list Z := designate []
  [(29, CTL); (42, SHIFT); (54, SHIFT); (56, ALT); (157, CTL); (184, ALT)].
Definition togglecode : list Z := designate []
  [(58, CAPSLOCK); (69, NUMLOCK); (70, SCROLLLOCK)].

Definition normalmap : list Z := designate
  [(* 0x00 *) 0; 27; 49; 50; 51; 52; 53; 54;
   55; 56; 57; 48; 45; 61; 8; 9;
   (* 0x10 *) 113; 119; 101; 114; 116; 121; 117; 105;
   111; 112; 91; 93; 10; 0; 97; 115;
   (* 0x20 *) 100; 102; 103; 104; 106; 107; 108; 59;
   39; 96; 0; 92; 122; 120; 99; 118;
   (* 0x30 *) 98; 110; 109; 44; 46; 47; 0; 42;
   0; 32; 0; 0; 0; 0; 0; 0;
   (* 0x40 *) 0; 0; 0; 0; 0; 0; 0; 55;
   56; 57; 45; 52; 53; 54; 43; 49;
   (* 0x50 *) 50; 51; 48; 46; 0; 0; 0; 0]
  [(156, 10); (181, 47); (200, 226); (208, 227); (201, 230); (209, 231); (203, 228); (205, 229); (151, 224); (207, 225); (210, 232); (211, 233)].

Definition shiftmap : list Z := designate
  [(* 0x00 *) 0; 27; 33; 64; 35; 36; 37; 94;
   38; 42; 40; 41; 95; 43; 8; 9;
   (* 0x10 *) 81; 87; 69; 82; 84; 89; 85; 73;
   79; 80; 123; 125; 10; 0; 65; 83;
   (* 0x20 *) 68; 70; 71; 72; 74; 75; 76; 58;
   34; 126; 0; 124; 90; 88; 67; 86;
   (* 0x30 *) 66; 78; 77; 60; 62; 63; 0; 42;
   0; 32; 0; 0; 0; 0; 0; 0;
   (* 0x40 *) 0; 0; 0; 0; 0; 0; 0; 55;
   56; 57; 45; 52; 53; 54; 43; 49;
   (* 0x50 *) 50; 51; 48; 46; 0; 0; 0; 0]
  [(156, 10); (181, 47); (200, 226); (208, 227); (201, 230); (209, 231); (203, 228); (205, 229); (151, 224); (207, 225); (210, 232); (211, 233)].

Definition ctlmap : list Z := designate
  [(* 0x00 *) 0; 0; 0; 0; 0; 0; 0; 0;
   0; 0; 0; 0; 0; 0; 0; 0;
   (* 0x10 *) 17; 23; 5; 18; 20; 25; 21; 9;
   15; 16; 0; 0; 13; 0; 1; 19;
   (* 0x20 *) 4; 6; 7; 8; 10; 11; 12; 0;
   0; 0; 0; 28; 26; 24; 3; 22;
   (* 0x30 *) 2; 14; 13; 0; 0; -17; 0; 0]
  [(156, 13); (181, -17); (200, 226); (208, 227); (201, 230); (209, 231); (203, 228); (205, 229); (151, 224); (207, 225); (210, 232); (211, 233)].

Definition charcode : list (list Z) := [normalmap; shiftmap; ctlmap; ctlmap].

(** [kbdgetc] with [shift] its static variable: the result (-1 for no data)
    and the new [shift]; [None] if a table were indexed out of range. *)
Definition kbdgetc (port : option Z) (shift : Z) : option (Z * Z) :=
  match port with
  | None => Some (-1, shift)
  | Some data =>
      if bool_decide (data = 224) then Some (0, Z.lor shift E0ESC)
      else if bool_decide (Z.land data 128 ≠ 0) then
        let data := if bool_decide (Z.land shift E0ESC ≠ 0) then data else Z.land data 127 in
        sc ← shiftcode !! Z.to_nat data;
        Some (0, Z.land shift (u32 (Z.lnot (Z.lor sc E0ESC))))
      else
        let '(data, shift) :=
          if bool_decide (Z.land shift E0ESC ≠ 0)
          then (Z.lor data 128, Z.land shift (u32 (Z.lnot E0ESC))) else (data, shift) in
        sc ← shiftcode !! Z.to_nat data;
        tc ← togglecode !! Z.to_nat data;
        let shift := Z.lxor (Z.lor shift sc) tc in
        table ← charcode !! Z.to_nat (Z.land shift (Z.lor CTL SHIFT));
        c ← table !! Z.to_nat data;
        let c := if bool_decide (Z.land shift CAPSLOCK ≠ 0) then
                   if bool_decide (97 ≤ c) && bool_decide (c ≤ 122) then u32 (c + (65 - 97))
                   else if bool_decide (65 ≤ c) && bool_decide (c ≤ 90) then u32 (c + (97 - 65))
                   else c
                 else c in
        Some (c, shift)
  end.

(** The characters [consoleintr] gets when [kbdintr] runs with the data bytes
    [codes] in the controller, and the new [shift]. *)
Fixpoint kbd_chars (codes : list Z) (shift : Z) : option (list Z * Z) :=
  match codes with
  | [] => Some ([], shift)
  | d :: codes' =>
      '(c, shift) ← kbdgetc (Some d) shift;
      '(cs, shift) ← kbd_chars codes' shift;
      Some (c :: cs, shift)
  end.

(** [kbdintr]. *)
Definition kbdintr (codes : list Z) (shift : Z) : M cstate (bool * Z) :=
  '(cs, shift) ← deref (kbd_chars codes shift);
  d ← consoleintr cs;
  mret (d, shift).

(** * Every scan code is handled *)

Definition getc_ok (shift data : Z) : bool :=
  match kbdgetc (Some data) shift with
  | Some (c, shift') => bool_decide (0 ≤ c < 256) && bool_decide (0 ≤ shift' < 128)
  | None => false
  end.

Lemma kbdgetc_all : forallb (λ s, forallb (λ d, getc_ok (Z.of_nat s) (Z.of_nat d)) (seq 0 256)) (seq 0 128) = true.
Proof. vm_compute. reflexivity. Qed.

Lemma kbdgetc_ok shift data :
  0 ≤ shift < 128 → 0 ≤ data < 256 →
  ∃ c shift', kbdgetc (Some data) shift = Some (c, shift') ∧ 0 ≤ c < 256 ∧ 0 ≤ shift' < 128.
Proof.
  intros Hs Hd. pose proof kbdgetc_all as H. rewrite forallb_forall in H.
  specialize (H (Z.to_nat shift)). rewrite forallb_forall in H.
  specialize (H ltac:(apply in_seq; lia) (Z.to_nat data) ltac:(apply in_seq; lia)).
  rewrite !Z2Nat.id in H by lia. unfold getc_ok in H. destruct (kbdgetc (Some data) shift) as [[c s']|]; [|done].
  apply andb_true_iff in H as [H1%bool_decide_eq_true H2%bool_decide_eq_true]. eauto.
Qed.

Lemma kbd_chars_ok codes : ∀ shift,
  0 ≤ shift < 128 → Forall byte codes →
  ∃ cs shift', kbd_chars codes shift = Some (cs, shift') ∧ length cs = length codes ∧
    Forall (λ c, 0 ≤ c < 256) cs ∧ 0 ≤ shift' < 128.
Proof.
  induction codes as [|d codes IH]; intros shift Hs Hd; cbn [kbd_chars].
  - by exists [], shift.
  - apply Forall_cons in Hd as [Hd Hds]. destruct (kbdgetc_ok shift d Hs Hd) as (c & s1 & -> & Hc & Hs1).
    destruct (IH s1 Hs1 Hds) as (cs & s2 & E & Hl & Hcs & Hs2). exists (c :: cs), s2. cbn. rewrite E. cbn.
    split; [done|]. split; [simpl; by rewrite Hl|]. split; [by apply Forall_cons|done].
Qed.

(** Press and release one key, possibly with a shift key held. *)
Definition type_key (shifted : bool) (d : Z) : list Z :=
  if shifted then [42; d; Z.lor d 128; 170] else [d; Z.lor d 128].
(** The key and shift that produce a character. *)
Definition key_for (c : Z) : option (bool * Z) :=
  match list_find (c =.) (take 88 normalmap) with
  | Some (i, _) => Some (false, Z.of_nat i)
  | None => match list_find (c =.) (take 88 shiftmap) with
            | Some (i, _) => Some (true, Z.of_nat i)
            | None => None
            end
  end.
Definition types_as (c : Z) : bool :=
  match key_for c with
  | Some (sh, d) =>
      bool_decide (kbd_chars (type_key sh d) 0 = Some (if sh then [0; c; 0; 0] else [c; 0], 0))
  | None => false
  end.

(** The keyboard driver is total on its input: for every value of the
    modifier state that occurs and every sequence of bytes the controller can
    deliver, no table is indexed out of range, each byte gives one character
    in the range of a byte, and the modifier state stays in range.  And the
    tables are complete: every printable ASCII character can be typed, by
    pressing and releasing one key, with or without shift, after which the
    modifiers are as before. *)
Theorem kbd_total_and_complete :
  (∀ codes shift, 0 ≤ shift < 128 → Forall byte codes →
     ∃ cs shift', kbd_chars codes shift = Some (cs, shift') ∧ length cs = length codes ∧
       Forall (λ c, 0 ≤ c < 256) cs ∧ 0 ≤ shift' < 128) ∧
  (∀ c, 32 ≤ c < 127 → ∃ (sh : bool) d,
     kbd_chars (type_key sh d) 0 = Some (if sh then [0; c; 0; 0] else [c; 0], 0)).
Proof.
  split; [intros codes shift; apply kbd_chars_ok|].
  intros c Hc. assert (forallb (λ n, types_as (Z.of_nat n)) (seq 32 95) = true) as H by (vm_compute; reflexivity).
  rewrite forallb_forall in H. specialize (H (Z.to_nat c) ltac:(apply in_seq; lia)). rewrite Z2Nat.id in H by lia.
  unfold types_as in H. destruct (key_for c) as [[sh d]|]; [|done]. apply bool_decide_eq_true in H. eauto.
Qed.
