(* ===== verification/Kalloc.v ===== *)
(** Physical memory and the page allocator (src/kalloc.c).

    Memory is a map from page addresses (kernel virtual addresses, multiples
    of 4096) to the 4096 bytes of the page.  The free list is the linked list
    that kalloc.c threads through the free pages themselves: [r->next] is the
    first word of page [r].  The theorems show that it represents a list of
    distinct pages on which [kfree] pushes and [kalloc] pops. *)
From S2P Require Import Prelude Layout Bytes Spinlock.

(** The addresses the linker script defines: [data] (start of the kernel's
    data) and [end] (first address after the kernel). *)
Class KernelImage : Type := { kdata : Z; kend : Z }.

(** What kernel.ld guarantees about them. *)
Class KernelImageOk (KI : KernelImage) : Prop := {
  kdata_aligned : kdata mod PGSIZE = 0;
  kdata_above : KERNLINK < kdata;
  kend_above : kdata ≤ kend;
  kend_below : kend < KERNBASE + PHYSTOP
}.

(** A page of zeroes, and the junk [kfree] fills a page with. *)
Definition zero_page : list Z := replicate 4096 0.
Definition junk_page : list Z := replicate 4096 1.
Arguments zero_page : simpl never.
Arguments junk_page : simpl never.

Lemma zero_page_ok : length zero_page = 4096%nat ∧ Forall byte zero_page.
Proof. split; [apply length_replicate|]. apply Forall_replicate. unfold byte. lia. Qed.
Lemma junk_page_ok : length junk_page = 4096%nat ∧ Forall byte junk_page.
Proof. split; [apply length_replicate|]. apply Forall_replicate. unfold byte. lia. Qed.

Record kstate := KState {
  kmem_held : bool;               (* kmem.lock *)
  use_lock : bool;
  freelist : Z;
  pages : gmap Z (list Z)
}.

Definition set_kheld b k := KState b (use_lock k) (freelist k) (pages k).
Definition set_use_lock b k := KState (kmem_held k) b (freelist k) (pages k).
Definition set_freelist r k := KState (kmem_held k) (use_lock k) r (pages k).
Definition set_pages m k := KState (kmem_held k) (use_lock k) (freelist k) m.

(** Access to the page at address [v]. *)
Definition page_get (v : Z) : M kstate (list Z) := k ← get; deref (pages k !! v).
Definition page_set (v : Z) (pg : list Z) : M kstate unit :=
  page_get v;; modify (λ k, set_pages (<[v := pg]> (pages k)) k).
(** The [i]-th word of the page. *)
Definition word_get (v : Z) (i : nat) : M kstate Z := pg ← page_get v; mret (word pg i).
Definition word_set (v : Z) (i : nat) (x : Z) : M kstate unit :=
  pg ← page_get v; page_set v (set_word i x pg).

Section kalloc_c.
Context {KI : KernelImage}.

Definition lock_if : M kstate unit :=
  k ← get; if use_lock k then lk_acquire kmem_held set_kheld else mret tt.
Definition unlock_if : M kstate unit :=
  k ← get; if use_lock k then lk_release kmem_held set_kheld else mret tt.

Definition kfree (v : Z) : M kstate unit :=
  panic_if (bool_decide (v mod PGSIZE ≠ 0) || bool_decide (v < kend) || bool_decide (PHYSTOP ≤ V2P v))
    "kfree";;
  page_set v junk_page;;
  lock_if;;
  k ← get;
  word_set v 0 (freelist k);;
  modify (set_freelist v);;
  unlock_if.

Definition kalloc : M kstate Z :=
  lock_if;;
  k ← get;
  let r := freelist k in
  (if bool_decide (r ≠ 0) then next ← word_get r 0; modify (set_freelist next) else mret tt);;
  unlock_if;;
  mret r.

(** The loop of [freerange]; [fuel] bounds the iterations. *)
Fixpoint freerange_loop (fuel : nat) (p vend : Z) : M kstate unit :=
  match fuel with
  | O => undef
  | S fuel' =>
      if bool_decide (u32 (p + PGSIZE) ≤ vend)
      then kfree p;; freerange_loop fuel' (u32 (p + PGSIZE)) vend
      else mret tt
  end.
Definition freerange (vstart vend : Z) : M kstate unit :=
  let p := PGROUNDUP vstart in freerange_loop (Z.to_nat ((vend - p) / PGSIZE) + 1) p vend.

Definition kinit1 (vstart vend : Z) : M kstate unit :=
  modify (set_kheld false);; modify (set_use_lock false);; freerange vstart vend.
Definition kinit2 (vstart vend : Z) : M kstate unit :=
  freerange vstart vend;; modify (set_use_lock true).

(** * The free list *)

(** Pages the allocator may hold. *)
Definition allocatable (v : Z) : Prop :=
  v mod PGSIZE = 0 ∧ kend ≤ v ∧ v < KERNBASE + PHYSTOP.

(** The linked list that starts at [r] has the nodes [l]. *)
Fixpoint chain (m : gmap Z (list Z)) (r : Z) (l : list Z) : Prop :=
  match l with
  | [] => r = 0
  | v :: l' => r = v ∧ ∃ pg, m !! v = Some pg ∧ chain m (word pg 0) l'
  end.

Record kalloc_inv (k : kstate) (l : list Z) : Prop := KallocInv {
  ki_chain : chain (pages k) (freelist k) l;
  ki_nodup : NoDup l;
  ki_range : Forall allocatable l;
  ki_pages v pg : pages k !! v = Some pg → length pg = 4096%nat ∧ Forall byte pg;
  ki_dom v : allocatable v → is_Some (pages k !! v);
  ki_held : kmem_held k = false
}.

(** ** The operations on the list *)

Context {KO : KernelImageOk KI}.

Lemma kend_pos : 2148532224 ≤ kend < 2382364672.
Proof.
  pose proof kdata_above. pose proof kend_above. pose proof kend_below.
  unfold KERNLINK, KERNBASE, EXTMEM, PHYSTOP in *. lia.
Qed.

Lemma allocatable_pos v : allocatable v → 0 < v < 4294967296 ∧ V2P v < PHYSTOP.
Proof.
  intros (_ & H1 & H2). pose proof kend_pos. unfold V2P, KERNBASE, PHYSTOP in *.
  rewrite u32_small by lia. lia.
Qed.

Lemma chain_insert m r l v pg : v ∉ l → chain m r l → chain (<[v:=pg]> m) r l.
Proof.
  revert r. induction l as [|u l IH]; intros r Hv; [done|].
  intros (-> & pg' & Hu & Hc). apply not_elem_of_cons in Hv as [Hne Hv].
  split; [done|]. exists pg'. split; [by rewrite lookup_insert_ne|by apply IH].
Qed.

Lemma freelist_range k l : kalloc_inv k l → 0 ≤ freelist k < 4294967296.
Proof.
  intros [Hc _ Hr _ _ _]. destruct l as [|v l]; simpl in Hc; [lia|].
  destruct Hc as [-> _]. apply Forall_cons in Hr as [Hv _]. apply allocatable_pos in Hv. lia.
Qed.

(** The page a freed page becomes: junk, with the link in its first word. *)
Definition freed_page (next : Z) : list Z := set_word 0 next junk_page.

Lemma freed_page_ok next :
  length (freed_page next) = 4096%nat ∧ Forall byte (freed_page next) ∧ word (freed_page next) 0 = u32 next.
Proof.
  destruct junk_page_ok as [Hl Hb]. unfold freed_page. split_and!.
  - rewrite length_set_word; lia.
  - by apply Forall_set_word.
  - rewrite word_set_word by lia. by rewrite bool_decide_true.
Qed.

Lemma lock_if_run k : kmem_held k = false → lock_if k = Ret tt (set_kheld (use_lock k) k) [].
Proof.
  intros H. unfold lock_if. erewrite bind_run by reflexivity. rewrite prepend_nil.
  destruct k as [h u f p]; simpl in *. subst. destruct u; [|done]. by rewrite lk_acquire_run.
Qed.
Lemma unlock_if_run k b :
  kmem_held k = false → b = use_lock k → unlock_if (set_kheld b k) = Ret tt k [].
Proof.
  intros H ->. unfold unlock_if. erewrite bind_run by reflexivity. rewrite prepend_nil.
  destruct k as [h u f p]; simpl in *. subst. destruct u; [|done]. by rewrite lk_release_run.
Qed.

Lemma page_get_run k v pg : pages k !! v = Some pg → page_get v k = Ret pg k [].
Proof. intros H. unfold page_get. munfold. by rewrite H. Qed.
Lemma page_set_run k v pg pg' :
  pages k !! v = Some pg → page_set v pg' k = Ret tt (set_pages (<[v := pg']> (pages k)) k) [].
Proof. intros H. unfold page_set. by erewrite bind_run by (by apply page_get_run). Qed.
Lemma word_get_run k v i pg : pages k !! v = Some pg → word_get v i k = Ret (word pg i) k [].
Proof. intros H. unfold word_get. by erewrite bind_run by (by apply page_get_run). Qed.
Lemma word_set_run k v i x pg :
  pages k !! v = Some pg → word_set v i x k = Ret tt (set_pages (<[v := set_word i x pg]> (pages k)) k) [].
Proof.
  intros H. unfold word_set. erewrite bind_run by (by apply page_get_run).
  by rewrite prepend_nil, (page_set_run k v pg).
Qed.

Lemma kfree_run k l v :
  kalloc_inv k l → allocatable v →
  kfree v k = Ret tt (set_freelist v (set_pages (<[v := freed_page (freelist k)]> (pages k)) k)) [].
Proof.
  intros Hk Hv. pose proof (allocatable_pos v Hv) as [Hpos HP]. pose proof Hv as (Hmod & Hge & Hlt).
  destruct (ki_dom _ _ Hk v Hv) as [pg Hpg]. pose proof (ki_held _ _ Hk) as Hh.
  unfold kfree. rewrite (bool_decide_false (v mod PGSIZE ≠ 0)) by (intros H; by apply H).
  rewrite !bool_decide_false by lia. erewrite bind_run by reflexivity.
  erewrite bind_run by (by eapply page_set_run). rewrite !prepend_nil.
  erewrite bind_run by (by apply lock_if_run). rewrite prepend_nil.
  erewrite bind_run by reflexivity. rewrite prepend_nil.
  erewrite bind_run by (eapply word_set_run; simpl; apply lookup_insert_eq). rewrite prepend_nil.
  erewrite bind_run by reflexivity. rewrite prepend_nil. simpl. rewrite insert_insert_eq.
  apply (unlock_if_run (set_freelist v (set_pages (<[v := freed_page (freelist k)]> (pages k)) k))); done.
Qed.

Lemma kfree_push k l v :
  kalloc_inv k l → allocatable v → v ∉ l →
  ∃ k', kfree v k = Ret tt k' [] ∧ kalloc_inv k' (v :: l) ∧
    (∀ u, u ≠ v → pages k' !! u = pages k !! u) ∧ use_lock k' = use_lock k.
Proof.
  intros Hk Hv Hnl. eexists. split; [by eapply kfree_run|]. split_and!; [| |done].
  - destruct (freed_page_ok (freelist k)) as (Hl & Hb & Hw). split; simpl.
    + split; [done|]. eexists. split; [apply lookup_insert_eq|].
      rewrite Hw, u32_small by (by eapply freelist_range). by apply chain_insert, Hk.
    + apply NoDup_cons. split; [done|apply Hk].
    + apply Forall_cons. split; [done|apply Hk].
    + intros u pg. destruct (decide (u = v)) as [->|]; [rewrite lookup_insert_eq; by intros [= <-]|].
      rewrite lookup_insert_ne by done. apply Hk.
    + intros u Hu. destruct (decide (u = v)) as [->|]; [rewrite lookup_insert_eq; eauto|].
      rewrite lookup_insert_ne by done. by apply (ki_dom _ _ Hk).
    + apply Hk.
  - intros u Hu. simpl. by rewrite lookup_insert_ne.
Qed.

Lemma kfree_bad k v :
  0 ≤ v < 4294967296 → ¬ allocatable v → kfree v k = Panic "kfree" k.
Proof.
  intros Hv Hna. unfold kfree.
  assert (bool_decide (v mod PGSIZE ≠ 0) || bool_decide (v < kend) || bool_decide (PHYSTOP ≤ V2P v)
    = true) as ->; [|done].
  rewrite !orb_true_iff, !bool_decide_eq_true. pose proof kend_pos.
  destruct (decide (v mod PGSIZE = 0)); [|auto]. destruct (decide (v < kend)); [auto|]. right.
  unfold allocatable in Hna. unfold V2P. rewrite u32_small; unfold KERNBASE, PHYSTOP in *; lia.
Qed.

Lemma kalloc_empty k : kalloc_inv k [] → kalloc k = Ret 0 k [].
Proof.
  intros Hk. pose proof (ki_chain _ _ Hk) as Hc. simpl in Hc. unfold kalloc.
  erewrite bind_run by (apply lock_if_run, Hk). rewrite prepend_nil.
  erewrite bind_run by reflexivity. rewrite prepend_nil. simpl. rewrite Hc. simpl.
  erewrite bind_run by reflexivity. rewrite prepend_nil.
  erewrite bind_run by (apply unlock_if_run; [apply Hk|done]). done.
Qed.

Lemma kalloc_pop k v l :
  kalloc_inv k (v :: l) →
  allocatable v ∧ v ∉ l ∧
  ∃ k', kalloc k = Ret v k' [] ∧ kalloc_inv k' l ∧ pages k' = pages k ∧ use_lock k' = use_lock k.
Proof.
  intros Hk. pose proof (ki_chain _ _ Hk) as (Hr & pg & Hpg & Hc).
  pose proof (ki_range _ _ Hk) as Hall. apply Forall_cons in Hall as [Hv Hall].
  pose proof (ki_nodup _ _ Hk) as Hnd. apply NoDup_cons in Hnd as [Hni Hnd].
  pose proof (allocatable_pos v Hv) as [Hpos _]. split; [done|]. split; [done|].
  exists (set_freelist (word pg 0) k). split; [|split; [split; try done; apply Hk|done]].
  unfold kalloc. erewrite bind_run by (apply lock_if_run, Hk). rewrite prepend_nil.
  erewrite bind_run by reflexivity. rewrite prepend_nil. simpl.
  rewrite Hr, bool_decide_true by lia.
  erewrite bind_run.
  2: { erewrite bind_run by (apply word_get_run; exact Hpg). reflexivity. }
  rewrite prepend_nil. erewrite bind_run.
  2: { apply (unlock_if_run (set_freelist (word pg 0) k)); [apply Hk|done]. }
  done.
Qed.

(** [kfree] of a page that is not free puts it at the head of the free
    list; [kalloc] takes the head and returns 0 only when the list is empty;
    an address that is not a page between the kernel's end and PHYSTOP makes
    [kfree] panic.  No other page is touched. *)
Theorem kalloc_kfree_list k l :
  kalloc_inv k l →
  (∀ v, allocatable v → v ∉ l →
     ∃ k', kfree v k = Ret tt k' [] ∧ kalloc_inv k' (v :: l) ∧
       ∀ u, u ≠ v → pages k' !! u = pages k !! u) ∧
  (∀ v, 0 ≤ v < 4294967296 → ¬ allocatable v → kfree v k = Panic "kfree" k) ∧
  match l with
  | [] => kalloc k = Ret 0 k []
  | v :: l' => v ≠ 0 ∧ ∃ k', kalloc k = Ret v k' [] ∧ kalloc_inv k' l' ∧ pages k' = pages k
  end.
Proof.
  intros Hk. split_and!.
  - intros v Hv Hnl. destruct (kfree_push k l v Hk Hv Hnl) as (k' & ? & ? & ? & _). eauto.
  - intros v. apply kfree_bad.
  - destruct l as [|v l]; [by apply kalloc_empty|].
    destruct (kalloc_pop k v l Hk) as (Hv & _ & k' & ? & ? & ? & _).
    pose proof (allocatable_pos v Hv). split; [lia|eauto].
Qed.

(** ** Filling the list *)

Definition page_range (p : Z) (n : nat) : list Z := (λ i, p + PGSIZE * Z.of_nat i) <$> seq 0 n.

Lemma page_range_S p n : page_range p (S n) = p :: page_range (p + PGSIZE) n.
Proof.
  unfold page_range, PGSIZE. cbn [seq]. rewrite fmap_cons. f_equal; [simpl; lia|].
  rewrite <- fmap_S_seq, <- list_fmap_compose.
  apply list_fmap_ext. intros _ i _. simpl. lia.
Qed.

Lemma freerange_loop_run fuel p n l k :
  kalloc_inv k l → (n < fuel)%nat → p mod PGSIZE = 0 → kend ≤ p →
  Forall (λ v, v ∉ l) (page_range p n) →
  ∀ vend, (n = 0%nat ∨ p + PGSIZE * Z.of_nat n ≤ vend) → vend < p + PGSIZE * Z.of_nat n + PGSIZE →
  vend ≤ KERNBASE + PHYSTOP → p ≤ KERNBASE + PHYSTOP + PGSIZE →
  ∃ k', freerange_loop fuel p vend k = Ret tt k' [] ∧ kalloc_inv k' (rev (page_range p n) ++ l) ∧
    use_lock k' = use_lock k.
Proof.
  revert p n l k. induction fuel as [|fuel IH]; intros p n l k Hk Hf Hp Hend Hnl vend Hv0 Hv Htop Hptop; [lia|].
  pose proof kend_pos. cbn [freerange_loop]. unfold KERNBASE, PHYSTOP, PGSIZE in *.
  rewrite u32_small by lia. destruct n as [|n].
  - rewrite bool_decide_false by lia. by exists k.
  - rewrite bool_decide_true by lia. rewrite page_range_S in *. apply Forall_cons in Hnl as [Hp0 Hnl].
    unfold PGSIZE in *.
    destruct (kfree_push k l p Hk) as (k1 & E1 & Hk1 & _ & Hu1);
      [split_and!; unfold KERNBASE, PHYSTOP, PGSIZE; lia|done|].
    destruct (IH (p + 4096) n (p :: l) k1 Hk1) with (vend := vend) as (k2 & E2 & Hk2 & Hu2); try lia.
    + rewrite Z.add_mod, Hp by lia. done.
    + apply Forall_forall. intros v Hv'. apply not_elem_of_cons. split.
      * unfold page_range in Hv'. apply list_elem_of_fmap in Hv' as (i & -> & _). unfold PGSIZE. lia.
      * by eapply Forall_forall in Hnl.
    + exists k2. split; [|split; [|congruence]].
      * erewrite bind_run by exact E1. by rewrite prepend_nil.
      * cbn [rev]. rewrite <- (assoc_L (++)). done.
Qed.

(** The number of whole pages of a range. *)
Definition npages (vstart vend : Z) : nat := Z.to_nat ((vend - PGROUNDUP vstart) / PGSIZE).
Definition range_pages (vstart vend : Z) : list Z :=
  page_range (PGROUNDUP vstart) (npages vstart vend).

Lemma range_pages_elem vstart vend v :
  0 ≤ vstart ≤ 4294963200 → v ∈ range_pages vstart vend →
  v mod PGSIZE = 0 ∧ vstart ≤ v ∧ v + PGSIZE ≤ vend.
Proof.
  intros Hs. unfold range_pages, page_range, npages. intros (i & -> & Hi)%list_elem_of_fmap.
  apply elem_of_seq in Hi as [_ Hi]. destruct (PGROUNDUP_spec vstart Hs) as (_ & Hm & Hr).
  unfold PGSIZE in *. split_and!.
  - rewrite Z.mul_comm, Z_mod_plus_full. done.
  - lia.
  - Z.div_mod_to_equations. lia.
Qed.

Lemma freerange_run vstart vend l k :
  kalloc_inv k l → kend ≤ vstart → vstart ≤ vend → vend ≤ KERNBASE + PHYSTOP →
  (∀ v, vstart ≤ v → v ∉ l) →
  ∃ k', freerange vstart vend k = Ret tt k' [] ∧
    kalloc_inv k' (rev (range_pages vstart vend) ++ l) ∧ use_lock k' = use_lock k.
Proof.
  intros Hk Hs Hse Hv Hnl. pose proof kend_pos. unfold freerange. unfold KERNBASE, PHYSTOP in *.
  destruct (PGROUNDUP_spec vstart) as (_ & Hm & Hr); [lia|].
  apply freerange_loop_run; try done; unfold npages, KERNBASE, PHYSTOP, PGSIZE in *; try lia.
  - apply Forall_forall. intros v Hin. apply Hnl. apply range_pages_elem in Hin; lia.
  - Z.div_mod_to_equations. lia.
  - Z.div_mod_to_equations. lia.
Qed.

(** [kinit1] then [kinit2] put every page between the two addresses given
    to them on the free list, each once, and switch locking on. *)
Theorem kinit_fills_list k a b c d :
  kalloc_inv k [] → kend ≤ a → a ≤ b → b ≤ c → c ≤ d → d ≤ KERNBASE + PHYSTOP →
  ∃ k', (kinit1 a b;; kinit2 c d) k = Ret tt k' [] ∧ use_lock k' = true ∧
    kalloc_inv k' (rev (range_pages c d) ++ rev (range_pages a b)).
Proof.
  intros Hk Ha Hb Hbc Hd Htop. pose proof kend_pos. unfold kinit1, kinit2.
  assert (kalloc_inv (set_use_lock false (set_kheld false k)) []) as Hk0
    by (destruct Hk; by split).
  destruct (freerange_run a b [] _ Hk0) as (k1 & E1 & Hk1 & Hu1); [lia..| |].
  { intros v _. apply not_elem_of_nil. }
  rewrite app_nil_r in Hk1.
  destruct (freerange_run c d _ _ Hk1) as (k2 & E2 & Hk2 & Hu2); [lia..| |].
  { intros v Hv Hin. apply list_elem_of_In in Hin. rewrite <- in_rev in Hin.
    apply list_elem_of_In, range_pages_elem in Hin; unfold KERNBASE, PHYSTOP, PGSIZE in *; lia. }
  exists (set_use_lock true k2). split_and!; [|done|].
  - erewrite bind_run.
    2: { erewrite bind_run by reflexivity. erewrite bind_run by reflexivity. rewrite !prepend_nil. exact E1. }
    rewrite prepend_nil. by erewrite bind_run by exact E2.
  - destruct Hk2; by split.
Qed.
End kalloc_c.

(** * A small memory *)

(** A kernel that ends one page below the top of memory. *)
Definition tiny_image : KernelImage := {| kdata := KERNBASE + PHYSTOP - 8192; kend := KERNBASE + PHYSTOP - 8192 |}.
Lemma tiny_image_ok : KernelImageOk tiny_image.
Proof. split; simpl; unfold KERNLINK, EXTMEM, KERNBASE, PHYSTOP; try lia. reflexivity. Qed.

Definition tiny_start : Z := KERNBASE + PHYSTOP - 8192.
Definition tiny_memory : gmap Z (list Z) :=
  <[tiny_start := zero_page]> (<[tiny_start + 4096 := zero_page]> ∅).
Definition tiny_state : kstate := KState false false 0 tiny_memory.

Lemma tiny_inv : kalloc_inv (KI := tiny_image) tiny_state [].
Proof.
  split; try done; [constructor| |].
  - intros v pg. unfold tiny_state, tiny_memory. cbn [pages].
    intros [[_ <-]|[_ [[_ <-]|[_ H]]%lookup_insert_Some]]%lookup_insert_Some;
      [apply zero_page_ok..|done].
  - intros v (Hm & H1 & H2). simpl in H1. unfold PGSIZE, KERNBASE, PHYSTOP in *.
    assert (v = tiny_start ∨ v = tiny_start + 4096) as [->| ->].
    { unfold tiny_start, KERNBASE, PHYSTOP. Z.div_mod_to_equations. lia. }
    + apply lookup_insert_is_Some. auto.
    + apply lookup_insert_is_Some. right. split; [unfold tiny_start; lia|].
      apply lookup_insert_is_Some. auto.
Qed.

Lemma kinit_fills_list_witness :
  ∃ k', (kinit1 (KI := tiny_image) tiny_start (tiny_start + 4096);;
         kinit2 (KI := tiny_image) (tiny_start + 4096) (tiny_start + 8192)) tiny_state = Ret tt k' [] ∧
    kalloc_inv (KI := tiny_image) k' [tiny_start + 4096; tiny_start].
Proof.
  assert (kend (KernelImage := tiny_image) = tiny_start) as Hend by reflexivity.
  destruct (kinit_fills_list (KI := tiny_image) (KO := tiny_image_ok) tiny_state tiny_start
    (tiny_start + 4096) (tiny_start + 4096) (tiny_start + 8192) tiny_inv) as (k' & H1 & _ & H2).
  - rewrite Hend. lia.
  - lia.
  - lia.
  - lia.
  - unfold tiny_start. lia.
  - exists k'. exact (conj H1 H2).
Defined.

Lemma kalloc_kfree_list_witness :
  ∃ k', kfree (KI := tiny_image) tiny_start tiny_state = Ret tt k' [] ∧
    kalloc_inv (KI := tiny_image) k' [tiny_start].
Proof.
  destruct (kalloc_kfree_list (KI := tiny_image) (KO := tiny_image_ok) tiny_state [] tiny_inv)
    as (H & _ & _).
  destruct (H tiny_start) as (k' & H1 & H2 & _).
  - split_and!; [reflexivity|simpl; unfold tiny_start; lia|unfold tiny_start; lia].
  - apply not_elem_of_nil.
  - exists k'. exact (conj H1 H2).
Defined.

(** ** Memory before the allocator runs *)

(** Zeroes from [base], where a kernel image ends, to the end of memory. *)
Definition image_to (base : Z) : KernelImage := {| kdata := base; kend := base |}.
Definition cleared_from (base : Z) : kstate :=
  KState false false 0 (list_to_map ((λ i, (base + 4096 * Z.of_nat i, zero_page)) <$> seq 0 (Z.to_nat ((KERNBASE + PHYSTOP - base) / 4096)))).

Lemma cleared_inv base : base mod 4096 = 0 → kalloc_inv (KI := image_to base) (cleared_from base) [].
Proof.
  intros Hb. split; [done|constructor|constructor| | |done]; unfold cleared_from; cbn [pages].
  - intros v pg Hv%elem_of_list_to_map_2. apply list_elem_of_fmap in Hv as (i & [= -> ->] & _). apply zero_page_ok.
  - intros v (Hm & H1 & H2). change (kend (KernelImage := image_to base)) with base in H1. unfold KERNBASE, PHYSTOP, PGSIZE in *.
    apply not_eq_None_Some. rewrite <- not_elem_of_list_to_map. intros Hn. apply Hn. rewrite <- list_fmap_compose. apply list_elem_of_fmap.
    exists (Z.to_nat ((v - base) / 4096)). split; [cbn; Z.div_mod_to_equations; lia|]. apply elem_of_seq. Z.div_mod_to_equations. lia.
Qed.
