(* ===== verification/Vm.v ===== *)
(** Page tables and user address spaces (src/vm.c).

    A page directory is the address of its page; a [pte_t*] is a page-table
    page and an index.  Reading the tables as the MMU does gives the
    translation [xlate], in terms of which the theorems are stated. *)
From S2P Require Import Prelude Layout Bytes Spinlock Format Kalloc.

Section vm_c.
Context {KI : KernelImage}.

Definition has (flag x : Z) : bool := bool_decide (Z.land x flag ≠ 0).
Definition pdx (va : Z) : nat := Z.to_nat (PDX va).
Definition ptx (va : Z) : nat := Z.to_nat (PTX va).

Definition walkpgdir (pgdir va : Z) (alloc : bool) : M kstate (option (Z * nat)) :=
  pde ← word_get pgdir (pdx va);
  if has PTE_P pde then mret (Some (P2V (PTE_ADDR pde), ptx va))
  else if negb alloc then mret None
  else
    pgtab ← kalloc;
    if bool_decide (pgtab = 0) then mret None
    else
      page_set pgtab zero_page;;
      word_set pgdir (pdx va) (Z.lor (Z.lor (Z.lor (V2P pgtab) PTE_P) PTE_W) PTE_U);;
      mret (Some (pgtab, ptx va)).

(** The loop of [mappages]; [fuel] counts the pages left. *)
Fixpoint mappages_loop (fuel : nat) (pgdir a last pa perm : Z) : M kstate Z :=
  match fuel with
  | O => undef
  | S fuel' =>
      o ← walkpgdir pgdir a true;
      match o with
      | None => mret (-1)
      | Some (t, i) =>
          pte ← word_get t i;
          panic_if (has PTE_P pte) "remap";;
          word_set t i (Z.lor (Z.lor pa perm) PTE_P);;
          if bool_decide (a = last) then mret 0
          else mappages_loop fuel' pgdir (u32 (a + PGSIZE)) last (u32 (pa + PGSIZE)) perm
      end
  end.
Definition mappages (pgdir va size pa perm : Z) : M kstate Z :=
  let a := PGROUNDDOWN va in
  let last := PGROUNDDOWN (u32 (va + size - 1)) in
  mappages_loop (Z.to_nat (u32 (last - a) / PGSIZE) + 1) pgdir a last pa perm.

(** The loop of [deallocuvm]. *)
Fixpoint deallocuvm_loop (fuel : nat) (pgdir a oldsz : Z) : M kstate unit :=
  match fuel with
  | O => undef
  | S fuel' =>
      if bool_decide (a < oldsz) then
        o ← walkpgdir pgdir a false;
        match o with
        | None =>
            let a := u32 (PGADDR (PDX a + 1) 0 0 - PGSIZE) in
            deallocuvm_loop fuel' pgdir (u32 (a + PGSIZE)) oldsz
        | Some (t, i) =>
            pte ← word_get t i;
            (if has PTE_P pte then
               let pa := PTE_ADDR pte in
               panic_if (bool_decide (pa = 0)) "kfree";;
               kfree (P2V pa);;
               word_set t i 0
             else mret tt);;
            deallocuvm_loop fuel' pgdir (u32 (a + PGSIZE)) oldsz
        end
      else mret tt
  end.
Definition deallocuvm (pgdir oldsz newsz : Z) : M kstate Z :=
  if bool_decide (oldsz ≤ newsz) then mret oldsz
  else
    deallocuvm_loop (Z.to_nat (oldsz / PGSIZE) + 2) pgdir (PGROUNDUP newsz) oldsz;;
    mret newsz.

Definition freevm (pgdir : Z) : M kstate unit :=
  panic_if (bool_decide (pgdir = 0)) "freevm: no pgdir";;
  deallocuvm pgdir KERNBASE 0;;
  foreach (seq 0 NPDENTRIES) (λ i,
    pde ← word_get pgdir i;
    if has PTE_P pde then kfree (P2V (PTE_ADDR pde)) else mret tt);;
  kfree pgdir.

(** [struct kmap] and the table of kernel mappings. *)
Record kmap_entry := Kmap { km_virt : Z; km_start : Z; km_end : Z; km_perm : Z }.
Definition kmap : list kmap_entry :=
  [ Kmap KERNBASE 0 EXTMEM PTE_W;
    Kmap KERNLINK (V2P KERNLINK) (V2P kdata) 0;
    Kmap kdata (V2P kdata) PHYSTOP PTE_W;
    Kmap DEVSPACE DEVSPACE 0 PTE_W ].

(** [for(k = kmap; ...)]: -1 at the first failure. *)
Fixpoint setupkvm_loop (pgdir : Z) (l : list kmap_entry) : M kstate Z :=
  match l with
  | [] => mret 0
  | k :: l' =>
      r ← mappages pgdir (km_virt k) (u32 (km_end k - km_start k)) (km_start k) (km_perm k);
      if bool_decide (r < 0) then mret (-1) else setupkvm_loop pgdir l'
  end.
Definition setupkvm : M kstate Z :=
  pgdir ← kalloc;
  if bool_decide (pgdir = 0) then mret 0
  else
    page_set pgdir zero_page;;
    panic_if (bool_decide (P2V PHYSTOP > DEVSPACE)) "PHYSTOP too high";;
    r ← setupkvm_loop pgdir kmap;
    if bool_decide (r < 0) then freevm pgdir;; mret 0 else mret pgdir.

Definition inituvm (pgdir : Z) (init : list Z) : M kstate unit :=
  panic_if (bool_decide (PGSIZE ≤ Z.of_nat (length init))) "inituvm: more than a page";;
  mem ← kalloc;
  page_set mem zero_page;;
  mappages pgdir 0 PGSIZE (V2P mem) (Z.lor PTE_W PTE_U);;
  pg ← page_get mem;
  page_set mem (splice pg 0 init).

Definition out_of_memory : string := "allocuvm out of memory" +:+ String (Ascii.ascii_of_nat 10) EmptyString.
Definition out_of_memory_2 : string :=
  "allocuvm out of memory (2)" +:+ String (Ascii.ascii_of_nat 10) EmptyString.

Fixpoint allocuvm_loop (fuel : nat) (pgdir a oldsz newsz : Z) : M kstate Z :=
  match fuel with
  | O => undef
  | S fuel' =>
      if bool_decide (a < newsz) then
        mem ← kalloc;
        if bool_decide (mem = 0) then
          cprintf out_of_memory [];;
          deallocuvm pgdir newsz oldsz;; mret 0
        else
          page_set mem zero_page;;
          r ← mappages pgdir a PGSIZE (V2P mem) (Z.lor PTE_W PTE_U);
          if bool_decide (r < 0) then
            cprintf out_of_memory_2 [];;
            deallocuvm pgdir newsz oldsz;; kfree mem;; mret 0
          else allocuvm_loop fuel' pgdir (u32 (a + PGSIZE)) oldsz newsz
      else mret newsz
  end.
Definition allocuvm (pgdir oldsz newsz : Z) : M kstate Z :=
  if bool_decide (KERNBASE ≤ newsz) then mret 0
  else if bool_decide (newsz < oldsz) then mret oldsz
  else allocuvm_loop (Z.to_nat (newsz / PGSIZE) + 2) pgdir (PGROUNDUP oldsz) oldsz newsz.

Definition clearpteu (pgdir uva : Z) : M kstate unit :=
  o ← walkpgdir pgdir uva false;
  match o with
  | None => panic "clearpteu"
  | Some (t, i) => pte ← word_get t i; word_set t i (Z.land pte (u32 (Z.lnot PTE_U)))
  end.

(** The loop of [copyuvm]: 0 when it jumps to [bad]. *)
Fixpoint copyuvm_loop (fuel : nat) (pgdir d i sz : Z) : M kstate Z :=
  match fuel with
  | O => undef
  | S fuel' =>
      if bool_decide (i < sz) then
        o ← walkpgdir pgdir i false;
        match o with
        | None => panic "copyuvm: pte should exist"
        | Some (t, j) =>
            pte ← word_get t j;
            panic_if (negb (has PTE_P pte)) "copyuvm: page not present";;
            mem ← kalloc;
            if bool_decide (mem = 0) then freevm d;; mret 0
            else
              pg ← page_get (P2V (PTE_ADDR pte));
              page_set mem pg;;
              r ← mappages d i PGSIZE (V2P mem) (PTE_FLAGS pte);
              if bool_decide (r < 0) then freevm d;; mret 0
              else copyuvm_loop fuel' pgdir d (u32 (i + PGSIZE)) sz
        end
      else mret d
  end.
Definition copyuvm (pgdir sz : Z) : M kstate Z :=
  d ← setupkvm;
  if bool_decide (d = 0) then mret 0
  else copyuvm_loop (Z.to_nat (sz / PGSIZE) + 2) pgdir d 0 sz.

(** [uva2ka] reads through the result of [walkpgdir] without checking it. *)
Definition uva2ka (pgdir uva : Z) : M kstate Z :=
  o ← walkpgdir pgdir uva false;
  ti ← deref o;
  pte ← word_get ti.1 ti.2;
  if negb (has PTE_P pte) then mret 0
  else if negb (has PTE_U pte) then mret 0
  else mret (P2V (PTE_ADDR pte)).

(** [copyout]: [buf] is the bytes still to copy. *)
Fixpoint copyout_loop (fuel : nat) (pgdir va : Z) (buf : list Z) : M kstate Z :=
  match fuel with
  | O => undef
  | S fuel' =>
      if bool_decide (0 < Z.of_nat (length buf)) then
        let va0 := PGROUNDDOWN va in
        pa0 ← uva2ka pgdir va0;
        if bool_decide (pa0 = 0) then mret (-1)
        else
          let n := Z.min (PGSIZE - (va - va0)) (Z.of_nat (length buf)) in
          pg ← page_get pa0;
          page_set pa0 (splice pg (Z.to_nat (va - va0)) (take (Z.to_nat n) buf));;
          copyout_loop fuel' pgdir (u32 (va0 + PGSIZE)) (drop (Z.to_nat n) buf)
      else mret 0
  end.
Definition copyout (pgdir va : Z) (buf : list Z) : M kstate Z :=
  copyout_loop (length buf + 1) pgdir va buf.

End vm_c.

(** * Address translation *)

Section translation.
Implicit Types m : gmap Z (list Z).

(** Entry [i] of directory [d], and the table it points to. *)
Definition pde_at m (d : Z) (i : nat) : Z := match m !! d with Some pg => word pg i | None => 0 end.
Definition tab_at m (d : Z) (i : nat) : option Z :=
  if has PTE_P (pde_at m d i) then Some (P2V (PTE_ADDR (pde_at m d i))) else None.

(** The page-table entry the MMU finds for [va]; 0 if there is none. *)
Definition xlate m (d va : Z) : Z :=
  match tab_at m d (pdx va) with
  | Some t => match m !! t with Some pg => word pg (ptx va) | None => 0 end
  | None => 0
  end.
End translation.

Section vm_inv.
Context {KI : KernelImage} {KO : KernelImageOk KI}.
Implicit Types (m : gmap Z (list Z)) (k : kstate) (l : list Z).

(** A directory and its tables are distinct pages in use. *)
Record vm_ok m l (d : Z) : Prop := VmOk {
  vo_dir : allocatable d ∧ d ∉ l;
  vo_tab i t : (i < 1024)%nat → tab_at m d i = Some t → allocatable t ∧ t ∉ l ∧ t ≠ d;
  vo_inj i j t : (i < 1024)%nat → (j < 1024)%nat →
    tab_at m d i = Some t → tab_at m d j = Some t → i = j
}.

(** Page [u] is part of the tables of [d]. *)
Definition table_page m (d u : Z) : Prop := u = d ∨ ∃ i, (i < 1024)%nat ∧ tab_at m d i = Some u.

Lemma pdx_lt va : 0 ≤ va < 4294967296 → (pdx va < 1024)%nat.
Proof.
  intros H. unfold pdx. rewrite PDX_spec by done.
  assert (va / 4194304 < 1024) by (apply Z.div_lt_upper_bound; lia). lia.
Qed.
Lemma ptx_lt va : 0 ≤ va < 4294967296 → (ptx va < 1024)%nat.
Proof.
  intros H. unfold ptx. rewrite PTX_spec by done. pose proof (Z.mod_pos_bound (va / 4096) 1024). lia.
Qed.

(** The two indices determine the page. *)
Lemma same_page va va' :
  0 ≤ va < 4294967296 → 0 ≤ va' < 4294967296 →
  pdx va = pdx va' ∧ ptx va = ptx va' ↔ va / 4096 = va' / 4096.
Proof.
  intros H H'. unfold pdx, ptx. rewrite !PDX_spec, !PTX_spec by done. split.
  - intros [H1 H2]. assert (0 ≤ va / 4194304 ∧ 0 ≤ va' / 4194304) as [? ?]
      by (split; apply Z.div_pos; lia).
    apply Z2Nat.inj in H1; [|lia|lia].
    apply Z2Nat.inj in H2; [|by apply Z.mod_pos_bound..].
    Z.div_mod_to_equations. lia.
  - intros H1. rewrite H1. split; [|done]. f_equal. Z.div_mod_to_equations. lia.
Qed.

(** Writing a page that is not free keeps the allocator's invariant. *)
Lemma kalloc_inv_page k l u pg :
  kalloc_inv k l → u ∉ l → length pg = 4096%nat → Forall byte pg →
  kalloc_inv (set_pages (<[u := pg]> (pages k)) k) l.
Proof.
  intros [H1 H2 H3 H4 H5 H6] Hu Hl Hb. split; simpl; try done.
  - by apply chain_insert.
  - intros v pg'. destruct (decide (v = u)) as [->|].
    + rewrite lookup_insert_eq. by intros [= <-].
    + rewrite lookup_insert_ne by done. apply H4.
  - intros v Hv. destruct (decide (v = u)) as [->|].
    + rewrite lookup_insert_eq. eauto.
    + rewrite lookup_insert_ne by done. by apply H5.
Qed.

Lemma tab_at_other m d i u pg : u ≠ d → tab_at (<[u := pg]> m) d i = tab_at m d i.
Proof. intros H. unfold tab_at, pde_at. by rewrite lookup_insert_ne. Qed.

Lemma vm_ok_other m l d u pg : vm_ok m l d → u ≠ d → vm_ok (<[u := pg]> m) l d.
Proof.
  intros [H1 H2 H3] Hu. split; [done| |].
  - intros i t Hi. rewrite tab_at_other by done. eauto.
  - intros i j t Hi Hj. rewrite !tab_at_other by done. eauto.
Qed.

(** ** Changing one entry *)

Lemma set_pte k l d va t x :
  kalloc_inv k l → vm_ok (pages k) l d → 0 ≤ va < 4294967296 →
  tab_at (pages k) d (pdx va) = Some t →
  ∃ pg, pages k !! t = Some pg ∧
  let k' := set_pages (<[t := set_word (ptx va) x pg]> (pages k)) k in
  word_get t (ptx va) k = Ret (xlate (pages k) d va) k [] ∧
  word_set t (ptx va) x k = Ret tt k' [] ∧
  kalloc_inv k' l ∧ vm_ok (pages k') l d ∧
  ∀ va', 0 ≤ va' < 4294967296 → xlate (pages k') d va' =
    if bool_decide (va' / 4096 = va / 4096) then u32 x else xlate (pages k) d va'.
Proof.
  intros Hk Hv Hva Ht. destruct (vo_tab _ _ _ Hv (pdx va) t (pdx_lt va Hva) Ht) as (Hta & Htl & Htd).
  destruct (ki_dom _ _ Hk t Hta) as [pg Hpg]. destruct (ki_pages _ _ Hk t pg Hpg) as [Hlen Hb].
  pose proof (ptx_lt va Hva) as Hi. exists pg. split; [done|]. simpl. split_and!.
  - unfold xlate. rewrite Ht, Hpg. by apply word_get_run.
  - by apply word_set_run.
  - apply kalloc_inv_page; try done; [rewrite length_set_word; lia|by apply Forall_set_word].
  - by apply vm_ok_other.
  - intros va' Hva'. unfold xlate. rewrite tab_at_other by done.
    destruct (tab_at (pages k) d (pdx va')) as [t'|] eqn:Ht'.
    2: { rewrite bool_decide_false; [done|]. intros H. apply same_page in H as [Hp _]; [|done..].
         rewrite Hp in Ht'. congruence. }
    destruct (decide (t' = t)) as [->|Hne].
    + rewrite lookup_insert_eq, Hpg, word_set_word by lia.
      assert (pdx va' = pdx va) as Hp.
      { eapply (vo_inj _ _ _ Hv); [by apply pdx_lt|by apply pdx_lt|done|done]. }
      rewrite (bool_decide_ext (ptx va' = ptx va) (va' / 4096 = va / 4096)); [done|].
      rewrite <- (same_page va' va) by done. naive_solver.
    + rewrite lookup_insert_ne by done. rewrite bool_decide_false; [done|].
      intros H. apply same_page in H as [Hp _]; [|done..]. rewrite Hp in Ht'. congruence.
Qed.

(** ** walkpgdir *)

Lemma word_get_dir k l d i :
  kalloc_inv k l → vm_ok (pages k) l d → word_get d i k = Ret (pde_at (pages k) d i) k [].
Proof.
  intros Hk Hv. destruct (vo_dir _ _ _ Hv) as [Hd _]. destruct (ki_dom _ _ Hk d Hd) as [pg Hpg].
  unfold pde_at. rewrite Hpg. by apply word_get_run.
Qed.

Lemma walk_noalloc k l d va :
  kalloc_inv k l → vm_ok (pages k) l d →
  walkpgdir d va false k = Ret ((λ t, (t, ptx va)) <$> tab_at (pages k) d (pdx va)) k [].
Proof.
  intros Hk Hv. unfold walkpgdir. erewrite bind_run by (by eapply word_get_dir). rewrite prepend_nil.
  unfold tab_at. by destruct (has PTE_P _).
Qed.

(** The entry that points to table [t]. *)
Lemma pde_flags t :
  allocatable t →
  let x := Z.lor (Z.lor (Z.lor (V2P t) PTE_P) PTE_W) PTE_U in
  0 ≤ x < 4294967296 ∧ has PTE_P x = true ∧ P2V (PTE_ADDR x) = t.
Proof.
  intros Ht x. pose proof (allocatable_pos t Ht) as [Hp _]. pose proof kend_pos as Hkend.
  destruct Ht as (Hm & H1 & H2).
  assert (V2P t = t - KERNBASE) as HV
    by (unfold V2P; apply u32_small; unfold KERNBASE, PHYSTOP in *; lia).
  assert (V2P t mod 4096 = 0) as Hvm.
  { rewrite HV. unfold KERNBASE, PGSIZE in *. rewrite Zminus_mod, Hm. done. }
  assert (x = V2P t + 7) as ->.
  { unfold x. rewrite <- !Z.lor_assoc. by rewrite lor_flags by (done || (vm_compute; done)). }
  unfold KERNBASE, PHYSTOP in *. split_and!; [lia|lia| |].
  - unfold has. apply bool_decide_eq_true. change PTE_P with (Z.ones 1). rewrite Z.land_ones by lia.
    change (2 ^ 1) with 2. Z.div_mod_to_equations. lia.
  - rewrite PTE_ADDR_flags by lia. apply P2V_V2P. unfold KERNBASE. lia.
Qed.

Lemma word_zero i : (i < 1024)%nat → word zero_page i = 0.
Proof.
  intros Hi. unfold word. assert (slice zero_page (4 * i) 4 = [0; 0; 0; 0]) as ->; [|done].
  apply list_eq. intros j. rewrite lookup_slice. case_bool_decide as Hj.
  - unfold zero_page. rewrite lookup_replicate_2 by lia. by do 4 (destruct j as [|j]; [done|]); lia.
  - symmetry. apply lookup_ge_None. simpl. lia.
Qed.

(** A new, empty table changes no translation. *)
Lemma walk_alloc_new k l v d va :
  kalloc_inv k (v :: l) → vm_ok (pages k) (v :: l) d → 0 ≤ va < 4294967296 →
  tab_at (pages k) d (pdx va) = None →
  ∃ k', walkpgdir d va true k = Ret (Some (v, ptx va)) k' [] ∧ kalloc_inv k' l ∧
    vm_ok (pages k') l d ∧ tab_at (pages k') d (pdx va) = Some v ∧
    (∀ va', 0 ≤ va' < 4294967296 → xlate (pages k') d va' = xlate (pages k) d va') ∧
    (∀ i, i ≠ pdx va → tab_at (pages k') d i = tab_at (pages k) d i) ∧
    (∀ u, u ≠ d → u ≠ v → pages k' !! u = pages k !! u).
Proof.
  intros Hk Hv Hva Hno. destruct (kalloc_pop k v l Hk) as (Hav & Hvl & k1 & E1 & Hk1 & Hp1 & _).
  destruct (vo_dir _ _ _ Hv) as [Hd Hdl]. apply not_elem_of_cons in Hdl as [Hdv Hdl].
  pose proof (allocatable_pos v Hav) as [Hvpos _]. destruct zero_page_ok as [Hzl Hzb].
  destruct (pde_flags v Hav) as (Hxr & Hxp & Hxv).
  set (x := Z.lor (Z.lor (Z.lor (V2P v) PTE_P) PTE_W) PTE_U) in *.
  destruct (ki_dom _ _ Hk d Hd) as [pgd Hpgd]. destruct (ki_pages _ _ Hk d pgd Hpgd) as [Hld Hbd].
  destruct (ki_dom _ _ Hk v Hav) as [pgv Hpgv]. pose proof (pdx_lt va Hva) as Hpd.
  set (m' := <[d := set_word (pdx va) x pgd]> (<[v := zero_page]> (pages k))).
  assert (∀ i, tab_at m' d i = if bool_decide (i = pdx va) then Some v else tab_at (pages k) d i) as Htab.
  { intros i. unfold tab_at, pde_at, m'. rewrite lookup_insert_eq, Hpgd, word_set_word by lia.
    case_bool_decide; [|done]. rewrite u32_small by done. by rewrite Hxp, Hxv. }
  exists (set_pages m' k1). split_and!.
  - unfold walkpgdir. erewrite bind_run by (by eapply word_get_dir). rewrite prepend_nil.
    unfold tab_at in Hno. destruct (has PTE_P (pde_at _ _ _)); [done|]. simpl.
    erewrite bind_run by exact E1. rewrite prepend_nil, bool_decide_false by lia.
    erewrite bind_run by (eapply page_set_run; by rewrite Hp1). rewrite prepend_nil.
    erewrite bind_run.
    2: { eapply word_set_run. simpl. rewrite Hp1. rewrite lookup_insert_ne by done. exact Hpgd. }
    rewrite prepend_nil. simpl. rewrite Hp1. done.
  - pose proof (kalloc_inv_page k1 l v zero_page Hk1 Hvl Hzl Hzb) as Hk2.
    unfold m'. rewrite <- Hp1. apply (kalloc_inv_page _ l d (set_word (pdx va) x pgd) Hk2 Hdl);
      [rewrite length_set_word; lia|by apply Forall_set_word].
  - split; simpl; [done| |].
    + intros i t Hi. rewrite Htab. case_bool_decide; [by intros [= <-]|]. intros Ht.
      destruct (vo_tab _ _ _ Hv i t Hi Ht) as (? & Htl & ?). by apply not_elem_of_cons in Htl as [_ ?].
    + assert (∀ i t, (i < 1024)%nat → tab_at (pages k) d i = Some t → t ≠ v) as Hnv.
      { intros i t Hi Ht ->. destruct (vo_tab _ _ _ Hv i v Hi Ht) as (_ & Hin & _).
        by apply not_elem_of_cons in Hin as [? _]. }
      intros i j t Hi Hj. rewrite !Htab. do 2 case_bool_decide; intros H1 H2.
      * congruence.
      * exfalso. apply (Hnv j t Hj H2). congruence.
      * exfalso. apply (Hnv i t Hi H1). congruence.
      * by apply (vo_inj _ _ _ Hv i j t).
  - simpl. rewrite Htab. by rewrite bool_decide_true.
  - intros va' Hva'. unfold xlate. simpl. rewrite Htab. case_bool_decide as Hp.
    + rewrite Hp, Hno. unfold m'. rewrite lookup_insert_ne, lookup_insert_eq by done.
      apply word_zero. by apply ptx_lt.
    + destruct (tab_at (pages k) d (pdx va')) as [t|] eqn:Ht; [|done].
      destruct (vo_tab _ _ _ Hv _ t (pdx_lt va' Hva') Ht) as (_ & Htl & Htd).
      apply not_elem_of_cons in Htl as [Htv _]. unfold m'. by rewrite !lookup_insert_ne.
  - intros i Hi. simpl. rewrite Htab. by rewrite bool_decide_false.
  - intros u Hud Huv. simpl. unfold m'. by rewrite !lookup_insert_ne.
Qed.

(** ** Growing the tables *)

(** From [k] to [k'] the tables of [d] may have taken pages from the free
    list and have been written to; no other page in use has changed. *)
Record grown (d : Z) k l k' l' : Prop := Grown {
  gr_inv : kalloc_inv k' l';
  gr_ok : vm_ok (pages k') l' d;
  gr_suffix : ∃ used, l = used ++ l';
  gr_frame u : u ∉ l → ¬ table_page (pages k) d u → pages k' !! u = pages k !! u;
  gr_tab u : u ∉ l → table_page (pages k') d u → table_page (pages k) d u;
  gr_keep u : table_page (pages k) d u → table_page (pages k') d u;
  gr_used u : u ∈ l → u ∈ l' ∨ table_page (pages k') d u
}.

Lemma grown_refl d k l : kalloc_inv k l → vm_ok (pages k) l d → grown d k l k l.
Proof. intros Hk Hv. split; try done; [by exists []|by left]. Qed.

Lemma grown_trans d k1 l1 k2 l2 k3 l3 :
  grown d k1 l1 k2 l2 → grown d k2 l2 k3 l3 → grown d k1 l1 k3 l3.
Proof.
  intros [I1 O1 [u1 ->] F1 T1 K1 U1] [I2 O2 [u2 ->] F2 T2 K2 U2].
  split; [done|done|exists (u1 ++ u2); by rewrite (assoc_L (++))| | | |].
  - intros u Hu Hn. assert (u ∉ u2 ++ l3) as Hu2 by set_solver.
    rewrite F2, F1; auto.
  - intros u Hu Ht. apply T1; [done|]. apply T2; [set_solver|done].
  - intros u Hu. by apply K2, K1.
  - intros u Hu. destruct (U1 u Hu) as [H|H]; [by apply U2|]. right. by apply K2.
Qed.

Lemma grown_set_pte d k l va t pg x :
  kalloc_inv k l → vm_ok (pages k) l d → 0 ≤ va < 4294967296 →
  tab_at (pages k) d (pdx va) = Some t →
  let k' := set_pages (<[t := set_word (ptx va) x pg]> (pages k)) k in
  kalloc_inv k' l → vm_ok (pages k') l d → grown d k l k' l.
Proof.
  intros Hk Hv Hva Ht k' Hk' Hv'. pose proof (pdx_lt va Hva) as Hp.
  destruct (vo_tab _ _ _ Hv _ t Hp Ht) as (_ & _ & Htd).
  assert (∀ u, table_page (pages k') d u ↔ table_page (pages k) d u) as Htp
    by (intros u; unfold table_page; simpl; by setoid_rewrite tab_at_other).
  split; [done|done|by exists []| |intros u _; apply Htp|intros u; apply Htp|intros u ?; by left].
  - intros u _ Hn. simpl. rewrite lookup_insert_ne; [done|]. intros <-. apply Hn. right. eauto.
Qed.

Lemma walk_alloc k l d va :
  kalloc_inv k l → vm_ok (pages k) l d → 0 ≤ va < 4294967296 →
  (l = [] ∧ walkpgdir d va true k = Ret None k []) ∨
  ∃ k' l' t, walkpgdir d va true k = Ret (Some (t, ptx va)) k' [] ∧ grown d k l k' l' ∧
    tab_at (pages k') d (pdx va) = Some t ∧
    ∀ va', 0 ≤ va' < 4294967296 → xlate (pages k') d va' = xlate (pages k) d va'.
Proof.
  intros Hk Hv Hva. destruct (tab_at (pages k) d (pdx va)) as [t|] eqn:Ht.
  - right. exists k, l, t. split_and!; [|by apply grown_refl|done|done].
    unfold walkpgdir. erewrite bind_run by (by eapply word_get_dir). rewrite prepend_nil.
    unfold tab_at in Ht. destruct (has PTE_P (pde_at _ _ _)); by simplify_eq.
  - destruct l as [|v l].
    + left. split; [done|]. unfold walkpgdir. erewrite bind_run by (by eapply word_get_dir).
      rewrite prepend_nil. unfold tab_at in Ht. destruct (has PTE_P (pde_at _ _ _)); [done|]. simpl.
      by erewrite bind_run by (by apply kalloc_empty).
    + right. destruct (walk_alloc_new k l v d va Hk Hv Hva Ht)
        as (k' & E & Hk' & Hv' & Ht' & Hx & Hi & Hu).
      exists k', l, v. split_and!; [done| |done|done]. split; [done|done|by exists [v]| | | |].
      * intros u Hul Hn. apply Hu.
        -- intros ->. apply Hn. by left.
        -- intros ->. apply Hul. by apply elem_of_cons; left.
      * intros u Hul [->|(i & Hi' & Hui)]; [by left|right]. exists i. split; [done|].
        destruct (decide (i = pdx va)) as [->|Hne]; [|by rewrite <- Hi].
        rewrite Ht' in Hui. simplify_eq. exfalso. apply Hul. by apply elem_of_cons; left.
      * intros u [->|(i & Hi' & Hui)]; [by left|right]. exists i. split; [done|].
        rewrite Hi; [done|]. intros ->. congruence.
      * intros u [->|Hul]%elem_of_cons; [|by left]. right. right. exists (pdx va).
        split; [by apply pdx_lt|done].
Qed.

(** The physical address of page [i] of a mapping that starts at [pa]. *)
Definition pa_at (pa : Z) (i : Z) : Z := if bool_decide (i = 0) then pa else u32 (pa + 4096 * i).

Lemma pa_at_S pa i : 0 ≤ i → pa_at (u32 (pa + 4096)) i = u32 (pa + 4096 * (i + 1)).
Proof.
  intros Hi. unfold pa_at. case_bool_decide as H0.
  - subst i. f_equal.
  - unfold u32. rewrite Zplus_mod_idemp_l. f_equal. lia.
Qed.

(** The entry [mappages] writes for the page of [va']. *)
Definition mapped_pte (a pa perm va' : Z) : Z :=
  u32 (Z.lor (Z.lor (pa_at pa ((va' - a) / 4096)) perm) PTE_P).

Lemma mappages_loop_spec n fuel d a pa perm k l :
  kalloc_inv k l → vm_ok (pages k) l d → a mod 4096 = 0 → 0 ≤ a →
  a + 4096 * Z.of_nat n + 4096 ≤ 4294967296 → (n < fuel)%nat →
  (∀ va, a ≤ va < a + 4096 * Z.of_nat n + 4096 → has PTE_P (xlate (pages k) d va) = false) →
  ∃ r k' l' j, mappages_loop fuel d a (a + 4096 * Z.of_nat n) pa perm k = Ret r k' [] ∧
    grown d k l k' l' ∧ 0 ≤ j ≤ Z.of_nat n + 1 ∧
    (∀ va, 0 ≤ va < 4294967296 → xlate (pages k') d va =
       if bool_decide (a ≤ va < a + 4096 * j) then mapped_pte a pa perm va else xlate (pages k) d va) ∧
    (r = 0 ∧ j = Z.of_nat n + 1 ∨ r = -1 ∧ j ≤ Z.of_nat n ∧ l' = []).
Proof.
  revert n a pa k l. induction fuel as [|fuel IH]; intros n a pa k l Hk Hv Ha H0 Hhi Hf Hno; [lia|].
  cbn [mappages_loop]. assert (0 ≤ a < 4294967296) as Har by lia.
  destruct (walk_alloc k l d a Hk Hv Har) as [[-> E]|(k1 & l1 & t & E & G1 & Ht & Hx1)].
  { exists (-1), k, [], 0. split_and!; [by erewrite bind_run by exact E|by apply grown_refl|lia|lia| |].
    - intros va _. by rewrite bool_decide_false by lia.
    - right. split_and!; [done|lia|done]. }
  erewrite bind_run by exact E. rewrite prepend_nil.
  destruct (set_pte k1 l1 d a t (Z.lor (Z.lor pa perm) PTE_P) (gr_inv _ _ _ _ _ G1)
    (gr_ok _ _ _ _ _ G1) Har Ht) as (pg & Hpg & Eg & Es & Hk2 & Hv2 & Hx2).
  erewrite bind_run by exact Eg. rewrite prepend_nil, Hx1, Hno by lia.
  erewrite bind_run by reflexivity. rewrite prepend_nil.
  erewrite bind_run by exact Es. rewrite prepend_nil.
  set (k2 := set_pages _ k1) in *.
  assert (grown d k l k2 l1) as G2.
  { eapply grown_trans; [exact G1|]. apply (grown_set_pte d k1 l1 a t pg); try done; apply G1. }
  assert (∀ va, 0 ≤ va < 4294967296 → xlate (pages k2) d va =
    if bool_decide (a ≤ va < a + 4096) then u32 (Z.lor (Z.lor pa perm) PTE_P) else xlate (pages k) d va)
    as Hx.
  { intros va Hva. rewrite Hx2, Hx1 by done.
    rewrite (bool_decide_ext (va / 4096 = a / 4096) (a ≤ va < a + 4096)); [done|].
    Z.div_mod_to_equations. lia. }
  destruct n as [|n].
  - rewrite bool_decide_true by lia. exists 0, k2, l1, 1. split_and!; [done|done|lia|lia| |by left].
    intros va Hva. rewrite Hx by done. replace (4096 * 1) with 4096 by lia. case_bool_decide; [|done].
    unfold mapped_pte, pa_at. rewrite Z.div_small, bool_decide_true by lia. done.
  - rewrite bool_decide_false by lia. rewrite u32_small by (unfold PGSIZE; lia).
    replace (a + 4096 * Z.of_nat (S n)) with (a + PGSIZE + 4096 * Z.of_nat n) by (unfold PGSIZE; lia).
    destruct (IH n (a + PGSIZE) (u32 (pa + PGSIZE)) k2 l1) as (r & k3 & l3 & j & E3 & G3 & Hj & Hx3 & Hr);
      try done; try (unfold PGSIZE; lia).
    { unfold PGSIZE. by rewrite Z.add_mod, Ha by lia. }
    { intros va Hva. unfold PGSIZE in Hva. rewrite Hx by lia. rewrite bool_decide_false by lia.
      apply Hno. lia. }
    exists r, k3, l3, (j + 1). split_and!; [done|by eapply grown_trans|lia|lia| |lia || naive_solver lia].
    intros va Hva. rewrite Hx3, Hx by done. unfold PGSIZE in *.
    repeat case_bool_decide; try lia; try done; unfold mapped_pte.
    + assert ((va - (a + 4096)) / 4096 = (va - a) / 4096 - 1) as ->
        by (replace (va - (a + 4096)) with (va - a + (-1) * 4096) by lia; rewrite Z.div_add by lia; lia).
      assert (1 ≤ (va - a) / 4096) by (apply Z.div_le_lower_bound; lia).
      rewrite pa_at_S by lia. unfold pa_at. rewrite bool_decide_false by lia.
      by replace ((va - a) / 4096 - 1 + 1) with ((va - a) / 4096) by lia.
    + unfold pa_at. by rewrite Z.div_small, bool_decide_true by lia.
Qed.

Lemma mappages_run d va size pa perm k l :
  kalloc_inv k l → vm_ok (pages k) l d →
  0 ≤ va → 0 < size → va + size ≤ 4294967296 →
  (∀ va', PGROUNDDOWN va ≤ va' < PGROUNDDOWN (va + size - 1) + 4096 →
     has PTE_P (xlate (pages k) d va') = false) →
  ∃ r k' l' top, mappages d va size pa perm k = Ret r k' [] ∧ grown d k l k' l' ∧
    (∀ va', 0 ≤ va' < 4294967296 → xlate (pages k') d va' =
       if bool_decide (PGROUNDDOWN va ≤ va' < top) then mapped_pte (PGROUNDDOWN va) pa perm va'
       else xlate (pages k) d va') ∧
    (r = 0 ∧ top = PGROUNDDOWN (va + size - 1) + 4096 ∨
     r = -1 ∧ top ≤ PGROUNDDOWN (va + size - 1) ∧ l' = []).
Proof.
  intros Hk Hv Hva Hsz Hhi Hno. unfold mappages.
  rewrite (u32_small (va + size - 1)) by lia.
  rewrite !PGROUNDDOWN_spec in * by lia.
  set (a := va - va mod 4096) in *. set (b := va + size - 1 - (va + size - 1) mod 4096) in *.
  assert (a mod 4096 = 0 ∧ b mod 4096 = 0 ∧ 0 ≤ a ≤ b ∧ b + 4096 ≤ 4294967296) as (Ha & Hb & Hab & Hbt)
    by (unfold a, b; Z.div_mod_to_equations; lia).
  clearbody a b. set (n := Z.to_nat ((b - a) / 4096)).
  assert (b = a + 4096 * Z.of_nat n) as Hn by (unfold n; Z.div_mod_to_equations; lia).
  rewrite u32_small by lia. unfold PGSIZE. fold n. rewrite Hn in *.
  destruct (mappages_loop_spec n (n + 1) d a pa perm k l) as (r & k' & l' & j & E & G & Hj & Hx & Hr);
    try done; try lia.
  exists r, k', l', (a + 4096 * j). split_and!; [done|done|done|].
  destruct Hr as [[-> ->]|(-> & ? & ->)]; [left; split; [done|lia]|right; split_and!; [done|lia|done]].
Qed.

(** [mappages] of pages that are not mapped returns 0 and every page of
    the range translates to its physical page with the permissions given, or
    returns -1, having mapped a prefix, because memory has run out; all other
    translations, and all pages that are not part of the tables, stay as they
    were. *)
Theorem mappages_spec d va size pa perm k l :
  kalloc_inv k l → vm_ok (pages k) l d →
  0 ≤ va → 0 < size → va + size ≤ 4294967296 →
  (∀ va', PGROUNDDOWN va ≤ va' < PGROUNDDOWN (va + size - 1) + 4096 →
     has PTE_P (xlate (pages k) d va') = false) →
  ∃ r k' l' top, mappages d va size pa perm k = Ret r k' [] ∧ grown d k l k' l' ∧
    (∀ va', 0 ≤ va' < 4294967296 → xlate (pages k') d va' =
       if bool_decide (PGROUNDDOWN va ≤ va' < top) then mapped_pte (PGROUNDDOWN va) pa perm va'
       else xlate (pages k) d va') ∧
    (r = 0 ∧ top = PGROUNDDOWN (va + size - 1) + 4096 ∨
     r = -1 ∧ top ≤ PGROUNDDOWN (va + size - 1) ∧ l' = []).
Proof. apply mappages_run. Qed.

(** * User memory *)

(** The frame a present user page is mapped to. *)
Definition frame m (d va : Z) : Z := P2V (PTE_ADDR (xlate m d va)).
Definition present m (d va : Z) : Prop := has PTE_P (xlate m d va) = true.

(** Every present user page has a frame of its own, which is neither free nor
    part of the tables. *)
Record user_ok m l (d : Z) : Prop := UserOk {
  uo_frame va : 0 ≤ va < KERNBASE → present m d va →
    allocatable (frame m d va) ∧ frame m d va ∉ l ∧ ¬ table_page m d (frame m d va);
  uo_inj va va' : 0 ≤ va < KERNBASE → 0 ≤ va' < KERNBASE → present m d va → present m d va' →
    frame m d va = frame m d va' → va / 4096 = va' / 4096
}.

Lemma xlate_page m d va va' :
  0 ≤ va < 4294967296 → 0 ≤ va' < 4294967296 → va / 4096 = va' / 4096 → xlate m d va = xlate m d va'.
Proof.
  intros H H' E. apply same_page in E as [E1 E2]; [|done..]. unfold xlate. by rewrite E1, E2.
Qed.

(** Giving a frame back: the free list grows by it, the tables stand. *)
Lemma vm_ok_push m l d f pg :
  vm_ok m l d → ¬ table_page m d f → vm_ok (<[f := pg]> m) (f :: l) d.
Proof.
  intros [H1 H2 H3] Hf. assert (f ≠ d) as Hfd by (intros ->; apply Hf; by left).
  split.
  - split; [apply H1|]. apply not_elem_of_cons. split; [done|apply H1].
  - intros i t Hi. rewrite tab_at_other by done. intros Ht. destruct (H2 i t Hi Ht) as (? & ? & ?).
    split_and!; try done. apply not_elem_of_cons. split; [|done].
    intros ->. apply Hf. right. eauto.
  - intros i j t Hi Hj. rewrite !tab_at_other by done. eauto.
Qed.

Lemma vm_ok_pages m m' l d :
  vm_ok m l d → m' !! d = m !! d → vm_ok m' l d.
Proof.
  intros [H1 H2 H3] Hd. assert (∀ i, tab_at m' d i = tab_at m d i) as Ht
    by (intros i; unfold tab_at, pde_at; by rewrite Hd).
  split; [done| |]; intros *; rewrite !Ht; eauto.
Qed.

Lemma xlate_frame m m' d va :
  m' !! d = m !! d → (∀ t, tab_at m d (pdx va) = Some t → m' !! t = m !! t) →
  xlate m' d va = xlate m d va.
Proof.
  intros Hd Ht. unfold xlate. assert (tab_at m' d (pdx va) = tab_at m d (pdx va)) as ->
    by (unfold tab_at, pde_at; by rewrite Hd).
  destruct (tab_at m d (pdx va)) as [t|]; [|done]. by rewrite Ht.
Qed.

(** One page taken away from [d]. *)
Lemma unmap_page k l d va t :
  kalloc_inv k l → vm_ok (pages k) l d → user_ok (pages k) l d → 0 ≤ va < KERNBASE →
  tab_at (pages k) d (pdx va) = Some t → present (pages k) d va →
  let f := frame (pages k) d va in
  ∃ k', (kfree f;; word_set t (ptx va) 0) k = Ret tt k' [] ∧
    kalloc_inv k' (f :: l) ∧ vm_ok (pages k') (f :: l) d ∧ user_ok (pages k') (f :: l) d ∧
    (∀ i, tab_at (pages k') d i = tab_at (pages k) d i) ∧
    (∀ va', 0 ≤ va' < 4294967296 → xlate (pages k') d va' =
       if bool_decide (va' / 4096 = va / 4096) then 0 else xlate (pages k) d va') ∧
    (∀ u, u ≠ f → ¬ table_page (pages k) d u → pages k' !! u = pages k !! u).
Proof.
  intros Hk Hv Hu Hva Ht Hp f. assert (0 ≤ va < 4294967296) as Hva' by (unfold KERNBASE in *; lia).
  destruct (uo_frame _ _ _ Hu va Hva Hp) as (Hfa & Hfl & Hft). fold f in Hfa, Hfl, Hft.
  destruct (kfree_push k l f Hk Hfa Hfl) as (k1 & E1 & Hk1 & Hp1 & _).
  assert (f ≠ d) as Hfd by (intros ->; apply Hft; by left).
  assert (pages k1 !! d = pages k !! d) as Hd1 by auto.
  assert (∀ i, tab_at (pages k1) d i = tab_at (pages k) d i) as Htab1
    by (intros i; unfold tab_at, pde_at; by rewrite Hd1).
  assert (∀ va', 0 ≤ va' < 4294967296 → xlate (pages k1) d va' = xlate (pages k) d va') as Hx1.
  { intros va1 Hva1. apply xlate_frame; [done|]. intros t1 Ht1. apply Hp1. intros ->. apply Hft.
    right. exists (pdx va1). split; [by apply pdx_lt|done]. }
  assert (vm_ok (pages k1) (f :: l) d) as Hv1.
  { destruct Hv as [[H1 H1'] H2 H3]. split.
    - split; [done|]. by apply not_elem_of_cons.
    - intros i t1 Hi. rewrite Htab1. intros Ht1. destruct (H2 i t1 Hi Ht1) as (? & ? & ?).
      split_and!; try done. apply not_elem_of_cons. split; [|done]. intros ->. apply Hft. right. eauto.
    - intros i j t1 Hi Hj. rewrite !Htab1. eauto. }
  destruct (set_pte k1 (f :: l) d va t 0 Hk1 Hv1 Hva') as (pg & Hpg & _ & E2 & Hk2 & Hv2 & Hx2);
    [by rewrite Htab1|].
  destruct (vo_tab _ _ _ Hv (pdx va) t (pdx_lt va Hva') Ht) as (_ & _ & Htd).
  set (k2 := set_pages _ k1) in *. exists k2.
  assert (∀ i, tab_at (pages k2) d i = tab_at (pages k) d i) as Htab2
    by (intros i; unfold k2; simpl; by rewrite tab_at_other, Htab1).
  assert (∀ va', 0 ≤ va' < 4294967296 → xlate (pages k2) d va' =
    if bool_decide (va' / 4096 = va / 4096) then 0 else xlate (pages k) d va') as Hx.
  { intros va1 Hva1. rewrite Hx2, Hx1 by done. done. }
  assert (∀ u, table_page (pages k2) d u ↔ table_page (pages k) d u) as Htp
    by (intros u; unfold table_page; by setoid_rewrite Htab2).
  split_and!; try done.
  - erewrite bind_run by exact E1. by rewrite prepend_nil.
  - assert (∀ va1, 0 ≤ va1 < KERNBASE → present (pages k2) d va1 →
      va1 / 4096 ≠ va / 4096 ∧ present (pages k) d va1 ∧
      frame (pages k2) d va1 = frame (pages k) d va1) as Hback.
    { intros va1 Hva1 Hp1'. unfold present, frame in *.
      rewrite Hx in * by (unfold KERNBASE in *; lia). case_bool_decide; [by vm_compute in Hp1'|done]. }
    split.
    + intros va1 Hva1 (Hne & Hp1' & ->)%Hback; [|done]. rewrite Htp.
      destruct (uo_frame _ _ _ Hu va1 Hva1 Hp1') as (? & ? & ?). split_and!; try done.
      apply not_elem_of_cons. split; [|done]. intros E. apply Hne, (uo_inj _ _ _ Hu); try done.
    + intros va1 va2 Hva1 Hva2 (_ & Hp1' & ->)%Hback (_ & Hp2' & ->)%Hback; [|done|done].
      by apply (uo_inj _ _ _ Hu).
  - intros u Huf Hut. unfold k2. simpl. rewrite lookup_insert_ne; [by apply Hp1|].
    intros <-. apply Hut. right. exists (pdx va). split; [by apply pdx_lt|done].
Qed.

(** ** deallocuvm *)

Definition page_in (lo hi va : Z) : bool := bool_decide (lo ≤ va - va mod 4096 < hi).

(** From [k] to [k'] exactly the user pages of [lo, hi) are unmapped and their
    frames put on the free list. *)
Record shrunk (d lo hi : Z) k l k' (freed : list Z) : Prop := Shrunk {
  sh_inv : kalloc_inv k' (freed ++ l);
  sh_ok : vm_ok (pages k') (freed ++ l) d;
  sh_user : user_ok (pages k') (freed ++ l) d;
  sh_tab i : tab_at (pages k') d i = tab_at (pages k) d i;
  sh_xlate va : 0 ≤ va < 4294967296 →
    if page_in lo hi va then has PTE_P (xlate (pages k') d va) = false
    else xlate (pages k') d va = xlate (pages k) d va;
  sh_freed f : f ∈ freed ↔ ∃ va, 0 ≤ va < KERNBASE ∧ page_in lo hi va = true ∧
    present (pages k) d va ∧ f = frame (pages k) d va;
  sh_frame u : u ∉ freed → ¬ table_page (pages k) d u → pages k' !! u = pages k !! u
}.

Lemma page_in_skip lo lo' hi va :
  lo ≤ lo' → page_in lo hi va = page_in lo (lo' `min` hi) va || page_in lo' hi va.
Proof.
  intros H. unfold page_in. apply eq_true_iff_eq. rewrite orb_true_iff, !bool_decide_eq_true. lia.
Qed.

(** Nothing to unmap below [lo']. *)
Lemma shrunk_skip d lo lo' hi k l k' freed :
  lo ≤ lo' → (∀ va, 0 ≤ va < 4294967296 → page_in lo lo' va = true → has PTE_P (xlate (pages k) d va) = false) →
  shrunk d lo' hi k l k' freed → shrunk d lo hi k l k' freed.
Proof.
  intros Hlo Hno [H1 H2 H3 H4 H5 H6 H7]. split; try done.
  - intros va Hva. specialize (H5 va Hva). rewrite (page_in_skip lo lo') by done.
    destruct (page_in lo' hi va) eqn:E'; [by rewrite orb_true_r|]. rewrite orb_false_r.
    destruct (page_in lo (lo' `min` hi) va) eqn:E; [|done]. rewrite H5. apply Hno; [done|].
    unfold page_in in *. apply bool_decide_eq_true in E. apply bool_decide_eq_true. lia.
  - intros f. rewrite H6. split.
    + intros (va & Hva & Hin & Hp & Hf). exists va. split_and!; try done; try lia.
      unfold page_in in *. apply bool_decide_eq_true in Hin. apply bool_decide_eq_true. lia.
    + intros (va & Hva & Hin & Hp & Hf). exists va. split_and!; try done; try lia.
      unfold page_in in *. apply bool_decide_eq_true in Hin. apply bool_decide_eq_true.
      split; [|lia]. destruct (decide (lo' ≤ va - va mod 4096)); [done|]. exfalso.
      unfold present in Hp. rewrite Hno in Hp; [done|unfold KERNBASE in *; lia|].
      apply bool_decide_eq_true. lia.
Qed.

(** The page at [lo] is unmapped first, then the rest. *)
Lemma shrunk_step d lo hi k l k1 k' freed :
  lo mod 4096 = 0 → 0 ≤ lo < hi → hi ≤ KERNBASE → present (pages k) d lo →
  let f := frame (pages k) d lo in
  f ∉ l → kalloc_inv k1 (f :: l) →
  (∀ i, tab_at (pages k1) d i = tab_at (pages k) d i) →
  (∀ va', 0 ≤ va' < 4294967296 → xlate (pages k1) d va' =
       if bool_decide (va' / 4096 = lo / 4096) then 0 else xlate (pages k) d va') →
  (∀ u, u ≠ f → ¬ table_page (pages k) d u → pages k1 !! u = pages k !! u) →
  shrunk d (lo + 4096) hi k1 (f :: l) k' freed →
  shrunk d lo hi k l k' (freed ++ [f]).
Proof.
  intros Hlo Hr Hhi Hp f Hfl Hk1 Htab Hx Hfr [H1 H2 H3 H4 H5 H6 H7].
  assert (∀ va, 0 ≤ va < 4294967296 → va / 4096 = lo / 4096 ↔ va - va mod 4096 = lo) as Hpage
    by (intros va Hva; Z.div_mod_to_equations; lia).
  assert (∀ va, 0 ≤ va < 4294967296 → va - va mod 4096 = lo ∨ va - va mod 4096 < lo ∨
    lo + 4096 ≤ va - va mod 4096) as Htri by (intros va Hva; Z.div_mod_to_equations; lia).
  split; rewrite <- ?(assoc_L (++)); try done.
  - intros i. by rewrite H4.
  - intros va Hva. specialize (H5 va Hva). specialize (Hx va Hva). specialize (Hpage va Hva).
    destruct (page_in (lo + 4096) hi va) eqn:E.
    + assert (page_in lo hi va = true) as ->; [|done].
      unfold page_in in *. apply bool_decide_eq_true in E. apply bool_decide_eq_true. lia.
    + rewrite H5, Hx. destruct (page_in lo hi va) eqn:E'.
      * rewrite bool_decide_true; [done|]. apply Hpage. unfold page_in in *.
        apply bool_decide_eq_false in E. apply bool_decide_eq_true in E'.
        specialize (Htri va Hva). lia.
      * rewrite bool_decide_false; [done|]. intros Hc%Hpage. unfold page_in in E'.
        apply bool_decide_eq_false in E'. lia.
  - intros g. rewrite elem_of_app, list_elem_of_singleton, H6.
    assert (∀ va, 0 ≤ va < KERNBASE → page_in (lo + 4096) hi va = true →
      (present (pages k1) d va ↔ present (pages k) d va) ∧ frame (pages k1) d va = frame (pages k) d va) as Hs.
    { intros va Hva Hin. unfold present, frame. rewrite Hx by (unfold KERNBASE in *; lia).
      rewrite bool_decide_false; [done|]. rewrite Hpage by (unfold KERNBASE in *; lia).
      unfold page_in in Hin. apply bool_decide_eq_true in Hin. lia. }
    split.
    + intros [(va & Hva & Hin & Hp' & ->)| ->].
      * exists va. destruct (Hs va Hva Hin) as [Hiff ->]. split_and!; try lia; [|by apply Hiff].
        unfold page_in in *. apply bool_decide_eq_true in Hin. apply bool_decide_eq_true. lia.
      * exists lo. split_and!; try done; try lia. apply bool_decide_eq_true. rewrite Hlo. lia.
    + intros (va & Hva & Hin & Hp' & ->).
      destruct (Htri va) as [He|[Hl|Hg]]; [unfold KERNBASE in *; lia|right|exfalso|left].
      * unfold f, frame. f_equal. f_equal. apply xlate_page; unfold KERNBASE in *; try lia.
        apply Hpage; lia.
      * unfold page_in in Hin. apply bool_decide_eq_true in Hin. lia.
      * exists va. assert (page_in (lo + 4096) hi va = true) as Hin'.
        { unfold page_in in *. apply bool_decide_eq_true in Hin. apply bool_decide_eq_true. lia. }
        destruct (Hs va Hva Hin') as [Hiff ->]. split_and!; try done; try lia. by apply Hiff.
  - intros u Hu Ht. rewrite H7; [apply Hfr| |].
    + intros ->. apply Hu. apply elem_of_app. right. by apply list_elem_of_singleton.
    + done.
    + intros Hin. apply Hu, elem_of_app. by left.
    + unfold table_page. setoid_rewrite Htab. done.
Qed.

Lemma next_table a :
  0 ≤ a < KERNBASE →
  u32 (u32 (PGADDR (PDX a + 1) 0 0 - PGSIZE) + PGSIZE) = (a / 4194304 + 1) * 4194304.
Proof.
  intros Ha. unfold KERNBASE in Ha. rewrite PDX_spec by lia. unfold PGADDR.
  rewrite Z.shiftl_0_l, !Z.lor_0_r, Z.shiftl_mul_pow2 by (unfold PDXSHIFT; lia).
  change (2 ^ PDXSHIFT) with 4194304.
  assert (0 ≤ a / 4194304 < 512) by (split; [apply Z.div_pos; lia|apply Z.div_lt_upper_bound; lia]).
  unfold PGSIZE. rewrite (u32_small (_ * _)) by lia. rewrite (u32_small (_ - 4096)) by lia.
  rewrite u32_small; lia.
Qed.

Lemma deallocuvm_loop_spec fuel d a hi k l :
  kalloc_inv k l → vm_ok (pages k) l d → user_ok (pages k) l d →
  a mod 4096 = 0 → 0 ≤ a ≤ KERNBASE → hi ≤ KERNBASE → hi ≤ a + 4096 * (Z.of_nat fuel - 1) → (1 ≤ fuel)%nat →
  ∃ k' freed, deallocuvm_loop fuel d a hi k = Ret tt k' [] ∧ shrunk d a hi k l k' freed.
Proof.
  revert a k l. induction fuel as [|fuel IH]; intros a k l Hk Hv Hu Ha Ha0 Hhi Hf H1; [lia|].
  cbn [deallocuvm_loop]. case_bool_decide as Hlt.
  2: { exists k, []. split; [done|]. split; try done.
       - intros va Hva. assert (page_in a hi va = false) as ->; [|done].
         apply bool_decide_eq_false. lia.
       - intros f. split; [intros H; by apply not_elem_of_nil in H|]. intros (va & _ & Hin & _).
         apply bool_decide_eq_true in Hin. lia. }
  assert (0 ≤ a < KERNBASE) as Har by lia. assert (0 ≤ a < 4294967296) as Har' by (unfold KERNBASE in *; lia).
  erewrite bind_run by (by eapply walk_noalloc). rewrite prepend_nil.
  destruct (tab_at (pages k) d (pdx a)) as [t|] eqn:Ht; simpl.
  - destruct (set_pte k l d a t 0 Hk Hv Har' Ht) as (pg & Hpg & Eg & _).
    erewrite bind_run by exact Eg. rewrite prepend_nil.
    rewrite u32_small by (unfold PGSIZE, KERNBASE in *; lia). unfold PGSIZE.
    assert ((a + 4096) mod 4096 = 0) as Ha' by (by rewrite Z.add_mod, Ha by lia).
    destruct (has PTE_P (xlate (pages k) d a)) eqn:Hp.
    + destruct (unmap_page k l d a t Hk Hv Hu Har Ht Hp) as (k1 & E1 & Hk1 & Hv1 & Hu1 & Htab & Hx & Hfr).
      destruct (uo_frame _ _ _ Hu a Har Hp) as (Hfa & Hfl & _).
      destruct (IH (a + 4096) k1 _ Hk1 Hv1 Hu1) as (k' & freed & E2 & Hsh); try done; try lia.
      { unfold KERNBASE in *. Z.div_mod_to_equations. lia. }
      exists k', (freed ++ [frame (pages k) d a]). split; [|apply (shrunk_step d a hi k l k1 k' freed); done || lia].
      assert (PTE_ADDR (xlate (pages k) d a) ≠ 0) as Hpa.
      { intros Hz. unfold frame in Hfa. rewrite Hz in Hfa. destruct Hfa as (_ & Hge & _).
        pose proof kend_pos. change (P2V 0) with 2147483648 in Hge. lia. }
      erewrite bind_run. 2: { rewrite bool_decide_false by done. erewrite bind_run by reflexivity.
        rewrite prepend_nil. exact E1. }
      by rewrite prepend_nil.
    + destruct (IH (a + 4096) k l Hk Hv Hu) as (k' & freed & E2 & Hsh); try done; try lia.
      { unfold KERNBASE in *. Z.div_mod_to_equations. lia. }
      exists k', freed. split; [by erewrite bind_run by reflexivity; rewrite prepend_nil|].
      apply (shrunk_skip _ _ (a + 4096)); [lia| |done].
      intros va Hva Hin. apply bool_decide_eq_true in Hin.
      rewrite (xlate_page _ _ va a); try done. Z.div_mod_to_equations. lia.
  - rewrite next_table by done. set (a' := (a / 4194304 + 1) * 4194304).
    assert (a + 4096 ≤ a' ∧ a' mod 4096 = 0 ∧ a' ≤ KERNBASE) as (Hle & Ha' & Hk').
    { unfold a', KERNBASE in *. Z.div_mod_to_equations. lia. }
    destruct (IH a' k l Hk Hv Hu) as (k' & freed & E2 & Hsh); try done; try lia.
    exists k', freed. split; [done|]. apply (shrunk_skip _ _ a'); [lia| |done].
    intros va Hva Hin. apply bool_decide_eq_true in Hin. unfold xlate.
    assert (pdx va = pdx a) as ->; [|by rewrite Ht].
    unfold pdx. rewrite !PDX_spec by done. f_equal. unfold a' in *. Z.div_mod_to_equations. lia.
Qed.

Lemma deallocuvm_run d oldsz newsz k l :
  kalloc_inv k l → vm_ok (pages k) l d → user_ok (pages k) l d →
  0 ≤ newsz < oldsz → oldsz ≤ KERNBASE →
  ∃ k' freed, deallocuvm d oldsz newsz k = Ret newsz k' [] ∧
    shrunk d (PGROUNDUP newsz) oldsz k l k' freed.
Proof.
  intros Hk Hv Hu Hn Ho. unfold deallocuvm. rewrite bool_decide_false by lia. unfold KERNBASE in Ho.
  destruct (PGROUNDUP_spec newsz) as (E & Hm & Hr); [lia|].
  destruct (deallocuvm_loop_spec (Z.to_nat (oldsz / PGSIZE) + 2) d (PGROUNDUP newsz) oldsz k l)
    as (k' & freed & E2 & Hsh); try done; try lia.
  - unfold KERNBASE. rewrite E. Z.div_mod_to_equations. lia.
  - unfold PGSIZE. Z.div_mod_to_equations. lia.
  - exists k', freed. split; [|done]. by erewrite bind_run by exact E2.
Qed.

(** [deallocuvm] unmaps exactly the user pages from the new size up to the
    old size, puts the frame of each of them on the free list once, leaves
    every other page and translation alone, and returns the new size. *)
Theorem deallocuvm_spec d oldsz newsz k l :
  kalloc_inv k l → vm_ok (pages k) l d → user_ok (pages k) l d →
  0 ≤ newsz < oldsz → oldsz ≤ KERNBASE →
  ∃ k' freed, deallocuvm d oldsz newsz k = Ret newsz k' [] ∧
    shrunk d (PGROUNDUP newsz) oldsz k l k' freed.
Proof. apply deallocuvm_run. Qed.
End vm_inv.

(** * A small address space *)

(** One free page, and an empty directory in the other page. *)
Lemma tiny_space :
  ∃ k, kfree (KI := tiny_image) (tiny_start + 4096) tiny_state = Ret tt k [] ∧
    kalloc_inv (KI := tiny_image) k [tiny_start + 4096] ∧
    vm_ok (KI := tiny_image) (pages k) [tiny_start + 4096] tiny_start ∧
    ∀ va, xlate (pages k) tiny_start va = 0.
Proof.
  assert (kend (KernelImage := tiny_image) = tiny_start) as Hend by reflexivity.
  destruct (kfree_push (KI := tiny_image) (KO := tiny_image_ok) tiny_state [] (tiny_start + 4096) tiny_inv)
    as (k & E & Hk & Hp & _).
  { split_and!; [reflexivity|rewrite Hend; lia|unfold tiny_start; lia]. }
  { apply not_elem_of_nil. }
  assert (pages k !! tiny_start = Some zero_page) as Hd.
  { rewrite Hp by lia. apply lookup_insert_eq. }
  assert (∀ i, tab_at (pages k) tiny_start i = None) as Ht.
  { intros i. unfold tab_at, pde_at. rewrite Hd.
    destruct (decide (i < 1024)%nat) as [Hi|Hi]; [by rewrite word_zero|].
    unfold word, slice. rewrite drop_ge; [done|]. rewrite (proj1 zero_page_ok). lia. }
  exists k. split_and!; [exact E|exact Hk| |].
  - split.
    + split; [split_and!; [reflexivity|rewrite Hend; lia|unfold tiny_start; lia]|].
      intros H%list_elem_of_singleton. lia.
    + intros i t _. by rewrite Ht.
    + intros i j t _ _. by rewrite Ht.
  - intros va. unfold xlate. by rewrite Ht.
Qed.

Lemma mappages_spec_witness :
  ∃ k r k', kfree (KI := tiny_image) (tiny_start + 4096) tiny_state = Ret tt k [] ∧
    mappages tiny_start 100 5000 8192 (Z.lor PTE_W PTE_U) k = Ret r k' [].
Proof.
  destruct tiny_space as (k & E & Hk & Hv & Hx).
  destruct (mappages_spec (KI := tiny_image) (KO := tiny_image_ok) tiny_start 100 5000 8192
    (Z.lor PTE_W PTE_U) k _ Hk Hv) as (r & k' & l' & top & H & _); [lia|lia|lia| |].
  - intros va _. rewrite Hx. reflexivity.
  - exists k, r, k'. exact (conj E H).
Defined.

Lemma deallocuvm_spec_witness :
  ∃ k k' freed, kfree (KI := tiny_image) (tiny_start + 4096) tiny_state = Ret tt k [] ∧
    deallocuvm (KI := tiny_image) tiny_start 10000 100 k = Ret 100 k' [] ∧
    shrunk (KI := tiny_image) tiny_start (PGROUNDUP 100) 10000 k [tiny_start + 4096] k' freed.
Proof.
  destruct tiny_space as (k & E & Hk & Hv & Hx).
  destruct (deallocuvm_spec (KI := tiny_image) (KO := tiny_image_ok) tiny_start 10000 100 k _ Hk Hv)
    as (k' & freed & H1 & H2).
  - split; intros va; unfold present; rewrite Hx; discriminate.
  - lia.
  - unfold KERNBASE. lia.
  - exists k, k', freed. exact (conj E (conj H1 H2)).
Defined.
