(* ===== verification/VmSpec.v ===== *)
(** Whole address spaces (src/vm.c): what a space owns, building the kernel
    half, freeing, growing and copying a space.  A space is a page directory
    together with the pages it owns: its tables and the frames of its user
    pages. *)
From S2P Require Import Prelude Layout Bytes Spinlock Format Kalloc Vm.

Section space.
Context {KI : KernelImage} {KO : KernelImageOk KI}.
Implicit Types (m : gmap Z (list Z)) (k : kstate) (l : list Z).

(** The byte at a user address, as the MMU finds it. *)
Definition ubyte m (d va : Z) : option Z := pg ← m !! frame m d va; pg !! Z.to_nat (va mod 4096).
(** A page that user code may access. *)
Definition user_page m (d va : Z) : Prop := present m d va ∧ has PTE_U (xlate m d va) = true.
(** An address space [d] with the free pages [l]. *)
Record uspace k l (d : Z) : Prop := USpace {
  us_inv : kalloc_inv k l;
  us_vm : vm_ok (pages k) l d;
  us_user : user_ok (pages k) l d
}.
(** The same translation of every address. *)
Definition same_map m m' (d : Z) : Prop := ∀ va, 0 ≤ va < 4294967296 → xlate m' d va = xlate m d va.
Definition same_user m m' (d : Z) : Prop := ∀ va, 0 ≤ va < KERNBASE → xlate m' d va = xlate m d va.
Lemma same_map_user m m' d : same_map m m' d → same_user m m' d.
Proof. intros H va Hva. apply H. unfold KERNBASE in *. lia. Qed.

(** The pages of a space. *)
Definition user_frame m (d u : Z) : Prop := ∃ va, 0 ≤ va < KERNBASE ∧ present m d va ∧ u = frame m d va.
Definition owns m (d u : Z) : Prop := table_page m d u ∨ user_frame m d u.

Lemma owns_used k l d u : uspace k l d → owns (pages k) d u → allocatable u ∧ u ∉ l.
Proof.
  intros [_ Hv Hu] [[->|(i & Hi & Ht)]|(va & Hva & Hp & ->)].
  - apply Hv.
  - by destruct (vo_tab _ _ _ Hv i u Hi Ht) as (? & ? & _).
  - by destruct (uo_frame _ _ _ Hu va Hva Hp) as (? & ? & _).
Qed.

Lemma same_user_frames m m' d u : same_user m m' d → user_frame m' d u ↔ user_frame m d u.
Proof.
  intros H. unfold user_frame, present, frame. split; intros (va & Hva & Hp & ->); exists va;
    specialize (H va Hva); [rewrite <- H|rewrite H]; done.
Qed.

(** A space stands as long as its pages are left alone. *)
Lemma uspace_frame k l d k' l' :
  uspace k l d → kalloc_inv k' l' →
  (∀ u, owns (pages k) d u → u ∉ l' ∧ pages k' !! u = pages k !! u) →
  uspace k' l' d ∧ same_map (pages k) (pages k') d ∧
  (∀ u, table_page (pages k') d u ↔ table_page (pages k) d u) ∧
  ∀ va, 0 ≤ va < KERNBASE → present (pages k) d va → ubyte (pages k') d va = ubyte (pages k) d va.
Proof.
  intros [Hk Hv Hu] Hk' Hown.
  assert (pages k' !! d = pages k !! d) as Hd by (apply Hown; left; by left).
  assert (∀ i, tab_at (pages k') d i = tab_at (pages k) d i) as Ht
    by (intros i; unfold tab_at, pde_at; by rewrite Hd).
  assert (same_map (pages k) (pages k') d) as Hx.
  { intros va Hva. apply xlate_frame; [done|]. intros t Htt. apply Hown. left. right.
    exists (pdx va). split; [by apply pdx_lt|done]. }
  assert (∀ u, table_page (pages k') d u ↔ table_page (pages k) d u) as Htp
    by (intros u; unfold table_page; by setoid_rewrite Ht).
  pose proof (same_map_user _ _ _ Hx) as Hx'.
  split_and!; [|done|done|].
  - split; [done| |].
    + split.
      * split; [apply Hv|]. apply Hown. left. by left.
      * intros i t Hi. rewrite Ht. intros E. destruct (vo_tab _ _ _ Hv i t Hi E) as (? & _ & ?).
        split_and!; [done| |done]. apply Hown. left. right. eauto.
      * intros i j t Hi Hj. rewrite !Ht. by apply (vo_inj _ _ _ Hv).
    + split.
      * intros va Hva. unfold present, frame. rewrite Hx' by done. intros Hp.
        destruct (uo_frame _ _ _ Hu va Hva Hp) as (? & _ & ?). rewrite Htp. split_and!; [done| |done].
        apply Hown. right. by exists va.
      * intros va va' Hva Hva'. unfold present, frame. rewrite !Hx' by done. by apply (uo_inj _ _ _ Hu).
  - intros va Hva Hp. unfold ubyte, frame. rewrite Hx' by done. f_equal. apply Hown. right. by exists va.
Qed.

(** ** How many pages a space can own *)

(** The pages [T] are at most those of a space that ends at [a], and one. *)
Definition short_of (T : Z → Prop) (a : Z) : Prop :=
  ∃ O, (∀ u, T u → u ∈ O) ∧ Z.of_nat (length O) ≤ 1026 + (a + 4095) / 4096.

(** A directory, at most 1024 tables, and one frame for each user page. *)
Lemma owned_few m d a :
  0 ≤ a → (∀ va, a ≤ va < KERNBASE → ¬ present m d va) →
  ∃ O, (∀ u, owns m d u → u ∈ O) ∧ Z.of_nat (length O) ≤ 1025 + (a + 4095) / 4096.
Proof.
  intros Ha Htop. set (n := Z.to_nat ((a + 4095) / 4096)).
  exists (d :: ((λ i, default 0 (tab_at m d i)) <$> seq 0 1024) ++ ((λ i, frame m d (4096 * Z.of_nat i)) <$> seq 0 n)). split.
  - intros u [[->|(i & Hi & Ht)]|(va & Hva & Hp & ->)]; rewrite elem_of_cons, elem_of_app, !list_elem_of_fmap; [by left|right; left|right; right].
    + exists i. rewrite Ht. split; [done|]. apply elem_of_seq. lia.
    + assert (va < a) by (destruct (decide (va < a)); [done|]; exfalso; apply (Htop va); [lia|done]). unfold KERNBASE in *.
      exists (Z.to_nat (va / 4096)). split; [|apply elem_of_seq; unfold n; Z.div_mod_to_equations; lia].
      unfold frame. do 2 f_equal. rewrite Z2Nat.id by (Z.div_mod_to_equations; lia). apply xlate_page; Z.div_mod_to_equations; lia.
  - cbn [length]. rewrite length_app, !length_fmap, !length_seq. unfold n. assert (0 ≤ (a + 4095) / 4096) by (Z.div_mod_to_equations; lia). lia.
Qed.

Lemma short_length T a l : short_of T a → NoDup l → (∀ u, u ∈ l → T u) → Z.of_nat (length l) ≤ 1026 + (a + 4095) / 4096.
Proof.
  intros (O & HO & Hlen) Hnd Hl. assert (length l ≤ length O)%nat; [|lia]. apply submseteq_length, NoDup_submseteq; [done|].
  intros u Hu. by apply HO, Hl.
Qed.

Lemma short_mono T a a' : short_of T a → a ≤ a' → short_of T a'.
Proof. intros (O & HO & Hlen) Ha. exists O. split; [done|]. Z.div_mod_to_equations. lia. Qed.

(** ** Freeing a space *)

(** The loop of [freevm] over the entries [ix] of directory [d], whose page
    it does not change. *)
Definition free_entry (d : Z) (i : nat) : M kstate unit :=
  pde ← word_get d i; if has PTE_P pde then kfree (P2V (PTE_ADDR pde)) else mret tt.
(** The tables of the entries [ix] are distinct pages in use. *)
Definition tables_ok m l (d : Z) (ix : list nat) : Prop :=
  (∀ i t, i ∈ ix → tab_at m d i = Some t → allocatable t ∧ t ∉ l ∧ t ≠ d) ∧
  ∀ i j t, i ∈ ix → j ∈ ix → tab_at m d i = Some t → tab_at m d j = Some t → i = j.

Lemma free_tables d k l ix :
  kalloc_inv k l → allocatable d → d ∉ l → tables_ok (pages k) l d ix → NoDup ix →
  ∃ k' tabs, foreach ix (free_entry d) k = Ret tt k' [] ∧
    kalloc_inv k' (tabs ++ l) ∧ (∀ u, u ∈ tabs ↔ ∃ i, i ∈ ix ∧ tab_at (pages k) d i = Some u) ∧
    ∀ u, u ∉ tabs → pages k' !! u = pages k !! u.
Proof.
  intros Hk Hda Hdl [Htab Hinj] Hnd. revert k l Hk Hdl Htab Hinj.
  induction Hnd as [|i ix Hi Hnd IH]; intros k l Hk Hdl Htab Hinj.
  { exists k, []. split_and!; [done|done| |done]. intros u. split; [by intros ?%not_elem_of_nil|].
    by intros (i & ?%not_elem_of_nil & _). }
  destruct (ki_dom _ _ Hk d Hda) as [pg Hpg]. cbn [foreach].
  assert (word_get d i k = Ret (pde_at (pages k) d i) k []) as Hw
    by (unfold pde_at; rewrite Hpg; by apply word_get_run).
  setoid_rewrite elem_of_cons in Htab. setoid_rewrite elem_of_cons in Hinj.
  destruct (tab_at (pages k) d i) as [t|] eqn:Ht.
  - destruct (Htab i t) as (Hta & Htl & Htd); [by left|done|].
    destruct (kfree_push k l t Hk Hta Htl) as (k1 & E1 & Hk1 & Hp1 & _).
    assert (∀ j, tab_at (pages k1) d j = tab_at (pages k) d j) as Hsame
      by (intros j; unfold tab_at, pde_at; by rewrite Hp1).
    destruct (IH k1 (t :: l) Hk1) as (k' & tabs & E2 & Hk2 & Hin & Hfr).
    { apply not_elem_of_cons. by split. }
    { intros j t' Hj. rewrite Hsame. intros Hjt. destruct (Htab j t') as (? & ? & ?); [by right|done|].
      split_and!; [done| |done]. apply not_elem_of_cons. split; [|done]. intros ->. apply Hi.
      rewrite (Hinj i j t); [done|by left|by right|done|done]. }
    { intros j j' t' Hj Hj'. rewrite !Hsame. apply Hinj; by right. }
    exists k', (tabs ++ [t]). split_and!.
    + erewrite bind_run; [rewrite prepend_nil; exact E2|]. unfold free_entry. mstep Hw. unfold tab_at in Ht.
      destruct (has PTE_P _); [|done]. by injection Ht as ->.
    + by rewrite <- (assoc_L (++)).
    + intros u. rewrite elem_of_app, list_elem_of_singleton, Hin. setoid_rewrite elem_of_cons. setoid_rewrite Hsame.
      split; [intros [(j & Hj & Hu)| ->]; [exists j|exists i]; auto|].
      intros (j & [->|Hj] & Hu); [right; congruence|left; by exists j].
    + intros u Hu. rewrite not_elem_of_app, list_elem_of_singleton in Hu. rewrite Hfr by apply Hu. apply Hp1, Hu.
  - destruct (IH k l Hk Hdl) as (k' & tabs & E2 & Hk2 & Hin & Hfr); [intros j t Hj; apply Htab; by right|intros j j' t Hj Hj'; apply Hinj; by right|].
    exists k', tabs. split_and!; [|done| |done].
    + erewrite bind_run; [rewrite prepend_nil; exact E2|]. unfold free_entry. mstep Hw. unfold tab_at in Ht.
      by destruct (has PTE_P _).
    + intros u. rewrite Hin. setoid_rewrite elem_of_cons.
      split; intros (j & Hj & Hu); exists j; [auto|]. destruct Hj as [->|Hj]; [congruence|done].
Qed.

(** [freevm] gives back exactly the pages of the space, each once. *)
Lemma freevm_run k l d :
  uspace k l d → ∃ k' freed, freevm d k = Ret tt k' [] ∧ kalloc_inv k' (freed ++ l) ∧
    (∀ u, u ∈ freed ↔ owns (pages k) d u) ∧ ∀ u, u ∉ freed → pages k' !! u = pages k !! u.
Proof.
  intros Hs. pose proof Hs as [Hk Hv Hu]. unfold freevm. pose proof kend_pos as Hend.
  assert (d ≠ 0) as Hd0 by (destruct Hv as [[(_ & Hd & _) _] _ _]; lia).
  rewrite bool_decide_false by done. unfold panic_if. rewrite bind_mret.
  destruct (deallocuvm_run d KERNBASE 0 k l Hk Hv Hu) as (k1 & fr & E1 & [I1 V1 U1 T1 X1 F1 P1]);
    [unfold KERNBASE; lia|lia|].
  mstep E1.
  destruct (vo_dir _ _ _ V1) as [Hda Hdl].
  destruct (free_tables d k1 (fr ++ l) (seq 0 NPDENTRIES) I1 Hda Hdl) as (k2 & tabs & E2 & I2 & T2 & P2);
    [|apply NoDup_seq|].
  { assert (∀ i, i ∈ seq 0 NPDENTRIES → (i < 1024)%nat) as Hlt
      by (intros i Hi; apply elem_of_seq in Hi; unfold NPDENTRIES in Hi; lia).
    split; [intros i t Hi|intros i j t Hi Hj]; apply V1; auto. }
  mstep E2.
  assert (∀ u, u ∈ tabs ↔ ∃ i, (i < 1024)%nat ∧ tab_at (pages k) d i = Some u) as T2'.
  { intros u. rewrite T2. setoid_rewrite T1. setoid_rewrite elem_of_seq.
    split; intros (i & Hi & Ht); exists i; (split; [unfold NPDENTRIES in *; lia|done]). }
  assert (d ∉ tabs ++ fr ++ l) as Hdn.
  { rewrite not_elem_of_app. split; [|done]. intros (i & Hi & Ht)%T2'. by destruct (vo_tab _ _ _ Hv i d Hi Ht) as (_ & _ & ?). }
  destruct (kfree_push k2 _ d I2 Hda Hdn) as (k3 & E3 & I3 & P3 & _).
  exists k3, (d :: tabs ++ fr). split_and!; [exact E3|by rewrite <- app_comm_cons, <- (assoc_L (++))| |].
  - intros u. rewrite elem_of_cons, elem_of_app, T2', F1. unfold owns, table_page, user_frame.
    assert (∀ va, 0 ≤ va < KERNBASE → page_in (PGROUNDUP 0) KERNBASE va = true) as Hin.
    { intros va Hva. apply bool_decide_eq_true. change (PGROUNDUP 0) with 0. Z.div_mod_to_equations. lia. }
    split.
    + intros [H|[H|(va & Hva & _ & H)]]; [by left; left|by left; right|right; by exists va].
    + intros [[H|H]|(va & Hva & H)]; [by left|by right; left|right; right; exists va]. auto.
  - intros u [Hud Hn]%not_elem_of_cons. apply not_elem_of_app in Hn as [Hut Huf].
    rewrite P3, P2 by done. apply P1; [done|]. intros [->|Ht]; [done|]. by apply Hut, T2'.
Qed.

(** ** Mapping a page *)

Lemma page_addr v : allocatable v → V2P v mod 4096 = 0 ∧ 0 ≤ V2P v ∧ V2P v + 4096 ≤ KERNBASE ∧ P2V (V2P v) = v.
Proof.
  intros Hv. pose proof (allocatable_pos v Hv) as [Hp _]. pose proof kend_pos as Hend. destruct Hv as (Hm & H1 & H2).
  assert (V2P v = v - KERNBASE) as HV by (unfold V2P; apply u32_small; unfold KERNBASE, PHYSTOP in *; lia).
  unfold KERNBASE, PHYSTOP, PGSIZE in *. split_and!; [|lia|lia|apply P2V_V2P; unfold KERNBASE; lia].
  rewrite HV, Zminus_mod, Hm. done.
Qed.

(** The entry for frame [v] with flags [f]. *)
Lemma entry_of v f :
  allocatable v → 0 ≤ f < 4096 → has PTE_P f = true →
  let x := V2P v + f in P2V (PTE_ADDR x) = v ∧ PTE_FLAGS x = f ∧ has PTE_P x = true ∧ 0 ≤ x < 4294967296.
Proof.
  intros Hv Hf HP x. destruct (page_addr v Hv) as (Hm & H0 & H1 & HV). unfold KERNBASE in *.
  assert (x mod 4096 = f) as Hx by (unfold x; Z.div_mod_to_equations; lia).
  split_and!; [unfold x; by rewrite PTE_ADDR_flags by lia|by rewrite PTE_FLAGS_spec| |unfold x; lia|unfold x; lia].
  unfold has in *. apply bool_decide_eq_true in HP. apply bool_decide_eq_true. intros E. apply HP.
  change PTE_P with (Z.ones 1) in *. rewrite Z.land_ones in * by lia. change (2 ^ 1) with 2 in *.
  Z.div_mod_to_equations. lia.
Qed.

(** What growing the tables leaves alone. *)
Lemma grown_uspace d k l k' l' : grown d k l k' l' → uspace k l d → same_user (pages k) (pages k') d → uspace k' l' d.
Proof.
  intros [I O [used ->] F T K U] [_ _ [Uf Ui]] Hx'. split; [done|done|].
  split.
  - intros va Hva. unfold present, frame. rewrite Hx' by done. intros Hp. destruct (Uf va Hva Hp) as (H1 & H2 & H3).
    split_and!; [done|by rewrite elem_of_app in H2; naive_solver|]. intros Ht. by apply H3, T.
  - intros va va' Hva Hva'. unfold present, frame. rewrite !Hx' by done. by apply Ui.
Qed.

(** One page mapped. *)
Definition mapped_at m m' (d a x : Z) : Prop := ∀ va, 0 ≤ va < 4294967296 →
  xlate m' d va = if bool_decide (va / 4096 = a / 4096) then x else xlate m d va.

Lemma mapped_uspace d k l k' l' a v f :
  grown d k l k' l' → uspace k l d → 0 ≤ a < KERNBASE → allocatable v → v ∉ l → ¬ owns (pages k) d v →
  0 ≤ f < 4096 → has PTE_P f = true → ¬ present (pages k) d a →
  mapped_at (pages k) (pages k') d a (V2P v + f) →
  uspace k' l' d ∧ ∀ u, user_frame (pages k') d u ↔ u = v ∨ user_frame (pages k) d u.
Proof.
  intros [I O [used ->] F T K U] Hs Ha Hv Hvl Hvo Hf HP Hno Hx. pose proof Hs as [_ _ [Uf Ui]].
  destruct (entry_of v f Hv Hf HP) as (Ev & _ & Hpv & _). set (x := V2P v + f) in *.
  assert (∀ va, 0 ≤ va < KERNBASE →
    va / 4096 = a / 4096 ∧ present (pages k') d va ∧ frame (pages k') d va = v ∨
    va / 4096 ≠ a / 4096 ∧ (present (pages k') d va ↔ present (pages k) d va) ∧ frame (pages k') d va = frame (pages k) d va)
    as Hcase.
  { intros va Hva. unfold present, frame. rewrite Hx by (unfold KERNBASE in *; lia). case_bool_decide; auto. }
  assert (∀ va, 0 ≤ va < KERNBASE → present (pages k) d va → va / 4096 ≠ a / 4096) as Hnew.
  { intros va Hva Hp E. apply Hno. unfold present in *. by rewrite (xlate_page _ _ a va) by (unfold KERNBASE in *; lia). }
  assert (∀ va, 0 ≤ va < KERNBASE → present (pages k) d va → frame (pages k) d va ≠ v) as Hne.
  { intros va Hva Hp <-. apply Hvo. right. by exists va. }
  rewrite elem_of_app in Hvl.
  split; [split; [done|done|split]|].
  - intros va Hva Hp. destruct (Hcase va Hva) as [(_ & _ & ->)|(_ & Hiff & ->)].
    + split_and!; [done|by auto|]. intros Ht. apply Hvo. left. apply T; [by rewrite elem_of_app|done].
    + apply Hiff in Hp. destruct (Uf va Hva Hp) as (H1 & H2 & H3). pose proof H2 as H2'. rewrite elem_of_app in H2.
      split_and!; [done|by auto|]. intros Ht. by apply H3, T.
  - intros va va' Hva Hva' Hp Hp'.
    destruct (Hcase va Hva) as [(E & _ & ->)|(E & Hiff & ->)], (Hcase va' Hva') as [(E' & _ & ->)|(E' & Hiff' & ->)].
    + by rewrite E, E'.
    + intros H. symmetry in H. by apply Hne in H; [|done|apply Hiff'].
    + intros H. by apply Hne in H; [|done|apply Hiff].
    + by apply Ui; [done..|apply Hiff|apply Hiff'].
  - intros u. split.
    + intros (va & Hva & Hp & ->). destruct (Hcase va Hva) as [(_ & _ & ->)|(_ & Hiff & ->)]; [by left|right].
      exists va. by rewrite <- Hiff.
    + intros [->|(va & Hva & Hp & ->)].
      * exists a. split; [done|]. destruct (Hcase a Ha) as [(_ & ? & ?)|[? _]]; [auto|done].
      * exists va. split; [done|]. destruct (Hcase va Hva) as [[? _]|(_ & Hiff & ->)]; [by apply Hnew in Hp|]. by rewrite Hiff.
Qed.

Lemma flags_present perm : 0 ≤ perm < 4096 → 0 ≤ Z.lor perm PTE_P < 4096 ∧ has PTE_P (Z.lor perm PTE_P) = true.
Proof.
  intros Hp. assert (0 ≤ Z.lor perm PTE_P) by (apply Z.lor_nonneg; split; [lia|done]). split.
  - split; [done|]. apply Z.log2_lt_cancel. rewrite Z.log2_lor by (done || lia).
    change (Z.log2 4096) with 12. change (Z.log2 PTE_P) with 0. apply Z.max_lub_lt; [|lia].
    destruct (decide (perm = 0)) as [->|]; [simpl; lia|]. apply Z.log2_lt_pow2; lia.
  - apply bool_decide_eq_true. change PTE_P with (Z.ones 1). intros E.
    assert (Z.testbit (Z.land (Z.lor perm (Z.ones 1)) (Z.ones 1)) 0 = false) as Hb by (rewrite E; apply Z.bits_0).
    by rewrite Z.land_spec, Z.lor_spec, orb_true_r in Hb.
Qed.

Lemma map_page k l d a v perm :
  uspace k l d → a mod 4096 = 0 → 0 ≤ a < KERNBASE → ¬ present (pages k) d a →
  allocatable v → v ∉ l → ¬ owns (pages k) d v → 0 ≤ perm < 4096 →
  ∃ r k' l', mappages d a PGSIZE (V2P v) perm k = Ret r k' [] ∧ grown d k l k' l' ∧ uspace k' l' d ∧
    (r = 0 ∧ mapped_at (pages k) (pages k') d a (V2P v + Z.lor perm PTE_P) ∧
       (∀ u, user_frame (pages k') d u ↔ u = v ∨ user_frame (pages k) d u) ∨
     r = -1 ∧ l' = [] ∧ same_map (pages k) (pages k') d).
Proof.
  intros Hs Ha Har Hno Hv Hvl Hvo Hperm. pose proof Hs as [Hk Hvm Hu]. destruct (page_addr v Hv) as (Hm & H0 & H1 & _).
  destruct (flags_present perm Hperm) as [Hf HP].
  assert (PGROUNDDOWN a = a ∧ PGROUNDDOWN (a + PGSIZE - 1) = a) as [Ea Eb].
  { unfold KERNBASE, PGSIZE in *. rewrite !PGROUNDDOWN_spec by lia. Z.div_mod_to_equations. lia. }
  unfold KERNBASE in *.
  destruct (mappages_run d a PGSIZE (V2P v) perm k l Hk Hvm) as (r & k' & l' & top & E & G & Hx & Hr);
    [lia|unfold PGSIZE; lia|unfold PGSIZE; lia| |].
  { intros va Hva. rewrite Ea, Eb in Hva. apply not_true_is_false. intros Hp. apply Hno. unfold present.
    rewrite (xlate_page _ _ a va); [done|lia|lia|Z.div_mod_to_equations; lia]. }
  rewrite Ea, Eb in *. exists r, k', l'.
  destruct Hr as [[-> ->]|(-> & Htop & ->)].
  - assert (mapped_at (pages k) (pages k') d a (V2P v + Z.lor perm PTE_P)) as Hmap.
    { intros va Hva. rewrite Hx by done. rewrite (bool_decide_ext _ (va / 4096 = a / 4096)) by (Z.div_mod_to_equations; lia).
      case_bool_decide as Eq; [|done]. unfold mapped_pte, pa_at.
      assert ((va - a) / 4096 = 0) as -> by (Z.div_mod_to_equations; lia). rewrite bool_decide_true by done.
      rewrite <- Z.lor_assoc, lor_flags by done. apply u32_small. lia. }
    destruct (mapped_uspace d k l k' l' a v _ G Hs Har Hv Hvl Hvo Hf HP Hno Hmap) as [Hs' Hfr].
    split_and!; [done|done|done|by left].
  - assert (same_map (pages k) (pages k') d) as Hsame.
    { intros va Hva. rewrite Hx by done. by rewrite bool_decide_false by lia. }
    split_and!; [done|done|eapply grown_uspace; [done..|by apply same_map_user]|by right].
Qed.

(** ** The kernel half *)

Definition km_size (e : kmap_entry) : Z := u32 (km_end e - km_start e).
Definition km_in (e : kmap_entry) (va : Z) : bool := bool_decide (km_virt e ≤ va < km_virt e + km_size e).
(** What the MMU finds at [va] in a space with the mappings [es]. *)
Fixpoint kmap_pte (es : list kmap_entry) (va : Z) : option Z :=
  match es with
  | [] => None
  | e :: es' => if km_in e va then Some (mapped_pte (km_virt e) (km_start e) (km_perm e) va) else kmap_pte es' va
  end.
(** Mappings of whole pages above [lo], in increasing order. *)
Fixpoint kmap_ok (lo : Z) (es : list kmap_entry) : Prop :=
  match es with
  | [] => True
  | e :: es' => lo ≤ km_virt e ∧ km_virt e mod 4096 = 0 ∧ 0 < km_size e ∧ km_size e mod 4096 = 0 ∧
      km_virt e + km_size e ≤ 4294967296 ∧ kmap_ok (km_virt e + km_size e) es'
  end.

Lemma kmap_pte_low lo es va : kmap_ok lo es → va < lo → kmap_pte es va = None.
Proof.
  revert lo. induction es as [|e es IH]; intros lo; [done|]. intros (H1 & _ & H2 & _ & _ & H3) Hva. cbn [kmap_pte].
  unfold km_in. rewrite bool_decide_false by lia. eapply IH; [done|lia].
Qed.

Lemma kmap_ok_kernel : kmap_ok KERNBASE kmap.
Proof.
  pose proof kdata_above. pose proof kdata_aligned. pose proof kend_above. pose proof kend_below.
  assert (V2P kdata = kdata - KERNBASE) as HV
    by (unfold V2P; apply u32_small; unfold KERNLINK, KERNBASE, EXTMEM, PHYSTOP in *; lia).
  unfold kmap, kmap_ok, km_size. cbn [km_virt km_start km_end]. rewrite HV. change (V2P KERNLINK) with 1048576.
  unfold KERNLINK, KERNBASE, EXTMEM, DEVSPACE, PHYSTOP, PGSIZE in *.
  rewrite (u32_small (kdata - 2147483648 - 1048576)), (u32_small (234881024 - (kdata - 2147483648))) by lia.
  split_and!; try done; try lia; Z.div_mod_to_equations; lia.
Qed.

Lemma setupkvm_loop_run d es lo k l :
  kalloc_inv k l → vm_ok (pages k) l d → 0 ≤ lo → kmap_ok lo es →
  (∀ va, lo ≤ va < 4294967296 → has PTE_P (xlate (pages k) d va) = false) →
  ∃ r k' l', setupkvm_loop d es k = Ret r k' [] ∧ grown d k l k' l' ∧
    (∀ va, 0 ≤ va < lo → xlate (pages k') d va = xlate (pages k) d va) ∧
    (r = 0 ∧ (∀ va, 0 ≤ va < 4294967296 → xlate (pages k') d va = default (xlate (pages k) d va) (kmap_pte es va)) ∨ r = -1 ∧ l' = []).
Proof.
  revert lo k l. induction es as [|e es IH]; intros lo k l Hk Hv H0 Hes Hno.
  { exists 0, k, l. split_and!; [done|by apply grown_refl|done|by left]. }
  destruct Hes as (H1 & H2 & H3 & H4 & H5 & H6). cbn [setupkvm_loop]. fold (km_size e).
  assert (PGROUNDDOWN (km_virt e) = km_virt e ∧ PGROUNDDOWN (km_virt e + km_size e - 1) + 4096 = km_virt e + km_size e) as [Ea Eb].
  { rewrite !PGROUNDDOWN_spec by lia. Z.div_mod_to_equations. lia. }
  destruct (mappages_run d (km_virt e) (km_size e) (km_start e) (km_perm e) k l Hk Hv) as (r & k1 & l1 & top & E & G & Hx & Hr);
    [lia|lia|lia| |].
  { intros va Hva. apply Hno. lia. }
  rewrite Ea, Eb in *. mstep E.
  destruct Hr as [[-> ->]|(-> & Htop & ->)]; cycle 1.
  { exists (-1), k1, []. split_and!; [done|done| |by right]. intros va Hva. rewrite Hx by lia. by rewrite bool_decide_false by lia. }
  change (bool_decide (0 < 0)) with false. cbv iota.
  destruct (IH (km_virt e + km_size e) k1 l1) as (r & k2 & l2 & E2 & G2 & Hlow & Hr); [apply G|apply G|lia|done| |].
  { intros va Hva. rewrite Hx by lia. rewrite bool_decide_false by lia. apply Hno. lia. }
  exists r, k2, l2. split_and!; [done|by eapply grown_trans| |].
  - intros va Hva. rewrite Hlow, Hx by lia. by rewrite bool_decide_false by lia.
  - destruct Hr as [[-> Hmap]|[-> ->]]; [left; split; [done|]|by right]. intros va Hva. rewrite Hmap by done. cbn [kmap_pte]. unfold km_in.
    rewrite Hx by done. case_bool_decide; [|done]. by rewrite (kmap_pte_low _ es va H6) by lia.
Qed.

(** Of the pages [T] those of [l] are free, the rest belongs to [d]. *)
Definition accounts m (T : Z → Prop) l (d : Z) : Prop := ∀ u, T u ↔ u ∈ l ∨ owns m d u.

Lemma grown_accounts d k l k' l' T :
  grown d k l k' l' → accounts (pages k) T l d → same_user (pages k) (pages k') d → accounts (pages k') T l' d.
Proof.
  intros [I O [used ->] F Tb K U] Hacc Hx u. rewrite (Hacc u). unfold owns. rewrite (same_user_frames _ _ _ _ Hx). split.
  - intros [Hu|[Hu|Hu]]; [|by right; left; apply K|by right; right]. destruct (U u Hu); auto.
  - intros [Hu|[Hu|Hu]]; [left; rewrite elem_of_app; by right| |by right; right].
    destruct (decide (u ∈ used ++ l')); [by left|]. right. left. by apply Tb.
Qed.

(** The page [v], taken from the free list, becomes a frame of the space. *)
Lemma mapped_accounts d k l k' l' T v :
  grown d k l k' l' → accounts (pages k) T (v :: l) d →
  (∀ u, user_frame (pages k') d u ↔ u = v ∨ user_frame (pages k) d u) → accounts (pages k') T l' d.
Proof.
  intros [I O [used ->] F Tb K U] Hacc Huf u. rewrite (Hacc u), elem_of_cons. unfold owns. rewrite Huf. split.
  - intros [[->|Hu]|[Hu|Hu]]; [by right; right; left| |by right; left; apply K|by right; right; right].
    destruct (U u Hu); auto.
  - intros [Hu|[Hu|[->|Hu]]]; [left; right; rewrite elem_of_app; by right| |by left; left|by right; right].
    destruct (decide (u ∈ used ++ l')); [by left; right|]. right. left. by apply Tb.
Qed.

(** A cleared page is a space without pages. *)
Lemma empty_space k l v :
  kalloc_inv k l → allocatable v → v ∉ l → pages k !! v = Some zero_page →
  uspace k l v ∧ (∀ va, xlate (pages k) v va = 0) ∧ ∀ u, owns (pages k) v u ↔ u = v.
Proof.
  intros Hk Hv Hvl Hpg.
  assert (∀ i, tab_at (pages k) v i = None) as Ht.
  { intros i. unfold tab_at, pde_at. rewrite Hpg. destruct (decide (i < 1024)%nat) as [Hi|Hi]; [by rewrite word_zero|].
    unfold word, slice. rewrite drop_ge; [done|]. rewrite (proj1 zero_page_ok). lia. }
  assert (∀ va, xlate (pages k) v va = 0) as Hx by (intros va; unfold xlate; by rewrite Ht).
  split_and!; [|done|].
  - split; [done| |].
    + split; [done|intros i t _; by rewrite Ht|intros i j t _ _; by rewrite Ht].
    + split; intros va; unfold present; rewrite Hx; done.
  - intros u. unfold owns, table_page, user_frame, present. setoid_rewrite Ht. setoid_rewrite Hx.
    split; [|by intros ->; left; left]. intros [[->|(i & _ & H)]|(va & _ & H & _)]; done.
Qed.

Lemma page_alloc k v l pg :
  kalloc_inv k (v :: l) → length pg = 4096%nat → Forall byte pg →
  ∃ k1, let k2 := set_pages (<[v := pg]> (pages k)) k1 in
    kalloc k = Ret v k1 [] ∧ pages k1 = pages k ∧ page_set v pg k1 = Ret tt k2 [] ∧ kalloc_inv k2 l ∧
    allocatable v ∧ v ∉ l ∧ v ≠ 0.
Proof.
  intros Hk Hl Hb. destruct (kalloc_pop k v l Hk) as (Hv & Hvl & k1 & E & Hk1 & Hp & _). exists k1. cbv zeta.
  destruct (ki_dom _ _ Hk1 v Hv) as [pg0 Hpg0]. rewrite <- Hp. split_and!; try done.
  - by eapply page_set_run.
  - by apply kalloc_inv_page.
  - pose proof (allocatable_pos v Hv). lia.
Qed.

(** What is left when a space is given up. *)
Lemma freevm_accounts k l d T :
  uspace k l d → accounts (pages k) T l d →
  ∃ k' l', freevm d k = Ret tt k' [] ∧ kalloc_inv k' l' ∧ (∀ u, T u ↔ u ∈ l') ∧
    ∀ u, ¬ T u → pages k' !! u = pages k !! u.
Proof.
  intros Hs Hacc. destruct (freevm_run k l d Hs) as (k' & freed & E & Hk' & Hin & Hfr).
  exists k', (freed ++ l). split_and!; [done|done| |].
  - intros u. rewrite elem_of_app, (Hacc u), Hin. tauto.
  - intros u Hu. apply Hfr. rewrite Hin. intros Ho. apply Hu, Hacc. by right.
Qed.

(** No free page is left: all of [T] but perhaps [v] belong to the space. *)
Lemma accounts_short m T d a v :
  (∀ u, T u → u = v ∨ u ∈ [] ∨ owns m d u) → 0 ≤ a → (∀ va, a ≤ va < KERNBASE → ¬ present m d va) → short_of T a.
Proof.
  intros Hacc Ha Htop. destruct (owned_few m d a Ha Htop) as (O & HO & Hlen). exists (v :: O). split; [|cbn [length]; lia].
  intros u Hu. rewrite elem_of_cons. destruct (Hacc u Hu) as [->|[?%not_elem_of_nil|Ho]]; [by left|done|right]. by apply HO.
Qed.

Lemma setupkvm_run k l :
  kalloc_inv k l →
  ∃ r k' l', setupkvm k = Ret r k' [] ∧ kalloc_inv k' l' ∧ (∀ u, u ∉ l → pages k' !! u = pages k !! u) ∧
    (r = 0 ∧ (∀ u, u ∈ l ↔ u ∈ l') ∧ short_of (.∈ l) 0 ∨
     r ≠ 0 ∧ uspace k' l' r ∧ accounts (pages k') (.∈ l) l' r ∧
       ∀ va, 0 ≤ va < 4294967296 → xlate (pages k') r va = default 0 (kmap_pte kmap va)).
Proof.
  intros Hk. unfold setupkvm. destruct l as [|v l].
  { mstep (kalloc_empty k Hk). exists 0, k, []. split_and!; try done. left. split_and!; [done|done|]. exists []. split; [done|]. by vm_compute. }
  destruct (page_alloc k v l zero_page Hk) as (k1 & E1 & Hp1 & E2 & Hk2 & Hv & Hvl & Hv0); [apply zero_page_ok..|].
  mstep E1. rewrite bool_decide_false by done. mstep E2. set (k2 := set_pages _ k1) in *.
  change (bool_decide (P2V PHYSTOP > DEVSPACE)) with false. unfold panic_if. rewrite bind_mret.
  destruct (empty_space k2 l v Hk2 Hv Hvl) as (Hs2 & Hx2 & Ho2); [apply lookup_insert_eq|].
  assert (∀ u, u ∉ v :: l → pages k2 !! u = pages k !! u) as Hfr2.
  { intros u [Hu _]%not_elem_of_cons. by apply lookup_insert_ne. }
  assert (accounts (pages k2) (.∈ v :: l) l v) as Hacc2 by (intros u; rewrite elem_of_cons, Ho2; tauto).
  destruct (setupkvm_loop_run v kmap KERNBASE k2 l Hk2 (us_vm _ _ _ Hs2)) as (r & k3 & l3 & E3 & G & Hlow & Hr);
    [done|apply kmap_ok_kernel|intros va _; by rewrite Hx2|].
  mstep E3. assert (uspace k3 l3 v) as Hs3 by (by eapply grown_uspace).
  assert (accounts (pages k3) (.∈ v :: l) l3 v) as Hacc3 by (by eapply grown_accounts).
  assert (∀ u, u ∉ v :: l → pages k3 !! u = pages k !! u) as Hfr3.
  { intros u Hu. rewrite <- Hfr2 by done. apply (gr_frame _ _ _ _ _ G); [by apply not_elem_of_cons in Hu as [_ ?]|].
    intros Ht. apply Hu, Hacc2. right. by left. }
  destruct Hr as [[-> Hmap]|[-> ->]].
  - exists v, k3, l3. split_and!; [done|apply Hs3|done|right]. split_and!; try done.
    intros va Hva. by rewrite Hmap, Hx2 by done.
  - destruct (freevm_accounts k3 [] v (.∈ v :: l) Hs3 Hacc3) as (k4 & l4 & E4 & Hk4 & Hin & Hfr4).
    change (bool_decide (-1 < 0)) with true. cbv iota. mstep E4. exists 0, k4, l4. split_and!; [done|done|intros u Hu; by rewrite Hfr4, Hfr3|left].
    split_and!; [done|done|]. apply (accounts_short (pages k3) _ v 0 v); [|done|].
    + intros u Hu. right. by apply Hacc3.
    + intros va Hva. unfold present. by rewrite Hlow, Hx2 by lia.
Qed.

Lemma present_flags x :
  has PTE_P x = true →
  let f := PTE_FLAGS x in has PTE_P f = true ∧ 0 ≤ f < 4096 ∧ Z.lor f PTE_P = f.
Proof.
  intros H f. assert (0 ≤ f < 4096) as Hf by (unfold f; rewrite PTE_FLAGS_spec; by apply Z.mod_pos_bound).
  unfold has in *. apply bool_decide_eq_true in H.
  assert (Z.testbit x 0 = true) as Hb.
  { destruct (Z.testbit x 0) eqn:E; [done|]. exfalso. apply H. change PTE_P with (Z.ones 1). rewrite Z.land_ones by lia.
    apply Z.bits_inj'. intros n Hn. rewrite Z.bits_0. destruct (decide (n = 0)) as [->|].
    - by rewrite Z.mod_pow2_bits_low by lia.
    - by rewrite Z.mod_pow2_bits_high by lia. }
  assert (Z.testbit f 0 = true) as Hbf by (unfold f, PTE_FLAGS; by rewrite Z.land_spec, Hb).
  split_and!; [|lia|lia|].
  - apply bool_decide_eq_true. intros E. assert (Z.testbit (Z.land f PTE_P) 0 = false) as Hc by (rewrite E; apply Z.bits_0).
    by rewrite Z.land_spec, Hbf in Hc.
  - apply Z.bits_inj'. intros n Hn. rewrite Z.lor_spec. destruct (decide (n = 0)) as [->|]; [by rewrite Hbf|].
    change PTE_P with (Z.ones 1). by rewrite Z.ones_spec_high, orb_false_r by lia.
Qed.

(** Reading a page of a space. *)
Lemma walk_present k l d va :
  uspace k l d → 0 ≤ va < KERNBASE → present (pages k) d va →
  ∃ t, walkpgdir d va false k = Ret (Some (t, ptx va)) k [] ∧ word_get t (ptx va) k = Ret (xlate (pages k) d va) k [].
Proof.
  intros [Hk Hv _] Hva Hp. assert (0 ≤ va < 4294967296) as Hva' by (unfold KERNBASE in *; lia).
  rewrite (walk_noalloc k l d va Hk Hv). unfold present in Hp.
  destruct (tab_at (pages k) d (pdx va)) as [t|] eqn:Ht; [|unfold xlate in Hp; by rewrite Ht in Hp].
  exists t. split; [done|]. by destruct (set_pte k l d va t 0 Hk Hv Hva' Ht) as (pg & _ & Hw & _).
Qed.

(** The space after [deallocuvm]. *)
Lemma shrunk_space d lo hi k l k' freed :
  uspace k l d → shrunk d lo hi k l k' freed →
  uspace k' (freed ++ l) d ∧ (∀ u, u ∈ l ∨ owns (pages k) d u ↔ u ∈ freed ++ l ∨ owns (pages k') d u) ∧
  (∀ u, ¬ owns (pages k) d u → pages k' !! u = pages k !! u) ∧
  (∀ va, 0 ≤ va < 4294967296 → page_in lo hi va = false → xlate (pages k') d va = xlate (pages k) d va ∧
     (va < KERNBASE → present (pages k) d va → ubyte (pages k') d va = ubyte (pages k) d va)) ∧
  (∀ va, 0 ≤ va < KERNBASE → page_in lo hi va = true → ¬ present (pages k') d va).
Proof.
  intros [Hk Hv Hu] [I' V' U' T' X' F' P'].
  assert (∀ u, table_page (pages k') d u ↔ table_page (pages k) d u) as Htp by (intros u; unfold table_page; by setoid_rewrite T').
  assert (∀ va, 0 ≤ va < KERNBASE → page_in lo hi va = true → ¬ present (pages k') d va) as Hin.
  { intros va Hva Hpi Hp. specialize (X' va ltac:(unfold KERNBASE in *; lia)). rewrite Hpi in X'. unfold present in Hp. congruence. }
  assert (∀ va, 0 ≤ va < 4294967296 → page_in lo hi va = false → xlate (pages k') d va = xlate (pages k) d va) as Hout.
  { intros va Hva Hpi. specialize (X' va Hva). by rewrite Hpi in X'. }
  assert (∀ u, u ∈ freed → user_frame (pages k) d u) as Hfo by (intros u (va & Hva & _ & Hp & ->)%F'; by exists va).
  split_and!; [done| | | |done].
  - intros u. rewrite elem_of_app. unfold owns. rewrite Htp. split.
    + intros [Hul|[Ht|(va & Hva & Hp & ->)]]; [by left; right|by right; left|].
      destruct (page_in lo hi va) eqn:Hpi; [left; left; apply F'; by exists va|]. right. right. exists va.
      unfold present, frame. by rewrite Hout by (done || (unfold KERNBASE in *; lia)).
    + intros [[Hf|Hul]|[Ht|(va & Hva & Hp & ->)]]; [right; right; by apply Hfo|by left|right; by left|]. right. right. exists va.
      destruct (page_in lo hi va) eqn:Hpi; [by apply Hin in Hp|]. unfold present, frame in *.
      by rewrite Hout in Hp |- * by (done || (unfold KERNBASE in *; lia)).
  - intros u Ho. apply P'; [intros Hf%Hfo; apply Ho; by right|intros Ht; apply Ho; by left].
  - intros va Hva Hpi. split; [by apply Hout|]. intros Hk2 Hp. unfold ubyte, frame. rewrite Hout by done. f_equal.
    fold (frame (pages k) d va). apply P'; [|by apply (uo_frame _ _ _ Hu va ltac:(lia) Hp)].
    intros (va' & Hva' & Hpi' & Hp' & Ef)%F'. apply (uo_inj _ _ _ Hu) in Ef; try done; [|lia].
    assert (va - va mod 4096 = va' - va' mod 4096) as Eq by (Z.div_mod_to_equations; lia).
    unfold page_in in Hpi, Hpi'. rewrite Eq in Hpi. congruence.
Qed.

(** ** Building a space page by page *)

(** Page [va] of [d] is as [w] says: absent, or present with flags and byte. *)
Definition shows m (d va : Z) (w : option (Z * option Z)) : Prop :=
  match w with
  | None => ¬ present m d va
  | Some (f, b) => present m d va ∧ PTE_FLAGS (xlate m d va) = f ∧ ubyte m d va = b
  end.
Lemma shows_same m m' d va w :
  xlate m' d va = xlate m d va → (present m d va → ubyte m' d va = ubyte m d va) → shows m d va w → shows m' d va w.
Proof.
  intros Hx Hb. destruct w as [[f b]|]; unfold shows, present in *; rewrite Hx; [|done].
  intros (H1 & H2 & H3). by rewrite Hb.
Qed.
End space.

Section build.
Context {KI : KernelImage} {KO : KernelImageOk KI}.
(** Only pages of [T0] are written, the others are as in [m0]; what the space
    is to contain is [want] for user pages and [kern] for the kernel half. *)
Context (T0 : Z → Prop) (m0 : gmap Z (list Z)) (want : Z → option (Z * option Z)) (kern : Z → Z).
Implicit Types (T : Z → Prop) (k : kstate) (l : list Z).

(** The space [d] as wanted, below address [a]. *)
Record built T k l (d a : Z) : Prop := Built {
  bu_space : uspace k l d;
  bu_acct : accounts (pages k) T l d;
  bu_sub u : T u → T0 u;
  bu_kept u : ¬ T0 u → pages k !! u = m0 !! u;
  bu_user va : 0 ≤ va < KERNBASE → shows (pages k) d va (if bool_decide (va < a) then want va else None);
  bu_kern va : KERNBASE ≤ va < 4294967296 → xlate (pages k) d va = kern va
}.

Lemma built_free T k l d a u : built T k l d a → u ∈ l → T u ∧ T0 u.
Proof. intros H Hu. assert (T u) by (apply H; by left). split; [done|]. by apply H. Qed.
Lemma built_owns T k l d a u : built T k l d a → owns (pages k) d u → T u ∧ T0 u.
Proof. intros H Hu. assert (T u) by (apply H; by right). split; [done|]. by apply H. Qed.

(** Writing pages that the space does not own. *)
Lemma built_frame T T' k l k' l' d a :
  built T k l d a → kalloc_inv k' l' → (∀ u, owns (pages k) d u → u ∉ l' ∧ pages k' !! u = pages k !! u) →
  (∀ u, ¬ T0 u → pages k' !! u = pages k !! u) →
  (∀ u, T' u ↔ u ∈ l' ∨ owns (pages k) d u) → (∀ u, T' u → T0 u) →
  built T' k' l' d a ∧ same_map (pages k) (pages k') d ∧ ∀ u, owns (pages k') d u ↔ owns (pages k) d u.
Proof.
  intros [Hs Hacc Hsub Hkept Huser Hkern] Hk' Hown Hfr HT' Hsub'.
  destruct (uspace_frame k l d k' l' Hs Hk' Hown) as (H1 & H2 & H3 & H4).
  assert (∀ u, owns (pages k') d u ↔ owns (pages k) d u) as Ho
    by (intros u; unfold owns; by rewrite H3, (same_user_frames _ _ _ _ (same_map_user _ _ _ H2))).
  split_and!; [|done|done]. split; [done| |done| | |].
  - intros u. by rewrite Ho, HT'.
  - intros u Hu. by rewrite Hfr, Hkept.
  - intros va Hva. eapply shows_same; [apply H2; unfold KERNBASE in *; lia|by apply H4|by apply Huser].
  - intros va Hva. rewrite H2 by (unfold KERNBASE in *; lia). by apply Hkern.
Qed.

(** Growing the tables without a new translation. *)
Lemma built_grown T k l k' l' d a :
  built T k l d a → grown d k l k' l' → same_map (pages k) (pages k') d → built T k' l' d a.
Proof.
  intros Hb G Hx. pose proof Hb as [Hs Hacc Hsub Hkept Huser Hkern]. pose proof (same_map_user _ _ _ Hx) as Hxu.
  split; [by eapply grown_uspace|by eapply grown_accounts|done| | |].
  - intros u Hu. rewrite <- Hkept by done. apply (gr_frame _ _ _ _ _ G).
    + intros Hul. by apply Hu, (built_free _ _ _ _ _ _ Hb).
    + intros Ht. apply Hu, (built_owns _ _ _ _ _ _ Hb). by left.
  - intros va Hva. eapply shows_same; [by apply Hxu| |by apply Huser]. intros Hp. unfold ubyte, frame. rewrite Hxu by done. f_equal.
    destruct (uo_frame _ _ _ (us_user _ _ _ Hs) va Hva Hp) as (_ & H1 & H2). by apply (gr_frame _ _ _ _ _ G).
  - intros va Hva. rewrite Hx by (unfold KERNBASE in *; lia). by apply Hkern.
Qed.

(** Mapping page [v], filled with [pg], at [a]. *)
Lemma built_mapped T k l k' l' d a v f pg :
  built (λ u, T u ∧ u ≠ v) k l d a → T0 v → T v → v ∉ l → allocatable v → ¬ owns (pages k) d v → pages k !! v = Some pg →
  a mod 4096 = 0 → 0 ≤ a < KERNBASE → 0 ≤ f < 4096 → has PTE_P f = true →
  (∀ va, a ≤ va < a + 4096 → want va = Some (f, pg !! Z.to_nat (va mod 4096))) →
  grown d k l k' l' → uspace k' l' d → mapped_at (pages k) (pages k') d a (V2P v + f) →
  (∀ u, user_frame (pages k') d u ↔ u = v ∨ user_frame (pages k) d u) → (∀ u, T u → T0 u) →
  built T k' l' d (a + 4096).
Proof.
  intros Hb HT0v HTv Hvl Hv Hvo Hpg Ha Har Hf HP Hw G Hs' Hmap Huf Hsub'. pose proof Hb as [Hs Hacc Hsub Hkept Huser Hkern].
  assert (a + 4096 ≤ KERNBASE) as Ha2 by (unfold KERNBASE in *; Z.div_mod_to_equations; lia).
  assert (∀ va, 0 ≤ va < 4294967296 → va / 4096 = a / 4096 ↔ a ≤ va < a + 4096) as Hpage by (intros va Hva; Z.div_mod_to_equations; lia).
  destruct (entry_of v f Hv Hf HP) as (Ev & Ef & Ep & _).
  split; [done| |done| | |].
  - apply (mapped_accounts d k l k' l' T v G); [|done]. intros u. rewrite elem_of_cons.
    specialize (Hacc u). cbn in Hacc. destruct (decide (u = v)) as [->|]; naive_solver.
  - intros u Hu. rewrite <- Hkept by done. apply (gr_frame _ _ _ _ _ G).
    + intros Hul. by apply Hu, (built_free _ _ _ _ _ _ Hb).
    + intros Ht. apply Hu, (built_owns _ _ _ _ _ _ Hb). by left.
  - intros va Hva. specialize (Hpage va ltac:(unfold KERNBASE in *; lia)). pose proof (Hmap va ltac:(unfold KERNBASE in *; lia)) as Hx.
    destruct (decide (a ≤ va < a + 4096)) as [Hin|Hout].
    + rewrite bool_decide_true in Hx by (by apply Hpage). rewrite bool_decide_true, Hw by lia.
      unfold shows, present, ubyte, frame. rewrite Hx, Ev. split_and!; [done|done|].
      rewrite (gr_frame _ _ _ _ _ G), Hpg; [done|done|]. intros Ht. apply Hvo. by left.
    + rewrite bool_decide_false in Hx by (by rewrite Hpage). specialize (Huser va Hva).
      rewrite (bool_decide_ext (va < a + 4096) (va < a)) by lia. eapply shows_same; [done| |done].
      intros Hp. unfold ubyte, frame. rewrite Hx. f_equal.
      destruct (uo_frame _ _ _ (us_user _ _ _ Hs) va Hva Hp) as (_ & H1 & H2). by apply (gr_frame _ _ _ _ _ G).
  - intros va Hva. rewrite Hmap by (unfold KERNBASE in *; lia). rewrite bool_decide_false; [by apply Hkern|].
    intros ?%Hpage; unfold KERNBASE in *; lia.
Qed.

(** Taking a page, filling it with [pg] and mapping it at [a]. *)
Lemma build_page T k v l d a perm pg :
  built T k (v :: l) d a → a mod 4096 = 0 → 0 ≤ a < KERNBASE → 0 ≤ perm < 4096 → length pg = 4096%nat → Forall byte pg →
  (∀ va, a ≤ va < a + 4096 → want va = Some (Z.lor perm PTE_P, pg !! Z.to_nat (va mod 4096))) →
  v ≠ 0 ∧ ∃ k1 k2 r k3 l3, kalloc k = Ret v k1 [] ∧ pages k1 = pages k ∧ page_set v pg k1 = Ret tt k2 [] ∧
    mappages d a PGSIZE (V2P v) perm k2 = Ret r k3 [] ∧
    (r = 0 ∧ built T k3 l3 d (a + 4096) ∨
     r = -1 ∧ built (λ u, T u ∧ u ≠ v) k3 [] d a ∧ allocatable v ∧ T v).
Proof.
  intros Hb Ha Har Hperm Hlen Hby Hw. pose proof Hb as [Hs Hacc Hsub Hkept Huser Hkern].
  destruct (page_alloc k v l pg (us_inv _ _ _ Hs) Hlen Hby) as (k1 & E1 & Hp1 & E2 & Hk2 & Hv & Hvl & Hv0). split; [done|].
  set (k2 := set_pages _ k1) in *. assert (v ∈ v :: l) as Hvin by (by apply elem_of_cons; left).
  destruct (built_free _ _ _ _ _ v Hb Hvin) as [HTv HT0v].
  assert (∀ u, owns (pages k) d u → u ∉ l ∧ u ≠ v) as Hno.
  { intros u Ho. apply (owns_used _ _ _ _ Hs) in Ho as [_ Hu]. apply not_elem_of_cons in Hu. tauto. }
  destruct (built_frame T (λ u, T u ∧ u ≠ v) k (v :: l) k2 l d a Hb Hk2) as (Hb2 & Hm2 & Ho2).
  { intros u Ho%Hno. split; [apply Ho|]. apply lookup_insert_ne. intros <-. by destruct Ho. }
  { intros u Hu. apply lookup_insert_ne. by intros <-. }
  { intros u. rewrite (Hacc u), elem_of_cons. specialize (Hno u). destruct (decide (u = v)) as [->|]; naive_solver. }
  { intros u [Hu _]. by apply Hsub. }
  assert (¬ owns (pages k2) d v) as Hnv by (rewrite Ho2; intros Ho%Hno; by destruct Ho).
  destruct (flags_present perm Hperm) as [Hf HP].
  destruct (map_page k2 l d a v perm (bu_space _ _ _ _ _ Hb2) Ha Har) as (r & k3 & l3 & E3 & G & Hs3 & Hr); try done.
  { pose proof (bu_user _ _ _ _ _ Hb2 a Har) as H. rewrite bool_decide_false in H by lia. exact H. }
  exists k1, k2, r, k3, l3. split_and!; try done. destruct Hr as [(-> & Hmap & Huf)|(-> & -> & Hsame)]; [left|right]; split; try done.
  - eapply (built_mapped T k2 l k3 l3 d a v); try done. apply lookup_insert_eq.
  - split; [|done]. by eapply built_grown.
Qed.

(** No page is left for the space. *)
Lemma built_short T T' v k d a a' :
  built T' k [] d a → (∀ u, T u → u = v ∨ T' u) → 0 ≤ a ≤ a' → short_of T a'.
Proof.
  intros [_ Hacc _ _ Huser _] HT Ha. eapply short_mono; [eapply (accounts_short (pages k) T d a v)|]; [|lia| |lia].
  - intros u [->|Hu]%HT; [by left|right]. by apply Hacc.
  - intros va Hva. specialize (Huser va ltac:(lia)). rewrite bool_decide_false in Huser by lia. exact Huser.
Qed.

(** Giving the whole space up. *)
Lemma build_free T k l d a :
  built T k l d a → ∃ k' l', freevm d k = Ret tt k' [] ∧ kalloc_inv k' l' ∧ (∀ u, T u ↔ u ∈ l') ∧
    ∀ u, ¬ T0 u → pages k' !! u = m0 !! u.
Proof.
  intros Hb. destruct (freevm_accounts k l d T (bu_space _ _ _ _ _ Hb) (bu_acct _ _ _ _ _ Hb)) as (k' & l' & E & Hk' & Hin & Hfr).
  exists k', l'. split_and!; try done. intros u Hu. rewrite Hfr by (intros ?%(bu_sub _ _ _ _ _ Hb); done). by apply Hb.
Qed.
End build.

(** ** Copying a space *)

Section copy.
Context {KI : KernelImage} {KO : KernelImageOk KI}.
(** The parent's space before the copy. *)
Context (p sz : Z) (k0 : kstate) (l0 : list Z) (Hp0 : uspace k0 l0 p).
Context (Hsz : 0 ≤ sz ≤ KERNBASE) (Hpres : ∀ va, 0 ≤ va < sz → present (pages k0) p va).
Implicit Types (k : kstate) (l : list Z).

(** A child has the parent's flags and bytes, and the kernel's mappings. *)
Definition copy_want (va : Z) : option (Z * option Z) := Some (PTE_FLAGS (xlate (pages k0) p va), ubyte (pages k0) p va).
Definition kern_pte (va : Z) : Z := default 0 (kmap_pte kmap va).
Abbreviation copied := (built (.∈ l0) (pages k0) copy_want kern_pte).

(** The parent stands while pages of [l0] are written. *)
Lemma parent_stands k l :
  kalloc_inv k l → (∀ u, u ∈ l → u ∈ l0) → (∀ u, u ∉ l0 → pages k !! u = pages k0 !! u) →
  uspace k l p ∧ same_map (pages k0) (pages k) p.
Proof.
  intros Hk Hl Hfr. destruct (uspace_frame k0 l0 p k l Hp0 Hk) as (H1 & H2 & _); [|done].
  intros u Ho. apply (owns_used k0 l0 p u Hp0) in Ho as [_ Hu]. split; [by intros ?%Hl|by apply Hfr].
Qed.

(** The copy was given up: all pages but at most one are free again. *)
Record given_up k l : Prop := GivenUp {
  gu_inv : kalloc_inv k l;
  gu_kept u : u ∉ l0 → pages k !! u = pages k0 !! u;
  gu_lost : ∃ lost, (length lost ≤ 1)%nat ∧ ∀ u, u ∈ l0 ↔ u ∈ lost ∨ u ∈ l
}.

Lemma undo_growth T k l d a lost :
  copied T k l d a → (length lost ≤ 1)%nat → (∀ u, u ∈ l0 ↔ u ∈ lost ∨ T u) →
  ∃ k' l', (freevm d;; mret 0) k = Ret 0 k' [] ∧ given_up k' l'.
Proof.
  intros Hc Hlen Hl. destruct (build_free _ _ _ _ _ _ _ _ _ Hc) as (k' & l' & E & Hk' & Hin & Hfr).
  exists k', l'. split; [by mstep E|]. split; [done|done|]. exists lost. split; [done|]. intros u. by rewrite Hl, Hin.
Qed.

(** The page of the parent that is copied next. *)
Lemma parent_page i :
  0 ≤ i < sz → i mod 4096 = 0 → ∃ pg, pages k0 !! frame (pages k0) p i = Some pg ∧ frame (pages k0) p i ∉ l0 ∧
    length pg = 4096%nat ∧ Forall byte pg ∧
    ∀ va, i ≤ va < i + 4096 → copy_want va = Some (PTE_FLAGS (xlate (pages k0) p i), pg !! Z.to_nat (va mod 4096)).
Proof.
  intros Hi Him. assert (0 ≤ i < KERNBASE) as Hik by lia.
  destruct (uo_frame _ _ _ (us_user _ _ _ Hp0) i Hik (Hpres i Hi)) as (Hfa & Hfl & _).
  destruct (ki_dom _ _ (us_inv _ _ _ Hp0) _ Hfa) as [pg Hpg]. destruct (ki_pages _ _ (us_inv _ _ _ Hp0) _ pg Hpg) as [Hlen Hby].
  exists pg. split_and!; try done. intros va Hva. unfold copy_want, ubyte, frame.
  rewrite (xlate_page _ _ va i); [|unfold KERNBASE in *; lia|unfold KERNBASE in *; lia|Z.div_mod_to_equations; lia].
  fold (frame (pages k0) p i). by rewrite Hpg.
Qed.

Lemma copyuvm_loop_run fuel d i k l :
  copied (.∈ l0) k l d i → d ≠ 0 → i mod 4096 = 0 → 0 ≤ i < sz + 4096 → sz ≤ i + 4096 * (Z.of_nat fuel - 1) → (1 ≤ fuel)%nat →
  ∃ r k' l', copyuvm_loop fuel p d i sz k = Ret r k' [] ∧
    (r = d ∧ copied (.∈ l0) k' l' d (PGROUNDUP sz) ∨ r = 0 ∧ given_up k' l' ∧ short_of (.∈ l0) sz).
Proof.
  revert i k l. induction fuel as [|fuel IH]; intros i k l Hc Hd Hi Hir Hf H1; [lia|]. cbn [copyuvm_loop].
  pose proof Hsz as Hsz'. unfold KERNBASE in Hsz'.
  case_bool_decide as Hlt; cycle 1.
  { exists d, k, l. split; [done|]. left. split; [done|]. destruct (PGROUNDUP_spec sz) as (E & _); [lia|].
    replace (PGROUNDUP sz) with i by (rewrite E; Z.div_mod_to_equations; lia). done. }
  assert (0 ≤ i < sz) as Hisz by lia. assert (0 ≤ i < KERNBASE) as Hik by (unfold KERNBASE; lia).
  pose proof Hc as [Hs Hacc _ Hkept _ _].
  destruct (parent_stands k l (us_inv _ _ _ Hs)) as [Hp Hpm]; [intros u Hu; apply Hacc; by left|done|].
  assert (xlate (pages k) p i = xlate (pages k0) p i) as Hx by (apply Hpm; lia).
  destruct (walk_present k l p i Hp Hik) as (t & E1 & E2); [unfold present; rewrite Hx; by apply Hpres|].
  mstep E1. mstep E2. rewrite Hx. pose proof (Hpres i Hisz) as HP. unfold present in HP. rewrite HP.
  destruct (present_flags _ HP) as (HPf & Hfl & Hlor). cbn [negb]. unfold panic_if at 1. rewrite bind_mret.
  destruct (parent_page i Hisz Hi) as (pg & Hpg & Hfr & Hlen & Hby & Hw). rewrite <- Hlor in Hw.
  destruct l as [|v l].
  { mstep (kalloc_empty k (us_inv _ _ _ Hs)). rewrite bool_decide_true by done.
    destruct (undo_growth _ _ _ _ _ [] Hc) as (k' & l' & E & Hg); [simpl; lia|set_solver|]. exists 0, k', l'. split; [done|right].
    split_and!; [done|done|]. eapply (built_short _ _ _ _ (.∈ l0) (.∈ l0) 0); [exact Hc|by right|lia]. }
  destruct (build_page _ _ _ _ _ k v l d i _ pg Hc Hi Hik Hfl Hlen Hby Hw) as (Hv0 & k1 & k2 & r & k3 & l3 & E3 & Hp1 & E4 & E5 & Hr).
  mstep E3. rewrite bool_decide_false by done.
  assert (pages k1 !! P2V (PTE_ADDR (xlate (pages k0) p i)) = Some pg) as Hpg1.
  { rewrite Hp1. fold (frame (pages k0) p i). by rewrite Hkept. }
  mstep (page_get_run k1 _ pg Hpg1). mstep E4. mstep E5. destruct Hr as [(-> & Hc3)|(-> & Hc3 & Hv & HTv)].
  - change (bool_decide (0 < 0)) with false. cbv iota. rewrite u32_small by (unfold PGSIZE; lia). unfold PGSIZE.
    apply (IH (i + 4096) k3 l3); try done; try lia. by rewrite Z.add_mod, Hi by lia.
  - change (bool_decide (-1 < 0)) with true. cbv iota.
    destruct (undo_growth _ _ _ _ _ [v] Hc3) as (k' & l' & E & Hg); [simpl; lia| |].
    { intros u. rewrite list_elem_of_singleton. cbn in HTv. destruct (decide (u = v)) as [->|]; tauto. }
    exists 0, k', l'. split; [done|right]. split_and!; [done|done|]. eapply (built_short _ _ _ _ (.∈ l0) _ v); [exact Hc3| |lia].
    intros u Hu. cbn. destruct (decide (u = v)); auto.
Qed.

(** What [copyuvm] leaves: the parent as it was, and a copy or nothing. *)
Record copyuvm_post (r : Z) k l : Prop := CopyPost {
  cu_parent : uspace k l p;
  cu_map : same_map (pages k0) (pages k) p;
  cu_kept u : u ∉ l0 → pages k !! u = pages k0 !! u;
  cu_result : r = 0 ∧ (∃ lost, (length lost ≤ 1)%nat ∧ ∀ u, u ∈ l0 ↔ u ∈ lost ∨ u ∈ l) ∧ short_of (.∈ l0) sz ∨
    r ≠ 0 ∧ copied (.∈ l0) k l r (PGROUNDUP sz)
}.

Lemma copyuvm_run : ∃ r k l, copyuvm p sz k0 = Ret r k [] ∧ copyuvm_post r k l.
Proof.
  unfold copyuvm. destruct (setupkvm_run k0 l0 (us_inv _ _ _ Hp0)) as (d & k1 & l1 & E1 & Hk1 & Hkept1 & Hd). mstep E1.
  assert (∀ r k l, kalloc_inv k l → (∀ u, u ∈ l → u ∈ l0) → (∀ u, u ∉ l0 → pages k !! u = pages k0 !! u) →
    (r = 0 ∧ (∃ lost, (length lost ≤ 1)%nat ∧ ∀ u, u ∈ l0 ↔ u ∈ lost ∨ u ∈ l) ∧ short_of (.∈ l0) sz ∨ r ≠ 0 ∧ copied (.∈ l0) k l r (PGROUNDUP sz)) →
    copyuvm_post r k l) as Hpost.
  { intros r k l Hk Hl Hkept Hr. destruct (parent_stands k l Hk Hl Hkept) as [H1 H2]. by split. }
  destruct Hd as [(-> & Hin & Hsh)|(Hd0 & Hs1 & Hacc1 & Hx1)].
  { rewrite bool_decide_true by done. exists 0, k1, l1. split; [done|]. apply Hpost; [done|by intros u ?%Hin|done|].
    left. split_and!; [done| |eapply short_mono; [exact Hsh|lia]]. exists []. split; [simpl; lia|set_solver]. }
  rewrite bool_decide_false by done.
  assert (copied (.∈ l0) k1 l1 d 0) as Hc.
  { split; try done; intros va Hva; unfold KERNBASE in *.
    - rewrite bool_decide_false by lia. unfold shows, present. rewrite Hx1 by lia.
      rewrite (kmap_pte_low KERNBASE) by (apply kmap_ok_kernel || (unfold KERNBASE; lia)). done.
    - apply Hx1. lia. }
  destruct (copyuvm_loop_run (Z.to_nat (sz / PGSIZE) + 2) d 0 k1 l1 Hc Hd0) as (r & k' & l' & E & Hr);
    [done|lia|unfold PGSIZE; Z.div_mod_to_equations; lia|lia|].
  exists r, k', l'. split; [done|]. destruct Hr as [[-> Hc']|(-> & [Hk' Hkept' (lost & Hl1 & Hl2)] & Hsh)].
  - pose proof Hc' as [H1 H2 H3 H4 _ _]. apply Hpost; [apply H1|intros u Hu; apply H2; by left|done|]. by right.
  - apply Hpost; [done|intros u Hu; apply Hl2; by right|done|]. left. split_and!; [done|by exists lost|done].
Qed.
End copy.

(** ** Growing a space *)

Section grow.
Context {KI : KernelImage} {KO : KernelImageOk KI}.
(** The space before, with nothing mapped above its size. *)
Context (d oldsz newsz : Z) (k0 : kstate) (l0 : list Z) (Hs0 : uspace k0 l0 d) (Hsz : 0 ≤ oldsz ∧ oldsz ≤ newsz < KERNBASE).
Implicit Types (k : kstate) (l : list Z).
Abbreviation start := (PGROUNDUP oldsz).
Context (Htop : ∀ va, start ≤ va < KERNBASE → ¬ present (pages k0) d va).

(** Old pages stay, new pages are cleared and writable by the user. *)
Definition grow_want (va : Z) : option (Z * option Z) :=
  if bool_decide (va < start)
  then if has PTE_P (xlate (pages k0) d va) then Some (PTE_FLAGS (xlate (pages k0) d va), ubyte (pages k0) d va) else None
  else Some (Z.lor (Z.lor PTE_W PTE_U) PTE_P, Some 0).
Definition grow_pages (u : Z) : Prop := u ∈ l0 ∨ owns (pages k0) d u.
Abbreviation enlarged := (built grow_pages (pages k0) grow_want (xlate (pages k0) d)).

Lemma start_spec : start mod 4096 = 0 ∧ oldsz ≤ start < oldsz + 4096 ∧ start ≤ KERNBASE.
Proof. unfold KERNBASE in *. destruct (PGROUNDUP_spec oldsz) as (E & H1 & H2); [lia|]. split_and!; try done; try lia. Z.div_mod_to_equations. lia. Qed.

Lemma enlarged_start : enlarged grow_pages k0 l0 d start.
Proof.
  split; try done. intros va Hva. unfold grow_want. case_bool_decide as H.
  - destruct (has PTE_P (xlate (pages k0) d va)) eqn:E; unfold shows, present; [done|]. by rewrite E.
  - apply Htop. lia.
Qed.

(** [deallocuvm] undoes what was mapped. *)
Lemma enlarged_back T k l a :
  enlarged T k l d a → start ≤ a → a < newsz → oldsz < newsz →
  ∃ k' l', deallocuvm d newsz oldsz k = Ret oldsz k' [] ∧ enlarged T k' l' d start.
Proof.
  intros Hb Ha Han Hn. pose proof Hb as [Hs Hacc Hsub Hkept Huser Hkern]. pose proof Hs as [Hk Hv Hu].
  destruct start_spec as (Hm & Hr & Hrk). unfold KERNBASE in *.
  destruct (deallocuvm_run d newsz oldsz k l Hk Hv Hu) as (k' & freed & E & Hsh); [lia|unfold KERNBASE; lia|].
  destruct (shrunk_space _ _ _ _ _ _ _ Hs Hsh) as (Hs' & Hown & Hfr & Hout & Hin). exists k', (freed ++ l). split; [done|].
  assert (∀ va, 0 ≤ va < 4294967296 → page_in start newsz va = bool_decide (start ≤ va ∧ va - va mod 4096 < newsz)) as Hpi.
  { intros va Hva. unfold page_in. apply bool_decide_ext. Z.div_mod_to_equations. lia. }
  split; [done| |done| | |].
  - intros u. by rewrite (Hacc u).
  - intros u Hg. rewrite Hfr, Hkept; [done|done|]. intros Ho. by apply Hg, (built_owns _ _ _ _ _ _ _ _ _ _ Hb).
  - intros va Hva. unfold KERNBASE in *. specialize (Huser va Hva). destruct (decide (va < start)) as [Hlt|Hge].
    + rewrite bool_decide_true in * by lia. destruct (Hout va) as [H1 H2]; [lia|rewrite Hpi by lia; apply bool_decide_eq_false; lia|].
      eapply shows_same; [done| |done]. apply H2. unfold KERNBASE. lia.
    + rewrite (bool_decide_false (va < start)) by lia. destruct (page_in start newsz va) eqn:Ep; [apply Hin; [unfold KERNBASE; lia|done]|].
      destruct (Hout va) as [H1 _]; [lia|done|]. rewrite Hpi in Ep by lia. apply bool_decide_eq_false in Ep.
      rewrite bool_decide_false in Huser by (Z.div_mod_to_equations; lia). unfold shows, present in *. by rewrite H1.
  - intros va Hva. unfold KERNBASE in *. destruct (Hout va) as [-> _]; [lia| |apply Hkern; lia].
    rewrite Hpi by lia. apply bool_decide_eq_false. Z.div_mod_to_equations. lia.
Qed.
(** The page that could not be mapped is given back. *)
Lemma enlarged_kfree T k l v :
  enlarged (λ u, T u ∧ u ≠ v) k l d start → allocatable v → T v → (∀ u, T u → grow_pages u) →
  ∃ k' l', kfree v k = Ret tt k' [] ∧ enlarged T k' l' d start.
Proof.
  intros Hb Hv HTv Hsub. assert (v ∉ l ∧ ¬ owns (pages k) d v) as [Hvl Hvo].
  { split; intros H; [apply (built_free _ _ _ _ _ _ _ _ _ _ Hb) in H|apply (built_owns _ _ _ _ _ _ _ _ _ _ Hb) in H];
      destruct H as [[_ ?] _]; done. }
  destruct (kfree_push k l v (us_inv _ _ _ (bu_space _ _ _ _ _ _ _ _ _ Hb)) Hv Hvl) as (k' & E & Hk' & Hp & _).
  exists k', (v :: l). split; [done|].
  destruct (built_frame _ _ _ _ _ T k l k' (v :: l) d start Hb Hk') as (Hb' & _ & _); try done.
  - intros u Ho. assert (u ≠ v) by (by intros ->). rewrite Hp by done. split; [|done]. apply not_elem_of_cons. split; [done|].
    by apply (owns_used _ _ _ _ (bu_space _ _ _ _ _ _ _ _ _ Hb)).
  - intros u Hu. apply Hp. intros ->. by apply Hu, Hsub.
  - intros u. rewrite elem_of_cons. pose proof (bu_acct _ _ _ _ _ _ _ _ _ Hb u) as H. cbn in H. destruct (decide (u = v)) as [->|]; naive_solver.
Qed.

Definition said (s : string) : list event := EvPutc <$> str s.

Lemma allocuvm_loop_run fuel a k l :
  enlarged grow_pages k l d a → a mod 4096 = 0 → start ≤ a → (start = a ∨ a < newsz + 4096) →
  newsz ≤ a + 4096 * (Z.of_nat fuel - 1) → (1 ≤ fuel)%nat →
  ∃ r k' l' out, allocuvm_loop fuel d a oldsz newsz k = Ret r k' out ∧
    (r = newsz ∧ out = [] ∧ enlarged grow_pages k' l' d (PGROUNDUP newsz) ∨
     r = 0 ∧ (out = said out_of_memory ∨ out = said out_of_memory_2) ∧ enlarged grow_pages k' l' d start ∧ short_of grow_pages newsz).
Proof.
  revert a k l. induction fuel as [|fuel IH]; intros a k l Hb Ha Hsa Hor Hf H1; [lia|]. cbn [allocuvm_loop].
  destruct start_spec as (Hm & Hr & Hrk). pose proof Hsz as Hsz'. unfold KERNBASE in Hsz'.
  case_bool_decide as Hlt; cycle 1.
  { exists newsz, k, l, []. split; [done|]. left. split_and!; [done|done|]. destruct (PGROUNDUP_spec newsz) as (E & Hnm & Hnr); [lia|].
    replace (PGROUNDUP newsz) with a by (Z.div_mod_to_equations; lia). done. }
  pose proof (bu_space _ _ _ _ _ _ _ _ _ Hb) as Hs. destruct l as [|v l].
  { mstep (kalloc_empty k (us_inv _ _ _ Hs)). rewrite bool_decide_true by done.
    destruct (enlarged_back _ _ _ _ Hb) as (k' & l' & E & Hb'); [lia..|]. exists 0, k', l', (said out_of_memory).
    split; [|right; split_and!; [done|by left|done|eapply (built_short _ _ _ _ grow_pages grow_pages 0); [exact Hb|by right|lia]]].
    erewrite bind_run by reflexivity. rewrite (bind_run _ _ _ _ _ _ E). reflexivity. }
  assert (∀ va, a ≤ va < a + 4096 → grow_want va = Some (Z.lor (Z.lor PTE_W PTE_U) PTE_P, zero_page !! Z.to_nat (va mod 4096))) as Hw.
  { intros va Hva. unfold grow_want. rewrite bool_decide_false by lia. do 2 f_equal. unfold zero_page. symmetry.
    apply lookup_replicate_2. pose proof (Z.mod_pos_bound va 4096 ltac:(lia)). lia. }
  destruct (build_page _ _ _ _ _ k v l d a (Z.lor PTE_W PTE_U) zero_page Hb Ha) as
    (Hv0 & k1 & k2 & r & k3 & l3 & E1 & _ & E2 & E3 & Hres); [unfold KERNBASE; lia|done|apply zero_page_ok|apply zero_page_ok|done|].
  mstep E1. rewrite bool_decide_false by done. mstep E2. mstep E3. destruct Hres as [(-> & Hb3)|(-> & Hb3 & Hv & HTv)].
  - change (bool_decide (0 < 0)) with false. cbv iota. rewrite u32_small by (unfold PGSIZE; lia). unfold PGSIZE.
    apply (IH (a + 4096) k3 l3); try done; try lia. by rewrite Z.add_mod, Ha by lia.
  - change (bool_decide (-1 < 0)) with true. cbv iota. destruct (enlarged_back _ _ _ _ Hb3) as (k4 & l4 & E4 & Hb4); [lia..|].
    destruct (enlarged_kfree _ _ _ _ Hb4 Hv HTv) as (k' & l' & E5 & Hb'); [done|]. exists 0, k', l', (said out_of_memory_2).
    split; [|right; split_and!; [done|by right|done|]]; cycle 1.
    { eapply (built_short _ _ _ _ grow_pages _ v); [exact Hb3| |lia]. intros u Hu. cbn. destruct (decide (u = v)); auto. }
    erewrite bind_run by reflexivity. rewrite (bind_run _ _ _ _ _ _ E4), (bind_run _ _ _ _ _ _ E5). reflexivity.
Qed.

Lemma allocuvm_run :
  ∃ r k' l' out, allocuvm d oldsz newsz k0 = Ret r k' out ∧
    (r = newsz ∧ out = [] ∧ enlarged grow_pages k' l' d (PGROUNDUP newsz) ∨
     r = 0 ∧ (out = said out_of_memory ∨ out = said out_of_memory_2) ∧ enlarged grow_pages k' l' d start ∧ short_of grow_pages newsz).
Proof.
  unfold allocuvm. rewrite !bool_decide_false by lia. destruct start_spec as (Hm & Hr & Hrk).
  apply (allocuvm_loop_run _ start k0 l0 enlarged_start); try done; try lia. unfold PGSIZE. Z.div_mod_to_equations. lia.
Qed.
End grow.

(** * The theorems *)

Section claims.
Context {KI : KernelImage} {KO : KernelImageOk KI}.

(** C14: [copyuvm] makes a child's memory a copy of the parent's.  When every
    page below [sz] of the parent [p] is present it returns, the parent and
    all pages that were not free are as before, and: either it returns 0 and
    every page it took, but for at most one, is free again, which happens
    only when no more pages were free than a page table of that size can
    need; or it returns a
    directory [r] for which each user page below [sz] is present with the
    parent's flags and the parent's bytes, in pages of its own that were free
    before (so neither sees the other's writes), nothing is mapped above, the
    kernel half holds the kernel's mappings, and no page is lost. *)
Theorem copyuvm_copies p sz k l :
  uspace k l p → 0 ≤ sz ≤ KERNBASE → (∀ va, 0 ≤ va < sz → present (pages k) p va) →
  ∃ r k' l', copyuvm p sz k = Ret r k' [] ∧
    uspace k' l' p ∧ same_map (pages k) (pages k') p ∧ (∀ u, u ∉ l → pages k' !! u = pages k !! u) ∧
    (r = 0 ∧ (∃ lost, (length lost ≤ 1)%nat ∧ ∀ u, u ∈ l ↔ u ∈ lost ∨ u ∈ l') ∧ Z.of_nat (length l) ≤ 1026 + (sz + 4095) / 4096 ∨
     r ≠ 0 ∧ uspace k' l' r ∧ (∀ u, u ∈ l ↔ u ∈ l' ∨ owns (pages k') r u) ∧
       (∀ va, 0 ≤ va < PGROUNDUP sz → present (pages k') r va ∧
          PTE_FLAGS (xlate (pages k') r va) = PTE_FLAGS (xlate (pages k) p va) ∧
          ubyte (pages k') r va = ubyte (pages k) p va) ∧
       (∀ va, PGROUNDUP sz ≤ va < KERNBASE → ¬ present (pages k') r va) ∧
       ∀ va, KERNBASE ≤ va < 4294967296 → xlate (pages k') r va = default 0 (kmap_pte kmap va)).
Proof.
  intros Hs Hsz Hp. destruct (copyuvm_run p sz k l Hs Hsz Hp) as (r & k' & l' & E & [H1 H2 H3 H4]).
  exists r, k', l'. split_and!; try done. destruct H4 as [(H4 & H5 & H6)|(Hr & [B1 B2 _ _ B5 B6])].
  { left. split_and!; [done|done|]. eapply short_length; [exact H6|apply Hs|done]. }
  right.
  unfold KERNBASE in *. destruct (PGROUNDUP_spec sz) as (Er & Hm & Hr'); [lia|].
  split_and!; try done; intros va Hva.
  - specialize (B5 va ltac:(Z.div_mod_to_equations; lia)). rewrite bool_decide_true in B5 by lia. exact B5.
  - specialize (B5 va ltac:(lia)). rewrite bool_decide_false in B5 by lia. exact B5.
Qed.

(** [allocuvm] grows a space by cleared pages.  When nothing is mapped
    above the old size it returns and leaves alone every page that was not
    free and not the space's own, the kernel half, and the flags and bytes of
    all pages below the old size; either it returns the new size and every
    page up to it is present, writable by the user and zero, with nothing
    above; or it says so, returns 0 and nothing is mapped above the old size,
    which happens only when no more pages were free than a page table of the
    new size can need.
    In both cases every page is free or belongs to the space, as before. *)
Theorem allocuvm_grows d oldsz newsz k l :
  uspace k l d → 0 ≤ oldsz → oldsz ≤ newsz → newsz < KERNBASE →
  (∀ va, PGROUNDUP oldsz ≤ va < KERNBASE → ¬ present (pages k) d va) →
  ∃ r k' l' out, allocuvm d oldsz newsz k = Ret r k' out ∧ uspace k' l' d ∧
    (∀ u, u ∈ l ∨ owns (pages k) d u ↔ u ∈ l' ∨ owns (pages k') d u) ∧
    (∀ u, u ∉ l → ¬ owns (pages k) d u → pages k' !! u = pages k !! u) ∧
    (∀ va, KERNBASE ≤ va < 4294967296 → xlate (pages k') d va = xlate (pages k) d va) ∧
    (∀ va, 0 ≤ va < PGROUNDUP oldsz → (present (pages k') d va ↔ present (pages k) d va) ∧
       (present (pages k) d va → PTE_FLAGS (xlate (pages k') d va) = PTE_FLAGS (xlate (pages k) d va) ∧
          ubyte (pages k') d va = ubyte (pages k) d va)) ∧
    (r = newsz ∧ out = [] ∧
       (∀ va, PGROUNDUP oldsz ≤ va < PGROUNDUP newsz → present (pages k') d va ∧
          PTE_FLAGS (xlate (pages k') d va) = Z.lor (Z.lor PTE_W PTE_U) PTE_P ∧ ubyte (pages k') d va = Some 0) ∧
       (∀ va, PGROUNDUP newsz ≤ va < KERNBASE → ¬ present (pages k') d va) ∨
     r = 0 ∧ (out = said out_of_memory ∨ out = said out_of_memory_2) ∧ Z.of_nat (length l) ≤ 1026 + (newsz + 4095) / 4096 ∧
       ∀ va, PGROUNDUP oldsz ≤ va < KERNBASE → ¬ present (pages k') d va).
Proof.
  intros Hs H0 Hon Hn Htop. destruct (allocuvm_run d oldsz newsz k l Hs (conj H0 (conj Hon Hn)) Htop) as (r & k' & l' & out & E & Hr).
  exists r, k', l', out. split; [done|].
  destruct (PGROUNDUP_spec oldsz) as (Eo & Hom & Hor); [unfold KERNBASE in *; lia|].
  destruct (PGROUNDUP_spec newsz) as (En & Hnm & Hnr); [unfold KERNBASE in *; lia|].
  assert (PGROUNDUP oldsz ≤ PGROUNDUP newsz ∧ PGROUNDUP newsz ≤ KERNBASE) as [Hle Hnk]
    by (unfold KERNBASE in *; Z.div_mod_to_equations; lia).
  assert (∃ a, PGROUNDUP oldsz ≤ a ≤ KERNBASE ∧
    built (grow_pages d k l) (pages k) (grow_want d oldsz k) (xlate (pages k) d) (grow_pages d k l) k' l' d a)
    as (a & Ha & [B1 B2 _ B4 B5 B6]).
  { destruct Hr as [(_ & _ & Hb)|(_ & _ & Hb & _)]; [exists (PGROUNDUP newsz)|exists (PGROUNDUP oldsz)]; (split; [lia|done]). }
  split_and!; try done.
  - intros u Hl Ho. apply B4. by intros [?|?].
  - intros va Hva. specialize (B5 va ltac:(lia)). rewrite bool_decide_true in B5 by lia. unfold grow_want in B5.
    rewrite bool_decide_true in B5 by lia. unfold present at 2 3. destruct (has PTE_P (xlate (pages k) d va)); [|done]. naive_solver.
  - clear B1 B2 B4 B5 B6. destruct Hr as [(-> & -> & Hb)|(-> & Ho & Hb & Hsh)]; [left|right; split_and!; [done|done|eapply short_length; [exact Hsh|apply Hs|by left]|]];
      [split_and!; [done|done|..]|]; intros va Hva;
      pose proof (bu_user _ _ _ _ _ _ _ _ _ Hb va ltac:(lia)) as B5; unfold grow_want in B5.
    + rewrite bool_decide_true, bool_decide_false in B5 by lia. exact B5.
    + rewrite bool_decide_false in B5 by lia. exact B5.
    + rewrite bool_decide_false in B5 by lia. exact B5.
Qed.

(** [freevm] gives back a whole space: its directory, its tables and the
    frames of its user pages are put on the free list, each once (the list
    has no repetitions), and no other page is touched. *)
Theorem freevm_frees d k l :
  uspace k l d → ∃ k' freed, freevm d k = Ret tt k' [] ∧ kalloc_inv k' (freed ++ l) ∧ NoDup (freed ++ l) ∧
    (∀ u, u ∈ freed ↔ owns (pages k) d u) ∧ ∀ u, u ∉ freed → pages k' !! u = pages k !! u.
Proof.
  intros Hs. destruct (freevm_run k l d Hs) as (k' & freed & E & Hk & Hin & Hfr). exists k', freed. split_and!; try done. apply Hk.
Qed.
End claims.

(** * A small memory *)

(** A machine with five pages, of which the first holds a directory. *)
Definition small_base : Z := KERNBASE + PHYSTOP - 20480.
Definition small_image : KernelImage := {| kdata := small_base; kend := small_base |}.
Lemma small_image_ok : KernelImageOk small_image.
Proof. split; simpl; unfold KERNLINK, EXTMEM, small_base, KERNBASE, PHYSTOP; try lia. reflexivity. Qed.
Definition small_page (i : Z) : Z := small_base + 4096 * i.
Definition small_memory : gmap Z (list Z) := foldr (λ i, <[small_page i := zero_page]>) ∅ [0; 1; 2; 3; 4].
Definition small_start : kstate := KState false false 0 small_memory.
Definition small_free : M kstate unit := foreach [1; 2; 3; 4] (λ i, kfree (KI := small_image) (small_page i)).

Lemma small_pages v : allocatable (KI := small_image) v ↔ ∃ i, i ∈ [0; 1; 2; 3; 4] ∧ v = small_page i.
Proof.
  unfold allocatable, small_page. change (kend (KernelImage := small_image)) with small_base.
  unfold small_base, KERNBASE, PHYSTOP, PGSIZE. split.
  - intros (Hm & H1 & H2). exists ((v - 2382344192) / 4096). split; [|Z.div_mod_to_equations; lia].
    assert (0 ≤ (v - 2382344192) / 4096 < 5) as Hr by (Z.div_mod_to_equations; lia).
    rewrite !elem_of_cons. lia.
  - intros (i & Hi & ->). rewrite !elem_of_cons, elem_of_nil in Hi.
    split_and!; [|lia|lia]. by destruct Hi as [->|[->|[->|[->|[->|[]]]]]].
Qed.

Lemma small_lookup l v :
  foldr (λ i, <[small_page i := zero_page]>) (∅ : gmap Z (list Z)) l !! v = Some zero_page ∧ (∃ i, i ∈ l ∧ v = small_page i) ∨
  foldr (λ i, <[small_page i := zero_page]>) (∅ : gmap Z (list Z)) l !! v = None ∧ ¬ ∃ i, i ∈ l ∧ v = small_page i.
Proof.
  induction l as [|i l IH]; cbn [foldr]; [right; set_solver|]. destruct (decide (v = small_page i)) as [->|Hne].
  - left. rewrite lookup_insert_eq. set_solver.
  - rewrite lookup_insert_ne by done. setoid_rewrite elem_of_cons. naive_solver.
Qed.

Lemma small_inv : kalloc_inv (KI := small_image) small_start [].
Proof.
  split; try done; [constructor| |]; unfold small_start; cbn [pages].
  - intros v pg. unfold small_memory. destruct (small_lookup [0; 1; 2; 3; 4] v) as [[-> _]|[-> _]]; [|done].
    intros [= <-]. apply zero_page_ok.
  - intros v Hv%small_pages. unfold small_memory. destruct (small_lookup [0; 1; 2; 3; 4] v) as [[-> _]|[_ Hn]]; [by eauto|done].
Qed.

Lemma small_frees ix k l :
  kalloc_inv (KI := small_image) k l → pages k !! small_page 0 = Some zero_page → NoDup ix →
  (∀ i, i ∈ ix → i ∈ [1; 2; 3; 4] ∧ small_page i ∉ l) → small_page 0 ∉ l →
  ∃ k' l', foreach ix (λ i, kfree (KI := small_image) (small_page i)) k = Ret tt k' [] ∧ kalloc_inv (KI := small_image) k' l' ∧
    pages k' !! small_page 0 = Some zero_page ∧ small_page 0 ∉ l'.
Proof.
  pose proof small_image_ok as KO. revert k l. induction ix as [|i ix IH]; intros k l Hk Hd Hnd Hix H0; [by exists k, l|].
  apply NoDup_cons in Hnd as [Hi Hnd]. destruct (Hix i) as [Hi4 Hil]; [by apply elem_of_cons; left|].
  destruct (kfree_push (KI := small_image) k l (small_page i) Hk) as (k1 & E1 & Hk1 & Hp1 & _); [|done|].
  { apply small_pages. exists i. split; [|done]. rewrite elem_of_cons. by right. }
  assert (small_page 0 ≠ small_page i) as Hne by (rewrite !elem_of_cons, elem_of_nil in Hi4; unfold small_page; lia).
  destruct (IH k1 (small_page i :: l) Hk1) as (k' & l' & E2 & H); [by rewrite Hp1|done| |by apply not_elem_of_cons|].
  - intros j Hj. destruct (Hix j) as [Hj4 Hjl]; [by apply elem_of_cons; right|]. split; [done|]. apply not_elem_of_cons.
    split; [|done]. unfold small_page. intros ?. apply Hi. assert (i = j) as -> by lia. done.
  - exists k', l'. split; [|done]. cbn [foreach]. by mstep E1.
Qed.

(** An empty space in the first page, the others free. *)
Lemma small_space :
  ∃ k l, small_free small_start = Ret tt k [] ∧ uspace (KI := small_image) k l (small_page 0) ∧
    ∀ va, xlate (pages k) (small_page 0) va = 0.
Proof.
  destruct (small_frees [1; 2; 3; 4] small_start [] small_inv) as (k & l & E & Hk & Hd & Hl).
  - unfold small_start. cbn [pages]. unfold small_memory. cbn [foldr]. apply lookup_insert_eq.
  - by vm_compute; repeat constructor; set_solver.
  - intros i Hi. split; [done|apply not_elem_of_nil].
  - apply not_elem_of_nil.
  - exists k, l. split; [done|]. by destruct (empty_space (KI := small_image) k l (small_page 0) Hk) as (Hs & Hx & _).
Qed.

Lemma small_result : match (small_free;; allocuvm (KI := small_image) (small_page 0) 0 5000) small_start with Ret r _ _ => r | _ => -1 end = 5000.
Proof. vm_compute. reflexivity. Qed.

Lemma allocuvm_grows_witness :
  ∃ k k', small_free small_start = Ret tt k [] ∧ allocuvm (KI := small_image) (small_page 0) 0 5000 k = Ret 5000 k' [] ∧
    ubyte (pages k') (small_page 0) 4999 = Some 0 ∧ present (pages k') (small_page 0) 4999.
Proof.
  destruct small_space as (k & l & E & Hs & Hx). pose proof small_image_ok as KO.
  destruct (allocuvm_grows (KI := small_image) (small_page 0) 0 5000 k l Hs) as (r & k' & l' & out & E' & _ & _ & _ & _ & _ & Hr);
    [lia|lia|unfold KERNBASE; lia|intros va _; unfold present; by rewrite Hx|].
  pose proof small_result as R. rewrite (bind_run _ _ _ _ _ _ E), prepend_nil, E' in R.
  exists k, k'. destruct Hr as [(-> & -> & Hnew & _)|(-> & _)]; [|discriminate].
  destruct (Hnew 4999) as (H1 & _ & H2); [by vm_compute|]. exact (conj E (conj E' (conj H2 H1))).
Defined.

(** A space of two pages. *)
Lemma small_user : ∃ k l, uspace (KI := small_image) k l (small_page 0) ∧
  ∀ va, 0 ≤ va < 5000 → present (pages k) (small_page 0) va.
Proof.
  destruct small_space as (k & l & E & Hs & Hx). pose proof small_image_ok as KO.
  destruct (allocuvm_run (KI := small_image) (small_page 0) 0 5000 k l Hs) as (r & k' & l' & out & E' & Hr);
    [unfold KERNBASE; lia|intros va _; unfold present; by rewrite Hx|].
  pose proof small_result as R. rewrite (bind_run _ _ _ _ _ _ E), prepend_nil, E' in R.
  destruct Hr as [(-> & -> & Hb)|(-> & _)]; [|discriminate]. exists k', l'. split; [apply Hb|]. intros va Hva.
  pose proof (bu_user _ _ _ _ _ _ _ _ _ Hb va ltac:(unfold KERNBASE; lia)) as H. change (PGROUNDUP 5000) with 8192 in H.
  unfold grow_want in H. change (PGROUNDUP 0) with 0 in H. rewrite bool_decide_true, bool_decide_false in H by lia. apply H.
Qed.

Lemma copyuvm_copies_witness :
  ∃ k r k', (∀ va, 0 ≤ va < 5000 → present (pages k) (small_page 0) va) ∧
    copyuvm (KI := small_image) (small_page 0) 5000 k = Ret r k' [] ∧ same_map (pages k) (pages k') (small_page 0).
Proof.
  destruct small_user as (k & l & Hs & Hp). pose proof small_image_ok as KO.
  destruct (copyuvm_copies (KI := small_image) (small_page 0) 5000 k l Hs) as (r & k' & l' & E & _ & Hm & _); [unfold KERNBASE; lia|done|].
  exists k, r, k'. exact (conj Hp (conj E Hm)).
Defined.

Lemma freevm_frees_witness :
  ∃ k k', (∀ va, 0 ≤ va < 5000 → present (pages k) (small_page 0) va) ∧ freevm (KI := small_image) (small_page 0) k = Ret tt k' [].
Proof.
  destruct small_user as (k & l & Hs & Hp). pose proof small_image_ok as KO.
  destruct (freevm_frees (KI := small_image) (small_page 0) k l Hs) as (k' & freed & E & _). exists k, k'. exact (conj Hp E).
Defined.
