(* ===== verification/Fs.v ===== *)
(** The file system (src/fs.c, src/fs.h, and the inode of src/file.h): disk
    blocks, inodes and their cache, file contents, directories, path names;
    with [consoleread] and [consolewrite] of src/console.c, which the device
    files reach.

    A [struct inode*] is an index into the inode cache (a null pointer is
    [None]); a [struct buf*] is an index as in Bio.v.  A NUL-terminated string
    is the list of its characters; the bytes that a function stores at a
    [char *dst] are part of its result. *)
From S2P Require Import Prelude Layout Bytes Spinlock Sleeplock CString Format Bio Log Console.

(** ** fs.h and stat.h *)

Definition ROOTINO : Z := 1.
Definition NDIRECT : nat := 12.
Definition NINDIRECT : nat := 128.              (* BSIZE / sizeof(uint) *)
Definition MAXFILE : Z := 140.                  (* NDIRECT + NINDIRECT *)
Definition IPB : Z := 8.                        (* BSIZE / sizeof(struct dinode) *)
Definition BPB : Z := 4096.                     (* BSIZE*8 *)
Definition sizeof_dinode : nat := 64.
Definition sizeof_dirent : Z := 16.
Definition IBLOCK (i : Z) (sb : superblock) : Z := u32 (i / IPB + sb_inodestart sb).
Definition BBLOCK (b : Z) (sb : superblock) : Z := u32 (b / BPB + sb_bmapstart sb).

Definition T_DIR : Z := 1.
Definition T_FILE : Z := 2.
Definition T_DEV : Z := 3.
Definition CONSOLE : Z := 1.

(** [struct dinode] in a block: [dip] is the offset of the inode. *)
Definition half (d : list Z) (off : nat) : Z := of_le (slice d off 2).
Definition set_half (off : nat) (x : Z) (d : list Z) : list Z := splice d off (le16 x).
Definition dip_of (inum : Z) : nat := Z.to_nat (inum mod IPB) * sizeof_dinode.
Definition addrs_at (d : list Z) (dip : nat) : list Z :=
  (λ k, of_le (slice d (dip + 12 + 4 * k) 4)) <$> seq 0 (S NDIRECT).
(** [memmove(dip->addrs, ip->addrs, sizeof(ip->addrs))] *)
Definition set_addrs (dip : nat) (a : list Z) (d : list Z) : list Z := splice d (dip + 12) (a ≫= le32).

(** ** The in-memory inode and the state *)

Record inode := Inode {
  i_dev : Z; i_inum : Z; i_ref : Z; i_lock : sleeplock; i_valid : bool;
  i_type : Z; i_major : Z; i_minor : Z; i_nlink : Z; i_size : Z; i_addrs : list Z
}.
Definition set_iref v i := Inode (i_dev i) (i_inum i) v (i_lock i) (i_valid i) (i_type i) (i_major i) (i_minor i) (i_nlink i) (i_size i) (i_addrs i).
Definition set_ilock v i := Inode (i_dev i) (i_inum i) (i_ref i) v (i_valid i) (i_type i) (i_major i) (i_minor i) (i_nlink i) (i_size i) (i_addrs i).
Definition set_ivalid v i := Inode (i_dev i) (i_inum i) (i_ref i) (i_lock i) v (i_type i) (i_major i) (i_minor i) (i_nlink i) (i_size i) (i_addrs i).
Definition set_itype v i := Inode (i_dev i) (i_inum i) (i_ref i) (i_lock i) (i_valid i) v (i_major i) (i_minor i) (i_nlink i) (i_size i) (i_addrs i).
Definition set_imajor v i := Inode (i_dev i) (i_inum i) (i_ref i) (i_lock i) (i_valid i) (i_type i) v (i_minor i) (i_nlink i) (i_size i) (i_addrs i).
Definition set_iminor v i := Inode (i_dev i) (i_inum i) (i_ref i) (i_lock i) (i_valid i) (i_type i) (i_major i) v (i_nlink i) (i_size i) (i_addrs i).
Definition set_inlink v i := Inode (i_dev i) (i_inum i) (i_ref i) (i_lock i) (i_valid i) (i_type i) (i_major i) (i_minor i) v (i_size i) (i_addrs i).
Definition set_isize v i := Inode (i_dev i) (i_inum i) (i_ref i) (i_lock i) (i_valid i) (i_type i) (i_major i) (i_minor i) (i_nlink i) v (i_addrs i).
Definition set_iaddrs v i := Inode (i_dev i) (i_inum i) (i_ref i) (i_lock i) (i_valid i) (i_type i) (i_major i) (i_minor i) (i_nlink i) (i_size i) v.

(** An entry of [devsw]: the only functions stored there are the console's. *)
Inductive devfn : Type := DevNull | DevConsole.

#[export] Instance devfn_eq_dec : EqDecision devfn.
Proof. solve_decision. Defined.

(** The file system's state over the log, the console, and of the running
    process what this code reads: [killed] and [cwd]. *)
Record fstate := FState {
  f_log : lstate;
  f_sb : superblock;
  f_icheld : bool;                (* icache.lock *)
  f_inodes : list inode;          (* icache.inode *)
  f_devread : list devfn;         (* devsw[].read *)
  f_devwrite : list devfn;        (* devsw[].write *)
  f_cons : cstate;
  f_killed : bool;
  f_cwd : option nat
}.
Definition set_flog v s := FState v (f_sb s) (f_icheld s) (f_inodes s) (f_devread s) (f_devwrite s) (f_cons s) (f_killed s) (f_cwd s).
Definition set_fsb v s := FState (f_log s) v (f_icheld s) (f_inodes s) (f_devread s) (f_devwrite s) (f_cons s) (f_killed s) (f_cwd s).
Definition set_icheld v s := FState (f_log s) (f_sb s) v (f_inodes s) (f_devread s) (f_devwrite s) (f_cons s) (f_killed s) (f_cwd s).
Definition set_inodes v s := FState (f_log s) (f_sb s) (f_icheld s) v (f_devread s) (f_devwrite s) (f_cons s) (f_killed s) (f_cwd s).
Definition set_devsw r w s := FState (f_log s) (f_sb s) (f_icheld s) (f_inodes s) r w (f_cons s) (f_killed s) (f_cwd s).
Definition set_fcons v s := FState (f_log s) (f_sb s) (f_icheld s) (f_inodes s) (f_devread s) (f_devwrite s) v (f_killed s) (f_cwd s).
Definition set_fcwd v s := FState (f_log s) (f_sb s) (f_icheld s) (f_inodes s) (f_devread s) (f_devwrite s) (f_cons s) (f_killed s) v.

Definition on_log {A} : M lstate A → M fstate A := zoom f_log set_flog.
Definition on_disk {A} (m : M bstate A) : M fstate A := on_log (on_bio m).
Definition on_cons {A} : M cstate A → M fstate A := zoom f_cons set_fcons.
Definition ic_acquire : M fstate unit := lk_acquire f_icheld set_icheld.
Definition ic_release : M fstate unit := lk_release f_icheld set_icheld.
Definition iget_ip (ip : nat) : M fstate inode := s ← get; deref (f_inodes s !! ip).
Definition iupd (ip : nat) (f : inode → inode) : M fstate unit :=
  i ← iget_ip ip; modify (λ s, set_inodes (<[ip := f i]> (f_inodes s)) s).
(** Run sleep-lock code on [ip->lock]. *)
Definition on_ilock {A} (ip : nat) (m : M sleeplock A) : M fstate A :=
  i ← iget_ip ip;
  zoom (λ _, i_lock i) (λ l s, set_inodes (<[ip := set_ilock l i]> (f_inodes s)) s) m.
Definition iacquiresleep (ip : nat) : M fstate unit :=
  s ← get; on_ilock ip (acquiresleep (CInodeLock ip) (curpid (l_bio (f_log s)))).

(** ** Blocks *)

(** [readsb(dev, &sb)] into the global [sb]. *)
Definition readsb_global (dev : Z) : M fstate unit := sb ← on_disk (readsb dev); modify (set_fsb sb).

Definition bzero (dev bno : Z) : M fstate unit :=
  bp ← on_disk (bread dev bno);
  on_disk (bdata_set bp (replicate 512 0));;
  on_log (log_write bp);;
  on_disk (brelse bp).

(** [1 << (bi % 8)] and the test [(data[bi/8] & m) == 0]. *)
Definition bit_mask (bi : Z) : Z := Z.shiftl 1 (bi mod 8).
Definition bit_free (d : list Z) (bi : Z) : bool :=
  bool_decide (Z.land (default 0 (d !! Z.to_nat (bi / 8))) (bit_mask bi) = 0).
Definition set_bit (bi : Z) (d : list Z) : list Z :=
  alter (λ x, u8 (Z.lor x (bit_mask bi))) (Z.to_nat (bi / 8)) d.
Definition clear_bit (bi : Z) (d : list Z) : list Z :=
  alter (λ x, u8 (Z.land x (Z.lnot (bit_mask bi)))) (Z.to_nat (bi / 8)) d.

(** The inner loop of [balloc]: the first clear bit of the bitmap block [d]
    for a block below [size]; [n] counts the bits left, [bi + n = BPB]. *)
Fixpoint balloc_scan (d : list Z) (size b bi : Z) (n : nat) : option Z :=
  match n with
  | O => None
  | S n' =>
      if bool_decide (b + bi < size) then
        if bit_free d bi then Some bi else balloc_scan d size b (bi + 1) n'
      else None
  end.
(** The outer loop. *)
Fixpoint balloc_loop (fuel : nat) (dev b : Z) : M fstate Z :=
  match fuel with
  | O => undef
  | S fuel' =>
      s ← get;
      if bool_decide (b < sb_size (f_sb s)) then
        bp ← on_disk (bread dev (BBLOCK b (f_sb s)));
        d ← on_disk (bdata_get bp);
        match balloc_scan d (sb_size (f_sb s)) b 0 (Z.to_nat BPB) with
        | Some bi =>
            on_disk (bdata_set bp (set_bit bi d));;
            on_log (log_write bp);;
            on_disk (brelse bp);;
            bzero dev (b + bi);;
            mret (b + bi)
        | None => on_disk (brelse bp);; balloc_loop fuel' dev (b + BPB)
        end
      else panic "balloc: out of blocks"
  end.
Definition balloc (dev : Z) : M fstate Z :=
  s ← get; balloc_loop (Z.to_nat (sb_size (f_sb s) / BPB) + 2) dev 0.

Definition bfree (dev b : Z) : M fstate unit :=
  readsb_global dev;;
  s ← get;
  bp ← on_disk (bread dev (BBLOCK b (f_sb s)));
  let bi := b mod BPB in
  d ← on_disk (bdata_get bp);
  panic_if (bit_free d bi) "freeing free block";;
  on_disk (bdata_set bp (clear_bit bi d));;
  on_log (log_write bp);;
  on_disk (brelse bp).

(** ** Inodes *)

Definition iinit (dev : Z) : M fstate unit :=
  modify (set_icheld false);;
  foreach (seq 0 NINODE) (λ i, on_ilock i initsleeplock);;
  readsb_global dev;;
  s ← get;
  let sb := f_sb s in
  cprintf "sb: size %d nblocks %d ninodes %d nlog %d logstart %d inodestart %d bmap start %d
"
    (FInt <$> [sb_size sb; sb_nblocks sb; sb_ninodes sb; sb_nlog sb; sb_logstart sb; sb_inodestart sb; sb_bmapstart sb]).

(** The scan of [iget]: the cached entry, or else the first empty slot. *)
Fixpoint iget_scan (l : list inode) (k : nat) (dev inum : Z) (empty : option nat) : nat + option nat :=
  match l with
  | [] => inr empty
  | ip :: l' =>
      if bool_decide (0 < i_ref ip) && bool_decide (i_dev ip = dev) && bool_decide (i_inum ip = inum)
      then inl k
      else iget_scan l' (S k) dev inum
             (if bool_decide (empty = None) && bool_decide (i_ref ip = 0) then Some k else empty)
  end.
Definition iget (dev inum : Z) : M fstate nat :=
  ic_acquire;;
  s ← get;
  match iget_scan (f_inodes s) 0 dev inum None with
  | inl ip => iupd ip (λ i, set_iref (i_ref i + 1) i);; ic_release;; mret ip
  | inr None => panic "iget: no inodes"
  | inr (Some ip) =>
      iupd ip (λ i, Inode dev inum 1 (i_lock i) false (i_type i) (i_major i) (i_minor i) (i_nlink i) (i_size i) (i_addrs i));;
      ic_release;;
      mret ip
  end.

Fixpoint ialloc_loop (fuel : nat) (dev inum type : Z) : M fstate nat :=
  match fuel with
  | O => undef
  | S fuel' =>
      s ← get;
      if bool_decide (inum < sb_ninodes (f_sb s)) then
        bp ← on_disk (bread dev (IBLOCK inum (f_sb s)));
        d ← on_disk (bdata_get bp);
        let dip := dip_of inum in
        if bool_decide (half d dip = 0) then
          on_disk (bdata_set bp (set_half dip type (splice d dip (replicate sizeof_dinode 0))));;
          on_log (log_write bp);;
          on_disk (brelse bp);;
          iget dev inum
        else on_disk (brelse bp);; ialloc_loop fuel' dev (inum + 1) type
      else panic "ialloc: no inodes"
  end.
Definition ialloc (dev type : Z) : M fstate nat :=
  s ← get; ialloc_loop (Z.to_nat (sb_ninodes (f_sb s)) + 1) dev 1 type.

(** The disk inode at [dip] with the fields of [i]. *)
Definition put_dinode (i : inode) (dip : nat) (d : list Z) : list Z :=
  set_addrs dip (i_addrs i)
    (splice (set_half (dip + 6) (i_nlink i)
       (set_half (dip + 4) (i_minor i)
          (set_half (dip + 2) (i_major i) (set_half dip (i_type i) d)))) (dip + 8) (le32 (i_size i))).
Definition iupdate (ip : nat) : M fstate unit :=
  i ← iget_ip ip;
  s ← get;
  bp ← on_disk (bread (i_dev i) (IBLOCK (i_inum i) (f_sb s)));
  d ← on_disk (bdata_get bp);
  on_disk (bdata_set bp (put_dinode i (dip_of (i_inum i)) d));;
  on_log (log_write bp);;
  on_disk (brelse bp).

Definition idup (ip : nat) : M fstate nat :=
  ic_acquire;; iupd ip (λ i, set_iref (i_ref i + 1) i);; ic_release;; mret ip.

(** The fields of the disk inode at [dip] copied to [i]. *)
Definition get_dinode (d : list Z) (dip : nat) (i : inode) : inode :=
  Inode (i_dev i) (i_inum i) (i_ref i) (i_lock i) (i_valid i)
    (i16 (half d dip)) (i16 (half d (dip + 2))) (i16 (half d (dip + 4))) (i16 (half d (dip + 6)))
    (of_le (slice d (dip + 8) 4)) (addrs_at d dip).
Definition ilock (ip : option nat) : M fstate unit :=
  match ip with
  | None => panic "ilock"
  | Some ip =>
      i ← iget_ip ip;
      panic_if (bool_decide (i_ref i < 1)) "ilock";;
      iacquiresleep ip;;
      i ← iget_ip ip;
      if i_valid i then mret tt else
      s ← get;
      bp ← on_disk (bread (i_dev i) (IBLOCK (i_inum i) (f_sb s)));
      d ← on_disk (bdata_get bp);
      iupd ip (λ i, get_dinode d (dip_of (i_inum i)) i);;
      on_disk (brelse bp);;
      iupd ip (set_ivalid true);;
      i ← iget_ip ip;
      panic_if (bool_decide (i_type i = 0)) "ilock: no type"
  end.

Definition iunlock (ip : option nat) : M fstate unit :=
  match ip with
  | None => panic "iunlock"
  | Some ip =>
      h ← on_ilock ip holdingsleep;
      i ← iget_ip ip;
      panic_if (negb h || bool_decide (i_ref i < 1)) "iunlock";;
      on_ilock ip (releasesleep (CInodeLock ip))
  end.

(** ** Inode content *)

(** [a[i]] for [ip->addrs]. *)
Definition iaddr_get (ip i : nat) : M fstate Z := x ← iget_ip ip; deref (i_addrs x !! i).
Definition iaddr_set (ip i : nat) (v : Z) : M fstate unit :=
  iaddr_get ip i;; iupd ip (λ x, set_iaddrs (<[i := v]> (i_addrs x)) x).

(** [if((addr = ip->addrs[i]) == 0) ip->addrs[i] = addr = balloc(ip->dev);] *)
Definition addr_or_alloc (ip i : nat) : M fstate Z :=
  x ← iget_ip ip;
  addr ← iaddr_get ip i;
  if bool_decide (addr = 0) then addr ← balloc (i_dev x); iaddr_set ip i addr;; mret addr
  else mret addr.
Definition bmap (ip : nat) (bn : Z) : M fstate Z :=
  if bool_decide (bn < Z.of_nat NDIRECT) then addr_or_alloc ip (Z.to_nat bn)
  else
    let bn := bn - Z.of_nat NDIRECT in
    if bool_decide (bn < Z.of_nat NINDIRECT) then
      addr ← addr_or_alloc ip NDIRECT;
      x ← iget_ip ip;
      bp ← on_disk (bread (i_dev x) addr);
      addr ← on_disk (bword_get bp (Z.to_nat bn));
      addr ← (if bool_decide (addr = 0) then
                addr ← balloc (i_dev x);
                on_disk (bword_set bp (Z.to_nat bn) addr);;
                on_log (log_write bp);;
                mret addr
              else mret addr);
      on_disk (brelse bp);;
      mret addr
    else panic "bmap: out of range".

Definition itrunc_direct (ip i : nat) : M fstate unit :=
  x ← iget_ip ip;
  a ← iaddr_get ip i;
  if bool_decide (a ≠ 0) then bfree (i_dev x) a;; iaddr_set ip i 0 else mret tt.
Definition itrunc (ip : nat) : M fstate unit :=
  foreach (seq 0 NDIRECT) (itrunc_direct ip);;
  a ← iaddr_get ip NDIRECT;
  (if bool_decide (a ≠ 0) then
     x ← iget_ip ip;
     bp ← on_disk (bread (i_dev x) a);
     foreach (seq 0 NINDIRECT) (λ j,
       v ← on_disk (bword_get bp j);
       if bool_decide (v ≠ 0) then bfree (i_dev x) v else mret tt);;
     on_disk (brelse bp);;
     bfree (i_dev x) a;;
     iaddr_set ip NDIRECT 0
   else mret tt);;
  iupd ip (set_isize 0);;
  iupdate ip.

Definition iput (ip : nat) : M fstate unit :=
  iacquiresleep ip;;
  i ← iget_ip ip;
  (if i_valid i && bool_decide (i_nlink i = 0) then
     ic_acquire;;
     i ← iget_ip ip;
     let r := i_ref i in
     ic_release;;
     if bool_decide (r = 1) then
       itrunc ip;;
       iupd ip (set_itype 0);;
       iupdate ip;;
       iupd ip (set_ivalid false)
     else mret tt
   else mret tt);;
  on_ilock ip (releasesleep (CInodeLock ip));;
  ic_acquire;;
  iupd ip (λ i, set_iref (i_ref i - 1) i);;
  ic_release.

Definition iunlockput (ip : nat) : M fstate unit := iunlock (Some ip);; iput ip.

(** [struct stat]. *)
Record stat := Stat { st_type : Z; st_dev : Z; st_ino : Z; st_nlink : Z; st_size : Z }.
Definition stati (ip : nat) : M fstate stat :=
  i ← iget_ip ip; mret (Stat (i_type i) (i_dev i) (i_inum i) (i_nlink i) (i_size i)).

(** ** The console as a device *)

(** [consoleread]: a process that waits for input sleeps; when it is woken it
    goes on with [consoleread_body]. *)
Definition consoleread (ip : nat) (n : Z) : M fstate (Z * list Z) :=
  iunlock (Some ip);;
  s ← get;
  r ← on_cons (consoleread_body (f_killed s) n n []);
  match r with
  | CDone n' out => ilock (Some ip);; mret (i32 (n - n'), out)
  | CKilled out => ilock (Some ip);; mret (-1, out)
  | CAsleep _ _ => block CInput
  end.
Definition consolewrite (ip : nat) (bytes : list Z) (n : Z) : M fstate Z :=
  iunlock (Some ip);;
  on_cons (consolewrite_body (take (Z.to_nat n) bytes));;
  ilock (Some ip);;
  mret n.
Definition consoleinit : M fstate unit :=
  on_cons (modify (set_cheld false));;
  modify (λ s, set_devsw (<[Z.to_nat CONSOLE := DevConsole]> (f_devread s)) (<[Z.to_nat CONSOLE := DevConsole]> (f_devwrite s)) s);;
  on_cons (modify (set_locking true)).

(** The test that [readi] and [writei] make on a device's number. *)
Definition dev_entry (tab : list devfn) (major : Z) : option devfn :=
  if bool_decide (major < 0) || bool_decide (Z.of_nat NDEV ≤ major) then None
  else match tab !! Z.to_nat major with
       | Some DevNull | None => None
       | Some f => Some f
       end.

Definition min (a b : Z) : Z := if bool_decide (a < b) then a else b.

(** The loop of [readi]. *)
Fixpoint readi_loop (fuel : nat) (ip : nat) (off n tot : Z) (out : list Z) : M fstate (list Z) :=
  match fuel with
  | O => undef
  | S fuel' =>
      if bool_decide (tot < n) then
        i ← iget_ip ip;
        b ← bmap ip (off / BSIZE);
        bp ← on_disk (bread (i_dev i) b);
        let m := min (n - tot) (BSIZE - off mod BSIZE) in
        d ← on_disk (bdata_get bp);
        on_disk (brelse bp);;
        readi_loop fuel' ip (off + m) n (tot + m) (out ++ slice d (Z.to_nat (off mod BSIZE)) (Z.to_nat m))
      else mret out
  end.
(** [readi]: the result and the bytes stored at [dst]. *)
Definition readi (ip : nat) (off n : Z) : M fstate (Z * list Z) :=
  i ← iget_ip ip;
  if bool_decide (i_type i = T_DEV) then
    s ← get;
    match dev_entry (f_devread s) (i_major i) with
    | Some _ => consoleread ip (i32 n)
    | None => mret (-1, [])
    end
  else if bool_decide (i_size i < off) || bool_decide (u32 (off + n) < off) then mret (-1, [])
  else
    let n := if bool_decide (i_size i < u32 (off + n)) then i_size i - off else n in
    out ← readi_loop (Z.to_nat (n / BSIZE) + 3) ip off n 0 [];
    mret (i32 n, out).

(** The loop of [writei]; it returns the final [off]. *)
Fixpoint writei_loop (fuel : nat) (ip : nat) (src : list Z) (off n tot : Z) : M fstate Z :=
  match fuel with
  | O => undef
  | S fuel' =>
      if bool_decide (tot < n) then
        i ← iget_ip ip;
        b ← bmap ip (off / BSIZE);
        bp ← on_disk (bread (i_dev i) b);
        let m := min (n - tot) (BSIZE - off mod BSIZE) in
        d ← on_disk (bdata_get bp);
        on_disk (bdata_set bp (splice d (Z.to_nat (off mod BSIZE)) (slice src (Z.to_nat tot) (Z.to_nat m))));;
        on_log (log_write bp);;
        on_disk (brelse bp);;
        writei_loop fuel' ip src (off + m) n (tot + m)
      else mret off
  end.
(** [writei] of the [n] bytes at [src]. *)
Definition writei (ip : nat) (src : list Z) (off n : Z) : M fstate Z :=
  i ← iget_ip ip;
  if bool_decide (i_type i = T_DEV) then
    s ← get;
    match dev_entry (f_devwrite s) (i_major i) with
    | Some _ => consolewrite ip src (i32 n)
    | None => mret (-1)
    end
  else if bool_decide (i_size i < off) || bool_decide (u32 (off + n) < off) then mret (-1)
  else if bool_decide (MAXFILE * BSIZE < u32 (off + n)) then mret (-1)
  else
    off ← writei_loop (Z.to_nat (n / BSIZE) + 3) ip src off n 0;
    i ← iget_ip ip;
    (if bool_decide (0 < n) && bool_decide (i_size i < off)
     then iupd ip (set_isize off);; iupdate ip else mret tt);;
    mret (i32 n).

(** ** Directories *)

(** [namecmp]: both arguments are arrays of at least [DIRSIZ] bytes or end in
    a NUL. *)
Definition namecmp (s t : list Z) : option Z := strncmp s t DIRSIZ.

Definition de_inum (de : list Z) : Z := of_le (slice de 0 2).
Definition de_name (de : list Z) : list Z := slice de 2 DIRSIZ.
Definition mk_dirent (inum : Z) (name : list Z) : list Z := le16 inum ++ name.

Fixpoint dirlookup_loop (fuel : nat) (dp : nat) (name : list Z) (off : Z) : M fstate (option (nat * Z)) :=
  match fuel with
  | O => undef
  | S fuel' =>
      i ← iget_ip dp;
      if bool_decide (off < i_size i) then
        '(r, de) ← readi dp off sizeof_dirent;
        panic_if (bool_decide (r ≠ sizeof_dirent)) "dirlookup read";;
        if bool_decide (de_inum de = 0) then dirlookup_loop fuel' dp name (off + sizeof_dirent)
        else
          c ← deref (namecmp name (de_name de));
          if bool_decide (c = 0) then ip ← iget (i_dev i) (de_inum de); mret (Some (ip, off))
          else dirlookup_loop fuel' dp name (off + sizeof_dirent)
      else mret None
  end.
(** [dirlookup]: the inode and its entry's offset ([*poff]). *)
Definition dirlookup (dp : nat) (name : list Z) : M fstate (option (nat * Z)) :=
  i ← iget_ip dp;
  panic_if (bool_decide (i_type i ≠ T_DIR)) "dirlookup not DIR";;
  dirlookup_loop (Z.to_nat (i_size i / sizeof_dirent) + 2) dp name 0.

(** The search for an empty entry in [dirlink]: its offset and the entry last
    read into [de]. *)
Fixpoint dirlink_loop (fuel : nat) (dp : nat) (off : Z) : M fstate Z :=
  match fuel with
  | O => undef
  | S fuel' =>
      i ← iget_ip dp;
      if bool_decide (off < i_size i) then
        '(r, de) ← readi dp off sizeof_dirent;
        panic_if (bool_decide (r ≠ sizeof_dirent)) "dirlink read";;
        if bool_decide (de_inum de = 0) then mret off else dirlink_loop fuel' dp (off + sizeof_dirent)
      else mret off
  end.
Definition dirlink (dp : nat) (name : list Z) (inum : Z) : M fstate Z :=
  r ← dirlookup dp name;
  match r with
  | Some (ip, _) => iput ip;; mret (-1)
  | None =>
      i ← iget_ip dp;
      off ← dirlink_loop (Z.to_nat (i_size i / sizeof_dirent) + 2) dp 0;
      (* strncpy overwrites all of de.name *)
      nm ← deref (strncpy (replicate DIRSIZ 0) name (Z.of_nat DIRSIZ));
      r ← writei dp (mk_dirent inum nm) off sizeof_dirent;
      panic_if (bool_decide (r ≠ sizeof_dirent)) "dirlink";;
      mret 0
  end.

(** ** Paths *)

Definition slash : Z := 47.

(** [while( *path == '/') path++;] and the characters before the next slash. *)
Fixpoint skip_slashes (path : list Z) : list Z :=
  match path with
  | c :: path' => if bool_decide (c = slash) then skip_slashes path' else path
  | [] => []
  end.
Fixpoint elem_len (path : list Z) : nat :=
  match path with
  | c :: path' => if bool_decide (c = slash) then O else S (elem_len path')
  | [] => O
  end.
(** [skipelem(path, name)]: the rest of the path and the new contents of the
    array [name]; [None] is a null result. *)
Definition skipelem (path name : list Z) : option (list Z * list Z) :=
  let path := skip_slashes path in
  match path with
  | [] => None
  | _ =>
      let len := elem_len path in
      let s := take len path in
      let name := if bool_decide (DIRSIZ ≤ len)%nat then splice name 0 (take DIRSIZ s)
                  else splice name 0 (s ++ [0]) in
      Some (skip_slashes (drop len path), name)
  end.

Fixpoint namex_loop (fuel : nat) (ip : nat) (path : list Z) (parent : bool) (name : list Z) : M fstate (option nat * list Z) :=
  match fuel with
  | O => undef
  | S fuel' =>
      match skipelem path name with
      | None => if parent then iput ip;; mret (None, name) else mret (Some ip, name)
      | Some (path, name) =>
          ilock (Some ip);;
          i ← iget_ip ip;
          if bool_decide (i_type i ≠ T_DIR) then iunlockput ip;; mret (None, name)
          else if parent && bool_decide (path = []) then iunlock (Some ip);; mret (Some ip, name)
          else
            r ← dirlookup ip name;
            match r with
            | None => iunlockput ip;; mret (None, name)
            | Some (next, _) => iunlockput ip;; namex_loop fuel' next path parent name
            end
      end
  end.
(** [namex(path, nameiparent, name)]: the inode and the array [name]. *)
Definition namex (path : list Z) (parent : bool) (name : list Z) : M fstate (option nat * list Z) :=
  ip ← (if bool_decide (head path = Some slash) then iget ROOTDEV ROOTINO
        else s ← get; cwd ← deref (f_cwd s); idup cwd);
  namex_loop (S (length path)) ip path parent name.

(** The array [name] of [namei] is not initialised. *)
Definition namei (path : list Z) : M fstate (option nat) :=
  '(ip, _) ← namex path false (replicate DIRSIZ 0); mret ip.
Definition nameiparent (path : list Z) (name : list Z) : M fstate (option nat * list Z) :=
  namex path true name.
