(* ===== verification/FsSpec.v ===== *)
(** The file system of Fs.v inside a transaction: what its operations do to
    the blocks that the kernel sees, over the representation of the buffer
    cache (Bio.v) and the log (Log.v).  Every lemma shows that the operation
    runs to its end and that it writes nothing to the disk itself: the blocks
    it changes are recorded in the log header. *)
From S2P Require Import Prelude Layout Bytes Spinlock Sleeplock CString Format Bio Log Console Fs.

(** * Runs that write nothing to the disk *)

Definition returns {S A} (m : M S A) (Q : A → S → Prop) (s : S) : Prop :=
  wp m (λ v s' t, dwrites t = [] ∧ Q v s') s.

Lemma returns_run {S A} (m : M S A) Q s v s' t : m s = Ret v s' t → dwrites t = [] → Q v s' → returns m Q s.
Proof. intros H ??. unfold returns, wp. by rewrite H. Qed.
Lemma returns_inv {S A} (m : M S A) Q s : returns m Q s → ∃ v s' t, m s = Ret v s' t ∧ dwrites t = [] ∧ Q v s'.
Proof. unfold returns. rewrite wp_Ret. naive_solver. Qed.
Lemma returns_mret {S A} (v : A) Q (s : S) : Q v s → returns (mret v) Q s.
Proof. done. Qed.
Lemma returns_mono {S A} (m : M S A) (Q Q' : A → S → Prop) s :
  returns m Q s → (∀ v s', Q v s' → Q' v s') → returns m Q' s.
Proof. intros H HQ. eapply wp_mono; [exact H|]. naive_solver. Qed.
Lemma returns_bind {S A B} (m : M S A) (f : A → M S B) Q s :
  returns m (λ v s', returns (f v) Q s') s → returns (m ≫= f) Q s.
Proof.
  intros H. apply wp_bind. eapply wp_mono; [exact H|]. simpl. intros v s1 t1 [Ht1 H1].
  eapply wp_mono; [exact H1|]. simpl. intros w s2 t2 [Ht2 HQ]. by rewrite dwrites_app, Ht1, Ht2.
Qed.
Lemma returns_step {S A B} (m : M S A) (f : A → M S B) (R : A → S → Prop) Q s :
  returns m R s → (∀ v s', R v s' → returns (f v) Q s') → returns (m ≫= f) Q s.
Proof. intros Hm Hf. apply returns_bind. by eapply returns_mono. Qed.
Lemma returns_get {S B} (f : S → M S B) Q s : returns (f s) Q s → returns (get ≫= f) Q s.
Proof. intros H. apply returns_bind. done. Qed.
Lemma returns_modify {S B} (g : S → S) (f : unit → M S B) Q s : returns (f tt) Q (g s) → returns (modify g ≫= f) Q s.
Proof. intros H. apply returns_bind. done. Qed.
Lemma returns_eq {S A B} (m : M S A) (f : A → M S B) Q s v s' :
  m s = Ret v s' [] → returns (f v) Q s' → returns (m ≫= f) Q s.
Proof. intros H Hf. apply returns_bind. by eapply returns_run. Qed.

(** * The file system over the cache and the log *)

(** The layout that mkfs gives a disk; one block holds the bitmap. *)
Record layout (sb : superblock) : Prop := FsLayout {
  ly_log : 2 ≤ sb_logstart sb;
  ly_nlog : 1 ≤ sb_nlog sb ≤ Z.of_nat LOGSIZE;
  ly_inode : sb_logstart sb + sb_nlog sb ≤ sb_inodestart sb;
  ly_ninodes : 1 < sb_ninodes sb < 65536;
  ly_bmap : sb_inodestart sb + (sb_ninodes sb - 1) / IPB < sb_bmapstart sb;
  ly_size : sb_bmapstart sb < sb_size sb ≤ BPB
}.

(** A transaction that has logged the blocks [L], over the cache [a]. *)
Record fsrep (s : fstate) (a : acache) (L : list Z) : Prop := FsRep {
  fr_layout : layout (f_sb s);
  fr_log : lrep (f_log s) a (sb_logstart (f_sb s)) (sb_nlog (f_sb s)) L;
  fr_dirty : a_dirty a = list_to_set L;
  fr_len : Z.of_nat (length (a_disk a)) = sb_size (f_sb s);
  fr_L : Forall (λ x, sb_inodestart (f_sb s) ≤ x < sb_size (f_sb s)) L;
  fr_nodup : NoDup L;
  fr_sb : superblock_of <$> (a_data a !! 1%nat) = Some (f_sb s)
}.

(** The two states differ at most in the log and the cache, as many
    operations are outstanding, and the log is or is not being committed. *)
Definition txn (l : lstate) : Z * bool := (l_outstanding l, l_committing l).
Definition only_log (s s' : fstate) : Prop :=
  s' = set_flog (f_log s') s ∧ txn (f_log s') = txn (f_log s).

#[export] Instance only_log_preorder : PreOrder only_log.
Proof.
  split; [by intros []|]. intros s1 s2 s3 [H1 E1] [H2 E2]. split; [|congruence]. rewrite H2, H1. by destruct s1.
Qed.
Lemma only_log_set l s : txn l = txn (f_log s) → only_log s (set_flog l s).
Proof. done. Qed.
Lemma only_log_out s s' : only_log s s' → l_outstanding (f_log s') = l_outstanding (f_log s).
Proof. intros [_ H]. exact (f_equal fst H). Qed.
Lemma only_log_sb s s' : only_log s s' → f_sb s' = f_sb s.
Proof. by intros [-> _]. Qed.
Lemma only_log_inodes s s' : only_log s s' → f_inodes s' = f_inodes s.
Proof. by intros [-> _]. Qed.
Lemma only_log_icheld s s' : only_log s s' → f_icheld s' = f_icheld s.
Proof. by intros [-> _]. Qed.

(** A block rewritten inside the transaction. *)
Definition a_upd (x : Z) (d : list Z) (a : acache) : acache :=
  ACache (<[Z.to_nat x := d]> (a_data a)) (a_disk a) ({[x]} ∪ a_dirty a) (a_locked a).

Lemma a_upd_steps x i d a :
  a_locked a !! x = None → a_unlock x (a_mark x (a_set x d (a_lock x i a))) = a_upd x d a.
Proof. intros H. unfold a_unlock, a_mark, a_set, a_lock, a_upd. simpl. by rewrite delete_insert_id. Qed.
Lemma a_read_steps x i a : a_locked a !! x = None → a_unlock x (a_lock x i a) = a.
Proof. intros H. unfold a_unlock, a_lock. simpl. rewrite delete_insert_id by done. by destruct a. Qed.

Lemma on_disk_run {A} (m : M bstate A) s v b' t :
  m (l_bio (f_log s)) = Ret v b' t → on_disk m s = Ret v (set_flog (set_lbio b' (f_log s)) s) t.
Proof. intros H. unfold on_disk, on_log, zoom. by rewrite (on_bio_run m _ _ _ _ H). Qed.

(** A step of the buffer cache that keeps what is dirty and the super block. *)
Lemma fsrep_bio s a a' L b' :
  fsrep s a L → brep b' a' → a_dirty a' = a_dirty a → a_disk a' = a_disk a →
  a_data a' !! 1%nat = a_data a !! 1%nat →
  fsrep (set_flog (set_lbio b' (f_log s)) s) a' L.
Proof.
  intros [] Hb Hd Hk H1. split; simpl; try done; [by eapply lrep_lbio|by rewrite Hd|by rewrite Hk|by rewrite H1].
Qed.

Lemma fs_room s a L x : fsrep s a L → (length L + size (a_locked a) < NBUF)%nat → room a x.
Proof.
  intros [] Hr. right. rewrite fr_dirty0.
  assert (size (list_to_set L ∪ dom (a_locked a) : gset Z) ≤ length L + size (a_locked a))%nat; [|lia].
  rewrite size_union_alt, size_list_to_set by done.
  assert (size (dom (a_locked a) ∖ list_to_set L : gset Z) ≤ size (dom (a_locked a) : gset Z))%nat
    by (apply subseteq_size; set_solver). rewrite size_dom in *. lia.
Qed.

Lemma fs_block s a L x : fsrep s a L → 0 ≤ x < sb_size (f_sb s) → ∃ d, a_data a !! Z.to_nat x = Some d ∧ block_ok d.
Proof.
  intros Hf Hx. pose proof (br_content _ _ (lr_bio _ _ _ _ _ (fr_log _ _ _ Hf))) as Hc.
  destruct (lookup_lt_is_Some_2 (a_data a) (Z.to_nat x)) as [d Hd].
  { rewrite (c_len _ _ Hc). pose proof (fr_len _ _ _ Hf). lia. }
  exists d. split; [done|]. exact (Forall_lookup_1 _ _ _ _ (proj1 (c_blocks _ _ Hc)) Hd).
Qed.

Lemma fs_clean s a L x :
  fsrep s a L → 0 ≤ x → a_locked a !! x = None → x ∈ a_dirty a ∨ a_data a !! Z.to_nat x = a_disk a !! Z.to_nat x.
Proof.
  intros Hf Hx Hl. destruct (decide (x ∈ a_dirty a)); [by left|right].
  by apply (c_clean _ _ (br_content _ _ (lr_bio _ _ _ _ _ (fr_log _ _ _ Hf)))).
Qed.

(** ** The steps *)

Lemma fs_bread s a L x :
  fsrep s a L → a_locked a !! x = None → 0 ≤ x < sb_size (f_sb s) → (length L + size (a_locked a) < NBUF)%nat →
  returns (on_disk (bread 1 x)) (λ i s', only_log s s' ∧ fsrep s' (a_lock x i a) L) s.
Proof.
  intros Hf Hl Hx Hr. destruct (bread_spec _ a x (lr_bio _ _ _ _ _ (fr_log _ _ _ Hf)) Hl) as (i & b' & R & B & _).
  { by rewrite (fr_len _ _ _ Hf). }
  { by eapply fs_room. }
  eapply returns_run; [by apply on_disk_run|done|]. split; [by apply only_log_set|]. by eapply fsrep_bio.
Qed.

Lemma set_flog_id s : set_flog (set_lbio (l_bio (f_log s)) (f_log s)) s = s.
Proof. by destruct s as [[] ? ? ? ? ? ? ? ?]. Qed.

Lemma fs_bdata_get s a L x i d :
  fsrep s a L → a_locked a !! x = Some i → a_data a !! Z.to_nat x = Some d → on_disk (bdata_get i) s = Ret d s [].
Proof.
  intros Hf Hl Hd. rewrite (on_disk_run _ _ _ _ _ (bdata_get_spec _ a x i d (lr_bio _ _ _ _ _ (fr_log _ _ _ Hf)) Hl Hd)).
  by rewrite set_flog_id.
Qed.

Lemma fs_bdata_set s a L x i d :
  fsrep s a L → a_locked a !! x = Some i → sb_inodestart (f_sb s) ≤ x → block_ok d →
  returns (on_disk (bdata_set i d)) (λ _ s', only_log s s' ∧ fsrep s' (a_set x d a) L) s.
Proof.
  intros Hf Hl Hx Hd. destruct (bdata_set_spec _ a x i d (lr_bio _ _ _ _ _ (fr_log _ _ _ Hf)) Hl Hd) as (b' & R & B & _).
  eapply returns_run; [by apply on_disk_run|done|]. split; [by apply only_log_set|].
  eapply fsrep_bio; try done. simpl. rewrite list_lookup_insert_ne; [done|].
  destruct (fr_layout _ _ _ Hf). lia.
Qed.

Lemma fs_log_write s a L x i :
  fsrep s a L → a_locked a !! x = Some i → sb_inodestart (f_sb s) ≤ x < sb_size (f_sb s) →
  Z.of_nat (length L) < sb_nlog (f_sb s) - 1 → 1 ≤ l_outstanding (f_log s) →
  returns (on_log (log_write i)) (λ _ s', only_log s s' ∧ fsrep s' (a_mark x a) (absorb x L)) s.
Proof.
  intros Hf Hl Hx Hn Ho. pose proof Hf as [[Y1 Y2 Y3 Y4 Y5 Y6] Hlr Hd Hlen HL Hnd Hsb].
  unfold BPB in *. assert (Z.of_nat LOGSIZE = 30) by done.
  destruct (log_write_spec (f_log s) a _ _ L (length (a_disk a)) x i Hlr) as (l' & R & Hlr' & Hout & Hcom); try done; try lia.
  { eapply Forall_impl; [exact HL|]. simpl. intros. unfold LOGSIZE, MAXOPBLOCKS in *. lia. }
  eapply returns_run; [by apply zoom_run|done|]. split; [apply only_log_set; unfold txn; by rewrite Hout, Hcom|].
  split; simpl; try done.
  - rewrite Hd. unfold absorb. case_bool_decide; set_solver.
  - unfold absorb. case_bool_decide; [done|]. apply Forall_app. split; [done|]. by apply Forall_singleton.
  - unfold absorb. case_bool_decide as Hin; [done|]. apply NoDup_app. split_and!; [done|set_solver|apply NoDup_singleton].
Qed.

Lemma fs_brelse s a L x i :
  fsrep s a L → a_locked a !! x = Some i →
  (x ∈ a_dirty a ∨ a_data a !! Z.to_nat x = a_disk a !! Z.to_nat x) →
  returns (on_disk (brelse i)) (λ _ s', only_log s s' ∧ fsrep s' (a_unlock x a) L) s.
Proof.
  intros Hf Hl Hc. destruct (brelse_spec _ a x i (lr_bio _ _ _ _ _ (fr_log _ _ _ Hf)) Hl Hc) as (b' & R & B & _).
  eapply returns_run; [by apply on_disk_run|done|]. split; [by apply only_log_set|]. by eapply fsrep_bio.
Qed.

(** ** The free-block bitmap *)

Lemma land_bit x k : 0 ≤ k → bool_decide (Z.land x (Z.shiftl 1 k) = 0) = negb (Z.testbit x k).
Proof.
  intros Hk. rewrite Z.shiftl_1_l. destruct (Z.testbit x k) eqn:E; simpl.
  - apply bool_decide_false. intros H. assert (Z.testbit (Z.land x (2 ^ k)) k = false) as H1 by (rewrite H; apply Z.testbit_0_l).
    rewrite Z.land_spec, E, Z.pow2_bits_true in H1 by done. done.
  - apply bool_decide_true. apply Z.bits_inj'. intros n Hn. rewrite Z.land_spec, Z.testbit_0_l.
    destruct (decide (n = k)) as [->|Hne]; [by rewrite E|]. rewrite Z.pow2_bits_false by done. apply andb_false_r.
Qed.

Definition bit (d : list Z) (bi : Z) : bool := Z.testbit (default 0 (d !! Z.to_nat (bi / 8))) (bi mod 8).

Lemma bit_free_bit d bi : bit_free d bi = negb (bit d bi).
Proof. unfold bit_free, bit_mask. apply land_bit. by apply Z.mod_pos_bound. Qed.

Lemma testbit_u8 x k : 0 ≤ k < 8 → Z.testbit (u8 x) k = Z.testbit x k.
Proof. intros. unfold u8. change 256 with (2 ^ 8). apply Z.mod_pow2_bits_low. lia. Qed.

Lemma bit_alter (f : Z → Z) bi bj d v :
  0 ≤ bi < BPB → 0 ≤ bj < BPB → length d = 512%nat →
  (∀ x k, 0 ≤ k < 8 → Z.testbit (f x) k = if bool_decide (k = bi mod 8) then v else Z.testbit x k) →
  bit (alter f (Z.to_nat (bi / 8)) d) bj = if bool_decide (bj = bi) then v else bit d bj.
Proof.
  intros Hi Hj Hd Hf. unfold bit, BPB in *.
  assert (0 ≤ bi / 8 < 512 ∧ 0 ≤ bj / 8 < 512) as [Hi8 Hj8] by (Z.div_mod_to_equations; lia).
  pose proof (Z.mod_pos_bound bj 8). pose proof (Z.div_mod bi 8). pose proof (Z.div_mod bj 8).
  destruct (lookup_lt_is_Some_2 d (Z.to_nat (bj / 8))) as [y Hy]; [lia|].
  destruct (decide (bi / 8 = bj / 8)) as [E|E].
  - rewrite E, list_lookup_alter_eq, Hy. simpl. rewrite Hf by lia.
    destruct (decide (bj = bi)) as [->|]; [by rewrite !bool_decide_true|]. rewrite !bool_decide_false; [done|done|lia].
  - rewrite list_lookup_alter_ne by lia. rewrite bool_decide_false by congruence. done.
Qed.

Lemma bit_set_bit bi bj d :
  0 ≤ bi < BPB → 0 ≤ bj < BPB → length d = 512%nat → bit (set_bit bi d) bj = if bool_decide (bj = bi) then true else bit d bj.
Proof.
  intros. apply bit_alter; try done. intros x k Hk. rewrite testbit_u8, Z.lor_spec by done. unfold bit_mask.
  rewrite Z.shiftl_1_l. case_bool_decide as E.
  - subst k. rewrite Z.pow2_bits_true by lia. apply orb_true_r.
  - rewrite Z.pow2_bits_false by congruence. apply orb_false_r.
Qed.

Lemma bit_clear_bit bi bj d :
  0 ≤ bi < BPB → 0 ≤ bj < BPB → length d = 512%nat → bit (clear_bit bi d) bj = if bool_decide (bj = bi) then false else bit d bj.
Proof.
  intros. apply bit_alter; try done. intros x k Hk. rewrite testbit_u8, Z.land_spec, Z.lnot_spec by (done || lia). unfold bit_mask.
  rewrite Z.shiftl_1_l. case_bool_decide as E.
  - subst k. rewrite Z.pow2_bits_true by lia. apply andb_false_r.
  - rewrite Z.pow2_bits_false by congruence. apply andb_true_r.
Qed.

Lemma Forall_alter_u8 (f : Z → Z) k d : Forall byte d → Forall byte (alter (λ x, u8 (f x)) k d).
Proof. intros H. apply Forall_alter; [done|]. intros. apply u8_byte. Qed.
Lemma set_bit_ok bi d : block_ok d → block_ok (set_bit bi d).
Proof. intros [H1 H2]. split; [by rewrite <- H1; apply length_alter|by apply Forall_alter_u8]. Qed.
Lemma clear_bit_ok bi d : block_ok d → block_ok (clear_bit bi d).
Proof. intros [H1 H2]. split; [by rewrite <- H1; apply length_alter|by apply Forall_alter_u8]. Qed.

(** The scan finds the first clear bit below [size]. *)
Lemma balloc_scan_spec d size bi n :
  match balloc_scan d size 0 bi n with
  | Some b => bi ≤ b < Z.min size (bi + Z.of_nat n) ∧ bit d b = false ∧ ∀ j, bi ≤ j < b → bit d j = true
  | None => ∀ j, bi ≤ j < Z.min size (bi + Z.of_nat n) → bit d j = true
  end.
Proof.
  revert bi. induction n as [|n IH]; intros bi; cbn [balloc_scan]; [intros; lia|]. rewrite Z.add_0_l, bit_free_bit.
  case_bool_decide as Hs; [|intros; lia]. destruct (bit d bi) eqn:E; simpl.
  - specialize (IH (bi + 1)). destruct (balloc_scan d size 0 (bi + 1) n) as [b|].
    + destruct IH as (H1 & H2 & H3). split_and!; [lia|lia|done|]. intros j Hj.
      destruct (decide (j = bi)) as [->|]; [done|]. apply H3. lia.
    + intros j Hj. destruct (decide (j = bi)) as [->|]; [done|]. apply IH. lia.
  - split_and!; [lia|lia|done|]. intros. lia.
Qed.

(** Room in the log and in the cache for [k] more blocks, inside an operation. *)
Definition space (s : fstate) (a : acache) (L : list Z) (k : nat) : Prop :=
  Z.of_nat (length L + k) ≤ sb_nlog (f_sb s) - 1 ∧ (length L + k + size (a_locked a) < NBUF)%nat ∧
  1 ≤ l_outstanding (f_log s).

Lemma length_absorb x L : (length (absorb x L) ≤ S (length L))%nat.
Proof. unfold absorb. case_bool_decide; [lia|]. rewrite length_app. simpl. lia. Qed.

Lemma space_upd s s' a L k x d :
  space s a L (S k) → only_log s s' → space s' (a_upd x d a) (absorb x L) k.
Proof.
  intros (H1 & H2 & H3) Ho. unfold space. rewrite (only_log_sb _ _ Ho), (only_log_out _ _ Ho). simpl. pose proof (length_absorb x L). lia.
Qed.

(** Reading a block. *)
Lemma fs_read {B} s a L x d (k : nat → M fstate B) Q :
  fsrep s a L → a_locked a !! x = None → 0 ≤ x < sb_size (f_sb s) → (length L + size (a_locked a) < NBUF)%nat →
  a_data a !! Z.to_nat x = Some d →
  (∀ i s1, only_log s s1 → fsrep s1 (a_lock x i a) L →
     on_disk (bdata_get i) s1 = Ret d s1 [] →
     returns (on_disk (brelse i)) (λ _ s2, only_log s s2 ∧ fsrep s2 a L) s1 →
     returns (k i) Q s1) →
  returns (bp ← on_disk (bread 1 x); k bp) Q s.
Proof.
  intros Hf Hl Hx Hr Hd Hk. eapply returns_step; [by apply (fs_bread s a L x)|]. intros i s1 [Ho H1].
  assert (a_locked (a_lock x i a) !! x = Some i) as Hl1 by apply lookup_insert_eq.
  apply Hk; try done.
  - by eapply fs_bdata_get.
  - eapply returns_mono; [eapply fs_brelse; [exact H1|exact Hl1|]|].
    + apply (fs_clean s a L x Hf); [lia|done].
    + simpl. intros _ s2 [Ho2 H2]. rewrite a_read_steps in H2 by done. split; [by etrans|done].
Qed.

(** Changing the block just read, logging it and releasing it. *)
Lemma fs_rewrite s s1 a L x i d :
  only_log s s1 → fsrep s1 (a_lock x i a) L → a_locked a !! x = None →
  sb_inodestart (f_sb s) ≤ x < sb_size (f_sb s) → space s a L 1 → block_ok d →
  returns (on_disk (bdata_set i d);; on_log (log_write i);; on_disk (brelse i))
    (λ _ s2, only_log s s2 ∧ fsrep s2 (a_upd x d a) (absorb x L)) s1.
Proof.
  intros Ho H1 Hl Hx (Hn & Hb & Hout) Hd. rewrite <- (only_log_sb _ _ Ho) in Hx, Hn. rewrite <- (only_log_out _ _ Ho) in Hout.
  assert (∀ b, a_locked (a_lock x i b) !! x = Some i) as Hli by (intros; apply lookup_insert_eq).
  eapply returns_step; [eapply (fs_bdata_set s1 _ L x i d); try done; lia|]. intros _ s2 [Ho2 H2].
  rewrite <- (only_log_sb _ _ Ho2) in Hx, Hn. rewrite <- (only_log_out _ _ Ho2) in Hout.
  eapply returns_step; [eapply (fs_log_write s2 _ L x i); try done; (apply lookup_insert_eq || lia)|]. intros _ s3 [Ho3 H3].
  eapply returns_mono; [eapply (fs_brelse s3 _ _ x i); [done|apply lookup_insert_eq|left; simpl; set_solver]|].
  simpl. intros _ s4 [Ho4 H4]. rewrite a_upd_steps in H4 by done. split; [|done]. by do 3 (etrans; [eassumption|]).
Qed.

Lemma seq_assoc {S A} (m1 m2 m3 : M S unit) (k : M S A) s : (m1;; m2;; m3;; k) s = ((m1;; m2;; m3);; k) s.
Proof.
  unfold mbind, M_bind. destruct (m1 s) as [v1 s1 t1| | | |]; try done.
  destruct (m2 s1) as [v2 s2 t2| | | |]; simpl; try done.
  destruct (m3 s2) as [v3 s3 t3| | | |]; simpl; try done. by rewrite !prepend_prepend, ?(assoc_L (++)).
Qed.

(** The same, followed by more code. *)
Lemma fs_rewrite_then {B} s s1 a L x i d (k : M fstate B) Q :
  only_log s s1 → fsrep s1 (a_lock x i a) L → a_locked a !! x = None →
  sb_inodestart (f_sb s) ≤ x < sb_size (f_sb s) → space s a L 1 → block_ok d →
  (∀ s2, only_log s s2 → fsrep s2 (a_upd x d a) (absorb x L) → returns k Q s2) →
  returns (on_disk (bdata_set i d);; on_log (log_write i);; on_disk (brelse i);; k) Q s1.
Proof.
  intros Ho H1 Hl Hx Hs Hd Hk.
  unfold returns, wp. rewrite seq_assoc. fold (wp ((on_disk (bdata_set i d);; on_log (log_write i);; on_disk (brelse i));; k)
    (λ v s' t, dwrites t = [] ∧ Q v s') s1).
  eapply returns_step; [by apply (fs_rewrite s s1 a L x i d)|]. intros _ s2 [Ho2 H2]. by apply Hk.
Qed.

Lemma zero_ok : block_ok (replicate 512 0).
Proof. by apply block_ok_replicate. Qed.

Lemma bzero_spec s a L x :
  fsrep s a L → a_locked a !! x = None → sb_inodestart (f_sb s) ≤ x < sb_size (f_sb s) → space s a L 1 →
  returns (bzero 1 x) (λ _ s', only_log s s' ∧ fsrep s' (a_upd x (replicate 512 0) a) (absorb x L)) s.
Proof.
  intros Hf Hl Hx Hs. destruct (fr_layout _ _ _ Hf). destruct (fs_block s a L x Hf) as (d & Hd & _); [lia|]. unfold bzero.
  eapply (fs_read s a L x); try done; [lia|destruct Hs; lia|]. intros i s1 Ho H1 _ _.
  by apply fs_rewrite; [..|apply zero_ok].
Qed.

(** The bitmap: the blocks up to and including it are in use, it is not
    locked, and no free block is. *)
Record map_ok (sb : superblock) (a : acache) (m : list Z) : Prop := MapOk {
  mo_block : a_data a !! Z.to_nat (sb_bmapstart sb) = Some m;
  mo_meta b : 0 ≤ b ≤ sb_bmapstart sb → bit m b = true;
  mo_locked : a_locked a !! sb_bmapstart sb = None;
  mo_free b : 0 ≤ b < sb_size sb → bit m b = false → a_locked a !! b = None
}.

Lemma BBLOCK_map sb b : layout sb → 0 ≤ b < BPB → BBLOCK b sb = sb_bmapstart sb.
Proof.
  intros [] Hb. unfold BBLOCK. assert (0 ≤ (sb_ninodes sb - 1) / IPB) by (apply Z.div_pos; unfold IPB; lia).
  rewrite Z.div_small, Z.add_0_l by done. apply u32_small. unfold BPB in *. lia.
Qed.

Lemma map_start s a L : fsrep s a L → sb_inodestart (f_sb s) ≤ sb_bmapstart (f_sb s) < sb_size (f_sb s) ∧ 0 < sb_inodestart (f_sb s).
Proof.
  intros Hf. destruct (fr_layout _ _ _ Hf).
  assert (0 ≤ (sb_ninodes (f_sb s) - 1) / IPB) by (apply Z.div_pos; unfold IPB; lia). lia.
Qed.

(** [balloc] takes the first free block, marks it and clears it. *)
Lemma balloc_spec s a L m b :
  fsrep s a L → map_ok (f_sb s) a m → space s a L 2 → 0 ≤ b < sb_size (f_sb s) → bit m b = false → (∀ j, 0 ≤ j < b → bit m j = true) →
  returns (balloc 1) (λ r s', r = b ∧ only_log s s' ∧
    fsrep s' (a_upd b (replicate 512 0) (a_upd (sb_bmapstart (f_sb s)) (set_bit b m) a))
      (absorb b (absorb (sb_bmapstart (f_sb s)) L))) s.
Proof.
  intros Hf [Hm Hmeta Hlk Hfree] Hs Hb Hbit Hfirst. pose proof (map_start s a L Hf) as Hst.
  pose proof (fr_layout _ _ _ Hf) as Hly. assert (sb_size (f_sb s) ≤ BPB) as Hbp by apply Hly.
  unfold balloc. apply returns_get. rewrite Nat.add_comm. cbn [Nat.add balloc_loop]. apply returns_get.
  rewrite bool_decide_true by lia. rewrite BBLOCK_map by (done || (unfold BPB; lia)).
  eapply (fs_read s a L _ m); try done; [lia|destruct Hs; lia|]. intros i s1 Ho H1 Hget _.
  eapply returns_eq; [exact Hget|].
  pose proof (balloc_scan_spec m (sb_size (f_sb s)) 0 (Z.to_nat BPB)) as Hsc.
  destruct (balloc_scan m (sb_size (f_sb s)) 0 0 (Z.to_nat BPB)) as [b'|].
  2: { rewrite Hsc in Hbit by (unfold BPB in *; lia). done. }
  destruct Hsc as (Hr & Hb' & Hlow). assert (b' = b) as ->.
  { destruct (Z.lt_trichotomy b b') as [Hlt|[Heq|Hgt]]; [|done|].
    - rewrite Hlow in Hbit by lia. done.
    - rewrite Hfirst in Hb' by lia. done. }
  assert (sb_bmapstart (f_sb s) < b) as Hbb.
  { destruct (decide (b ≤ sb_bmapstart (f_sb s))); [|lia]. rewrite Hmeta in Hbit by lia. done. }
  assert (block_ok m) as Hok by (destruct (fs_block s a L (sb_bmapstart (f_sb s)) Hf) as (? & ? & ?); [lia|]; by simplify_eq).
  eapply (fs_rewrite_then s s1 a L _ i); try done; [lia|destruct Hs as (? & ? & ?); split_and!; lia|by apply set_bit_ok|].
  intros s2 Ho2 H2. rewrite Z.add_0_l.
  eapply returns_step; [eapply bzero_spec; [exact H2| | |]|].
  - simpl. by apply Hfree.
  - rewrite (only_log_sb _ _ Ho2). lia.
  - by apply (space_upd s).
  - simpl. intros _ s3 [Ho3 H3]. apply returns_mret. split_and!; [done|by etrans|done].
Qed.

Lemma balloc_full s a L m :
  fsrep s a L → map_ok (f_sb s) a m → (length L + size (a_locked a) < NBUF)%nat →
  (∀ j, 0 ≤ j < sb_size (f_sb s) → bit m j = true) →
  ∃ s', balloc 1 s = Panic "balloc: out of blocks" s'.
Proof.
  intros Hf [Hm Hmeta Hlk Hfree] Hs Hall. pose proof (map_start s a L Hf) as Hst.
  pose proof (fr_layout _ _ _ Hf) as Hly. assert (sb_size (f_sb s) ≤ BPB) as Hbp by apply Hly.
  unfold balloc. rewrite bind_get, Nat.add_comm. cbn [Nat.add balloc_loop]. rewrite bind_get.
  rewrite bool_decide_true by lia. rewrite BBLOCK_map by (done || (unfold BPB; lia)).
  destruct (returns_inv _ _ _ (fs_bread s a L _ Hf Hlk ltac:(lia) Hs)) as (i & s1 & t1 & R1 & _ & Ho & H1).
  rewrite (bind_run _ _ _ _ _ _ R1).
  assert (a_locked (a_lock (sb_bmapstart (f_sb s)) i a) !! sb_bmapstart (f_sb s) = Some i) as Hl1 by apply lookup_insert_eq.
  rewrite (bind_run _ _ _ _ _ _ (fs_bdata_get s1 _ L _ i m H1 Hl1 Hm)).
  pose proof (balloc_scan_spec m (sb_size (f_sb s)) 0 (Z.to_nat BPB)) as Hsc.
  destruct (balloc_scan m (sb_size (f_sb s)) 0 0 (Z.to_nat BPB)) as [b'|].
  { destruct Hsc as (Hr & Hb' & _). rewrite Hall in Hb' by lia. done. }
  assert (sb_bmapstart (f_sb s) ∈ a_dirty a ∨
    a_data a !! Z.to_nat (sb_bmapstart (f_sb s)) = a_disk a !! Z.to_nat (sb_bmapstart (f_sb s))) as Hcl by (eapply fs_clean; [done|lia|done]).
  destruct (returns_inv _ _ _ (fs_brelse s1 _ L _ i H1 Hl1 Hcl)) as (v & s2 & t2 & R2 & _ & Ho2 & _).
  rewrite (bind_run _ _ _ _ _ _ R2), bind_get, (only_log_sb _ _ Ho2), (only_log_sb _ _ Ho).
  rewrite bool_decide_false by (unfold BPB in *; lia). by exists s2.
Qed.

Lemma readsb_global_spec s a L :
  fsrep s a L → a_locked a !! 1 = None → (length L + size (a_locked a) < NBUF)%nat →
  returns (readsb_global 1) (λ _ s', only_log s s' ∧ fsrep s' a L) s.
Proof.
  intros Hf Hl Hs. destruct (fr_layout _ _ _ Hf). pose proof (map_start s a L Hf).
  destruct (a_data a !! 1%nat) as [d|] eqn:Hd; [|by pose proof (fr_sb _ _ _ Hf) as E; rewrite Hd in E].
  assert (superblock_of d = f_sb s) as Hsb by (pose proof (fr_sb _ _ _ Hf) as E; rewrite Hd in E; by injection E).
  assert (∀ {A} (m1 : M bstate A) {B} (f : A → M bstate B) s, on_disk (m1 ≫= f) s = (on_disk m1 ≫= λ v, on_disk (f v)) s) as Hzb.
  { intros A m1 B f s0. unfold on_disk, on_log, on_bio, zoom, mbind, M_bind.
    destruct (m1 (l_bio (f_log s0))) as [v b1 t1| | | |]; try done. simpl. by destruct (f v b1). }
  unfold readsb_global. apply returns_bind. unfold readsb. unfold returns, wp. rewrite Hzb.
  change (returns (bp ← on_disk (bread 1 1); on_disk (d ← bdata_get bp; brelse bp;; mret (superblock_of d)))
    (λ sb s', returns (modify (set_fsb sb)) (λ _ s', only_log s s' ∧ fsrep s' a L) s') s).
  eapply (fs_read s a L 1 d); try done; [lia|]. intros i s1 Ho H1 Hget Hrel.
  unfold returns at 1, wp. rewrite Hzb, (bind_run _ _ _ _ _ _ Hget), prepend_nil, Hzb.
  destruct (returns_inv _ _ _ Hrel) as (v & s2 & t2 & R2 & Ht2 & Ho2 & H2).
  rewrite (bind_run _ _ _ _ _ _ R2). unfold on_disk, on_log, on_bio, zoom, mret, M_ret. simpl. rewrite app_nil_r.
  split; [done|]. eapply returns_run; [done|done|]. rewrite Hsb.
  replace (set_fsb (f_sb s) _) with s2; [done|]. rewrite (proj1 Ho2). by destruct s as [[] ? ? ? ? ? ? ? ?], s2 as [[] ? ? ? ? ? ? ? ?].
Qed.

(** [bfree] marks a block that is in use as free. *)
Lemma bfree_spec s a L m b :
  fsrep s a L → map_ok (f_sb s) a m → a_locked a !! 1 = None → space s a L 1 → 0 ≤ b < sb_size (f_sb s) → bit m b = true →
  returns (bfree 1 b) (λ _ s', only_log s s' ∧
    fsrep s' (a_upd (sb_bmapstart (f_sb s)) (clear_bit b m) a) (absorb (sb_bmapstart (f_sb s)) L)) s.
Proof.
  intros Hf [Hm Hmeta Hlk Hfree] Hl1 Hs Hb Hbit. pose proof (map_start s a L Hf) as Hst.
  pose proof (fr_layout _ _ _ Hf) as Hly. assert (sb_size (f_sb s) ≤ BPB) as Hbp by apply Hly.
  unfold bfree. eapply returns_step; [apply (readsb_global_spec s a L); try done; destruct Hs; lia|].
  intros _ s0 [Ho0 Hf0]. apply returns_get. rewrite (only_log_sb _ _ Ho0), BBLOCK_map by (done || lia).
  rewrite Z.mod_small by lia.
  eapply (fs_read s0 a L _ m); rewrite ?(only_log_sb _ _ Ho0); try done; [lia|destruct Hs; lia|]. intros i s1 Ho H1 Hget _.
  eapply returns_eq; [exact Hget|]. rewrite bit_free_bit, Hbit. simpl. eapply returns_eq; [done|].
  assert (block_ok m) as Hok by (destruct (fs_block s a L (sb_bmapstart (f_sb s)) Hf) as (? & ? & ?); [lia|]; by simplify_eq).
  eapply (fs_rewrite s); try done; [by etrans|lia|by apply clear_bit_ok].
Qed.
