(* ===== verification/FsFile.v ===== *)
(** The contents of a file: the block map of an inode ([bmap]), reading
    ([readi]) and writing ([writei]), with block allocation and the number of
    log entries a write uses. *)
From S2P Require Import Prelude Layout Bytes Spinlock Sleeplock CString Format Bio Log Console Fs FsSpec.

(** * The block map *)

(** The block in slot [k] of an inode with addresses [A], 0 when there is
    none: slots 0 to 139 hold the file's data, slot 140 is the indirect
    block. *)
Definition slot (D : list (list Z)) (A : list Z) (k : nat) : Z :=
  if bool_decide (k < 12)%nat then default 0 (A !! k)
  else if bool_decide (k = 140)%nat then default 0 (A !! 12%nat)
  else let x := default 0 (A !! 12%nat) in
       if bool_decide (x = 0) then 0
       else match D !! Z.to_nat x with Some d => word d (k - 12) | None => 0 end.

(** Every block of the file is a data block in use, in one slot only. *)
Record addrs_ok (sb : superblock) (D : list (list Z)) (m A : list Z) : Prop := AddrsOk {
  ao_len : length A = 13%nat;
  ao_in k : (k ≤ 140)%nat → slot D A k ≠ 0 → sb_bmapstart sb < slot D A k < sb_size sb ∧ bit m (slot D A k) = true;
  ao_inj j k : (j ≤ 140)%nat → (k ≤ 140)%nat → slot D A j = slot D A k → slot D A j ≠ 0 → j = k
}.

(** The free blocks. *)
Definition nfree (sb : superblock) (m : list Z) : nat :=
  length (filter (λ b, bit m b = false) (seqZ 0 (sb_size sb))).

Lemma nfree_first sb m :
  sb_size sb ≤ BPB → (0 < nfree sb m)%nat →
  ∃ b, 0 ≤ b < sb_size sb ∧ bit m b = false ∧ ∀ j, 0 ≤ j < b → bit m j = true.
Proof.
  intros Hsz Hn. pose proof (balloc_scan_spec m (sb_size sb) 0 (Z.to_nat BPB)) as Hsc.
  destruct (balloc_scan m (sb_size sb) 0 0 (Z.to_nat BPB)) as [b|].
  - destruct Hsc as (H1 & H2 & H3). exists b. split_and!; [lia|lia|done|]. intros j Hj. apply H3. lia.
  - exfalso. destruct (filter (λ b, bit m b = false) (seqZ 0 (sb_size sb))) as [|b l] eqn:E.
    + unfold nfree in Hn. rewrite E in Hn. simpl in Hn. lia.
    + assert (b ∈ filter (λ b, bit m b = false) (seqZ 0 (sb_size sb))) as Hb by (rewrite E; left).
      apply list_elem_of_filter in Hb as [Hb1 Hb2%elem_of_seqZ]. rewrite Hsc in Hb1 by (unfold BPB in *; lia). done.
Qed.

Lemma filter_length_same (P Q : Z → Prop) `{∀ x, Decision (P x), ∀ x, Decision (Q x)} l :
  (∀ x, x ∈ l → (P x ↔ Q x)) → length (filter P l) = length (filter Q l).
Proof.
  induction l as [|x l IH]; intros Hx; [done|]. rewrite !filter_cons.
  assert (length (filter P l) = length (filter Q l)) as E by (apply IH; set_solver).
  pose proof (Hx x ltac:(left)). destruct (decide (P x)), (decide (Q x)); simpl; tauto || congruence.
Qed.
Lemma filter_length_flip (P Q : Z → Prop) `{∀ x, Decision (P x), ∀ x, Decision (Q x)} l r :
  NoDup l → r ∈ l → P r → ¬ Q r → (∀ x, x ∈ l → x ≠ r → (P x ↔ Q x)) → length (filter P l) = S (length (filter Q l)).
Proof.
  intros Hnd Hr HP HQ. induction Hnd as [|x l Hxl Hnd IH]; intros Hx; [by apply not_elem_of_nil in Hr|].
  rewrite !filter_cons. destruct (decide (x = r)) as [->|Hne].
  - rewrite decide_True, decide_False by done. simpl. f_equal.
    apply filter_length_same. intros y Hy. apply Hx; [by right|]. by intros ->.
  - apply elem_of_cons in Hr as [->|Hr]; [done|].
    assert (length (filter P l) = S (length (filter Q l))) as E by (apply IH; [done|]; set_solver).
    pose proof (Hx x ltac:(left) Hne). destruct (decide (P x)), (decide (Q x)); simpl; tauto || congruence.
Qed.

Lemma nfree_set_bit sb m r :
  sb_size sb ≤ BPB → length m = 512%nat → 0 ≤ r < sb_size sb → bit m r = false → nfree sb m = S (nfree sb (set_bit r m)).
Proof.
  intros Hs Hm Hr Hb. unfold nfree. apply (filter_length_flip _ _ _ r).
  - apply NoDup_seqZ.
  - apply elem_of_seqZ. lia.
  - done.
  - rewrite bit_set_bit by (done || lia). by rewrite bool_decide_true.
  - intros x Hx%elem_of_seqZ Hne. rewrite bit_set_bit by (done || lia). by rewrite bool_decide_false.
Qed.

(** ** Taking a block *)

(** The cache and the log header after [balloc] took block [r]. *)
Definition taken (sb : superblock) (r : Z) (m : list Z) (a : acache) : acache :=
  a_upd r (replicate 512 0) (a_upd (sb_bmapstart sb) (set_bit r m) a).
Definition taken_log (sb : superblock) (r : Z) (L : list Z) : list Z := absorb r (absorb (sb_bmapstart sb) L).

Lemma taken_data sb r m a x :
  0 ≤ x → 0 ≤ sb_bmapstart sb < r → r < Z.of_nat (length (a_data a)) →
  a_data (taken sb r m a) !! Z.to_nat x =
    if bool_decide (x = r) then Some (replicate 512 0)
    else if bool_decide (x = sb_bmapstart sb) then Some (set_bit r m) else a_data a !! Z.to_nat x.
Proof.
  intros Hx Hr Hlen. unfold taken, a_upd. simpl. case_bool_decide as H1.
  - subst. apply list_lookup_insert_eq. rewrite length_insert. lia.
  - rewrite list_lookup_insert_ne by lia. case_bool_decide as H2.
    + subst. apply list_lookup_insert_eq. lia.
    + by rewrite list_lookup_insert_ne by lia.
Qed.

(** A slot that was empty filled with a block that was free. *)
Lemma addrs_ok_add sb D D' m A A' k r :
  addrs_ok sb D m A → sb_size sb ≤ BPB → 0 ≤ sb_bmapstart sb → length m = 512%nat → length A' = 13%nat → (k ≤ 140)%nat →
  sb_bmapstart sb < r < sb_size sb → bit m r = false → slot D A k = 0 →
  (∀ j, (j ≤ 140)%nat → slot D' A' j = if bool_decide (j = k) then r else slot D A j) →
  addrs_ok sb D' (set_bit r m) A'.
Proof.
  intros [Hl Hin Hinj] Hsz Hbm Hm Hl' Hk Hr Hfree H0 Hs.
  assert (∀ j, (j ≤ 140)%nat → slot D A j ≠ r) as Hner.
  { intros j Hj E. destruct (Hin j Hj) as [_ Hb]; [lia|]. rewrite E in Hb. congruence. }
  split; [done| |].
  - intros j Hj. rewrite Hs by done. case_bool_decide as E; intros Hne.
    + split; [done|]. rewrite bit_set_bit by (done || lia). by rewrite bool_decide_true.
    + destruct (Hin j Hj Hne) as [H1 H2]. split; [done|]. rewrite bit_set_bit by (done || lia).
      by case_bool_decide.
  - intros j1 j2 Hj1 Hj2. rewrite !Hs by done. case_bool_decide; case_bool_decide; subst; try done.
    + intros E. symmetry in E. by apply Hner in E.
    + intros E. by apply Hner in E.
    + by apply Hinj.
Qed.

Lemma balloc_taken s a L m :
  fsrep s a L → map_ok (f_sb s) a m → space s a L 2 → (0 < nfree (f_sb s) m)%nat →
  returns (balloc 1) (λ r s', sb_bmapstart (f_sb s) < r < sb_size (f_sb s) ∧ bit m r = false ∧ only_log s s' ∧
    fsrep s' (taken (f_sb s) r m a) (taken_log (f_sb s) r L)) s.
Proof.
  intros Hf Hm Hs Hn. destruct (nfree_first (f_sb s) m (proj2 (ly_size _ (fr_layout _ _ _ Hf))) Hn) as (b & Hb & Hbit & Hlow).
  eapply returns_mono; [by apply (balloc_spec s a L m b)|]. intros r s' (-> & Ho & H'). split_and!; try done; [|lia].
  destruct (decide (b ≤ sb_bmapstart (f_sb s))); [|lia]. rewrite (mo_meta _ _ _ Hm) in Hbit by lia. done.
Qed.

Lemma map_block_ok s a L m : fsrep s a L → map_ok (f_sb s) a m → block_ok m.
Proof.
  intros Hf Hm. destruct (map_start s a L Hf). destruct (fs_block s a L (sb_bmapstart (f_sb s)) Hf) as (d & Hd & Hok); [lia|].
  rewrite (mo_block _ _ _ Hm) in Hd. by injection Hd as <-.
Qed.

Lemma data_len s a L : fsrep s a L → Z.of_nat (length (a_data a)) = sb_size (f_sb s).
Proof.
  intros Hf. rewrite <- (fr_len _ _ _ Hf), (c_len _ _ (br_content _ _ (lr_bio _ _ _ _ _ (fr_log _ _ _ Hf)))). done.
Qed.

Lemma map_ok_taken s a L m r :
  fsrep s a L → map_ok (f_sb s) a m → sb_bmapstart (f_sb s) < r < sb_size (f_sb s) →
  map_ok (f_sb s) (taken (f_sb s) r m a) (set_bit r m).
Proof.
  intros Hf Hm Hr. pose proof (map_start s a L Hf). pose proof (ly_size _ (fr_layout _ _ _ Hf)).
  destruct (map_block_ok s a L m Hf Hm) as [Hlm _]. destruct Hm as [H1 H2 H3 H4]. split.
  - rewrite taken_data; [|lia|lia|rewrite (data_len s a L Hf); lia]. rewrite bool_decide_false by lia. by rewrite bool_decide_true.
  - intros b Hb. rewrite bit_set_bit by (done || (unfold BPB in *; lia)). case_bool_decide; [done|]. by apply H2.
  - done.
  - intros b Hb. rewrite bit_set_bit by (done || (unfold BPB in *; lia)). case_bool_decide; [done|]. by apply H4.
Qed.

Lemma slot_ext D D' A k :
  D !! Z.to_nat (default 0 (A !! 12%nat)) = D' !! Z.to_nat (default 0 (A !! 12%nat)) → slot D A k = slot D' A k.
Proof. intros H. unfold slot. by rewrite H. Qed.

Lemma slot_140 D A : slot D A 140 = default 0 (A !! 12%nat).
Proof. done. Qed.

(** The blocks in use other than the bitmap are the same after [balloc]. *)
Lemma taken_used s a L m r x :
  fsrep s a L → map_ok (f_sb s) a m → sb_bmapstart (f_sb s) < r < sb_size (f_sb s) → bit m r = false →
  0 ≤ x → x ≠ sb_bmapstart (f_sb s) → bit m x = true →
  a_data (taken (f_sb s) r m a) !! Z.to_nat x = a_data a !! Z.to_nat x.
Proof.
  intros Hf Hm Hr Hb Hx Hne Hbx. pose proof (map_start s a L Hf).
  rewrite taken_data; [|lia|lia|rewrite (data_len s a L Hf); lia]. rewrite !bool_decide_false by congruence. done.
Qed.

Lemma slot_taken s a L m A r j :
  fsrep s a L → map_ok (f_sb s) a m → addrs_ok (f_sb s) (a_data a) m A →
  sb_bmapstart (f_sb s) < r < sb_size (f_sb s) → bit m r = false →
  slot (a_data (taken (f_sb s) r m a)) A j = slot (a_data a) A j.
Proof.
  intros Hf Hm Ha Hr Hb. pose proof (map_start s a L Hf). destruct (decide (slot (a_data a) A 140 = 0)) as [E|E].
  - rewrite slot_140 in E. unfold slot. by rewrite E.
  - destruct (ao_in _ _ _ _ Ha 140 ltac:(lia) E) as [H1 H2]. apply slot_ext.
    rewrite <- (slot_140 (a_data a)). apply (taken_used s a L); try done; lia.
Qed.

Lemma slot_insert_direct D A k r j :
  length A = 13%nat → (k < 12)%nat → slot D (<[k := r]> A) j = if bool_decide (j = k) then r else slot D A j.
Proof.
  intros Hl Hk. unfold slot. rewrite (list_lookup_insert_ne A k 12) by lia.
  destruct (decide (j = k)) as [->|Hne].
  - rewrite !bool_decide_true by done. by rewrite list_lookup_insert_eq by lia.
  - rewrite (bool_decide_false (j = k)) by done. by rewrite list_lookup_insert_ne by done.
Qed.

Lemma word_zeros k : word (replicate 512 0) k = 0.
Proof.
  unfold word, slice. assert (∀ n, of_le (replicate n 0) = 0) as H by (induction n; simpl; lia).
  rewrite drop_replicate, take_replicate. apply H.
Qed.

Lemma slot_insert_indirect D A r j :
  length A = 13%nat → A !! 12%nat = Some 0 → D !! Z.to_nat r = Some (replicate 512 0) → (j ≤ 140)%nat → r ≠ 0 →
  slot D (<[12%nat := r]> A) j = if bool_decide (j = 140%nat) then r else slot D A j.
Proof.
  intros Hl H0 Hr Hj Hne. unfold slot. rewrite list_lookup_insert_eq by lia. simpl. rewrite Hr, H0, word_zeros. simpl.
  rewrite (bool_decide_false (r = 0)) by done.
  destruct (decide (j < 12)%nat).
  - rewrite !(bool_decide_true (j < 12)%nat) by done. rewrite (bool_decide_false (j = 140%nat)) by lia.
    by rewrite list_lookup_insert_ne by lia.
  - rewrite !(bool_decide_false (j < 12)%nat) by done. by case_bool_decide.
Qed.

Lemma slot_set_word D A x d k r j :
  A !! 12%nat = Some x → x ≠ 0 → D !! Z.to_nat x = Some d → length d = 512%nat → (12 ≤ k < 140)%nat → (j ≤ 140)%nat →
  0 ≤ r < 4294967296 →
  slot (<[Z.to_nat x := set_word (k - 12) r d]> D) A j = if bool_decide (j = k) then r else slot D A j.
Proof.
  intros Hx Hne Hd Hl Hk Hj Hr. unfold slot. rewrite Hx. simpl. rewrite (bool_decide_false (x = 0)) by done.
  rewrite list_lookup_insert_eq by (by eapply lookup_lt_Some). rewrite Hd, word_set_word by lia.
  destruct (decide (j < 12)%nat).
  { rewrite !(bool_decide_true (j < 12)%nat) by done. by rewrite (bool_decide_false (j = k)) by lia. }
  rewrite !(bool_decide_false (j < 12)%nat) by done. destruct (decide (j = 140)%nat).
  { subst. rewrite !(bool_decide_true (140 = 140)%nat) by done. by rewrite (bool_decide_false (140%nat = k)) by lia. }
  rewrite !(bool_decide_false (j = 140)%nat) by done. destruct (decide (j = k)) as [->|].
  - rewrite !bool_decide_true by done. by apply u32_small.
  - by rewrite !bool_decide_false by lia.
Qed.

(** ** [bmap] *)

(** The log entries so far, with the bitmap and the indirect block. *)
Definition cost (sb : superblock) (A L : list Z) : nat :=
  length L + (if bool_decide (sb_bmapstart sb ∈ L) then 0 else 1) +
  (if bool_decide (default 0 (A !! 12%nat) ∈ L) then 0 else 1).
Definition need (A : list Z) : nat := if bool_decide (default 0 (A !! 12%nat) = 0) then 1 else 0.

(** [bmap] of slot [k] gave block [r]; [inc] counts the data block. *)
Record mapped (sb : superblock) (k inc : nat) (a : acache) (L m A : list Z) (r : Z) (a' : acache) (L' m' A' : list Z) : Prop := Mapped {
  mp_locked : a_locked a' = a_locked a;
  mp_map : map_ok sb a' m';
  mp_addrs : addrs_ok sb (a_data a') m' A';
  mp_slot : slot (a_data a') A' k = r;
  mp_r : r ≠ 0;
  mp_keep : slot (a_data a) A k ≠ 0 → slot (a_data a) A k = r;
  mp_slots j : (j < 140)%nat → j ≠ k → slot (a_data a') A' j = slot (a_data a) A j;
  mp_ind : slot (a_data a) A 140 ≠ 0 → slot (a_data a') A' 140 = slot (a_data a) A 140;
  mp_block : a_data a' !! Z.to_nat r =
    if bool_decide (slot (a_data a) A k = 0) then Some (replicate 512 0) else a_data a !! Z.to_nat r;
  mp_frame x : 0 ≤ x < sb_size sb → bit m x = true → x ≠ sb_bmapstart sb → (x ≠ 0 → x ≠ slot (a_data a') A' 140) →
    a_data a' !! Z.to_nat x = a_data a !! Z.to_nat x;
  mp_bits x : 0 ≤ x < sb_size sb → bit m x = true → bit m' x = true;
  mp_new j : (j ≤ 140)%nat → slot (a_data a') A' j ≠ 0 →
    slot (a_data a') A' j = slot (a_data a) A j ∨ bit m (slot (a_data a') A' j) = false;
  mp_sameA : slot (a_data a) A k ≠ 0 → A' = A;
  mp_cost : (cost sb A' (absorb r L') ≤ inc + cost sb A L)%nat;
  mp_cost' : (cost sb A' L' ≤ inc + cost sb A L)%nat;
  mp_free : (nfree sb m + need A' ≤ inc + nfree sb m' + need A)%nat
}.

Lemma cost_absorb sb A L x :
  sb_bmapstart sb ≠ default 0 (A !! 12%nat) → (cost sb A L ≤ cost sb A (absorb x L) ≤ S (cost sb A L))%nat.
Proof.
  intros Hne. unfold absorb. case_bool_decide as Hx; [lia|]. unfold cost. rewrite length_app. simpl.
  set (y := default 0 (A !! 12%nat)) in *.
  assert (∀ z, bool_decide (z ∈ L ++ [x]) = bool_decide (z ∈ L) || bool_decide (z = x)) as Hb.
  { intros z. rewrite <- bool_decide_or. apply bool_decide_ext. rewrite elem_of_app, list_elem_of_singleton. done. }
  rewrite !Hb. destruct (decide (sb_bmapstart sb = x)), (decide (y = x)); [congruence|..];
    rewrite ?(bool_decide_true (sb_bmapstart sb = x)), ?(bool_decide_true (y = x)),
      ?(bool_decide_false (sb_bmapstart sb = x)), ?(bool_decide_false (y = x)), ?orb_true_r, ?orb_false_r by done.
  - rewrite (bool_decide_false (sb_bmapstart sb ∈ L)) by congruence. destruct (bool_decide (y ∈ L)); simpl; lia.
  - rewrite (bool_decide_false (y ∈ L)) by congruence. destruct (bool_decide (sb_bmapstart sb ∈ L)); simpl; lia.
  - lia.
Qed.

(** Logging the indirect block or the bitmap costs nothing more. *)
Lemma cost_absorb_map sb A L : sb_bmapstart sb ≠ default 0 (A !! 12%nat) → cost sb A (absorb (sb_bmapstart sb) L) = cost sb A L.
Proof.
  intros Hne. unfold absorb. case_bool_decide as H; [done|]. unfold cost. rewrite (bool_decide_false (_ ∈ L)) by done.
  rewrite length_app. simpl. rewrite (bool_decide_true (sb_bmapstart sb ∈ L ++ [_])) by set_solver.
  rewrite (bool_decide_ext (default 0 (A !! 12%nat) ∈ L ++ [_]) (default 0 (A !! 12%nat) ∈ L)) by set_solver. lia.
Qed.
Lemma cost_absorb_ind sb A L x : default 0 (A !! 12%nat) = x → sb_bmapstart sb ≠ x → cost sb A (absorb x L) = cost sb A L.
Proof.
  intros Hx Hne. unfold absorb. case_bool_decide as H; [done|]. unfold cost. rewrite Hx.
  rewrite length_app. simpl. rewrite (bool_decide_true (x ∈ L ++ [_])) by set_solver.
  rewrite (bool_decide_false (x ∈ L)) by done.
  rewrite (bool_decide_ext (sb_bmapstart sb ∈ L ++ [_]) (sb_bmapstart sb ∈ L)) by set_solver. lia.
Qed.
Lemma elem_absorb y x L : y ∈ absorb x L ↔ y = x ∨ y ∈ L.
Proof. unfold absorb. case_bool_decide; [set_solver|]. rewrite elem_of_app, list_elem_of_singleton. tauto. Qed.
Lemma absorb_in x L : x ∈ L → absorb x L = L.
Proof. intros H. unfold absorb. by rewrite bool_decide_true. Qed.
Lemma absorb_idemp x L : absorb x (absorb x L) = absorb x L.
Proof. apply absorb_in, elem_absorb. by left. Qed.
Lemma length_cost sb A L : (length L ≤ cost sb A L)%nat.
Proof. unfold cost. lia. Qed.

(** Log space for [k] more data blocks with what comes with them. *)
Definition credit (s : fstate) (A L : list Z) (k : nat) : Prop :=
  Z.of_nat (cost (f_sb s) A L + k) + 2 ≤ sb_nlog (f_sb s) - 1 ∧ 1 ≤ l_outstanding (f_log s).

(** A transaction in which the inode [i] in entry [ip] is a file. *)
Record fview (s : fstate) (ip : nat) (i : inode) (a : acache) (L m : list Z) : Prop := FView {
  fv_rep : fsrep s a L;
  fv_ino : f_inodes s !! ip = Some i;
  fv_dev : i_dev i = 1;
  fv_map : map_ok (f_sb s) a m;
  fv_addrs : addrs_ok (f_sb s) (a_data a) m (i_addrs i);
  fv_unlocked : a_locked a = ∅
}.

Lemma iget_ip_run s ip i : f_inodes s !! ip = Some i → iget_ip ip s = Ret i s [].
Proof. intros H. unfold iget_ip. rewrite bind_get. by rewrite H. Qed.
Lemma iupd_run s ip i f : f_inodes s !! ip = Some i → iupd ip f s = Ret tt (set_inodes (<[ip := f i]> (f_inodes s)) s) [].
Proof. intros H. unfold iupd. mstep (iget_ip_run s ip i H). done. Qed.

(** Only the log and the entry [ip] of the inode cache differ. *)
Definition only_inode (ip : nat) (i' : inode) (s s' : fstate) : Prop :=
  s' = set_inodes (<[ip := i']> (f_inodes s)) (set_flog (f_log s') s) ∧
  txn (f_log s') = txn (f_log s).

Lemma only_log_inode ip i s s' : only_log s s' → f_inodes s !! ip = Some i → only_inode ip i s s'.
Proof. intros [H E] Hi. split; [|done]. rewrite list_insert_id by done. rewrite H at 1. by destruct s. Qed.
Lemma only_inode_trans ip i1 i2 s s1 s2 : only_inode ip i1 s s1 → only_inode ip i2 s1 s2 → only_inode ip i2 s s2.
Proof.
  intros [H1 E1] [H2 E2]. split; [|congruence]. rewrite H2 at 1. rewrite H1. unfold set_inodes, set_flog. simpl. by rewrite list_insert_insert_eq.
Qed.
Lemma only_inode_sb ip i s s' : only_inode ip i s s' → f_sb s' = f_sb s.
Proof. by intros [-> _]. Qed.
Lemma only_inode_out ip i s s' : only_inode ip i s s' → l_outstanding (f_log s') = l_outstanding (f_log s).
Proof. intros [_ H]. exact (f_equal fst H). Qed.
Lemma only_inode_lookup ip i s s' : only_inode ip i s s' → (ip < length (f_inodes s))%nat → f_inodes s' !! ip = Some i.
Proof. intros [-> _] H. simpl. by apply list_lookup_insert_eq. Qed.

Lemma fsrep_inodes s a L l : fsrep s a L → fsrep (set_inodes l s) a L.
Proof. intros []. by split. Qed.

Lemma ind_not_map sb D m A : addrs_ok sb D m A → 0 < sb_bmapstart sb → sb_bmapstart sb ≠ default 0 (A !! 12%nat).
Proof.
  intros Ha Hb E. rewrite <- (slot_140 D) in E. destruct (ao_in _ _ _ _ Ha 140 ltac:(lia)) as [H _]; lia.
Qed.

Lemma zero_not_logged s a L : fsrep s a L → 0 ∉ L.
Proof.
  intros Hf Hin. pose proof (map_start s a L Hf). pose proof (fr_L _ _ _ Hf) as HL.
  rewrite Forall_forall in HL. specialize (HL _ Hin). simpl in HL. lia.
Qed.

(** The slot already has a block. *)
Lemma mapped_same s a L m A k inc :
  fsrep s a L → map_ok (f_sb s) a m → addrs_ok (f_sb s) (a_data a) m A → slot (a_data a) A k ≠ 0 →
  (inc = 1 ∨ k = 140 ∧ inc = 0)%nat →
  mapped (f_sb s) k inc a L m A (slot (a_data a) A k) a L m A.
Proof.
  intros Hf Hm Ha Hne Hinc. pose proof (map_start s a L Hf).
  pose proof (ind_not_map _ _ _ _ Ha ltac:(lia)) as Hni.
  split; try done; try lia; [by rewrite bool_decide_false|].
  destruct Hinc as [->|[-> ->]]; [by apply cost_absorb|].
  rewrite slot_140. rewrite cost_absorb_ind; [lia|done|done].
Qed.

(** The slot is filled by [balloc], in the inode itself. *)
Lemma mapped_taken s a L m A A' k inc r :
  fsrep s a L → map_ok (f_sb s) a m → addrs_ok (f_sb s) (a_data a) m A →
  sb_bmapstart (f_sb s) < r < sb_size (f_sb s) → bit m r = false → slot (a_data a) A k = 0 → length A' = 13%nat →
  (∀ j, (j ≤ 140)%nat → slot (a_data (taken (f_sb s) r m a)) A' j = if bool_decide (j = k) then r else slot (a_data a) A j) →
  (k < 12 ∧ inc = 1 ∨ k = 140 ∧ inc = 0)%nat →
  mapped (f_sb s) k inc a L m A r (taken (f_sb s) r m a) (taken_log (f_sb s) r L) (set_bit r m) A'.
Proof.
  intros Hf Hm Ha Hr Hfree H0 Hl Hs Hk. pose proof (map_start s a L Hf) as Hst. pose proof (fr_layout _ _ _ Hf) as Hly.
  assert (sb_size (f_sb s) ≤ BPB) as Hbp by apply Hly. destruct (map_block_ok s a L m Hf Hm) as [Hlm _].
  assert (addrs_ok (f_sb s) (a_data (taken (f_sb s) r m a)) (set_bit r m) A') as Ha' by (eapply (addrs_ok_add _ (a_data a) _ m A A' k); try done; lia).
  pose proof (ind_not_map _ _ _ _ Ha ltac:(lia)) as Hni. pose proof (ind_not_map _ _ _ _ Ha' ltac:(lia)) as Hni'.
  assert (default 0 (A' !! 12%nat) = if bool_decide (k = 140%nat) then r else default 0 (A !! 12%nat)) as H12.
  { rewrite <- (slot_140 (a_data (taken (f_sb s) r m a))), Hs by lia. by case_bool_decide; case_bool_decide. }
  assert (cost (f_sb s) A' (taken_log (f_sb s) r L) ≤ inc + cost (f_sb s) A L)%nat as Hcost.
  { unfold taken_log. destruct Hk as [[Hk ->]|[-> ->]].
    - etrans; [by apply cost_absorb|]. rewrite cost_absorb_map by done. unfold cost. rewrite H12, (bool_decide_false (k = 140%nat)) by lia. lia.
    - rewrite (cost_absorb_ind _ A' _ r), cost_absorb_map by (done || lia). unfold cost. rewrite H12, (bool_decide_true (140 = 140)%nat) by done.
      rewrite <- (slot_140 (a_data a)), H0, (bool_decide_false (0 ∈ L)) by (by eapply zero_not_logged). repeat case_bool_decide; lia. }
  split; try done.
  - by eapply map_ok_taken.
  - rewrite Hs by lia. by rewrite bool_decide_true.
  - lia.
  - intros j Hj Hne. rewrite Hs by lia. by rewrite bool_decide_false.
  - intros Hne. rewrite Hs by lia. rewrite bool_decide_false; [done|]. intros <-. done.
  - rewrite taken_data; [|lia|lia|rewrite (data_len s a L Hf); lia]. rewrite !bool_decide_true by done. done.
  - intros x Hx Hb Hne _. apply (taken_used s a L); try done; lia.
  - intros x Hx Hb. rewrite bit_set_bit by (done || lia). by destruct (bool_decide (x = r)).
  - intros j Hj _. rewrite Hs by lia. destruct (decide (j = k)); [right; by rewrite bool_decide_true|left; by rewrite bool_decide_false].
  - unfold taken_log in *. rewrite absorb_idemp. exact Hcost.
  - rewrite (nfree_set_bit _ m r) by (done || lia). unfold need. rewrite H12.
    destruct Hk as [[Hk ->]|[-> ->]]; [rewrite (bool_decide_false (k = 140%nat)) by lia; lia|].
    rewrite (bool_decide_true (140 = 140)%nat) by done. rewrite <- (slot_140 (a_data a)), H0.
    rewrite (bool_decide_false (r = 0)), (bool_decide_true (0 = 0)) by lia. lia.
Qed.

(** The slot is filled by [balloc], in the indirect block [x]. *)
Lemma mapped_entry s a L m A k r x d :
  fsrep s a L → map_ok (f_sb s) a m → addrs_ok (f_sb s) (a_data a) m A →
  sb_bmapstart (f_sb s) < r < sb_size (f_sb s) → bit m r = false → slot (a_data a) A k = 0 → (12 ≤ k < 140)%nat →
  A !! 12%nat = Some x → x ≠ 0 → a_data a !! Z.to_nat x = Some d →
  mapped (f_sb s) k 1 a L m A r (a_upd x (set_word (k - 12) r d) (taken (f_sb s) r m a))
    (absorb x (taken_log (f_sb s) r L)) (set_bit r m) A.
Proof.
  intros Hf Hm Ha Hr Hfree H0 Hk Hx Hxn Hd. pose proof (map_start s a L Hf) as Hst. pose proof (fr_layout _ _ _ Hf) as Hly.
  assert (sb_size (f_sb s) ≤ BPB) as Hbp by apply Hly. destruct (map_block_ok s a L m Hf Hm) as [Hlm _].
  assert (default 0 (A !! 12%nat) = x) as Hdx by (by rewrite Hx).
  assert (slot (a_data a) A 140 = x) as Hx140 by (by rewrite slot_140).
  destruct (ao_in _ _ _ _ Ha 140 ltac:(lia)) as [Hxr Hxb]; [congruence|]. rewrite Hx140 in Hxr, Hxb.
  assert (x ≠ r) as Hxr' by congruence.
  assert (a_data (taken (f_sb s) r m a) !! Z.to_nat x = Some d) as Hd' by (rewrite (taken_used s a L m r x); try done; lia).
  assert (length d = 512%nat) as Hld by (destruct (fs_block s a L x Hf) as (d' & Hd2 & [? _]); [lia|]; congruence).
  assert (∀ j, (j ≤ 140)%nat → slot (a_data (a_upd x (set_word (k - 12) r d) (taken (f_sb s) r m a))) A j =
    if bool_decide (j = k) then r else slot (a_data a) A j) as Hs.
  { intros j Hj. cbn [a_upd a_data]. rewrite (slot_set_word _ A x d k r j); try done; [|unfold BPB in *; lia].
    destruct (decide (j = k)) as [->|Hjk]; [by rewrite !bool_decide_true|]. rewrite !bool_decide_false by done.
    by apply (slot_taken s a L). }
  assert (addrs_ok (f_sb s) (a_data (a_upd x (set_word (k - 12) r d) (taken (f_sb s) r m a))) (set_bit r m) A) as Ha'
    by (eapply (addrs_ok_add _ (a_data a) _ m A A k); try done; [lia|apply (ao_len _ _ _ _ Ha)|lia]).
  pose proof (ind_not_map _ _ _ _ Ha ltac:(lia)) as Hni. pose proof (map_ok_taken s a L m r Hf Hm Hr) as [M1 M2 M3 M4].
  assert (cost (f_sb s) A (taken_log (f_sb s) r L) ≤ 1 + cost (f_sb s) A L)%nat as Hcost.
  { unfold taken_log. etrans; [by apply cost_absorb|]. by rewrite cost_absorb_map. }
  split; try done.
  - split; try done. cbn [a_upd a_data]. rewrite list_lookup_insert_ne by lia. exact M1.
  - rewrite Hs by lia. by rewrite bool_decide_true.
  - lia.
  - intros j Hj Hne. rewrite Hs by lia. by rewrite bool_decide_false.
  - rewrite H0, (bool_decide_true (0 = 0)) by done. cbn [a_upd a_data]. rewrite list_lookup_insert_ne by lia.
    rewrite taken_data; [|lia|lia|rewrite (data_len s a L Hf); lia]. by rewrite bool_decide_true.
  - intros y Hy Hb Hne. rewrite slot_140, Hdx. intros Hny.
    assert (y ≠ x) by (intros ->; by apply Hny). cbn [a_upd a_data]. rewrite list_lookup_insert_ne by lia.
    apply (taken_used s a L); try done; lia.
  - intros y Hy Hb. rewrite bit_set_bit by (done || lia). by destruct (bool_decide (y = r)).
  - intros j Hj _. rewrite Hs by lia. destruct (decide (j = k)); [right; by rewrite bool_decide_true|left; by rewrite bool_decide_false].
  - assert (absorb r (absorb x (taken_log (f_sb s) r L)) = absorb x (taken_log (f_sb s) r L)) as ->.
    { apply absorb_in. apply elem_absorb. right. unfold taken_log. apply elem_absorb. by left. }
    by rewrite cost_absorb_ind by congruence.
  - by rewrite cost_absorb_ind by congruence.
  - rewrite (nfree_set_bit _ m r) by (done || lia). lia.
Qed.

(** *** The code *)

Definition slot_of (j : nat) : nat := if bool_decide (j = 12)%nat then 140 else j.
Definition inc_of (j : nat) : nat := if bool_decide (j = 12)%nat then 0 else 1.

Lemma slot_slot_of D A j : (j ≤ 12)%nat → slot D A (slot_of j) = default 0 (A !! j).
Proof.
  intros Hj. unfold slot_of. case_bool_decide as E; [by subst|]. unfold slot. by rewrite bool_decide_true by lia.
Qed.

Lemma iaddr_get_run s ip i j v : f_inodes s !! ip = Some i → i_addrs i !! j = Some v → iaddr_get ip j s = Ret v s [].
Proof. intros H Hv. unfold iaddr_get. mstep (iget_ip_run s ip i H). by rewrite Hv. Qed.

Lemma iaddr_set_run s ip i j v w :
  f_inodes s !! ip = Some i → i_addrs i !! j = Some w →
  iaddr_set ip j v s = Ret tt (set_inodes (<[ip := set_iaddrs (<[j := v]> (i_addrs i)) i]> (f_inodes s)) s) [].
Proof. intros H Hw. unfold iaddr_set. mstep (iaddr_get_run s ip i j w H Hw). by rewrite (iupd_run s ip i _ H). Qed.

Lemma set_iaddrs_id i : set_iaddrs (i_addrs i) i = i.
Proof. by destruct i. Qed.

(** What [bmap] and its parts establish. *)
Definition bmap_post (s : fstate) (ip : nat) (i : inode) (a : acache) (L m : list Z) (k inc : nat) (r : Z) (s' : fstate) : Prop :=
  ∃ a' L' m' A', fview s' ip (set_iaddrs A' i) a' L' m' ∧ only_inode ip (set_iaddrs A' i) s s' ∧
    mapped (f_sb s) k inc a L m (i_addrs i) r a' L' m' A' ∧
    (slot (a_data a) (i_addrs i) k ≠ 0 → a' = a ∧ L' = L ∧ m' = m ∧ A' = i_addrs i).

Lemma fview_only_log s s' ip i a L m : fview s ip i a L m → only_log s s' → fsrep s' a L → fview s' ip i a L m.
Proof. intros [] Ho Hf. split; try done; rewrite ?(only_log_sb _ _ Ho), ?(only_log_inodes _ _ Ho); done. Qed.

Lemma bmap_post_same s s' ip i a L m k inc :
  fview s ip i a L m → only_log s s' → fsrep s' a L → slot (a_data a) (i_addrs i) k ≠ 0 →
  (inc = 1 ∨ k = 140 ∧ inc = 0)%nat →
  bmap_post s ip i a L m k inc (slot (a_data a) (i_addrs i) k) s'.
Proof.
  intros Hv Ho Hf Hne Hinc. exists a, L, m, (i_addrs i). rewrite set_iaddrs_id. split_and!.
  - by eapply fview_only_log.
  - by apply only_log_inode; [|apply Hv].
  - apply mapped_same; try done; apply Hv.
  - done.
Qed.

Lemma addr_or_alloc_spec s ip i a L m j :
  fview s ip i a L m → (j ≤ 12)%nat →
  credit s (i_addrs i) L 1 →
  slot (a_data a) (i_addrs i) (slot_of j) ≠ 0 ∨ (0 < nfree (f_sb s) m)%nat →
  returns (addr_or_alloc ip j) (bmap_post s ip i a L m (slot_of j) (inc_of j)) s.
Proof.
  intros Hv Hj [Hc Hout] Hfr. pose proof Hv as [Hf Hi Hdev Hm Ha Hnl]. pose proof (fr_layout _ _ _ Hf) as Hly.
  destruct (lookup_lt_is_Some_2 (i_addrs i) j) as [v Hav]; [rewrite (ao_len _ _ _ _ Ha); lia|].
  assert (slot (a_data a) (i_addrs i) (slot_of j) = v) as Hsl by (by rewrite slot_slot_of, Hav).
  assert ((slot_of j < 12 ∧ inc_of j = 1) ∨ (slot_of j = 140 ∧ inc_of j = 0))%nat as Hinc.
  { unfold slot_of, inc_of. case_bool_decide; [by right|left; lia]. }
  unfold addr_or_alloc. eapply returns_eq; [by apply iget_ip_run|]. eapply returns_eq; [by eapply iaddr_get_run|].
  case_bool_decide as Hv0.
  - rewrite Hdev. eapply returns_step; [apply (balloc_taken s a L m); try done|].
    + pose proof (length_cost (f_sb s) (i_addrs i) L). destruct (ly_nlog _ Hly). split_and!; [lia| |done].
      rewrite Hnl, map_size_empty. unfold LOGSIZE, NBUF, MAXOPBLOCKS in *. lia.
    + destruct Hfr; [congruence|done].
    + intros r s1 (Hr & Hb & Ho & H1). assert (f_inodes s1 !! ip = Some i) as Hi1 by (by rewrite (only_log_inodes _ _ Ho)).
      eapply returns_eq; [by eapply iaddr_set_run|]. apply returns_mret.
      eexists (taken (f_sb s) r m a), _, (set_bit r m), (<[j := r]> (i_addrs i)).
      assert (mapped (f_sb s) (slot_of j) (inc_of j) a L m (i_addrs i) r (taken (f_sb s) r m a) (taken_log (f_sb s) r L) (set_bit r m) (<[j:=r]> (i_addrs i))) as Hmp.
      { eapply mapped_taken; try done; [congruence|by rewrite length_insert; apply Ha|].
        pose proof (map_start s a L Hf). intros j' Hj'. unfold slot_of. destruct (decide (j = 12%nat)) as [->|Ej].
        - rewrite (bool_decide_true (12 = 12)%nat) by done. rewrite slot_insert_indirect; try done; [|apply Ha|congruence| |lia].
          + destruct (decide (j' = 140%nat)); [by rewrite !bool_decide_true|]. rewrite !bool_decide_false by done. by apply (slot_taken s a L).
          + rewrite taken_data; [|lia|lia|rewrite (data_len s a L Hf); lia]. by rewrite bool_decide_true.
        - rewrite (bool_decide_false (j = 12%nat)) by done. rewrite slot_insert_direct; [|apply Ha|lia]. destruct (decide (j' = j)); [by rewrite !bool_decide_true|].
          rewrite !bool_decide_false by done. by apply (slot_taken s a L). }
      split_and!; [| |exact Hmp|congruence].
      * split; try done; simpl.
        -- by apply fsrep_inodes.
        -- apply list_lookup_insert_eq. rewrite (only_log_inodes _ _ Ho). by eapply lookup_lt_Some.
        -- rewrite (only_log_sb _ _ Ho). apply Hmp.
        -- rewrite (only_log_sb _ _ Ho). apply Hmp.
      * eapply only_inode_trans; [by apply only_log_inode|]. split; [by destruct s1|done].
  - apply returns_mret. rewrite <- Hsl. apply bmap_post_same; try done; [congruence|]. destruct Hinc; [left|right]; naive_solver.
Qed.

(** The indirect block is found or made first, then the slot in it. *)
Lemma mapped_via s k a L m A x a1 L1 m1 A1 r a2 L2 m2 A2 :
  fsrep s a L → addrs_ok (f_sb s) (a_data a) m A →
  mapped (f_sb s) 140 0 a L m A x a1 L1 m1 A1 → mapped (f_sb s) k 1 a1 L1 m1 A1 r a2 L2 m2 A2 → (12 ≤ k < 140)%nat →
  mapped (f_sb s) k 1 a L m A r a2 L2 m2 A2.
Proof.
  intros Hf Ha H1 H2 Hk. pose proof (map_start s a L Hf) as Hst.
  assert (slot (a_data a1) A1 k = slot (a_data a) A k) as Hs by (apply (mp_slots _ _ _ _ _ _ _ _ _ _ _ _ H1); lia).
  assert (slot (a_data a1) A1 140 ≠ 0) as Hne by (rewrite (mp_slot _ _ _ _ _ _ _ _ _ _ _ _ H1); apply H1).
  assert (slot (a_data a2) A2 140 = slot (a_data a1) A1 140) as H140 by (by apply (mp_ind _ _ _ _ _ _ _ _ _ _ _ _ H2)).
  assert (∀ y, 0 ≤ y < sb_size (f_sb s) → bit m y = true → y ≠ sb_bmapstart (f_sb s) → (y ≠ 0 → y ≠ slot (a_data a2) A2 140) →
    a_data a2 !! Z.to_nat y = a_data a !! Z.to_nat y) as Hframe.
  { intros y Hy Hb Hn Hi. rewrite (mp_frame _ _ _ _ _ _ _ _ _ _ _ _ H2); try done; [|by apply (mp_bits _ _ _ _ _ _ _ _ _ _ _ _ H1)].
    apply (mp_frame _ _ _ _ _ _ _ _ _ _ _ _ H1); try done. by rewrite <- H140. }
  destruct H1, H2. split; try done.
  - congruence.
  - intros E. rewrite <- Hs. apply mp_keep1. congruence.
  - intros j Hj Hjk. rewrite mp_slots1 by done. apply mp_slots0; lia.
  - intros E. rewrite H140. by apply mp_ind0.
  - rewrite mp_block1, Hs. destruct (decide (slot (a_data a) A k = 0)) as [E|E]; [by rewrite !(bool_decide_true (slot _ _ k = 0))|]. rewrite !(bool_decide_false (slot _ _ k = 0)) by done. apply mp_frame0.
    + destruct (ao_in _ _ _ _ Ha k ltac:(lia) E). rewrite <- mp_keep1, Hs by congruence. lia.
    + destruct (ao_in _ _ _ _ Ha k ltac:(lia) E). rewrite <- mp_keep1, Hs by congruence. done.
    + destruct (ao_in _ _ _ _ Ha k ltac:(lia) E). rewrite <- mp_keep1, Hs by congruence. lia.
    + rewrite <- mp_keep1 by congruence. intros _ E1. apply (ao_inj _ _ _ _ mp_addrs0) in E1; [lia|lia|lia|congruence].
  - naive_solver.
  - intros j Hj Hne'. destruct (mp_new1 j Hj Hne') as [E|E].
    + rewrite E in *. by apply mp_new0.
    + right. destruct (ao_in _ _ _ _ mp_addrs1 j Hj Hne') as [Hr _].
      destruct (bit m (slot (a_data a2) A2 j)) eqn:Eb; [|done]. rewrite mp_bits0 in E by (done || lia). done.
  - intros E. transitivity A1; [apply mp_sameA1; congruence|]. apply mp_sameA0. intros E0. apply E.
    rewrite slot_140 in E0. unfold slot. by rewrite !bool_decide_false, E0 by lia.
  - lia.
  - lia.
  - lia.
Qed.

Lemma fs_bword_get s a L x i d n :
  fsrep s a L → a_locked a !! x = Some i → a_data a !! Z.to_nat x = Some d → (4 * n + 4 ≤ length d)%nat →
  on_disk (bword_get i n) s = Ret (word d n) s [].
Proof.
  intros Hf Hl Hd Hn. rewrite (on_disk_run _ s (word d n) (l_bio (f_log s)) []); [by rewrite set_flog_id|].
  unfold bword_get. mstep (bdata_get_spec _ a x i d (lr_bio _ _ _ _ _ (fr_log _ _ _ Hf)) Hl Hd). by rewrite bool_decide_true.
Qed.

Lemma fs_bword_set s a L x i d n v :
  fsrep s a L → a_locked a !! x = Some i → a_data a !! Z.to_nat x = Some d → block_ok d → (4 * n + 4 ≤ length d)%nat →
  sb_inodestart (f_sb s) ≤ x →
  returns (on_disk (bword_set i n v)) (λ _ s', only_log s s' ∧ fsrep s' (a_set x (set_word n v d) a) L) s.
Proof.
  intros Hf Hl Hd [Hld Hbd] Hn Hx.
  assert (block_ok (set_word n v d)) as Hok by (split; [by rewrite length_set_word|by apply Forall_set_word]).
  destruct (bdata_set_spec _ a x i _ (lr_bio _ _ _ _ _ (fr_log _ _ _ Hf)) Hl Hok) as (b' & R & B & _).
  eapply returns_run; [apply (on_disk_run _ s tt b' [])|done|].
  - unfold bword_set. mstep (bdata_get_spec _ a x i d (lr_bio _ _ _ _ _ (fr_log _ _ _ Hf)) Hl Hd).
    by rewrite bool_decide_true.
  - split; [by apply only_log_set|]. eapply fsrep_bio; try done. simpl. rewrite list_lookup_insert_ne; [done|].
    destruct (fr_layout _ _ _ Hf). lia.
Qed.

(** The part of [bmap] after the indirect block [x] is known. *)
Lemma bmap_entry_spec s ip i a L m k x :
  fview s ip i a L m → (12 ≤ k < 140)%nat → i_addrs i !! 12%nat = Some x → x ≠ 0 →
  credit s (i_addrs i) L 1 →
  slot (a_data a) (i_addrs i) k ≠ 0 ∨ (0 < nfree (f_sb s) m)%nat →
  returns (bp ← on_disk (bread 1 x);
           addr ← on_disk (bword_get bp (k - 12));
           addr ← (if bool_decide (addr = 0) then
                     addr ← balloc 1;
                     on_disk (bword_set bp (k - 12) addr);;
                     on_log (log_write bp);;
                     mret addr
                   else mret addr);
           on_disk (brelse bp);;
           mret addr) (bmap_post s ip i a L m k 1) s.
Proof.
  intros Hv Hk Hx Hxn [Hc Hout] Hfr. pose proof Hv as [Hf Hi Hdev Hm Ha Hnl]. pose proof (fr_layout _ _ _ Hf) as Hly.
  pose proof (map_start s a L Hf) as Hst. pose proof (length_cost (f_sb s) (i_addrs i) L) as Hlc. destruct (ly_nlog _ Hly) as [_ Hn30].
  assert (slot (a_data a) (i_addrs i) 140 = x) as Hx140 by (by rewrite slot_140, Hx).
  destruct (ao_in _ _ _ _ Ha 140 ltac:(lia)) as [Hxr Hxb]; [congruence|]. rewrite Hx140 in Hxr, Hxb.
  destruct (fs_block s a L x Hf ltac:(lia)) as (d & Hd & Hok). pose proof Hok as [Hld _].
  assert (slot (a_data a) (i_addrs i) k = word d (k - 12)) as Hsk.
  { unfold slot. rewrite Hx. simpl. rewrite Hd, (bool_decide_false (x = 0)), (bool_decide_false (k < 12)%nat), (bool_decide_false (k = 140%nat)) by (done || lia). done. }
  unfold LOGSIZE, MAXOPBLOCKS in Hn30.
  eapply (fs_read s a L x d); try done; [by rewrite Hnl|lia|rewrite Hnl, map_size_empty; unfold NBUF, MAXOPBLOCKS; lia|].
  intros bp s1 Ho1 H1 _ Hrel. assert (a_locked (a_lock x bp a) !! x = Some bp) as Hl1 by apply lookup_insert_eq.
  eapply returns_eq; [eapply fs_bword_get; [exact H1|exact Hl1|exact Hd|lia]|]. rewrite <- Hsk.
  case_bool_decide as E.
  - destruct Hfr as [?|Hfr]; [done|].
    assert (map_ok (f_sb s1) (a_lock x bp a) m) as Hm1.
    { rewrite (only_log_sb _ _ Ho1). destruct Hm as [M1 M2 M3 M4]. split; try done; simpl.
      - rewrite lookup_insert_ne by lia. done.
      - intros b Hb Hbb. rewrite lookup_insert_ne by congruence. by apply M4. }
    apply returns_bind. eapply returns_step; [eapply (balloc_taken s1 (a_lock x bp a) L m H1 Hm1)|].
    + split_and!; rewrite ?(only_log_sb _ _ Ho1), ?(only_log_out _ _ Ho1); [lia| |done]. simpl. rewrite Hnl, insert_empty, map_size_singleton. unfold NBUF, MAXOPBLOCKS. lia.
    + by rewrite (only_log_sb _ _ Ho1).
    + intros r s2 (Hr & Hb & Ho2 & H2). rewrite (only_log_sb _ _ Ho1) in Hr, H2.
      assert (f_sb s2 = f_sb s) as Hsb2 by (by rewrite (only_log_sb _ _ Ho2), (only_log_sb _ _ Ho1)).
      change (taken (f_sb s) r m (a_lock x bp a)) with (a_lock x bp (taken (f_sb s) r m a)) in H2.
      assert (a_data (taken (f_sb s) r m a) !! Z.to_nat x = Some d) as Hd2 by (rewrite (taken_used s a L m r x); try done; lia).
      eapply returns_step; [eapply (fs_bword_set s2 _ _ x bp d (k - 12) r H2); [apply lookup_insert_eq|exact Hd2|exact Hok|lia|rewrite Hsb2; lia]|].
      intros _ s3 [Ho3 H3].
      eapply returns_step; [eapply (fs_log_write s3 _ _ x bp H3); [apply lookup_insert_eq|..]; rewrite ?(only_log_sb _ _ Ho3), ?Hsb2|].
      * lia.
      * unfold taken_log. pose proof (length_absorb r (absorb (sb_bmapstart (f_sb s)) L)). pose proof (length_absorb (sb_bmapstart (f_sb s)) L). lia.
      * by rewrite (only_log_out _ _ Ho3), (only_log_out _ _ Ho2), (only_log_out _ _ Ho1).
      * intros _ s4 [Ho4 H4]. apply returns_mret. eapply returns_step; [eapply (fs_brelse s4 _ _ x bp H4); [apply lookup_insert_eq|left; simpl; set_solver]|].
        intros _ s5 [Ho5 H5]. apply returns_mret.
        rewrite a_upd_steps in H5 by (simpl; by rewrite Hnl).
        assert (only_log s s5) as Ho by (by do 4 (etrans; [eassumption|])).
        assert (mapped (f_sb s) k 1 a L m (i_addrs i) r (a_upd x (set_word (k - 12) r d) (taken (f_sb s) r m a))
          (absorb x (taken_log (f_sb s) r L)) (set_bit r m) (i_addrs i)) as Hmp by (by apply mapped_entry).
        exists (a_upd x (set_word (k - 12) r d) (taken (f_sb s) r m a)), (absorb x (taken_log (f_sb s) r L)), (set_bit r m), (i_addrs i).
        rewrite set_iaddrs_id. split_and!; [|by apply only_log_inode|done|done].
        split; rewrite ?(only_log_sb _ _ Ho), ?(only_log_inodes _ _ Ho); try done; apply Hmp.
  - eapply returns_eq; [done|]. eapply returns_step; [exact Hrel|]. intros _ s2 [Ho2 H2]. apply returns_mret.
    apply bmap_post_same; try done. by left.
Qed.

Lemma bmap_spec s ip i a L m k :
  fview s ip i a L m → (k < 140)%nat → credit s (i_addrs i) L 1 →
  slot (a_data a) (i_addrs i) k ≠ 0 ∨ (need (i_addrs i) < nfree (f_sb s) m)%nat →
  returns (bmap ip (Z.of_nat k)) (bmap_post s ip i a L m k 1) s.
Proof.
  intros Hv Hk Hc Hfr. unfold bmap, NDIRECT, NINDIRECT. destruct (decide (k < 12)%nat) as [Hd|Hd].
  { rewrite bool_decide_true by lia. rewrite Nat2Z.id.
    assert (slot_of k = k ∧ inc_of k = 1%nat) as [E1 E2] by (unfold slot_of, inc_of; by rewrite bool_decide_false by lia).
    rewrite <- E1 at 2. rewrite <- E2. apply addr_or_alloc_spec; [done|lia|done|]. rewrite E1. destruct Hfr; [by left|right; lia]. }
  rewrite bool_decide_false, bool_decide_true by lia.
  replace (Z.to_nat (Z.of_nat k - Z.of_nat 12)) with (k - 12)%nat by lia.
  assert (slot_of 12 = 140%nat ∧ inc_of 12 = 0%nat) as [E1 E2] by done.
  eapply returns_step; [apply (addr_or_alloc_spec s ip i a L m 12 Hv ltac:(lia) Hc)|].
  { rewrite E1. unfold slot_of, need in *. rewrite slot_140. destruct (decide (default 0 (i_addrs i !! 12%nat) = 0)) as [E|E]; [right|by left].
    destruct Hfr as [Hfr|Hfr]; [|lia]. exfalso. apply Hfr. unfold slot.
    by rewrite !bool_decide_false, E by lia. }
  rewrite E1, E2. intros x s1 (a1 & L1 & m1 & A1 & Hv1 & Ho1 & Hm1 & Hsame1).
  eapply returns_eq; [apply iget_ip_run, Hv1|]. rewrite (fv_dev _ _ _ _ _ _ Hv1). pose proof (fv_rep _ _ _ _ _ _ Hv) as Hf.
  assert (default 0 (A1 !! 12%nat) = x) as Hx by (rewrite <- (slot_140 (a_data a1)); apply Hm1).
  assert (A1 !! 12%nat = Some x) as Hx12.
  { destruct (lookup_lt_is_Some_2 A1 12) as [y Hy]; [rewrite (ao_len _ _ _ _ (mp_addrs _ _ _ _ _ _ _ _ _ _ _ _ Hm1)); lia|]. by rewrite Hy in *; simpl in *; subst. }
  assert (x ≠ 0) as Hxn by apply Hm1.
  eapply returns_mono; [eapply (bmap_entry_spec s1 ip (set_iaddrs A1 i) a1 L1 m1 k x Hv1); try done; [lia| |]|].
  - simpl. destruct Hc as [Hc Hout]. split; rewrite (only_inode_sb _ _ _ _ Ho1) || rewrite (only_inode_out _ _ _ _ Ho1); [|done].
    pose proof (mp_cost' _ _ _ _ _ _ _ _ _ _ _ _ Hm1). lia.
  - simpl. rewrite (mp_slots _ _ _ _ _ _ _ _ _ _ _ _ Hm1 k) by lia. destruct Hfr as [Hfr|Hfr]; [by left|right].
    rewrite (only_inode_sb _ _ _ _ Ho1). pose proof (mp_free _ _ _ _ _ _ _ _ _ _ _ _ Hm1) as Hmf.
    unfold need at 1 in Hmf. rewrite Hx, (bool_decide_false (x = 0)) in Hmf by done. lia.
  - intros r s2 (a2 & L2 & m2 & A2 & Hv2 & Ho2 & Hm2 & Hsame). simpl in *. rewrite (only_inode_sb _ _ _ _ Ho1) in Hm2.
    exists a2, L2, m2, A2. split_and!; [exact Hv2|by eapply only_inode_trans| |].
    + eapply mapped_via; try done; [apply Hv..|lia].
    + intros Hne. assert (slot (a_data a) (i_addrs i) 140 ≠ 0) as H140.
      { intros E. apply Hne. unfold slot in *. rewrite slot_140 in E || simpl in E. by rewrite E, !bool_decide_false by lia. }
      destruct (Hsame1 H140) as (-> & -> & -> & ->). by apply Hsame.
Qed.

(** A block that is there is found without a transaction. *)
Lemma bmap_found s ip i a L m k :
  fview s ip i a L m → (k < 140)%nat → (length L < NBUF)%nat → slot (a_data a) (i_addrs i) k ≠ 0 →
  returns (bmap ip (Z.of_nat k)) (λ r s', r = slot (a_data a) (i_addrs i) k ∧ only_log s s' ∧ fsrep s' a L) s.
Proof.
  intros [Hf Hi Hdev Hm Ha Hnl] Hk HL Hne. unfold bmap, NDIRECT, NINDIRECT.
  assert (∀ j v, i_addrs i !! j = Some v → v ≠ 0 → addr_or_alloc ip j s = Ret v s []) as Haa.
  { intros j v Hj Hv. unfold addr_or_alloc. mstep (iget_ip_run s ip i Hi). mstep (iaddr_get_run s ip i j v Hi Hj). by rewrite bool_decide_false. }
  assert (∀ j, (j < 13)%nat → ∃ v, i_addrs i !! j = Some v) as Hex.
  { intros j Hj. destruct (lookup_lt_is_Some_2 (i_addrs i) j) as [v Hv]; [rewrite (ao_len _ _ _ _ Ha); lia|]. by exists v. }
  destruct (decide (k < 12)%nat) as [Hd|Hd].
  { rewrite bool_decide_true by lia. rewrite Nat2Z.id. destruct (Hex k ltac:(lia)) as [v Hv].
    unfold slot in *. rewrite bool_decide_true, Hv in * by lia. simpl in *.
    eapply returns_run; [by apply Haa|done|]. done. }
  rewrite bool_decide_false, bool_decide_true by lia.
  replace (Z.to_nat (Z.of_nat k - Z.of_nat 12)) with (k - 12)%nat by lia.
  destruct (Hex 12%nat ltac:(lia)) as [x Hx].
  assert (x ≠ 0 ∧ ∃ d, a_data a !! Z.to_nat x = Some d ∧ slot (a_data a) (i_addrs i) k = word d (k - 12)) as (Hxn & d & Hd' & Hsl).
  { unfold slot in *. rewrite bool_decide_false, bool_decide_false, Hx in * by lia. simpl in *.
    destruct (decide (x = 0)) as [->|]; [done|]. rewrite bool_decide_false in * by done. destruct (a_data a !! Z.to_nat x) as [d|]; [|done].
    split; [done|]. by exists d. }
  eapply returns_eq; [by eapply Haa|]. eapply returns_eq; [by apply iget_ip_run|]. rewrite Hdev.
  assert (slot (a_data a) (i_addrs i) 140 = x) as Hx140 by (by rewrite slot_140, Hx).
  destruct (ao_in _ _ _ _ Ha 140 ltac:(lia)) as [Hxr Hxb]; [congruence|]. rewrite Hx140 in Hxr. pose proof (map_start s a L Hf).
  eapply (fs_read s a L x d); try done; [by rewrite Hnl|lia|rewrite Hnl, map_size_empty; lia|].
  intros bp s1 Ho1 H1 _ Hrel.
  destruct (fs_block s a L x Hf ltac:(lia)) as (d' & Hd2 & [Hld _]). assert (d' = d) as -> by congruence.
  eapply returns_eq; [eapply fs_bword_get; [exact H1|apply lookup_insert_eq|exact Hd'|lia]|]. rewrite <- Hsl, bool_decide_false by done.
  eapply returns_eq; [done|]. eapply returns_step; [exact Hrel|]. intros _ s2 [Ho2 H2]. by apply returns_mret.
Qed.

(** * The bytes of a file *)

Definition fbyte (D : list (list Z)) (A : list Z) (p : Z) : Z :=
  default 0 (D !! Z.to_nat (slot D A (Z.to_nat (p / BSIZE))) ≫= λ d, d !! Z.to_nat (p mod BSIZE)).
Definition file_bytes (D : list (list Z)) (A : list Z) (off n : Z) : list Z := fbyte D A <$> seqZ off n.

(** Every block below the size is there. *)
Definition full (D : list (list Z)) (A : list Z) (size : Z) : Prop :=
  ∀ k, Z.of_nat k * BSIZE < size → slot D A k ≠ 0.

Lemma file_bytes_app D A off m n : 0 ≤ m → 0 ≤ n → file_bytes D A off (m + n) = file_bytes D A off m ++ file_bytes D A (off + m) n.
Proof. intros. unfold file_bytes. by rewrite seqZ_app, fmap_app. Qed.
Lemma length_file_bytes D A off n : length (file_bytes D A off n) = Z.to_nat n.
Proof. unfold file_bytes. by rewrite length_fmap, length_seqZ. Qed.

(** A part of one block. *)
Lemma file_bytes_slice D A off m d :
  0 ≤ off → 0 ≤ m → off mod BSIZE + m ≤ BSIZE → length d = 512%nat → D !! Z.to_nat (slot D A (Z.to_nat (off / BSIZE))) = Some d →
  slice d (Z.to_nat (off mod BSIZE)) (Z.to_nat m) = file_bytes D A off m.
Proof.
  intros Ho Hm Hfit Hl Hd. unfold BSIZE in *. pose proof (Z.mod_pos_bound off 512 ltac:(lia)).
  apply list_eq. intros j. rewrite lookup_slice. unfold file_bytes. rewrite list_lookup_fmap.
  case_bool_decide as Hj.
  - rewrite lookup_seqZ_lt by lia. simpl. unfold fbyte, BSIZE.
    assert ((off + Z.of_nat j) / 512 = off / 512 ∧ (off + Z.of_nat j) mod 512 = off mod 512 + Z.of_nat j) as [E1 E2]
      by (Z.div_mod_to_equations; lia).
    rewrite E1, E2, Hd. simpl. replace (Z.to_nat (off mod 512 + Z.of_nat j)) with (Z.to_nat (off mod 512) + j)%nat by lia.
    destruct (lookup_lt_is_Some_2 d (Z.to_nat (off mod 512) + j)) as [c Hc]; [lia|]. by rewrite Hc.
  - by rewrite lookup_seqZ_ge by lia.
Qed.

(** Blocks touched by [n] bytes at [off]. *)
Definition span (off n : Z) : Z := if bool_decide (n ≤ 0) then 0 else (off mod BSIZE + n + 511) / BSIZE.

Lemma span_step off n m :
  0 ≤ off → 0 < n → m = Fs.min n (BSIZE - off mod BSIZE) → 0 < m ≤ n ∧ off mod BSIZE + m ≤ BSIZE ∧ span (off + m) (n - m) + 1 = span off n.
Proof.
  intros Ho Hn ->. unfold Fs.min, span, BSIZE. repeat case_bool_decide; Z.div_mod_to_equations; lia.
Qed.

Lemma readi_loop_spec fuel s ip i a L m off n tot out :
  fview s ip i a L m → (length L < NBUF)%nat → full (a_data a) (i_addrs i) (off + (n - tot)) → 0 ≤ off → 0 ≤ tot ≤ n →
  off + (n - tot) ≤ MAXFILE * BSIZE → span off (n - tot) < Z.of_nat fuel →
  returns (readi_loop fuel ip off n tot out)
    (λ r s', r = out ++ file_bytes (a_data a) (i_addrs i) off (n - tot) ∧ only_log s s' ∧ fsrep s' a L) s.
Proof.
  revert s off tot out. induction fuel as [|fuel IH]; intros s off tot out Hv HL Hfull Ho Ht Hmax Hfuel.
  { exfalso. unfold span, BSIZE in *. case_bool_decide; Z.div_mod_to_equations; lia. }
  cbn [readi_loop]. pose proof Hv as [Hf Hi Hdev Hm Ha Hnl]. case_bool_decide as Hlt.
  2: { replace (n - tot) with 0 by lia. apply returns_mret. unfold file_bytes. rewrite seqZ_nil, app_nil_r by lia. done. }
  eapply returns_eq; [by apply iget_ip_run|].
  remember (Fs.min (n - tot) (BSIZE - off mod BSIZE)) as mm eqn:Emm.
  destruct (span_step off (n - tot) mm Ho ltac:(lia) Emm) as (Hmm & Hfit & Hspan).
  set (k := Z.to_nat (off / BSIZE)).
  assert (off / BSIZE = Z.of_nat k ∧ (k < 140)%nat ∧ Z.of_nat k * BSIZE < off + (n - tot)) as (Hk & Hk140 & Hks).
  { unfold k, MAXFILE, BSIZE in *. Z.div_mod_to_equations. lia. }
  rewrite Hk. eapply returns_step; [apply (bmap_found s ip i a L m k Hv Hk140 HL); by apply Hfull|].
  intros b s1 (-> & Ho1 & H1). assert (fview s1 ip i a L m) as Hv1 by (by eapply fview_only_log).
  destruct (ao_in _ _ _ _ Ha k ltac:(lia) (Hfull k Hks)) as [Hbr _]. pose proof (map_start s a L Hf).
  rewrite Hdev. destruct (fs_block s a L (slot (a_data a) (i_addrs i) k) Hf ltac:(lia)) as (d & Hd & [Hld _]).
  eapply (fs_read s1 a L _ d); try done; [by rewrite Hnl|rewrite (only_log_sb _ _ Ho1); lia|rewrite Hnl, map_size_empty; lia|].
  intros bp s2 Ho2 H2 Hget Hrel. eapply returns_eq; [exact Hget|]. eapply returns_step; [exact Hrel|]. intros _ s3 [Ho3 H3].
  assert (only_log s s3) as Ho13 by (by etrans).
  eapply returns_mono; [apply (IH s3 (off + mm) (tot + mm))|].
  - by eapply fview_only_log.
  - done.
  - intros k' Hk'. apply Hfull. lia.
  - lia.
  - lia.
  - lia.
  - replace (n - (tot + mm)) with (n - tot - mm) by lia. lia.
  - intros r s4 (-> & Ho4 & H4). split_and!; [|by etrans|done].
    rewrite (file_bytes_slice (a_data a) (i_addrs i) off mm d); try done; [|lia].
    rewrite <- (assoc_L (++)). f_equal. replace (n - tot) with (mm + (n - (tot + mm))) by lia. rewrite file_bytes_app by lia. done.
Qed.

(** [readi] of a file that is not a device. *)
Lemma readi_spec s ip i a L m off n :
  fview s ip i a L m → (length L < NBUF)%nat → i_type i ≠ T_DEV → full (a_data a) (i_addrs i) (i_size i) →
  0 ≤ i_size i ≤ MAXFILE * BSIZE → 0 ≤ off → 0 ≤ n → off + n < 4294967296 →
  returns (readi ip off n)
    (λ r s', r = (if bool_decide (i_size i < off) then (-1, [])
                  else let n' := Z.min n (i_size i - off) in (n', file_bytes (a_data a) (i_addrs i) off n')) ∧
       only_log s s' ∧ fsrep s' a L) s.
Proof.
  intros Hv HL Ht Hfull Hsz Ho Hn Hov. pose proof Hv as [Hf Hi _ _ _ _]. unfold readi.
  eapply returns_eq; [by apply iget_ip_run|]. rewrite (bool_decide_false (i_type i = T_DEV)) by done.
  rewrite u32_small by lia. rewrite (bool_decide_false (off + n < off)) by lia. rewrite orb_false_r.
  destruct (decide (i_size i < off)) as [Hs|Hs].
  { rewrite !(bool_decide_true (i_size i < off)) by done. apply returns_mret. done. }
  rewrite !(bool_decide_false (i_size i < off)) by done.
  set (n' := if bool_decide (i_size i < off + n) then i_size i - off else n).
  assert (n' = Z.min n (i_size i - off)) as En by (unfold n'; case_bool_decide; lia). rewrite En. clear n' En.
  set (n' := Z.min n (i_size i - off)). assert (0 ≤ n' ∧ off + n' ≤ i_size i) as [Hn' Hon] by (unfold n'; lia).
  eapply returns_step; [apply (readi_loop_spec _ s ip i a L m off n' 0 []); try done; rewrite ?Z.sub_0_r; try lia|].
  - intros k Hk. apply Hfull. lia.
  - unfold span, BSIZE. case_bool_decide; Z.div_mod_to_equations; lia.
  - intros out s1 (-> & Ho1 & H1). apply returns_mret. rewrite Z.sub_0_r, app_nil_l.
    split_and!; [|done|done]. f_equal. apply i32_small. unfold MAXFILE, BSIZE in *. lia.
Qed.

(** ** Writing *)

(** [bytes] were written at [off]; [c] counts the blocks. *)
Record written (sb : superblock) (off : Z) (bytes : list Z) (c : nat)
  (a : acache) (L m A : list Z) (a' : acache) (L' m' A' : list Z) : Prop := Written {
  wr_in p : off ≤ p < off + Z.of_nat (length bytes) → fbyte (a_data a') A' p = default 0 (bytes !! Z.to_nat (p - off));
  wr_out p : 0 ≤ p < MAXFILE * BSIZE → ¬ (off ≤ p < off + Z.of_nat (length bytes)) →
    slot (a_data a) A (Z.to_nat (p / BSIZE)) ≠ 0 → fbyte (a_data a') A' p = fbyte (a_data a) A p;
  wr_slots j : (j ≤ 140)%nat → slot (a_data a) A j ≠ 0 → slot (a_data a') A' j = slot (a_data a) A j;
  wr_have j : (j < 140)%nat → Z.of_nat j * BSIZE < off + Z.of_nat (length bytes) → off < (Z.of_nat j + 1) * BSIZE →
    (0 < length bytes)%nat → slot (a_data a') A' j ≠ 0;
  wr_frame x : 0 ≤ x < sb_size sb → bit m x = true → x ≠ sb_bmapstart sb →
    (∀ k, (k ≤ 140)%nat → x ≠ 0 → slot (a_data a') A' k ≠ x) → a_data a' !! Z.to_nat x = a_data a !! Z.to_nat x;
  wr_bits x : 0 ≤ x < sb_size sb → bit m x = true → bit m' x = true;
  wr_new j : (j ≤ 140)%nat → slot (a_data a') A' j ≠ 0 →
    slot (a_data a') A' j = slot (a_data a) A j ∨ bit m (slot (a_data a') A' j) = false;
  wr_sameA : (∀ j, Z.of_nat j * BSIZE < off + Z.of_nat (length bytes) → off < (Z.of_nat j + 1) * BSIZE → slot (a_data a) A j ≠ 0) → A' = A;
  wr_cost : (cost sb A' L' ≤ c + cost sb A L)%nat;
  wr_free : (nfree sb m + need A' ≤ c + nfree sb m' + need A)%nat
}.

Lemma written_nil sb off a L m A : written sb off [] 0 a L m A a L m A.
Proof. split; try done; simpl; intros; (by left) || lia. Qed.

Lemma written_app sb off b1 b2 c1 c2 a L m A a1 L1 m1 A1 a2 L2 m2 A2 :
  0 ≤ off → off + Z.of_nat (length b1 + length b2) ≤ MAXFILE * BSIZE → 0 ≤ sb_bmapstart sb → addrs_ok sb (a_data a2) m2 A2 →
  written sb off b1 c1 a L m A a1 L1 m1 A1 → written sb (off + Z.of_nat (length b1)) b2 c2 a1 L1 m1 A1 a2 L2 m2 A2 →
  written sb off (b1 ++ b2) (c1 + c2) a L m A a2 L2 m2 A2.
Proof.
  intros Ho Hmax Hbm Ha2 [I1 O1 S1 H1 F1 B1 W1 Q1 C1 N1] [I2 O2 S2 H2 F2 B2 W2 Q2 C2 N2]. unfold MAXFILE, BSIZE in *. split; rewrite ?length_app; unfold MAXFILE, BSIZE.
  - intros p Hp. destruct (decide (p < off + Z.of_nat (length b1))).
    + rewrite O2; [|lia|lia|].
      * rewrite I1 by lia. by rewrite lookup_app_l by lia.
      * apply H1; [Z.div_mod_to_equations; lia..|lia].
    + rewrite I2 by lia. rewrite lookup_app_r by lia. do 2 f_equal. lia.
  - intros p Hp Hn Hs. rewrite O2; [apply O1; [lia|lia|done]|lia|lia|].
    rewrite S1; [done|Z.div_mod_to_equations; lia|done].
  - intros j Hj Hs. rewrite S2; [by apply S1|done|by rewrite S1].
  - intros j Hj Hlt Hgt Hpos. destruct (decide (off + Z.of_nat (length b1) < (Z.of_nat j + 1) * 512 ∧ (0 < length b2)%nat)) as [[? ?]|Hno].
    + apply H2; lia.
    + assert (slot (a_data a1) A1 j ≠ 0) as E by (apply H1; lia). by rewrite S2 by (done || lia).
  - intros x Hx Hb Hne Hf. rewrite F2; [|done|by apply B1|done|done]. apply F1; try done. intros k Hk Hx0 E.
    apply (Hf k Hk Hx0). rewrite S2; [done|done|congruence].
  - naive_solver.
  - intros j Hj Hne'. destruct (W2 j Hj Hne') as [E|E].
    + rewrite E in *. by apply W1.
    + right. destruct (ao_in _ _ _ _ Ha2 j Hj Hne') as [Hr _].
      destruct (bit m (slot (a_data a2) A2 j)) eqn:Eb; [|done]. rewrite B1 in E by (done || lia). done.
  - intros Hs. transitivity A1; [apply Q2|apply Q1]; intros j Hj1 Hj2; [|apply Hs; lia].
    rewrite S1; [apply Hs; lia|lia|apply Hs; lia].
  - lia.
  - lia.
Qed.

(** One block: found by [bmap], then rewritten. *)
Lemma written_block s a L m A k r a1 L1 m1 A1 off bytes d1 :
  fsrep s a L → addrs_ok (f_sb s) (a_data a) m A → mapped (f_sb s) k 1 a L m A r a1 L1 m1 A1 →
  0 ≤ off → k = Z.to_nat (off / BSIZE) → (k < 140)%nat → (0 < length bytes)%nat → off mod BSIZE + Z.of_nat (length bytes) ≤ BSIZE →
  a_data a1 !! Z.to_nat r = Some d1 → length d1 = 512%nat → length (a_data a1) = length (a_data a) →
  let a2 := a_upd r (splice d1 (Z.to_nat (off mod BSIZE)) bytes) a1 in
  map_ok (f_sb s) a2 m1 ∧ addrs_ok (f_sb s) (a_data a2) m1 A1 ∧
  written (f_sb s) off bytes 1 a L m A a2 (absorb r L1) m1 A1.
Proof.
  intros Hf Ha Hmp Ho Hk Hk140 Hpos Hfit Hd1 Hl1 Hlen a2. pose proof (map_start s a L Hf) as Hst.
  destruct Hmp as [P1 [M1 M2 M3 M4] [A1l A1i A1j] P4 P5 P6 P7 P8 P9 P10 P11 Pnew PA P12 P13 P14].
  destruct (A1i k ltac:(lia)) as [Hr Hrb]; [congruence|]. rewrite P4 in Hr, Hrb. unfold BSIZE in *.
  pose proof (Z.mod_pos_bound off 512 ltac:(lia)) as Hom.
  assert (∀ x, 0 ≤ x → x ≠ r → a_data a2 !! Z.to_nat x = a_data a1 !! Z.to_nat x) as Hoff.
  { intros x Hx Hne. unfold a2, a_upd. simpl. rewrite list_lookup_insert_ne by lia. done. }
  assert (∀ j, slot (a_data a2) A1 j = slot (a_data a1) A1 j) as Hsl.
  { intros j. apply slot_ext. rewrite <- (slot_140 (a_data a1)). destruct (decide (slot (a_data a1) A1 140 = 0)) as [E|E].
    - rewrite E. apply Hoff; lia.
    - destruct (A1i 140%nat ltac:(lia) E) as [? _]. apply Hoff; [lia|]. intros E'.
      rewrite <- P4 in E'. apply A1j in E'; [lia|lia|lia|done]. }
  assert (∀ j, (j < 140)%nat → j ≠ k → slot (a_data a) A j ≠ 0 → a_data a2 !! Z.to_nat (slot (a_data a) A j) = a_data a !! Z.to_nat (slot (a_data a) A j)) as Hother.
  { intros j Hj Hjk Hne. destruct (ao_in _ _ _ _ Ha j ltac:(lia) Hne) as [Hr' Hb']. rewrite Hoff; [|lia|].
    - apply P10; try done; [lia|lia|]. rewrite <- P7 by done. intros _ E. apply A1j in E; [lia|lia|lia|by rewrite P7].
    - rewrite <- P7, <- P4 by done. intros E. apply A1j in E; [done|lia|lia|by rewrite P7]. }
  split_and!.
  - split; try done. rewrite Hoff; [done|lia|lia].
  - split; [done| |].
    + intros j Hj. rewrite Hsl. by apply A1i.
    + intros j1 j2 Hj1 Hj2. rewrite !Hsl. by apply A1j.
  - assert (a_data a2 !! Z.to_nat r = Some (splice d1 (Z.to_nat (off mod 512)) bytes)) as Hr2.
    { unfold a2, a_upd. simpl. apply list_lookup_insert_eq. by eapply lookup_lt_Some. }
    assert (∀ p, Z.to_nat (p / 512) = k → 0 ≤ p → fbyte (a_data a2) A1 p =
      default 0 (if bool_decide (Z.to_nat (off mod 512) ≤ Z.to_nat (p mod 512) < Z.to_nat (off mod 512) + length bytes)%nat
                 then bytes !! (Z.to_nat (p mod 512) - Z.to_nat (off mod 512))%nat else d1 !! Z.to_nat (p mod 512))) as Hfb.
    { intros p Hp H0. unfold fbyte, BSIZE. rewrite Hsl, Hp, P4, Hr2. simpl. rewrite lookup_splice by lia. done. }
    split; simpl.
    + intros p Hp. rewrite Hfb; [|Z.div_mod_to_equations; lia|lia].
      assert (p mod 512 = off mod 512 + (p - off)) as E by (Z.div_mod_to_equations; lia).
      rewrite bool_decide_true by lia. do 2 f_equal. lia.
    + intros p Hp Hn Hne. unfold MAXFILE, BSIZE in *. destruct (decide (Z.to_nat (p / 512) = k)) as [E|E].
      * rewrite Hfb by lia. rewrite bool_decide_false by (Z.div_mod_to_equations; lia). unfold fbyte, BSIZE. rewrite E in *.
        rewrite P9, (bool_decide_false (slot (a_data a) A k = 0)) in Hd1 by done. by rewrite P6, Hd1 by done.
      * unfold fbyte, BSIZE. rewrite Hsl, P7, Hother by (done || (Z.div_mod_to_equations; lia)). done.
    + intros j Hj Hne. fold a2. rewrite Hsl. destruct (decide (j = 140%nat)) as [->|]; [by apply P8|].
      destruct (decide (j = k)) as [->|]; [rewrite P4; symmetry; by apply P6|]. apply P7; lia.
    + intros j Hj Hlt Hgt _. unfold BSIZE in *. fold a2. rewrite Hsl. assert (j = k) as -> by (Z.div_mod_to_equations; lia). congruence.
    + intros x Hx Hb Hne Hnf. fold a2 in Hnf |- *. rewrite Hoff; [|lia|].
      * apply P10; try done. intros Hx0 E. apply (Hnf 140%nat ltac:(lia) Hx0). by rewrite Hsl.
      * intros ->. apply (Hnf k ltac:(lia) ltac:(lia)). by rewrite Hsl.
    + done.
    + intros j Hj. fold a2. rewrite Hsl. by apply Pnew.
    + intros Hs. apply PA, Hs; subst k; unfold BSIZE; Z.div_mod_to_equations; lia.
    + lia.
    + lia.
Qed.

Lemma slice_app l off m n : (off + m ≤ length l)%nat → slice l off (m + n) = slice l off m ++ slice l (off + m) n.
Proof.
  intros H. unfold slice. rewrite <- (take_drop m (take (m + n) (drop off l))). f_equal.
  - rewrite take_take. f_equal. lia.
  - by rewrite <- take_drop_commute, drop_drop.
Qed.

(** Enough free blocks, or none is needed. *)
Definition supply (s : fstate) (a : acache) (m A : list Z) (off n : Z) : Prop :=
  (∀ j, Z.of_nat j * BSIZE < off + n → off < (Z.of_nat j + 1) * BSIZE → slot (a_data a) A j ≠ 0) ∨
  Z.of_nat (need A) + span off n ≤ Z.of_nat (nfree (f_sb s) m).

Lemma writei_step s ip i a L m off bytes :
  fview s ip i a L m → 0 ≤ off → off + Z.of_nat (length bytes) ≤ MAXFILE * BSIZE → (0 < length bytes)%nat → Forall byte bytes →
  off mod BSIZE + Z.of_nat (length bytes) ≤ BSIZE → credit s (i_addrs i) L 1 →
  slot (a_data a) (i_addrs i) (Z.to_nat (off / BSIZE)) ≠ 0 ∨ (need (i_addrs i) < nfree (f_sb s) m)%nat →
  returns (b ← bmap ip (off / BSIZE);
           bp ← on_disk (bread 1 b);
           d ← on_disk (bdata_get bp);
           on_disk (bdata_set bp (splice d (Z.to_nat (off mod BSIZE)) bytes));;
           on_log (log_write bp);;
           on_disk (brelse bp))
    (λ _ s', ∃ a' L' m' A', fview s' ip (set_iaddrs A' i) a' L' m' ∧ only_inode ip (set_iaddrs A' i) s s' ∧
       written (f_sb s) off bytes 1 a L m (i_addrs i) a' L' m' A') s.
Proof.
  intros Hv Ho Hmax Hpos Hbytes Hfit Hc Hfr. pose proof Hv as [Hf Hi Hdev Hm Ha Hnl]. pose proof (map_start s a L Hf) as Hst.
  set (k := Z.to_nat (off / BSIZE)) in *. assert (off / BSIZE = Z.of_nat k ∧ (k < 140)%nat) as [Hk Hk140].
  { unfold k, MAXFILE, BSIZE in *. Z.div_mod_to_equations. lia. }
  rewrite Hk. eapply returns_step; [by apply (bmap_spec s ip i a L m k)|].
  intros r s1 (a1 & L1 & m1 & A1 & Hv1 & Ho1 & Hmp & _). pose proof Hv1 as [Hf1 Hi1 _ Hm1 Ha1 Hnl1].
  rewrite (only_inode_sb _ _ _ _ Ho1) in Hm1, Ha1. simpl in Ha1.
  pose proof (mp_slot _ _ _ _ _ _ _ _ _ _ _ _ Hmp) as Hsl. pose proof (mp_r _ _ _ _ _ _ _ _ _ _ _ _ Hmp) as Hrn.
  destruct (ao_in _ _ _ _ Ha1 k ltac:(lia)) as [Hr _]; [congruence|]. rewrite Hsl in Hr.
  pose proof (only_inode_sb _ _ _ _ Ho1) as Hsb1.
  destruct (fs_block s1 a1 L1 r Hf1) as (d1 & Hd1 & Hok1); [rewrite Hsb1; lia|]. pose proof Hok1 as [Hld1 Hbd1].
  destruct Hc as [Hc Hout]. pose proof (mp_cost' _ _ _ _ _ _ _ _ _ _ _ _ Hmp) as Hc1. pose proof (length_cost (f_sb s) A1 L1) as Hlc.
  destruct (ly_nlog _ (fr_layout _ _ _ Hf)) as [_ Hn30]. unfold LOGSIZE, MAXOPBLOCKS in Hn30.
  pose proof (Z.mod_pos_bound off BSIZE ltac:(done)) as Hom.
  eapply (fs_read s1 a1 L1 r d1); try done; [by rewrite Hnl1|rewrite Hsb1; lia|rewrite Hnl1, map_size_empty; unfold NBUF, MAXOPBLOCKS; lia|].
  intros bp s2 Ho2 H2 Hget _. eapply returns_eq; [exact Hget|].
  eapply returns_mono; [apply (fs_rewrite s1 s2 a1 L1 r bp); try done|].
  - by rewrite Hnl1.
  - rewrite Hsb1. lia.
  - split_and!; [rewrite Hsb1; lia|rewrite Hnl1, map_size_empty; unfold NBUF, MAXOPBLOCKS; lia|].
    by rewrite (only_inode_out _ _ _ _ Ho1).
  - split; [rewrite length_splice by (unfold BSIZE in *; lia); done|by apply Forall_splice].
  - intros _ s3 [Ho3 H3].
    assert (length (a_data a1) = length (a_data a)) as Hlen.
    { apply Nat2Z.inj. rewrite (data_len s1 a1 L1 Hf1), (data_len s a L Hf). by rewrite Hsb1. }
    destruct (written_block s a L m (i_addrs i) k r a1 L1 m1 A1 off bytes d1 Hf Ha Hmp Ho eq_refl Hk140 Hpos Hfit Hd1 Hld1 Hlen) as (W1 & W2 & W3).
    exists (a_upd r (splice d1 (Z.to_nat (off mod BSIZE)) bytes) a1), (absorb r L1), m1, A1. split_and!; [| |done].
    + split; rewrite ?(only_log_sb _ _ Ho3), ?(only_log_inodes _ _ Ho3), ?Hsb1; done.
    + eapply only_inode_trans; [exact Ho1|]. by apply only_log_inode.
Qed.

Lemma bind_assoc5 {S A B C X Y} (m1 : M S A) (m2 : A → M S B) (m3 : B → M S C) (m4 m5 : B → C → M S unit) (m6 : B → M S X) (k : M S Y) s :
  (b ← m1; bp ← m2 b; d ← m3 bp; m4 bp d;; m5 bp d;; m6 bp;; k) s =
  ((b ← m1; bp ← m2 b; d ← m3 bp; m4 bp d;; m5 bp d;; m6 bp);; k) s.
Proof.
  unfold mbind, M_bind. destruct (m1 s) as [v1 s1 t1| | | |]; try done. destruct (m2 v1 s1) as [v2 s2 t2| | | |]; simpl; try done.
  destruct (m3 v2 s2) as [v3 s3 t3| | | |]; simpl; try done. destruct (m4 v2 v3 s3) as [v4 s4 t4| | | |]; simpl; try done.
  destruct (m5 v2 v3 s4) as [v5 s5 t5| | | |]; simpl; try done. destruct (m6 v2 s5) as [v6 s6 t6| | | |]; simpl; try done.
  all: by rewrite ?prepend_prepend, ?(assoc_L (++)).
Qed.

Lemma writei_loop_spec fuel s ip i a L m src off n tot :
  fview s ip i a L m → Forall byte src → 0 ≤ off → 0 ≤ tot ≤ n → n ≤ Z.of_nat (length src) →
  off + (n - tot) ≤ MAXFILE * BSIZE → span off (n - tot) < Z.of_nat fuel →
  credit s (i_addrs i) L (Z.to_nat (span off (n - tot))) → supply s a m (i_addrs i) off (n - tot) →
  returns (writei_loop fuel ip src off n tot)
    (λ r s', r = off + (n - tot) ∧ ∃ a' L' m' A', fview s' ip (set_iaddrs A' i) a' L' m' ∧ only_inode ip (set_iaddrs A' i) s s' ∧
       written (f_sb s) off (slice src (Z.to_nat tot) (Z.to_nat (n - tot))) (Z.to_nat (span off (n - tot))) a L m (i_addrs i) a' L' m' A') s.
Proof.
  revert s i a L m off tot. induction fuel as [|fuel IH]; intros s i a L m off tot Hv Hsrc Ho Ht Hn Hmax Hfuel Hc Hsup.
  { exfalso. unfold span, BSIZE in *. case_bool_decide; Z.div_mod_to_equations; lia. }
  cbn [writei_loop]. case_bool_decide as Hlt.
  2: { replace (n - tot) with 0 by lia. apply returns_mret. split; [lia|]. exists a, L, m, (i_addrs i).
       rewrite set_iaddrs_id. split_and!; [done|apply only_log_inode; [done|apply Hv]|]. apply written_nil. }
  eapply returns_eq; [apply iget_ip_run, Hv|]. rewrite (fv_dev _ _ _ _ _ _ Hv).
  remember (Fs.min (n - tot) (BSIZE - off mod BSIZE)) as mm eqn:Emm.
  destruct (span_step off (n - tot) mm Ho ltac:(lia) Emm) as (Hmm & Hfit & Hspan).
  assert (0 ≤ span (off + mm) (n - tot - mm)) as Hsp0 by (unfold span, BSIZE; case_bool_decide; [lia|Z.div_mod_to_equations; lia]).
  set (bytes := slice src (Z.to_nat tot) (Z.to_nat mm)).
  assert (length bytes = Z.to_nat mm) as Hlb by (apply length_slice; lia).
  unfold returns, wp. rewrite (bind_assoc5 (bmap ip (off / BSIZE)) (λ b, on_disk (bread 1 b)) (λ bp, on_disk (bdata_get bp))
    (λ bp d, on_disk (bdata_set bp (splice d (Z.to_nat (off mod BSIZE)) bytes))) (λ bp _, on_log (log_write bp)) (λ bp, on_disk (brelse bp))).
  eapply returns_step; [apply (writei_step s ip i a L m off bytes); try done; rewrite ?Hlb; try lia|].
  - by apply Forall_slice.
  - destruct Hc as [Hc Hout]. split; [lia|done].
  - destruct Hsup as [Hsup|Hsup]; [left; apply Hsup; unfold BSIZE; Z.div_mod_to_equations; lia|right; lia].
  - intros _ s1 (a1 & L1 & m1 & A1 & Hv1 & Ho1 & W1). pose proof (only_inode_sb _ _ _ _ Ho1) as Hsb1.
    assert (n - (tot + mm) = n - tot - mm) as En by lia.
    eapply returns_mono; [apply (IH s1 (set_iaddrs A1 i) a1 L1 m1 (off + mm) (tot + mm)); try done; rewrite ?En; try lia|].
    + destruct Hc as [Hc Hout]. split; [rewrite Hsb1; simpl; pose proof (wr_cost _ _ _ _ _ _ _ _ _ _ _ _ W1); lia|].
      by rewrite (only_inode_out _ _ _ _ Ho1).
    + destruct Hsup as [Hsup|Hsup]; [left|right].
      * intros j Hj1 Hj2. simpl. unfold MAXFILE, BSIZE in *. assert (slot (a_data a) (i_addrs i) j ≠ 0) by (apply Hsup; lia).
        rewrite (wr_slots _ _ _ _ _ _ _ _ _ _ _ _ W1); [done|lia|done].
      * rewrite Hsb1. simpl. pose proof (wr_free _ _ _ _ _ _ _ _ _ _ _ _ W1). lia.
    + intros r s2 (-> & a2 & L2 & m2 & A2 & Hv2 & Ho2 & W2). split; [lia|]. simpl in *. rewrite Hsb1 in W2.
      exists a2, L2, m2, A2. split_and!; [exact Hv2|by eapply only_inode_trans|].
      replace (Z.to_nat (n - tot)) with (Z.to_nat mm + Z.to_nat (n - (tot + mm)))%nat by lia.
      rewrite slice_app by lia. fold bytes.
      replace (Z.to_nat tot + Z.to_nat mm)%nat with (Z.to_nat (tot + mm)) by lia.
      replace (Z.to_nat (span off (n - tot))) with (1 + Z.to_nat (span (off + mm) (n - tot - mm)))%nat by lia.
      eapply written_app; [done|rewrite Hlb, length_slice; lia| | |exact W1|].
      { pose proof (map_start s a L (fv_rep _ _ _ _ _ _ Hv)). lia. }
      { rewrite <- Hsb1, <- (only_inode_sb _ _ _ _ Ho2). apply Hv2. }
      rewrite Hlb, Z2Nat.id by lia. rewrite <- En. exact W2.
Qed.

(** * Inodes on disk *)

(** The fields of an inode are in the range of their C types. *)
Record inode_ok (i : inode) : Prop := InodeOk {
  io_type : -32768 ≤ i_type i < 32768;
  io_major : -32768 ≤ i_major i < 32768;
  io_minor : -32768 ≤ i_minor i < 32768;
  io_nlink : -32768 ≤ i_nlink i < 32768;
  io_size : 0 ≤ i_size i < 4294967296;
  io_len : length (i_addrs i) = 13%nat;
  io_addrs : Forall (λ x, 0 ≤ x < 4294967296) (i_addrs i)
}.

Lemma i16_u16 x : -32768 ≤ x < 32768 → i16 (u16 x) = x.
Proof. intros. unfold i16, u16. Z.div_mod_to_equations. lia. Qed.

Lemma slice_splice_in m p l q n :
  (p + length l ≤ length m)%nat → (q + n ≤ length l)%nat → slice (splice m p l) (p + q) n = slice l q n.
Proof.
  intros H1 H2. apply list_eq. intros j. rewrite !lookup_slice. case_bool_decide; [|done].
  rewrite lookup_splice by done. rewrite bool_decide_true by lia. f_equal. lia.
Qed.

Lemma splice_512 m p l : length m = 512%nat → (p + length l ≤ 512)%nat → length (splice m p l) = 512%nat.
Proof. intros Hm Hl. rewrite length_splice; lia. Qed.

(** The disk inode at [dip], field by field from the last stored. *)
Lemma length_put_dinode i dip d :
  length d = 512%nat → (dip + 64 ≤ 512)%nat → length (i_addrs i) = 13%nat → length (put_dinode i dip d) = 512%nat.
Proof.
  intros Hd Hdip Hl. unfold put_dinode, set_addrs, set_half.
  repeat (apply splice_512; [|rewrite ?length_le32s, ?Hl; simpl; lia]). done.
Qed.

Lemma put_dinode_bytes i dip d : Forall byte d → Forall byte (put_dinode i dip d).
Proof.
  intros Hd. unfold put_dinode, set_addrs, set_half.
  apply Forall_splice; [|apply Forall_bind; [apply Forall_true; intros; apply le32_bytes]].
  repeat (apply Forall_splice; [|apply le32_bytes || apply le16_bytes]). done.
Qed.

(** [iupdate] stores the inode so that [ilock] reads the same one. *)
Lemma get_put_dinode i dip d :
  inode_ok i → length d = 512%nat → (dip + 64 ≤ 512)%nat → get_dinode (put_dinode i dip d) dip i = i.
Proof.
  intros [I1 I2 I3 I4 I5 I6 I7] Hd Hdip. unfold get_dinode.
  set (d1 := set_half dip (i_type i) d). set (d2 := set_half (dip + 2) (i_major i) d1).
  set (d3 := set_half (dip + 4) (i_minor i) d2). set (d4 := set_half (dip + 6) (i_nlink i) d3).
  set (d5 := splice d4 (dip + 8) (le32 (i_size i))).
  assert (length d1 = 512 ∧ length d2 = 512 ∧ length d3 = 512 ∧ length d4 = 512 ∧ length d5 = 512)%nat as (L1 & L2 & L3 & L4 & L5).
  { split_and!; repeat (apply splice_512; [|simpl; lia]); done. }
  assert (length (i_addrs i ≫= le32) = 52%nat) as L6 by (rewrite length_le32s; lia).
  change (put_dinode i dip d) with (splice d5 (dip + 12) (i_addrs i ≫= le32)).
  assert (∀ o, (o + 2 ≤ dip + 8)%nat → half (splice d5 (dip + 12) (i_addrs i ≫= le32)) o = half d4 o) as Hh.
  { intros o Ho. unfold half. rewrite slice_splice_ne by lia. unfold d5. by rewrite slice_splice_ne by (simpl; lia). }
  assert (∀ d o x, length d = 512%nat → (o + 2 ≤ 512)%nat → half (set_half o x d) o = u16 x) as Heq.
  { intros d' o x H1 H2. unfold half, set_half. change 2%nat with (length (le16 x)). by rewrite slice_splice_eq, of_le16 by (simpl; lia). }
  assert (∀ d o o' x, length d = 512%nat → (o' + 2 ≤ 512)%nat → (o + 2 ≤ o')%nat → half (set_half o' x d) o = half d o) as Hne.
  { intros d' o o' x H1 H2 H3. unfold half, set_half. by rewrite slice_splice_ne by (simpl; lia). }
  rewrite !Hh by lia. unfold d4. rewrite Heq, !Hne by lia. unfold d3. rewrite Heq, !Hne by lia. unfold d2. rewrite Heq, Hne by lia.
  unfold d1. rewrite Heq by lia. fold d1 d2 d3 d4. rewrite !i16_u16 by done.
  rewrite (slice_splice_ne d5 (dip + 12) _ (dip + 8) 4) by lia. unfold d5 at 1.
  change (slice _ (dip + 8) 4) with (slice (splice d4 (dip + 8) (le32 (i_size i))) (dip + 8) (length (le32 (i_size i)))).
  rewrite slice_splice_eq, of_le32, u32_small by (simpl; lia).
  replace (addrs_at (splice d5 (dip + 12) (i_addrs i ≫= le32)) dip) with (i_addrs i); [by destruct i|].
  apply list_eq. intros k. unfold addrs_at. rewrite list_lookup_fmap. destruct (decide (k < 13)%nat).
  - rewrite lookup_seq_lt by done. cbn [fmap option_fmap option_map Nat.add].
    destruct (lookup_lt_is_Some_2 (i_addrs i) k) as [x Hx]; [lia|].
    rewrite slice_splice_in by lia. rewrite (slice_le32s _ k x Hx), of_le32, u32_small, Hx; [done|].
    by apply (Forall_lookup_1 _ _ _ _ I7 Hx).
  - rewrite lookup_ge_None_2 by lia. rewrite (lookup_ge_None_2 (seq _ _)); [done|]. rewrite length_seq. unfold NDIRECT. lia.
Qed.

Definition iblock (sb : superblock) (i : inode) : Z := sb_inodestart sb + i_inum i / IPB.

Lemma IBLOCK_iblock sb i : layout sb → 0 ≤ i_inum i < sb_ninodes sb →
  IBLOCK (i_inum i) sb = iblock sb i ∧ sb_inodestart sb ≤ iblock sb i < sb_bmapstart sb.
Proof.
  intros [] Hi. unfold IBLOCK, iblock, IPB, BPB in *. assert (i_inum i / 8 ≤ (sb_ninodes sb - 1) / 8) by (apply Z.div_le_mono; lia).
  assert (0 ≤ i_inum i / 8) by (apply Z.div_pos; lia). split; [|lia]. rewrite Z.add_comm. apply u32_small. lia.
Qed.

Lemma dip_fits inum : 0 ≤ inum → (dip_of inum + 64 ≤ 512)%nat.
Proof. intros. unfold dip_of, IPB, sizeof_dinode. pose proof (Z.mod_pos_bound inum 8 ltac:(lia)). lia. Qed.

Lemma iupdate_spec s ip i a L d :
  fsrep s a L → f_inodes s !! ip = Some i → i_dev i = 1 → 0 ≤ i_inum i < sb_ninodes (f_sb s) → length (i_addrs i) = 13%nat →
  a_locked a !! iblock (f_sb s) i = None → a_data a !! Z.to_nat (iblock (f_sb s) i) = Some d → space s a L 1 →
  returns (iupdate ip) (λ _ s', only_log s s' ∧
    fsrep s' (a_upd (iblock (f_sb s) i) (put_dinode i (dip_of (i_inum i)) d) a) (absorb (iblock (f_sb s) i) L)) s.
Proof.
  intros Hf Hi Hdev Hin Hl Hlk Hd Hs. pose proof (map_start s a L Hf) as Hst.
  destruct (IBLOCK_iblock (f_sb s) i (fr_layout _ _ _ Hf) Hin) as [E Hr].
  unfold iupdate. eapply returns_eq; [by apply iget_ip_run|]. apply returns_get. rewrite Hdev, E.
  destruct (fs_block s a L (iblock (f_sb s) i) Hf) as (d' & Hd' & [Hld Hbd]); [lia|]. assert (d' = d) as -> by congruence.
  eapply (fs_read s a L _ d); try done; [lia|destruct Hs as (? & ? & ?); lia|]. intros bp s1 Ho H1 Hget _.
  eapply returns_eq; [exact Hget|]. apply (fs_rewrite s s1); try done; [lia|].
  split; [apply length_put_dinode; [done|apply dip_fits; lia|done]|by apply put_dinode_bytes].
Qed.

(** * Files *)

(** A file of the cache: its blocks are there up to its size, and the inode
    on disk is the one in memory. *)
Record file_ok (s : fstate) (ip : nat) (i : inode) (a : acache) (L m : list Z) : Prop := FileOk {
  fo_view : fview s ip i a L m;
  fo_inode : inode_ok i;
  fo_inum : 0 ≤ i_inum i < sb_ninodes (f_sb s);
  fo_size : i_size i ≤ MAXFILE * BSIZE;
  fo_full : full (a_data a) (i_addrs i) (i_size i);
  fo_sync : ∃ d, a_data a !! Z.to_nat (iblock (f_sb s) i) = Some d ∧ get_dinode d (dip_of (i_inum i)) i = i
}.

Definition contents (a : acache) (i : inode) : list Z := file_bytes (a_data a) (i_addrs i) 0 (i_size i).

Lemma lookup_file_bytes D A off n p :
  0 ≤ off → file_bytes D A off n !! p = if bool_decide (Z.of_nat p < n) then Some (fbyte D A (off + Z.of_nat p)) else None.
Proof.
  intros Ho. unfold file_bytes. rewrite list_lookup_fmap. case_bool_decide; [by rewrite lookup_seqZ_lt|by rewrite lookup_seqZ_ge by lia].
Qed.

(** Changing a block of the metadata changes no file. *)
Lemma slot_meta s x d a L m A k :
  fsrep s a L → addrs_ok (f_sb s) (a_data a) m A → 0 < x ≤ sb_bmapstart (f_sb s) → slot (a_data (a_upd x d a)) A k = slot (a_data a) A k.
Proof.
  intros Hf Ha Hx. pose proof (map_start s a L Hf). destruct (decide (slot (a_data a) A 140 = 0)) as [E|E].
  - rewrite slot_140 in E. unfold slot. by rewrite E.
  - destruct (ao_in _ _ _ _ Ha 140 ltac:(lia) E) as [H1 _]. apply slot_ext. simpl. rewrite <- (slot_140 (a_data a)).
    by rewrite list_lookup_insert_ne by lia.
Qed.
Lemma fbyte_meta s x d a L m A p :
  fsrep s a L → addrs_ok (f_sb s) (a_data a) m A → 0 < x ≤ sb_bmapstart (f_sb s) → 0 ≤ p < MAXFILE * BSIZE →
  slot (a_data a) A (Z.to_nat (p / BSIZE)) ≠ 0 → fbyte (a_data (a_upd x d a)) A p = fbyte (a_data a) A p.
Proof.
  intros Hf Ha Hx Hp Hne. unfold fbyte. rewrite (slot_meta s x d a L m) by done.
  destruct (ao_in _ _ _ _ Ha (Z.to_nat (p / BSIZE))) as [H1 _]; [unfold MAXFILE, BSIZE in *; Z.div_mod_to_equations; lia|done|].
  simpl. by rewrite list_lookup_insert_ne by lia.
Qed.
Lemma addrs_ok_meta s x d a L m A :
  fsrep s a L → addrs_ok (f_sb s) (a_data a) m A → 0 < x ≤ sb_bmapstart (f_sb s) → addrs_ok (f_sb s) (a_data (a_upd x d a)) m A.
Proof.
  intros Hf Ha Hx. pose proof Ha as [H1 H2 H3]. split; [done| |].
  - intros k Hk. rewrite (slot_meta s x d a L m) by done. by apply H2.
  - intros j k Hj Hk. rewrite !(slot_meta s x d a L m) by done. by apply H3.
Qed.

(** The addresses of a file are small numbers. *)
Lemma addrs_range s a L m A : fsrep s a L → addrs_ok (f_sb s) (a_data a) m A → Forall (λ x, 0 ≤ x < 4294967296) A.
Proof.
  intros Hf Ha. pose proof (map_start s a L Hf). destruct (ly_size _ (fr_layout _ _ _ Hf)) as [_ Hs]. unfold BPB in *.
  apply Forall_lookup_2. intros k x Hx. pose proof (lookup_lt_Some _ _ _ Hx) as Hk. rewrite (ao_len _ _ _ _ Ha) in Hk.
  assert (slot (a_data a) A (slot_of k) = x) as E by (rewrite slot_slot_of, Hx by lia; done).
  destruct (decide (x = 0)) as [->|Hne]; [lia|].
  destruct (ao_in _ _ _ _ Ha (slot_of k)) as [H1 _]; [unfold slot_of; case_bool_decide; lia|congruence|]. rewrite E in H1. lia.
Qed.

(** What a write does to the contents. *)
Lemma written_contents s ip i A' a L m a' L' m' off bytes c :
  file_ok s ip i a L m → 0 ≤ off ≤ i_size i → off + Z.of_nat (length bytes) ≤ MAXFILE * BSIZE →
  written (f_sb s) off bytes c a L m (i_addrs i) a' L' m' A' →
  let size' := Z.max (i_size i) (off + Z.of_nat (length bytes)) in
  full (a_data a') A' size' ∧
  file_bytes (a_data a') A' 0 size' =
    take (Z.to_nat off) (contents a i) ++ bytes ++ drop (Z.to_nat off + length bytes) (contents a i).
Proof.
  intros [Hv Hio Hin Hsz Hfull _] Ho Hmax W size'. unfold MAXFILE, BSIZE in *. split.
  - intros k Hk. unfold BSIZE in Hk. destruct (decide (Z.of_nat k * 512 < i_size i)) as [Hlt|Hge].
    + assert (slot (a_data a) (i_addrs i) k ≠ 0) as Hne by (apply Hfull; done). rewrite (wr_slots _ _ _ _ _ _ _ _ _ _ _ _ W); [done|lia|done].
    + apply (wr_have _ _ _ _ _ _ _ _ _ _ _ _ W); unfold BSIZE; lia.
  - unfold contents. apply list_eq. intros p. rewrite lookup_file_bytes by lia. rewrite Z.add_0_l.
    assert (length (file_bytes (a_data a) (i_addrs i) 0 (i_size i)) = Z.to_nat (i_size i)) as Hlen by apply length_file_bytes.
    assert (∀ p, ¬ (off ≤ Z.of_nat p < off + Z.of_nat (length bytes)) → Z.of_nat p < i_size i →
      Some (fbyte (a_data a') A' (Z.of_nat p)) = file_bytes (a_data a) (i_addrs i) 0 (i_size i) !! p) as Hold.
    { intros q Hq Hqs. rewrite lookup_file_bytes, bool_decide_true, Z.add_0_l by lia. f_equal.
      apply (wr_out _ _ _ _ _ _ _ _ _ _ _ _ W); unfold MAXFILE, BSIZE; [lia|done|]. apply Hfull. unfold BSIZE. Z.div_mod_to_equations. lia. }
    destruct (decide (p < Z.to_nat off)%nat) as [Hp1|Hp1].
    { rewrite lookup_app_l by (rewrite length_take; lia). rewrite lookup_take_lt by done. rewrite bool_decide_true by lia. apply Hold; lia. }
    rewrite lookup_app_r by (rewrite length_take; lia). rewrite length_take, Nat.min_l by lia.
    destruct (decide (p < Z.to_nat off + length bytes)%nat) as [Hp2|Hp2].
    { rewrite lookup_app_l by lia. rewrite bool_decide_true by lia. rewrite (wr_in _ _ _ _ _ _ _ _ _ _ _ _ W) by lia.
      replace (Z.to_nat (Z.of_nat p - off)) with (p - Z.to_nat off)%nat by lia.
      destruct (lookup_lt_is_Some_2 bytes (p - Z.to_nat off)) as [x Hx]; [lia|]. by rewrite Hx. }
    rewrite lookup_app_r by lia. rewrite lookup_drop. replace (Z.to_nat off + length bytes + (p - Z.to_nat off - length bytes))%nat with p by lia.
    destruct (decide (Z.of_nat p < i_size i)) as [Hp3|Hp3]; [rewrite bool_decide_true by lia; apply Hold; lia|].
    rewrite bool_decide_false by lia. rewrite lookup_file_bytes by lia. by rewrite bool_decide_false by lia.
Qed.

(** The state after the loop of [writei] with the size and the disk inode
    brought up to date. *)
Lemma writei_finish s s1 ip i A1 a L m a1 L1 m1 off bytes c :
  file_ok s ip i a L m → 0 ≤ off ≤ i_size i → off + Z.of_nat (length bytes) ≤ MAXFILE * BSIZE →
  credit s (i_addrs i) L c →
  fview s1 ip (set_iaddrs A1 i) a1 L1 m1 → only_inode ip (set_iaddrs A1 i) s s1 →
  written (f_sb s) off bytes c a L m (i_addrs i) a1 L1 m1 A1 →
  let size' := Z.max (i_size i) (off + Z.of_nat (length bytes)) in
  let i' := set_isize size' (set_iaddrs A1 i) in
  returns (i ← iget_ip ip;
           if bool_decide (0 < Z.of_nat (length bytes)) && bool_decide (i_size i < off + Z.of_nat (length bytes))
           then iupd ip (set_isize (off + Z.of_nat (length bytes)));; iupdate ip else mret tt)
    (λ _ s', ∃ a' L', file_ok s' ip i' a' L' m1 ∧ only_inode ip i' s s' ∧ contents a' i' =
         take (Z.to_nat off) (contents a i) ++ bytes ++ drop (Z.to_nat off + length bytes) (contents a i) ∧
       (length L' ≤ S (c + cost (f_sb s) (i_addrs i) L))%nat ∧
       (∀ x, 0 < x → x ≠ iblock (f_sb s) i → a_data a' !! Z.to_nat x = a_data a1 !! Z.to_nat x)) s1.
Proof.
  intros Hfo Ho Hmax [Hc Hout] Hv1 Ho1 W size' i'. pose proof Hfo as [Hv Hio Hin Hsz Hfull (d & Hd & Hsync)].
  destruct (written_contents s ip i A1 a L m a1 L1 m1 off bytes c Hfo Ho Hmax W) as [Hfull1 Hcont]. fold size' in Hfull1, Hcont.
  pose proof Hv1 as [Hf1 Hi1 Hdev1 Hm1 Ha1 Hnl1]. pose proof (fv_rep _ _ _ _ _ _ Hv) as Hf. pose proof (map_start s a L Hf) as Hst.
  pose proof (only_inode_sb _ _ _ _ Ho1) as Hsb1. rewrite Hsb1 in Hm1, Ha1. simpl in Ha1.
  pose proof (wr_cost _ _ _ _ _ _ _ _ _ _ _ _ W) as Hcost. pose proof (length_cost (f_sb s) A1 L1) as Hlc.
  assert (cost (f_sb s) (i_addrs i) L ≤ length L + 2)%nat as Hc2 by (unfold cost; repeat case_bool_decide; lia).
  destruct (IBLOCK_iblock (f_sb s) i (fr_layout _ _ _ Hf) Hin) as [_ Hib].
  assert (addrs_ok (f_sb s1) (a_data a1) m1 A1) as Ha1' by (by rewrite Hsb1).
  pose proof (addrs_range s1 a1 L1 m1 A1 Hf1 Ha1') as Har.
  assert (inode_ok i') as Hio'.
  { destruct Hio. unfold MAXFILE, BSIZE in *. split; simpl; try done; [lia|]. apply Ha1. }
  eapply returns_eq; [by apply iget_ip_run|]. cbn [set_iaddrs i_size].
  destruct (decide (0 < Z.of_nat (length bytes) ∧ i_size i < off + Z.of_nat (length bytes))) as [[Hp Hg]|Hng].
  - rewrite !bool_decide_true by done. cbn [andb]. eapply returns_eq; [by apply iupd_run|].
    replace (set_isize (off + Z.of_nat (length bytes)) (set_iaddrs A1 i)) with i' by (unfold i'; f_equal; lia).
    set (s2 := set_inodes (<[ip := i']> (f_inodes s1)) s1).
    assert (f_inodes s2 !! ip = Some i') as Hi2 by (apply list_lookup_insert_eq; by eapply lookup_lt_Some).
    assert (only_inode ip i' s s2) as Ho2 by (eapply only_inode_trans; [exact Ho1|]; split; [by destruct s1|done]).
    destruct (fs_block s1 a1 L1 (iblock (f_sb s) i) Hf1) as (d1 & Hd1 & [Hld1 _]); [rewrite Hsb1; lia|].
    eapply returns_mono; [apply (iupdate_spec s2 ip i' a1 L1 d1); cbn [f_sb s2 set_inodes]; rewrite ?Hsb1; try done|].
    + by apply fsrep_inodes.
    + apply Ha1.
    + by rewrite Hnl1.
    + destruct (ly_nlog _ (fr_layout _ _ _ Hf)) as [_ Hn30]. unfold LOGSIZE, MAXOPBLOCKS in Hn30. unfold space. cbn [f_sb f_log s2 set_inodes].
      rewrite Hsb1, Hnl1, map_size_empty, (only_inode_out _ _ _ _ Ho1). split_and!; [lia|unfold NBUF, MAXOPBLOCKS; lia|done].
    + cbn [f_sb s2 set_inodes]. rewrite Hsb1. change (iblock (f_sb s) i') with (iblock (f_sb s) i). change (i_inum i') with (i_inum i).
      intros _ s3 [Ho3 H3]. exists (a_upd (iblock (f_sb s) i) (put_dinode i' (dip_of (i_inum i)) d1) a1), (absorb (iblock (f_sb s) i) L1).
      assert (f_sb s3 = f_sb s) as Hsb3 by (by rewrite (only_log_sb _ _ Ho3)).
      assert (0 < iblock (f_sb s) i ≤ sb_bmapstart (f_sb s1)) as Hibr by (rewrite Hsb1; lia).
      assert (∀ x, 0 < x → x ≠ iblock (f_sb s) i → a_data (a_upd (iblock (f_sb s) i) (put_dinode i' (dip_of (i_inum i)) d1) a1) !! Z.to_nat x = a_data a1 !! Z.to_nat x) as Hx.
      { intros x Hx Hne. simpl. by rewrite list_lookup_insert_ne by lia. }
      split_and!; [|eapply only_inode_trans; [exact Ho2|]; by apply only_log_inode| | |done].
      * split; try done.
        -- split; rewrite ?Hsb3, ?(only_log_inodes _ _ Ho3); try done.
           ++ destruct Hm1 as [M1 M2 M3 M4]. split; try done. rewrite Hx; [done|lia|lia].
           ++ pose proof (addrs_ok_meta s1 _ (put_dinode i' (dip_of (i_inum i)) d1) a1 L1 m1 A1 Hf1 Ha1' Hibr) as Hmeta. by rewrite Hsb1 in Hmeta.
        -- by rewrite Hsb3.
        -- simpl. unfold MAXFILE, BSIZE in *. lia.
        -- intros k Hk. change (i_addrs i') with A1. rewrite (slot_meta s1 _ _ a1 L1 m1) by done. by apply Hfull1.
        -- rewrite Hsb3. exists (put_dinode i' (dip_of (i_inum i)) d1). split.
           ++ simpl. change (iblock (f_sb s) i') with (iblock (f_sb s) i). apply list_lookup_insert_eq. by eapply lookup_lt_Some.
           ++ apply get_put_dinode; [done|done|exact (dip_fits (i_inum i) ltac:(lia))].
      * rewrite <- Hcont. unfold contents. change (i_addrs i') with A1. change (i_size i') with size'.
        apply list_fmap_ext. intros p q Hq%lookup_seqZ. unfold MAXFILE, BSIZE in *.
        apply (fbyte_meta s1 _ _ a1 L1 m1); try done; unfold MAXFILE, BSIZE; [lia|]. apply Hfull1. unfold BSIZE. Z.div_mod_to_equations. lia.
      * pose proof (length_absorb (iblock (f_sb s) i) L1). lia.
  - replace (bool_decide (0 < Z.of_nat (length bytes)) && _) with false.
    2: { symmetry. rewrite <- bool_decide_and. by apply bool_decide_false. }
    apply returns_mret. exists a1, L1.
    assert (A1 = i_addrs i) as EA.
    { apply (wr_sameA _ _ _ _ _ _ _ _ _ _ _ _ W). intros j Hj1 Hj2. apply Hfull. unfold BSIZE in *. lia. }
    assert (i' = i) as Ei by (unfold i'; rewrite EA, set_iaddrs_id; unfold size'; destruct i; unfold set_isize; simpl in *; f_equal; lia).
    rewrite EA, set_iaddrs_id in Hv1, Ho1. rewrite Ei. split_and!; [|done| |lia|done].
    + split; try done; rewrite ?Hsb1; try done.
      * intros k Hk. rewrite <- EA. apply Hfull1. unfold size'. lia.
      * exists d. split; [|done]. rewrite <- Hd. apply (wr_frame _ _ _ _ _ _ _ _ _ _ _ _ W); [lia| |lia|].
        -- apply (mo_meta _ _ _ (fv_map _ _ _ _ _ _ Hv)). lia.
        -- intros k Hk Hx E. destruct (ao_in _ _ _ _ Ha1 k Hk); [congruence|]. lia.
    + rewrite <- Hcont. unfold contents. rewrite EA. f_equal. unfold size'. lia.
Qed.

Lemma returns_assoc {S A B C} (m : M S A) (f : A → M S B) (g : B → M S C) Q s :
  returns ((m ≫= f) ≫= g) Q s → returns (m ≫= λ x, f x ≫= g) Q s.
Proof.
  unfold returns, wp, mbind, M_bind. destruct (m s) as [v s1 t1| | | |]; try done.
  destruct (f v s1) as [w s2 t2| | | |]; try done. simpl. by rewrite prepend_prepend.
Qed.

(** The two inodes share no block. *)
Definition disjoint_files (D : list (list Z)) (A A2 : list Z) : Prop :=
  ∀ j k, (j ≤ 140)%nat → (k ≤ 140)%nat → slot D A2 j ≠ 0 → slot D A2 j ≠ slot D A k.

(** [D'] has the blocks that the inode with addresses [A2] has in [D]. *)
Definition same_file (sb : superblock) (D D' : list (list Z)) (m' A2 : list Z) : Prop :=
  addrs_ok sb D' m' A2 ∧
  ∀ p, 0 ≤ p < MAXFILE * BSIZE → slot D A2 (Z.to_nat (p / BSIZE)) ≠ 0 → fbyte D' A2 p = fbyte D A2 p.

Lemma same_file_frame sb D D' m m' A2 :
  addrs_ok sb D m A2 → 0 ≤ sb_bmapstart sb → (∀ x, 0 ≤ x < sb_size sb → bit m x = true → bit m' x = true) →
  (∀ j, (j ≤ 140)%nat → slot D A2 j ≠ 0 → D' !! Z.to_nat (slot D A2 j) = D !! Z.to_nat (slot D A2 j)) →
  same_file sb D D' m' A2.
Proof.
  intros [Hl Hin Hinj] Hbm Hb HD.
  assert (∀ k, slot D' A2 k = slot D A2 k) as Hs.
  { intros k. destruct (decide (slot D A2 140 = 0)) as [E|E].
    - rewrite slot_140 in E. unfold slot. by rewrite E.
    - apply slot_ext. rewrite <- (slot_140 D). apply HD; [lia|done]. }
  split; [split; [done| |]|].
  - intros k Hk. rewrite Hs. intros Hne. destruct (Hin k Hk Hne). split; [done|]. apply Hb; [lia|done].
  - intros j k Hj Hk. rewrite !Hs. by apply Hinj.
  - intros p Hp Hne. unfold fbyte. rewrite Hs, HD; [done| |done]. unfold MAXFILE, BSIZE in *. Z.div_mod_to_equations. lia.
Qed.

Lemma writei_spec s ip i a L m off bytes :
  file_ok s ip i a L m → i_type i ≠ T_DEV → 0 ≤ off ≤ i_size i → Forall byte bytes →
  off + Z.of_nat (length bytes) ≤ MAXFILE * BSIZE →
  credit s (i_addrs i) L (Z.to_nat (span off (Z.of_nat (length bytes)))) →
  supply s a m (i_addrs i) off (Z.of_nat (length bytes)) →
  returns (writei ip bytes off (Z.of_nat (length bytes)))
    (λ r s', r = Z.of_nat (length bytes) ∧ ∃ i' a' L' m',
       file_ok s' ip i' a' L' m' ∧ only_inode ip i' s s' ∧
       i' = set_isize (Z.max (i_size i) (off + Z.of_nat (length bytes))) (set_iaddrs (i_addrs i') i) ∧
       contents a' i' = take (Z.to_nat off) (contents a i) ++ bytes ++ drop (Z.to_nat off + length bytes) (contents a i) ∧
       (length L' ≤ S (Z.to_nat (span off (Z.of_nat (length bytes))) + cost (f_sb s) (i_addrs i) L))%nat ∧
       ∀ A2, addrs_ok (f_sb s) (a_data a) m A2 → disjoint_files (a_data a) (i_addrs i) A2 →
         same_file (f_sb s) (a_data a) (a_data a') m' A2) s.
Proof.
  intros Hfo Ht Ho Hb Hmax Hc Hsup. pose proof Hfo as [Hv Hio Hin Hsz Hfull _]. set (n := Z.of_nat (length bytes)) in *.
  pose proof (fv_rep _ _ _ _ _ _ Hv) as Hf. pose proof (map_start s a L Hf) as Hst.
  unfold writei. eapply returns_eq; [apply iget_ip_run, Hv|]. rewrite (bool_decide_false (i_type i = T_DEV)) by done.
  assert (u32 (off + n) = off + n) as -> by (apply u32_small; unfold MAXFILE, BSIZE in *; lia).
  rewrite (bool_decide_false (i_size i < off)), (bool_decide_false (off + n < off)), (bool_decide_false (MAXFILE * BSIZE < off + n)) by lia.
  cbn [orb]. eapply returns_step; [apply (writei_loop_spec _ s ip i a L m bytes off n 0); rewrite ?Z.sub_0_r; try done; try lia|].
  { unfold span, BSIZE. case_bool_decide; Z.div_mod_to_equations; lia. }
  rewrite Z.sub_0_r. intros r s1 (-> & a1 & L1 & m1 & A1 & Hv1 & Ho1 & W).
  assert (slice bytes (Z.to_nat 0) (Z.to_nat n) = bytes) as Esl by (unfold slice; rewrite drop_0; apply take_ge; lia). rewrite Esl in W.
  apply returns_assoc. eapply returns_step; [by apply (writei_finish s s1 ip i A1 a L m a1 L1 m1 off bytes (Z.to_nat (span off n)))|].
  intros _ s2 (a2 & L2 & Hfo2 & Ho2 & Hcont & Hlen & Hrest). apply returns_mret. split; [apply i32_small; unfold MAXFILE, BSIZE in *; lia|].
  exists (set_isize (Z.max (i_size i) (off + n)) (set_iaddrs A1 i)), a2, L2, m1. split_and!; try done.
  intros A2 HA2 Hdis. destruct (IBLOCK_iblock (f_sb s) i (fr_layout _ _ _ Hf) Hin) as [_ Hib].
  pose proof (fv_addrs _ _ _ _ _ _ Hv1) as Ha1. rewrite (only_inode_sb _ _ _ _ Ho1) in Ha1. simpl in Ha1.
  apply (same_file_frame _ _ _ m); [done|lia|apply W|]. intros j Hj Hne. destruct (ao_in _ _ _ _ HA2 j Hj Hne) as [Hr Hbit].
  rewrite Hrest by lia. apply (wr_frame _ _ _ _ _ _ _ _ _ _ _ _ W); [lia|done|lia|].
  intros k Hk Hx E. destruct (wr_new _ _ _ _ _ _ _ _ _ _ _ _ W k Hk) as [E1|E1]; [congruence| |].
  - apply (Hdis j k Hj Hk Hne). congruence.
  - congruence.
Qed.

Lemma contents_part a i off n :
  0 ≤ off → 0 ≤ n → off + n ≤ i_size i →
  file_bytes (a_data a) (i_addrs i) off n = slice (contents a i) (Z.to_nat off) (Z.to_nat n).
Proof.
  intros Ho Hn Hs. unfold contents. replace (i_size i) with (off + (n + (i_size i - off - n))) by lia.
  rewrite !file_bytes_app by lia. unfold slice. rewrite drop_app_length' by (rewrite length_file_bytes; lia).
  by rewrite take_app_length' by (rewrite length_file_bytes; lia).
Qed.
Lemma length_contents a i : length (contents a i) = Z.to_nat (i_size i).
Proof. apply length_file_bytes. Qed.
Lemma contents_bytes s a L i : fsrep s a L → Forall byte (contents a i).
Proof.
  intros Hf. apply Forall_fmap, Forall_forall. intros p _. unfold compose, fbyte.
  destruct (c_blocks _ _ (br_content _ _ (lr_bio _ _ _ _ _ (fr_log _ _ _ Hf)))) as [Hb _].
  destruct (a_data a !! _) as [d|] eqn:Hd; simpl; [|unfold byte; lia].
  destruct (d !! _) as [c|] eqn:Hc; simpl; [|unfold byte; lia].
  exact (Forall_lookup_1 _ _ _ _ (proj2 (Forall_lookup_1 _ _ _ _ Hb Hd)) Hc).
Qed.

(** C17: Files hold what is written to them.  Inside a transaction with room
    in the log and free blocks where they are needed, [writei] of any bytes at
    an offset up to the file's size returns the number of bytes; the contents
    are then the old ones with those bytes in their place, extended when they
    reach past the end; the inode on disk is brought up to date; the blocks of
    every other file, its bytes included, are what they were; nothing is
    written to the disk before the commit; at most the blocks touched and
    three more (bitmap, indirect block, inode) are added to the log; and
    [readi] of any part returns those contents. *)
Theorem file_write_read s ip i a L m off bytes :
  file_ok s ip i a L m → i_type i ≠ T_DEV → 0 ≤ off ≤ i_size i → Forall byte bytes →
  off + Z.of_nat (length bytes) ≤ MAXFILE * BSIZE →
  credit s (i_addrs i) L (Z.to_nat (span off (Z.of_nat (length bytes)))) →
  supply s a m (i_addrs i) off (Z.of_nat (length bytes)) →
  ∃ s' t i' a' L' m',
    writei ip bytes off (Z.of_nat (length bytes)) s = Ret (Z.of_nat (length bytes)) s' t ∧ dwrites t = [] ∧
    file_ok s' ip i' a' L' m' ∧ i_size i' = Z.max (i_size i) (off + Z.of_nat (length bytes)) ∧
    contents a' i' = take (Z.to_nat off) (contents a i) ++ bytes ++ drop (Z.to_nat off + length bytes) (contents a i) ∧
    (length L' ≤ length L + Z.to_nat (span off (Z.of_nat (length bytes))) + 3)%nat ∧
    (∀ A2, addrs_ok (f_sb s) (a_data a) m A2 → disjoint_files (a_data a) (i_addrs i) A2 →
       same_file (f_sb s) (a_data a) (a_data a') m' A2) ∧
    (∀ off' n, 0 ≤ off' ≤ i_size i' → 0 ≤ n → off' + n < 4294967296 →
       let n' := Z.min n (i_size i' - off') in
       ∃ s'' t', readi ip off' n s' = Ret (n', slice (contents a' i') (Z.to_nat off') (Z.to_nat n')) s'' t' ∧ dwrites t' = []).
Proof.
  intros Hfo Ht Ho Hb Hmax Hc Hsup.
  destruct (returns_inv _ _ _ (writei_spec s ip i a L m off bytes Hfo Ht Ho Hb Hmax Hc Hsup))
    as (r & s' & t & R & Hw & -> & i' & a' & L' & m' & Hfo' & Hon & Ei & Hcont & HL & Hoth).
  exists s', t, i', a', L', m'. split_and!; try done.
  - by rewrite Ei.
  - assert (cost (f_sb s) (i_addrs i) L ≤ length L + 2)%nat by (unfold cost; repeat case_bool_decide; lia). lia.
  - intros off' n Ho' Hn Hov n'. pose proof Hfo' as [Hv' Hio' _ Hsz' Hfull' _].
    assert (length L' < NBUF)%nat as HL'.
    { destruct Hc as [Hc _]. destruct (ly_nlog _ (fr_layout _ _ _ (fv_rep _ _ _ _ _ _ (fo_view _ _ _ _ _ _ Hfo)))) as [_ Hn30].
      unfold NBUF, LOGSIZE, MAXOPBLOCKS in *. lia. }
    assert (i_type i' ≠ T_DEV) as Ht' by (by rewrite Ei).
    destruct (returns_inv _ _ _ (readi_spec s' ip i' a' L' m' off' n Hv' HL' Ht' Hfull' ltac:(destruct Hio'; lia) ltac:(lia) Hn Hov))
      as (v & s2 & t2 & R2 & Hw2 & -> & _).
    rewrite bool_decide_false in R2 by lia. exists s2, t2. split; [|done]. rewrite R2. f_equal. f_equal. fold n'.
    apply contents_part; lia.
Qed.

(** ** An example: a disk of 16 blocks with one file of 512 bytes *)

Definition ex_sb : superblock := Superblock 16 6 8 6 2 8 9.
Definition ex_sbd : list Z := set_word 6 9 (set_word 5 8 (set_word 4 2 (set_word 3 6 (set_word 2 8 (set_word 1 6 (set_word 0 16 zero_block)))))).
Definition ex_inode (ty : Z) : inode := Inode 1 1 1 (SLock false false 0) true ty 0 0 1 512 (10 :: replicate 12 0).
Definition ex_map : list Z := [255; 7] ++ replicate 510 0.
Definition ex_itab (ty : Z) : list Z := put_dinode (ex_inode ty) (dip_of 1) zero_block.
Definition ex_disk (ty : Z) : list (list Z) :=
  [zero_block; ex_sbd] ++ replicate 6 zero_block ++ [ex_itab ty; ex_map; replicate 512 65] ++ replicate 5 zero_block.
Definition ex_state (ty : Z) : fstate :=
  FState (LState (booted (ex_disk ty) 3) false 2 6 1 false 1 0 (replicate LOGSIZE 0)) ex_sb false [ex_inode ty] [] [] blank_console false None.

Lemma ex_blocks ty : Forall block_ok (ex_disk ty).
Proof.
  pose proof zero_block_ok as Hz. unfold ex_disk. rewrite !Forall_app. split_and!.
  - apply Forall_cons_2; [done|]. apply Forall_cons_2; [|constructor]. unfold ex_sbd. repeat (apply set_word_ok; [lia|]). done.
  - by apply Forall_replicate.
  - apply Forall_cons_2; [|apply Forall_cons_2; [|apply Forall_cons_2; [|constructor]]].
    + destruct Hz as [H1 H2]. split; [apply length_put_dinode; [done|by apply dip_fits|done]|by apply put_dinode_bytes].
    + split; [done|]. unfold ex_map. apply Forall_app. split; [repeat constructor; unfold byte; lia|]. apply Forall_replicate. unfold byte. lia.
    + apply block_ok_replicate. unfold byte. lia.
  - by apply Forall_replicate.
Qed.

Lemma ex_slot D k : slot D (10 :: replicate 12 0) k = if bool_decide (k = 0)%nat then 10 else 0.
Proof.
  unfold slot. cbn [lookup list_lookup replicate default]. destruct (decide (k < 12)%nat) as [Hk|Hk].
  - rewrite bool_decide_true by done. do 12 (destruct k as [|k]; [done|]). lia.
  - rewrite bool_decide_false, (bool_decide_false (k = 0%nat)) by lia. by case_bool_decide.
Qed.

Lemma ex_layout : layout ex_sb.
Proof. split; by vm_compute. Qed.

Lemma ex_fsrep ty : fsrep (ex_state ty) (a_boot (ex_disk ty)) [].
Proof.
  split; [apply ex_layout| |by vm_compute|by vm_compute|constructor|constructor|by vm_compute].
  split; try done; [by apply booted_brep, ex_blocks|]. by exists (replicate LOGSIZE 0).
Qed.

Lemma ex_file ty : 0 ≤ ty < 32768 → file_ok (ex_state ty) 0 (ex_inode ty) (a_boot (ex_disk ty)) [] ex_map.
Proof.
  intros Hty.
  assert (∀ b, 0 ≤ b ≤ 10 → bit ex_map b = true) as Hbits.
  { intros b Hb. assert (forallb (bit ex_map) (seqZ 0 11) = true) as H by (by vm_compute).
    rewrite forallb_forall in H. apply H, list_elem_of_In, elem_of_seqZ. lia. }
  assert (inode_ok (ex_inode ty)) as Hio.
  { split; simpl; try lia. apply Forall_cons_2; [lia|]. repeat constructor; lia. }
  split; [|done|simpl; lia|done| |].
  - split; try done; [apply ex_fsrep| |].
    + split; try done. intros b Hb. apply Hbits. simpl in Hb. lia.
    + split; [done| |].
      * intros k Hk. rewrite ex_slot. case_bool_decide; [|done]. intros _. simpl. split; [lia|]. apply Hbits. lia.
      * intros j k _ _. rewrite !ex_slot. repeat case_bool_decide; (done || congruence).
  - intros k Hk. unfold BSIZE in Hk. simpl in Hk. rewrite ex_slot. by rewrite bool_decide_true by lia.
  - exists (ex_itab ty). split; [done|]. apply get_put_dinode; [done|apply zero_block_ok|by apply dip_fits].
Qed.

(** Three bytes appended: a block is allocated. *)
Lemma file_write_read_witness :
  ∃ s' t i' a' L' m', writei 0 [1; 2; 3] 512 3 (ex_state T_FILE) = Ret 3 s' t ∧ file_ok s' 0 i' a' L' m' ∧ i_size i' = 515.
Proof.
  destruct (file_write_read (ex_state T_FILE) 0 (ex_inode T_FILE) (a_boot (ex_disk T_FILE)) [] ex_map 512 [1; 2; 3] (ex_file T_FILE ltac:(done)))
    as (s' & t & i' & a' & L' & m' & R & _ & Hfo & Hs & _).
  - done.
  - simpl. lia.
  - repeat constructor; unfold byte; lia.
  - done.
  - split; [|done]. by vm_compute.
  - right. by vm_compute.
  - exists s', t, i', a', L', m'. by split_and!.
Defined.
