(* ===== verification/FsDir.v ===== *)
(** Path names: a path is the list of its elements ([skipelem]), and [namex]
    walks along that list. *)
From S2P Require Import Prelude Layout Bytes Spinlock Sleeplock CString Format Bio Log Console Fs FsSpec FsFile.

(** * Paths *)

(** The elements of a path: the non-empty parts between the slashes. *)
Fixpoint split_path (path cur : list Z) : list (list Z) :=
  match path with
  | [] => if decide (cur = []) then [] else [cur]
  | c :: path' =>
      if decide (c = slash) then (if decide (cur = []) then [] else [cur]) ++ split_path path' []
      else split_path path' (cur ++ [c])
  end.
Definition elements (path : list Z) : list (list Z) := split_path path [].

(** The contents of the array [name] as a directory name. *)
Definition dname (name : list Z) : list Z := take DIRSIZ (cstr name).

Lemma split_path_cur path cur : cur ≠ [] →
  split_path path cur = (cur ++ take (elem_len path) path) :: elements (drop (elem_len path) path).
Proof.
  revert cur. induction path as [|c path IH]; intros cur Hc; cbn [split_path elem_len].
  - rewrite decide_False by done. by rewrite app_nil_r.
  - destruct (decide (c = slash)) as [->|Hs].
    + rewrite bool_decide_true by done. rewrite decide_False by done. cbn [take drop]. rewrite app_nil_r.
      unfold elements. cbn [split_path]. rewrite decide_True, decide_True by done. done.
    + rewrite bool_decide_false by done. rewrite IH by (by destruct cur). cbn [take drop]. by rewrite <- (assoc_L (++)).
Qed.

Lemma elements_slashes path : elements (skip_slashes path) = elements path.
Proof.
  induction path as [|c path IH]; [done|]. cbn [skip_slashes]. case_bool_decide as Hc; [|done].
  rewrite IH. unfold elements at 2. cbn [split_path]. rewrite decide_True, decide_True by done. done.
Qed.

Lemma skip_slashes_length path : (length (skip_slashes path) ≤ length path)%nat.
Proof. induction path as [|c path IH]; [done|]. cbn [skip_slashes]. case_bool_decide; simpl; lia. Qed.

Lemma skip_slashes_head path c rest : skip_slashes path = c :: rest → c ≠ slash.
Proof. induction path as [|x path IH]; [done|]. cbn [skip_slashes]. case_bool_decide; [done|]. by intros [= <- _]. Qed.

Lemma skip_slashes_drop path : ∃ k, skip_slashes path = drop k path.
Proof.
  induction path as [|c path [k IH]]; [by exists 0%nat|]. cbn [skip_slashes]. case_bool_decide; [by exists (S k)|by exists 0%nat].
Qed.

Lemma elements_empty path c rest : skip_slashes path = c :: rest → elements path ≠ [].
Proof.
  intros E. rewrite <- elements_slashes, E. unfold elements. cbn [split_path].
  rewrite decide_False by (by eapply skip_slashes_head). by rewrite split_path_cur.
Qed.

Lemma cstr_all l : 0 ∉ l → cstr l = l.
Proof.
  induction l as [|c l IH]; intros H; cbn [cstr]; [done|]. apply not_elem_of_cons in H as [H1 H2].
  rewrite bool_decide_false by congruence. by rewrite IH.
Qed.

(** The array [name] after the element [s] is stored in it: the first
    [DIRSIZ] characters, without a NUL when there are that many. *)
Definition store_elem (s name : list Z) : list Z :=
  if bool_decide (DIRSIZ ≤ length s)%nat then splice name 0 (take DIRSIZ s) else splice name 0 (s ++ [0]).

Lemma store_name s name :
  0 ∉ s → length name = DIRSIZ → dname (store_elem s name) = take DIRSIZ s ∧ length (store_elem s name) = DIRSIZ.
Proof.
  intros H0 Hn. unfold store_elem, DIRSIZ in *. case_bool_decide as Hl; simpl.
  - assert (splice name 0 (take 14 s) = take 14 s) as ->.
    { unfold splice. rewrite length_take, drop_ge by lia. by rewrite app_nil_r. }
    unfold dname. rewrite cstr_all by (intros H; by apply H0, (subseteq_take 14 s)).
    rewrite length_take, take_take. split; [done|]. lia.
  - rewrite length_splice by (rewrite length_app; simpl; lia). split; [|done].
    unfold splice, dname. simpl. rewrite <- (assoc_L (++)). simpl. by rewrite cstr_stop.
Qed.

(** [skipelem] takes the first element off the path. *)
Lemma skipelem_spec path name :
  match skipelem path name with
  | None => elements path = []
  | Some (rest, name') =>
      ∃ e, elements path = e :: elements rest ∧ name' = store_elem e name ∧
        (length rest < length path)%nat ∧ (rest = [] ↔ elements rest = [])
  end.
Proof.
  unfold skipelem. rewrite <- elements_slashes. pose proof (skip_slashes_length path) as Hlen.
  destruct (skip_slashes path) as [|c p] eqn:E; [done|]. pose proof (skip_slashes_head _ _ _ E) as Hc.
  set (len := elem_len (c :: p)). set (s := take len (c :: p)).
  assert (len = S (elem_len p)) as Hl by (unfold len; cbn [elem_len]; by rewrite bool_decide_false).
  assert (∀ l, (elem_len l ≤ length l)%nat) as Hel by (induction l as [|x l IH]; cbn [elem_len]; [done|case_bool_decide; simpl; lia]).
  assert (length s = len) as Hsl by (unfold s; rewrite length_take; pose proof (Hel (c :: p)); unfold len; lia).
  exists s. split_and!.
  - rewrite elements_slashes. unfold elements at 1. cbn [split_path]. rewrite decide_False by done.
    rewrite split_path_cur by done. unfold s. rewrite Hl. done.
  - unfold store_elem. by rewrite Hsl.
  - pose proof (skip_slashes_length (drop len (c :: p))). rewrite length_drop in *. simpl in *. lia.
  - rewrite elements_slashes. destruct (skip_slashes (drop len (c :: p))) as [|c' r] eqn:E'; [|by pose proof (elements_empty _ _ _ E')].
    split; [|done]. intros _. by rewrite <- elements_slashes, E'.
Qed.

(** [namex] along the list of the path's elements. *)
Fixpoint namex_elements (ip : nat) (es : list (list Z)) (parent : bool) (name : list Z) : M fstate (option nat * list Z) :=
  match es with
  | [] => if parent then iput ip;; mret (None, name) else mret (Some ip, name)
  | e :: es' =>
      let name := store_elem e name in
      ilock (Some ip);;
      i ← iget_ip ip;
      if bool_decide (i_type i ≠ T_DIR) then iunlockput ip;; mret (None, name)
      else if parent && bool_decide (es' = []) then iunlock (Some ip);; mret (Some ip, name)
      else
        r ← dirlookup ip name;
        match r with
        | None => iunlockput ip;; mret (None, name)
        | Some (next, _) => iunlockput ip;; namex_elements next es' parent name
        end
  end.

Lemma bind_ext {S A B} (m : M S A) (f g : A → M S B) s :
  (∀ v s', f v s' = g v s') → (m ≫= f) s = (m ≫= g) s.
Proof. intros H. unfold mbind, M_bind. destruct (m s); try done. by rewrite H. Qed.

Lemma namex_loop_elements fuel ip path parent name s :
  (length path < fuel)%nat → namex_loop fuel ip path parent name s = namex_elements ip (elements path) parent name s.
Proof.
  revert ip path name s. induction fuel as [|fuel IH]; intros ip path name s Hf; [lia|]. cbn [namex_loop].
  pose proof (skipelem_spec path name) as Hsk. destruct (skipelem path name) as [[rest name']|]; [|by rewrite Hsk].
  destruct Hsk as (e & -> & -> & Hlen & Hnil). cbn [namex_elements].
  apply bind_ext. intros _ s1. apply bind_ext. intros i s2. case_bool_decide; [done|].
  rewrite (bool_decide_ext _ _ Hnil). destruct (parent && bool_decide (elements rest = [])); [done|].
  apply bind_ext. intros [[next off]|] s3; [|done]. apply bind_ext. intros _ s4. apply IH. lia.
Qed.

(** Path lookup follows the path's elements.  For every path, [namex]
    (and so [namei] and [nameiparent]) terminates and does, from the root or
    the current directory, exactly one locked directory lookup per element of
    the path: the non-empty parts between slashes, each cut to [DIRSIZ]
    characters in [name]; it stops one element early for [nameiparent], and at
    the first inode that is not a directory or name that is not found. *)
Theorem namex_walks_elements (path : list Z) (parent : bool) (name : list Z) (s : fstate) :
  namex path parent name s =
  (ip ← (if bool_decide (head path = Some slash) then iget ROOTDEV ROOTINO
         else s ← get; cwd ← deref (f_cwd s); idup cwd);
   namex_elements ip (elements path) parent name) s ∧
  ∀ e, 0 ∉ e → length name = DIRSIZ → dname (store_elem e name) = take DIRSIZ e.
Proof.
  split.
  - unfold namex. apply bind_ext. intros ip s1. apply namex_loop_elements. lia.
  - intros e H0 Hn. by apply store_name.
Qed.
