(* ===== verification/FsRef.v ===== *)
(** References to cached inodes: which operations of src/fs.c change the
    reference counts, and that path lookup neither leaks nor loses one. *)
From S2P Require Import Prelude Layout Bytes Spinlock Sleeplock CString Format Bio Log Console Fs FsSpec FsFile FsDir.

(** * Keys *)

(** What an inode cache entry refers to, and how often it is referred to. *)
Definition ikey (i : inode) : Z * Z * Z := (i_dev i, i_inum i, i_ref i).
Definition keys (s : fstate) : list (Z * Z * Z) := ikey <$> f_inodes s.

(** Code that leaves all entries what they are. *)
Definition ikeeps {A} (m : M fstate A) : Prop := ∀ s v s' t, m s = Ret v s' t → keys s' = keys s.

Create HintDb ikeeps.

Lemma ikeeps_mret {A} (v : A) : ikeeps (mret v).
Proof. by intros s w s' t [= <- <- <-]. Qed.
Lemma ikeeps_bind {A B} (m : M fstate A) (f : A → M fstate B) : ikeeps m → (∀ v, ikeeps (f v)) → ikeeps (m ≫= f).
Proof. intros Hm Hf s v s' t H. inv_bind H. rewrite (Hf _ _ _ _ _ H). by eapply Hm. Qed.
Lemma ikeeps_get : ikeeps get.
Proof. by intros s w s' t [= <- <- <-]. Qed.
Lemma ikeeps_panic {A} msg : ikeeps (panic msg : M fstate A).
Proof. by intros s w s' t H. Qed.
Lemma ikeeps_undef {A} : ikeeps (undef : M fstate A).
Proof. by intros s w s' t H. Qed.
Lemma ikeeps_block {A} c : ikeeps (block c : M fstate A).
Proof. by intros s w s' t H. Qed.
Lemma ikeeps_panic_if b msg : ikeeps (panic_if b msg).
Proof. destruct b; [apply ikeeps_panic|apply ikeeps_mret]. Qed.
Lemma ikeeps_deref {A} (o : option A) : ikeeps (deref o).
Proof. destruct o; [apply ikeeps_mret|apply ikeeps_undef]. Qed.
Lemma ikeeps_emit e : ikeeps (emit e).
Proof. by intros s w s' t [= <- <- <-]. Qed.
Lemma ikeeps_foreach {A} (l : list A) (f : A → M fstate unit) : (∀ x, ikeeps (f x)) → ikeeps (foreach l f).
Proof. intros Hf. induction l as [|x l IH]; [apply ikeeps_mret|]. simpl. by apply ikeeps_bind. Qed.
Lemma ikeeps_if {A} (b : bool) (m1 m2 : M fstate A) : ikeeps m1 → ikeeps m2 → ikeeps (if b then m1 else m2).
Proof. by destruct b. Qed.
Lemma ikeeps_zoom {T A} (g : fstate → T) (p : T → fstate → fstate) (m : M T A) :
  (∀ x s, keys (p x s) = keys s) → ikeeps (zoom g p m).
Proof. intros H s v s' t (x & _ & ->)%zoom_Ret_inv. apply H. Qed.
Lemma ikeeps_on_log {A} (m : M lstate A) : ikeeps (on_log m).
Proof. by apply ikeeps_zoom. Qed.
Lemma ikeeps_on_disk {A} (m : M bstate A) : ikeeps (on_disk m).
Proof. apply ikeeps_on_log. Qed.
Lemma ikeeps_on_cons {A} (m : M cstate A) : ikeeps (on_cons m).
Proof. by apply ikeeps_zoom. Qed.
Lemma ikeeps_modify f : (∀ s, keys (f s) = keys s) → ikeeps (modify f).
Proof. intros H s v s' t [= <- <- <-]. apply H. Qed.

#[export] Hint Resolve ikeeps_mret ikeeps_get ikeeps_panic ikeeps_undef ikeeps_block ikeeps_panic_if ikeeps_deref ikeeps_emit
  ikeeps_on_log ikeeps_on_disk ikeeps_on_cons : ikeeps.
#[export] Hint Extern 2 (ikeeps (_ ≫= _)) => apply ikeeps_bind; [|intros ?] : ikeeps.
#[export] Hint Extern 2 (ikeeps (if _ then _ else _)) => apply ikeeps_if : ikeeps.
#[export] Hint Extern 2 (ikeeps (foreach _ _)) => apply ikeeps_foreach; intros ? : ikeeps.
#[export] Hint Extern 3 (ikeeps (modify _)) => apply ikeeps_modify; done : ikeeps.

Lemma ikeeps_ic_acquire : ikeeps ic_acquire.
Proof. unfold ic_acquire, lk_acquire. auto with ikeeps. Qed.
Lemma ikeeps_ic_release : ikeeps ic_release.
Proof. unfold ic_release, lk_release. auto with ikeeps. Qed.
Lemma ikeeps_iget_ip ip : ikeeps (iget_ip ip).
Proof. unfold iget_ip. auto with ikeeps. Qed.

Lemma iget_ip_inv ip s i s' t : iget_ip ip s = Ret i s' t → f_inodes s !! ip = Some i ∧ s' = s ∧ t = [].
Proof.
  unfold iget_ip. rewrite bind_get. destruct (f_inodes s !! ip); [|done]. by intros [= <- <- <-].
Qed.

(** The key at [ip] changed by a function of the entry. *)
Lemma keys_insert ip i i' s :
  f_inodes s !! ip = Some i → keys (set_inodes (<[ip := i']> (f_inodes s)) s) = <[ip := ikey i']> (keys s).
Proof. intros H. unfold keys. simpl. by rewrite list_fmap_insert. Qed.

Lemma keys_same ip i i' s :
  f_inodes s !! ip = Some i → ikey i' = ikey i → keys (set_inodes (<[ip := i']> (f_inodes s)) s) = keys s.
Proof.
  intros H E. rewrite (keys_insert ip i i' s H), E. apply list_insert_id. unfold keys. by rewrite list_lookup_fmap, H.
Qed.

Lemma ikeeps_iupd ip f : (∀ i, ikey (f i) = ikey i) → ikeeps (iupd ip f).
Proof.
  intros Hf s v s' t H. unfold iupd in H. inv_bind H. apply iget_ip_inv in Hm as (Hi & -> & ->).
  injection H as _ <- _. by eapply keys_same.
Qed.
Lemma ikeeps_on_ilock {A} ip (m : M sleeplock A) : ikeeps (on_ilock ip m).
Proof.
  intros s v s' t H. unfold on_ilock in H. inv_bind H. apply iget_ip_inv in Hm as (Hi & -> & ->).
  apply zoom_Ret_inv in H as (x & _ & ->). by eapply keys_same.
Qed.
#[export] Hint Resolve ikeeps_ic_acquire ikeeps_ic_release ikeeps_iget_ip ikeeps_on_ilock : ikeeps.
#[export] Hint Extern 3 (ikeeps (iupd _ _)) => apply ikeeps_iupd; done : ikeeps.

(** ** The operations that keep all references *)

Lemma ikeeps_iacquiresleep ip : ikeeps (iacquiresleep ip).
Proof. unfold iacquiresleep. auto with ikeeps. Qed.
Lemma ikeeps_bzero dev b : ikeeps (bzero dev b).
Proof. unfold bzero. auto with ikeeps. Qed.
#[export] Hint Resolve ikeeps_iacquiresleep ikeeps_bzero : ikeeps.
Lemma ikeeps_balloc_loop fuel dev b : ikeeps (balloc_loop fuel dev b).
Proof.
  revert b. induction fuel as [|fuel IH]; intros b; cbn [balloc_loop]; [auto with ikeeps|].
  apply ikeeps_bind; [auto with ikeeps|]. intros s. apply ikeeps_if; [|auto with ikeeps].
  do 2 (apply ikeeps_bind; [auto with ikeeps|]; intros ?).
  destruct (balloc_scan _ _ _ _ _); auto 8 with ikeeps.
Qed.
Lemma ikeeps_balloc dev : ikeeps (balloc dev).
Proof. unfold balloc. apply ikeeps_bind; [auto with ikeeps|]. intros. apply ikeeps_balloc_loop. Qed.
Lemma ikeeps_readsb_global dev : ikeeps (readsb_global dev).
Proof. unfold readsb_global. auto with ikeeps. Qed.
#[export] Hint Resolve ikeeps_balloc ikeeps_readsb_global : ikeeps.
Lemma ikeeps_bfree dev b : ikeeps (bfree dev b).
Proof. unfold bfree. auto 20 with ikeeps. Qed.
Lemma ikeeps_iupdate ip : ikeeps (iupdate ip).
Proof. unfold iupdate. auto 20 with ikeeps. Qed.
Lemma ikeeps_iaddr_get ip i : ikeeps (iaddr_get ip i).
Proof. unfold iaddr_get. auto with ikeeps. Qed.
Lemma ikeeps_iaddr_set ip i v : ikeeps (iaddr_set ip i v).
Proof. unfold iaddr_set. apply ikeeps_bind; [apply ikeeps_iaddr_get|]. auto with ikeeps. Qed.
#[export] Hint Resolve ikeeps_bfree ikeeps_iupdate ikeeps_iaddr_get ikeeps_iaddr_set : ikeeps.
Lemma ikeeps_addr_or_alloc ip i : ikeeps (addr_or_alloc ip i).
Proof. unfold addr_or_alloc. auto 20 with ikeeps. Qed.
#[export] Hint Resolve ikeeps_addr_or_alloc : ikeeps.
Lemma ikeeps_bmap ip bn : ikeeps (bmap ip bn).
Proof. unfold bmap. auto 30 with ikeeps. Qed.
Lemma ikeeps_itrunc ip : ikeeps (itrunc ip).
Proof. unfold itrunc, itrunc_direct. auto 40 with ikeeps. Qed.
Lemma ikeeps_ilock ip : ikeeps (ilock ip).
Proof. unfold ilock. destruct ip; auto 30 with ikeeps. Qed.
Lemma ikeeps_iunlock ip : ikeeps (iunlock ip).
Proof. unfold iunlock. destruct ip; auto 30 with ikeeps. Qed.
#[export] Hint Resolve ikeeps_bmap ikeeps_itrunc ikeeps_ilock ikeeps_iunlock : ikeeps.
Lemma ikeeps_consoleread ip n : ikeeps (consoleread ip n).
Proof.
  unfold consoleread. do 3 (apply ikeeps_bind; [auto with ikeeps|]; intros ?). destruct v1; auto 10 with ikeeps.
Qed.
Lemma ikeeps_readi_loop fuel ip off n tot out : ikeeps (readi_loop fuel ip off n tot out).
Proof.
  revert off tot out. induction fuel as [|fuel IH]; intros off tot out; cbn [readi_loop]; [auto with ikeeps|].
  apply ikeeps_if; [|auto with ikeeps]. do 5 (apply ikeeps_bind; [auto with ikeeps|]; intros ?). apply IH.
Qed.
Lemma ikeeps_readi ip off n : ikeeps (readi ip off n).
Proof.
  unfold readi. apply ikeeps_bind; [auto with ikeeps|]. intros i. apply ikeeps_if.
  - apply ikeeps_bind; [auto with ikeeps|]. intros s. destruct (dev_entry _ _); [apply ikeeps_consoleread|auto with ikeeps].
  - apply ikeeps_if; [auto with ikeeps|]. apply ikeeps_bind; [apply ikeeps_readi_loop|auto with ikeeps].
Qed.
#[export] Hint Resolve ikeeps_readi : ikeeps.

(** * Counting references *)

Definition val (e : Z * Z * Z) (d n : Z) : Z :=
  let '(d', n', r) := e in if bool_decide (0 < r ∧ d' = d ∧ n' = n) then r else 0.
(** The number of references to inode [n] of device [d]. *)
Fixpoint count (K : list (Z * Z * Z)) (d n : Z) : Z :=
  match K with [] => 0 | e :: K' => val e d n + count K' d n end.

(** Counts are not negative, and an inode has one entry. *)
Record refs_ok (K : list (Z * Z * Z)) : Prop := RefsOk {
  ro_pos k d n r : K !! k = Some (d, n, r) → 0 ≤ r;
  ro_uniq j k d n r r' : K !! j = Some (d, n, r) → K !! k = Some (d, n, r') → 0 < r → 0 < r' → j = k
}.

Lemma count_insert K k e e' d n : K !! k = Some e → count (<[k := e']> K) d n = count K d n - val e d n + val e' d n.
Proof.
  revert k. induction K as [|x K IH]; intros [|k] H; [done|done| |].
  - injection H as ->. simpl. lia.
  - simpl. rewrite (IH k H). lia.
Qed.

Lemma refs_ok_change K k d n r r' :
  refs_ok K → K !! k = Some (d, n, r) → 0 < r → 0 ≤ r' → refs_ok (<[k := (d, n, r')]> K).
Proof.
  intros [H1 H2] Hk Hr Hr'. assert (k < length K)%nat by (by eapply lookup_lt_Some). split.
  - intros j d1 n1 r1 Hj. destruct (decide (j = k)) as [->|Hne].
    + rewrite list_lookup_insert_eq in Hj by done. by injection Hj as <- <- <-.
    + rewrite list_lookup_insert_ne in Hj by done. by eapply H1.
  - intros j1 j2 d1 n1 r1 r2 Hj1 Hj2 Hp1 Hp2. destruct (decide (j1 = k)) as [->|Hn1], (decide (j2 = k)) as [->|Hn2]; [done|..].
    + rewrite list_lookup_insert_eq in Hj1 by done. rewrite list_lookup_insert_ne in Hj2 by done. injection Hj1 as <- <- <-. by eapply H2.
    + rewrite list_lookup_insert_ne in Hj1 by done. rewrite list_lookup_insert_eq in Hj2 by done. injection Hj2 as <- <- <-. by eapply H2.
    + rewrite list_lookup_insert_ne in Hj1, Hj2 by done. by eapply H2.
Qed.

(** A free entry taken for an inode that has none. *)
Lemma refs_ok_recycle K k e d n :
  refs_ok K → K !! k = Some e → (∀ j r, K !! j = Some (d, n, r) → ¬ 0 < r) → refs_ok (<[k := (d, n, 1)]> K).
Proof.
  intros [H1 H2] Hk Hno. assert (k < length K)%nat by (by eapply lookup_lt_Some). split.
  - intros j d1 n1 r1 Hj. destruct (decide (j = k)) as [->|Hne].
    + rewrite list_lookup_insert_eq in Hj by done. injection Hj as <- <- <-. lia.
    + rewrite list_lookup_insert_ne in Hj by done. by eapply H1.
  - intros j1 j2 d1 n1 r1 r2 Hj1 Hj2 Hp1 Hp2. destruct (decide (j1 = k)) as [->|Hn1], (decide (j2 = k)) as [->|Hn2]; [done|..].
    + rewrite list_lookup_insert_eq in Hj1 by done. rewrite list_lookup_insert_ne in Hj2 by done. injection Hj1 as <- <- <-. by edestruct Hno.
    + rewrite list_lookup_insert_ne in Hj1 by done. rewrite list_lookup_insert_eq in Hj2 by done. injection Hj2 as <- <- <-. by edestruct Hno.
    + rewrite list_lookup_insert_ne in Hj1, Hj2 by done. by eapply H2.
Qed.

(** One more reference to [n] on [d], held through entry [ip]. *)
Definition one (d n d' n' : Z) : Z := if bool_decide (d = d' ∧ n = n') then 1 else 0.
Definition acquired (K K' : list (Z * Z * Z)) (ip : nat) (d n : Z) : Prop :=
  refs_ok K' ∧ (∃ r, K' !! ip = Some (d, n, r) ∧ 0 < r) ∧
  (∀ d' n', count K' d' n' = count K d' n' + one d n d' n') ∧
  (∀ k d' n' c, K !! k = Some (d', n', c) → 0 < c → K' !! k = Some (d', n', c + if bool_decide (k = ip) then 1 else 0)).
(** One reference less, of the ones that entry [ip] has. *)
Definition dropped (K K' : list (Z * Z * Z)) (ip : nat) (d n : Z) : Prop :=
  refs_ok K' ∧ (∀ d' n', count K' d' n' = count K d' n' - one d n d' n') ∧
  (∀ k d' n' c, K !! k = Some (d', n', c) → K' !! k = Some (d', n', c - if bool_decide (k = ip) then 1 else 0)).

Lemma iget_scan_spec l k dev inum empty :
  match iget_scan l k dev inum empty with
  | inl j => ∃ i, (k ≤ j)%nat ∧ l !! (j - k)%nat = Some i ∧ 0 < i_ref i ∧ i_dev i = dev ∧ i_inum i = inum
  | inr e => (∀ j i, l !! j = Some i → ¬ (0 < i_ref i ∧ i_dev i = dev ∧ i_inum i = inum)) ∧
      (e = empty ∨ ∃ j i, e = Some j ∧ (k ≤ j)%nat ∧ l !! (j - k)%nat = Some i ∧ i_ref i = 0)
  end.
Proof.
  revert k empty. induction l as [|i l IH]; intros k empty; cbn [iget_scan]; [by split; [|left]|].
  destruct (bool_decide (0 < i_ref i) && bool_decide (i_dev i = dev) && bool_decide (i_inum i = inum)) eqn:E.
  - rewrite !andb_true_iff, !bool_decide_eq_true in E. exists i. rewrite Nat.sub_diag. naive_solver.
  - set (e1 := if bool_decide (empty = None) && bool_decide (i_ref i = 0) then Some k else empty).
    specialize (IH (S k) e1). destruct (iget_scan l (S k) dev inum e1) as [j|e].
    + destruct IH as (x & Hj & Hx & Hr). exists x. split; [lia|]. replace (j - k)%nat with (S (j - S k)) by lia. done.
    + destruct IH as [Hno He]. split.
      * intros [|j] x Hx; [|by apply (Hno j)]. injection Hx as <-. intros (H1 & H2 & H3).
        rewrite !bool_decide_true in E by done. done.
      * destruct He as [->|(j & x & -> & Hj & Hx & Hr)].
        -- unfold e1. destruct (bool_decide (empty = None)) eqn:E1; simpl; [|by left].
           destruct (bool_decide (i_ref i = 0)) eqn:E2; [|by left]. right. exists k, i. rewrite Nat.sub_diag.
           apply bool_decide_eq_true in E2. by split_and!.
        -- right. exists j, x. split_and!; [done|lia| |done]. replace (j - k)%nat with (S (j - S k)) by lia. done.
Qed.

Lemma keys_lookup s ip i : f_inodes s !! ip = Some i → keys s !! ip = Some (ikey i).
Proof. intros H. unfold keys. by rewrite list_lookup_fmap, H. Qed.
Lemma keys_lookup_inv s ip e : keys s !! ip = Some e → ∃ i, f_inodes s !! ip = Some i ∧ ikey i = e.
Proof. unfold keys. rewrite list_lookup_fmap. destruct (f_inodes s !! ip) as [i|]; [|done]. intros [= <-]. by exists i. Qed.

(** A reference added to an entry in use. *)
Lemma acquired_more K k d n r : refs_ok K → K !! k = Some (d, n, r) → 0 < r → acquired K (<[k := (d, n, r + 1)]> K) k d n.
Proof.
  intros HK Hk Hr. assert (k < length K)%nat by (by eapply lookup_lt_Some). split_and!.
  - eapply refs_ok_change; try done. lia.
  - exists (r + 1). split; [by apply list_lookup_insert_eq|lia].
  - intros d' n'. rewrite (count_insert K k (d, n, r)) by done. unfold val, one. repeat case_bool_decide; lia.
  - intros j d' n' c Hj Hc. destruct (decide (j = k)) as [->|Hne].
    + rewrite list_lookup_insert_eq, bool_decide_true by done. by simplify_eq.
    + rewrite list_lookup_insert_ne, bool_decide_false by done. by rewrite Z.add_0_r.
Qed.
Lemma dropped_one K k d n r : refs_ok K → K !! k = Some (d, n, r) → 0 < r → dropped K (<[k := (d, n, r - 1)]> K) k d n.
Proof.
  intros HK Hk Hr. assert (k < length K)%nat by (by eapply lookup_lt_Some). split_and!.
  - eapply refs_ok_change; try done. lia.
  - intros d' n'. rewrite (count_insert K k (d, n, r)) by done. unfold val, one. repeat case_bool_decide; lia.
  - intros j d' n' c Hj. destruct (decide (j = k)) as [->|Hne].
    + rewrite list_lookup_insert_eq, bool_decide_true by done. by simplify_eq.
    + rewrite list_lookup_insert_ne, bool_decide_false by done. by rewrite Z.sub_0_r.
Qed.

(** * The operations *)

Lemma iupd_inv ip f s v s' t :
  iupd ip f s = Ret v s' t → ∃ i, f_inodes s !! ip = Some i ∧ keys s' = <[ip := ikey (f i)]> (keys s).
Proof.
  unfold iupd. intros H. inv_bind H. apply iget_ip_inv in Hm as (Hi & -> & ->). injection H as _ <- _.
  eexists. split; [done|]. by eapply keys_insert.
Qed.

Lemma iget_acquired dev inum s ip s' t :
  iget dev inum s = Ret ip s' t → refs_ok (keys s) → acquired (keys s) (keys s') ip dev inum.
Proof.
  unfold iget. intros H HK. inv_bind H. apply ikeeps_ic_acquire in Hm. rewrite bind_get in H.
  pose proof (iget_scan_spec (f_inodes s0) 0 dev inum None) as Hsc.
  rewrite <- Hm in HK |- *. destruct (iget_scan (f_inodes s0) 0 dev inum None) as [j|[e|]]; [| |done].
  - destruct Hsc as (i & _ & Hi & Hr & Hd & Hn). rewrite Nat.sub_0_r in Hi. inv_bind H. inv_bind H. injection H as -> -> _.
    apply iupd_inv in Hm0 as (i' & Hi' & E). apply ikeeps_ic_release in Hm1. rewrite Hm1, E.
    assert (i' = i) as -> by congruence. subst dev inum.
    exact (acquired_more (keys s0) ip (i_dev i) (i_inum i) (i_ref i) HK (keys_lookup _ _ _ Hi) Hr).
  - destruct Hsc as (Hno & [?|(j & i & [= ->] & _ & Hi & Hr)]); [done|]. rewrite Nat.sub_0_r in Hi. inv_bind H. inv_bind H. injection H as -> -> _.
    apply iupd_inv in Hm0 as (i' & Hi' & E). apply ikeeps_ic_release in Hm1. rewrite Hm1, E. cbn [ikey i_dev i_inum i_ref].
    assert (i' = i) as -> by congruence. pose proof (keys_lookup _ _ _ Hi) as Hk.
    assert (ip < length (keys s0))%nat by (by eapply lookup_lt_Some). split_and!.
    + eapply refs_ok_recycle; try done. intros k r (x & Hx & Ex)%keys_lookup_inv Hp. injection Ex as E1 E2 E3.
      apply (Hno k x Hx). rewrite E1, E2, E3. done.
    + exists 1. split; [by apply list_lookup_insert_eq|lia].
    + intros d' n'. rewrite (count_insert _ _ (ikey i)) by done. unfold val, one, ikey. rewrite Hr.
      rewrite bool_decide_false by lia. repeat case_bool_decide; naive_solver lia.
    + intros k d' n' c Hk' Hc. assert (k ≠ ip) as Hne by (intros ->; rewrite Hk in Hk'; injection Hk'; lia).
      rewrite list_lookup_insert_ne, bool_decide_false by done. by rewrite Z.add_0_r.
Qed.

Lemma idup_acquired ip s r s' t d n c :
  idup ip s = Ret r s' t → refs_ok (keys s) → keys s !! ip = Some (d, n, c) → 0 < c → r = ip ∧ acquired (keys s) (keys s') ip d n.
Proof.
  unfold idup. intros H HK Hk Hc. inv_bind H. inv_bind H. inv_bind H. injection H as -> -> _.
  apply ikeeps_ic_acquire in Hm. apply iupd_inv in Hm0 as (i & Hi & E). apply ikeeps_ic_release in Hm1. split; [done|].
  rewrite Hm1, E, Hm. apply keys_lookup in Hi. rewrite Hm, Hk in Hi. injection Hi as Ed En Ec.
  unfold ikey. simpl. rewrite <- Ed, <- En, <- Ec. by apply acquired_more.
Qed.

Lemma iput_dropped ip s v s' t d n c :
  iput ip s = Ret v s' t → refs_ok (keys s) → keys s !! ip = Some (d, n, c) → 0 < c → dropped (keys s) (keys s') ip d n.
Proof.
  unfold iput. intros H HK Hk Hc. inv_bind H. apply ikeeps_iacquiresleep in Hm. inv_bind H. apply iget_ip_inv in Hm0 as (_ & -> & _).
  inv_bind H. inv_bind H. inv_bind H. inv_bind H. apply ikeeps_ic_release in H.
  match type of Hm0 with ?m _ = _ => assert (ikeeps m) as Hkm by auto 30 with ikeeps end. apply Hkm in Hm0 as E2.
  apply ikeeps_on_ilock in Hm1. apply ikeeps_ic_acquire in Hm2. apply iupd_inv in Hm3 as (i & Hi & E).
  rewrite H, E, Hm2, Hm1, E2, Hm. apply keys_lookup in Hi. rewrite Hm2, Hm1, E2, Hm, Hk in Hi. injection Hi as Ed En Ec.
  unfold ikey. simpl. rewrite <- Ed, <- En, <- Ec. by apply dropped_one.
Qed.

Lemma dirlookup_loop_refs fuel dp name off s r s' t :
  dirlookup_loop fuel dp name off s = Ret r s' t → refs_ok (keys s) →
  match r with
  | None => keys s' = keys s
  | Some (ip, _) => ∃ d n, acquired (keys s) (keys s') ip d n
  end.
Proof.
  revert off s t. induction fuel as [|fuel IH]; intros off s t H HK; [done|]. cbn [dirlookup_loop] in H.
  inv_bind H. apply iget_ip_inv in Hm as (_ & -> & _). case_bool_decide; [|by injection H as <- <- _].
  inv_bind H. apply ikeeps_readi in Hm. destruct a0 as [n de]. inv_bind H. apply ikeeps_panic_if in Hm0. rewrite <- Hm, <- Hm0 in HK |- *.
  case_bool_decide; [by eapply IH|]. inv_bind H. apply ikeeps_deref in Hm1. rewrite <- Hm1 in HK |- *.
  case_bool_decide; [|by eapply IH]. inv_bind H. injection H as <- <- _. apply iget_acquired in Hm2; [|done]. by eexists _, _.
Qed.
Lemma dirlookup_refs dp name s r s' t :
  dirlookup dp name s = Ret r s' t → refs_ok (keys s) →
  match r with
  | None => keys s' = keys s
  | Some (ip, _) => ∃ d n, acquired (keys s) (keys s') ip d n
  end.
Proof.
  unfold dirlookup. intros H HK. inv_bind H. apply iget_ip_inv in Hm as (_ & -> & _). inv_bind H. apply ikeeps_panic_if in Hm.
  rewrite <- Hm in HK |- *. by eapply dirlookup_loop_refs.
Qed.

Lemma iunlockput_dropped ip s v s' t d n c :
  iunlockput ip s = Ret v s' t → refs_ok (keys s) → keys s !! ip = Some (d, n, c) → 0 < c → dropped (keys s) (keys s') ip d n.
Proof.
  unfold iunlockput. intros H HK Hk Hc. inv_bind H. apply ikeeps_iunlock in Hm. rewrite <- Hm in HK, Hk |- *. by eapply iput_dropped.
Qed.

(** ** Path lookup *)

(** The walk gives up the reference it starts with and returns one to the
    inode it ends at, or none. *)
Lemma namex_elements_refs es ip parent name s r name' s' t d n c :
  namex_elements ip es parent name s = Ret (r, name') s' t → refs_ok (keys s) → keys s !! ip = Some (d, n, c) → 0 < c →
  refs_ok (keys s') ∧
  match r with
  | None => ∀ d' n', count (keys s') d' n' = count (keys s) d' n' - one d n d' n'
  | Some ip' => ∃ d1 n1 r1, keys s' !! ip' = Some (d1, n1, r1) ∧ 0 < r1 ∧
      ∀ d' n', count (keys s') d' n' = count (keys s) d' n' - one d n d' n' + one d1 n1 d' n'
  end.
Proof.
  revert ip name s t d n c. induction es as [|e es IH]; intros ip name s t d n c H HK Hk Hc; cbn [namex_elements] in H.
  { destruct parent.
    - inv_bind H. injection H as <- _ <- _. destruct (iput_dropped _ _ _ _ _ _ _ _ Hm HK Hk Hc) as (H1 & H2 & _). done.
    - injection H as <- _ <- _. split; [done|]. exists d, n, c. split_and!; try done. intros. lia. }
  inv_bind H. apply ikeeps_ilock in Hm. rewrite <- Hm in HK, Hk |- *. inv_bind H. apply iget_ip_inv in Hm0 as (_ & -> & _).
  case_bool_decide.
  { inv_bind H. injection H as <- _ <- _. destruct (iunlockput_dropped _ _ _ _ _ _ _ _ Hm0 HK Hk Hc) as (H1 & H2 & _). done. }
  destruct (parent && bool_decide (es = [])).
  { inv_bind H. injection H as <- _ <- _. apply ikeeps_iunlock in Hm0. rewrite <- Hm0 in HK, Hk |- *. split; [done|].
    exists d, n, c. split_and!; try done. intros. lia. }
  inv_bind H. apply dirlookup_refs in Hm0; [|done]. destruct a1 as [[next off]|].
  - destruct Hm0 as (d1 & n1 & HK1 & (r1 & Hr1 & Hp1) & Hc1 & Hh1). pose proof (Hh1 _ _ _ _ Hk Hc) as Hk1. inv_bind H.
    assert (0 < c + (if bool_decide (ip = next) then 1 else 0)) as Hpc by (case_bool_decide; lia).
    destruct (iunlockput_dropped _ _ _ _ _ _ _ _ Hm0 HK1 Hk1 Hpc) as (HK2 & Hc2 & Hh2). pose proof (Hh2 _ _ _ _ Hr1) as Hr2.
    assert (0 < r1 - (if bool_decide (next = ip) then 1 else 0)) as Hpr.
    { case_bool_decide; [|lia]. subst next. rewrite bool_decide_true in Hk1 by done. rewrite Hk1 in Hr1. injection Hr1 as _ _ <-. lia. }
    destruct (IH _ _ _ _ _ _ _ H HK2 Hr2 Hpr) as [HK3 Hres]. split; [done|]. destruct r as [ip'|].
    + destruct Hres as (d2 & n2 & r2 & H1 & H2 & H3). exists d2, n2, r2. split_and!; try done. intros d' n'.
      rewrite H3, Hc2, Hc1. lia.
    + intros d' n'. rewrite Hres, Hc2, Hc1. lia.
  - inv_bind H. injection H as <- _ <- _. rewrite <- Hm0 in HK, Hk |- *.
    destruct (iunlockput_dropped _ _ _ _ _ _ _ _ Hm1 HK Hk Hc) as (H1 & H2 & _). done.
Qed.

(** C20: Path lookup is balanced.  Whenever [namex] returns, for any path and
    any contents of the disk, the inode cache has one entry per inode, and the
    reference counts are those from before, plus one for the inode returned
    (which is in the cache entry returned) or nothing when no inode is
    returned: no reference leaks or is lost on any path through the lookup. *)
Theorem namex_balanced (path : list Z) (parent : bool) (name : list Z) (s : fstate) r name' s' t :
  namex path parent name s = Ret (r, name') s' t → refs_ok (keys s) →
  (∀ cwd, f_cwd s = Some cwd → ∃ d n c, keys s !! cwd = Some (d, n, c) ∧ 0 < c) →
  refs_ok (keys s') ∧
  match r with
  | None => ∀ d n, count (keys s') d n = count (keys s) d n
  | Some ip => ∃ d n c, keys s' !! ip = Some (d, n, c) ∧ 0 < c ∧
      ∀ d' n', count (keys s') d' n' = count (keys s) d' n' + one d n d' n'
  end.
Proof.
  intros H HK Hcwd. unfold namex in H. inv_bind H. rewrite namex_loop_elements in H by lia.
  assert (∃ d n, acquired (keys s) (keys s0) a d n) as (d & n & HK0 & (c & Hc & Hp) & Hcnt & _).
  { destruct (bool_decide (head path = Some slash)).
    - eexists _, _. by eapply iget_acquired.
    - rewrite bind_get in Hm. destruct (f_cwd s) as [cwd|] eqn:E; [|done]. unfold deref in Hm. rewrite bind_mret in Hm.
      destruct (Hcwd cwd eq_refl) as (d & n & c & Hk & Hp). destruct (idup_acquired _ _ _ _ _ _ _ _ Hm HK Hk Hp) as [-> Ha]. by exists d, n. }
  destruct (namex_elements_refs _ _ _ _ _ _ _ _ _ _ _ _ H HK0 Hc Hp) as [HK1 Hres]. split; [done|]. destruct r as [ip|].
  - destruct Hres as (d1 & n1 & r1 & H1 & H2 & H3). exists d1, n1, r1. split_and!; try done. intros d' n'. rewrite H3, Hcnt. lia.
  - intros d' n'. rewrite Hres, Hcnt. lia.
Qed.

(** Looking a name up in an inode that is not a directory. *)
Lemma namex_balanced_witness :
  ∃ nm s' t, namex (str "/x") false (replicate 14 0) (ex_state T_FILE) = Ret (None, nm) s' t ∧
    ∀ d n, count (keys s') d n = count (keys (ex_state T_FILE)) d n.
Proof.
  assert (match namex (str "/x") false (replicate 14 0) (ex_state T_FILE) with Ret (None, _) _ _ => true | _ => false end = true) as Hrun
    by (by vm_compute).
  destruct (namex (str "/x") false (replicate 14 0) (ex_state T_FILE)) as [[[ip|] nm] s' t| | | |] eqn:E; try discriminate Hrun.
  exists nm, s', t. split; [done|].
  refine (proj2 (namex_balanced (str "/x") false (replicate 14 0) (ex_state T_FILE) None nm s' t E _ _)).
  - split.
    + intros [|k] d n r H; [|done]. injection H as <- <- <-. lia.
    + intros [|j] [|k] d n r r' H1 H2 _ _; [done|done|done|done].
  - done.
Defined.
