(* ===== verification/Directory.v ===== *)
(** A directory as a finite map from names to inode numbers: [dirlookup]
    looks a name up in it, [dirlink] inserts a name. *)
From S2P Require Import Prelude Layout Bytes Spinlock Sleeplock CString Format Bio Log Console Fs FsSpec FsFile FsDir FsRef.

(** * Directory contents *)

(** The entries of a directory with the contents [C]: inode number and name. *)
Definition dent_at (C : list Z) (k : nat) : list Z := slice C (16 * k) 16.
Definition dent_of (de : list Z) : Z * list Z := (de_inum de, dname (de_name de)).
Definition dents (C : list Z) (n : nat) : list (Z * list Z) := (λ k, dent_of (dent_at C k)) <$> seq 0 n.

(** The first used entry with the name: its position and inode number. *)
Fixpoint dfind (E : list (Z * list Z)) (nm : list Z) : option (nat * Z) :=
  match E with
  | [] => None
  | (x, y) :: E' =>
      if decide (x ≠ 0 ∧ y = nm) then Some (0%nat, x)
      else match dfind E' nm with Some (k, z) => Some (S k, z) | None => None end
  end.
Definition dlookup (E : list (Z * list Z)) (nm : list Z) : option Z := snd <$> dfind E nm.
(** The first free entry, or the end. *)
Fixpoint dfree (E : list (Z * list Z)) : nat :=
  match E with [] => O | (x, _) :: E' => if decide (x = 0) then O else S (dfree E') end.

Lemma dfree_le E : (dfree E ≤ length E)%nat.
Proof. induction E as [|[x y] E IH]; simpl; [lia|]. case_decide; lia. Qed.
Lemma dfree_zero E e : E !! dfree E = Some e → e.1 = 0.
Proof. induction E as [|[x y] E IH]; [done|]. simpl. case_decide; [by intros [= <-]|]. done. Qed.

(** The entry list with an entry put at [k], at most at its end. *)
Definition dput (k : nat) (e : Z * list Z) (E : list (Z * list Z)) : list (Z * list Z) := take k E ++ e :: drop (S k) E.

Lemma dlookup_app E1 E2 nm : dlookup (E1 ++ E2) nm = match dlookup E1 nm with Some x => Some x | None => dlookup E2 nm end.
Proof.
  unfold dlookup. induction E1 as [|[x y] E1 IH]; [done|]. simpl. case_decide; [done|].
  destruct (dfind E1 nm) as [[k z]|]; simpl in *; destruct (dfind (E1 ++ E2) nm) as [[k' z']|]; simpl in *; naive_solver.
Qed.
Lemma dlookup_cons x y E nm : dlookup ((x, y) :: E) nm = if decide (x ≠ 0 ∧ y = nm) then Some x else dlookup E nm.
Proof. unfold dlookup. simpl. case_decide; [done|]. by destruct (dfind E nm) as [[k z]|]. Qed.

Lemma dput_0 e x E : dput 0 e (x :: E) = e :: E.
Proof. unfold dput. simpl. by rewrite drop_0. Qed.
Lemma dput_S k e x E : dput (S k) e (x :: E) = x :: dput k e E.
Proof. done. Qed.

(** Inserting a name that is not there. *)
Lemma dlookup_dput E inum nm nm' :
  inum ≠ 0 → dlookup E nm = None →
  dlookup (dput (dfree E) (inum, nm) E) nm' = if decide (nm' = nm) then Some inum else dlookup E nm'.
Proof.
  intros Hi. induction E as [|[x y] E IH]; intros Hno; [change (dput _ _ []) with [(inum, nm)]; rewrite dlookup_cons; repeat case_decide; naive_solver|].
  rewrite dlookup_cons in Hno. case_decide as Hd; [done|]. cbn [dfree]. destruct (decide (x = 0)) as [Hx|Hx].
  - rewrite dput_0, !dlookup_cons. subst x. repeat case_decide; naive_solver.
  - rewrite dput_S, !dlookup_cons, (IH Hno). repeat case_decide; naive_solver.
Qed.

(** ** The bytes *)

Lemma lookup_dents C n k : (k < n)%nat → dents C n !! k = Some (dent_of (dent_at C k)).
Proof. intros H. unfold dents. by rewrite list_lookup_fmap, lookup_seq_lt. Qed.
Lemma length_dents C n : length (dents C n) = n.
Proof. unfold dents. by rewrite length_fmap, length_seq. Qed.

(** An entry written at position [k]. *)
Lemma dents_write C n k e :
  length C = (16 * n)%nat → length e = 16%nat → (k ≤ n)%nat →
  dents (take (16 * k) C ++ e ++ drop (16 * k + 16) C) (if decide (k = n) then S n else n) = dput k (dent_of e) (dents C n).
Proof.
  intros HC He Hk. set (C' := take (16 * k) C ++ e ++ drop (16 * k + 16) C).
  assert (∀ j, dent_at C' j = if decide (j = k) then e else dent_at C j) as Hd.
  { intros j. unfold dent_at, slice, C'. case_decide as E.
    - subst j. rewrite drop_app_length' by (rewrite length_take; lia). by rewrite take_app_length' by done.
    - apply list_eq. intros p. destruct (decide (p < 16)%nat); [|by rewrite !lookup_take_ge by lia].
      rewrite !lookup_take_lt, !lookup_drop by done. destruct (decide (j < k)%nat).
      + rewrite lookup_app_l by (rewrite length_take; lia). by rewrite lookup_take_lt by lia.
      + rewrite lookup_app_r by (rewrite length_take; lia). rewrite length_take, Nat.min_l by lia.
        rewrite lookup_app_r by lia. rewrite lookup_drop. f_equal. lia. }
  apply list_eq. intros j. unfold dput. destruct (decide (j < k)%nat) as [Hj|Hj].
  { rewrite lookup_app_l by (rewrite length_take, length_dents; lia). rewrite lookup_take_lt by done.
    rewrite !lookup_dents by (try case_decide; lia). rewrite Hd. by rewrite decide_False by lia. }
  rewrite lookup_app_r by (rewrite length_take, length_dents; lia). rewrite length_take, length_dents, Nat.min_l by lia.
  destruct (decide (j = k)) as [->|Hne].
  - rewrite Nat.sub_diag. simpl. rewrite lookup_dents by (try case_decide; lia). by rewrite Hd, decide_True.
  - replace (j - k)%nat with (S (j - S k)) by lia. simpl. rewrite lookup_drop. replace (S k + (j - S k))%nat with j by lia.
    destruct (decide (j < n)%nat) as [Hn|Hn].
    + rewrite !lookup_dents by (try case_decide; lia). rewrite Hd. by rewrite decide_False by done.
    + rewrite !lookup_ge_None_2; [done|rewrite length_dents; lia|rewrite length_dents; case_decide; lia].
Qed.

(** The entry that [dirlink] writes. *)
Lemma dent_of_made name inum :
  0 < inum < 65536 → readable name DIRSIZ →
  ∃ nm, strncpy (replicate DIRSIZ 0) name (Z.of_nat DIRSIZ) = Some nm ∧ length (mk_dirent inum nm) = 16%nat ∧
    dent_of (mk_dirent inum nm) = (inum, dname name) ∧ (Forall byte name → Forall byte (mk_dirent inum nm)).
Proof.
  intros Hi Hr. unfold strncpy. rewrite Nat2Z.id, strncpy_loop_spec; [|by rewrite length_replicate|done].
  rewrite drop_replicate, Nat.sub_diag, app_nil_r. eexists. split; [reflexivity|].
  set (nm := take DIRSIZ (cstr name ++ replicate DIRSIZ 0)).
  assert (length nm = DIRSIZ) as Hl by (unfold nm; rewrite length_take, length_app, length_replicate; lia).
  assert (0 ∉ cstr name) as H0.
  { clear. induction name as [|c l IH]; [set_solver|]. cbn [cstr]. case_bool_decide; set_solver. }
  split_and!.
  - unfold mk_dirent. rewrite length_app, Hl. done.
  - unfold dent_of, mk_dirent, de_inum, de_name. f_equal.
    + unfold slice. rewrite drop_0, take_app_length' by done. rewrite of_le16. unfold u16. apply Z.mod_small. lia.
    + unfold slice. rewrite drop_app_length' by done. rewrite take_ge by lia. unfold dname, nm.
      destruct (decide (DIRSIZ ≤ length (cstr name))%nat).
      * rewrite take_app_le by done. rewrite cstr_all by (intros H; by apply H0, (subseteq_take DIRSIZ (cstr name))). by rewrite take_take, Nat.min_id.
      * rewrite take_app_ge by lia. rewrite take_replicate. destruct (DIRSIZ - length (cstr name))%nat eqn:E; [lia|].
        rewrite Nat.min_l by (unfold DIRSIZ in *; lia). simpl. by rewrite cstr_stop.
  - intros Hb. apply Forall_app. split; [apply le16_bytes|]. apply Forall_take, Forall_app. split; [|apply Forall_replicate; unfold byte; lia].
    clear -Hb. induction Hb as [|c l Hc Hl IH]; [constructor|]. cbn [cstr]. case_bool_decide; [constructor|]. by constructor.
Qed.

(** * Reading a directory *)

(** A directory of [n] entries. *)
Record dir_ok (s : fstate) (dp : nat) (i : inode) (a : acache) (L m : list Z) (n : nat) : Prop := DirOk {
  do_file : file_ok s dp i a L m;
  do_type : i_type i = T_DIR;
  do_size : i_size i = 16 * Z.of_nat n
}.

Definition dir (a : acache) (i : inode) (n : nat) : list (Z * list Z) := dents (contents a i) n.

Lemma dir_ok_only_log s s' dp i a L m n : dir_ok s dp i a L m n → only_log s s' → fsrep s' a L → dir_ok s' dp i a L m n.
Proof.
  intros [[Hv H1 H2 H3 H4 H5] Ht Hs] Ho Hf. split; [|done|done].
  split; rewrite ?(only_log_sb _ _ Ho); try done. by eapply fview_only_log.
Qed.

Lemma readi_dent s dp i a L m n k :
  dir_ok s dp i a L m n → (length L < NBUF)%nat → (k < n)%nat →
  returns (readi dp (16 * Z.of_nat k) sizeof_dirent)
    (λ r s', r = (16, dent_at (contents a i) k) ∧ only_log s s' ∧ fsrep s' a L) s.
Proof.
  intros [[Hv Hio Hin Hsz Hfull _] Ht Hs] HL Hk. unfold MAXFILE, BSIZE in Hsz.
  eapply returns_mono; [apply (readi_spec s dp i a L m (16 * Z.of_nat k) sizeof_dirent); try done; unfold sizeof_dirent, MAXFILE, BSIZE; try lia; by rewrite Ht|].
  intros r s' (-> & Ho & Hf). split_and!; try done. rewrite bool_decide_false by lia.
  rewrite Z.min_l by (unfold sizeof_dirent; lia). unfold sizeof_dirent. rewrite contents_part by lia.
  unfold dent_at. do 2 f_equal. lia.
Qed.

Lemma length_dent_at a i n k : i_size i = 16 * Z.of_nat n → (k < n)%nat → length (dent_at (contents a i) k) = 16%nat.
Proof. intros Hs Hk. unfold dent_at. apply length_slice. rewrite length_contents. lia. Qed.

(** One comparison of [dirlookup]. *)
Lemma namecmp_dent s a L i n k name :
  fsrep s a L → i_size i = 16 * Z.of_nat n → (k < n)%nat → Forall byte name → readable name DIRSIZ →
  ∃ c, namecmp name (de_name (dent_at (contents a i) k)) = Some c ∧
    (c = 0 ↔ dname (de_name (dent_at (contents a i) k)) = dname name).
Proof.
  intros Hf Hs Hk Hb Hr. unfold namecmp, dname.
  destruct (strncmp_cstr name (de_name (dent_at (contents a i) k)) DIRSIZ Hb) as (c & E & Hc); try done.
  - apply Forall_slice, Forall_slice. by eapply contents_bytes.
  - right. unfold de_name. rewrite length_slice; [done|]. rewrite (length_dent_at a i n k) by done. unfold DIRSIZ. lia.
  - exists c. split; [done|]. rewrite Hc. by split.
Qed.

Lemma dfind_dents C n k nm :
  (k < n)%nat → dfind (drop k (dents C n)) nm =
    let e := dent_of (dent_at C k) in
    if decide (e.1 ≠ 0 ∧ e.2 = nm) then Some (0%nat, e.1)
    else match dfind (drop (S k) (dents C n)) nm with Some (j, z) => Some (S j, z) | None => None end.
Proof. intros Hk. rewrite (drop_S (dents C n) _ k (lookup_dents C n k Hk)). done. Qed.

Lemma returns_after {S A} (m m' : M S A) (Q : A → S → Prop) s s1 t :
  m s = prepend t (m' s1) → dwrites t = [] → returns m' Q s1 → returns m Q s.
Proof.
  intros E Ht Hr. destruct (returns_inv _ _ _ Hr) as (v & s2 & t2 & R & Ht2 & HQ).
  eapply returns_run; [rewrite E, R; reflexivity|by rewrite dwrites_app, Ht, Ht2|done].
Qed.

(** [dirlookup] from entry [k]: nothing is found, or the run continues with
    [iget] of the entry's inode number. *)
Lemma dirlookup_loop_spec fuel s dp i a L m n k name :
  dir_ok s dp i a L m n → (length L < NBUF)%nat → Forall byte name → readable name DIRSIZ → (k ≤ n)%nat → (n - k < fuel)%nat →
  match dfind (drop k (dir a i n)) (dname name) with
  | None => returns (dirlookup_loop fuel dp name (16 * Z.of_nat k)) (λ r s', r = None ∧ only_log s s' ∧ fsrep s' a L) s
  | Some (j, inum) => ∃ s1 t1, only_log s s1 ∧ fsrep s1 a L ∧ dwrites t1 = [] ∧
      dirlookup_loop fuel dp name (16 * Z.of_nat k) s =
        prepend t1 ((ip ← iget 1 inum; mret (Some (ip, 16 * Z.of_nat (k + j)))) s1)
  end.
Proof.
  revert s k. induction fuel as [|fuel IH]; intros s k Hd HL Hb Hr Hk Hf; [lia|].
  pose proof Hd as [[Hv _ _ _ _ _] Ht Hs]. pose proof Hv as [Hfs Hi Hdev _ _ _]. unfold dir in *.
  destruct (decide (k = n)) as [->|Hne].
  { rewrite drop_ge by (by rewrite length_dents). cbn [dfind dirlookup_loop]. eapply returns_eq; [by apply iget_ip_run|].
    rewrite bool_decide_false by lia. by apply returns_mret. }
  assert (k < n)%nat as Hkn by lia. rewrite dfind_dents by done. set (e := dent_at (contents a i) k).
  destruct (returns_inv _ _ _ (readi_dent s dp i a L m n k Hd HL Hkn)) as (v & s1 & t1 & R1 & Ht1 & -> & Ho1 & H1). fold e in R1.
  destruct (namecmp_dent s a L i n k name Hfs Hs Hkn Hb Hr) as (c & Ec & Hc). fold e in Ec, Hc.
  assert (dir_ok s1 dp i a L m n) as Hd1 by (by eapply dir_ok_only_log).
  specialize (IH s1 (S k) Hd1 HL Hb Hr ltac:(lia) ltac:(lia)).
  replace (16 * Z.of_nat (S k)) with (16 * Z.of_nat k + sizeof_dirent) in IH by (unfold sizeof_dirent; lia).
  set (next := dirlookup_loop fuel dp name (16 * Z.of_nat k + sizeof_dirent)) in *.
  assert (dirlookup_loop (S fuel) dp name (16 * Z.of_nat k) s =
    prepend t1 ((if bool_decide (de_inum e = 0) then next
                 else if bool_decide (c = 0) then ip ← iget 1 (de_inum e); mret (Some (ip, 16 * Z.of_nat k)) else next) s1)) as Hrun.
  { cbn [dirlookup_loop]. mstep (iget_ip_run s dp i Hi). rewrite (bool_decide_true (16 * Z.of_nat k < i_size i)) by lia.
    rewrite (bind_run _ _ _ _ _ _ R1). f_equal. rewrite (bool_decide_false (16 ≠ sizeof_dirent)) by (by intros []). cbn [panic_if].
    rewrite bind_mret. destruct (bool_decide (de_inum e = 0)); [done|]. rewrite Ec. unfold deref. rewrite bind_mret, Hdev.
    by destruct (bool_decide (c = 0)). }
  cbv zeta. destruct (decide ((dent_of e).1 ≠ 0 ∧ (dent_of e).2 = dname name)) as [[Hz Hn]|Hno].
  - simpl in Hz, Hn. rewrite bool_decide_false, bool_decide_true in Hrun by (done || by apply Hc).
    exists s1, t1. rewrite Nat.add_0_r. by split_and!.
  - assert (dirlookup_loop (S fuel) dp name (16 * Z.of_nat k) s = prepend t1 (next s1)) as Hrun'.
    { rewrite Hrun. simpl in Hno. destruct (decide (de_inum e = 0)); [by rewrite bool_decide_true|].
      rewrite bool_decide_false by done. destruct (decide (c = 0)) as [E|E]; [exfalso; by apply Hno; split; [|by apply Hc]|].
      by rewrite bool_decide_false. }
    destruct (dfind (drop (S k) (dents (contents a i) n)) (dname name)) as [[j inum]|].
    + destruct IH as (s2 & t2 & Ho2 & H2 & Ht2 & R2). exists s2, (t1 ++ t2). split_and!; [by etrans|done|by rewrite dwrites_app, Ht1, Ht2|].
      rewrite Hrun', R2, prepend_prepend. by replace (k + S j)%nat with (S k + j)%nat by lia.
    + eapply returns_after; [exact Hrun'|done|]. eapply returns_mono; [exact IH|]. intros r s2 (-> & Ho2 & H2). split_and!; [done|by etrans|done].
Qed.

Lemma div16 z : Z.to_nat (16 * Z.of_nat z / sizeof_dirent) = z.
Proof. unfold sizeof_dirent. rewrite Z.mul_comm, Z.div_mul by lia. lia. Qed.

(** The run of [dirlookup]: [iget] of what the map holds. *)
Lemma dirlookup_spec s dp i a L m n name :
  dir_ok s dp i a L m n → (length L < NBUF)%nat → Forall byte name → readable name DIRSIZ →
  match dfind (dir a i n) (dname name) with
  | None => returns (dirlookup dp name) (λ r s', r = None ∧ only_log s s' ∧ fsrep s' a L) s
  | Some (j, inum) => ∃ s1 t1, only_log s s1 ∧ fsrep s1 a L ∧ dwrites t1 = [] ∧
      dirlookup dp name s = prepend t1 ((ip ← iget 1 inum; mret (Some (ip, 16 * Z.of_nat j))) s1)
  end.
Proof.
  intros Hd HL Hb Hr. pose proof Hd as [[Hv _ _ _ _ _] Ht Hs]. pose proof Hv as [_ Hi _ _ _ _].
  pose proof (dirlookup_loop_spec (n + 2) s dp i a L m n 0 name Hd HL Hb Hr ltac:(lia) ltac:(lia)) as H.
  rewrite drop_0 in H. change (16 * Z.of_nat 0) with 0 in H.
  assert (dirlookup dp name s = dirlookup_loop (n + 2) dp name 0 s) as E.
  { unfold dirlookup. mstep (iget_ip_run s dp i Hi). rewrite bool_decide_false by (by intros []). cbn [panic_if].
    by rewrite bind_mret, Hs, div16. }
  destruct (dfind (dir a i n) (dname name)) as [[j inum]|].
  - destruct H as (s1 & t1 & ? & ? & ? & R). exists s1, t1. by rewrite E, R.
  - eapply returns_after; [rewrite E; symmetry; apply prepend_nil|done|done].
Qed.

(** * Linking *)

Lemma dfree_dents C n k :
  (k < n)%nat → dfree (drop k (dents C n)) = if decide (de_inum (dent_at C k) = 0) then O else S (dfree (drop (S k) (dents C n))).
Proof. intros Hk. by rewrite (drop_S (dents C n) _ k (lookup_dents C n k Hk)). Qed.

(** The search for an empty entry stops at the first one, or at the end. *)
Lemma dirlink_loop_spec fuel s dp i a L m n k :
  dir_ok s dp i a L m n → (length L < NBUF)%nat → (k ≤ n)%nat → (n - k < fuel)%nat →
  returns (dirlink_loop fuel dp (16 * Z.of_nat k))
    (λ r s', r = 16 * Z.of_nat (k + dfree (drop k (dir a i n))) ∧ only_log s s' ∧ fsrep s' a L) s.
Proof.
  revert s k. induction fuel as [|fuel IH]; intros s k Hd HL Hk Hf; [lia|].
  pose proof Hd as [[Hv _ _ _ _ _] Ht Hs]. pose proof Hv as [Hfs Hi _ _ _ _]. unfold dir in *. cbn [dirlink_loop].
  eapply returns_eq; [by apply iget_ip_run|]. destruct (decide (k = n)) as [->|Hne].
  { rewrite drop_ge by (by rewrite length_dents). rewrite bool_decide_false by lia. apply returns_mret. rewrite Nat.add_0_r. by split_and!. }
  rewrite bool_decide_true by lia. eapply returns_step; [apply (readi_dent s dp i a L m n k); [done|done|lia]|].
  intros r s1 (-> & Ho1 & H1). rewrite (bool_decide_false (16 ≠ sizeof_dirent)) by (by intros []). cbn [panic_if].
  eapply returns_eq; [reflexivity|]. rewrite dfree_dents by lia. destruct (decide (de_inum (dent_at (contents a i) k) = 0)).
  - rewrite bool_decide_true by done. apply returns_mret. rewrite Nat.add_0_r. by split_and!.
  - rewrite bool_decide_false by done.
    replace (16 * Z.of_nat k + sizeof_dirent) with (16 * Z.of_nat (S k)) by (unfold sizeof_dirent; lia).
    eapply returns_mono; [apply IH; try lia; try done; by eapply dir_ok_only_log|].
    intros r s2 (-> & Ho2 & H2). split_and!; [lia|by etrans|done].
Qed.

(** The blocks [dirlink] may need: none for an entry inside the directory. *)
Definition dir_room (s : fstate) (i : inode) (a : acache) (m : list Z) (n : nat) : Prop :=
  16 * Z.of_nat n + 16 ≤ MAXFILE * BSIZE ∧ ((dfree (dir a i n) < n)%nat ∨ (need (i_addrs i) < nfree (f_sb s) m)%nat).

Lemma span_dent k : span (16 * k) 16 = 1.
Proof. unfold span, BSIZE. rewrite bool_decide_false by lia. Z.div_mod_to_equations. lia. Qed.

Lemma dir_supply s dp i a L m n :
  dir_ok s dp i a L m n → dir_room s i a m n → supply s a m (i_addrs i) (16 * Z.of_nat (dfree (dir a i n))) 16.
Proof.
  intros [[_ _ _ _ Hfull _] _ Hs] [_ [Hn|Hn]]; [left|right; rewrite span_dent; lia].
  intros j Hj Hj'. apply Hfull. unfold BSIZE in *. Z.div_mod_to_equations. lia.
Qed.

Lemma credit_only_log s s' A L c : credit s A L c → only_log s s' → credit s' A L c.
Proof. intros [H1 H2] Ho. split; [by rewrite (only_log_sb _ _ Ho)|by rewrite (only_log_out _ _ Ho)]. Qed.

Lemma credit_bufs s dp i a L m c : file_ok s dp i a L m → credit s (i_addrs i) L c → (length L < NBUF)%nat.
Proof.
  intros Hfo [Hc _]. pose proof (length_cost (f_sb s) (i_addrs i) L).
  destruct (ly_nlog _ (fr_layout _ _ _ (fv_rep _ _ _ _ _ _ (fo_view _ _ _ _ _ _ Hfo)))) as [_ Hn30].
  unfold NBUF, LOGSIZE, MAXOPBLOCKS in *. lia.
Qed.

(** A name that is not in the directory is put at the first free entry. *)
Lemma dirlink_spec s dp i a L m n name inum :
  dir_ok s dp i a L m n → Forall byte name → readable name DIRSIZ → 0 < inum < 65536 →
  dlookup (dir a i n) (dname name) = None → dir_room s i a m n → credit s (i_addrs i) L 1 →
  returns (dirlink dp name inum)
    (λ r s', r = 0 ∧ ∃ i' a' L' m' n', dir_ok s' dp i' a' L' m' n' ∧ (length L' < NBUF)%nat ∧
       dir a' i' n' = dput (dfree (dir a i n)) (inum, dname name) (dir a i n)) s.
Proof.
  intros Hd Hb Hr Hinum Hno Hroom Hc. pose proof Hd as [Hfo Ht Hs]. pose proof (credit_bufs _ _ _ _ _ _ _ Hfo Hc) as HL.
  assert (dfind (dir a i n) (dname name) = None) as Hnf.
  { unfold dlookup in Hno. by destruct (dfind (dir a i n) (dname name)). }
  pose proof (dirlookup_spec s dp i a L m n name Hd HL Hb Hr) as H. rewrite Hnf in H.
  unfold dirlink. eapply returns_step; [exact H|]. clear H. intros r s1 (-> & Ho1 & H1).
  assert (dir_ok s1 dp i a L m n) as Hd1 by (by eapply dir_ok_only_log).
  eapply returns_eq; [apply iget_ip_run, Hd1|]. rewrite Hs, div16.
  eapply returns_step; [apply (dirlink_loop_spec _ s1 dp i a L m n 0); try done; lia|].
  rewrite drop_0. intros off s2 (-> & Ho2 & H2). cbn [Nat.add]. set (k := dfree (dir a i n)).
  assert (dir_ok s2 dp i a L m n) as Hd2 by (by eapply dir_ok_only_log). assert (only_log s s2) as Ho by (by etrans).
  destruct (dent_of_made name inum Hinum Hr) as (nm & -> & Hlen & Hof & Hby).
  eapply returns_eq; [reflexivity|]. pose proof (dfree_le (dir a i n)) as Hk. fold k in Hk.
  assert (length (dir a i n) = n) as Hld by (apply length_dents). rewrite Hld in Hk.
  pose proof (dir_supply s2 dp i a L m n Hd2) as Hsup. fold k in Hsup.
  assert (dir_room s2 i a m n) as Hroom2 by (unfold dir_room; by rewrite (only_log_sb _ _ Ho)).
  assert (Z.of_nat (length (mk_dirent inum nm)) = 16) as El by lia.
  eapply returns_step.
  { pose proof (writei_spec s2 dp i a L m (16 * Z.of_nat k) (mk_dirent inum nm)) as W. rewrite El, span_dent in W.
    apply W; clear W; [apply Hd2|by rewrite Ht|lia|by apply Hby|destruct Hroom; lia|by eapply credit_only_log|by apply Hsup]. }
  intros r s3 (-> & i' & a' & L' & m' & Hfo' & _ & Ei & Hcont & HL' & _). eapply returns_eq; [reflexivity|].
  apply returns_mret. split; [done|]. exists i', a', L', m', (if decide (k = n) then S n else n). split_and!.
  - split; [done|by rewrite Ei|]. rewrite Ei. simpl. case_decide; lia.
  - rewrite (only_log_sb _ _ Ho) in HL'. pose proof (length_cost (f_sb s) (i_addrs i) L). destruct Hc as [Hc _].
    destruct (ly_nlog _ (fr_layout _ _ _ (fv_rep _ _ _ _ _ _ (fo_view _ _ _ _ _ _ Hfo)))) as [_ Hn30].
    unfold NBUF, LOGSIZE, MAXOPBLOCKS in *. change (Z.to_nat 1) with 1%nat in HL'. lia.
  - unfold dir. rewrite Hcont, Hlen. replace (Z.to_nat (16 * Z.of_nat k)) with (16 * k)%nat by lia.
    rewrite dents_write; [by rewrite Hof|rewrite length_contents; lia|done|done].
Qed.

(** C18: A directory is a finite map from names to inode numbers.  [dirlookup]
    is its lookup: for a name in no used entry it returns 0, for any other it
    returns the inode that [iget] has for the number in the first used entry
    with that name (compared up to [DIRSIZ] characters), and that entry's
    offset; it never reads past the directory, writes nothing and leaves the
    cached inodes alone.  [dirlink] is its insertion: of a name that is not in
    the directory, with room in the log and a free entry or block, it returns
    0 and leaves a directory (its contents, size, inode on disk and blocks
    consistent) in which the name has the given inode number and every other
    name has what it had; nothing is written to the disk before the commit. *)
Theorem directory_is_map s dp i a L m n :
  dir_ok s dp i a L m n → (length L < NBUF)%nat →
  (∀ name, Forall byte name → readable name DIRSIZ →
     ∃ s1 t1, only_log s s1 ∧ fsrep s1 a L ∧ dwrites t1 = [] ∧
       dirlookup dp name s = prepend t1 (match dfind (dir a i n) (dname name) with
         | None => Ret None s1 []
         | Some (j, inum) => (ip ← iget 1 inum; mret (Some (ip, 16 * Z.of_nat j))) s1
         end)) ∧
  (∀ name inum, Forall byte name → readable name DIRSIZ → 0 < inum < 65536 →
     dlookup (dir a i n) (dname name) = None → dir_room s i a m n → credit s (i_addrs i) L 1 →
     ∃ s' t i' a' L' m' n', dirlink dp name inum s = Ret 0 s' t ∧ dwrites t = [] ∧ dir_ok s' dp i' a' L' m' n' ∧
       (length L' < NBUF)%nat ∧
       ∀ nm, dlookup (dir a' i' n') nm = if decide (nm = dname name) then Some inum else dlookup (dir a i n) nm).
Proof.
  intros Hd HL. split.
  - intros name Hb Hr. pose proof (dirlookup_spec s dp i a L m n name Hd HL Hb Hr) as H.
    destruct (dfind (dir a i n) (dname name)) as [[j inum]|]; [done|].
    destruct (returns_inv _ _ _ H) as (v & s1 & t1 & R & Ht & -> & Ho & Hf). exists s1, t1. split_and!; [done..|].
    rewrite R. simpl. by rewrite app_nil_r.
  - intros name inum Hb Hr Hi Hno Hroom Hc.
    destruct (returns_inv _ _ _ (dirlink_spec s dp i a L m n name inum Hd Hb Hr Hi Hno Hroom Hc))
      as (v & s' & t & R & Ht & -> & i' & a' & L' & m' & n' & Hd' & HL' & E).
    exists s', t, i', a', L', m', n'. split_and!; [done..|]. intros nm. rewrite E. apply dlookup_dput; [lia|done].
Qed.

(** * An example *)

(** "etc" *)
Definition ex_name : list Z := [101; 116; 99; 0].

Lemma ex_dir : dir_ok (ex_state T_DIR) 0 (ex_inode T_DIR) (a_boot (ex_disk T_DIR)) [] ex_map 32.
Proof. split; [apply ex_file; unfold T_DIR; lia|done|done]. Qed.
Lemma ex_readable : readable ex_name DIRSIZ ∧ Forall byte ex_name.
Proof. split; [left; unfold ex_name; set_solver|]. repeat constructor; unfold byte; lia. Qed.

Lemma directory_is_map_witness :
  (∃ s1 t1, dirlookup 0 ex_name (ex_state T_DIR) = prepend t1 (Ret None s1 [])) ∧
  ∃ s' t i' a' L' m' n', dirlink 0 ex_name 5 (ex_state T_DIR) = Ret 0 s' t ∧ dir_ok s' 0 i' a' L' m' n' ∧
    dlookup (dir a' i' n') (dname ex_name) = Some 5.
Proof.
  destruct (directory_is_map (ex_state T_DIR) 0 (ex_inode T_DIR) (a_boot (ex_disk T_DIR)) [] ex_map 32 ex_dir ltac:(unfold NBUF; simpl; lia)) as [Hf Hi].
  split.
  - destruct (Hf ex_name (proj2 ex_readable) (proj1 ex_readable)) as (s1 & t1 & _ & _ & _ & R). exists s1, t1. rewrite R.
    assert (dfind (dir (a_boot (ex_disk T_DIR)) (ex_inode T_DIR) 32) (dname ex_name) = None) as -> by (by vm_compute). done.
  - destruct (Hi ex_name 5 (proj2 ex_readable) (proj1 ex_readable)) as (s' & t & i' & a' & L' & m' & n' & R & _ & Hd & _ & Hl).
    + lia.
    + by vm_compute.
    + split; [done|]. right. apply Nat.ltb_lt. by vm_compute.
    + split; [|done]. by vm_compute.
    + exists s', t, i', a', L', m', n'. split_and!; [done|done|]. rewrite Hl. by rewrite decide_True.
Defined.
