(* ===== verification/Mkfs.v ===== *)
(** The program that makes the file system image (src/mkfs.c).

    The image is a list of blocks; the files to be put into it are given by
    their names and contents.  A failed [assert] or host system call ends the
    program ([None]). *)
From S2P Require Import Prelude Layout Bytes Bio Log Fs.

Module Mkfs.

Definition NINODES : Z := 200.
Definition nbitmap : Z := FSSIZE / (BSIZE * 8) + 1.
Definition ninodeblocks : Z := NINODES / IPB + 1.
Definition nlog : Z := Z.of_nat LOGSIZE.
Definition nmeta : Z := 2 + nlog + ninodeblocks + nbitmap.
Definition nblocks : Z := FSSIZE - nmeta.

(** [struct dinode] with the fields that mkfs writes. *)
Record dinode := Dinode { din_type : Z; din_major : Z; din_minor : Z; din_nlink : Z; din_size : Z; din_addrs : list Z }.
Definition set_dsize v d := Dinode (din_type d) (din_major d) (din_minor d) (din_nlink d) v (din_addrs d).
Definition set_daddr i v d := Dinode (din_type d) (din_major d) (din_minor d) (din_nlink d) (din_size d) (<[i := v]> (din_addrs d)).

(** The globals, with the image. *)
Record mstate := MState { m_img : list (list Z); m_sb : superblock; freeinode : Z; freeblock : Z }.
Definition set_img v m := MState v (m_sb m) (freeinode m) (freeblock m).

(** [xshort] and [xint] put an integer in Intel byte order. *)
Definition xshort (x : Z) : list Z := le16 x.
Definition xint (x : Z) : list Z := le32 x.

Definition superblock_bytes (sb : superblock) : list Z :=
  xint (sb_size sb) ++ xint (sb_nblocks sb) ++ xint (sb_ninodes sb) ++ xint (sb_nlog sb) ++
  xint (sb_logstart sb) ++ xint (sb_inodestart sb) ++ xint (sb_bmapstart sb).
Definition dinode_bytes (d : dinode) : list Z :=
  xshort (din_type d) ++ xshort (din_major d) ++ xshort (din_minor d) ++ xshort (din_nlink d) ++
  xint (din_size d) ++ (din_addrs d ≫= xint).
Definition dinode_of (b : list Z) : dinode :=
  Dinode (of_le (slice b 0 2)) (of_le (slice b 2 2)) (of_le (slice b 4 2)) (of_le (slice b 6 2)) (of_le (slice b 8 4))
    ((λ k, of_le (slice b (12 + 4 * k) 4)) <$> seq 0 13).

(** [wsect] and [rsect]: seek to the block and write or read it. *)
Definition wsect (sec : Z) (buf : list Z) (m : mstate) : option mstate :=
  if bool_decide (Z.to_nat sec < length (m_img m))%nat then Some (set_img (<[Z.to_nat sec := buf]> (m_img m)) m) else None.
Definition rsect (sec : Z) (m : mstate) : option (list Z) := m_img m !! Z.to_nat sec.

Definition winode (inum : Z) (ip : dinode) (m : mstate) : option mstate :=
  let bn := IBLOCK inum (m_sb m) in
  buf ← rsect bn m;
  wsect bn (splice buf (dip_of inum) (dinode_bytes ip)) m.
Definition rinode (inum : Z) (m : mstate) : option dinode :=
  let bn := IBLOCK inum (m_sb m) in
  buf ← rsect bn m;
  Some (dinode_of (slice buf (dip_of inum) sizeof_dinode)).

Definition ialloc (type : Z) (m : mstate) : option (Z * mstate) :=
  let inum := freeinode m in
  let m := MState (m_img m) (m_sb m) (freeinode m + 1) (freeblock m) in
  m ← winode inum (Dinode type 0 0 1 0 (replicate 13 0)) m;
  Some (inum, m).

(** [freeblock++] *)
Definition take_block (m : mstate) : Z * mstate :=
  (freeblock m, MState (m_img m) (m_sb m) (freeinode m) (freeblock m + 1)).

Definition balloc (used : Z) (m : mstate) : option mstate :=
  if bool_decide (used < BSIZE * 8) then
    wsect (sb_bmapstart (m_sb m)) (foldl (λ buf i, set_bit (Z.of_nat i) buf) (replicate 512 0) (seq 0 (Z.to_nat used))) m
  else None.

(** The block of file block [fbn], allocated if there is none. *)
Definition iappend_block (din : dinode) (fbn : Z) (m : mstate) : option (Z * dinode * mstate) :=
  if bool_decide (fbn < Z.of_nat NDIRECT) then
    x ← din_addrs din !! Z.to_nat fbn;
    if bool_decide (x = 0) then
      let '(x, m) := take_block m in Some (x, set_daddr (Z.to_nat fbn) x din, m)
    else Some (x, din, m)
  else
    ib ← din_addrs din !! NDIRECT;
    let '(ib, din, m) :=
      if bool_decide (ib = 0) then let '(ib, m) := take_block m in (ib, set_daddr NDIRECT ib din, m) else (ib, din, m) in
    indirect ← rsect ib m;
    let i := Z.to_nat (fbn - Z.of_nat NDIRECT) in
    if bool_decide (word indirect i = 0) then
      let '(x, m) := take_block m in
      m ← wsect ib (set_word i x indirect) m;
      Some (x, din, m)
    else Some (word indirect i, din, m).

Fixpoint iappend_loop (fuel : nat) (p : list Z) (off : Z) (din : dinode) (m : mstate) : option (Z * dinode * mstate) :=
  match fuel with
  | O => None
  | S fuel' =>
      if bool_decide (0 < length p)%nat then
        let fbn := off / BSIZE in
        if bool_decide (MAXFILE ≤ fbn) then None else
        '(x, din, m) ← iappend_block din fbn m;
        let n1 := Fs.min (Z.of_nat (length p)) ((fbn + 1) * BSIZE - off) in
        buf ← rsect x m;
        m ← wsect x (splice buf (Z.to_nat (off - fbn * BSIZE)) (take (Z.to_nat n1) p)) m;
        iappend_loop fuel' (drop (Z.to_nat n1) p) (off + n1) din m
      else Some (off, din, m)
  end.
Definition iappend (inum : Z) (p : list Z) (m : mstate) : option mstate :=
  din ← rinode inum m;
  '(off, din, m) ← iappend_loop (S (length p)) p (din_size din) din m;
  winode inum (set_dsize off din) m.

(** A directory entry: [bzero(&de)], the inode number and the name. *)
Definition dirent (inum : Z) (name : list Z) : list Z :=
  take 16 (xshort inum ++ take DIRSIZ name ++ replicate DIRSIZ 0).

(** [while((cc = read(fd, buf, sizeof(buf))) > 0) iappend(inum, buf, cc);] *)
Fixpoint iappend_file (fuel : nat) (inum : Z) (content : list Z) (m : mstate) : option mstate :=
  match fuel with
  | O => None
  | S fuel' =>
      match content with
      | [] => Some m
      | _ => m ← iappend inum (take 512 content) m; iappend_file fuel' inum (drop 512 content) m
      end
  end.

(** One file of the command line. *)
Definition add_file (rootino : Z) (name content : list Z) (m : mstate) : option mstate :=
  if bool_decide (slash ∈ name) then None else
  let name := match name with c :: name' => if bool_decide (c = 95) then name' else name | [] => [] end in
  '(inum, m) ← ialloc T_FILE m;
  m ← iappend rootino (dirent inum name) m;
  iappend_file (S (length content)) inum content m.
Fixpoint add_files (rootino : Z) (files : list (list Z * list Z)) (m : mstate) : option mstate :=
  match files with
  | [] => Some m
  | (name, content) :: files' => m ← add_file rootino name content m; add_files rootino files' m
  end.

Definition sb : superblock :=
  Superblock FSSIZE nblocks NINODES nlog 2 (2 + nlog) (2 + nlog + ninodeblocks).

(** [main]: the image for the files. *)
Definition main (files : list (list Z * list Z)) : option (list (list Z)) :=
  let m := MState (replicate (Z.to_nat FSSIZE) (replicate 512 0)) sb 1 nmeta in
  m ← wsect 1 (splice (replicate 512 0) 0 (superblock_bytes sb)) m;
  '(rootino, m) ← ialloc T_DIR m;
  if bool_decide (rootino ≠ ROOTINO) then None else
  m ← iappend rootino (dirent rootino (str ".")) m;
  m ← iappend rootino (dirent rootino (str "..")) m;
  m ← add_files rootino files m;
  din ← rinode rootino m;
  let off := (din_size din / BSIZE + 1) * BSIZE in
  m ← winode rootino (set_dsize off din) m;
  m ← balloc (freeblock m) m;
  Some (m_img m).

End Mkfs.
