(* ===== verification/MkfsSpec.v ===== *)
(** The image that mkfs builds (src/mkfs.c) is a file system as the kernel
    (src/fs.c) understands it: the superblock, the bitmap, the inodes and the
    root directory are right, and every file holds its contents in blocks of
    its own. *)
From S2P Require Import Prelude Layout Bytes Bio Log Fs FsSpec FsFile FsDir FsRef Directory Mkfs.
Import Mkfs.

Ltac consts := change nmeta with 59 in *; change FSSIZE with 1000 in *.

(** * Files in the image *)

(** A file of the image: the inode's fields, the bytes appended so far and
    the block addresses. *)
Record ffile := FFile { ff_type : Z; ff_size : Z; ff_data : list Z; ff_addrs : list Z }.

Implicit Types (D : list (list Z)) (F : list ffile) (f : ffile).

(** The blocks from [fb] on are free and clear; those below belong each to one
    slot of one file, and the file's blocks hold its bytes. *)
Record data_ok D (fb : Z) F : Prop := DataOk {
  dk_len : length D = Z.to_nat FSSIZE;
  dk_blocks : Forall block_ok D;
  dk_fb : nmeta ≤ fb ≤ FSSIZE;
  dk_free x : fb ≤ x < FSSIZE → D !! Z.to_nat x = Some zero_block;
  dk_addrs j f : F !! j = Some f → length (ff_addrs f) = 13%nat ∧ Forall (λ x, 0 ≤ x < 4294967296) (ff_addrs f);
  dk_in j f k : F !! j = Some f → (k ≤ 140)%nat → slot D (ff_addrs f) k ≠ 0 → nmeta ≤ slot D (ff_addrs f) k < fb;
  dk_inj j f k j' f' k' : F !! j = Some f → F !! j' = Some f' → (k ≤ 140)%nat → (k' ≤ 140)%nat →
    slot D (ff_addrs f) k = slot D (ff_addrs f') k' → slot D (ff_addrs f) k ≠ 0 → j = j' ∧ k = k';
  dk_bytes j f p : F !! j = Some f → 0 ≤ p < MAXFILE * BSIZE → slot D (ff_addrs f) (Z.to_nat (p / BSIZE)) ≠ 0 →
    fbyte D (ff_addrs f) p = default 0 (ff_data f !! Z.to_nat p)
}.

(** ** Slots *)

Lemma slot_direct D A k : (k < 12)%nat → slot D A k = default 0 (A !! k).
Proof. intros. unfold slot. by rewrite bool_decide_true. Qed.
Lemma slot_indirect D A k :
  (12 ≤ k < 140)%nat → slot D A k = if bool_decide (slot D A 140 = 0) then 0
    else match D !! Z.to_nat (slot D A 140) with Some d => word d (k - 12) | None => 0 end.
Proof. intros. rewrite slot_140. unfold slot. rewrite !bool_decide_false by lia. done. Qed.

(** The slots of a list of addresses depend on its indirect block only. *)
Lemma slot_same D D' A k :
  (slot D A 140 ≠ 0 → D' !! Z.to_nat (slot D A 140) = D !! Z.to_nat (slot D A 140)) → (k ≤ 140)%nat → slot D' A k = slot D A k.
Proof.
  intros H Hk. destruct (decide (k < 12)%nat); [by rewrite !slot_direct by done|].
  destruct (decide (k = 140)%nat) as [->|]; [done|]. rewrite (slot_indirect D' A k), (slot_indirect D A k) by lia. rewrite !slot_140 in *.
  destruct (decide (default 0 (A !! 12%nat) = 0)) as [E|E]; [by rewrite !bool_decide_true by done|].
  by rewrite !bool_decide_false, H by done.
Qed.

(** ** Taking a block *)

Definition set_addr (i : nat) (x : Z) f : ffile := FFile (ff_type f) (ff_size f) (ff_data f) (<[i := x]> (ff_addrs f)).

(** What a new block [fb] in slot [k] of file [j] does to the slots. *)
Definition new_slot D D' F (j k : nat) (fb : Z) (A A' : list Z) : Prop :=
  slot D' A' k = fb ∧ (∀ k', (k' ≤ 140)%nat → k' ≠ k → slot D' A' k' = slot D A k') ∧
  (∀ j' f' k', F !! j' = Some f' → j' ≠ j → (k' ≤ 140)%nat → slot D' (ff_addrs f') k' = slot D (ff_addrs f') k').

(** The invariant after such a step: the data blocks are as they were. *)
Lemma data_ok_slot D D' fb F j k f A' :
  data_ok D fb F → F !! j = Some f → (k ≤ 140)%nat → fb < FSSIZE → slot D (ff_addrs f) k = 0 →
  new_slot D D' F j k fb (ff_addrs f) A' → length A' = 13%nat → Forall (λ x, 0 ≤ x < 4294967296) A' →
  length D' = length D → Forall block_ok D' →
  (∀ x, fb ≤ x < FSSIZE → D' !! Z.to_nat x = Some zero_block) →
  (∀ j' f' k', F !! j' = Some f' → (k' < 140)%nat → slot D (ff_addrs f') k' ≠ 0 →
     D' !! Z.to_nat (slot D (ff_addrs f') k') = D !! Z.to_nat (slot D (ff_addrs f') k')) →
  ((k < 140)%nat → Z.of_nat (length (ff_data f)) ≤ Z.of_nat k * BSIZE) →
  data_ok D' (fb + 1) (<[j := FFile (ff_type f) (ff_size f) (ff_data f) A']> F).
Proof.
  intros [H1 H2 H3 H4 H5 H6 H7 H8] Hj Hk Hfb H0 (Sk & So & Sj) HA1 HA2 HL HB HZ HD Hnew. consts.
  assert (∀ i g, <[j := FFile (ff_type f) (ff_size f) (ff_data f) A']> F !! i = Some g → ∃ g0, F !! i = Some g0 ∧ ff_data g = ff_data g0 ∧
    (length (ff_addrs g) = 13%nat ∧ Forall (λ x, 0 ≤ x < 4294967296) (ff_addrs g)) ∧
    ∀ k', (k' ≤ 140)%nat → i = j ∧ k' = k ∧ slot D' (ff_addrs g) k' = fb ∨
      ¬ (i = j ∧ k' = k) ∧ slot D' (ff_addrs g) k' = slot D (ff_addrs g0) k') as Hcase.
  { intros i g Hg. destruct (decide (i = j)) as [->|Hne].
    - rewrite list_lookup_insert_eq in Hg by (by eapply lookup_lt_Some). injection Hg as <-. exists f. split_and!; try done.
      intros k' Hk'. destruct (decide (k' = k)) as [->|]; [left; auto|right]. split; [naive_solver|by apply So].
    - rewrite list_lookup_insert_ne in Hg by done. exists g. split_and!; try done; [by apply (H5 i)..|]. intros k' Hk'. right.
      split; [naive_solver|by eapply Sj]. }
  split; try done.
  - by rewrite HL.
  - consts. lia.
  - intros x Hx. consts. apply HZ. lia.
  - intros i g Hg. by destruct (Hcase i g Hg) as (g0 & _ & _ & H & _).
  - intros i g k' Hg Hk' Hn. destruct (Hcase i g Hg) as (g0 & Hg0 & _ & _ & Hs). destruct (Hs k' Hk') as [(_ & _ & ->)|(_ & E)]; consts; [lia|].
    rewrite E in *. specialize (H6 i g0 k' Hg0 Hk' Hn). consts. lia.
  - intros i g k' i' g' k'' Hg Hg' Hk' Hk'' E Hn.
    destruct (Hcase i g Hg) as (g0 & Hg0 & _ & _ & Hs). destruct (Hcase i' g' Hg') as (g0' & Hg0' & _ & _ & Hs').
    destruct (Hs k' Hk') as [(-> & -> & E1)|(N1 & E1)], (Hs' k'' Hk'') as [(-> & -> & E2)|(N2 & E2)]; [done| | |].
    + rewrite E1, E2 in *. specialize (H6 i' g0' k'' Hg0' Hk'' ltac:(congruence)). consts. lia.
    + rewrite E1, E2 in *. specialize (H6 i g0 k' Hg0 Hk' ltac:(congruence)). consts. lia.
    + rewrite E1, E2 in *. by apply (H7 i g0 k' i' g0' k'').
  - intros i g p Hg Hp Hn. destruct (Hcase i g Hg) as (g0 & Hg0 & -> & _ & Hs). unfold MAXFILE, NDIRECT, NINDIRECT, BSIZE in *.
    assert (Z.to_nat (p / 512) < 140)%nat as Hlt by (assert (p / 512 < 140) by (apply Z.div_lt_upper_bound; lia); lia).
    unfold fbyte. destruct (Hs (Z.to_nat (p / 512)) ltac:(lia)) as [(-> & Ek & E)|(_ & E)]; unfold BSIZE; rewrite E in *.
    + rewrite HZ by (consts; lia). rewrite Hg0 in Hj. injection Hj as ->. rewrite (lookup_ge_None_2 (ff_data f)); [|].
      * simpl. unfold zero_block. rewrite lookup_replicate_2; [done|]. pose proof (Z.mod_pos_bound p 512 ltac:(lia)). lia.
      * assert (Z.of_nat k * 512 ≤ p) by (rewrite <- Ek, Z2Nat.id by (apply Z.div_pos; lia); Z.div_mod_to_equations; lia). lia.
    + specialize (H8 i g0 p Hg0). unfold fbyte, BSIZE in H8. rewrite <- H8 by (done || lia). by rewrite (HD i g0).
Qed.

(** The indirect block of a file is no data block. *)
Lemma indirect_apart D fb F j f j' f' k :
  data_ok D fb F → F !! j = Some f → F !! j' = Some f' → (k ≤ 140)%nat → slot D (ff_addrs f) 140 ≠ 0 →
  (j' ≠ j ∨ k ≠ 140%nat) → slot D (ff_addrs f') k ≠ 0 → Z.to_nat (slot D (ff_addrs f') k) ≠ Z.to_nat (slot D (ff_addrs f) 140).
Proof.
  intros Hd Hj Hj' Hk H0 Hne Hk0 E.
  pose proof (dk_in _ _ _ Hd j f 140 Hj ltac:(lia) H0) as R1. pose proof (dk_in _ _ _ Hd j' f' k Hj' Hk Hk0) as R2. consts.
  destruct (dk_inj _ _ _ Hd j' f' k j f 140 Hj' Hj Hk ltac:(lia) ltac:(lia) Hk0) as [-> ->]. naive_solver.
Qed.

(** A direct block, or the indirect block. *)
Lemma take_direct D fb F j f i k :
  data_ok D fb F → F !! j = Some f → fb < FSSIZE → (i < 12 ∧ k = i ∨ i = 12 ∧ k = 140)%nat → default 0 (ff_addrs f !! i) = 0 →
  ((k < 140)%nat → Z.of_nat (length (ff_data f)) ≤ Z.of_nat k * BSIZE) →
  data_ok D (fb + 1) (<[j := set_addr i fb f]> F) ∧ new_slot D D F j k fb (ff_addrs f) (<[i := fb]> (ff_addrs f)).
Proof.
  intros Hd Hj Hfb Hik H0 Hnew. destruct (dk_addrs _ _ _ Hd j f Hj) as [HA1 HA2]. pose proof (dk_fb _ _ _ Hd) as Hr. consts.
  set (A' := <[i := fb]> (ff_addrs f)).
  assert (∀ i', default 0 (A' !! i') = if bool_decide (i' = i) then fb else default 0 (ff_addrs f !! i')) as Hi.
  { intros i'. unfold A'. case_bool_decide as E; [subst; by rewrite list_lookup_insert_eq by lia|by rewrite list_lookup_insert_ne]. }
  assert (new_slot D D F j k fb (ff_addrs f) A') as Hns.
  { split_and!; [|intros k' Hk' Hne|done].
    - destruct Hik as [[? ->]|[-> ->]]; [rewrite slot_direct by done|rewrite slot_140]; rewrite Hi; by rewrite bool_decide_true.
    - destruct (decide (k' < 12)%nat); [rewrite !slot_direct by done; rewrite Hi; by rewrite bool_decide_false by lia|].
      destruct (decide (k' = 140)%nat) as [->|]; [rewrite !slot_140, Hi; by rewrite bool_decide_false by lia|].
      rewrite (slot_indirect D A' k'), (slot_indirect D (ff_addrs f) k') by lia. rewrite !slot_140, Hi.
      destruct (decide (12 = i)%nat) as [<-|]; [|by rewrite (bool_decide_false (12%nat = i)) by done].
      rewrite (bool_decide_true (12%nat = 12%nat)), H0, (bool_decide_true (0 = 0)), bool_decide_false by lia.
      rewrite (dk_free _ _ _ Hd) by (consts; lia). apply word_zeros. }
  split; [|done]. apply (data_ok_slot D D fb F j k f A'); try done.
  - lia.
  - destruct Hik as [[? ->]|[-> ->]]; [by rewrite slot_direct|by rewrite slot_140].
  - unfold A'. by rewrite length_insert.
  - unfold A'. apply Forall_insert; [done|lia].
  - by apply Hd.
  - intros x Hx. by apply Hd.
Qed.

(** An entry of the indirect block. *)
Lemma take_indirect D fb F j f k d :
  data_ok D fb F → F !! j = Some f → fb < FSSIZE → (12 ≤ k < 140)%nat →
  slot D (ff_addrs f) 140 ≠ 0 → D !! Z.to_nat (slot D (ff_addrs f) 140) = Some d → word d (k - 12) = 0 →
  Z.of_nat (length (ff_data f)) ≤ Z.of_nat k * BSIZE →
  let D' := <[Z.to_nat (slot D (ff_addrs f) 140) := set_word (k - 12) fb d]> D in
  data_ok D' (fb + 1) F ∧ new_slot D D' F j k fb (ff_addrs f) (ff_addrs f).
Proof.
  intros Hd Hj Hfb Hk H0 Hib Hw Hnew D'. set (ib := slot D (ff_addrs f) 140) in *. pose proof (dk_fb _ _ _ Hd) as Hr.
  assert (block_ok d) as [Hdl Hdb] by (by eapply Forall_lookup_1, Hib; apply Hd).
  pose proof (dk_in _ _ _ Hd j f 140 Hj ltac:(lia) H0) as Hibr. fold ib in Hibr. consts.
  assert (Z.to_nat ib < length D)%nat as Hlt by (by eapply lookup_lt_Some).
  assert (new_slot D D' F j k fb (ff_addrs f) (ff_addrs f)) as Hns.
  { assert (∀ k', (12 ≤ k' < 140)%nat → slot D' (ff_addrs f) k' = if bool_decide (k' = k) then fb else slot D (ff_addrs f) k') as Hsl.
    { intros k' Hk'. rewrite (slot_indirect D' _ k'), (slot_indirect D _ k') by done. rewrite (slot_140 D'). rewrite <- (slot_140 D). fold ib.
      rewrite !(bool_decide_false (ib = 0)) by done. unfold D'. rewrite list_lookup_insert_eq, Hib by done. rewrite word_set_word by lia.
      rewrite (bool_decide_ext (k' - 12 = k - 12)%nat (k' = k)) by lia. case_bool_decide; [|done]. apply u32_small. lia. }
    split_and!.
    - rewrite Hsl by done. by rewrite bool_decide_true.
    - intros k' Hk' Hne. destruct (decide (k' < 12)%nat); [by rewrite !slot_direct by done|].
      destruct (decide (k' = 140)%nat) as [->|]; [done|]. rewrite Hsl by lia. by rewrite bool_decide_false.
    - intros j' f' k' Hj' Hne Hk'. apply slot_same; [|done]. intros Hn. unfold D'. apply list_lookup_insert_ne.
      intros E. symmetry in E. revert E. apply (indirect_apart D fb F j f j' f'); try done. by left. }
  split; [|done].
  replace F with (<[j := FFile (ff_type f) (ff_size f) (ff_data f) (ff_addrs f)]> F) by (apply list_insert_id; by destruct f).
  apply (data_ok_slot D D' fb F j k f (ff_addrs f)); try done; try lia; try (by apply (dk_addrs _ _ _ Hd j f Hj)).
  - rewrite slot_indirect by done. fold ib. rewrite bool_decide_false, Hib by done. done.
  - unfold D'. by rewrite length_insert.
  - unfold D'. apply Forall_insert; [apply Hd|]. split; [by rewrite length_set_word by lia|by apply Forall_set_word].
  - intros x Hx. unfold D'. rewrite list_lookup_insert_ne by lia. by apply Hd.
  - intros j' f' k' Hj' Hk' Hn. unfold D'. apply list_lookup_insert_ne. intros E. symmetry in E. revert E.
    apply (indirect_apart D fb F j f j' f'); try done; [lia|right; lia].
Qed.

(** ** The block of a position *)

(** A file of [n] bytes has exactly the blocks it needs. *)
Definition needs (n : Z) (k : nat) : Prop := if bool_decide (k = 140)%nat then 6144 < n else Z.of_nat k * 512 < n.
Definition have D (A : list Z) (n : Z) : Prop := ∀ k, (k ≤ 140)%nat → slot D A k ≠ 0 ↔ needs n k.
Definition nblk (n : Z) : Z := (n + 511) / 512 + if bool_decide (6144 < n) then 1 else 0.

Lemma have_new D D' F j k fb A A' n n' :
  have D A n → new_slot D D' F j k fb A A' → fb ≠ 0 → (k ≤ 140)%nat →
  (∀ k', (k' ≤ 140)%nat → needs n' k' ↔ k' = k ∨ needs n k') → have D' A' n'.
Proof.
  intros Hh (S1 & S2 & _) Hfb Hk Hn k' Hk'. rewrite Hn by done. destruct (decide (k' = k)) as [->|Hne].
  - rewrite S1. naive_solver.
  - rewrite S2 by done. specialize (Hh k' Hk'). naive_solver.
Qed.

(** The rest of the state stays. *)
Record same_rest (m m' : mstate) (din din' : dinode) F (j : nat) : Prop := SameRest {
  sr_sb : m_sb m' = m_sb m;
  sr_ino : freeinode m' = freeinode m;
  sr_meta b : (b < 59)%nat → m_img m' !! b = m_img m !! b;
  sr_din : din' = Dinode (din_type din) (din_major din) (din_minor din) (din_nlink din) (din_size din) (din_addrs din');
  sr_slots j' f' k : F !! j' = Some f' → j' ≠ j → (k ≤ 140)%nat → slot (m_img m') (ff_addrs f') k = slot (m_img m) (ff_addrs f') k
}.
Lemma same_rest_refl m din F j : same_rest m m din din F j.
Proof. split; try done. by destruct din. Qed.

Definition with_addrs f (A : list Z) : ffile := FFile (ff_type f) (ff_size f) (ff_data f) A.

(** What [iappend_block] gives for the block after the [n] bytes of file [j]. *)
Definition block_post (m : mstate) F (j : nat) f (din : dinode) (fbn n x : Z) (din' : dinode) (m' : mstate) : Prop :=
  data_ok (m_img m') (freeblock m') (<[j := with_addrs f (din_addrs din')]> F) ∧
  slot (m_img m') (din_addrs din') (Z.to_nat fbn) = x ∧ x ≠ 0 ∧ have (m_img m') (din_addrs din') (n + 1) ∧
  freeblock m' = freeblock m + (nblk (n + 1) - nblk n) ∧ same_rest m m' din din' F j.

Lemma block_there m F j f din fbn n :
  data_ok (m_img m) (freeblock m) F → F !! j = Some f → din_addrs din = ff_addrs f → have (m_img m) (ff_addrs f) n →
  fbn = n / 512 → 0 ≤ n → fbn < 140 → slot (m_img m) (ff_addrs f) (Z.to_nat fbn) ≠ 0 →
  block_post m F j f din fbn n (slot (m_img m) (ff_addrs f) (Z.to_nat fbn)) din m.
Proof.
  intros Hd Hj EA Hh -> Hn0 Hlt Hs. assert (0 ≤ n / 512) by (apply Z.div_pos; lia).
  assert (n / 512 * 512 < n) as Hin.
  { apply (Hh (Z.to_nat (n / 512))) in Hs; [|lia]. unfold needs in Hs. rewrite bool_decide_false in Hs by lia. lia. }
  unfold block_post. rewrite EA. split_and!; try done.
  - replace (with_addrs f (ff_addrs f)) with f by (by destruct f). by rewrite list_insert_id.
  - intros k Hk. rewrite (Hh k Hk). unfold needs. case_bool_decide; [Z.div_mod_to_equations; lia|]. Z.div_mod_to_equations; lia.
  - unfold nblk. rewrite (bool_decide_ext (6144 < n + 1) (6144 < n)) by (Z.div_mod_to_equations; lia). Z.div_mod_to_equations; lia.
  - apply same_rest_refl.
Qed.

Lemma needs_direct n k : n = Z.of_nat k * 512 → (k < 140)%nat → n ≠ 6144 →
  (∀ k', (k' ≤ 140)%nat → needs (n + 1) k' ↔ k' = k ∨ needs n k') ∧ nblk (n + 1) - nblk n = 1.
Proof.
  intros -> Hk Hne. split.
  - intros k' Hk'. unfold needs. case_bool_decide; lia.
  - unfold nblk. rewrite (bool_decide_ext (6144 < Z.of_nat k * 512 + 1) (6144 < Z.of_nat k * 512)) by lia. Z.div_mod_to_equations. lia.
Qed.

(** A block pointed to by the inode. *)
Lemma block_direct m F j f din n :
  data_ok (m_img m) (freeblock m) F → F !! j = Some f → din_addrs din = ff_addrs f → have (m_img m) (ff_addrs f) n →
  n = Z.of_nat (length (ff_data f)) → n / 512 < 12 → freeblock m + (nblk (n + 1) - nblk n) ≤ FSSIZE →
  ∃ x din' m', iappend_block din (n / 512) m = Some (x, din', m') ∧ block_post m F j f din (n / 512) n x din' m'.
Proof.
  intros Hd Hj EA Hh En Hlt Hroom. set (k := Z.to_nat (n / 512)).
  assert (0 ≤ n / 512 ∧ (k < 12)%nat) as [Hk0 Hk] by (unfold k; assert (0 ≤ n / 512) by (apply Z.div_pos; lia); lia).
  destruct (dk_addrs _ _ _ Hd j f Hj) as [HA1 HA2]. destruct (lookup_lt_is_Some_2 (ff_addrs f) k) as [x Hx]; [lia|].
  assert (slot (m_img m) (ff_addrs f) k = x) as Hs by (rewrite slot_direct by done; by rewrite Hx).
  unfold iappend_block. change (Z.of_nat NDIRECT) with 12. rewrite (bool_decide_true (n / 512 < 12)) by done. fold k. rewrite EA, Hx.
  cbn [mbind option_bind]. destruct (decide (x = 0)) as [->|Hx0].
  - rewrite bool_decide_true by done. cbn [take_block]. pose proof (dk_fb _ _ _ Hd) as Hr. consts.
    assert (¬ needs n k) as Hnn by (intros H; by apply (Hh k ltac:(lia)) in H).
    unfold needs in Hnn. rewrite bool_decide_false in Hnn by lia.
    destruct (needs_direct n k) as [Hneeds Hnb]; [unfold k in *; Z.div_mod_to_equations; lia|lia|lia|].
    destruct (take_direct (m_img m) (freeblock m) F j f k k Hd Hj) as [Hd' Hns]; [consts; lia|by left|by rewrite Hx|intros _; unfold BSIZE; lia|].
    eexists _, _, _. split; [reflexivity|]. cbn [take_block fst snd]. unfold block_post. fold k. cbn [m_img freeblock set_daddr din_addrs].
    rewrite EA. split_and!; [exact Hd'|by apply Hns|lia| |lia|].
    + eapply have_new; [exact Hh|exact Hns|lia|lia|exact Hneeds].
    + by split.
  - rewrite bool_decide_false by done. exists x, din, m. split; [done|]. rewrite <- Hs. apply block_there; try done; try lia. fold k. by rewrite Hs.
Qed.

(** An entry of the indirect block that is there. *)
Lemma block_indirect m F j f din n ib d :
  data_ok (m_img m) (freeblock m) F → F !! j = Some f → n = Z.of_nat (length (ff_data f)) →
  12 ≤ n / 512 < 140 → n mod 512 = 0 → slot (m_img m) (ff_addrs f) 140 = ib → ib ≠ 0 →
  m_img m !! Z.to_nat ib = Some d → slot (m_img m) (ff_addrs f) (Z.to_nat (n / 512)) = 0 → freeblock m < FSSIZE →
  let i := Z.to_nat (n / 512 - 12) in
  let m1 := MState (m_img m) (m_sb m) (freeinode m) (freeblock m + 1) in
  ∃ m', wsect ib (set_word i (freeblock m) d) m1 = Some m' ∧ word d i = 0 ∧
    data_ok (m_img m') (freeblock m + 1) F ∧ freeblock m' = freeblock m + 1 ∧
    new_slot (m_img m) (m_img m') F j (Z.to_nat (n / 512)) (freeblock m) (ff_addrs f) (ff_addrs f) ∧ same_rest m m' din din F j.
Proof.
  intros Hd Hj En Hlt Hmod Hib Hib0 Hdk Hs0 Hroom i m1. set (k := Z.to_nat (n / 512)) in *.
  assert ((12 ≤ k < 140)%nat ∧ i = (k - 12)%nat) as [Hk Ei] by (unfold i, k; lia).
  assert (word d i = 0) as Hw.
  { rewrite Ei. rewrite slot_indirect in Hs0 by done. rewrite Hib in Hs0. rewrite bool_decide_false, Hdk in Hs0 by done. done. }
  destruct (take_indirect (m_img m) (freeblock m) F j f k d Hd Hj) as [Hd' Hns]; [consts; lia|done|by rewrite Hib|by rewrite Hib|by rewrite <- Ei| |].
  { unfold BSIZE, k. Z.div_mod_to_equations. lia. }
  rewrite Hib, <- Ei in *. pose proof (dk_in _ _ _ Hd j f 140 Hj ltac:(lia) ltac:(by rewrite Hib)) as Hibr. rewrite Hib in Hibr. consts.
  eexists. split; [unfold wsect; rewrite bool_decide_true; [reflexivity|by eapply lookup_lt_Some]|].
  split_and!; try done. split; try done; [|by destruct din|].
  - intros b Hb. simpl. apply list_lookup_insert_ne. lia.
  - intros. by eapply Hns.
Qed.

Lemma same_rest_trans m1 m2 m3 d1 d2 d3 F F' j :
  same_rest m1 m2 d1 d2 F j → same_rest m2 m3 d2 d3 F' j →
  (∀ j' f', F !! j' = Some f' → j' ≠ j → F' !! j' = Some f') → same_rest m1 m3 d1 d3 F j.
Proof.
  intros [A1 A2 A3 A4 A5] [B1 B2 B3 B4 B5] HF. split; [congruence|congruence| | |].
  - intros b Hb. by rewrite B3, A3.
  - rewrite B4. rewrite A4. done.
  - intros j' f' k Hj Hne Hk. rewrite (B5 j' f'), (A5 j' f') by eauto. done.
Qed.

(** A new indirect block, and its first entry. *)
Lemma block_new_indirect m F j f din :
  data_ok (m_img m) (freeblock m) F → F !! j = Some f → din_addrs din = ff_addrs f → have (m_img m) (ff_addrs f) 6144 →
  Z.of_nat (length (ff_data f)) = 6144 → freeblock m + 2 ≤ FSSIZE →
  let m1 := MState (m_img m) (m_sb m) (freeinode m) (freeblock m + 1) in
  let m2 := MState (m_img m) (m_sb m) (freeinode m) (freeblock m + 1 + 1) in
  let din1 := set_daddr 12 (freeblock m) din in
  m_img m !! Z.to_nat (freeblock m) = Some zero_block ∧
  ∃ m', wsect (freeblock m) (set_word 0 (freeblock m + 1) zero_block) m2 = Some m' ∧
    block_post m F j f din 12 6144 (freeblock m + 1) din1 m'.
Proof.
  intros Hd Hj EA Hh Elen Hroom m1 m2 din1. pose proof (dk_fb _ _ _ Hd) as Hr. split; [apply Hd; consts; lia|].
  assert (slot (m_img m) (ff_addrs f) 140 = 0) as Hs.
  { destruct (decide (slot (m_img m) (ff_addrs f) 140 = 0)) as [|H]; [done|]. by apply (Hh 140%nat ltac:(lia)) in H. }
  destruct (take_direct (m_img m) (freeblock m) F j f 12 140 Hd Hj) as [Hd1 Hns1]; [consts; lia|by right|by rewrite <- (slot_140 (m_img m))|lia|].
  set (f1 := set_addr 12 (freeblock m) f) in *. set (F1 := <[j := f1]> F) in *.
  assert (F1 !! j = Some f1) as Hj1 by (apply list_lookup_insert_eq; by eapply lookup_lt_Some).
  destruct (block_indirect m1 F1 j f1 din1 6144 (freeblock m) zero_block Hd1 Hj1) as (m' & E2 & Hw & Hd2 & Hfb2 & Hns2 & Hr2);
    try done; try (by unfold m1; cbn [freeblock]; consts; lia).
  { by apply Hns1. }
  { apply Hd. consts. lia. }
  { change (slot (m_img m) (<[12%nat := freeblock m]> (ff_addrs f)) 12 = 0). destruct Hns1 as (_ & S2 & _). rewrite S2 by lia.
    rewrite slot_indirect by lia. by rewrite Hs. }
  exists m'. split; [exact E2|]. unfold block_post. replace (din_addrs din1) with (ff_addrs f1) by (unfold din1, f1; cbn; by rewrite EA).
  change (freeblock m1) with (freeblock m + 1) in *. change (m_img m1) with (m_img m) in *. change (Z.to_nat (6144 / 512)) with 12%nat in *.
  split_and!; [|by apply Hns2|consts; lia| |rewrite Hfb2; change (nblk (6144 + 1) - nblk 6144) with 2; lia|].
  - rewrite Hfb2. exact Hd2.
  - intros k' Hk'. destruct Hns1 as (N1 & N2 & _), Hns2 as (M1 & M2 & _).
    change (ff_addrs f1) with (<[12%nat := freeblock m]> (ff_addrs f)) in *. unfold needs. consts.
    destruct (decide (k' = 12)%nat) as [->|Hn12]; [rewrite M1, bool_decide_false by lia; split; intros; lia|].
    rewrite M2 by done. destruct (decide (k' = 140)%nat) as [->|Hn140]; [rewrite N1, bool_decide_true by lia; lia|].
    rewrite N2 by done. rewrite (Hh k' Hk'). unfold needs. rewrite bool_decide_false by done. lia.
  - eapply (same_rest_trans m m1 m' din din1 _ F F1); [by split|by destruct Hr2|].
    intros j' f' Hj' Hne. unfold F1. by rewrite list_lookup_insert_ne.
Qed.

Lemma block_run m F j f din n :
  data_ok (m_img m) (freeblock m) F → F !! j = Some f → din_addrs din = ff_addrs f → have (m_img m) (ff_addrs f) n →
  n = Z.of_nat (length (ff_data f)) → n / 512 < 140 → freeblock m + (nblk (n + 1) - nblk n) ≤ FSSIZE →
  ∃ x din' m', iappend_block din (n / 512) m = Some (x, din', m') ∧ block_post m F j f din (n / 512) n x din' m'.
Proof.
  intros Hd Hj EA Hh En Hlt Hroom. destruct (decide (n / 512 < 12)) as [H12|H12]; [by apply block_direct|].
  set (k := Z.to_nat (n / 512)). assert (12 ≤ k < 140)%nat as Hk by (unfold k; lia).
  destruct (dk_addrs _ _ _ Hd j f Hj) as [HA1 HA2]. destruct (lookup_lt_is_Some_2 (ff_addrs f) 12) as [ib Hib]; [lia|].
  assert (slot (m_img m) (ff_addrs f) 140 = ib) as Hs by (rewrite slot_140; by rewrite Hib). pose proof (dk_fb _ _ _ Hd) as Hr.
  unfold iappend_block. change (Z.of_nat NDIRECT) with 12. rewrite (bool_decide_false (n / 512 < 12)) by done.
  change NDIRECT with 12%nat. rewrite EA, Hib. cbn [mbind option_bind]. destruct (decide (ib = 0)) as [->|Hib0].
  - rewrite bool_decide_true by done. cbn [take_block].
    assert (¬ needs n 140) as H by (intros H; by apply (Hh 140%nat ltac:(lia)) in H). unfold needs in H.
    rewrite bool_decide_true in H by done. assert (n = 6144) as E by (Z.div_mod_to_equations; lia). clear H. rewrite E in *.
    change (nblk (6144 + 1) - nblk 6144) with 2 in *.
    destruct (block_new_indirect m F j f din Hd Hj EA Hh ltac:(lia) Hroom) as (Hz & m' & E2 & Hpost).
    unfold rsect. cbn [m_img]. rewrite Hz. cbn [mbind option_bind]. change (Z.to_nat (6144 / 512 - 12)) with 0%nat in *.
    change (word zero_block 0) with 0. rewrite bool_decide_true by done. cbn [take_block m_img m_sb freeinode freeblock].
    rewrite E2. cbn [mbind option_bind]. eexists _, _, _. split; [reflexivity|exact Hpost].
  - rewrite bool_decide_false by done. pose proof (dk_in _ _ _ Hd j f 140 Hj ltac:(lia) ltac:(by rewrite Hs)) as Hibr. rewrite Hs in Hibr.
    destruct (lookup_lt_is_Some_2 (m_img m) (Z.to_nat ib)) as [d Hdk]; [rewrite (dk_len _ _ _ Hd); consts; lia|].
    unfold rsect. rewrite Hdk. cbn [mbind option_bind].
    assert (slot (m_img m) (ff_addrs f) k = word d (Z.to_nat (n / 512 - 12))) as Hsk.
    { rewrite slot_indirect by done. rewrite Hs, bool_decide_false, Hdk by done. f_equal. unfold k. lia. }
    destruct (decide (word d (Z.to_nat (n / 512 - 12)) = 0)) as [Hw|Hw].
    + assert (¬ needs n k) as Hnn by (intros H; apply (Hh k ltac:(lia)) in H; congruence).
      unfold needs in Hnn. rewrite bool_decide_false in Hnn by lia.
      destruct (needs_direct n k) as [Hneeds Hnb]; [unfold k in *; Z.div_mod_to_equations; lia|lia| |].
      { intros E. apply Hib0. rewrite <- Hs. destruct (decide (slot (m_img m) (ff_addrs f) 140 = 0)) as [|H]; [done|].
        apply (Hh 140%nat ltac:(lia)) in H. unfold needs in H. rewrite bool_decide_true in H by done. lia. }
      destruct (block_indirect m F j f din n ib d Hd Hj En) as (m' & E & _ & Hd' & Hfb & Hns & Hsr); try done; try (consts; lia).
      { unfold k in *. Z.div_mod_to_equations. lia. }
      { fold k. by rewrite Hsk. }
      rewrite bool_decide_true by done. cbn [take_block]. rewrite E. cbn [mbind option_bind]. eexists _, _, _. split; [reflexivity|].
      unfold block_post. rewrite EA. split_and!; [|by apply Hns|consts; lia| |lia|done].
      * rewrite Hfb. replace (with_addrs f (ff_addrs f)) with f by (by destruct f). by rewrite list_insert_id.
      * eapply have_new; [exact Hh|exact Hns|consts; lia|lia|exact Hneeds].
    + rewrite bool_decide_false by done. exists (word d (Z.to_nat (n / 512 - 12))), din, m. split; [done|]. rewrite <- Hsk.
      apply block_there; try done; try lia. fold k. by rewrite Hsk.
Qed.

(** ** Writing bytes *)

Definition add_data f (q : list Z) : ffile := FFile (ff_type f) (ff_size f) (ff_data f ++ q) (ff_addrs f).

Lemma write_bytes D fb F j f k x d q :
  data_ok D fb F → F !! j = Some f → (k < 140)%nat → slot D (ff_addrs f) k = x → x ≠ 0 → D !! Z.to_nat x = Some d →
  let n := Z.of_nat (length (ff_data f)) in
  n / 512 = Z.of_nat k → n mod 512 + Z.of_nat (length q) ≤ 512 → Forall byte q →
  let D' := <[Z.to_nat x := splice d (Z.to_nat (n mod 512)) q]> D in
  data_ok D' fb (<[j := add_data f q]> F) ∧
  ∀ j' f' k', F !! j' = Some f' → (k' ≤ 140)%nat → slot D' (ff_addrs f') k' = slot D (ff_addrs f') k'.
Proof.
  intros Hd Hj Hk Hs Hx Hdx n Hn Hfit Hq D'. pose proof Hd as [H1 H2 H3 H4 H5 H6 H7 H8]. consts.
  assert (block_ok d) as [Hdl Hdb] by (by eapply Forall_lookup_1, Hdx).
  pose proof (H6 j f k Hj ltac:(lia) ltac:(by rewrite Hs)) as Hxr. rewrite Hs in Hxr.
  pose proof (Z.mod_pos_bound n 512 ltac:(lia)) as Hm.
  assert (∀ j' f' k', F !! j' = Some f' → (k' ≤ 140)%nat → slot D' (ff_addrs f') k' = slot D (ff_addrs f') k') as Hslot.
  { intros j' f' k' Hj' Hk'. apply slot_same; [|done]. intros Hn0. unfold D'. apply list_lookup_insert_ne. intros E.
    pose proof (H6 j' f' 140%nat Hj' ltac:(lia) Hn0) as Hr. consts.
    destruct (H7 j f k j' f' 140%nat Hj Hj' ltac:(lia) ltac:(lia)) as [_ ?]; [rewrite Hs; lia|by rewrite Hs|lia]. }
  split; [|done].
  assert (∀ i g, <[j := add_data f q]> F !! i = Some g → ∃ g0, F !! i = Some g0 ∧ ff_addrs g = ff_addrs g0 ∧
    ff_data g = if bool_decide (i = j) then ff_data f ++ q else ff_data g0) as Hcase.
  { intros i g Hg. destruct (decide (i = j)) as [->|Hne].
    - rewrite list_lookup_insert_eq in Hg by (by eapply lookup_lt_Some). injection Hg as <-. exists f. by rewrite bool_decide_true.
    - rewrite list_lookup_insert_ne in Hg by done. exists g. by rewrite bool_decide_false. }
  split.
  - unfold D'. by rewrite length_insert.
  - unfold D'. apply Forall_insert; [done|]. split; [apply splice_512; [done|lia]|by apply Forall_splice].
  - done.
  - intros y Hy. unfold D'. rewrite list_lookup_insert_ne by (consts; lia). by apply H4.
  - intros i g Hg. destruct (Hcase i g Hg) as (g0 & Hg0 & -> & _). by eapply H5.
  - intros i g k' Hg Hk'. destruct (Hcase i g Hg) as (g0 & Hg0 & -> & _). rewrite (Hslot i g0) by done. by eapply H6.
  - intros i g k' i' g' k'' Hg Hg' Hk' Hk''. destruct (Hcase i g Hg) as (g0 & Hg0 & -> & _). destruct (Hcase i' g' Hg') as (g0' & Hg0' & -> & _).
    rewrite (Hslot i g0), (Hslot i' g0') by done. by eapply H7.
  - intros i g p Hg Hp. destruct (Hcase i g Hg) as (g0 & Hg0 & -> & ->). unfold MAXFILE, NDIRECT, NINDIRECT, BSIZE in *.
    assert (Z.to_nat (p / 512) < 140)%nat as Hlt by (assert (p / 512 < 140) by (apply Z.div_lt_upper_bound; lia); lia).
    assert (0 ≤ p / 512) as Hp0 by (apply Z.div_pos; lia). rewrite (Hslot i g0) by (done || lia). intros Hn0.
    specialize (H8 i g0 p Hg0 ltac:(lia) Hn0). unfold fbyte, BSIZE in *. rewrite (Hslot i g0) by (done || lia).
    pose proof (H6 i g0 (Z.to_nat (p / 512)) Hg0 ltac:(lia) Hn0) as Hr. consts. destruct (decide (slot D (ff_addrs g0) (Z.to_nat (p / 512)) = x)) as [E|Hne].
    + destruct (H7 i g0 (Z.to_nat (p / 512)) j f k Hg0 Hj ltac:(lia) ltac:(lia) ltac:(congruence) Hn0) as [-> Ek].
      rewrite Hg0 in Hj. injection Hj as ->. rewrite bool_decide_true by done. rewrite E in *. unfold D'.
      rewrite list_lookup_insert_eq by (by eapply lookup_lt_Some). rewrite Hdx in H8. cbn [mbind option_bind] in *.
      rewrite lookup_splice by lia. assert (p / 512 = n / 512) as Epn by lia.
      case_bool_decide as Hin.
      * rewrite lookup_app_r by (fold n in Hin; unfold n in *; Z.div_mod_to_equations; lia). f_equal. f_equal. unfold n in *. Z.div_mod_to_equations. lia.
      * rewrite H8. destruct (decide (p < n)); [by rewrite lookup_app_l by (unfold n in *; lia)|].
        rewrite (lookup_ge_None_2 (ff_data f)), (lookup_ge_None_2 (ff_data f ++ q)); [done|rewrite length_app; unfold n in *; Z.div_mod_to_equations; lia|unfold n in *; lia].
    + assert (D' !! Z.to_nat (slot D (ff_addrs g0) (Z.to_nat (p / 512))) = D !! Z.to_nat (slot D (ff_addrs g0) (Z.to_nat (p / 512)))) as ->
        by (unfold D'; apply list_lookup_insert_ne; lia).
      rewrite H8. case_bool_decide as Ej; [|done]. subst i. rewrite Hg0 in Hj. injection Hj as ->.
      destruct (decide (p < n)); [by rewrite lookup_app_l by (unfold n in *; lia)|].
      rewrite (lookup_ge_None_2 (ff_data f)), (lookup_ge_None_2 (ff_data f ++ q)); [done| |unfold n in *; lia]. rewrite length_app.
      assert (p / 512 ≠ n / 512) by (intros E; apply Hne; rewrite <- Hs; f_equal; lia). unfold n in *. Z.div_mod_to_equations. lia.
Qed.

(** ** Appending *)

(** File [j], which had the bytes of [f], has the bytes [p] more. *)
Record appended (m : mstate) F (j : nat) f (din : dinode) (p : list Z) (din' : dinode) (m' : mstate) : Prop := Appended {
  ap_data : data_ok (m_img m') (freeblock m') (<[j := FFile (ff_type f) (ff_size f) (ff_data f ++ p) (din_addrs din')]> F);
  ap_have : have (m_img m') (din_addrs din') (Z.of_nat (length (ff_data f ++ p)));
  ap_free : freeblock m' = freeblock m + (nblk (Z.of_nat (length (ff_data f ++ p))) - nblk (Z.of_nat (length (ff_data f))));
  ap_rest : same_rest m m' din din' F j
}.

(** Bytes that fit the last block. *)
Lemma chunk_needs n c : 0 ≤ n → 0 < c → n mod 512 + c ≤ 512 →
  (∀ k, (k ≤ 140)%nat → needs (n + c) k ↔ needs (n + 1) k) ∧ nblk (n + c) = nblk (n + 1).
Proof.
  intros Hn Hc Hfit. split.
  - intros k Hk. unfold needs. case_bool_decide; Z.div_mod_to_equations; lia.
  - unfold nblk. rewrite (bool_decide_ext (6144 < n + c) (6144 < n + 1)) by (Z.div_mod_to_equations; lia). f_equal. Z.div_mod_to_equations. lia.
Qed.

Lemma chunk_run m F j f din q :
  data_ok (m_img m) (freeblock m) F → F !! j = Some f → din_addrs din = ff_addrs f →
  let n := Z.of_nat (length (ff_data f)) in let c := Z.of_nat (length q) in
  have (m_img m) (ff_addrs f) n → n / 512 < 140 → 0 < c → n mod 512 + c ≤ 512 → Forall byte q →
  freeblock m + (nblk (n + c) - nblk n) ≤ FSSIZE →
  ∃ x din' m1 buf m', iappend_block din (n / 512) m = Some (x, din', m1) ∧ rsect x m1 = Some buf ∧
    wsect x (splice buf (Z.to_nat (n mod 512)) q) m1 = Some m' ∧ appended m F j f din q din' m'.
Proof.
  intros Hd Hj EA n c Hh Hlt Hc Hfit Hq Hroom. destruct (chunk_needs n c ltac:(lia) Hc Hfit) as [Hneeds Hnb]. rewrite Hnb in Hroom.
  destruct (block_run m F j f din n Hd Hj EA Hh eq_refl Hlt Hroom) as (x & din' & m1 & E & Hd1 & Hs1 & Hx & Hh1 & Hfb & Hsr).
  assert (0 ≤ n / 512) as Hk0 by (apply Z.div_pos; lia). set (k := Z.to_nat (n / 512)) in *. set (f1 := with_addrs f (din_addrs din')) in *.
  set (F1 := <[j := f1]> F) in *. assert (F1 !! j = Some f1) as Hj1 by (apply list_lookup_insert_eq; by eapply lookup_lt_Some).
  pose proof (dk_in _ _ _ Hd1 j f1 k Hj1 ltac:(lia) ltac:(by cbn; rewrite Hs1)) as Hr. cbn [ff_addrs f1 with_addrs] in Hr. rewrite Hs1 in Hr. consts.
  destruct (lookup_lt_is_Some_2 (m_img m1) (Z.to_nat x)) as [buf Hbuf]; [rewrite (dk_len _ _ _ Hd1); consts; pose proof (dk_fb _ _ _ Hd1); consts; lia|].
  destruct (write_bytes (m_img m1) (freeblock m1) F1 j f1 k x buf q Hd1 Hj1) as [Hd2 Hslot]; try done; [lia|unfold n in *; cbn; lia|].
  change (ff_data f1) with (ff_data f) in Hd2, Hslot. fold n in Hd2, Hslot.
  eexists x, din', m1, buf, _. split_and!; [done|done|unfold wsect; rewrite bool_decide_true by (by eapply lookup_lt_Some); reflexivity|].
  split; cbn [m_img set_img freeblock].
  - unfold F1 in Hd2. rewrite list_insert_insert_eq in Hd2. exact Hd2.
  - rewrite length_app, Nat2Z.inj_add. intros k' Hk'. pose proof (Hslot j f1 k' Hj1 Hk') as Hs'.
    change (ff_addrs f1) with (din_addrs din') in Hs'. fold n c. rewrite Hs', (Hneeds k' Hk'). by apply Hh1.
  - rewrite length_app, Nat2Z.inj_add. fold n c. rewrite Hnb. done.
  - eapply (same_rest_trans m m1 _ din din' din' F F1); [done| |intros j' f' Hj' Hne; unfold F1; by rewrite list_lookup_insert_ne].
    split; try done; cbn [m_img set_img]; [intros b Hb; apply list_lookup_insert_ne; lia|by destruct din'|].
    intros j' f' k' Hj' _ Hk'. by eapply Hslot.
Qed.

Lemma loop_run fuel p m F j f din :
  data_ok (m_img m) (freeblock m) F → F !! j = Some f → din_addrs din = ff_addrs f →
  let n := Z.of_nat (length (ff_data f)) in let c := Z.of_nat (length p) in
  have (m_img m) (ff_addrs f) n → n + c ≤ MAXFILE * BSIZE → (length p < fuel)%nat → Forall byte p →
  freeblock m + (nblk (n + c) - nblk n) ≤ FSSIZE →
  ∃ din' m', iappend_loop fuel p n din m = Some (n + c, din', m') ∧ appended m F j f din p din' m'.
Proof.
  revert p m F f din. induction fuel as [|fuel IH]; intros p m F f din Hd Hj EA n c Hh Hmax Hf Hp Hroom; [lia|]. cbn [iappend_loop].
  case_bool_decide as Hne; cycle 1.
  { assert (p = []) as -> by (destruct p; [done|simpl in Hne; lia]). exists din, m. split; [f_equal; f_equal; f_equal; unfold c; simpl; lia|].
    split; rewrite ?app_nil_r, ?EA; try done; [|lia|apply same_rest_refl].
    replace (FFile (ff_type f) (ff_size f) (ff_data f) (ff_addrs f)) with f by (by destruct f). by rewrite list_insert_id. }
  unfold MAXFILE, NDIRECT, NINDIRECT, BSIZE in *. assert (n / 512 < 140) as Hlt by (apply Z.div_lt_upper_bound; unfold c in *; lia).
  rewrite bool_decide_false by lia. pose proof (Z.mod_pos_bound n 512 ltac:(lia)) as Hm.
  set (n1 := Fs.min (Z.of_nat (length p)) ((n / 512 + 1) * 512 - n)).
  assert (0 < n1 ≤ c ∧ n mod 512 + n1 ≤ 512) as [Hn1 Hfit] by (unfold n1, Fs.min, c; case_bool_decide; Z.div_mod_to_equations; lia).
  set (q := take (Z.to_nat n1) p). assert (Z.of_nat (length q) = n1) as Hlq by (unfold q; rewrite length_take; lia).
  assert (nblk (n + n1) ≤ nblk (n + c)) as Hmono by (unfold nblk; repeat case_bool_decide; Z.div_mod_to_equations; lia).
  destruct (chunk_run m F j f din q Hd Hj EA Hh Hlt) as (x & din1 & m1 & buf & m2 & E1 & E2 & E3 & [A1 A2 A3 A4]);
    [lia|fold n; lia|by apply Forall_take|fold n; rewrite Hlq; lia|].
  fold n in E1, E3. replace (n - n / 512 * 512) with (n mod 512) by (Z.div_mod_to_equations; lia).
  rewrite E1. cbn [mbind option_bind]. rewrite E2. cbn [mbind option_bind]. fold q. rewrite E3. cbn [mbind option_bind].
  set (f1 := FFile (ff_type f) (ff_size f) (ff_data f ++ q) (din_addrs din1)) in *. set (F1 := <[j := f1]> F) in *.
  assert (F1 !! j = Some f1) as Hj1 by (apply list_lookup_insert_eq; by eapply lookup_lt_Some).
  assert (Z.of_nat (length (ff_data f ++ q)) = n + n1) as Hln by (rewrite length_app; lia). rewrite Hln in A2, A3. fold n in A3.
  assert (Z.of_nat (length (drop (Z.to_nat n1) p)) = c - n1) as Hld by (rewrite length_drop; unfold c in *; lia).
  destruct (IH (drop (Z.to_nat n1) p) m2 F1 f1 din1 A1 Hj1 eq_refl) as (din' & m' & E & [B1 B2 B3 B4]); cbn [ff_data f1] in *; rewrite ?Hln, ?Hld in *;
    try done; try lia; [by apply Forall_drop|replace (n + n1 + (c - n1)) with (n + c) by lia; lia|].
  exists din', m'. split; [rewrite E; do 3 f_equal; lia|].
  assert ((ff_data f ++ q) ++ drop (Z.to_nat n1) p = ff_data f ++ p) as Eapp by (rewrite <- (assoc_L (++)); unfold q; by rewrite take_drop).
  rewrite Eapp in *. split; [|done| |].
  - unfold F1 in B1. by rewrite list_insert_insert_eq in B1.
  - fold n. lia.
  - eapply (same_rest_trans m m2 m' din din1 din' F F1); [done..|]. intros j' f' Hj' Hne'. unfold F1. by rewrite list_lookup_insert_ne.
Qed.

(** * Inodes *)

(** The bytes of inode [inum]. *)
Definition ibytes D (inum : Z) (l : list Z) : Prop :=
  ∃ b, D !! Z.to_nat (32 + inum / 8) = Some b ∧ slice b (dip_of inum) 64 = l.
Definition din_of f : dinode := Dinode (ff_type f) 0 0 1 (ff_size f) (ff_addrs f).

Lemma IBLOCK_sb inum : 0 ≤ inum < 200 → IBLOCK inum sb = 32 + inum / 8.
Proof. intros H. unfold IBLOCK, IPB. change (sb_inodestart sb) with 32. rewrite Z.add_comm. apply u32_small. Z.div_mod_to_equations. lia. Qed.
Lemma dip_range inum : 0 ≤ inum → (dip_of inum + 64 ≤ 512)%nat ∧ dip_of inum = (64 * Z.to_nat (inum mod 8))%nat.
Proof. intros H. unfold dip_of, IPB, sizeof_dinode. pose proof (Z.mod_pos_bound inum 8 ltac:(lia)). lia. Qed.
Lemma length_dinode_bytes d : length (din_addrs d) = 13%nat → length (dinode_bytes d) = 64%nat.
Proof. intros H. unfold dinode_bytes. rewrite !length_app. unfold xint. rewrite length_le32s, H. done. Qed.
Lemma dinode_bytes_ok d : Forall byte (dinode_bytes d).
Proof.
  unfold dinode_bytes, xshort, xint. rewrite !Forall_app. split_and!; try apply le16_bytes; try apply le32_bytes.
  apply Forall_bind, Forall_true. intros. apply le32_bytes.
Qed.

Lemma winode_run m inum d :
  m_sb m = sb → 0 ≤ inum < 200 → length (m_img m) = Z.to_nat FSSIZE → Forall block_ok (m_img m) → length (din_addrs d) = 13%nat →
  ∃ D', winode inum d m = Some (set_img D' m) ∧ length D' = length (m_img m) ∧ Forall block_ok D' ∧
    ibytes D' inum (dinode_bytes d) ∧ (∀ i l, 0 ≤ i < 200 → i ≠ inum → ibytes (m_img m) i l → ibytes D' i l) ∧
    ∀ x, (x < 32 ∨ 57 ≤ x)%nat → D' !! x = m_img m !! x.
Proof.
  intros Hsb Hi Hlen Hok Ha. consts. unfold winode. rewrite Hsb, IBLOCK_sb by done. set (bn := Z.to_nat (32 + inum / 8)).
  assert (32 ≤ bn < 57)%nat as Hbn by (unfold bn; Z.div_mod_to_equations; lia).
  destruct (lookup_lt_is_Some_2 (m_img m) bn) as [b Hb]; [rewrite Hlen; lia|]. unfold rsect. fold bn. rewrite Hb. cbn [mbind option_bind].
  unfold wsect. fold bn. rewrite bool_decide_true by (rewrite Hlen; lia). pose proof (length_dinode_bytes d Ha) as Hl.
  destruct (dip_range inum ltac:(lia)) as [Hdip Edip]. assert (block_ok b) as [Hbl Hbb] by (by eapply Forall_lookup_1).
  eexists. split; [reflexivity|]. split_and!.
  - by rewrite length_insert.
  - apply Forall_insert; [done|]. split; [apply splice_512; [done|lia]|apply Forall_splice; [done|apply dinode_bytes_ok]].
  - eexists. split; [apply list_lookup_insert_eq; rewrite Hlen; lia|]. rewrite <- Hl. apply slice_splice_eq. lia.
  - intros i l Hir Hne (b' & Hb' & <-). destruct (dip_range i ltac:(lia)) as [Hdip' Edip'].
    destruct (decide (Z.to_nat (32 + i / 8) = bn)) as [E|E].
    + rewrite E in Hb'. rewrite Hb in Hb'. injection Hb' as <-. eexists. split; [unfold ibytes; rewrite E; apply list_lookup_insert_eq; rewrite Hlen; lia|].
      apply slice_splice_ne; [lia|]. assert (inum mod 8 ≠ i mod 8) by (unfold bn in E; Z.div_mod_to_equations; lia).
      pose proof (Z.mod_pos_bound inum 8 ltac:(lia)). pose proof (Z.mod_pos_bound i 8 ltac:(lia)). lia.
    + exists b'. by rewrite list_lookup_insert_ne.
  - intros x Hx. apply list_lookup_insert_ne. lia.
Qed.

(** The fields that fit their widths. *)
Definition din_ok (d : dinode) : Prop :=
  0 ≤ din_type d < 65536 ∧ 0 ≤ din_major d < 65536 ∧ 0 ≤ din_minor d < 65536 ∧ 0 ≤ din_nlink d < 65536 ∧
  0 ≤ din_size d < 4294967296 ∧ length (din_addrs d) = 13%nat ∧ Forall (λ x, 0 ≤ x < 4294967296) (din_addrs d).

Lemma slice_skip l1 l2 o n : (length l1 ≤ o)%nat → slice (l1 ++ l2) o n = slice l2 (o - length l1) n.
Proof. intros H. unfold slice. by rewrite drop_app_ge. Qed.
Lemma slice_head l1 l2 : slice (l1 ++ l2) 0 (length l1) = l1.
Proof. unfold slice. rewrite drop_0. by rewrite take_app_length. Qed.

Lemma dinode_of_bytes d : din_ok d → dinode_of (dinode_bytes d) = d.
Proof.
  intros (H1 & H2 & H3 & H4 & H5 & H6 & H7). unfold dinode_of, dinode_bytes.
  assert (∀ x l, 0 ≤ x < 65536 → of_le (slice (xshort x ++ l) 0 2) = x) as Hs.
  { intros x l Hx. change 2%nat with (length (xshort x)). rewrite slice_head. unfold xshort. rewrite of_le16. unfold u16. by apply Z.mod_small. }
  assert (∀ x l o n, (2 ≤ o)%nat → slice (xshort x ++ l) o n = slice l (o - 2) n) as Hk.
  { intros x l o n Ho. by rewrite slice_skip by (simpl; lia). }
  rewrite Hs by done. rewrite !(Hk (din_type d)) by lia. change (2 - 2)%nat with 0%nat. rewrite Hs by done.
  rewrite !(Hk (din_major d)) by lia. change (4 - 2 - 2)%nat with 0%nat. rewrite Hs by done.
  rewrite !(Hk (din_minor d)) by lia. change (6 - 2 - 2 - 2)%nat with 0%nat. rewrite Hs by done.
  rewrite (Hk (din_nlink d)) by lia. change (8 - 2 - 2 - 2 - 2)%nat with 0%nat. change 4%nat with (length (xint (din_size d))) at 1.
  rewrite slice_head. unfold xint at 1. rewrite of_le32, u32_small by lia.
  destruct d as [ty ma mi nl sz A]. cbn [din_type din_major din_minor din_nlink din_size din_addrs] in *. f_equal.
  apply list_eq. intros k. rewrite list_lookup_fmap. destruct (decide (k < 13)%nat).
  - rewrite lookup_seq_lt by done. cbn [fmap option_fmap option_map Nat.add]. destruct (lookup_lt_is_Some_2 A k) as [x Hx]; [lia|].
    rewrite !Hk by lia. rewrite slice_skip by (simpl; lia). change (length (xint sz)) with 4%nat.
    match goal with |- context [slice _ ?o 4] => replace o with (4 * k)%nat by lia end. change (A ≫= xint) with (A ≫= le32).
    rewrite (slice_le32s _ k x Hx), of_le32, u32_small, Hx; [done|]. by apply (Forall_lookup_1 _ _ _ _ H7 Hx).
  - rewrite (lookup_ge_None_2 A) by lia. rewrite (lookup_ge_None_2 (seq _ _)); [done|]. rewrite length_seq. lia.
Qed.

Lemma rinode_run m inum d :
  m_sb m = sb → 0 ≤ inum < 200 → ibytes (m_img m) inum (dinode_bytes d) → din_ok d → rinode inum m = Some d.
Proof.
  intros Hsb Hi (b & Hb & Hs) Hd. unfold rinode, rsect. rewrite Hsb, IBLOCK_sb by done. rewrite Hb. cbn [mbind option_bind].
  change sizeof_dinode with 64%nat. by rewrite Hs, dinode_of_bytes.
Qed.

(** * The whole image *)

Definition sb_block : list Z := splice zero_block 0 (superblock_bytes sb).
(** The image with the super block only. *)
Definition start_image : list (list Z) := <[1%nat := sb_block]> (replicate (Z.to_nat FSSIZE) zero_block).
Definition start_state : mstate := MState start_image sb 1 nmeta.

(** The image holds the files [F], file [j] as inode [1 + j]. *)
Record repr (m : mstate) F : Prop := Repr {
  re_data : data_ok (m_img m) (freeblock m) F;
  re_have j f : F !! j = Some f → have (m_img m) (ff_addrs f) (Z.of_nat (length (ff_data f)));
  re_sb : m_sb m = sb;
  re_super x : (x < 32)%nat → m_img m !! x = start_image !! x;
  re_next : freeinode m = 1 + Z.of_nat (length F);
  re_max : Z.of_nat (length F) < NINODES;
  re_inode j f : F !! j = Some f → ibytes (m_img m) (1 + Z.of_nat j) (dinode_bytes (din_of f));
  re_none i : 1 + Z.of_nat (length F) ≤ i < NINODES → ibytes (m_img m) i (replicate 64 0);
  re_type j f : F !! j = Some f → 0 ≤ ff_type f < 32768;
  re_size j f : F !! j = Some f → ff_size f = Z.of_nat (length (ff_data f)) ∧ ff_size f ≤ MAXFILE * BSIZE
}.

Lemma repr_lookup m F j f : repr m F → F !! j = Some f → 0 ≤ 1 + Z.of_nat j < 200 ∧ din_ok (din_of f).
Proof.
  intros Hr Hj. pose proof (lookup_lt_Some _ _ _ Hj). pose proof (re_max _ _ Hr) as Hm. unfold NINODES in Hm. split; [lia|].
  destruct (re_size _ _ Hr j f Hj) as [Hs1 Hs2]. destruct (dk_addrs _ _ _ (re_data _ _ Hr) j f Hj).
  pose proof (re_type _ _ Hr j f Hj). unfold MAXFILE, NDIRECT, NINDIRECT, BSIZE in Hs2. unfold din_ok, din_of. cbn. split_and!; try done; lia.
Qed.

(** Two images with the same data blocks. *)
Lemma data_ok_meta D D' fb F :
  data_ok D fb F → length D' = length D → Forall block_ok D' → (∀ x, (59 ≤ x)%nat → D' !! x = D !! x) →
  data_ok D' fb F ∧ ∀ j f k, F !! j = Some f → (k ≤ 140)%nat → slot D' (ff_addrs f) k = slot D (ff_addrs f) k.
Proof.
  intros [H1 H2 H3 H4 H5 H6 H7 H8] HL HB HD. consts.
  assert (∀ j f k, F !! j = Some f → (k ≤ 140)%nat → slot D' (ff_addrs f) k = slot D (ff_addrs f) k) as Hs.
  { intros j f k Hj Hk. apply slot_same; [|done]. intros Hn. apply HD. specialize (H6 j f 140%nat Hj ltac:(lia) Hn). consts. lia. }
  split; [|done]. split; try done.
  - by rewrite HL.
  - intros x Hx. rewrite HD by lia. by apply H4.
  - intros j f k Hj Hk. rewrite (Hs j f) by done. by apply (H6 j).
  - intros j f k j' f' k' Hj Hj' Hk Hk'. rewrite (Hs j f), (Hs j' f') by done. by apply (H7 j f k j' f' k').
  - intros j f p Hj Hp. unfold MAXFILE, NDIRECT, NINDIRECT, BSIZE in *. assert (Z.to_nat (p / 512) < 140)%nat as Hlt
      by (assert (p / 512 < 140) by (apply Z.div_lt_upper_bound; lia); lia).
    rewrite (Hs j f) by (done || lia). intros Hn. rewrite <- (H8 j f p) by (done || lia). unfold fbyte, BSIZE. rewrite (Hs j f) by (done || lia).
    rewrite HD; [done|]. specialize (H6 j f (Z.to_nat (p / 512)) Hj ltac:(lia) Hn). consts. lia.
Qed.

(** Only the fields of data blocks matter for [data_ok]. *)
Lemma data_ok_fields D fb F F' :
  data_ok D fb F → (∀ j f, F' !! j = Some f → ∃ f0, F !! j = Some f0 ∧ ff_data f = ff_data f0 ∧ ff_addrs f = ff_addrs f0) → data_ok D fb F'.
Proof.
  intros [H1 H2 H3 H4 H5 H6 H7 H8] HF. split; try done.
  - intros j f Hj. destruct (HF j f Hj) as (f0 & Hj0 & _ & ->). by apply (H5 j).
  - intros j f k Hj. destruct (HF j f Hj) as (f0 & Hj0 & _ & ->). by apply (H6 j).
  - intros j f k j' f' k' Hj Hj'. destruct (HF j f Hj) as (f0 & Hj0 & _ & ->). destruct (HF j' f' Hj') as (f0' & Hj0' & _ & ->). by apply H7.
  - intros j f p Hj. destruct (HF j f Hj) as (f0 & Hj0 & -> & ->). by apply (H8 j).
Qed.

Lemma slot_empty D k : (k ≤ 140)%nat → slot D (replicate 13 0) k = 0.
Proof.
  intros Hk. assert (∀ i, default 0 (replicate 13 0 !! i) = 0) as H0.
  { intros i. destruct (replicate 13 0 !! i) as [x|] eqn:E; [|done]. by apply lookup_replicate in E as [-> _]. }
  destruct (decide (k < 12)%nat); [rewrite slot_direct by done; apply H0|]. destruct (decide (k = 140)%nat) as [->|]; [by rewrite slot_140|].
  rewrite slot_indirect by lia. by rewrite slot_140.
Qed.

(** A new, empty inode. *)
Lemma ialloc_run ty m F :
  repr m F → Z.of_nat (length F) + 1 < NINODES → 0 ≤ ty < 32768 →
  ∃ m', ialloc ty m = Some (1 + Z.of_nat (length F), m') ∧ repr m' (F ++ [FFile ty 0 [] (replicate 13 0)]) ∧ freeblock m' = freeblock m.
Proof.
  intros [H1 H2 H3 H4 H5 H6 H7 H8 H9 H10] Hmax Hty. unfold ialloc. rewrite H5. unfold NINODES in *.
  set (m1 := MState (m_img m) (m_sb m) (1 + Z.of_nat (length F) + 1) (freeblock m)). set (f := FFile ty 0 [] (replicate 13 0)).
  destruct (winode_run m1 (1 + Z.of_nat (length F)) (Dinode ty 0 0 1 0 (replicate 13 0))) as (D' & E & HL & HB & Hi & Ho & Hx); try done; try lia; [apply H1..|].
  rewrite E. cbn [mbind option_bind]. eexists. split; [reflexivity|]. split; [|done].
  destruct (data_ok_meta (m_img m) D' (freeblock m) F H1 HL HB) as [Hd Hs]; [intros x Hx59; apply Hx; lia|].
  assert (∀ j g, (F ++ [f]) !! j = Some g → F !! j = Some g ∨ j = length F ∧ g = f) as Hcase.
  { intros j g Hg. apply lookup_app_Some in Hg as [Hg|[Hl Hg]]; [by left|right]. apply list_lookup_singleton_Some in Hg as [? <-]. split; [lia|done]. }
  assert (∀ j g k, (F ++ [f]) !! j = Some g → (k ≤ 140)%nat → slot D' (ff_addrs g) k ≠ 0 → F !! j = Some g) as Hold.
  { intros j g k Hg Hk Hn. destruct (Hcase j g Hg) as [?|[_ ->]]; [done|]. by rewrite slot_empty in Hn. }
  split; cbn [m_img set_img m_sb freeinode freeblock m1].
  - destruct Hd as [K1 K2 K3 K4 K5 K6 K7 K8]. split; try done.
    + intros j g Hg. destruct (Hcase j g Hg) as [?|[_ ->]]; [by apply (K5 j)|]. split; [done|]. apply Forall_replicate. lia.
    + intros j g k Hg Hk Hn. apply (K6 j); try done. by eapply Hold.
    + intros j g k j' g' k' Hg Hg' Hk Hk' Es Hn. apply (K7 j g k j' g' k'); try done; [by apply (Hold j g k)|]. apply (Hold j' g' k'); [done|done|by rewrite <- Es].
    + intros j g p Hg Hp Hn. apply (K8 j); try done. eapply (Hold j g (Z.to_nat (p / BSIZE))); [done| |done]. unfold MAXFILE, NDIRECT, NINDIRECT, BSIZE in *.
      assert (p / 512 < 140) by (apply Z.div_lt_upper_bound; lia). lia.
  - intros j g Hg k Hk. destruct (Hcase j g Hg) as [Hg0|[_ ->]]; [rewrite (Hs j g k Hg0 Hk); by apply (H2 j g Hg0 k Hk)|].
    rewrite slot_empty by done. unfold needs. cbn. case_bool_decide; lia.
  - done.
  - intros x Hx32. rewrite Hx by lia. by apply H4.
  - rewrite length_app. unfold m1. cbn. lia.
  - rewrite length_app. unfold NINODES. simpl. lia.
  - intros j g Hg. destruct (Hcase j g Hg) as [Hg0|[-> ->]]; [|exact Hi]. pose proof (lookup_lt_Some _ _ _ Hg0). apply Ho; [lia|lia|by apply H7].
  - intros i Hir. unfold NINODES in *. rewrite length_app in Hir. simpl in Hir. apply Ho; [lia|lia|apply H8; lia].
  - intros j g Hg. destruct (Hcase j g Hg) as [Hg0|[_ ->]]; [by apply (H9 j)|done].
  - intros j g Hg. destruct (Hcase j g Hg) as [Hg0|[_ ->]]; [by apply (H10 j)|done].
Qed.

Lemma ibytes_same D D' i l : 0 ≤ i < 200 → (∀ b, (b < 59)%nat → D' !! b = D !! b) → ibytes D i l → ibytes D' i l.
Proof. intros Hi H (b & Hb & Hs). exists b. split; [|done]. rewrite H; [done|]. Z.div_mod_to_equations. lia. Qed.

(** [iappend] adds bytes at the end of a file. *)
Lemma iappend_run m F j f p :
  repr m F → F !! j = Some f → let n := Z.of_nat (length (ff_data f)) in let c := Z.of_nat (length p) in
  n + c ≤ MAXFILE * BSIZE → Forall byte p → freeblock m + (nblk (n + c) - nblk n) ≤ FSSIZE →
  ∃ m' A, iappend (1 + Z.of_nat j) p m = Some m' ∧ repr m' (<[j := FFile (ff_type f) (n + c) (ff_data f ++ p) A]> F) ∧
    freeblock m' = freeblock m + (nblk (n + c) - nblk n).
Proof.
  intros Hre Hj n c Hmax Hp Hroom. pose proof Hre as [H1 H2 H3 H4 H5 H6 H7 H8 H9 H10].
  destruct (repr_lookup m F j f Hre Hj) as [Hir Hdin]. destruct (H10 j f Hj) as [Hsz _].
  unfold iappend. rewrite (rinode_run m _ (din_of f) H3 Hir (H7 j f Hj) Hdin). cbn [mbind option_bind].
  change (din_size (din_of f)) with (ff_size f). rewrite Hsz.
  destruct (loop_run (S (length p)) p m F j f (din_of f) H1 Hj eq_refl (H2 j f Hj) Hmax ltac:(lia) Hp Hroom) as (din' & m1 & E & [A1 A2 A3 A4]).
  rewrite E. cbn [mbind option_bind]. destruct A4 as [S1 S2 S3 S4 S5]. assert (j < length F)%nat as Hlt by (by eapply lookup_lt_Some).
  assert (length (ff_data f ++ p) = length (ff_data f) + length p)%nat as Hla by (by rewrite length_app).
  assert (Z.of_nat (length (ff_data f ++ p)) = n + c) as Hlz by lia. rewrite Hlz in *. fold n in A3.
  set (f1 := FFile (ff_type f) (ff_size f) (ff_data f ++ p) (din_addrs din')) in *.
  destruct (dk_addrs _ _ _ A1 j f1) as [HA _]; [by apply list_lookup_insert_eq|].
  destruct (winode_run m1 (1 + Z.of_nat j) (set_dsize (n + c) din')) as (D' & Ew & HL & HB & Hi & Ho & Hx); try done; [by rewrite S1|apply A1..|].
  fold n c. rewrite Ew. eexists _, (din_addrs din'). split; [reflexivity|]. split; [|done].
  destruct (data_ok_meta (m_img m1) D' _ _ A1 HL HB) as [Hd Hs]; [intros x Hx59; apply Hx; lia|].
  set (f2 := FFile (ff_type f) (n + c) (ff_data f ++ p) (din_addrs din')).
  assert (∀ i g, <[j := f2]> F !! i = Some g → i = j ∧ g = f2 ∨ i ≠ j ∧ F !! i = Some g) as Hcase.
  { intros i g Hg. destruct (decide (i = j)) as [->|]; [left|right; by rewrite list_lookup_insert_ne in Hg].
    rewrite list_lookup_insert_eq in Hg by done. by injection Hg as <-. }
  split; cbn [m_img set_img m_sb freeinode freeblock].
  - eapply data_ok_fields; [exact Hd|]. intros i g Hg. destruct (Hcase i g Hg) as [[-> ->]|[Hne Hg0]].
    + exists f1. split; [by apply list_lookup_insert_eq|done].
    + exists g. by rewrite list_lookup_insert_ne.
  - intros i g Hg k Hk. destruct (Hcase i g Hg) as [[-> ->]|[Hne Hg0]].
    + cbn [ff_addrs ff_data f2]. rewrite Hlz. specialize (Hs j f1 k). cbn [ff_addrs f1] in Hs. rewrite Hs by (done || by apply list_lookup_insert_eq). by apply A2.
    + rewrite (Hs i g k) by (done || by rewrite list_lookup_insert_ne). rewrite (S5 i g k Hg0 Hne Hk). exact (H2 i g Hg0 k Hk).
  - by rewrite S1.
  - intros x Hx32. rewrite Hx, S3 by lia. by apply H4.
  - rewrite length_insert. by rewrite S2.
  - by rewrite length_insert.
  - intros i g Hg. destruct (Hcase i g Hg) as [[-> ->]|[Hne Hg0]].
    + replace (din_of f2) with (set_dsize (n + c) din'); [exact Hi|]. rewrite S4. done.
    + destruct (repr_lookup m F i g Hre Hg0) as [Hir' _]. apply Ho; [done|lia|]. eapply ibytes_same; [done|exact S3|by apply H7].
  - intros i Hi'. rewrite length_insert in Hi'. unfold NINODES in *. apply Ho; [lia|lia|]. eapply ibytes_same; [lia|exact S3|apply H8; lia].
  - intros i g Hg. destruct (Hcase i g Hg) as [[-> ->]|[Hne Hg0]]; [exact (H9 j f Hj)|by apply (H9 i)].
  - intros i g Hg. destruct (Hcase i g Hg) as [[-> ->]|[Hne Hg0]]; [|by apply (H10 i)]. cbn [ff_size ff_data f2]. rewrite Hlz. split; [done|lia].
Qed.

Lemma nblk_mono a b : a ≤ b → nblk a ≤ nblk b.
Proof. intros H. unfold nblk. repeat case_bool_decide; Z.div_mod_to_equations; lia. Qed.
Lemma nblk_0 : nblk 0 = 0.
Proof. done. Qed.

(** The contents of a file, in pieces of 512 bytes. *)
Lemma file_run fuel p m F j f :
  repr m F → F !! j = Some f → let n := Z.of_nat (length (ff_data f)) in let c := Z.of_nat (length p) in
  n + c ≤ MAXFILE * BSIZE → Forall byte p → freeblock m + (nblk (n + c) - nblk n) ≤ FSSIZE → (length p < fuel)%nat →
  ∃ m' A, iappend_file fuel (1 + Z.of_nat j) p m = Some m' ∧ repr m' (<[j := FFile (ff_type f) (n + c) (ff_data f ++ p) A]> F) ∧
    freeblock m' = freeblock m + (nblk (n + c) - nblk n).
Proof.
  revert p m F f. induction fuel as [|fuel IH]; intros p m F f Hre Hj n c Hmax Hp Hroom Hf; [lia|]. cbn [iappend_file].
  destruct (decide (p = [])) as [->|Hne].
  { exists m, (ff_addrs f). destruct (re_size _ _ Hre j f Hj) as [Hs _]. unfold c, n. rewrite app_nil_r. cbn [length]. rewrite Z.add_0_r, <- Hs.
    split_and!; [done| |lia]. replace (FFile (ff_type f) (ff_size f) (ff_data f) (ff_addrs f)) with f by (by destruct f). by rewrite list_insert_id. }
  assert (0 < length p)%nat as Hpos by (destruct p; [done|simpl; lia]).
  set (q := take 512 p). set (r := drop 512 p).
  assert (length p = length q + length r ∧ 0 < length q)%nat as [Hlp Hq] by (unfold q, r; rewrite length_take, length_drop; lia).
  assert (nblk (n + Z.of_nat (length q)) ≤ nblk (n + c)) as Hmono by (apply nblk_mono; unfold c; lia).
  destruct (iappend_run m F j f q Hre Hj) as (m1 & A1 & E1 & Hre1 & Hfb1); [unfold n, c in *; lia|by apply Forall_take|fold n; lia|].
  fold n in Hre1, Hfb1. set (f1 := FFile (ff_type f) (n + Z.of_nat (length q)) (ff_data f ++ q) A1) in *.
  assert (j < length F)%nat as Hlt by (by eapply lookup_lt_Some).
  assert (<[j := f1]> F !! j = Some f1) as Hj1 by (by apply list_lookup_insert_eq).
  assert (Z.of_nat (length (ff_data f1)) + Z.of_nat (length r) = n + c) as Hsum by (cbn; rewrite length_app; unfold n, c; lia).
  assert (Z.of_nat (length (ff_data f1)) = n + Z.of_nat (length q)) as Hl1 by (cbn; rewrite length_app; unfold n; lia).
  destruct (IH r m1 _ f1 Hre1 Hj1) as (m2 & A2 & E2 & Hre2 & Hfb2); rewrite ?Hsum, ?Hl1; [lia|by apply Forall_drop|lia|lia|].
  rewrite Hsum, Hl1 in *.
  exists m2, A2. split_and!.
  - destruct p as [|x p']; [done|]. fold q r. rewrite E1. cbn [mbind option_bind]. exact E2.
  - rewrite list_insert_insert_eq in Hre2. cbn [ff_type ff_data f1] in Hre2. unfold q, r in Hre2. rewrite <- (assoc_L (++)), take_drop in Hre2. done.
  - lia.
Qed.

(** The name without the leading underscore that the build adds. *)
Definition strip (name : list Z) : list Z := match name with c :: name' => if bool_decide (c = 95) then name' else name | [] => [] end.
(** The directory entries of [files], from inode number [i] on. *)
Fixpoint entries (i : Z) (files : list (list Z * list Z)) : list Z :=
  match files with [] => [] | (name, _) :: files' => dirent i (strip name) ++ entries (i + 1) files' end.
Definition file_fits (x : list Z * list Z) : Prop :=
  slash ∉ x.1 ∧ Forall byte x.1 ∧ Forall byte x.2 ∧ Z.of_nat (length x.2) ≤ MAXFILE * BSIZE.
Definition blocks_of (files : list (list Z * list Z)) : Z := foldr (λ x n, nblk (Z.of_nat (length x.2)) + n) 0 files.
(** A regular file of the image with the contents given. *)
Definition holds (x : list Z * list Z) f : Prop := ff_type f = T_FILE ∧ ff_data f = x.2.

Lemma length_dirent i name : length (dirent i name) = 16%nat.
Proof.
  unfold dirent. rewrite length_take, !length_app, length_take, length_replicate. unfold DIRSIZ. change (length (xshort i)) with 2%nat. lia.
Qed.
Lemma dirent_bytes i name : Forall byte name → Forall byte (dirent i name).
Proof.
  intros H. unfold dirent. apply Forall_take, Forall_app. split; [apply le16_bytes|]. apply Forall_app. split; [by apply Forall_take|].
  apply Forall_replicate. unfold byte. lia.
Qed.
Lemma strip_bytes name : Forall byte name → Forall byte (strip name).
Proof. intros H. destruct name as [|c name]; [done|]. cbn. case_bool_decide; [by apply Forall_cons in H as [_ ?]|done]. Qed.
Lemma length_entries i files : length (entries i files) = (16 * length files)%nat.
Proof. revert i. induction files as [|[nm ct] files IH]; intros i; [done|]. cbn [entries length]. rewrite length_app, length_dirent, IH. lia. Qed.
Lemma nblk_nonneg n : 0 ≤ n → 0 ≤ nblk n.
Proof. intros H. unfold nblk. case_bool_decide; Z.div_mod_to_equations; lia. Qed.
Lemma blocks_nonneg files : 0 ≤ blocks_of files.
Proof. induction files as [|x files IH]; [done|]. cbn. pose proof (nblk_nonneg (Z.of_nat (length x.2)) ltac:(lia)). unfold blocks_of in IH. lia. Qed.

Lemma add_file_run x m root fs :
  repr m (root :: fs) → file_fits x → Z.of_nat (length fs) + 2 < NINODES →
  let n := Z.of_nat (length (ff_data root)) in
  n + 16 ≤ MAXFILE * BSIZE → freeblock m + (nblk (n + 16) - nblk n) + nblk (Z.of_nat (length x.2)) ≤ FSSIZE →
  ∃ m' A f, add_file 1 x.1 x.2 m = Some m' ∧
    repr m' (FFile (ff_type root) (n + 16) (ff_data root ++ dirent (2 + Z.of_nat (length fs)) (strip x.1)) A :: fs ++ [f]) ∧
    holds x f ∧ freeblock m' = freeblock m + (nblk (n + 16) - nblk n) + nblk (Z.of_nat (length x.2)).
Proof.
  intros Hre (Hsl & Hnb & Hcb & Hcl) Hmax n Hn Hroom. unfold add_file. rewrite bool_decide_false by done. fold (strip x.1).
  destruct (ialloc_run T_FILE m _ Hre) as (m1 & E1 & Hre1 & Hfb1); [cbn [length]; lia|done|]. rewrite E1. cbn [mbind option_bind].
  replace (1 + Z.of_nat (length (root :: fs))) with (2 + Z.of_nat (length fs)) by (cbn [length]; lia).
  set (f0 := FFile T_FILE 0 [] (replicate 13 0)) in *. pose proof (nblk_nonneg (Z.of_nat (length x.2)) ltac:(lia)) as Hnn.
  set (de := dirent (2 + Z.of_nat (length fs)) (strip x.1)). assert (Z.of_nat (length de) = 16) as Hde by (unfold de; by rewrite length_dirent).
  destruct (iappend_run m1 _ 0 root de Hre1 eq_refl) as (m2 & A2 & E2 & Hre2 & Hfb2); rewrite ?Hde; fold n; [lia|by apply dirent_bytes, strip_bytes|lia|].
  rewrite Hde in *. fold n in Hre2, Hfb2. change (1 + Z.of_nat 0) with 1 in E2. rewrite E2. cbn [mbind option_bind].
  set (root2 := FFile (ff_type root) (n + 16) (ff_data root ++ de) A2) in *.
  change (<[0%nat := root2]> ((root :: fs) ++ [f0])) with (root2 :: fs ++ [f0]) in Hre2.
  assert ((root2 :: fs ++ [f0]) !! S (length fs) = Some f0) as Hj
    by (change ((fs ++ [f0]) !! length fs = Some f0); by rewrite lookup_app_r, Nat.sub_diag by lia).
  destruct (file_run (S (length x.2)) x.2 m2 _ (S (length fs)) f0 Hre2 Hj) as (m3 & A3 & E3 & Hre3 & Hfb3);
    cbn [ff_data f0 length]; [lia|done|change (nblk (Z.of_nat 0)) with 0; rewrite Z.add_0_l; lia|lia|].
  cbn [ff_data f0 length] in *. change (nblk (Z.of_nat 0)) with 0 in *. rewrite Z.add_0_l in *.
  replace (1 + Z.of_nat (S (length fs))) with (2 + Z.of_nat (length fs)) in E3 by lia. rewrite E3.
  exists m3, A2, (FFile T_FILE (Z.of_nat (length x.2)) x.2 A3). split_and!; [done| |done|lia].
  cbn [ff_type f0 app] in Hre3. replace (<[S (length fs) := _]> (root2 :: fs ++ [f0])) with (root2 :: fs ++ [FFile T_FILE (Z.of_nat (length x.2)) x.2 A3]) in Hre3; [done|].
  change (<[S (length fs) := ?y]> (root2 :: fs ++ [f0])) with (root2 :: <[length fs := y]> (fs ++ [f0])).
  f_equal. by rewrite insert_app_r_alt, Nat.sub_diag by lia.
Qed.

Lemma add_files_run files m root fs :
  repr m (root :: fs) → Forall file_fits files → Z.of_nat (length fs) + Z.of_nat (length files) + 1 < NINODES →
  let n := Z.of_nat (length (ff_data root)) in let c := 16 * Z.of_nat (length files) in
  n + c ≤ MAXFILE * BSIZE → freeblock m + (nblk (n + c) - nblk n) + blocks_of files ≤ FSSIZE →
  ∃ m' A fs', add_files 1 files m = Some m' ∧
    repr m' (FFile (ff_type root) (n + c) (ff_data root ++ entries (2 + Z.of_nat (length fs)) files) A :: fs ++ fs') ∧
    Forall2 holds files fs' ∧ freeblock m' = freeblock m + (nblk (n + c) - nblk n) + blocks_of files.
Proof.
  revert m root fs. induction files as [|x files IH]; intros m root fs Hre Hfit Hmax n c Hn Hroom.
  { exists m, (ff_addrs root), []. destruct (re_size _ _ Hre 0 root eq_refl) as [Hs _]. unfold c. cbn [length entries]. rewrite Z.mul_0_r, Z.add_0_r, !app_nil_r.
    split_and!; [done| |constructor|cbn; lia]. unfold n. rewrite <- Hs. by destruct root. }
  apply Forall_cons in Hfit as [Hx Hfit]. unfold c in *. cbn [length] in *. cbn [blocks_of foldr] in Hroom. fold (blocks_of files) in Hroom.
  pose proof (blocks_nonneg files) as Hbn. pose proof (nblk_mono (n + 16) (n + 16 * Z.of_nat (S (length files))) ltac:(lia)) as Hmono.
  destruct (add_file_run x m root fs Hre Hx) as (m1 & A1 & f1 & E1 & Hre1 & Hh1 & Hfb1); [lia|fold n; lia|fold n; lia|]. fold n in Hre1, Hfb1.
  set (root1 := FFile (ff_type root) (n + 16) (ff_data root ++ dirent (2 + Z.of_nat (length fs)) (strip x.1)) A1) in *.
  assert (Z.of_nat (length (ff_data root1)) = n + 16) as Hl1
    by (unfold root1; cbn [ff_data]; rewrite length_app, length_dirent; unfold n; lia).
  assert (Z.of_nat (length (fs ++ [f1])) = Z.of_nat (length fs) + 1) as Hlf by (rewrite length_app; simpl; lia).
  assert (n + 16 + 16 * Z.of_nat (length files) = n + 16 * Z.of_nat (S (length files))) as Hsum by lia.
  destruct (IH m1 root1 (fs ++ [f1]) Hre1 Hfit) as (m2 & A2 & fs2 & E2 & Hre2 & Hh2 & Hfb2); rewrite ?Hl1, ?Hlf, ?Hsum; [lia|lia|lia|].
  rewrite Hl1, Hlf, Hsum in *. exists m2, A2, (f1 :: fs2). split_and!.
  - cbn [add_files]. destruct x as [nm ct]. cbn in E1. rewrite E1. exact E2.
  - destruct x as [nm ct]. cbn [entries]. cbn [ff_type ff_data root1 fst] in Hre2. rewrite <- !(assoc_L (++)) in Hre2. cbn [app] in Hre2.
    by replace (2 + Z.of_nat (length fs) + 1) with (2 + (Z.of_nat (length fs) + 1)) by lia.
  - by constructor.
  - cbn [blocks_of foldr]. fold (blocks_of files). lia.
Qed.

(** ** The start and the end of [main] *)

Lemma sb_block_ok : block_ok sb_block ∧ superblock_of sb_block = sb.
Proof.
  split; [split; [by vm_compute|]|by vm_compute].
  apply Forall_splice; [apply zero_block_ok|]. unfold superblock_bytes, xint. rewrite !Forall_app. split_and!; apply le32_bytes.
Qed.

Lemma start_lookup x : (x ≠ 1)%nat → (x < 1000)%nat → start_image !! x = Some zero_block.
Proof. intros H1 H2. unfold start_image. rewrite list_lookup_insert_ne by done. apply lookup_replicate_2. consts. lia. Qed.

Lemma start_repr : repr start_state [].
Proof.
  assert (length start_image = Z.to_nat FSSIZE) as HL by (unfold start_image; by rewrite length_insert, length_replicate).
  split; cbn [m_img m_sb freeinode freeblock start_state]; try done.
  - split; try done.
    + unfold start_image. apply Forall_insert; [apply Forall_replicate, zero_block_ok|apply sb_block_ok].
    + intros x Hx. consts. apply start_lookup; lia.
  - intros i Hi. unfold NINODES in Hi. exists zero_block. split; [apply start_lookup; Z.div_mod_to_equations; lia|].
    unfold slice, zero_block. rewrite drop_replicate, take_replicate. f_equal. destruct (dip_range i); [simpl in *; lia|]. lia.
Qed.

Lemma start_run :
  wsect 1 (splice (replicate 512 0) 0 (superblock_bytes sb)) (MState (replicate (Z.to_nat FSSIZE) (replicate 512 0)) sb 1 nmeta) = Some start_state.
Proof. unfold wsect. rewrite bool_decide_true; [done|]. cbn [m_img]. rewrite length_replicate. consts. lia. Qed.

(** The bitmap with the first [u] blocks taken. *)
Definition used_map (u : nat) : list Z := foldl (λ buf i, set_bit (Z.of_nat i) buf) (replicate 512 0) (seq 0 u).
Lemma used_map_ok u : Z.of_nat u ≤ BPB → block_ok (used_map u) ∧ ∀ b, 0 ≤ b < BPB → bit (used_map u) b = bool_decide (b < Z.of_nat u).
Proof.
  induction u as [|u IH]; intros Hu.
  - split; [apply zero_block_ok|]. intros b Hb. rewrite bool_decide_false by lia. unfold used_map, bit. cbn [seq foldl].
    unfold BPB in *. rewrite lookup_replicate_2 by (Z.div_mod_to_equations; lia). apply Z.bits_0.
  - destruct IH as [Hok Hb]; [lia|]. unfold used_map in *. rewrite seq_S, foldl_app. cbn [foldl Nat.add]. split; [by apply set_bit_ok|].
    intros b Hbr. rewrite bit_set_bit, Hb by (lia || done || apply Hok). repeat case_bool_decide; (done || lia).
Qed.

Definition root_data (files : list (list Z * list Z)) : list Z := dirent 1 (str ".") ++ dirent 1 (str "..") ++ entries 2 files.
Definition rounded (n : Z) : Z := (n / 512 + 1) * 512.

(** The finished image: free blocks from [fb] on, the root directory and the
    files [fs]. *)
Record image D (fb : Z) (root : ffile) (fs : list ffile) : Prop := Image {
  im_data : data_ok D fb (root :: fs);
  im_have j f : (root :: fs) !! j = Some f → have D (ff_addrs f) (Z.of_nat (length (ff_data f)));
  im_super x : (x < 32)%nat → D !! x = start_image !! x;
  im_map : D !! 58%nat = Some (used_map (Z.to_nat fb));
  im_root : ibytes D 1 (dinode_bytes (Dinode T_DIR 0 0 1 (rounded (Z.of_nat (length (ff_data root)))) (ff_addrs root)));
  im_inode j f : fs !! j = Some f →
    ibytes D (2 + Z.of_nat j) (dinode_bytes (Dinode T_FILE 0 0 1 (Z.of_nat (length (ff_data f))) (ff_addrs f)));
  im_none i : 2 + Z.of_nat (length fs) ≤ i < NINODES → ibytes D i (replicate 64 0)
}.

(** The last part of [main]: the rounded size of the root and the bitmap. *)
Lemma image_finish m root fs :
  repr m (root :: fs) → ff_type root = T_DIR → Forall (λ f, ff_type f = T_FILE) fs →
  ∃ D, (din ← rinode 1 m; m ← winode 1 (set_dsize ((din_size din / BSIZE + 1) * BSIZE) din) m; m ← balloc (freeblock m) m; Some (m_img m)) = Some D ∧
    image D (freeblock m) root fs.
Proof.
  intros Hre Hty Hfs. pose proof Hre as [H1 H2 H3 H4 H5 H6 H7 H8 H9 H10].
  destruct (repr_lookup m _ 0 root Hre eq_refl) as [Hir Hdin]. destruct (H10 0%nat root eq_refl) as [Hsz _].
  rewrite (rinode_run m 1 (din_of root) H3 Hir (H7 0%nat root eq_refl) Hdin). cbn [mbind option_bind].
  change (din_size (din_of root)) with (ff_size root). rewrite Hsz. change BSIZE with 512 at 1 2. fold (rounded (Z.of_nat (length (ff_data root)))).
  set (d := set_dsize (rounded (Z.of_nat (length (ff_data root)))) (din_of root)).
  destruct (winode_run m 1 d) as (D1 & Ew & HL & HB & Hi & Ho & Hx); try done; [apply H1..|apply (dk_addrs _ _ _ H1 0%nat root eq_refl)|].
  rewrite Ew. cbn [mbind option_bind freeblock set_img]. pose proof (dk_fb _ _ _ H1) as Hfb. pose proof (dk_len _ _ _ H1) as Hlen. consts.
  unfold balloc. rewrite bool_decide_true by (unfold BSIZE; lia). cbn [m_sb set_img]. rewrite H3. unfold wsect. cbn [m_img set_img].
  change (Z.to_nat (sb_bmapstart sb)) with 58%nat. rewrite bool_decide_true by lia. cbn [mbind option_bind m_img set_img].
  fold (used_map (Z.to_nat (freeblock m))). destruct (used_map_ok (Z.to_nat (freeblock m))) as [Hum _]; [unfold BPB; lia|].
  set (D := <[58%nat := used_map (Z.to_nat (freeblock m))]> D1). exists D. split; [done|].
  assert (∀ x, (x ≠ 58)%nat → D !! x = D1 !! x) as HD by (intros x Hne; by apply list_lookup_insert_ne).
  assert (∀ i l, 0 ≤ i < 200 → ibytes D1 i l → ibytes D i l) as Hib.
  { intros i l Hil (b & Hb & Hs). exists b. split; [|done]. rewrite HD; [done|]. Z.div_mod_to_equations. lia. }
  destruct (data_ok_meta (m_img m) D (freeblock m) _ H1) as [Hd Hs].
  { unfold D. by rewrite length_insert. }
  { by apply Forall_insert. }
  { intros x Hx59. rewrite HD by lia. apply Hx. lia. }
  split.
  - exact Hd.
  - intros j f Hj k Hk. rewrite (Hs j f k Hj Hk). exact (H2 j f Hj k Hk).
  - intros x Hx32. rewrite HD, Hx by lia. by apply H4.
  - apply list_lookup_insert_eq. lia.
  - apply Hib; [lia|]. replace (Dinode _ _ _ _ _ _) with d; [done|]. unfold d, set_dsize, din_of. cbn. by rewrite Hty.
  - intros j f Hj. pose proof (H7 (S j) f Hj) as Hin. pose proof (lookup_lt_Some _ _ _ Hj). cbn [length] in H6. unfold NINODES in H6.
    replace (2 + Z.of_nat j) with (1 + Z.of_nat (S j)) by lia. apply Hib; [lia|]. apply Ho; [lia|lia|].
    destruct (H10 (S j) f Hj) as [Hsj _]. unfold din_of in Hin. rewrite Hsj, (Forall_lookup_1 _ _ _ _ Hfs Hj) in Hin. exact Hin.
  - intros i Hi'. unfold NINODES in *. apply Hib; [lia|]. apply Ho; [lia|lia|]. apply H8. cbn [length]. lia.
Qed.

Lemma main_run files :
  Forall file_fits files → Z.of_nat (length files) + 1 < NINODES →
  let fb := nmeta + nblk (32 + 16 * Z.of_nat (length files)) + blocks_of files in fb ≤ FSSIZE →
  ∃ D root fs, main files = Some D ∧ image D fb root fs ∧ ff_data root = root_data files ∧ Forall2 holds files fs.
Proof.
  intros Hfit Hn fb Hroom. unfold main. pose proof (blocks_nonneg files) as Hbn. unfold NINODES in Hn.
  pose proof (nblk_mono 32 (32 + 16 * Z.of_nat (length files)) ltac:(lia)) as Hm32.
  pose proof (nblk_mono 16 32 ltac:(lia)) as Hm16. change (nblk 16) with 1 in Hm16. change (nblk 32) with 1 in Hm16, Hm32.
  rewrite start_run. cbn [mbind option_bind].
  destruct (ialloc_run T_DIR start_state [] start_repr) as (m1 & E1 & R1 & B1); [done|done|]. change (1 + Z.of_nat (length [])) with 1 in E1.
  rewrite E1. cbn [mbind option_bind app] in *. rewrite bool_decide_false by (intros H; by apply H).
  change (freeblock start_state) with nmeta in B1. unfold fb in Hroom.
  destruct (iappend_run m1 _ 0 _ (dirent 1 (str ".")) R1 eq_refl) as (m2 & A2 & E2 & R2 & B2);
    rewrite ?length_dirent; [done|apply dirent_bytes; repeat constructor; unfold byte; lia| |].
  { cbn [ff_data length]. change (nblk (Z.of_nat 0 + Z.of_nat 16) - nblk (Z.of_nat 0)) with 1. consts. lia. }
  change (1 + Z.of_nat 0) with 1 in E2. rewrite E2. cbn [mbind option_bind]. rewrite length_dirent in *. cbn [ff_data ff_type app length] in R2, B2.
  change (Z.of_nat 0 + Z.of_nat 16) with 16 in R2, B2. cbn [insert list_insert] in R2. change (nblk 16 - nblk (Z.of_nat 0)) with 1 in B2.
  destruct (iappend_run m2 _ 0 _ (dirent 1 (str "..")) R2 eq_refl) as (m3 & A3 & E3 & R3 & B3);
    cbn [ff_data]; rewrite ?length_dirent; [done|apply dirent_bytes; repeat constructor; unfold byte; lia| |].
  { change (nblk (Z.of_nat 16 + Z.of_nat 16) - nblk (Z.of_nat 16)) with 0. consts. lia. }
  change (1 + Z.of_nat 0) with 1 in E3. rewrite E3. cbn [mbind option_bind]. cbn [ff_data ff_type] in R3, B3. rewrite !length_dirent in *.
  change (nblk (Z.of_nat 16 + Z.of_nat 16) - nblk (Z.of_nat 16)) with 0 in B3. change (Z.of_nat 16 + Z.of_nat 16) with 32 in R3.
  cbn [insert list_insert] in R3. set (root3 := FFile T_DIR 32 (dirent 1 (str ".") ++ dirent 1 (str "..")) A3) in *.
  assert (Z.of_nat (length (ff_data root3)) = 32) as Hl3 by (unfold root3; cbn [ff_data]; by rewrite length_app, !length_dirent).
  destruct (add_files_run files m3 root3 [] R3 Hfit) as (m4 & A4 & fs & E4 & R4 & Hh & B4); rewrite ?Hl3.
  { cbn [length]. unfold NINODES. lia. }
  { unfold MAXFILE, NDIRECT, NINDIRECT, BSIZE. lia. }
  { change (nblk 32) with 1. consts. lia. }
  rewrite Hl3 in *. cbn [length app] in R4. rewrite E4. cbn [mbind option_bind]. change (nblk 32) with 1 in B4.
  destruct (image_finish m4 _ fs R4) as (D & ED & HD); [done|eapply Forall2_Forall_r; [exact Hh|apply Forall_true; by intros x y [-> _]]|].
  eexists D, _, fs. split; [exact ED|]. replace (freeblock m4) with fb in HD by (unfold fb; lia). split_and!; [exact HD| |done].
  unfold root_data, root3. cbn [ff_data]. by rewrite <- (assoc_L (++)).
Qed.

(** * The image as the kernel reads it *)

(** The disk inode [inum] is a file with one link, its fields and blocks. *)
Record disk_file D (m : list Z) (inum ty size : Z) (A : list Z) : Prop := DiskFile {
  df_inode : ∃ b, D !! Z.to_nat (IBLOCK inum sb) = Some b ∧
    ∀ i, get_dinode b (dip_of inum) i = Inode (i_dev i) (i_inum i) (i_ref i) (i_lock i) (i_valid i) ty 0 0 1 size A;
  df_addrs : addrs_ok sb D m A;
  df_range : Forall (λ x, 0 ≤ x < 4294967296) A
}.

Lemma slice_slice l o n o' n' : (o' + n' ≤ n)%nat → slice (slice l o n) o' n' = slice l (o + o') n'.
Proof. intros H. unfold slice. rewrite <- drop_drop, skipn_firstn_comm, take_take. f_equal. lia. Qed.

Lemma ibytes_get D inum ty size A :
  0 ≤ inum < 200 → ibytes D inum (dinode_bytes (Dinode ty 0 0 1 size A)) →
  0 ≤ ty < 32768 → 0 ≤ size < 4294967296 → length A = 13%nat → Forall (λ x, 0 ≤ x < 4294967296) A →
  ∃ b, D !! Z.to_nat (IBLOCK inum sb) = Some b ∧
    ∀ i, get_dinode b (dip_of inum) i = Inode (i_dev i) (i_inum i) (i_ref i) (i_lock i) (i_valid i) ty 0 0 1 size A.
Proof.
  intros Hi (b & Hb & Hs) Hty Hsz HA HAr. exists b. rewrite IBLOCK_sb by done. split; [done|]. intros i.
  assert (dinode_of (slice b (dip_of inum) 64) = Dinode ty 0 0 1 size A) as Hd.
  { rewrite Hs. apply dinode_of_bytes. unfold din_ok. cbn. split_and!; (done || lia). }
  unfold dinode_of in Hd. rewrite !slice_slice in Hd by lia. injection Hd as E1 E2 E3 E4 E5 E6.
  unfold get_dinode, half. rewrite E2, E3, E4, E5. rewrite Nat.add_0_r in E1. rewrite E1.
  replace (i16 ty) with ty by (unfold i16; rewrite Z.mod_small; lia). replace (addrs_at b (dip_of inum)) with A; [done|].
  rewrite <- E6. change (((λ k, of_le (slice (slice b (dip_of inum) 64) (12 + 4 * k) 4)) <$> seq 0 13) = addrs_at b (dip_of inum)).
  unfold addrs_at. apply list_fmap_ext. intros k x Hk. apply lookup_seq in Hk as [-> Hk].
  unfold NDIRECT in *. rewrite slice_slice by lia. do 2 f_equal. lia.
Qed.

Lemma sb_layout : layout sb.
Proof. split; by vm_compute. Qed.

(** The blocks of the files of the image. *)
Lemma image_addrs D fb root fs j f :
  image D fb root fs → (root :: fs) !! j = Some f → addrs_ok sb D (used_map (Z.to_nat fb)) (ff_addrs f) ∧ Forall (λ x, 0 ≤ x < 4294967296) (ff_addrs f).
Proof.
  intros Him Hj. destruct (im_data _ _ _ _ Him) as [H1 H2 H3 H4 H5 H6 H7 H8]. destruct (H5 j f Hj) as [Hl Hr]. split; [|done].
  destruct (used_map_ok (Z.to_nat fb)) as [_ Hb]; [consts; unfold BPB; lia|]. split; [done| |].
  - intros k Hk Hn. pose proof (H6 j f k Hj Hk Hn) as Hs. consts. change (sb_bmapstart sb) with 58. change (sb_size sb) with 1000.
    split; [lia|]. rewrite Hb by (unfold BPB; lia). apply bool_decide_true. lia.
  - intros k k' Hk Hk' E Hn. by apply (H7 j f k j f k' Hj Hj Hk Hk' E Hn).
Qed.

Lemma image_disjoint D fb root fs j j' f f' :
  image D fb root fs → (root :: fs) !! j = Some f → (root :: fs) !! j' = Some f' → j ≠ j' → disjoint_files D (ff_addrs f) (ff_addrs f').
Proof.
  intros Him Hj Hj' Hne k k' Hk Hk' Hn E. destruct (dk_inj _ _ _ (im_data _ _ _ _ Him) j' f' k j f k' Hj' Hj Hk Hk' E Hn). congruence.
Qed.

(** All blocks below the size of the data are there, and hold the data. *)
Lemma image_full D fb root fs j f :
  image D fb root fs → (root :: fs) !! j = Some f → Z.of_nat (length (ff_data f)) ≤ MAXFILE * BSIZE →
  full D (ff_addrs f) (Z.of_nat (length (ff_data f))) ∧ file_bytes D (ff_addrs f) 0 (Z.of_nat (length (ff_data f))) = ff_data f.
Proof.
  intros Him Hj Hmax. assert (full D (ff_addrs f) (Z.of_nat (length (ff_data f)))) as Hf.
  { intros k Hk. unfold MAXFILE, NDIRECT, NINDIRECT, BSIZE in *. apply (im_have _ _ _ _ Him j f Hj k ltac:(lia)).
    unfold needs. by rewrite bool_decide_false by lia. }
  split; [done|]. apply list_eq. intros p. rewrite lookup_file_bytes by lia. case_bool_decide as Hp; [|by rewrite (lookup_ge_None_2 (ff_data f)) by lia].
  destruct (lookup_lt_is_Some_2 (ff_data f) p) as [x Hx]; [lia|]. rewrite Hx. f_equal.
  rewrite (dk_bytes _ _ _ (im_data _ _ _ _ Him) j f); [by rewrite Z.add_0_l, Nat2Z.id, Hx|done|lia|].
  apply Hf. unfold BSIZE. Z.div_mod_to_equations. lia.
Qed.

(** ** The entries of the root *)

Lemma cstr_padded n m l : take n (cstr (take n (take n l ++ replicate m 0))) = take n (cstr l).
Proof.
  revert l. induction n as [|n IH]; intros l; [done|]. destruct l as [|c l]; [by destruct m|]. cbn [take app cstr].
  case_bool_decide; [done|]. cbn [take]. by rewrite IH.
Qed.
Lemma dent_dirent i name : 0 ≤ i < 65536 → dent_of (dirent i name) = (i, dname name).
Proof.
  intros Hi. unfold dent_of, de_inum, de_name, dirent. change 16%nat with (2 + DIRSIZ)%nat.
  set (r := take DIRSIZ name ++ replicate DIRSIZ 0).
  assert (slice (take (2 + DIRSIZ) (xshort i ++ r)) 0 2 = xshort i) as ->.
  { unfold slice. rewrite drop_0, take_take. by rewrite Nat.min_l by lia. }
  assert (slice (take (2 + DIRSIZ) (xshort i ++ r)) 2 DIRSIZ = take DIRSIZ r) as ->.
  { unfold slice. rewrite skipn_firstn_comm, take_take. done. }
  unfold xshort. rewrite of_le16. unfold u16. rewrite Z.mod_small by done. f_equal. apply cstr_padded.
Qed.

Lemma dents_cons de C n : length de = 16%nat → dents (de ++ C) (S n) = dent_of de :: dents C n.
Proof.
  intros Hl. unfold dents. cbn [seq fmap list_fmap]. f_equal.
  - unfold dent_at, slice. rewrite Nat.mul_0_r, drop_0, <- Hl. by rewrite take_app_length.
  - rewrite <- fmap_S_seq, <- list_fmap_compose. apply list_fmap_ext. intros k x _. cbn [compose]. f_equal. change (dent_at (de ++ C) (S x) = dent_at C x). unfold dent_at.
    rewrite slice_skip by lia. f_equal. lia.
Qed.

(** The entries that mkfs gives the root: dot, dot-dot and the files. *)
Definition root_names (files : list (list Z * list Z)) : list (Z * list Z) :=
  (1, str ".") :: (1, str "..") :: imap (λ j x, (2 + Z.of_nat j, dname (strip x.1))) files.

Lemma entries_names i files C :
  0 ≤ i → i + Z.of_nat (length files) < 65536 →
  dents (entries i files ++ C) (length files) = imap (λ j x, (i + Z.of_nat j, dname (strip x.1))) files.
Proof.
  revert i. induction files as [|[nm ct] files IH]; intros i Hi Hl; [done|]. cbn [entries length] in *. rewrite <- (assoc_L (++)).
  rewrite dents_cons by apply length_dirent. rewrite dent_dirent by lia. cbn [imap fst]. f_equal; [f_equal; lia|].
  rewrite IH by lia. apply imap_ext. intros j x _. cbn. f_equal. lia.
Qed.

Lemma root_entries files C :
  Z.of_nat (length files) + 1 < NINODES → dents (root_data files ++ C) (2 + length files) = root_names files.
Proof.
  intros Hn. unfold NINODES in Hn. unfold root_data. rewrite <- !(assoc_L (++)). change (2 + length files)%nat with (S (S (length files))).
  rewrite !dents_cons by apply length_dirent. rewrite !dent_dirent by lia. unfold root_names. f_equal. f_equal.
  apply entries_names; lia.
Qed.

Lemma dents_app C E n k : length C = (16 * n)%nat → dents (C ++ E) (n + k) = dents (C ++ E) n ++ dents E k.
Proof.
  intros Hl. unfold dents. rewrite seq_app, fmap_app. f_equal. replace (0 + n)%nat with (n + 0)%nat by lia. rewrite <- fmap_add_seq, <- list_fmap_compose.
  apply list_fmap_ext. intros j x _. cbn [compose]. f_equal. change (dent_at (C ++ E) (n + x) = dent_at E x). unfold dent_at.
  rewrite slice_skip by lia. f_equal. lia.
Qed.
Lemma dents_zeros k : dents (replicate (16 * k) 0) k = replicate k (0, []).
Proof.
  apply list_eq. intros j. unfold dents. rewrite list_lookup_fmap. destruct (decide (j < k)%nat).
  - rewrite lookup_seq_lt, lookup_replicate_2 by done. cbn [fmap option_fmap option_map Nat.add]. f_equal. unfold dent_at, slice.
    rewrite drop_replicate, take_replicate. by replace (16 `min` (16 * k - 16 * j))%nat with 16%nat by lia.
  - rewrite !lookup_ge_None_2; [done|rewrite length_replicate; lia|rewrite length_seq; lia].
Qed.

(** The bytes of the root that the rounding adds are clear: those of its last
    block, or the boot block when that block does not exist. *)
Lemma root_clear D fb root fs p n :
  image D fb root fs → n = Z.of_nat (length (ff_data root)) → n < 6144 → n ≤ p < rounded n → fbyte D (ff_addrs root) p = 0.
Proof.
  intros Him En Hn Hp. unfold rounded in Hp. assert (p / 512 = n / 512) as E by (Z.div_mod_to_equations; lia).
  pose proof (im_have _ _ _ _ Him 0%nat root eq_refl (Z.to_nat (n / 512))) as Hh. rewrite <- En in Hh. unfold needs in Hh.
  rewrite bool_decide_false in Hh by (Z.div_mod_to_equations; lia).
  destruct (decide (slot D (ff_addrs root) (Z.to_nat (n / 512)) = 0)) as [E0|E0].
  - unfold fbyte, BSIZE. rewrite E, E0. rewrite (im_super _ _ _ _ Him) by (simpl; lia). rewrite start_lookup by (simpl; lia). cbn [mbind option_bind].
    unfold zero_block. rewrite lookup_replicate_2 by (Z.div_mod_to_equations; lia). done.
  - rewrite (dk_bytes _ _ _ (im_data _ _ _ _ Him) 0%nat root); [|done|unfold MAXFILE, NDIRECT, NINDIRECT, BSIZE; Z.div_mod_to_equations; lia|unfold BSIZE; by rewrite E].
    by rewrite (lookup_ge_None_2 (ff_data root)) by lia.
Qed.

Lemma root_bytes D fb root fs n :
  image D fb root fs → n = Z.of_nat (length (ff_data root)) → n < 6144 →
  file_bytes D (ff_addrs root) 0 (rounded n) = ff_data root ++ replicate (Z.to_nat (rounded n - n)) 0.
Proof.
  intros Him En Hn. assert (n ≤ rounded n) as Hr by (unfold rounded; Z.div_mod_to_equations; lia).
  replace (rounded n) with (n + (rounded n - n)) at 1 by lia. rewrite file_bytes_app by lia. f_equal.
  - rewrite En. apply (image_full D fb root fs 0 root Him eq_refl). unfold MAXFILE, NDIRECT, NINDIRECT, BSIZE. lia.
  - apply list_eq. intros p. rewrite lookup_file_bytes by lia. case_bool_decide as Hp.
    + rewrite lookup_replicate_2 by lia. f_equal. eapply root_clear; [done..|]. lia.
    + rewrite lookup_ge_None_2; [done|]. rewrite length_replicate. lia.
Qed.

(** A disk image with the files given, as the kernel reads it: the first [fb]
    blocks are in use, inode 1 is the root, inode [2 + j] is file [j], and the
    other inodes are free. *)
Record fs_image D (m : list Z) (fb : Z) (files : list (list Z * list Z)) (root : list Z) (addrs : list (list Z)) : Prop := FsImage {
  fi_len : length D = Z.to_nat FSSIZE;
  fi_blocks : Forall block_ok D;
  fi_sb : superblock_of <$> (D !! 1%nat) = Some sb;
  fi_layout : layout sb;
  fi_log : D !! Z.to_nat (sb_logstart sb) = Some zero_block;
  fi_map : D !! Z.to_nat (sb_bmapstart sb) = Some m;
  fi_bit b : 0 ≤ b < BPB → bit m b = bool_decide (b < fb);
  fi_fb : nmeta ≤ fb ≤ FSSIZE;
  fi_root : let n := 32 + 16 * Z.of_nat (length files) in
    disk_file D m 1 T_DIR (rounded n) root ∧
    (∀ k, (k < 140)%nat → slot D root k ≠ 0 ↔ Z.of_nat k * 512 < n) ∧
    dents (file_bytes D root 0 (rounded n)) (Z.to_nat (rounded n / 16)) = root_names files ++ replicate (Z.to_nat ((rounded n - n) / 16)) (0, []);
  fi_files : length addrs = length files;
  fi_file j name content A : files !! j = Some (name, content) → addrs !! j = Some A →
    let n := Z.of_nat (length content) in
    disk_file D m (2 + Z.of_nat j) T_FILE n A ∧ full D A n ∧ file_bytes D A 0 n = content;
  fi_disjoint j j' A A' : (root :: addrs) !! j = Some A → (root :: addrs) !! j' = Some A' → j ≠ j' → disjoint_files D A A';
  fi_free inum : 2 + Z.of_nat (length files) ≤ inum < NINODES →
    ∃ b, D !! Z.to_nat (IBLOCK inum sb) = Some b ∧ half b (dip_of inum) = 0
}.

Lemma free_inode D inum : 0 ≤ inum < 200 → ibytes D inum (replicate 64 0) →
  ∃ b, D !! Z.to_nat (IBLOCK inum sb) = Some b ∧ half b (dip_of inum) = 0.
Proof.
  intros Hi (b & Hb & Hs). exists b. rewrite IBLOCK_sb by done. split; [done|]. unfold half.
  rewrite <- (Nat.add_0_r (dip_of inum)), <- (slice_slice b (dip_of inum) 64 0 2), Hs by lia. done.
Qed.

Lemma image_root D fb root fs files :
  image D fb root fs → ff_data root = root_data files → Z.of_nat (length files) + 1 < NINODES →
  let n := 32 + 16 * Z.of_nat (length files) in
  disk_file D (used_map (Z.to_nat fb)) 1 T_DIR (rounded n) (ff_addrs root) ∧
  (∀ k, (k < 140)%nat → slot D (ff_addrs root) k ≠ 0 ↔ Z.of_nat k * 512 < n) ∧
  dents (file_bytes D (ff_addrs root) 0 (rounded n)) (Z.to_nat (rounded n / 16)) = root_names files ++ replicate (Z.to_nat ((rounded n - n) / 16)) (0, []).
Proof.
  intros Him Hd Hn n. destruct (image_addrs D fb root fs 0 root Him eq_refl) as [Ha Hr]. pose proof Hn as Hn'. unfold NINODES in Hn.
  assert (length (root_data files) = 16 * (2 + length files))%nat as Hl by (unfold root_data; rewrite !length_app, !length_dirent, length_entries; lia).
  assert (n = Z.of_nat (length (ff_data root))) as En by (rewrite Hd; unfold n; lia).
  assert (n ≤ rounded n < 10000) as Hrd by (unfold rounded; Z.div_mod_to_equations; lia). split_and!.
  - split; [|done..]. apply ibytes_get; try (done || lia); [rewrite En; by apply (im_root _ _ _ _ Him)|apply Ha].
  - intros k Hk. rewrite (im_have _ _ _ _ Him 0%nat root eq_refl k) by lia. unfold needs. rewrite bool_decide_false, <- En by lia. done.
  - rewrite (root_bytes D fb root fs n Him En) by lia. rewrite Hd.
    assert (rounded n - n = 16 * ((rounded n - n) / 16)) as Ediv by (unfold rounded, n; Z.div_mod_to_equations; lia).
    set (z := Z.to_nat ((rounded n - n) / 16)). replace (Z.to_nat (rounded n - n)) with (16 * z)%nat by lia.
    replace (Z.to_nat (rounded n / 16)) with (2 + length files + z)%nat by (unfold z; unfold n in *; Z.div_mod_to_equations; lia).
    by rewrite dents_app, dents_zeros, root_entries.
Qed.

Lemma image_file D fb root fs files j name content f :
  image D fb root fs → Forall file_fits files → Forall2 holds files fs → Z.of_nat (length files) + 1 < NINODES →
  files !! j = Some (name, content) → fs !! j = Some f →
  let n := Z.of_nat (length content) in
  disk_file D (used_map (Z.to_nat fb)) (2 + Z.of_nat j) T_FILE n (ff_addrs f) ∧ full D (ff_addrs f) n ∧ file_bytes D (ff_addrs f) 0 n = content.
Proof.
  intros Him Hfit Hh Hn Hj Hf n. destruct (Forall2_lookup_lr _ _ _ _ _ _ Hh Hj Hf) as [Hty Hc]. cbn in Hc.
  destruct (Forall_lookup_1 _ _ _ _ Hfit Hj) as (_ & _ & _ & Hmax). cbn in Hmax. unfold NINODES in Hn. pose proof (lookup_lt_Some _ _ _ Hj).
  destruct (image_addrs D fb root fs (S j) f Him Hf) as [Ha Hr].
  destruct (image_full D fb root fs (S j) f Him Hf) as [H1 H2]; rewrite Hc in *; [done|]. split_and!; try done.
  split; [|done..]. unfold MAXFILE, NDIRECT, NINDIRECT, BSIZE in Hmax.
  apply ibytes_get; try (done || lia); [|apply Ha]. unfold n. rewrite <- Hc. by apply (im_inode _ _ _ _ Him).
Qed.

Lemma mkfs_run files :
  Forall file_fits files → Z.of_nat (length files) + 1 < NINODES →
  let fb := nmeta + nblk (32 + 16 * Z.of_nat (length files)) + blocks_of files in fb ≤ FSSIZE →
  ∃ D m root addrs, main files = Some D ∧ fs_image D m fb files root addrs.
Proof.
  intros Hfit Hn fb Hroom. destruct (main_run files Hfit Hn Hroom) as (D & root & fs & E & Him & Hd & Hh). fold fb in Him.
  exists D, (used_map (Z.to_nat fb)), (ff_addrs root), (ff_addrs <$> fs). split; [done|].
  pose proof (im_data _ _ _ _ Him) as [H1 H2 H3 H4 H5 H6 H7 H8]. pose proof (Forall2_length _ _ _ Hh) as Hl. split.
  - exact H1.
  - exact H2.
  - rewrite (im_super _ _ _ _ Him) by lia. unfold start_image. rewrite list_lookup_insert_eq by (rewrite length_replicate; consts; lia).
    cbn [fmap option_fmap option_map]. by rewrite (proj2 sb_block_ok).
  - apply sb_layout.
  - change (Z.to_nat (sb_logstart sb)) with 2%nat. rewrite (im_super _ _ _ _ Him) by lia. apply start_lookup; lia.
  - apply (im_map _ _ _ _ Him).
  - intros b Hb. consts. destruct (used_map_ok (Z.to_nat fb)) as [_ Hbit]; [unfold BPB; lia|]. rewrite Hbit by done. apply bool_decide_ext. lia.
  - exact H3.
  - by apply (image_root D fb root fs).
  - by rewrite length_fmap.
  - intros j name content A Hj HA. apply list_lookup_fmap_Some in HA as (f & -> & Hf). by eapply image_file.
  - intros j j' A A' HA HA' Hne. change (ff_addrs root :: (ff_addrs <$> fs)) with (ff_addrs <$> root :: fs) in *.
    apply list_lookup_fmap_Some in HA as (f & -> & Hf), HA' as (f' & -> & Hf'). by eapply image_disjoint.
  - intros i Hi. unfold NINODES in Hi. apply free_inode; [lia|]. apply (im_none _ _ _ _ Him). unfold NINODES. lia.
Qed.

(** The image that mkfs builds is a file system as the kernel reads it.
    For any files that fit, [main] succeeds; the super block describes the
    disk, the log is empty, and exactly the blocks in use are marked in the
    bitmap.  The root is a directory with dot, dot-dot and an entry for each
    file, its unused entries free; each file's inode has its size and blocks
    that hold its bytes; no block belongs to two files, and the other inodes
    are free.  The root's blocks are those of its entries: the size that
    [main] rounds up covers one more block when the entries fill the last. *)
Theorem mkfs_image (files : list (list Z * list Z)) :
  Forall file_fits files → Z.of_nat (length files) + 1 < NINODES →
  let fb := nmeta + nblk (32 + 16 * Z.of_nat (length files)) + blocks_of files in fb ≤ FSSIZE →
  ∃ D m root addrs, main files = Some D ∧ fs_image D m fb files root addrs.
Proof. exact (mkfs_run files). Qed.

(** Two files, one of them named as the build names a program. *)
Definition two_files : list (list Z * list Z) := [(str "README", [104; 105]); (str "_cat", replicate 600 7)].
Lemma str_bytes x : Forall byte (str x).
Proof. induction x as [|c x IH]; [constructor|]. cbn. constructor; [|done]. unfold byte. destruct c as [[] [] [] [] [] [] [] []]; by vm_compute. Qed.
Lemma two_files_fit : Forall file_fits two_files.
Proof.
  repeat apply Forall_cons_2; [..|constructor]; (split_and!; [vm_compute; set_solver|apply str_bytes| |by vm_compute]).
  - repeat constructor; by vm_compute.
  - apply Forall_replicate. by vm_compute.
Qed.

Lemma mkfs_image_witness : ∃ D m root addrs, main two_files = Some D ∧ fs_image D m 63 two_files root addrs.
Proof. apply (mkfs_image two_files two_files_fit); by vm_compute. Defined.
