(* ===== verification/MkfsBoot.v ===== *)
(** A kernel that starts on the image mkfs built (src/mkfs.c): the first
    process initialises the inode cache and the log (src/proc.c, [forkret];
    src/fs.c, [iinit]; src/log.c, [initlog]), and path lookup and reads
    (src/fs.c) then find each file under its name with its contents. *)
From S2P Require Import Prelude Layout Bytes Spinlock Sleeplock CString Format Bio Log Console Fs FsSpec FsFile FsDir FsRef Directory Mkfs MkfsSpec.

(** * Starting the file system *)

(** The file system's data before anything ran: [binit] done, the rest clear. *)
Definition zero_inode : inode := Inode 0 0 0 (SLock false false 0) false 0 0 0 0 0 (replicate 13 0).
(** An entry of the inode cache after [iget], with [r] references. *)
Definition got (r inum : Z) : inode := Inode 1 inum r (SLock false false 0) false 0 0 0 0 0 (replicate 13 0).
(** The cache when the first process runs: [userinit] made the root its
    directory. *)
Definition boot_cache : list inode := got 1 1 :: replicate 49 zero_inode.
Definition fs_bss (D : list (list Z)) : fstate :=
  FState (fresh D) (Superblock 0 0 0 0 0 0 0) false (replicate NINODE zero_inode) [] [] blank_console false None.

(** After [namei("/")] in [userinit]. *)
Definition fs_first (D : list (list Z)) : fstate := set_inodes boot_cache (fs_bss D).

(** The part of [forkret] that runs once, in the first process. *)
Definition forkret_first : M fstate unit := iinit ROOTDEV;; on_log (initlog ROOTDEV).

(** Opening and reading: a path is looked up inside a transaction, and the
    inode it names is locked and read from its start. *)
Definition open_read (path : list Z) (n : Z) : M fstate (Z * list Z) :=
  on_log begin_op;;
  ip ← namei path;
  ip ← deref ip;
  ilock (Some ip);;
  readi ip 0 n.

(** * Runs *)

Lemma init_locks s ks :
  (∀ k, k ∈ ks → ∃ i, f_inodes s !! k = Some i ∧ i_lock i = SLock false false 0) → foreach ks (λ i, on_ilock i initsleeplock) s = Ret tt s [].
Proof.
  intros H. induction ks as [|k ks IH]; [done|]. cbn [foreach]. destruct (H k) as (i & Hk & El); [set_solver|].
  assert (on_ilock k initsleeplock s = Ret tt s []) as R.
  { unfold on_ilock. mstep (iget_ip_run s k _ Hk). unfold zoom. rewrite El.
    change (Ret tt (set_inodes (<[k := set_ilock (SLock false false 0) i]> (f_inodes s)) s) [] = Ret tt s []).
    replace (set_ilock (SLock false false 0) i) with i by (rewrite <- El; by destruct i). rewrite list_insert_id by done. by destruct s. }
  mstep R. rewrite IH by set_solver. done.
Qed.

Lemma iinit_run s D sbd :
  f_inodes s = boot_cache → f_icheld s = false → brep (l_bio (f_log s)) (a_boot D) → D !! 1%nat = Some sbd →
  ∃ b t, iinit 1 s = Ret tt (set_fsb (superblock_of sbd) (set_flog (set_lbio b (f_log s)) s)) t ∧ brep b (a_boot D).
Proof.
  intros Hi Hc Hb Hd. unfold iinit. rewrite bind_modify. assert (set_icheld false s = s) as -> by (destruct s; cbn in *; by subst).
  assert (foreach (seq 0 NINODE) (λ i, on_ilock i initsleeplock) s = Ret tt s []) as R1.
  { apply init_locks. intros k Hk. apply elem_of_seq in Hk as [_ Hk]. rewrite Hi. destruct k as [|k]; [by eexists|].
    exists zero_inode. split; [|done]. apply (lookup_replicate_2 49). unfold NINODE in Hk. lia. }
  mstep R1. destruct (readsb_spec _ _ sbd Hb eq_refl) as (b & t & R & _ & Hb');
    [cbn [a_boot a_dirty]; rewrite size_empty; unfold NBUF, MAXOPBLOCKS; lia|set_solver|done|].
  set (s1 := set_fsb (superblock_of sbd) (set_flog (set_lbio b (f_log s)) s)).
  assert (readsb_global 1 s = Ret tt s1 t) as R2.
  { unfold readsb_global. rewrite (bind_run _ _ _ _ _ _ (on_disk_run _ s _ _ _ R)). cbn. by rewrite app_nil_r. }
  rewrite (bind_run _ _ _ _ _ _ R2), bind_get. cbv zeta. set (ap := FInt <$> _).
  match goal with |- context [cprintf ?fmt ap s1] => destruct (cprintf_run fmt ap s1 (fmt_ok_chars _ (str fmt) ap (reflexivity _) eq_refl)) as [t' R3] end.
  rewrite R3. cbn [prepend]. by eexists b, _.
Qed.

Lemma zero_header : header_is zero_block [] ∧ hdr [] zero_block = zero_block.
Proof. split; [split; [by vm_compute|done]|by vm_compute]. Qed.

(** The disk is left as it is: the log is empty. *)
Lemma forkret_first_run D m fb files root addrs :
  fs_image D m fb files root addrs →
  ∃ s t, forkret_first (fs_first D) = Ret tt s t ∧ fsrep s (a_boot D) [] ∧ f_sb s = Mkfs.sb ∧
    f_inodes s = boot_cache ∧ f_icheld s = false ∧ l_outstanding (f_log s) = 0 ∧ l_committing (f_log s) = false.
Proof.
  intros Him. pose proof (fi_blocks _ _ _ _ _ _ Him) as Hok. pose proof (fi_sb _ _ _ _ _ _ Him) as Hsb. destruct (D !! 1%nat) as [sbd|] eqn:E1; [|done].
  change (Some (superblock_of sbd) = Some Mkfs.sb) in Hsb. apply (inj Some) in Hsb. destruct (iinit_run (fs_first D) D sbd eq_refl eq_refl (booted_brep D 1 Hok) E1) as (b & t & R1 & Hb).
  destruct zero_header as [Hz1 Hz2]. pose proof (fi_len _ _ _ _ _ _ Him) as Hlen. pose proof (fi_log _ _ _ _ _ _ Him) as Hlog.
  destruct (initlog_from b D (sb_logstart Mkfs.sb) (sb_nlog Mkfs.sb) [] zero_block) as (l & t' & R2 & _ & _ & Hl & Ho & Hc & Hdt).
  { split; [exact Hok|exists sbd; rewrite Hsb; split_and!; [exact E1|reflexivity..]|exact Hlog|exact Hz1|]. rewrite Hlen.
    split; [by vm_compute|by vm_compute|split; by vm_compute|by vm_compute|constructor|constructor]. }
  { exact Hb. }
  assert (exec (recovery_writes D (sb_logstart Mkfs.sb) [] zero_block) (a_boot D) = a_boot D) as Ea.
  { change (a_store (a_boot D) (sb_logstart Mkfs.sb, hdr [] zero_block) = a_boot D). rewrite Hz2. unfold a_store, a_boot. cbn [fst snd a_data a_disk a_dirty a_locked].
    rewrite list_insert_id by done. f_equal. }
  rewrite Ea in Hl. set (s1 := set_fsb (superblock_of sbd) (set_flog (set_lbio b (f_log (fs_first D))) (fs_first D))) in *.
  assert (on_log (initlog ROOTDEV) s1 = Ret tt (set_flog l s1) t') as R3.
  { unfold on_log, zoom. change (f_log s1) with (set_lbio b (fresh D)). change ROOTDEV with 1. by rewrite R2. }
  exists (set_flog l s1). eexists. split_and!; [| |exact Hsb|reflexivity|reflexivity|exact Ho|exact Hc].
  - unfold forkret_first. rewrite (bind_run _ _ _ _ _ _ R1). by rewrite R3.
  - split; cbn [f_sb f_log set_flog s1 set_fsb a_boot a_dirty a_disk a_data]; rewrite ?Hsb.
    + apply (fi_layout _ _ _ _ _ _ Him).
    + exact Hl.
    + done.
    + rewrite Hlen. by vm_compute.
    + constructor.
    + constructor.
    + rewrite E1. cbn [fmap option_fmap option_map]. by rewrite Hsb.
Qed.

(** * The inode cache *)

Definition free_lock (i : inode) : Prop := sl_lk (i_lock i) = false ∧ sl_locked (i_lock i) = false.

(** The state with [i] in entry [ip]. *)
Definition with_inode (ip : nat) (i : inode) (s : fstate) : fstate := set_inodes (<[ip := i]> (f_inodes s)) s.

Lemma with_inode_twice ip i j s : with_inode ip i (with_inode ip j s) = with_inode ip i s.
Proof. unfold with_inode, set_inodes. cbn. by rewrite list_insert_insert_eq. Qed.
Lemma with_inode_lookup ip i j s : f_inodes s !! ip = Some j → f_inodes (with_inode ip i s) !! ip = Some i.
Proof. intros H. apply list_lookup_insert_eq. by eapply lookup_lt_Some. Qed.
Lemma with_inode_same ip i s : f_inodes s !! ip = Some i → with_inode ip i s = s.
Proof. intros H. unfold with_inode. rewrite list_insert_id by done. by destruct s. Qed.

(** Only the inode cache, the log and the buffers differ. *)
Definition only_cache (s s' : fstate) : Prop := s' = set_inodes (f_inodes s') (set_flog (f_log s') s).
Lemma only_cache_trans s1 s2 s3 : only_cache s1 s2 → only_cache s2 s3 → only_cache s1 s3.
Proof. unfold only_cache. intros E1 E2. rewrite E2, E1. by destruct s1. Qed.
Lemma only_log_cache s s' : only_log s s' → only_cache s s'.
Proof. intros [E _]. unfold only_cache. rewrite E. by destruct s. Qed.
Lemma only_inode_cache ip i s s' : only_inode ip i s s' → only_cache s s'.
Proof. intros [E _]. unfold only_cache. rewrite E. by destruct s. Qed.
Lemma with_inode_cache ip i s : only_cache s (with_inode ip i s).
Proof. by destruct s. Qed.

Lemma on_ilock_run {A} (m : M sleeplock A) s ip i v l t :
  f_inodes s !! ip = Some i → m (i_lock i) = Ret v l t → on_ilock ip m s = Ret v (with_inode ip (set_ilock l i) s) t.
Proof. intros Hi Hm. unfold on_ilock. mstep (iget_ip_run s ip i Hi). unfold zoom. by rewrite Hm. Qed.

Lemma iacquire_run s ip i :
  f_inodes s !! ip = Some i → free_lock i →
  iacquiresleep ip s = Ret tt (with_inode ip (set_ilock (SLock false true (curpid (l_bio (f_log s)))) i) s) [].
Proof. intros Hi [H1 H2]. unfold iacquiresleep. rewrite bind_get. apply on_ilock_run; [done|]. by apply acquiresleep_free'. Qed.

Lemma only_inode_upd ip i s : only_inode ip i s (set_inodes (<[ip := i]> (f_inodes s)) s).
Proof. split; [by destruct s|done]. Qed.

(** [ilock] of an entry that is not loaded yet reads the disk inode. *)
Lemma ilock_load s ip i a L d :
  fsrep s a L → a_locked a = ∅ → (length L < NBUF)%nat → f_inodes s !! ip = Some i → 1 ≤ i_ref i → free_lock i → i_valid i = false →
  i_dev i = 1 → 0 ≤ i_inum i < sb_ninodes (f_sb s) → a_data a !! Z.to_nat (IBLOCK (i_inum i) (f_sb s)) = Some d →
  i16 (half d (dip_of (i_inum i))) ≠ 0 →
  returns (ilock (Some ip)) (λ _ s', fsrep s' a L ∧
    only_inode ip (set_ivalid true (get_dinode d (dip_of (i_inum i)) (set_ilock (SLock false true (curpid (l_bio (f_log s)))) i))) s s') s.
Proof.
  intros Hf Hlk HL Hi Href Hfree Hval Hdev Hin Hd Hty. assert (ip < length (f_inodes s))%nat as Hlt by (by eapply lookup_lt_Some).
  destruct (IBLOCK_iblock (f_sb s) i (fr_layout _ _ _ Hf) Hin) as [Eb Hb]. destruct (fr_layout _ _ _ Hf) as [Y1 Y2 Y3 Y4 Y5 Y6].
  unfold ilock. eapply returns_eq; [by apply iget_ip_run|]. rewrite bool_decide_false by lia. eapply returns_eq; [reflexivity|].
  eapply returns_eq; [by apply iacquire_run|]. set (i1 := set_ilock _ i). set (s1 := with_inode ip i1 s).
  assert (f_inodes s1 !! ip = Some i1) as Hi1 by (by eapply with_inode_lookup). eapply returns_eq; [by apply iget_ip_run|].
  change (i_valid i1) with (i_valid i). rewrite Hval. apply returns_get. change (i_dev i1) with (i_dev i). change (i_inum i1) with (i_inum i).
  change (f_sb s1) with (f_sb s). rewrite Hdev. assert (fsrep s1 a L) as Hf1 by (by apply fsrep_inodes). rewrite Eb in Hd.
  eapply returns_step; [apply (fs_bread s1 a L); [done|by rewrite Hlk|change (f_sb s1) with (f_sb s); rewrite Eb; lia|rewrite Hlk, map_size_empty; lia]|].
  intros bp s2 [Ho2 Hf2]. rewrite Eb in *. eapply returns_eq; [eapply fs_bdata_get; [exact Hf2|apply lookup_insert_eq|exact Hd]|].
  assert (f_inodes s2 !! ip = Some i1) as Hi2 by (by rewrite (only_log_inodes _ _ Ho2)). eapply returns_eq; [by apply iupd_run|].
  set (i3 := get_dinode _ _ i1). set (s3 := set_inodes (<[ip := i3]> (f_inodes s2)) s2).
  eapply returns_step; [eapply fs_brelse; [apply fsrep_inodes; exact Hf2|apply lookup_insert_eq|]|].
  { apply (fs_clean s a L _ Hf); [lia|by rewrite Hlk]. }
  intros _ s4 [Ho4 Hf4]. rewrite a_read_steps in Hf4 by (by rewrite Hlk).
  assert (f_inodes s4 !! ip = Some i3) as Hi4.
  { rewrite (only_log_inodes _ _ Ho4). cbn [set_inodes f_inodes]. apply list_lookup_insert_eq. by rewrite (only_log_inodes _ _ Ho2); apply lookup_lt_Some in Hi1. }
  eapply returns_eq; [by apply iupd_run|]. set (s5 := set_inodes _ s4).
  assert (f_inodes s5 !! ip = Some (set_ivalid true i3)) as Hi5 by (apply list_lookup_insert_eq; by eapply lookup_lt_Some).
  eapply returns_eq; [by apply iget_ip_run|]. rewrite bool_decide_false by exact Hty. apply returns_mret. split; [by apply fsrep_inodes|].
  eapply only_inode_trans; [apply only_inode_upd|]. eapply only_inode_trans; [by apply (only_log_inode ip i1 s1 s2)|].
  eapply only_inode_trans; [apply only_inode_upd|]. eapply only_inode_trans; [|apply only_inode_upd].
  apply (only_log_inode ip i3 s3 s4); [done|]. by rewrite (only_log_inodes s3 s4 Ho4) in Hi4.
Qed.

(** [iget] of an inode that is not in the cache takes the first free entry. *)
Lemma iget_fresh s dev inum (k : nat) i :
  f_icheld s = false → iget_scan (f_inodes s) 0 dev inum None = inr (Some k) → f_inodes s !! k = Some i →
  iget dev inum s = Ret k (set_inodes (<[k := Inode dev inum 1 (i_lock i) false (i_type i) (i_major i) (i_minor i) (i_nlink i) (i_size i) (i_addrs i)]>
    (f_inodes s)) s) [].
Proof.
  intros Hc Hs Hk. unfold iget, ic_acquire, ic_release. mstep (lk_acquire_run f_icheld set_icheld s Hc). rewrite bind_get. cbn [f_inodes set_icheld].
  rewrite Hs. mstep (iupd_run (set_icheld true s) k i (λ i, Inode dev inum 1 (i_lock i) false (i_type i) (i_major i) (i_minor i) (i_nlink i) (i_size i) (i_addrs i)) Hk).
  rewrite (bind_run _ _ _ _ _ _ (lk_release_run f_icheld set_icheld (set_inodes _ (set_icheld true s)) eq_refl)).
  cbn. unfold set_inodes, set_icheld. cbn. by rewrite Hc.
Qed.

Definition put_entry (i : inode) : inode := set_iref (i_ref i - 1) (set_ilock (SLock false false 0) i).

(** [iunlockput] of a linked inode: the lock is free and one reference less. *)
Lemma iunlockput_run s ip i :
  f_icheld s = false → f_inodes s !! ip = Some i → sl_lk (i_lock i) = false → sl_locked (i_lock i) = true → 1 ≤ i_ref i → i_nlink i ≠ 0 →
  returns (iunlockput ip) (λ _ s', s' = with_inode ip (put_entry i) s) s.
Proof.
  intros Hc Hi H1 H2 Href Hn. unfold iunlockput. apply returns_bind.
  assert (iunlock (Some ip) s = Ret tt (with_inode ip (set_ilock (SLock false false 0) i) s) [EvWakeup (Some (CInodeLock ip))]) as R1.
  { unfold iunlock. mstep (on_ilock_run holdingsleep s ip i _ _ _ Hi (holdingsleep_run _ H1)).
    replace (set_ilock (i_lock i) i) with i by (by destruct i). rewrite with_inode_same by done. mstep (iget_ip_run s ip i Hi).
    rewrite H2, bool_decide_false by lia. cbn [negb orb panic_if]. rewrite bind_mret. apply on_ilock_run; [done|]. by apply releasesleep_run. }
  eapply returns_run; [exact R1|done|]. set (i1 := set_ilock (SLock false false 0) i). set (s1 := with_inode ip i1 s).
  assert (f_inodes s1 !! ip = Some i1) as Hi1 by (by eapply with_inode_lookup). unfold iput.
  eapply returns_eq; [by apply iacquire_run|]. set (i2 := set_ilock _ i1). set (s2 := with_inode ip i2 s1).
  assert (f_inodes s2 !! ip = Some i2) as Hi2 by (by eapply with_inode_lookup). eapply returns_eq; [by apply iget_ip_run|].
  change (i_nlink i2) with (i_nlink i). rewrite bool_decide_false, andb_false_r by done. eapply returns_eq; [reflexivity|].
  apply returns_bind. eapply returns_run; [eapply on_ilock_run; [exact Hi2|by apply releasesleep_run]|done|].
  unfold s2, s1. rewrite !with_inode_twice. change (set_ilock (SLock false false 0) i2) with i1. fold s1.
  eapply returns_eq; [by apply lk_acquire_run|]. eapply returns_eq; [by apply (iupd_run _ ip i1)|].
  eapply returns_run; [by apply lk_release_run|done|]. unfold s1. unfold with_inode, set_inodes, set_icheld. cbn. rewrite list_insert_insert_eq, Hc. done.
Qed.

(** * Files of the image *)

Lemma image_map D m fb files root addrs : fs_image D m fb files root addrs → map_ok Mkfs.sb (a_boot D) m.
Proof.
  intros Him. pose proof (fi_fb _ _ _ _ _ _ Him) as Hfb. consts. split.
  - apply (fi_map _ _ _ _ _ _ Him).
  - intros b Hb. change (sb_bmapstart Mkfs.sb) with 58 in Hb. rewrite (fi_bit _ _ _ _ _ _ Him) by (unfold BPB; lia). apply bool_decide_true. lia.
  - apply lookup_empty.
  - intros b _ _. apply lookup_empty.
Qed.

(** A disk inode that is loaded in the cache is a file in the sense of
    the kernel's theorems. *)
Lemma disk_file_ok s ip L m inum r lk ty size A D :
  fsrep s (a_boot D) L → f_sb s = Mkfs.sb → map_ok Mkfs.sb (a_boot D) m → disk_file D m inum ty size A → full D A size →
  0 ≤ size ≤ MAXFILE * BSIZE → 0 ≤ ty < 32768 → 0 ≤ inum < Mkfs.NINODES →
  let i := Inode 1 inum r lk true ty 0 0 1 size A in f_inodes s !! ip = Some i → file_ok s ip i (a_boot D) L m.
Proof.
  intros Hf Esb Hm [(b & Hb & Hg) Ha Hr] Hfull Hsz Hty Hin i Hi. split.
  - split; [done|done|done|by rewrite Esb|by rewrite Esb|done].
  - unfold MAXFILE, NDIRECT, NINDIRECT, BSIZE in Hsz. split; cbn; try lia; [apply Ha|done].
  - rewrite Esb. exact Hin.
  - cbn. lia.
  - done.
  - exists b. destruct (IBLOCK_iblock (f_sb s) i (fr_layout _ _ _ Hf)) as [<- _]; [rewrite Esb; exact Hin|]. rewrite Esb. split; [done|]. apply Hg.
Qed.

Lemma dfind_app E1 E2 nm x y z :
  Forall (λ e, e.2 ≠ nm) E1 → x ≠ 0 → y = nm → ∃ k, dfind (E1 ++ (x, y) :: z ++ E2) nm = Some (k, x).
Proof.
  intros H Hx ->. induction H as [|[a b] E1 Hb _ [k IH]]; cbn [app dfind].
  - exists 0%nat. by rewrite decide_True.
  - exists (S k). cbn in Hb. rewrite decide_False by naive_solver. by rewrite IH.
Qed.

Definition first_named (files : list (list Z * list Z)) (j : nat) (nm : list Z) : Prop :=
  dname nm ≠ str "." ∧ dname nm ≠ str ".." ∧
  ∀ j' x, files !! j' = Some x → (j' < j)%nat → dname (strip x.1) ≠ dname nm.

(** The root's entry for a name that no earlier file has. *)
Lemma root_finds files j name content k :
  files !! j = Some (name, content) → first_named files j (strip name) →
  ∃ p, dfind (root_names files ++ replicate k (0, [])) (dname (strip name)) = Some (p, 2 + Z.of_nat j).
Proof.
  intros Hj (Hd1 & Hd2 & Hfirst). unfold root_names. set (g := λ (j : nat) (x : list Z * list Z), (2 + Z.of_nat j, dname (strip x.1))).
  assert (imap g files = imap g (take j files) ++ g j (name, content) :: imap (g ∘ Nat.add (S j)) (drop (S j) files)) as ->.
  { rewrite <- (take_drop_middle files j _ Hj) at 1. rewrite imap_app. cbn [imap]. apply lookup_lt_Some in Hj.
    rewrite length_take, Nat.min_l by lia. f_equal. cbn [compose]. rewrite Nat.add_0_r. f_equal. apply imap_ext. intros q x _. cbn. do 2 f_equal. lia. }
  set (E1 := imap g (take j files)). rewrite !app_comm_cons, <- (assoc_L (++)). cbn [app].
  apply (dfind_app ((1, str ".") :: (1, str "..") :: E1)); [|lia|done].
  apply Forall_cons_2; [done|]. apply Forall_cons_2; [done|]. apply Forall_lookup_2. intros j' e He. unfold E1 in He.
  rewrite list_lookup_imap in He. destruct (take j files !! j') as [x|] eqn:Ex; [|done]. injection He as <-.
  apply lookup_take_Some in Ex as [Ex Hlt]. by apply (Hfirst j').
Qed.

Lemma split_whole l cur : slash ∉ l → cur ++ l ≠ [] → split_path l cur = [cur ++ l].
Proof.
  revert cur. induction l as [|c l IH]; intros cur Hs Hne; cbn [split_path].
  - rewrite app_nil_r in *. by rewrite decide_False.
  - apply not_elem_of_cons in Hs as [Hc Hl]. rewrite decide_False by congruence. rewrite IH; [by rewrite <- (assoc_L (++))|done|].
    intros E. apply app_eq_nil in E as [E _]. by apply app_eq_nil in E as [_ E].
Qed.
Lemma elements_root nm : slash ∉ nm → nm ≠ [] → elements (slash :: nm) = [nm].
Proof. intros H1 H2. unfold elements. cbn [split_path]. rewrite decide_True, decide_True by done. by apply split_whole. Qed.

Lemma scan_zeros n k dev inum e : iget_scan (replicate n zero_inode) k dev inum (Some e) = inr (Some e).
Proof. revert k. induction n as [|n IH]; intros k; [done|]. cbn [replicate iget_scan]. apply IH. Qed.
Lemma scan_first n k dev inum : iget_scan (replicate (S n) zero_inode) k dev inum None = inr (Some k).
Proof. cbn [replicate iget_scan]. apply scan_zeros. Qed.

Lemma scan_other i l k dev inum : i_inum i ≠ inum → i_ref i ≠ 0 → iget_scan (i :: l) k dev inum None = iget_scan l (S k) dev inum None.
Proof.
  intros H1 H2. cbn [iget_scan]. rewrite (bool_decide_false (i_inum i = inum)), andb_false_r by done.
  by rewrite (bool_decide_false (i_ref i = 0)), andb_false_r by done.
Qed.

Lemma iget_root s : f_icheld s = false → f_inodes s = replicate NINODE zero_inode → iget ROOTDEV ROOTINO s = Ret 0%nat (with_inode 0 (got 1 1) s) [].
Proof. intros Hc Hi. rewrite (iget_fresh s ROOTDEV ROOTINO 0 zero_inode Hc); [done|rewrite Hi; apply (scan_first 49)|by rewrite Hi]. Qed.
Lemma iget_root_again s : f_icheld s = false → f_inodes s = boot_cache → iget ROOTDEV ROOTINO s = Ret 0%nat (with_inode 0 (got 2 1) s) [].
Proof.
  intros Hc Hi. unfold iget, ic_acquire, ic_release. mstep (lk_acquire_run f_icheld set_icheld s Hc). rewrite bind_get. cbn [f_inodes set_icheld].
  rewrite Hi. change (iget_scan boot_cache 0 ROOTDEV ROOTINO None) with (inl 0%nat : nat + option nat). cbv iota.
  mstep (iupd_run (set_icheld true s) 0 (got 1 1) (λ i, set_iref (i_ref i + 1) i) ltac:(cbn; by rewrite Hi)).
  rewrite (bind_run _ _ _ _ _ _ (lk_release_run f_icheld set_icheld (set_inodes _ (set_icheld true s)) eq_refl)).
  cbn. unfold with_inode, set_inodes, set_icheld. cbn. by rewrite Hc.
Qed.
(** The lookup of the root in [userinit]. *)
Lemma namei_root D : namei (str "/") (fs_bss D) = Ret (Some 0%nat) (fs_first D) [].
Proof.
  pose proof (iget_root (fs_bss D) eq_refl eq_refl) as R. set (s1 := with_inode 0 (got 1 1) (fs_bss D)) in R.
  assert (namex (str "/") false (replicate DIRSIZ 0) (fs_bss D) = Ret (Some 0%nat, replicate DIRSIZ 0) s1 []) as R2; [|unfold namei; by mstep R2].
  unfold namex. rewrite bool_decide_true by done. by mstep R.
Qed.

Lemma iget_second s i inum :
  f_icheld s = false → f_inodes s = i :: replicate 49 zero_inode → i_ref i ≠ 0 → i_inum i ≠ inum →
  iget 1 inum s = Ret 1%nat (with_inode 1 (got 1 inum) s) [].
Proof.
  intros Hc Hi Hr Hn. rewrite (iget_fresh s 1 inum 1 zero_inode Hc); [done| |by rewrite Hi]. rewrite Hi.
  rewrite scan_other by (done || lia). apply (scan_first 48).
Qed.

(** ** The lookup *)

Section lookup.
Context (D : list (list Z)) (m : list Z) (fb : Z) (files : list (list Z * list Z)) (root : list Z) (addrs : list (list Z)).
Hypothesis Him : fs_image D m fb files root addrs.
Hypothesis Hfiles : Z.of_nat (length files) + 1 < Mkfs.NINODES.
Let n0 := 32 + 16 * Z.of_nat (length files).
Hypothesis Hround : n0 mod 512 ≠ 0.

(** The root in the cache. *)
Definition root_in (pid : Z) : inode := Inode 1 1 2 (SLock false true pid) true T_DIR 0 0 1 (rounded n0) root.

Lemma root_dir s pid L :
  fsrep s (a_boot D) L → f_sb s = Mkfs.sb → f_inodes s !! 0%nat = Some (root_in pid) →
  dir_ok s 0 (root_in pid) (a_boot D) L m (Z.to_nat (rounded n0 / 16)).
Proof.
  intros Hf Esb Hi. destruct (fi_root _ _ _ _ _ _ Him) as (Hdf & Hsl & _). fold n0 in Hdf, Hsl. unfold Mkfs.NINODES in Hfiles.
  assert (0 ≤ rounded n0 < 10000 ∧ rounded n0 mod 16 = 0) as [Hr Hr16] by (unfold rounded, n0; Z.div_mod_to_equations; lia).
  split; [|done|cbn; Z.div_mod_to_equations; lia].
  eapply disk_file_ok; try done; [by eapply image_map| |unfold MAXFILE, NDIRECT, NINDIRECT, BSIZE; lia].
  intros k Hk. unfold BSIZE in Hk. apply Hsl; unfold rounded, n0 in *; Z.div_mod_to_equations; lia.
Qed.

Lemma ilock_root s :
  fsrep s (a_boot D) [] → f_sb s = Mkfs.sb → f_inodes s !! 0%nat = Some (got 2 1) →
  returns (ilock (Some 0%nat)) (λ _ s', fsrep s' (a_boot D) [] ∧ only_inode 0 (root_in (curpid (l_bio (f_log s)))) s s') s.
Proof.
  intros Hf Esb Hi. destruct (fi_root _ _ _ _ _ _ Him) as ([(b & Hb & Hg) _ _] & _ & _). fold n0 in Hg.
  pose proof (Hg (got 2 1)) as Hg1. injection Hg1 as Ety _ _ _ _ _.
  eapply returns_mono; [eapply (ilock_load s 0 (got 2 1) (a_boot D) [] b); try done|].
  - unfold NBUF, MAXOPBLOCKS. cbn. lia.
  - rewrite Esb. done.
  - by rewrite Esb.
  - change (dip_of (i_inum (got 2 1))) with (dip_of 1). by rewrite Ety.
  - intros _ s' [Hf' Ho]. split; [done|]. rewrite Hg in Ho. exact Ho.
Qed.

Context (j : nat) (name content : list Z).
Hypothesis Hj : files !! j = Some (name, content).
Hypothesis Hname : Forall byte (strip name) ∧ strip name ≠ [] ∧ slash ∉ strip name ∧ 0 ∉ strip name.
Hypothesis Hfirst : first_named files j (strip name).

Lemma store_strip : let nm := store_elem (strip name) (replicate DIRSIZ 0) in
  dname nm = dname (strip name) ∧ Forall byte nm ∧ readable nm DIRSIZ.
Proof.
  destruct Hname as (Hb & _ & _ & H0). destruct (store_name (strip name) (replicate DIRSIZ 0) H0 eq_refl) as [E Hl]. intros nm. split_and!.
  - unfold nm. rewrite E. unfold dname. by rewrite cstr_all.
  - unfold nm, store_elem. assert (Forall byte (replicate DIRSIZ 0)) by (apply Forall_replicate; unfold byte; lia).
    case_bool_decide; apply Forall_splice; try done; [by apply Forall_take|]. apply Forall_app. split; [done|]. repeat constructor; unfold byte; lia.
  - right. unfold nm. rewrite Hl. done.
Qed.

(** The step of [namex] in the root. *)
Lemma root_step s pid :
  fsrep s (a_boot D) [] → f_sb s = Mkfs.sb → f_icheld s = false → f_inodes s = root_in pid :: replicate 49 zero_inode →
  returns (dirlookup 0 (store_elem (strip name) (replicate DIRSIZ 0)))
    (λ r s', (∃ off, r = Some (1%nat, off)) ∧ fsrep s' (a_boot D) [] ∧ f_sb s' = Mkfs.sb ∧ f_icheld s' = false ∧
       f_inodes s' = root_in pid :: got 1 (2 + Z.of_nat j) :: replicate 48 zero_inode ∧ txn (f_log s') = txn (f_log s) ∧ only_cache s s') s.
Proof.
  intros Hf Esb Hc Hi. destruct store_strip as (Ed & Hb & Hr). set (nm := store_elem _ _) in *.
  pose proof (root_dir s pid [] Hf Esb) as Hdir. rewrite Hi in Hdir. specialize (Hdir eq_refl).
  pose proof (dirlookup_spec s 0 _ _ _ _ _ nm Hdir ltac:(unfold NBUF, MAXOPBLOCKS; cbn; lia) Hb Hr) as Hl. rewrite Ed in Hl.
  destruct (fi_root _ _ _ _ _ _ Him) as (_ & _ & Hents). fold n0 in Hents. unfold dir, contents in Hl. cbn [root_in i_addrs i_size a_boot a_data] in Hl.
  rewrite Hents in Hl. destruct (root_finds files j name content (Z.to_nat ((rounded n0 - n0) / 16)) Hj Hfirst) as [p Ep]. rewrite Ep in Hl.
  destruct Hl as (s1 & t1 & Ho & Hf1 & Ht & R). eapply returns_after; [exact R|exact Ht|].
  assert (f_inodes s1 = root_in pid :: replicate 49 zero_inode) as Hi1 by (by rewrite (only_log_inodes _ _ Ho)).
  eapply returns_eq; [apply (iget_second s1 (root_in pid)); [by rewrite (only_log_icheld _ _ Ho)|exact Hi1|cbn; lia|cbn; lia]|].
  apply returns_mret. split_and!; [by eexists|by apply fsrep_inodes|cbn; by rewrite (only_log_sb _ _ Ho)|cbn; by rewrite (only_log_icheld _ _ Ho)| |apply Ho|eapply only_cache_trans; [by apply only_log_cache|apply with_inode_cache]].
  cbn [with_inode f_inodes set_inodes]. unfold with_inode. cbn [set_inodes f_inodes]. by rewrite Hi1.
Qed.

Lemma namei_finds s :
  fsrep s (a_boot D) [] → f_sb s = Mkfs.sb → f_icheld s = false → f_inodes s = boot_cache →
  returns (namei (slash :: strip name))
    (λ r s', r = Some 1%nat ∧ fsrep s' (a_boot D) [] ∧ f_sb s' = Mkfs.sb ∧ f_inodes s' !! 1%nat = Some (got 1 (2 + Z.of_nat j)) ∧
       f_icheld s' = false ∧ txn (f_log s') = txn (f_log s) ∧ only_cache s s') s.
Proof.
  intros Hf Esb Hc Hi. destruct Hname as (_ & Hne & Hsl & _). unfold namei. apply returns_bind. unfold namex.
  rewrite bool_decide_true by done. eapply returns_eq; [by apply iget_root_again|]. set (s1 := with_inode 0 (got 2 1) s).
  eapply (returns_after _ (namex_elements 0 (elements (slash :: strip name)) false (replicate DIRSIZ 0)) _ s1 s1 []);
    [rewrite namex_loop_elements by lia; symmetry; apply prepend_nil|done|].
  rewrite elements_root by done. cbn [namex_elements]. assert (f_inodes s1 = got 2 1 :: replicate 49 zero_inode) as Hi1.
  { unfold s1, with_inode. cbn [set_inodes f_inodes]. by rewrite Hi. }
  eapply returns_step; [apply ilock_root; [by apply fsrep_inodes|done|by rewrite Hi1]|]. intros _ s2 [Hf2 Ho2].
  set (pid := curpid _) in Ho2. assert (f_inodes s2 = root_in pid :: replicate 49 zero_inode) as Hi2.
  { destruct Ho2 as [-> _]. cbn [set_inodes f_inodes set_flog]. by rewrite Hi1. }
  assert (f_sb s2 = Mkfs.sb) as Esb2 by (by rewrite (only_inode_sb _ _ _ _ Ho2)).
  assert (f_icheld s2 = false) as Hc2 by (by destruct Ho2 as [-> _]).
  eapply returns_eq; [apply iget_ip_run; by rewrite Hi2|]. rewrite bool_decide_false by (intros H; by apply H). cbn [andb].
  eapply returns_step; [by apply (root_step s2 pid)|]. intros r s3 ([off ->] & Hf3 & Esb3 & Hc3 & Hi3 & Ht3 & Hoc3). cbn [namex_elements].
  eapply returns_step; [apply (iunlockput_run s3 0 (root_in pid)); [done|by rewrite Hi3|done|done|cbn; lia|done]|]. intros _ s4 ->.
  apply returns_mret, returns_mret. split_and!; [done|by apply fsrep_inodes|done| |done| |].
  - unfold with_inode. cbn [set_inodes f_inodes]. by rewrite Hi3.
  - change (txn (f_log s3) = txn (f_log s1)). rewrite Ht3. apply Ho2.
  - eapply only_cache_trans; [apply with_inode_cache|]. eapply only_cache_trans; [by eapply only_inode_cache|].
    eapply only_cache_trans; [exact Hoc3|apply with_inode_cache].
Qed.

(** ** The read *)

(** The file in the cache. *)
Definition file_in (pid : Z) (A : list Z) : inode :=
  Inode 1 (2 + Z.of_nat j) 1 (SLock false true pid) true T_FILE 0 0 1 (Z.of_nat (length content)) A.

Lemma ilock_file s A :
  fsrep s (a_boot D) [] → f_sb s = Mkfs.sb → f_inodes s !! 1%nat = Some (got 1 (2 + Z.of_nat j)) → addrs !! j = Some A →
  Z.of_nat (length content) ≤ MAXFILE * BSIZE →
  returns (ilock (Some 1%nat))
    (λ _ s', let i := file_in (curpid (l_bio (f_log s))) A in file_ok s' 1 i (a_boot D) [] m ∧ contents (a_boot D) i = content ∧ only_inode 1 i s s') s.
Proof.
  intros Hf Esb Hi HA Hmax. destruct (fi_file _ _ _ _ _ _ Him j name content A Hj HA) as (Hdf & Hfull & Hbytes).
  pose proof Hdf as [(b & Hb & Hg) _ _]. set (inum := 2 + Z.of_nat j) in *. set (size := Z.of_nat (length content)) in *.
  pose proof (Hg (got 1 inum)) as Hg1. injection Hg1 as Ety _ _ _ _ _.
  assert (0 ≤ inum < Mkfs.NINODES) as Hin by (apply lookup_lt_Some in Hj; unfold inum; unfold Mkfs.NINODES in *; lia).
  eapply returns_mono; [eapply (ilock_load s 1 (got 1 inum) (a_boot D) [] b); try done|].
  - unfold NBUF, MAXOPBLOCKS. cbn. lia.
  - rewrite Esb. exact Hin.
  - by rewrite Esb.
  - change (i_inum (got 1 inum)) with inum. by rewrite Ety.
  - intros _ s1 [Hf1 Ho]. change (i_inum (got 1 inum)) with inum in Ho. rewrite Hg in Ho.
    pose proof (disk_file_ok s1 1 [] m inum 1 (SLock false true (curpid (l_bio (f_log s)))) T_FILE size A D Hf1) as Hfo.
    assert (f_sb s1 = Mkfs.sb) as Esb1 by (by rewrite (only_inode_sb _ _ _ _ Ho)).
    specialize (Hfo Esb1 (image_map _ _ _ _ _ _ Him) Hdf Hfull ltac:(lia) ltac:(done) Hin).
    specialize (Hfo (only_inode_lookup _ _ _ _ Ho ltac:(by eapply lookup_lt_Some))).
    split_and!; [exact Hfo|exact Hbytes|exact Ho].
Qed.

Lemma read_file s A n :
  fsrep s (a_boot D) [] → f_sb s = Mkfs.sb → f_inodes s !! 1%nat = Some (got 1 (2 + Z.of_nat j)) → addrs !! j = Some A →
  Z.of_nat (length content) ≤ MAXFILE * BSIZE → 0 ≤ n < 4294967296 →
  returns (ilock (Some 1%nat);; readi 1 0 n)
    (λ r s', r = (Z.min n (Z.of_nat (length content)), take (Z.to_nat n) content)) s.
Proof.
  intros Hf Esb Hi HA Hmax Hn. eapply returns_step; [by eapply ilock_file|]. intros _ s1 (Hfo & Hbytes & _). set (i := file_in _ A) in *.
  eapply returns_mono; [eapply (readi_spec s1 1 _ _ _ _ 0 n (fo_view _ _ _ _ _ _ Hfo)); try apply Hfo; try done; unfold NBUF, MAXOPBLOCKS; cbn; lia|].
  cbn [i_size i_addrs i file_in]. intros r s2 (-> & _ & _). rewrite bool_decide_false by lia. rewrite Z.sub_0_r. cbv zeta. f_equal.
  rewrite <- Hbytes at 2. unfold contents. apply list_eq. intros p. rewrite lookup_take. cbn [i_size i_addrs i file_in]. rewrite !lookup_file_bytes by done.
  case_decide; repeat case_bool_decide; (done || lia).
Qed.
End lookup.

Lemma strip_out c name : c ∉ name → c ∉ strip name.
Proof. intros H. destruct name as [|x nm]; [done|]. cbn. case_bool_decide; set_solver. Qed.

Lemma begin_first D s :
  fsrep s (a_boot D) [] → l_outstanding (f_log s) = 0 → l_committing (f_log s) = false →
  ∃ s1, on_log begin_op s = Ret tt s1 [] ∧ fsrep s1 (a_boot D) [] ∧ s1 = set_flog (f_log s1) s ∧ txn (f_log s1) = (1, false).
Proof.
  intros Hf Ho Hc. pose proof (fr_log _ _ _ Hf) as Hl. exists (set_flog (set_outstanding 1 (f_log s)) s). split_and!; [| |done|unfold txn; cbn; by rewrite Hc].
  - unfold on_log, zoom. rewrite begin_op_run by apply Hl. unfold admits. rewrite Hc, Ho, (lr_n _ _ _ _ _ Hl). done.
  - destruct Hf. split; try done. by destruct Hl.
Qed.


