(* ===== verification/File.v ===== *)
(** Open files and pipes (src/file.c, src/pipe.c, [struct file] of src/file.h).

    A [struct file*] is an index into the file table, a [struct pipe*] the
    address of the page that [kalloc] gave for it.  Bytes that a read stores
    at the caller's address are part of its result.  The theorem: a pipe is
    a bounded first-in-first-out queue.  (The reference counts of the file
    table are the subject of SysfileSpec.v.) *)
From S2P Require Import Prelude Layout Bytes Spinlock Sleeplock Kalloc Bio Log Console Fs.

Definition PIPESIZE : Z := 512.

Record pipe := Pipe {
  pp_held : bool;                 (* p->lock *)
  pp_data : list Z;
  pp_nread : Z;
  pp_nwrite : Z;
  pp_readopen : bool;
  pp_writeopen : bool
}.
Definition set_ppheld v p := Pipe v (pp_data p) (pp_nread p) (pp_nwrite p) (pp_readopen p) (pp_writeopen p).
Definition set_ppdata v p := Pipe (pp_held p) v (pp_nread p) (pp_nwrite p) (pp_readopen p) (pp_writeopen p).
Definition set_nread v p := Pipe (pp_held p) (pp_data p) v (pp_nwrite p) (pp_readopen p) (pp_writeopen p).
Definition set_nwrite v p := Pipe (pp_held p) (pp_data p) (pp_nread p) v (pp_readopen p) (pp_writeopen p).
Definition set_readopen v p := Pipe (pp_held p) (pp_data p) (pp_nread p) (pp_nwrite p) v (pp_writeopen p).
Definition set_writeopen v p := Pipe (pp_held p) (pp_data p) (pp_nread p) (pp_nwrite p) (pp_readopen p) v.

(** ** One pipe *)

Definition pipe_byte (i : Z) : M pipe Z := p ← get; deref (pp_data p !! Z.to_nat (i mod PIPESIZE)).

(** [pipeclose] up to the release of the lock; the result says whether the
    page is freed. *)
Definition pipeclose_body (a : Z) (writable : bool) : M pipe bool :=
  lk_acquire pp_held set_ppheld;;
  (if writable then modify (set_writeopen false);; announce (CPipeRead a)
   else modify (set_readopen false);; announce (CPipeWrite a));;
  p ← get;
  let last := negb (pp_readopen p) && negb (pp_writeopen p) in
  lk_release pp_held set_ppheld;;
  mret last.

(** How [pipewrite] leaves off: done, given up, or asleep with the bytes that
    are still to be written. *)
Inductive pwrite : Type := PDone | PFail | PAsleep (rest : list Z).

Fixpoint pipewrite_loop (a : Z) (killed : bool) (bytes : list Z) : M pipe pwrite :=
  match bytes with
  | [] => mret PDone
  | c :: bytes' =>
      p ← get;
      if bool_decide (pp_nwrite p = u32 (pp_nread p + PIPESIZE)) then
        if negb (pp_readopen p) || killed then mret PFail
        else announce (CPipeRead a);; mret (PAsleep bytes)
      else
        pipe_byte (pp_nwrite p);;
        modify (λ p, set_ppdata (<[Z.to_nat (pp_nwrite p mod PIPESIZE) := u8 c]> (pp_data p)) p);;
        modify (λ p, set_nwrite (u32 (pp_nwrite p + 1)) p);;
        pipewrite_loop a killed bytes'
  end.
(** [pipewrite] of the bytes from [addr[i]] on; a process that was asleep goes
    on with the bytes that are left. *)
Definition pipewrite_body (a : Z) (killed : bool) (bytes : list Z) : M pipe pwrite :=
  lk_acquire pp_held set_ppheld;;
  r ← pipewrite_loop a killed bytes;
  match r with
  | PDone => announce (CPipeRead a);; lk_release pp_held set_ppheld;; mret PDone
  | r => lk_release pp_held set_ppheld;; mret r
  end.

Fixpoint piperead_loop (n : nat) (out : list Z) : M pipe (list Z) :=
  match n with
  | O => mret out
  | S n' =>
      p ← get;
      if bool_decide (pp_nread p = pp_nwrite p) then mret out else
      c ← pipe_byte (pp_nread p);
      modify (λ p, set_nread (u32 (pp_nread p + 1)) p);;
      piperead_loop n' (out ++ [c])
  end.
(** [piperead]: [None] when the process was killed while it waited. *)
Definition piperead_body (a : Z) (killed : bool) (n : Z) : M pipe (option (list Z)) :=
  lk_acquire pp_held set_ppheld;;
  p ← get;
  if bool_decide (pp_nread p = pp_nwrite p) && pp_writeopen p then
    if killed then lk_release pp_held set_ppheld;; mret None
    else lk_release pp_held set_ppheld;; block (CPipeRead a)
  else
    out ← piperead_loop (Z.to_nat n) [];
    announce (CPipeWrite a);;
    lk_release pp_held set_ppheld;;
    mret (Some out).

(** ** The file table *)

Inductive fdtype : Type := FD_NONE | FD_PIPE | FD_INODE.

#[export] Instance fdtype_eq_dec : EqDecision fdtype.
Proof. solve_decision. Defined.

Record file := File {
  fl_type : fdtype;
  fl_ref : Z;
  fl_readable : bool;
  fl_writable : bool;
  fl_pipe : Z;
  fl_ip : option nat;
  fl_off : Z
}.
Definition set_fref v f := File (fl_type f) v (fl_readable f) (fl_writable f) (fl_pipe f) (fl_ip f) (fl_off f).
Definition set_ftype v f := File v (fl_ref f) (fl_readable f) (fl_writable f) (fl_pipe f) (fl_ip f) (fl_off f).
Definition set_foff v f := File (fl_type f) (fl_ref f) (fl_readable f) (fl_writable f) (fl_pipe f) (fl_ip f) v.

(** The file system with the file table, the pipes by address, the page
    allocator, and of the running process its open files and user memory. *)
Record sstate := SState {
  s_fs : fstate;
  s_ftheld : bool;                (* ftable.lock *)
  s_files : list file;            (* ftable.file *)
  s_pipes : gmap Z pipe;
  s_kmem : kstate;
  s_ofile : list (option nat);    (* myproc()->ofile *)
  s_mem : list Z;                 (* user memory, [myproc()->sz] bytes *)
  s_esp : Z                       (* myproc()->tf->esp *)
}.
Definition set_sfs v s := SState v (s_ftheld s) (s_files s) (s_pipes s) (s_kmem s) (s_ofile s) (s_mem s) (s_esp s).
Definition set_ftheld v s := SState (s_fs s) v (s_files s) (s_pipes s) (s_kmem s) (s_ofile s) (s_mem s) (s_esp s).
Definition set_files v s := SState (s_fs s) (s_ftheld s) v (s_pipes s) (s_kmem s) (s_ofile s) (s_mem s) (s_esp s).
Definition set_pipes v s := SState (s_fs s) (s_ftheld s) (s_files s) v (s_kmem s) (s_ofile s) (s_mem s) (s_esp s).
Definition set_skmem v s := SState (s_fs s) (s_ftheld s) (s_files s) (s_pipes s) v (s_ofile s) (s_mem s) (s_esp s).
Definition set_sofile v s := SState (s_fs s) (s_ftheld s) (s_files s) (s_pipes s) (s_kmem s) v (s_mem s) (s_esp s).
Definition set_smem v s := SState (s_fs s) (s_ftheld s) (s_files s) (s_pipes s) (s_kmem s) (s_ofile s) v (s_esp s).

Definition on_fs {A} : M fstate A → M sstate A := zoom s_fs set_sfs.
Definition on_kmem {A} : M kstate A → M sstate A := zoom s_kmem set_skmem.
(** Run pipe code on the pipe at address [a]. *)
Definition on_pipe {A} (a : Z) (m : M pipe A) : M sstate A :=
  s ← get;
  p ← deref (s_pipes s !! a);
  zoom (λ _, p) (λ p' s, set_pipes (<[a := p']> (s_pipes s)) s) m.
Definition begin_trans : M sstate unit := on_fs (on_log begin_op).
Definition end_trans : M sstate unit := on_fs (on_log end_op).

Definition file_get (f : nat) : M sstate file := s ← get; deref (s_files s !! f).
Definition file_upd (f : nat) (g : file → file) : M sstate unit :=
  x ← file_get f; modify (λ s, set_files (<[f := g x]> (s_files s)) s).
Definition ft_acquire : M sstate unit := lk_acquire s_ftheld set_ftheld.
Definition ft_release : M sstate unit := lk_release s_ftheld set_ftheld.

Definition fileinit : M sstate unit := modify (set_ftheld false).

Fixpoint file_scan (l : list file) (k : nat) : option nat :=
  match l with
  | [] => None
  | f :: l' => if bool_decide (fl_ref f = 0) then Some k else file_scan l' (S k)
  end.
Definition filealloc : M sstate (option nat) :=
  ft_acquire;;
  s ← get;
  match file_scan (s_files s) 0 with
  | Some f => file_upd f (set_fref 1);; ft_release;; mret (Some f)
  | None => ft_release;; mret None
  end.

Definition filedup (f : nat) : M sstate nat :=
  ft_acquire;;
  x ← file_get f;
  panic_if (bool_decide (fl_ref x < 1)) "filedup";;
  file_upd f (λ x, set_fref (fl_ref x + 1) x);;
  ft_release;;
  mret f.

Section image.
Context {KI : KernelImage}.

Definition pipeclose (a : Z) (writable : bool) : M sstate unit :=
  dead ← on_pipe a (pipeclose_body a writable);
  if (dead : bool) then on_kmem (kfree a);; modify (λ s, set_pipes (delete a (s_pipes s)) s) else mret tt.

Definition fileclose (f : nat) : M sstate unit :=
  ft_acquire;;
  x ← file_get f;
  panic_if (bool_decide (fl_ref x < 1)) "fileclose";;
  file_upd f (λ x, set_fref (fl_ref x - 1) x);;
  x ← file_get f;
  if bool_decide (0 < fl_ref x) then ft_release
  else
    let ff := x in
    file_upd f (set_fref 0);;
    file_upd f (set_ftype FD_NONE);;
    ft_release;;
    match fl_type ff with
    | FD_PIPE => pipeclose (fl_pipe ff) (fl_writable ff)
    | FD_INODE => begin_trans;; ip ← deref (fl_ip ff); on_fs (iput ip);; end_trans
    | FD_NONE => mret tt
    end.

Definition filestat (f : nat) : M sstate (option stat) :=
  x ← file_get f;
  match fl_type x with
  | FD_INODE =>
      on_fs (ilock (fl_ip x));;
      ip ← deref (fl_ip x);
      st ← on_fs (stati ip);
      on_fs (iunlock (Some ip));;
      mret (Some st)
  | _ => mret None
  end.

Definition piperead (a n : Z) : M sstate (Z * list Z) :=
  s ← get;
  r ← on_pipe a (piperead_body a (f_killed (s_fs s)) n);
  mret (match r with Some out => (Z.of_nat (length out), out) | None => (-1, []) end).
(** [pipewrite] of [n] bytes: a process that finds the pipe full sleeps. *)
Definition pipewrite (a : Z) (bytes : list Z) (n : Z) : M sstate Z :=
  s ← get;
  r ← on_pipe a (pipewrite_body a (f_killed (s_fs s)) (take (Z.to_nat n) bytes));
  match r with
  | PDone => mret n
  | PFail => mret (-1)
  | PAsleep _ => block (CPipeWrite a)
  end.

(** [fileread]: the result and the bytes stored. *)
Definition fileread (f : nat) (n : Z) : M sstate (Z * list Z) :=
  x ← file_get f;
  if negb (fl_readable x) then mret (-1, []) else
  match fl_type x with
  | FD_PIPE => piperead (fl_pipe x) n
  | FD_INODE =>
      on_fs (ilock (fl_ip x));;
      ip ← deref (fl_ip x);
      '(r, out) ← on_fs (readi ip (fl_off x) (u32 n));
      (if bool_decide (0 < r) then file_upd f (λ x, set_foff (u32 (fl_off x + r)) x) else mret tt);;
      on_fs (iunlock (Some ip));;
      mret (r, out)
  | FD_NONE => panic "fileread"
  end.

(** The loop of [filewrite]; the result is the final [i]. *)
Fixpoint filewrite_loop (fuel : nat) (f : nat) (bytes : list Z) (i n : Z) : M sstate Z :=
  match fuel with
  | O => undef
  | S fuel' =>
      if bool_decide (i < n) then
        let max := ((Z.of_nat MAXOPBLOCKS - 1 - 1 - 2) / 2) * 512 in
        let n1 := if bool_decide (max < n - i) then max else n - i in
        begin_trans;;
        x ← file_get f;
        on_fs (ilock (fl_ip x));;
        ip ← deref (fl_ip x);
        r ← on_fs (writei ip (drop (Z.to_nat i) bytes) (fl_off x) n1);
        (if bool_decide (0 < r) then file_upd f (λ x, set_foff (u32 (fl_off x + r)) x) else mret tt);;
        on_fs (iunlock (Some ip));;
        end_trans;;
        if bool_decide (r < 0) then mret i else
        panic_if (bool_decide (r ≠ n1)) "short filewrite";;
        filewrite_loop fuel' f bytes (i + r) n
      else mret i
  end.
Definition filewrite (f : nat) (bytes : list Z) (n : Z) : M sstate Z :=
  x ← file_get f;
  if negb (fl_writable x) then mret (-1) else
  match fl_type x with
  | FD_PIPE => pipewrite (fl_pipe x) bytes n
  | FD_INODE =>
      i ← filewrite_loop (Z.to_nat (n / 1536) + 2) f bytes 0 n;
      mret (if bool_decide (i = n) then n else -1)
  | FD_NONE => panic "filewrite"
  end.

(** The end of [pipealloc] after an allocation failed; [p] is null there. *)
Definition pipealloc_bad (f0 f1 : option nat) : M sstate (option (nat * nat)) :=
  match f0 with Some f0 => fileclose f0 | None => mret tt end;;
  match f1 with Some f1 => fileclose f1 | None => mret tt end;;
  mret None.
(** The two ends [*f0] (read) and [*f1] (write); [None] is the result -1. *)
Definition pipealloc : M sstate (option (nat * nat)) :=
  f0 ← filealloc;
  match f0 with
  | None => pipealloc_bad None None
  | Some f0 =>
      f1 ← filealloc;
      match f1 with
      | None => pipealloc_bad (Some f0) None
      | Some f1 =>
          p ← on_kmem kalloc;
          if bool_decide (p = 0) then pipealloc_bad (Some f0) (Some f1)
          else
            pg ← on_kmem (page_get p);
            modify (λ s, set_pipes (<[p := Pipe false (slice pg 0 512) 0 0 true true]> (s_pipes s)) s);;
            file_upd f0 (λ x, File FD_PIPE (fl_ref x) true false p (fl_ip x) (fl_off x));;
            file_upd f1 (λ x, File FD_PIPE (fl_ref x) false true p (fl_ip x) (fl_off x));;
            mret (Some (f0, f1))
      end
  end.
End image.

(** * A pipe is a bounded queue *)

(** The bytes [q] are in the pipe. *)
Record prep (p : pipe) (q : list Z) : Prop := PRep {
  pr_len : length (pp_data p) = 512%nat;
  pr_nread : 0 ≤ pp_nread p < 4294967296;
  pr_nwrite : pp_nwrite p = u32 (pp_nread p + Z.of_nat (length q));
  pr_fit : (length q ≤ 512)%nat;
  pr_bytes k c : q !! k = Some c → pp_data p !! Z.to_nat ((pp_nread p + Z.of_nat k) mod 512) = Some c
}.

Lemma u32_mod512 x : u32 x mod 512 = x mod 512.
Proof. unfold u32. apply (Z.mod_mod_divide x 4294967296 512). by exists 8388608. Qed.

Lemma u32_plus_inj x a b : 0 ≤ a ≤ 512 → 0 ≤ b ≤ 512 → u32 (x + a) = u32 (x + b) → a = b.
Proof. intros Ha Hb. unfold u32. Z.div_mod_to_equations. lia. Qed.

Lemma mod512_ne (r j k : Z) : 0 ≤ j < 512 → 0 ≤ k < 512 → j ≠ k → (r + j) mod 512 ≠ (r + k) mod 512.
Proof. intros. Z.div_mod_to_equations. lia. Qed.

Lemma pipe_full p q : prep p q → pp_nwrite p = u32 (pp_nread p + PIPESIZE) ↔ length q = 512%nat.
Proof.
  intros [H2 H3 H4 H5 H6]. rewrite H4. unfold PIPESIZE. split; [|by intros ->].
  intros E%u32_plus_inj; lia.
Qed.
Lemma pipe_empty p q : prep p q → pp_nread p = pp_nwrite p ↔ q = [].
Proof.
  intros [H2 H3 H4 H5 H6]. rewrite H4. split.
  - intros E. assert (u32 (pp_nread p + 0) = u32 (pp_nread p + Z.of_nat (length q))) as E'.
    { by rewrite Z.add_0_r, u32_small. } apply u32_plus_inj in E'; [|lia..]. destruct q; [done|simpl in E'; lia].
  - intros ->. simpl. by rewrite Z.add_0_r, u32_small.
Qed.

Lemma prep_held p q b : prep p q → prep (set_ppheld b p) q.
Proof. intros []. by split. Qed.

Lemma pipe_byte_run p i : length (pp_data p) = 512%nat → ∃ c, pipe_byte i p = Ret c p [] ∧ pp_data p !! Z.to_nat (i mod 512) = Some c.
Proof.
  intros Hl. pose proof (Z.mod_pos_bound i 512).
  destruct (lookup_lt_is_Some_2 (pp_data p) (Z.to_nat (i mod 512))) as [c Hc]; [lia|]. exists c.
  unfold pipe_byte. rewrite bind_get. unfold PIPESIZE. by rewrite Hc.
Qed.

Lemma prep_push p q c :
  prep p q → (length q < 512)%nat → byte c →
  prep (set_nwrite (u32 (pp_nwrite p + 1)) (set_ppdata (<[Z.to_nat (pp_nwrite p mod PIPESIZE) := u8 c]> (pp_data p)) p)) (q ++ [c]).
Proof.
  intros [H2 H3 H4 H5 H6] Hlt Hb. rewrite u8_small by done. unfold PIPESIZE. rewrite H4, u32_mod512.
  split; simpl; try done.
  - by rewrite length_insert.
  - rewrite length_app. unfold u32. rewrite Zplus_mod_idemp_l. f_equal. simpl. lia.
  - rewrite length_app. simpl. lia.
  - intros k x Hk. pose proof (lookup_lt_Some _ _ _ Hk) as Hkl. rewrite length_app in Hkl. simpl in Hkl.
    pose proof (Z.mod_pos_bound (pp_nread p + Z.of_nat (length q)) 512).
    pose proof (Z.mod_pos_bound (pp_nread p + Z.of_nat k) 512).
    destruct (decide (k = length q)) as [->|Hne].
    + rewrite lookup_app_r, Nat.sub_diag in Hk by lia. injection Hk as <-. apply list_lookup_insert_eq. lia.
    + rewrite lookup_app_l in Hk by lia. rewrite list_lookup_insert_ne; [by apply H6|].
      pose proof (mod512_ne (pp_nread p) (Z.of_nat (length q)) (Z.of_nat k)). lia.
Qed.

Lemma prep_pop p q c : prep p (c :: q) → prep (set_nread (u32 (pp_nread p + 1)) p) q.
Proof.
  intros [H2 H3 H4 H5 H6]. cbn [length] in *. split; simpl; try done.
  - apply u32_range.
  - rewrite H4. unfold u32. rewrite Zplus_mod_idemp_l. f_equal. lia.
  - lia.
  - intros k x Hk. rewrite <- (H6 (S k) x Hk). rewrite <- u32_mod512. unfold u32 at 1 2. rewrite Zplus_mod_idemp_l.
    fold (u32 (pp_nread p + 1 + Z.of_nat k)). rewrite u32_mod512. f_equal. f_equal. f_equal. lia.
Qed.

(** [pipewrite] stores as much as fits. *)
Lemma pipewrite_loop_run a killed bytes : ∀ p q,
  prep p q → Forall byte bytes →
  let room := (512 - length q)%nat in
  ∃ p' t, pipewrite_loop a killed bytes p =
      Ret (if bool_decide (length bytes ≤ room)%nat then PDone
           else if negb (pp_readopen p) || killed then PFail else PAsleep (drop room bytes)) p' t ∧
    prep p' (q ++ take room bytes) ∧ pp_readopen p' = pp_readopen p ∧ pp_writeopen p' = pp_writeopen p ∧
    pp_held p' = pp_held p ∧ pp_nread p' = pp_nread p.
Proof.
  induction bytes as [|c bytes IH]; intros p q Hp Hb room; cbn [pipewrite_loop].
  - exists p, []. rewrite bool_decide_true by (simpl; lia). rewrite take_nil, app_nil_r. eauto 10.
  - apply Forall_cons in Hb as [Hc Hb]. rewrite bind_get. destruct (decide (length q = 512%nat)) as [Hq|Hq].
    + rewrite bool_decide_true by (by apply (pipe_full p q)).
      assert (room = 0%nat) as Hr by (unfold room; lia). rewrite Hr, (bool_decide_false (length (c :: bytes) ≤ 0)%nat) by (simpl; lia).
      rewrite take_0, drop_0, app_nil_r. destruct (negb (pp_readopen p) || killed).
      * exists p, []. eauto 10.
      * exists p, [EvWakeup (Some (CPipeRead a))]. eauto 10.
    + pose proof (pr_fit _ _ Hp). rewrite bool_decide_false by (by rewrite (pipe_full p q)).
      destruct (pipe_byte_run p (pp_nwrite p) (pr_len _ _ Hp)) as (old & R & _). mstep R. rewrite !bind_modify.
      destruct (IH _ (q ++ [c]) (prep_push p q c Hp ltac:(lia) Hc) Hb) as (p' & t & R' & Hp' & Ho & Hw & Hh & Hn).
      rewrite length_app in *. cbn [length] in *.
      assert (room = S (512 - (length q + 1))) as Hr by (unfold room; lia).
      exists p', t. rewrite Hr. cbn [take drop]. split_and!; try done.
      * etransitivity; [exact R'|]. cbn [set_nwrite set_ppdata pp_readopen].
        rewrite (bool_decide_ext (S (length bytes) ≤ S (512 - (length q + 1)))%nat (length bytes ≤ 512 - (length q + 1))%nat) by lia. done.
      * by rewrite <- (assoc_L (++)) in Hp'.
Qed.

(** [piperead] takes what there is, up to [n] bytes. *)
Lemma piperead_loop_run n : ∀ p q out,
  prep p q →
  ∃ p', piperead_loop n out p = Ret (out ++ take n q) p' [] ∧ prep p' (drop n q) ∧
    pp_readopen p' = pp_readopen p ∧ pp_writeopen p' = pp_writeopen p ∧ pp_held p' = pp_held p ∧ pp_nwrite p' = pp_nwrite p.
Proof.
  induction n as [|n IH]; intros p q out Hp; cbn [piperead_loop].
  - exists p. by rewrite take_0, drop_0, app_nil_r.
  - rewrite bind_get. destruct q as [|c q].
    + rewrite bool_decide_true by (by apply (pipe_empty p [])). exists p. by rewrite take_nil, drop_nil, app_nil_r.
    + rewrite bool_decide_false by (by rewrite (pipe_empty p (c :: q))).
      destruct (pipe_byte_run p (pp_nread p) (pr_len _ _ Hp)) as (x & R & Hx). mstep R. rewrite bind_modify.
      assert (x = c) as ->. { pose proof (pr_bytes _ _ Hp O c eq_refl) as E. rewrite Z.add_0_r in E. congruence. }
      destruct (IH _ q (out ++ [c]) (prep_pop p q c Hp)) as (p' & R' & Hp' & Ho & Hw & Hh & Hn).
      exists p'. rewrite R', <- (assoc_L (++)). done.
Qed.

Lemma pipewrite_run a killed bytes p q :
  prep p q → pp_held p = false → Forall byte bytes →
  let room := (512 - length q)%nat in
  ∃ p' t, pipewrite_body a killed bytes p =
      Ret (if bool_decide (length bytes ≤ room)%nat then PDone
           else if negb (pp_readopen p) || killed then PFail else PAsleep (drop room bytes)) p' t ∧
    prep p' (q ++ take room bytes) ∧ pp_held p' = false ∧
    pp_readopen p' = pp_readopen p ∧ pp_writeopen p' = pp_writeopen p ∧ pp_nread p' = pp_nread p.
Proof.
  intros Hp Hh Hb room.
  destruct (pipewrite_loop_run a killed bytes (set_ppheld true p) q (prep_held p q true Hp) Hb)
    as (p1 & t1 & R & Hp1 & Ho & Hw & Hh1 & Hn).
  set (r := if bool_decide (length bytes ≤ room)%nat then PDone else _) in *.
  assert (∀ f : unit → M pipe pwrite, (lk_release pp_held set_ppheld ≫= f) p1 = f tt (set_ppheld false p1)) as Hrel.
  { intros f. by rewrite (bind_run _ _ _ _ _ _ (lk_release_run pp_held set_ppheld p1 Hh1)), prepend_nil. }
  exists (set_ppheld false p1), (t1 ++ match r with PDone => [EvWakeup (Some (CPipeRead a))] | _ => [] end).
  split_and!; try done; [|by apply prep_held].
  unfold pipewrite_body. mstep (lk_acquire_run pp_held set_ppheld p Hh). rewrite (bind_run _ _ _ _ _ _ R).
  cbn [pp_readopen set_ppheld]. fold room. fold r.
  destruct r; [|by rewrite Hrel..].
  rewrite (bind_run _ _ p1 tt p1 [EvWakeup (Some (CPipeRead a))] eq_refl), Hrel. done.
Qed.

Lemma piperead_run a killed n p q :
  prep p q → pp_held p = false →
  ∃ p' t, piperead_body a killed n p =
      (if bool_decide (q = []) && pp_writeopen p
       then if killed then Ret None p' t else Blocked (CPipeRead a) p' t
       else Ret (Some (take (Z.to_nat n) q)) p' t) ∧
    prep p' (if bool_decide (q = []) && pp_writeopen p then q else drop (Z.to_nat n) q) ∧ pp_held p' = false ∧
    pp_readopen p' = pp_readopen p ∧ pp_writeopen p' = pp_writeopen p ∧ pp_nwrite p' = pp_nwrite p.
Proof.
  intros Hp Hh. unfold piperead_body. mstep (lk_acquire_run pp_held set_ppheld p Hh). rewrite bind_get.
  assert (∀ p1 A (f : unit → M pipe A), pp_held p1 = true → (lk_release pp_held set_ppheld ≫= f) p1 = f tt (set_ppheld false p1)) as Hrel.
  { intros p1 A f H1. by rewrite (bind_run _ _ _ _ _ _ (lk_release_run pp_held set_ppheld p1 H1)), prepend_nil. }
  cbn [pp_nread pp_nwrite pp_writeopen set_ppheld].
  rewrite (bool_decide_ext _ (q = []) (pipe_empty p q Hp)).
  destruct (bool_decide (q = []) && pp_writeopen p).
  - exists (set_ppheld false p), []. split_and!; try done; [|by apply prep_held].
    destruct killed; rewrite Hrel by done; destruct p; simpl in *; by rewrite Hh.
  - destruct (piperead_loop_run (Z.to_nat n) (set_ppheld true p) q [] (prep_held p q true Hp)) as (p1 & R & Hp1 & Ho & Hw & Hh1 & Hn).
    mstep R. exists (set_ppheld false p1), [EvWakeup (Some (CPipeWrite a))]. split_and!; try done; [|by apply prep_held].
    rewrite (bind_run _ _ p1 tt p1 [EvWakeup (Some (CPipeWrite a))] eq_refl), Hrel by done. done.
Qed.

(** ** The life of a pipe *)

(** The pipe with all bytes its writers stored and all bytes its readers
    took, by runs of [pipewrite], [piperead] and [pipeclose] in any order. *)
Record pipe_run := PipeRun { pn_pipe : pipe; pn_written : list Z; pn_read : list Z }.

(** The bytes of a write that were stored: as many as [nwrite] advanced. *)
Definition stored (p p' : pipe) (bytes : list Z) : list Z :=
  take (Z.to_nat (u32 (pp_nwrite p' - pp_nwrite p))) bytes.

Inductive pipe_step (a : Z) : pipe_run → pipe_run → Prop :=
| pn_write p p' W R killed bytes r t :
    Forall byte bytes → pipewrite_body a killed bytes p = Ret r p' t →
    pipe_step a (PipeRun p W R) (PipeRun p' (W ++ stored p p' bytes) R)
| pn_reads p p' W R killed n out t :
    piperead_body a killed n p = Ret (Some out) p' t →
    pipe_step a (PipeRun p W R) (PipeRun p' W (R ++ out))
| pn_killed p p' W R killed n t :
    piperead_body a killed n p = Ret None p' t → pipe_step a (PipeRun p W R) (PipeRun p' W R)
| pn_waits p p' W R killed n c t :
    piperead_body a killed n p = Blocked c p' t → pipe_step a (PipeRun p W R) (PipeRun p' W R)
| pn_close p p' W R writable dead t :
    pipeclose_body a writable p = Ret dead p' t → pipe_step a (PipeRun p W R) (PipeRun p' W R).

(** From the pipe that [pipealloc] makes in a page. *)
Inductive pipe_reach (a : Z) : pipe_run → Prop :=
| pn_new data : length data = 512%nat → pipe_reach a (PipeRun (Pipe false data 0 0 true true) [] [])
| pn_next x y : pipe_reach a x → pipe_step a x y → pipe_reach a y.

Lemma stored_take p p' q bytes :
  prep p q → prep p' (q ++ take (512 - length q) bytes) → pp_nread p' = pp_nread p →
  stored p p' bytes = take (512 - length q) bytes.
Proof.
  intros Hp Hp' Hn. unfold stored. pose proof (pr_fit _ _ Hp).
  rewrite (pr_nwrite _ _ Hp'), (pr_nwrite _ _ Hp), Hn, length_app, length_take.
  replace (u32 _) with (Z.of_nat (Nat.min (512 - length q) (length bytes))).
  2: { unfold u32. rewrite <- Zminus_mod, Z.mod_small; lia. }
  rewrite Nat2Z.id. destruct (decide (512 - length q ≤ length bytes)%nat); [by rewrite Nat.min_l|].
  rewrite Nat.min_r by lia. by rewrite !take_ge by lia.
Qed.

Lemma pipe_step_inv a x y q :
  pipe_step a x y → prep (pn_pipe x) q → pp_held (pn_pipe x) = false → pn_written x = pn_read x ++ q →
  ∃ q', prep (pn_pipe y) q' ∧ pp_held (pn_pipe y) = false ∧ pn_written y = pn_read y ++ q'.
Proof.
  intros Hs Hp Hh HW.
  destruct Hs as [p p' W R killed bytes r t Hb Hr|p p' W R killed n out t Hr|p p' W R killed n t Hr|p p' W R killed n c t Hr|p p' W R w d t Hr];
    simpl in *.
  - destruct (pipewrite_run a killed bytes p q Hp Hh Hb) as (p1 & t1 & R1 & Hp1 & Hh1 & _ & _ & Hn).
    rewrite R1 in Hr. injection Hr as _ <- <-. eexists. split_and!; [done|done|].
    rewrite HW, <- (assoc_L (++)). f_equal.
    by rewrite (stored_take p p1 q bytes).
  - destruct (piperead_run a killed n p q Hp Hh) as (p1 & t1 & R1 & Hp1 & Hh1 & _).
    rewrite R1 in Hr. destruct (bool_decide (q = []) && pp_writeopen p); [by destruct killed|].
    injection Hr as <- <- <-. eexists. split_and!; [done|done|]. by rewrite HW, <- (assoc_L (++)), take_drop.
  - destruct (piperead_run a killed n p q Hp Hh) as (p1 & t1 & R1 & Hp1 & Hh1 & _).
    rewrite R1 in Hr. destruct (bool_decide (q = []) && pp_writeopen p); [|done].
    destruct killed; [|done]. injection Hr as <- <-. by exists q.
  - destruct (piperead_run a killed n p q Hp Hh) as (p1 & t1 & R1 & Hp1 & Hh1 & _).
    rewrite R1 in Hr. destruct (bool_decide (q = []) && pp_writeopen p); [|done].
    destruct killed; [done|]. injection Hr as <- <- <-. by exists q.
  - exists q. unfold pipeclose_body in Hr. rewrite (bind_run _ _ _ _ _ _ (lk_acquire_run pp_held set_ppheld p Hh)), prepend_nil in Hr.
    destruct Hp. destruct w; cbn in Hr; injection Hr as _ <- _; by split.
Qed.

(** C12: A pipe is a bounded first-in-first-out byte stream.  For every
    sequence of writes, reads and closes by any processes: the bytes read so
    far followed by at most 512 bytes still in the pipe are exactly the bytes
    written so far; a write stores its bytes up to the free space and then is
    complete, waits (with the readers woken), or fails because the read end is
    closed or the writer was killed; a read returns the next bytes, and waits
    only when the pipe is empty and the write end is open, giving end of file
    (no bytes) once it is closed.  The 32-bit counters may wrap. *)
Theorem pipe_fifo (a : Z) (x : pipe_run) :
  pipe_reach a x →
  ∃ q, pn_written x = pn_read x ++ q ∧ (length q ≤ 512)%nat ∧
    (∀ killed bytes, Forall byte bytes →
       let room := (512 - length q)%nat in
       ∃ p' t, pipewrite_body a killed bytes (pn_pipe x) =
         Ret (if bool_decide (length bytes ≤ room)%nat then PDone
              else if negb (pp_readopen (pn_pipe x)) || killed then PFail else PAsleep (drop room bytes)) p' t ∧
         stored (pn_pipe x) p' bytes = take room bytes) ∧
    (∀ killed n, ∃ p' t, piperead_body a killed n (pn_pipe x) =
       if bool_decide (q = []) && pp_writeopen (pn_pipe x)
       then if killed then Ret None p' t else Blocked (CPipeRead a) p' t
       else Ret (Some (take (Z.to_nat n) q)) p' t).
Proof.
  intros Hx. assert (∃ q, prep (pn_pipe x) q ∧ pp_held (pn_pipe x) = false ∧ pn_written x = pn_read x ++ q) as (q & Hp & Hh & HW).
  { induction Hx as [data Hd|x y Hx (q & Hp & Hh & HW) Hs]; [|by eapply pipe_step_inv].
    exists []. split_and!; [|done..]. split; simpl; (done || lia). }
  exists q. split_and!; [done|by apply (pr_fit _ _ Hp)| |].
  - intros killed bytes Hb room. destruct (pipewrite_run a killed bytes (pn_pipe x) q Hp Hh Hb) as (p' & t & R & Hp' & _ & _ & _ & Hn).
    exists p', t. split; [done|]. by apply stored_take.
  - intros killed n. destruct (piperead_run a killed n (pn_pipe x) q Hp Hh) as (p' & t & R & _). eauto.
Qed.

(** A new pipe, then a write of three bytes. *)
Lemma pipe_fifo_witness :
  let p0 := Pipe false (replicate 512 0) 0 0 true true in
  ∃ p1 t, pipewrite_body 4096 false [1; 2; 3] p0 = Ret PDone p1 t ∧ stored p0 p1 [1; 2; 3] = [1; 2; 3].
Proof.
  assert (pipe_reach 4096 (PipeRun (Pipe false (replicate 512 0) 0 0 true true) [] [])) as Hr
    by (apply pn_new, length_replicate).
  destruct (pipe_fifo 4096 _ Hr) as (q & HW & _ & Hw & _). simpl in HW. subst q.
  assert (Forall byte [1; 2; 3]) as Hb by (repeat constructor; unfold byte; lia).
  destruct (Hw false [1; 2; 3] Hb) as (p1 & t & R & S). exists p1, t. by split.
Defined.
