(* ===== verification/Args.v ===== *)
(** The arguments of a system call (src/syscall.c): words and strings fetched
    from the user stack of the running process.

    [UserMem S] is what this code needs of a state: the memory below
    [myproc()->sz] and the saved stack pointer.  A read outside that memory
    has no meaning ([Undef]); the theorem shows that no read is. *)
From S2P Require Import Prelude Layout Bytes Spinlock.

Class UserMem (S : Type) : Type := {
  um_mem : S → list Z;            (* the bytes 0 .. myproc()->sz - 1 *)
  um_esp : S → Z                  (* myproc()->tf->esp *)
}.

(** A user memory of its own, with the stack pointer. *)
Record ustate := UState { u_mem : list Z; u_esp : Z }.
#[export] Instance ustate_mem : UserMem ustate := {| um_mem := u_mem; um_esp := u_esp |}.

(** [*(int* )addr], read as unsigned. *)
Definition load32 (mem : list Z) (addr : Z) : option Z :=
  if bool_decide (0 ≤ addr ∧ addr + 4 ≤ Z.of_nat (length mem)) then Some (of_le (slice mem (Z.to_nat addr) 4)) else None.

Section args.
Context {S : Type} {UM : UserMem S}.

Definition user_sz : M S Z := s ← get; mret (Z.of_nat (length (um_mem s))).

(** [fetchint(addr, &i)]: the value of [i], or [None] for the result -1. *)
Definition fetchint (addr : Z) : M S (option Z) :=
  sz ← user_sz;
  if bool_decide (sz ≤ addr) || bool_decide (sz < u32 (addr + 4)) then mret None
  else
    s ← get;
    w ← deref (load32 (um_mem s) addr);
    mret (Some (i32 w)).

(** [for(s = *pp; s < ep; s++) if( *s == 0) return s - *pp;] with [n] bytes
    left. *)
Fixpoint fetchstr_loop (mem : list Z) (s : Z) (k : Z) (n : nat) : M S (option Z) :=
  match n with
  | O => mret None
  | Datatypes.S n' =>
      c ← deref (mem !! Z.to_nat s);
      if bool_decide (c = 0) then mret (Some k) else fetchstr_loop mem (s + 1) (k + 1) n'
  end.
(** [fetchstr(addr, &p)]: the length of the string at [p = addr]. *)
Definition fetchstr (addr : Z) : M S (option Z) :=
  sz ← user_sz;
  if bool_decide (sz ≤ addr) then mret None
  else s ← get; fetchstr_loop (um_mem s) addr 0 (Z.to_nat (sz - addr)).

Definition argint (n : Z) : M S (option Z) :=
  s ← get; fetchint (u32 (um_esp s + 4 + 4 * n)).

(** [argptr(n, &p, size)]: the address [p]. *)
Definition argptr (n size : Z) : M S (option Z) :=
  o ← argint n;
  match o with
  | None => mret None
  | Some i =>
      sz ← user_sz;
      if bool_decide (size < 0) || bool_decide (sz ≤ u32 i) || bool_decide (sz < u32 (u32 i + size)) then mret None
      else mret (Some (u32 i))
  end.

(** [argstr(n, &p)]: the address [p]. *)
Definition argstr (n : Z) : M S (option Z) :=
  o ← argint n;
  match o with
  | None => mret None
  | Some addr =>
      r ← fetchstr (u32 addr);
      match r with None => mret None | Some _ => mret (Some (u32 addr)) end
  end.

(** The characters of the string at an address that [argstr] gave. *)
Definition user_str (addr : Z) : M S (list Z) := s ← get; mret (cstr (drop (Z.to_nat addr) (um_mem s))).

End args.

(** * What the checks guarantee *)

Section args_spec.
Context {S : Type} {UM : UserMem S}.
Implicit Types s : S.

(** The [n]-th argument word, when it lies in the process's memory. *)
Definition arg_word s (n : Z) : option Z := load32 (um_mem s) (u32 (um_esp s + 4 + 4 * n)).
(** An address space that [growproc] and [exec] can give. *)
Definition user_space s : Prop := Z.of_nat (length (um_mem s)) ≤ KERNBASE.

Lemma user_sz_run s : user_sz s = Ret (Z.of_nat (length (um_mem s))) s [].
Proof. done. Qed.

Lemma fetchint_run s addr :
  0 ≤ addr < 4294967296 → user_space s → fetchint addr s = Ret (i32 <$> load32 (um_mem s) addr) s [].
Proof.
  unfold user_space, KERNBASE. intros Ha Hs. unfold fetchint. mstep (user_sz_run s).
  destruct (decide (addr + 4 ≤ Z.of_nat (length (um_mem s)))) as [H|H].
  - rewrite (u32_small (addr + 4)) by lia. rewrite !bool_decide_false by lia. cbn [orb]. rewrite bind_get. unfold load32.
    by rewrite bool_decide_true by lia.
  - unfold load32. rewrite (bool_decide_false (0 ≤ addr ∧ _)) by lia. destruct (decide (Z.of_nat (length (um_mem s)) ≤ addr)).
    + by rewrite bool_decide_true.
    + rewrite u32_small by lia. by rewrite bool_decide_false, bool_decide_true by lia.
Qed.

Lemma fetchstr_loop_run s mem a k n :
  0 ≤ a → Z.of_nat (length mem) = a + Z.of_nat n →
  fetchstr_loop mem a k n s =
    Ret (if bool_decide (0 ∈ drop (Z.to_nat a) mem) then Some (k + Z.of_nat (length (cstr (drop (Z.to_nat a) mem)))) else None) s [].
Proof.
  revert a k. induction n as [|n IH]; intros a k Ha Hl.
  - rewrite drop_ge by lia. by rewrite bool_decide_false by apply not_elem_of_nil.
  - destruct (lookup_lt_is_Some_2 mem (Z.to_nat a)) as [c Hc]; [lia|]. cbn [fetchstr_loop]. rewrite Hc. cbn [deref]. rewrite bind_mret.
    rewrite (drop_S mem c _ Hc). cbn [cstr]. destruct (decide (c = 0)) as [->|Hne].
    + rewrite !bool_decide_true by (done || by constructor). simpl. by rewrite Z.add_0_r.
    + rewrite (bool_decide_false (c = 0)) by done. rewrite IH by lia. replace (Z.to_nat (a + 1)) with (Datatypes.S (Z.to_nat a)) by lia.
      set (l := drop _ mem). destruct (decide (0 ∈ l)).
      * rewrite !bool_decide_true by (done || by constructor). do 2 f_equal. simpl. lia.
      * rewrite !bool_decide_false; [done| |done]. intros [?|?]%elem_of_cons; congruence.
Qed.

Lemma fetchstr_run s addr :
  0 ≤ addr → fetchstr addr s =
    Ret (if bool_decide (0 ∈ drop (Z.to_nat addr) (um_mem s)) then Some (Z.of_nat (length (cstr (drop (Z.to_nat addr) (um_mem s))))) else None) s [].
Proof.
  intros Ha. unfold fetchstr. mstep (user_sz_run s). case_bool_decide as H.
  - rewrite drop_ge by lia. by rewrite bool_decide_false by apply not_elem_of_nil.
  - rewrite bind_get. by rewrite fetchstr_loop_run by lia.
Qed.

Lemma argint_run s n : user_space s → argint n s = Ret (i32 <$> arg_word s n) s [].
Proof. intros Hs. unfold argint. rewrite bind_get. apply fetchint_run; [apply u32_range|done]. Qed.

Lemma arg_word_range s n w : Forall byte (um_mem s) → arg_word s n = Some w → 0 ≤ w < 4294967296.
Proof.
  intros Hb. unfold arg_word, load32. case_bool_decide as H; [|done]. intros [= <-].
  pose proof (of_le_range _ (Forall_slice byte (um_mem s) (Z.to_nat (u32 (um_esp s + 4 + 4 * n))) 4 Hb)) as Hr.
  rewrite length_slice in Hr by lia. done.
Qed.

(** C22: The kernel reads no memory that is not the process's, whatever stack
    pointer and arguments user code passes, and the checks refuse nothing
    else.  [argint] returns the word where the calling convention puts the
    [n]-th argument exactly when its four bytes lie below [sz]; [argptr] with a
    size returns the pointer exactly when the whole block lies below [sz];
    [argstr] exactly when a NUL ends the string below [sz].  No 32-bit sum in
    the checks wraps around for an address space that ends below
    [KERNBASE]. *)
Theorem args_checked s n size :
  user_space s → Forall byte (um_mem s) → -2147483648 ≤ size < 2147483648 →
  let sz := Z.of_nat (length (um_mem s)) in
  argint n s = Ret (i32 <$> arg_word s n) s [] ∧
  argptr n size s = Ret (w ← arg_word s n; if bool_decide (0 ≤ size ∧ w < sz ∧ w + size ≤ sz) then Some w else None) s [] ∧
  argstr n s = Ret (w ← arg_word s n; if bool_decide (0 ∈ drop (Z.to_nat w) (um_mem s)) then Some w else None) s [].
Proof.
  intros Hs Hb Hsz sz. pose proof (argint_run s n Hs) as Hi. split; [done|]. unfold argptr, argstr.
  rewrite !(bind_run _ _ _ _ _ _ Hi), !prepend_nil. unfold user_space, KERNBASE in Hs. fold sz in Hs.
  destruct (arg_word s n) as [w|] eqn:Hw; simpl; [|done]. pose proof (arg_word_range s n w Hb Hw) as Hwr.
  rewrite u32_i32, u32_small by done. split.
  - mstep (user_sz_run s). fold sz. destruct (decide (0 ≤ size ∧ w < sz ∧ w + size ≤ sz)) as [H|H].
    + rewrite (u32_small (w + size)) by lia. rewrite (bool_decide_true (_ ∧ _)) by done. by rewrite !bool_decide_false by lia.
    + rewrite (bool_decide_false (_ ∧ _)) by done. destruct (decide (size < 0)); [by rewrite bool_decide_true|].
      destruct (decide (sz ≤ w)); [by rewrite (bool_decide_true (sz ≤ w)), orb_true_r|].
      rewrite (u32_small (w + size)) by lia. by rewrite (bool_decide_true (sz < w + size)), !orb_true_r by lia.
  - rewrite (bind_run _ _ _ _ _ _ (fetchstr_run s w ltac:(lia))), prepend_nil. by case_bool_decide.
Qed.
End args_spec.

(** A stack with a return address and the arguments 8 and 12, and "hi" at 8. *)
Lemma args_checked_witness :
  let s := UState ([1; 2; 3; 4; 8; 0; 0; 0] ++ [104; 105; 0; 0] ++ [12; 0; 0; 0]) 0 in
  argptr 0 8 s = Ret (Some 8) s [] ∧ argptr 0 9 s = Ret None s [] ∧ argstr 0 s = Ret (Some 8) s [].
Proof.
  intros s. assert (user_space s) as Hs by (by vm_compute). assert (Forall byte (um_mem s)) as Hb by (repeat constructor; unfold byte; lia).
  destruct (args_checked s 0 8 Hs Hb ltac:(lia)) as (_ & E1 & E2). destruct (args_checked s 0 9 Hs Hb ltac:(lia)) as (_ & E3 & _).
  split_and!; [by rewrite E1|by rewrite E3|by rewrite E2].
Defined.
