(* ===== verification/Sysfile.v ===== *)
(** The file-system system calls (src/sysfile.c, without [sys_exec], which is
    in Exec.v).

    The state is that of File.v: of the running process it has the open
    files, the memory, the saved stack pointer and the working directory.  A
    user pointer is an address in that memory; a string is passed on as its
    characters. *)
From S2P Require Import Prelude Layout Bytes Spinlock Sleeplock CString Kalloc Bio Log Console Fs File Args.

#[export] Instance sstate_mem : UserMem sstate := {| um_mem := s_mem; um_esp := s_esp |}.

Definition flag (omode b : Z) : bool := bool_decide (Z.land omode b ≠ 0).

(** ** Descriptors *)

(** [argfd(n, &fd, &f)]: the descriptor and the file. *)
Definition argfd (n : Z) : M sstate (option (Z * nat)) :=
  o ← argint n;
  match o with
  | None => mret None
  | Some fd =>
      if bool_decide (fd < 0) || bool_decide (Z.of_nat NOFILE ≤ fd) then mret None
      else
        s ← get;
        f ← deref (s_ofile s !! Z.to_nat fd);
        mret (match f with None => None | Some f => Some (fd, f) end)
  end.

Fixpoint ofile_scan (l : list (option nat)) (fd : nat) : option nat :=
  match l with
  | [] => None
  | None :: _ => Some fd
  | Some _ :: l' => ofile_scan l' (S fd)
  end.
Definition ofile_set (fd : nat) (v : option nat) : M sstate unit := modify (λ s, set_sofile (<[fd := v]> (s_ofile s)) s).
Definition fdalloc (f : nat) : M sstate Z :=
  s ← get;
  match ofile_scan (s_ofile s) 0 with
  | Some fd => ofile_set fd (Some f);; mret (Z.of_nat fd)
  | None => mret (-1)
  end.

(** The bytes a call stores in user memory. *)
Definition user_store (p : Z) (bytes : list Z) : M sstate unit := modify (λ s, set_smem (splice (s_mem s) (Z.to_nat p) bytes) s).

Section image.
Context {KI : KernelImage}.

Definition sys_dup : M sstate Z :=
  o ← argfd 0;
  match o with
  | None => mret (-1)
  | Some (_, f) =>
      fd ← fdalloc f;
      if bool_decide (fd < 0) then mret (-1) else filedup f;; mret fd
  end.

(** The arguments of [sys_read] and [sys_write]: file, pointer and count. *)
Definition rw_args : M sstate (option (nat * Z * Z)) :=
  o ← argfd 0;
  match o with
  | None => mret None
  | Some (_, f) =>
      n ← argint 2;
      match n with
      | None => mret None
      | Some n =>
          p ← argptr 1 n;
          mret (match p with None => None | Some p => Some (f, p, n) end)
      end
  end.
Definition sys_read : M sstate Z :=
  o ← rw_args;
  match o with
  | None => mret (-1)
  | Some (f, p, n) => '(r, out) ← fileread f n; user_store p out;; mret r
  end.
Definition sys_write : M sstate Z :=
  o ← rw_args;
  match o with
  | None => mret (-1)
  | Some (f, p, n) => s ← get; filewrite f (slice (s_mem s) (Z.to_nat p) (Z.to_nat n)) n
  end.

Definition sys_close : M sstate Z :=
  o ← argfd 0;
  match o with
  | None => mret (-1)
  | Some (fd, f) => ofile_set (Z.to_nat fd) None;; fileclose f;; mret 0
  end.

(** [struct stat] in memory: [short type; int dev; uint ino; short nlink;
    uint size], with its two paddings of two bytes. *)
Definition stat_bytes (st : stat) (old : list Z) : list Z :=
  le16 (st_type st) ++ slice old 2 2 ++ le32 (st_dev st) ++ le32 (st_ino st) ++ le16 (st_nlink st) ++ slice old 14 2 ++ le32 (st_size st).
Definition sizeof_stat : Z := 20.
Definition sys_fstat : M sstate Z :=
  o ← argfd 0;
  match o with
  | None => mret (-1)
  | Some (_, f) =>
      p ← argptr 1 sizeof_stat;
      match p with
      | None => mret (-1)
      | Some p =>
          r ← filestat f;
          match r with
          | None => mret (-1)
          | Some st => s ← get; user_store p (stat_bytes st (slice (s_mem s) (Z.to_nat p) 20));; mret 0
          end
      end
  end.

(** ** Names *)

(** The array [name] of these functions is not initialised; [nameiparent]
    fills it before it is read. *)
Definition name_array : list Z := replicate DIRSIZ 0.

(** The label [bad] of [sys_link]. *)
Definition link_bad (ip : nat) : M fstate Z :=
  ilock (Some ip);;
  iupd ip (λ i, set_inlink (i16 (i_nlink i - 1)) i);;
  iupdate ip;;
  iunlockput ip;;
  on_log end_op;;
  mret (-1).
(** [sys_link] after its arguments. *)
Definition link (old new : list Z) : M fstate Z :=
  on_log begin_op;;
  o ← namei old;
  match o with
  | None => on_log end_op;; mret (-1)
  | Some ip =>
      ilock (Some ip);;
      i ← iget_ip ip;
      if bool_decide (i_type i = T_DIR) then iunlockput ip;; on_log end_op;; mret (-1)
      else
        iupd ip (λ i, set_inlink (i16 (i_nlink i + 1)) i);;
        iupdate ip;;
        iunlock (Some ip);;
        '(o, name) ← nameiparent new name_array;
        match o with
        | None => link_bad ip
        | Some dp =>
            ilock (Some dp);;
            d ← iget_ip dp;
            i ← iget_ip ip;
            bad ← (if bool_decide (i_dev d ≠ i_dev i) then mret true
                   else r ← dirlink dp name (i_inum i); mret (bool_decide (r < 0)));
            if (bad : bool) then iunlockput dp;; link_bad ip
            else iunlockput dp;; iput ip;; on_log end_op;; mret 0
        end
  end.
Definition sys_link : M sstate Z :=
  o ← argstr 0;
  match o with
  | None => mret (-1)
  | Some old =>
      o ← argstr 1;
      match o with
      | None => mret (-1)
      | Some new => old ← user_str old; new ← user_str new; on_fs (link old new)
      end
  end.

Fixpoint isdirempty_loop (fuel : nat) (dp : nat) (off : Z) : M fstate bool :=
  match fuel with
  | O => undef
  | S fuel' =>
      d ← iget_ip dp;
      if bool_decide (off < i_size d) then
        '(r, de) ← readi dp off sizeof_dirent;
        panic_if (bool_decide (r ≠ sizeof_dirent)) "isdirempty: readi";;
        if bool_decide (de_inum de ≠ 0) then mret false else isdirempty_loop fuel' dp (off + sizeof_dirent)
      else mret true
  end.
Definition isdirempty (dp : nat) : M fstate bool :=
  d ← iget_ip dp;
  isdirempty_loop (Z.to_nat (i_size d / sizeof_dirent) + 2) dp (2 * sizeof_dirent).

(** The label [bad] of [sys_unlink]. *)
Definition unlink_bad (dp : nat) : M fstate Z := iunlockput dp;; on_log end_op;; mret (-1).
(** [sys_unlink] after its argument. *)
Definition unlink (path : list Z) : M fstate Z :=
  on_log begin_op;;
  '(o, name) ← nameiparent path name_array;
  match o with
  | None => on_log end_op;; mret (-1)
  | Some dp =>
      ilock (Some dp);;
      c1 ← deref (namecmp name (str "." ++ [0]));
      c2 ← deref (namecmp name (str ".." ++ [0]));
      if bool_decide (c1 = 0) || bool_decide (c2 = 0) then unlink_bad dp
      else
        r ← dirlookup dp name;
        match r with
        | None => unlink_bad dp
        | Some (ip, off) =>
            ilock (Some ip);;
            i ← iget_ip ip;
            panic_if (bool_decide (i_nlink i < 1)) "unlink: nlink < 1";;
            empty ← (if bool_decide (i_type i = T_DIR) then isdirempty ip else mret true);
            if negb empty then iunlockput ip;; unlink_bad dp
            else
              r ← writei dp (replicate 16 0) off sizeof_dirent;
              panic_if (bool_decide (r ≠ sizeof_dirent)) "unlink: writei";;
              (if bool_decide (i_type i = T_DIR)
               then iupd dp (λ d, set_inlink (i16 (i_nlink d - 1)) d);; iupdate dp else mret tt);;
              iunlockput dp;;
              iupd ip (λ i, set_inlink (i16 (i_nlink i - 1)) i);;
              iupdate ip;;
              iunlockput ip;;
              on_log end_op;;
              mret 0
        end
  end.
Definition sys_unlink : M sstate Z :=
  o ← argstr 0;
  match o with
  | None => mret (-1)
  | Some path => path ← user_str path; on_fs (unlink path)
  end.

(** [create(path, type, major, minor)]: the inode, locked. *)
Definition create (path : list Z) (type major minor : Z) : M fstate (option nat) :=
  '(o, name) ← nameiparent path name_array;
  match o with
  | None => mret None
  | Some dp =>
      ilock (Some dp);;
      r ← dirlookup dp name;
      match r with
      | Some (ip, _) =>
          iunlockput dp;;
          ilock (Some ip);;
          i ← iget_ip ip;
          if bool_decide (type = T_FILE) && bool_decide (i_type i = T_FILE) then mret (Some ip)
          else iunlockput ip;; mret None
      | None =>
          d ← iget_ip dp;
          ip ← ialloc (i_dev d) type;
          ilock (Some ip);;
          iupd ip (λ i, set_inlink 1 (set_iminor minor (set_imajor major i)));;
          iupdate ip;;
          i ← iget_ip ip;
          (if bool_decide (type = T_DIR) then
             iupd dp (λ d, set_inlink (i16 (i_nlink d + 1)) d);;
             iupdate dp;;
             r ← dirlink ip (str "." ++ [0]) (i_inum i);
             panic_if (bool_decide (r < 0)) "create dots";;
             d ← iget_ip dp;
             r ← dirlink ip (str ".." ++ [0]) (i_inum d);
             panic_if (bool_decide (r < 0)) "create dots"
           else mret tt);;
          r ← dirlink dp name (i_inum i);
          panic_if (bool_decide (r < 0)) "create: dirlink";;
          iunlockput dp;;
          mret (Some ip)
      end
  end.

(** ** Opening *)

(** The inode that [sys_open] opens, locked; [None] after [end_op]. *)
Definition open_inode (path : list Z) (omode : Z) : M fstate (option nat) :=
  if flag omode O_CREATE then
    o ← create path T_FILE 0 0;
    match o with
    | None => on_log end_op;; mret None
    | Some ip => mret (Some ip)
    end
  else
    o ← namei path;
    match o with
    | None => on_log end_op;; mret None
    | Some ip =>
        ilock (Some ip);;
        i ← iget_ip ip;
        if bool_decide (i_type i = T_DIR) && bool_decide (omode ≠ O_RDONLY)
        then iunlockput ip;; on_log end_op;; mret None
        else mret (Some ip)
    end.
(** [sys_open] after its arguments. *)
Definition open_file (path : list Z) (omode : Z) : M sstate Z :=
  begin_trans;;
  o ← on_fs (open_inode path omode);
  match o with
  | None => mret (-1)
  | Some ip =>
      fo ← filealloc;
      fd ← (match fo with None => mret (-1) | Some f => fdalloc f end);
      match fo with
      | Some f =>
          if bool_decide (fd < 0) then fileclose f;; on_fs (iunlockput ip);; end_trans;; mret (-1)
          else
            on_fs (iunlock (Some ip));;
            end_trans;;
            file_upd f (λ x, File FD_INODE (fl_ref x) (negb (flag omode O_WRONLY))
                               (flag omode O_WRONLY || flag omode O_RDWR) (fl_pipe x) (Some ip) 0);;
            mret fd
      | None => on_fs (iunlockput ip);; end_trans;; mret (-1)
      end
  end.
Definition sys_open : M sstate Z :=
  o ← argstr 0;
  match o with
  | None => mret (-1)
  | Some path =>
      o ← argint 1;
      match o with
      | None => mret (-1)
      | Some omode => path ← user_str path; open_file path omode
      end
  end.

(** What [sys_mkdir] and [sys_mknod] do with the result of [create]. *)
Definition make_end (o : option nat) : M sstate Z :=
  match o with
  | None => end_trans;; mret (-1)
  | Some ip => on_fs (iunlockput ip);; end_trans;; mret 0
  end.
Definition sys_mkdir : M sstate Z :=
  begin_trans;;
  o ← argstr 0;
  match o with
  | None => make_end None
  | Some path => path ← user_str path; ip ← on_fs (create path T_DIR 0 0); make_end ip
  end.
Definition sys_mknod : M sstate Z :=
  begin_trans;;
  o ← argstr 0;
  match o with
  | None => make_end None
  | Some path =>
      o ← argint 1;
      match o with
      | None => make_end None
      | Some major =>
          o ← argint 2;
          match o with
          | None => make_end None
          | Some minor =>
              path ← user_str path; ip ← on_fs (create path T_DEV (i16 major) (i16 minor)); make_end ip
          end
      end
  end.

(** [sys_chdir] after its argument. *)
Definition chdir (path : list Z) : M fstate Z :=
  o ← namei path;
  match o with
  | None => on_log end_op;; mret (-1)
  | Some ip =>
      ilock (Some ip);;
      i ← iget_ip ip;
      if bool_decide (i_type i ≠ T_DIR) then iunlockput ip;; on_log end_op;; mret (-1)
      else
        iunlock (Some ip);;
        s ← get;
        cwd ← deref (f_cwd s);
        iput cwd;;
        on_log end_op;;
        modify (set_fcwd (Some ip));;
        mret 0
  end.
Definition sys_chdir : M sstate Z :=
  begin_trans;;
  o ← argstr 0;
  match o with
  | None => end_trans;; mret (-1)
  | Some path => path ← user_str path; on_fs (chdir path)
  end.

Definition sys_pipe : M sstate Z :=
  o ← argptr 0 8;
  match o with
  | None => mret (-1)
  | Some fd =>
      r ← pipealloc;
      match r with
      | None => mret (-1)
      | Some (rf, wf) =>
          fd0 ← fdalloc rf;
          fd1 ← (if bool_decide (fd0 < 0) then mret (-1) else fdalloc wf);
          if bool_decide (fd0 < 0) || bool_decide (fd1 < 0) then
            (if bool_decide (0 ≤ fd0) then ofile_set (Z.to_nat fd0) None else mret tt);;
            fileclose rf;;
            fileclose wf;;
            mret (-1)
          else
            user_store fd (le32 fd0 ++ le32 fd1);;
            mret 0
      end
  end.

End image.
