(* ===== verification/SysfileSpec.v ===== *)
(** References to open files: the count in every entry of the file table is
    the number of descriptors that refer to it, and no system call of
    src/sysfile.c leaks or loses a reference on any path. *)
From S2P Require Import Prelude Layout Bytes Spinlock Sleeplock CString Kalloc Bio Log Console Fs File Args Sysfile.

(** * Counting *)

(** The descriptors of the running process that refer to entry [f]. *)
Definition fds (l : list (option nat)) (f : nat) : Z := Z.of_nat (length (filter (λ o, o = Some f) l)).
(** The count of every entry is the number of those descriptors plus [e f],
    the references held elsewhere: by other processes, or by running code. *)
Definition owed (s : sstate) (e : nat → Z) : Prop :=
  ∀ f x, s_files s !! f = Some x → fl_ref x = e f + fds (s_ofile s) f.
(** One reference more, or fewer, to [f]. *)
Definition plus (e : nat → Z) (f : nat) (k : Z) : nat → Z := λ g, e g + if decide (g = f) then k else 0.

Lemma owed_ext s e e' : (∀ f, e f = e' f) → owed s e → owed s e'.
Proof. intros H Ho f x Hf. rewrite <- H. by apply Ho. Qed.

Lemma fds_nonneg l f : 0 ≤ fds l f.
Proof. unfold fds. lia. Qed.
Lemma fds_insert l fd o v f :
  l !! fd = Some o → fds (<[fd := v]> l) f = fds l f - (if decide (o = Some f) then 1 else 0) + (if decide (v = Some f) then 1 else 0).
Proof.
  intros H. rewrite insert_take_drop by (by eapply lookup_lt_Some). unfold fds.
  rewrite <- (take_drop_middle l fd o H) at 3. rewrite !filter_app, !filter_cons, !length_app.
  repeat case_decide; simpl; lia.
Qed.

(** Code that changes no count and no descriptor. *)
Definition stays {A} (m : M sstate A) : Prop :=
  ∀ s r s' t, m s = Ret r s' t → s_ofile s' = s_ofile s ∧ fl_ref <$> s_files s' = fl_ref <$> s_files s.

Create HintDb stays.

Lemma stays_owed {A} (m : M sstate A) s r s' t e : stays m → m s = Ret r s' t → owed s e → owed s' e.
Proof.
  intros Hm H Ho f x Hx. destruct (Hm _ _ _ _ H) as [E1 E2]. rewrite E1.
  assert ((fl_ref <$> s_files s') !! f = Some (fl_ref x)) as Hl by (by rewrite list_lookup_fmap, Hx).
  rewrite E2, list_lookup_fmap in Hl. destruct (s_files s !! f) as [y|] eqn:Hy; [|done]. injection Hl as <-. by apply Ho.
Qed.

Lemma stays_mret {A} (v : A) : stays (mret v).
Proof. by intros s r s' t [= <- <- <-]. Qed.
Lemma stays_bind {A B} (m : M sstate A) (f : A → M sstate B) : stays m → (∀ v, stays (f v)) → stays (m ≫= f).
Proof.
  intros Hm Hf s r s' t H. inv_bind H. destruct (Hf _ _ _ _ _ H) as [E1 E2]. destruct (Hm _ _ _ _ Hm0) as [E3 E4]. split; congruence.
Qed.
Lemma stays_get : stays get.
Proof. by intros s r s' t [= <- <- <-]. Qed.
Lemma stays_stop {A} (m : M sstate A) : (∀ s, match m s with Ret _ _ _ => False | _ => True end) → stays m.
Proof. intros H s r s' t E. specialize (H s). by rewrite E in H. Qed.
Lemma stays_panic {A} msg : stays (panic msg : M sstate A).
Proof. by apply stays_stop. Qed.
Lemma stays_undef {A} : stays (undef : M sstate A).
Proof. by apply stays_stop. Qed.
Lemma stays_block {A} c : stays (block c : M sstate A).
Proof. by apply stays_stop. Qed.
Lemma stays_deref {A} (o : option A) : stays (deref o).
Proof. destruct o; [apply stays_mret|apply stays_undef]. Qed.
Lemma stays_panic_if b msg : stays (panic_if b msg).
Proof. destruct b; [apply stays_panic|apply stays_mret]. Qed.
Lemma stays_if {A} (b : bool) (m1 m2 : M sstate A) : stays m1 → stays m2 → stays (if b then m1 else m2).
Proof. by destruct b. Qed.
Lemma stays_modify f : (∀ s, s_ofile (f s) = s_ofile s ∧ s_files (f s) = s_files s) → stays (modify f).
Proof. intros H s r s' t [= <- <- <-]. destruct (H s) as [-> ->]. done. Qed.
Lemma stays_zoom {T A} (g : sstate → T) (p : T → sstate → sstate) (m : M T A) :
  (∀ x s, s_ofile (p x s) = s_ofile s ∧ s_files (p x s) = s_files s) → stays (zoom g p m).
Proof. intros H s r s' t (x & _ & ->)%zoom_Ret_inv. destruct (H x s) as [-> ->]. done. Qed.
Lemma stays_on_fs {A} (m : M fstate A) : stays (on_fs m).
Proof. by apply stays_zoom. Qed.
Lemma stays_on_kmem {A} (m : M kstate A) : stays (on_kmem m).
Proof. by apply stays_zoom. Qed.
#[export] Hint Resolve stays_mret stays_get stays_panic stays_undef stays_block stays_deref stays_panic_if stays_on_fs stays_on_kmem : stays.
#[export] Hint Extern 2 (stays (_ ≫= _)) => apply stays_bind; [|intros ?] : stays.
#[export] Hint Extern 2 (stays (if _ then _ else _)) => apply stays_if : stays.
#[export] Hint Extern 3 (stays (modify _)) => apply stays_modify; done : stays.
#[export] Hint Extern 4 (stays (match ?x with _ => _ end)) => destruct x : stays.

Lemma stays_on_pipe {A} a (m : M pipe A) : stays (on_pipe a m).
Proof. unfold on_pipe. do 2 (apply stays_bind; [auto with stays|]; intros ?). by apply stays_zoom. Qed.
Lemma file_get_inv f s x s' t : file_get f s = Ret x s' t → s_files s !! f = Some x ∧ s' = s ∧ t = [].
Proof. unfold file_get. rewrite bind_get. destruct (s_files s !! f); [|done]. by intros [= <- <- <-]. Qed.
Lemma stays_file_get f : stays (file_get f).
Proof. by intros s r s' t (_ & -> & _)%file_get_inv. Qed.
Lemma file_upd_inv f g s r s' t :
  file_upd f g s = Ret r s' t → ∃ x, s_files s !! f = Some x ∧ s' = set_files (<[f := g x]> (s_files s)) s.
Proof.
  unfold file_upd. intros H. inv_bind H. apply file_get_inv in Hm as (Hx & -> & _). injection H as _ <- _. by exists a.
Qed.
Lemma stays_file_upd f g : (∀ x, fl_ref (g x) = fl_ref x) → stays (file_upd f g).
Proof.
  intros Hg s r s' t (x & Hx & ->)%file_upd_inv. split; [done|]. simpl. rewrite list_fmap_insert, Hg.
  apply list_insert_id. by rewrite list_lookup_fmap, Hx.
Qed.
Lemma stays_ft_acquire : stays ft_acquire.
Proof. unfold ft_acquire, lk_acquire. auto with stays. Qed.
Lemma stays_ft_release : stays ft_release.
Proof. unfold ft_release, lk_release. auto with stays. Qed.
#[export] Hint Resolve stays_on_pipe stays_file_get stays_ft_acquire stays_ft_release : stays.
#[export] Hint Extern 3 (stays (file_upd _ _)) => apply stays_file_upd; done : stays.

(** ** Code that touches no reference *)

Lemma stays_begin_trans : stays begin_trans.
Proof. apply stays_on_fs. Qed.
Lemma stays_end_trans : stays end_trans.
Proof. apply stays_on_fs. Qed.
Lemma stays_fetchint a : stays (fetchint a).
Proof. unfold fetchint, user_sz. auto 10 with stays. Qed.
Lemma stays_fetchstr_loop mem a k n : stays (fetchstr_loop mem a k n).
Proof. revert a k. induction n as [|n IH]; intros a k; cbn [fetchstr_loop]; auto with stays. Qed.
#[export] Hint Resolve stays_begin_trans stays_end_trans stays_fetchint stays_fetchstr_loop : stays.
Lemma stays_fetchstr a : stays (fetchstr a).
Proof. unfold fetchstr, user_sz. auto 10 with stays. Qed.
Lemma stays_argint n : stays (argint n).
Proof. unfold argint. auto with stays. Qed.
#[export] Hint Resolve stays_fetchstr stays_argint : stays.
Lemma stays_argptr n k : stays (argptr n k).
Proof. unfold argptr, user_sz. auto 20 with stays. Qed.
Lemma stays_argstr n : stays (argstr n).
Proof. unfold argstr. auto 20 with stays. Qed.
Lemma stays_user_str a : stays (user_str a).
Proof. unfold user_str. auto with stays. Qed.
Lemma stays_argfd n : stays (argfd n).
Proof. unfold argfd. auto 20 with stays. Qed.
Lemma stays_user_store p b : stays (user_store p b).
Proof. unfold user_store. auto with stays. Qed.
#[export] Hint Resolve stays_argptr stays_argstr stays_user_str stays_argfd stays_user_store : stays.
Lemma stays_rw_args : stays rw_args.
Proof. unfold rw_args. auto 20 with stays. Qed.
Lemma stays_make_end o : stays (make_end o).
Proof. unfold make_end. auto 20 with stays. Qed.
#[export] Hint Resolve stays_rw_args stays_make_end : stays.

Lemma argfd_inv n s fd f s' t : argfd n s = Ret (Some (fd, f)) s' t → s' = s ∧ s_ofile s !! Z.to_nat fd = Some (Some f).
Proof.
  intros H. assert (∀ x y z, argint n s = Ret x y z → y = s) as Hs.
  { intros x y z. unfold argint. rewrite bind_get. unfold fetchint. mstep (user_sz_run s). destruct (_ || _); [by intros [= _ <- _]|].
    rewrite bind_get. destruct (load32 _ _); [|done]. by intros [= _ <- _]. }
  unfold argfd in H. inv_bind H. apply Hs in Hm as ->. destruct a as [x|]; [|done].
  destruct (bool_decide (x < 0) || _); [done|]. rewrite bind_get in H. unfold deref in H.
  destruct (s_ofile s !! Z.to_nat x) as [[g|]|] eqn:E; try done. rewrite bind_mret in H. injection H as <- <- <- _. done.
Qed.

Section image.
Context {KI : KernelImage}.

Lemma stays_filestat f : stays (filestat f).
Proof. unfold filestat. apply stays_bind; [auto with stays|]. intros x. destruct (fl_type x); auto 10 with stays. Qed.
Lemma stays_piperead a n : stays (piperead a n).
Proof. unfold piperead. auto 10 with stays. Qed.
Lemma stays_pipewrite a b n : stays (pipewrite a b n).
Proof. unfold pipewrite. auto 10 with stays. Qed.
Hint Resolve stays_filestat stays_piperead stays_pipewrite : stays.
Lemma stays_fileread f n : stays (fileread f n).
Proof. unfold fileread. auto 20 with stays. Qed.
Lemma stays_filewrite_loop fuel f b i n : stays (filewrite_loop fuel f b i n).
Proof. revert i. induction fuel as [|fuel IH]; intros i; cbn [filewrite_loop]; auto 20 with stays. Qed.
Hint Resolve stays_fileread stays_filewrite_loop : stays.
Lemma stays_filewrite f b n : stays (filewrite f b n).
Proof. unfold filewrite. auto 20 with stays. Qed.
Hint Resolve stays_filewrite : stays.

(** ** Code that makes or drops a reference *)

(** One count changed. *)
Lemma owed_upd s e f x y :
  owed s e → s_files s !! f = Some x → owed (set_files (<[f := y]> (s_files s)) s) (plus e f (fl_ref y - fl_ref x)).
Proof.
  intros Ho Hx g z Hz. simpl in Hz. unfold plus. destruct (decide (g = f)) as [->|Hne].
  - rewrite list_lookup_insert_eq in Hz by (by eapply lookup_lt_Some). injection Hz as <-. simpl. rewrite (Ho f x Hx). lia.
  - rewrite list_lookup_insert_ne in Hz by done. rewrite (Ho g z Hz). simpl. lia.
Qed.
Lemma owed_ofile s e fd o v :
  owed s e → s_ofile s !! fd = Some o →
  owed (set_sofile (<[fd := v]> (s_ofile s)) s)
    (λ f, e f + (if decide (o = Some f) then 1 else 0) - (if decide (v = Some f) then 1 else 0)).
Proof. intros Ho Hfd f x Hx. simpl in *. rewrite (fds_insert _ _ _ _ _ Hfd), (Ho f x Hx). lia. Qed.

Lemma file_scan_inv l k f : file_scan l k = Some f → ∃ x, (k ≤ f)%nat ∧ l !! (f - k)%nat = Some x ∧ fl_ref x = 0.
Proof.
  revert k. induction l as [|y l IH]; intros k H; [done|]. cbn [file_scan] in H. case_bool_decide as E.
  - injection H as <-. exists y. rewrite Nat.sub_diag. done.
  - destruct (IH _ H) as (x & Hk & Hx & E0). exists x. split_and!; [lia| |done].
    replace (f - k)%nat with (S (f - S k)) by lia. done.
Qed.

Lemma filealloc_owed s o s' t e :
  filealloc s = Ret o s' t → owed s e → owed s' (match o with Some f => plus e f 1 | None => e end).
Proof.
  unfold filealloc. intros H Ho. inv_bind H. pose proof (stays_owed _ _ _ _ _ _ stays_ft_acquire Hm Ho) as Ho1.
  rewrite bind_get in H. destruct (file_scan (s_files s0) 0) as [f|] eqn:E.
  - apply file_scan_inv in E as (x & _ & Hx & E0). rewrite Nat.sub_0_r in Hx. inv_bind H. apply file_upd_inv in Hm0 as (y & Hy & ->).
    rewrite Hx in Hy. injection Hy as <-. pose proof (owed_upd _ _ _ _ (set_fref 1 x) Ho1 Hx) as Ho2. simpl in Ho2.
    inv_bind H. injection H as <- <- _. eapply stays_owed; [apply stays_ft_release|done|]. by rewrite E0 in Ho2.
  - inv_bind H. injection H as <- <- _. by eapply stays_owed; [apply stays_ft_release|..].
Qed.

Lemma panic_if_inv {S} b msg (s : S) r s' t : panic_if b msg s = Ret r s' t → b = false ∧ s' = s.
Proof. destruct b; [done|]. by intros [= _ <- _]. Qed.

Lemma filedup_owed f s r s' t e : filedup f s = Ret r s' t → owed s e → owed s' (plus e f 1).
Proof.
  unfold filedup. intros H Ho. inv_bind H. pose proof (stays_owed _ _ _ _ _ _ stays_ft_acquire Hm Ho) as Ho1. inv_bind H.
  apply file_get_inv in Hm0 as (Hx & -> & _). inv_bind H. apply panic_if_inv in Hm0 as [_ ->].
  inv_bind H. apply file_upd_inv in Hm0 as (y & Hy & ->). rewrite Hx in Hy. injection Hy as <-.
  inv_bind H. injection H as _ <- _. eapply stays_owed; [apply stays_ft_release|done|].
  pose proof (owed_upd _ _ _ _ (set_fref (fl_ref a0 + 1) a0) Ho1 Hx) as Ho2. eapply owed_ext; [|exact Ho2].
  intros g. unfold plus. simpl. destruct (decide (g = f)); lia.
Qed.

Lemma fdalloc_inv f s fd s' t :
  fdalloc f s = Ret fd s' t →
  (fd = -1 ∧ s' = s) ∨ ∃ k, fd = Z.of_nat k ∧ s_ofile s !! k = Some None ∧ s' = set_sofile (<[k := Some f]> (s_ofile s)) s.
Proof.
  assert (∀ l k fd, ofile_scan l k = Some fd → (k ≤ fd)%nat ∧ l !! (fd - k)%nat = Some None) as Hscan.
  { induction l as [|[g|] l IH]; intros k x H; [done| |].
    - destruct (IH (S k) x H) as [H1 H2]. split; [lia|]. by replace (x - k)%nat with (S (x - S k)) by lia.
    - injection H as <-. by rewrite Nat.sub_diag. }
  unfold fdalloc. rewrite bind_get. destruct (ofile_scan (s_ofile s) 0) as [k|] eqn:E.
  - intros H. inv_bind H. injection Hm as _ <- _. injection H as <- <- _. right. exists k.
    destruct (Hscan _ _ _ E) as [_ Hk]. by rewrite Nat.sub_0_r in Hk.
  - intros [= <- <- _]. by left.
Qed.

(** Descriptor [fd] now holds the reference to [f]. *)
Lemma fdalloc_owed f s fd s' t e :
  fdalloc f s = Ret fd s' t → owed s e → owed s' (if bool_decide (fd < 0) then e else plus e f (-1)).
Proof.
  intros [[-> ->]|(k & -> & Hk & ->)]%fdalloc_inv Ho; [done|]. rewrite bool_decide_false by lia.
  eapply owed_ext; [|by apply owed_ofile]. intros g. simpl. unfold plus. repeat case_decide; simplify_eq; lia.
Qed.

Lemma stays_pipeclose a w : stays (pipeclose a w).
Proof. unfold pipeclose. auto 10 with stays. Qed.
Hint Resolve stays_pipeclose : stays.

Lemma fileclose_owed f s r s' t e : fileclose f s = Ret r s' t → owed s e → owed s' (plus e f (-1)).
Proof.
  unfold fileclose. intros H Ho. inv_bind H. pose proof (stays_owed _ _ _ _ _ _ stays_ft_acquire Hm Ho) as Ho1. inv_bind H.
  apply file_get_inv in Hm0 as (Hx & -> & _). inv_bind H. apply panic_if_inv in Hm0 as [Hb ->]. apply bool_decide_eq_false in Hb.
  inv_bind H. apply file_upd_inv in Hm0 as (y & Hy & ->). rewrite Hx in Hy. injection Hy as <-.
  set (x' := set_fref (fl_ref a0 - 1) a0) in *. set (s1 := set_files _ s0) in *.
  assert (owed s1 (plus e f (-1))) as Ho2.
  { eapply owed_ext; [|exact (owed_upd _ _ _ _ x' Ho1 Hx)]. intros g. unfold plus. simpl. destruct (decide (g = f)); lia. }
  assert (s_files s1 !! f = Some x') as Hx' by (apply list_lookup_insert_eq; by eapply lookup_lt_Some).
  inv_bind H. apply file_get_inv in Hm0 as (Hy & -> & _). rewrite Hx' in Hy. injection Hy as <-.
  case_bool_decide as Hpos; [by eapply stays_owed; [apply stays_ft_release|..]|].
  inv_bind H. apply file_upd_inv in Hm0 as (y & Hy & ->). rewrite Hx' in Hy. injection Hy as <-.
  assert (owed (set_files (<[f := set_fref 0 x']> (s_files s1)) s1) (plus e f (-1))) as Ho3.
  { eapply owed_ext; [|exact (owed_upd _ _ _ _ (set_fref 0 x') Ho2 Hx')]. intros g. unfold plus. simpl in *. destruct (decide (g = f)); lia. }
  inv_bind H. eapply stays_owed in Ho3; [|by apply (stays_file_upd f (set_ftype FD_NONE))|exact Hm0].
  inv_bind H. eapply stays_owed in Ho3; [|apply stays_ft_release|exact Hm1].
  eapply stays_owed; [|exact H|exact Ho3]. destruct (fl_type x'); auto 10 with stays.
Qed.

Lemma pipealloc_bad_owed f0 f1 s r s' t e :
  pipealloc_bad f0 f1 s = Ret r s' t →
  owed s (let e' := match f1 with Some f1 => plus e f1 1 | None => e end in match f0 with Some f0 => plus e' f0 1 | None => e' end) →
  r = None ∧ owed s' e.
Proof.
  unfold pipealloc_bad. intros H Ho. inv_bind H. inv_bind H. injection H as <- <- _. split; [done|].
  assert (owed s0 (match f1 with Some f1 => plus e f1 1 | None => e end)) as Ho1.
  { destruct f0 as [f0|]; [|by injection Hm as _ <- _]. eapply owed_ext; [|exact (fileclose_owed _ _ _ _ _ _ Hm Ho)].
    intros g. unfold plus. simpl. case_decide; lia. }
  destruct f1 as [f1|]; [|by injection Hm0 as _ <- _]. eapply owed_ext; [|exact (fileclose_owed _ _ _ _ _ _ Hm0 Ho1)].
  intros g. unfold plus. case_decide; lia.
Qed.

(** The two files that [pipealloc] returns are referred to once more each. *)
Lemma pipealloc_owed s r s' t e :
  pipealloc s = Ret r s' t → owed s e → owed s' (match r with Some (f0, f1) => plus (plus e f0 1) f1 1 | None => e end).
Proof.
  unfold pipealloc. intros H Ho. inv_bind H. pose proof (filealloc_owed _ _ _ _ _ Hm Ho) as Ho1. destruct a as [f0|].
  2: { by apply pipealloc_bad_owed with (e := e) in H as [-> ?]. }
  inv_bind H. pose proof (filealloc_owed _ _ _ _ _ Hm0 Ho1) as Ho2. destruct a as [f1|].
  2: { by apply pipealloc_bad_owed with (e := e) in H as [-> ?]. }
  inv_bind H. eapply stays_owed in Ho2; [|apply stays_on_kmem|exact Hm1]. case_bool_decide.
  { apply pipealloc_bad_owed with (e := e) in H as [-> ?]; [done|]. eapply owed_ext; [|exact Ho2].
    intros g. unfold plus. repeat case_decide; lia. }
  assert (∃ f, r = Some f) as [f ->] by (repeat (inv_bind H); injection H as <- _ _; eauto).
  eapply stays_owed in Ho2; [|shelve|exact H]. assert (f = (f0, f1)) as -> by (repeat (inv_bind H); by injection H as <- _ _). done.
  Unshelve. auto 20 with stays.
Qed.

Lemma ofile_clear_owed fd f s r s' t e :
  s_ofile s !! fd = Some (Some f) → ofile_set fd None s = Ret r s' t → owed s e → owed s' (plus e f 1).
Proof.
  intros Hfd [= _ <- _] Ho. eapply owed_ext; [|exact (owed_ofile _ _ _ _ None Ho Hfd)]. intros g. simpl. unfold plus.
  repeat case_decide; simplify_eq; lia.
Qed.

Lemma sys_dup_owed s r s' t e : sys_dup s = Ret r s' t → owed s e → owed s' e.
Proof.
  unfold sys_dup. intros H Ho. inv_bind H. destruct a as [[fd f]|].
  2: { injection H as _ <- _. by eapply stays_owed; [apply stays_argfd|..]. }
  apply argfd_inv in Hm as [-> _]. inv_bind H. pose proof (fdalloc_owed _ _ _ _ _ _ Hm Ho) as Ho1. case_bool_decide; [by injection H as _ <- _|].
  inv_bind H. injection H as _ <- _. eapply owed_ext; [|exact (filedup_owed _ _ _ _ _ _ Hm0 Ho1)]. intros g. unfold plus. case_decide; lia.
Qed.

Lemma sys_close_owed s r s' t e : sys_close s = Ret r s' t → owed s e → owed s' e.
Proof.
  unfold sys_close. intros H Ho. inv_bind H. destruct a as [[fd f]|].
  2: { injection H as _ <- _. by eapply stays_owed; [apply stays_argfd|..]. }
  apply argfd_inv in Hm as [-> Hfd]. inv_bind H. pose proof (ofile_clear_owed _ _ _ _ _ _ _ Hfd Hm Ho) as Ho1.
  inv_bind H. injection H as _ <- _. eapply owed_ext; [|exact (fileclose_owed _ _ _ _ _ _ Hm0 Ho1)]. intros g. unfold plus. case_decide; lia.
Qed.

Lemma open_file_owed path omode s r s' t e : open_file path omode s = Ret r s' t → owed s e → owed s' e.
Proof.
  unfold open_file. intros H Ho. inv_bind H. eapply stays_owed in Ho; [|apply stays_begin_trans|exact Hm].
  inv_bind H. eapply stays_owed in Ho; [|apply stays_on_fs|exact Hm0]. destruct a0 as [ip|]; [|by injection H as _ <- _].
  inv_bind H. apply (filealloc_owed _ _ _ _ _ Hm1) in Ho. inv_bind H. destruct a0 as [f|].
  2: { injection Hm2 as _ <- _. eapply stays_owed; [|exact H|exact Ho]. auto 10 with stays. }
  apply (fdalloc_owed _ _ _ _ _ _ Hm2) in Ho. case_bool_decide.
  - inv_bind H. apply (fileclose_owed _ _ _ _ _ _ Hm3) in Ho. eapply stays_owed; [|exact H|]; [auto 10 with stays|].
    eapply owed_ext; [|exact Ho]. intros g. unfold plus. case_decide; lia.
  - eapply stays_owed; [|exact H|]; [auto 20 with stays|]. eapply owed_ext; [|exact Ho]. intros g. unfold plus. case_decide; lia.
Qed.

Lemma sys_pipe_owed s r s' t e : sys_pipe s = Ret r s' t → owed s e → owed s' e.
Proof.
  unfold sys_pipe. intros H Ho. inv_bind H. eapply stays_owed in Ho; [|apply stays_argptr|exact Hm]. destruct a as [p|]; [|by injection H as _ <- _].
  inv_bind H. apply (pipealloc_owed _ _ _ _ _ Hm0) in Ho. destruct a as [[rf wf]|]; [|by injection H as _ <- _].
  inv_bind H. pose proof Hm1 as Hfd0. apply (fdalloc_owed _ _ _ _ _ _ Hm1) in Ho. inv_bind H. case_bool_decide as Hneg.
  - injection Hm2 as <- <- _. cbn [orb] in H. rewrite (bool_decide_false (0 ≤ a)) in H by lia. inv_bind H. injection Hm2 as _ <- _.
    inv_bind H. apply (fileclose_owed _ _ _ _ _ _ Hm2) in Ho. inv_bind H. apply (fileclose_owed _ _ _ _ _ _ Hm3) in Ho. injection H as _ <- _.
    eapply owed_ext; [|exact Ho]. intros g. unfold plus. repeat case_decide; lia.
  - apply fdalloc_inv in Hfd0 as [[-> _]|(k & -> & Hk & E)]; [lia|]. pose proof Hm2 as Hfd1. apply (fdalloc_owed _ _ _ _ _ _ Hm2) in Ho.
    rewrite orb_false_l in H. case_bool_decide as Hneg1.
    + apply fdalloc_inv in Hfd1 as [[_ ->]|(k1 & -> & _ & _)]; [|lia]. rewrite (bool_decide_true (0 ≤ Z.of_nat k)), Nat2Z.id in H by lia.
      assert (s_ofile s2 !! k = Some (Some rf)) as Hk' by (rewrite E; apply list_lookup_insert_eq; by eapply lookup_lt_Some).
      inv_bind H. apply (ofile_clear_owed _ _ _ _ _ _ _ Hk' Hm3) in Ho. inv_bind H. apply (fileclose_owed _ _ _ _ _ _ Hm4) in Ho.
      inv_bind H. apply (fileclose_owed _ _ _ _ _ _ Hm5) in Ho. injection H as _ <- _.
      eapply owed_ext; [|exact Ho]. intros g. unfold plus. repeat case_decide; lia.
    + eapply stays_owed; [|exact H|]; [auto 10 with stays|]. eapply owed_ext; [|exact Ho]. intros g. unfold plus. repeat case_decide; lia.
Qed.

(** The file system calls. *)
Inductive fcall : Type :=
  FDup | FRead | FWrite | FClose | FFstat | FLink | FUnlink | FOpen | FMkdir | FMknod | FChdir | FPipe.
Definition fcall_run (c : fcall) : M sstate Z :=
  match c with
  | FDup => sys_dup | FRead => sys_read | FWrite => sys_write | FClose => sys_close | FFstat => sys_fstat
  | FLink => sys_link | FUnlink => sys_unlink | FOpen => sys_open | FMkdir => sys_mkdir | FMknod => sys_mknod
  | FChdir => sys_chdir | FPipe => sys_pipe
  end.

(** C21: No system call of sysfile.c leaks or loses a reference to an open
    file.  When the count of every entry of the file table is the number of
    the process's descriptors for it plus the references [e] held elsewhere,
    it still is, with the same [e], after any of the twelve calls returns,
    with any arguments and any result, through every failure path. *)
Theorem fd_refs_balanced c s r s' t e : owed s e → fcall_run c s = Ret r s' t → owed s' e.
Proof.
  intros Ho H. destruct c; simpl in H.
  all: try solve [eapply stays_owed; [|exact H|exact Ho]; unfold sys_read, sys_write, sys_fstat, sys_link, sys_unlink, sys_mkdir, sys_mknod, sys_chdir;
            auto 30 with stays].
  - by eapply sys_dup_owed.
  - by eapply sys_close_owed.
  - unfold sys_open in H. inv_bind H. eapply stays_owed in Ho; [|apply stays_argstr|exact Hm]. destruct a as [p|]; [|by injection H as _ <- _].
    inv_bind H. eapply stays_owed in Ho; [|apply stays_argint|exact Hm0]. destruct a as [m|]; [|by injection H as _ <- _].
    inv_bind H. eapply stays_owed in Ho; [|apply stays_user_str|exact Hm1]. by eapply open_file_owed.
  - by eapply sys_pipe_owed.
Qed.
End image.

(** A process with one open file that is shared with another process. *)
Definition one_file : sstate :=
  SState (FState (fresh []) (Superblock 0 0 0 0 0 0 0) false [] [] [] blank_console false None)
    false [File FD_PIPE 2 true false 4096 None 0; File FD_NONE 0 false false 0 None 0] ∅ (KState false true 0 ∅)
    (Some 0%nat :: replicate 15 None) (replicate 16 0) 0.

Definition one_image : KernelImage := {| kdata := KERNLINK; kend := KERNLINK |}.
(** [dup(0)] returns 1 and the count is 3. *)
Lemma fd_refs_balanced_witness :
  ∃ s' t, fcall_run (KI := one_image) FDup one_file = Ret 1 s' t ∧ owed s' (λ f, if decide (f = 0%nat) then 1 else 0).
Proof.
  destruct (fcall_run (KI := one_image) FDup one_file) as [r s' t| | | |] eqn:E; try (by vm_compute in E).
  exists s', t. assert (r = 1) as -> by (vm_compute in E; by injection E as <- _ _). split; [done|].
  refine (fd_refs_balanced (KI := one_image) FDup one_file 1 s' t (λ f, if decide (f = 0%nat) then 1 else 0) _ E).
  intros [|[|f]] x Hx; [injection Hx as <-; by vm_compute|injection Hx as <-; by vm_compute|done].
Defined.
