(* ===== verification/Exec.v ===== *)
(** Loading a program (src/exec.c, [loaduvm] of src/vm.c, [sys_exec] of
    src/sysfile.c, src/elf.h).

    [exec] works on the file system and on physical memory; what it changes
    in [struct proc] is a separate record ([image]) that the process code
    commits (see Kernel.v).  ExecSpec.v, ExecLoad.v and ExecBoot.v prove it. *)
From S2P Require Import Prelude Layout Bytes Spinlock Sleeplock CString Format Kalloc Vm Bio Log Console Fs File Args Sysfile.

Definition ELF_PROG_LOAD : Z := 1.

(** [struct elfhdr], the fields that are read. *)
Definition sizeof_elfhdr : Z := 52.
Record elfhdr := Elfhdr { elf_magic : Z; elf_entry : Z; elf_phoff : Z; elf_phnum : Z }.
Definition elfhdr_of (b : list Z) : elfhdr :=
  Elfhdr (of_le (slice b 0 4)) (of_le (slice b 24 4)) (of_le (slice b 28 4)) (of_le (slice b 44 2)).
(** [struct proghdr], the fields that are read. *)
Record proghdr := Proghdr { ph_type : Z; ph_off : Z; ph_vaddr : Z; ph_filesz : Z; ph_memsz : Z }.
Definition proghdr_of (b : list Z) : proghdr :=
  Proghdr (of_le (slice b 0 4)) (of_le (slice b 4 4)) (of_le (slice b 8 4)) (of_le (slice b 16 4)) (of_le (slice b 20 4)).

(** The new program: what [exec] stores in [struct proc]. *)
Record image := Image { im_pgdir : Z; im_sz : Z; im_entry : Z; im_sp : Z; im_name : list Z }.

Section exec_c.
Context {KI : KernelImage}.

(** The loop of [loaduvm]. *)
Fixpoint loaduvm_loop (fuel : nat) (pgdir addr : Z) (ip : nat) (offset sz i : Z) : M sstate Z :=
  match fuel with
  | O => undef
  | S fuel' =>
      if bool_decide (i < sz) then
        o ← on_kmem (walkpgdir pgdir (u32 (addr + i)) false);
        match o with
        | None => panic "loaduvm: address should exist"
        | Some (t, j) =>
            pte ← on_kmem (word_get t j);
            let pa := PTE_ADDR pte in
            let n := if bool_decide (sz - i < PGSIZE) then sz - i else PGSIZE in
            '(r, out) ← on_fs (readi ip (u32 (offset + i)) n);
            pg ← on_kmem (page_get (P2V pa));
            on_kmem (page_set (P2V pa) (splice pg 0 out));;
            if bool_decide (r ≠ n) then mret (-1)
            else loaduvm_loop fuel' pgdir addr ip offset sz (u32 (i + PGSIZE))
        end
      else mret 0
  end.
Definition loaduvm (pgdir addr : Z) (ip : nat) (offset sz : Z) : M sstate Z :=
  panic_if (bool_decide (addr mod PGSIZE ≠ 0)) "loaduvm: addr must be page aligned";;
  loaduvm_loop (Z.to_nat (sz / PGSIZE) + 2) pgdir addr ip offset sz 0.

(** The label [bad]. *)
Definition exec_bad (pgdir : Z) (ip : option nat) : M sstate (option image) :=
  (if bool_decide (pgdir ≠ 0) then on_kmem (freevm pgdir) else mret tt);;
  match ip with
  | Some ip => on_fs (iunlockput ip);; end_trans
  | None => mret tt
  end;;
  mret None.

(** The loop over the program headers with [n] of them left: the new [sz], or
    [None] for [goto bad]. *)
Fixpoint exec_load (n : nat) (pgdir : Z) (ip : nat) (off sz : Z) : M sstate (option Z) :=
  match n with
  | O => mret (Some sz)
  | S n' =>
      '(r, b) ← on_fs (readi ip (u32 off) sizeof_proghdr);
      if bool_decide (r ≠ sizeof_proghdr) then mret None
      else
        let ph := proghdr_of b in
        if bool_decide (ph_type ph ≠ ELF_PROG_LOAD) then exec_load n' pgdir ip (i32 (off + sizeof_proghdr)) sz
        else if bool_decide (ph_memsz ph < ph_filesz ph) then mret None
        else if bool_decide (u32 (ph_vaddr ph + ph_memsz ph) < ph_vaddr ph) then mret None
        else
          sz ← on_kmem (allocuvm pgdir sz (u32 (ph_vaddr ph + ph_memsz ph)));
          if bool_decide (sz = 0) then mret None
          else if bool_decide (ph_vaddr ph mod PGSIZE ≠ 0) then mret None
          else
            r ← loaduvm pgdir (ph_vaddr ph) ip (ph_off ph) (ph_filesz ph);
            if bool_decide (r < 0) then mret None
            else exec_load n' pgdir ip (i32 (off + sizeof_proghdr)) sz
  end.

(** The loop that pushes the argument strings: [argv] from [argv[argc]] on.
    The result is the final [argc] and [sp] and the entries of [ustack] from
    [ustack[3]] on. *)
Fixpoint exec_push (pgdir : Z) (argv : list (list Z)) (argc : nat) (sp : Z) (ustack : list Z) : M kstate (option (nat * Z * list Z)) :=
  match argv with
  | [] => mret (Some (argc, sp, ustack))
  | arg :: argv' =>
      if bool_decide (MAXARG ≤ argc)%nat then mret None
      else
        let sp := Z.land (u32 (sp - (Z.of_nat (length arg) + 1))) (u32 (Z.lnot 3)) in
        r ← copyout pgdir sp (arg ++ [0]);
        if bool_decide (r < 0) then mret None
        else exec_push pgdir argv' (S argc) sp (ustack ++ [sp])
  end.
(** The arguments on the stack that ends at [sz]: the new [sp], or [None]. *)
Definition exec_ustack (pgdir sz : Z) (argv : list (list Z)) : M kstate (option Z) :=
  o ← exec_push pgdir argv 0 sz [];
  match o with
  | None => mret None
  | Some (argc, sp, ptrs) =>
      let argc := Z.of_nat argc in
      let ustack := [4294967295; argc; u32 (sp - (argc + 1) * 4)] ++ ptrs ++ [0] in
      let sp := u32 (sp - (3 + argc + 1) * 4) in
      r ← copyout pgdir sp (ustack ≫= le32);
      if bool_decide (r < 0) then mret None else mret (Some sp)
  end.
(** The stack pages and their contents: the new [sz] and [sp], or [None]. *)
Definition exec_stack (pgdir sz : Z) (argv : list (list Z)) : M kstate (option (Z * Z)) :=
  let sz := PGROUNDUP sz in
  sz ← allocuvm pgdir sz (u32 (sz + 2 * PGSIZE));
  if bool_decide (sz = 0) then mret None
  else
    clearpteu pgdir (u32 (sz - 2 * PGSIZE));;
    o ← exec_ustack pgdir sz argv;
    mret ((λ sp, (sz, sp)) <$> o).

(** [for(last=s=path; *s; s++) if( *s == '/') last = s+1;] *)
Fixpoint exec_last (s last : list Z) : list Z :=
  match s with
  | [] => last
  | c :: s' => exec_last s' (if bool_decide (c = slash) then s' else last)
  end.

(** [exec] from the read of the ELF header on, with the inode [ip] of the
    program locked. *)
Definition exec_locked (path : list Z) (argv : list (list Z)) (ip : nat) : M sstate (option image) :=
  '(r, b) ← on_fs (readi ip 0 sizeof_elfhdr);
  if bool_decide (r ≠ sizeof_elfhdr) then exec_bad 0 (Some ip)
  else
    let elf := elfhdr_of b in
    if bool_decide (elf_magic elf ≠ ELF_MAGIC) then exec_bad 0 (Some ip)
    else
      pgdir ← on_kmem setupkvm;
      if bool_decide (pgdir = 0) then exec_bad 0 (Some ip)
      else
        o ← exec_load (Z.to_nat (elf_phnum elf)) pgdir ip (i32 (elf_phoff elf)) 0;
        match o with
        | None => exec_bad pgdir (Some ip)
        | Some sz =>
            on_fs (iunlockput ip);;
            end_trans;;
            o ← on_kmem (exec_stack pgdir sz argv);
            match o with
            | None => exec_bad pgdir None
            | Some (sz, sp) => mret (Some (Image pgdir sz (elf_entry elf) sp (exec_last path path)))
            end
        end.
(** [exec] without the changes of [struct proc]: [None] is the result -1. *)
Definition exec_image (path : list Z) (argv : list (list Z)) : M sstate (option image) :=
  begin_trans;;
  o ← on_fs (namei path);
  match o with
  | None => end_trans;; cprintf ("exec: fail" +:+ String (Ascii.ascii_of_nat 10) EmptyString) [];; mret None
  | Some ip => on_fs (ilock (Some ip));; exec_locked path argv ip
  end.

(** The loop of [sys_exec] from [argv[i]] on, with [n] entries of the array
    left: the strings before the null pointer. *)
Fixpoint exec_argv (n : nat) (uargv i : Z) : M sstate (option (list (list Z))) :=
  match n with
  | O => mret None
  | S n' =>
      o ← fetchint (u32 (uargv + 4 * i));
      match o with
      | None => mret None
      | Some uarg =>
          let uarg := u32 uarg in
          if bool_decide (uarg = 0) then mret (Some [])
          else
            o ← fetchstr uarg;
            match o with
            | None => mret None
            | Some _ =>
                arg ← user_str uarg;
                rest ← exec_argv n' uargv (i + 1);
                mret ((λ l, arg :: l) <$> rest)
            end
      end
  end.
(** The arguments of [sys_exec]: path and argument strings. *)
Definition exec_args : M sstate (option (list Z * list (list Z))) :=
  o ← argstr 0;
  match o with
  | None => mret None
  | Some path =>
      o ← argint 1;
      match o with
      | None => mret None
      | Some uargv =>
          path ← user_str path;
          argv ← exec_argv MAXARG (u32 uargv) 0;
          mret ((λ l, (path, l)) <$> argv)
      end
  end.

End exec_c.
