(* ===== verification/ExecSpec.v ===== *)
(** The stack of a new program: [copyout] writes user memory through the page
    table, and the words and strings that [exec] puts on the stack are what
    the program's [main] finds. *)
From S2P Require Import Prelude Layout Bytes Spinlock Format Kalloc Vm VmSpec Exec.

Section user_memory.
Context {KI : KernelImage} {KO : KernelImageOk KI}.
Implicit Types (m : gmap Z (list Z)) (k : kstate) (l : list Z).

(** The space [d] from [k] to [k']: the same pages at the same addresses, and
    the pages of others as they were. *)
Record keeps k l k' (d : Z) : Prop := Keeps {
  kp_space : uspace k' l d;
  kp_map : same_map (pages k) (pages k') d;
  kp_owns u : owns (pages k') d u ↔ owns (pages k) d u;
  kp_others u : ¬ owns (pages k) d u → pages k' !! u = pages k !! u
}.
Lemma keeps_space_refl k l d : uspace k l d → keeps k l k d.
Proof. by split. Qed.
Lemma keeps_space_trans k l k1 k2 d : keeps k l k1 d → keeps k1 l k2 d → keeps k l k2 d.
Proof.
  intros [_ M1 O1 P1] [S2 M2 O2 P2]. split; [done|intros a Ha; by rewrite M2, M1|intros u; by rewrite O2|].
  intros u Hu. rewrite P2, P1; [done|done|by rewrite O1].
Qed.

(** Writing the frame of a user page. *)
Lemma uspace_write k l d va pg :
  uspace k l d → 0 ≤ va < KERNBASE → present (pages k) d va → length pg = 4096%nat → Forall byte pg →
  let k' := set_pages (<[frame (pages k) d va := pg]> (pages k)) k in
  keeps k l k' d ∧
  ∀ a, 0 ≤ a < KERNBASE → present (pages k) d a →
    ubyte (pages k') d a = if bool_decide (a / 4096 = va / 4096) then pg !! Z.to_nat (a mod 4096) else ubyte (pages k) d a.
Proof.
  intros [Hk Hv Hu] Hva Hp Hl Hb k'. destruct (uo_frame _ _ _ Hu va Hva Hp) as (Hfa & Hfl & Hft). set (f := frame (pages k) d va) in *.
  assert (f ≠ d) as Hfd by (intros E; apply Hft; by left).
  assert (same_map (pages k) (pages k') d) as Hx.
  { intros a Ha. apply xlate_frame; [by apply lookup_insert_ne|]. intros t Ht. apply lookup_insert_ne. intros E. apply Hft. right.
    exists (pdx a). split; [by apply pdx_lt|]. by rewrite E. }
  assert (∀ a, 0 ≤ a < KERNBASE → frame (pages k') d a = frame (pages k) d a) as Hfr.
  { intros a Ha. unfold frame. rewrite Hx by (unfold KERNBASE in *; lia). done. }
  assert (∀ a, 0 ≤ a < KERNBASE → present (pages k') d a → present (pages k) d a) as Hpr.
  { intros a Ha. unfold present. by rewrite Hx by (unfold KERNBASE in *; lia). }
  assert (∀ u, table_page (pages k') d u ↔ table_page (pages k) d u) as Htp.
  { intros u. unfold table_page, k'. cbn [pages set_pages]. setoid_rewrite tab_at_other; done. }
  split; [split; [split|done| |]|].
  - by apply kalloc_inv_page.
  - by apply vm_ok_other.
  - split.
    + intros a Ha Hpa. rewrite Hfr by done. destruct (uo_frame _ _ _ Hu a Ha (Hpr a Ha Hpa)) as (H1 & H2 & H3). split_and!; try done.
      intros [E|(i & Hi & Ht)]; apply H3; [by left|]. right. exists i. split; [done|]. simpl in Ht. by rewrite tab_at_other in Ht.
    + intros a a' Ha Ha' Hpa Hpa'. rewrite !Hfr by done. apply (uo_inj _ _ _ Hu); auto.
  - intros u. unfold owns. by rewrite Htp, (same_user_frames _ _ _ _ (same_map_user _ _ _ Hx)).
  - intros u Hno. apply lookup_insert_ne. intros <-. apply Hno. right. by exists va.
  - intros a Ha Hpa. unfold ubyte. rewrite Hfr by done. case_bool_decide as E.
    + assert (frame (pages k) d a = f) as ->.
      { unfold f, frame. do 2 f_equal. apply xlate_page; [unfold KERNBASE in *; lia..|done]. }
      simpl. by rewrite lookup_insert_eq.
    + simpl. rewrite lookup_insert_ne; [done|]. intros Ef. apply E. symmetry. apply (uo_inj _ _ _ Hu); done.
Qed.

Lemma uva2ka_run k l d va :
  uspace k l d → 0 ≤ va < KERNBASE → user_page (pages k) d va → uva2ka d va k = Ret (frame (pages k) d va) k [].
Proof.
  intros [Hk Hv Hu] Hva [Hp HU]. unfold uva2ka. mstep (walk_noalloc k l d va Hk Hv). unfold present in Hp.
  destruct (tab_at (pages k) d (pdx va)) as [t|] eqn:Ht; [|unfold xlate in Hp; by rewrite Ht in Hp].
  assert (0 ≤ va < 4294967296) as Hva' by (unfold KERNBASE in *; lia).
  destruct (set_pte k l d va t 0 Hk Hv Hva' Ht) as (pg & _ & Hw & _).
  cbn [fmap option_fmap option_map deref]. rewrite bind_mret. cbn [fst snd]. mstep Hw. rewrite Hp, HU. done.
Qed.

Lemma frame_page k l d va :
  uspace k l d → 0 ≤ va < KERNBASE → present (pages k) d va →
  frame (pages k) d va ≠ 0 ∧ ∃ pg, pages k !! frame (pages k) d va = Some pg ∧ length pg = 4096%nat ∧ Forall byte pg.
Proof.
  intros [Hk Hv Hu] Hva Hp. destruct (uo_frame _ _ _ Hu va Hva Hp) as (Hfa & _ & _). split.
  - destruct Hfa as (_ & H1 & _). pose proof kdata_above. pose proof kend_above. unfold KERNLINK, KERNBASE, EXTMEM in *. lia.
  - destruct (ki_dom _ _ Hk _ Hfa) as [pg Hpg]. exists pg. split; [done|]. by apply (ki_pages _ _ Hk _ _ Hpg).
Qed.

(** [d]'s memory from [k] to [k']: the bytes [buf] at [va], nothing else. *)
Record stored k l k' (d va : Z) (buf : list Z) : Prop := Stored {
  sd_keeps : keeps k l k' d;
  sd_byte a : 0 ≤ a < KERNBASE → present (pages k) d a →
    ubyte (pages k') d a = if bool_decide (va ≤ a < va + Z.of_nat (length buf)) then buf !! Z.to_nat (a - va) else ubyte (pages k) d a
}.

Lemma same_map_page k k' d va : same_map (pages k) (pages k') d → 0 ≤ va < KERNBASE →
  (present (pages k') d va ↔ present (pages k) d va) ∧ (user_page (pages k') d va ↔ user_page (pages k) d va).
Proof. intros H Hva. unfold user_page, present. rewrite (H va) by (unfold KERNBASE in *; lia). done. Qed.

Lemma stored_app k l k1 k2 d va va1 b1 b2 :
  stored k l k1 d va b1 → va1 = va + Z.of_nat (length b1) → stored k1 l k2 d va1 b2 → stored k l k2 d va (b1 ++ b2).
Proof.
  intros [H1 H3] -> [H5 H6]. split; [by eapply keeps_space_trans|]. intros a Ha Hp.
  rewrite H6; [|done|by apply (proj1 (same_map_page _ _ _ _ (kp_map _ _ _ _ H1) Ha))]. rewrite H3, length_app by done. repeat case_bool_decide; try lia.
  - rewrite lookup_app_r by lia. f_equal. lia.
  - by rewrite lookup_app_l by lia.
  - done.
Qed.

(** The part of the buffer that goes to one page. *)
Lemma stored_page k l d va buf pg :
  uspace k l d → 0 ≤ va < KERNBASE → present (pages k) d va → pages k !! frame (pages k) d va = Some pg →
  Forall byte buf → va mod 4096 + Z.of_nat (length buf) ≤ 4096 →
  stored k l (set_pages (<[frame (pages k) d va := splice pg (Z.to_nat (va mod 4096)) buf]> (pages k)) k) d va buf.
Proof.
  intros Hs Hva Hp Hpg Hb Hn. destruct (frame_page k l d va Hs Hva Hp) as (_ & pg' & Hpg' & Hl & Hby).
  rewrite Hpg in Hpg'. injection Hpg' as <-. pose proof (Z.mod_pos_bound va 4096 ltac:(lia)) as Hm.
  destruct (uspace_write k l d va (splice pg (Z.to_nat (va mod 4096)) buf) Hs Hva Hp) as (H1 & H3).
  - by rewrite length_splice by lia.
  - by apply Forall_splice.
  - split; [done|]. intros a Ha Hpa. rewrite H3 by done. pose proof (Z.mod_pos_bound a 4096 ltac:(lia)) as Hma.
    case_bool_decide as E.
    + rewrite lookup_splice by lia. rewrite (bool_decide_ext _ (va ≤ a < va + Z.of_nat (length buf))) by (Z.div_mod_to_equations; lia).
      case_bool_decide; [f_equal; Z.div_mod_to_equations; lia|]. unfold ubyte.
      assert (frame (pages k) d a = frame (pages k) d va) as ->.
      { unfold frame. do 2 f_equal. apply xlate_page; [unfold KERNBASE in *; lia..|done]. }
      by rewrite Hpg.
    + rewrite bool_decide_false; [done|]. intros [H4 H5]. apply E. Z.div_mod_to_equations. lia.
Qed.

Lemma stored_nil k l d va : uspace k l d → stored k l k d va [].
Proof. intros H. split; [by apply keeps_space_refl|]. intros a Ha Hp. rewrite bool_decide_false by (simpl; lia). done. Qed.

(** One page of [copyout]. *)
Definition page_part (va : Z) (buf : list Z) : nat := Z.to_nat (Z.min (4096 - va mod 4096) (Z.of_nat (length buf))).
Lemma page_start va : 0 ≤ va < KERNBASE → PGROUNDDOWN va = va - va mod 4096 ∧ 0 ≤ va - va mod 4096 < KERNBASE ∧ (va - va mod 4096) / 4096 = va / 4096.
Proof. intros H. unfold KERNBASE in *. rewrite PGROUNDDOWN_spec by lia. split_and!; Z.div_mod_to_equations; lia. Qed.

Lemma copyout_step fuel k l d va buf :
  uspace k l d → 0 ≤ va → va + Z.of_nat (length buf) ≤ KERNBASE → Forall byte buf → user_page (pages k) d va → buf ≠ [] →
  let n := page_part va buf in
  ∃ k1, copyout_loop (S fuel) d va buf k = copyout_loop fuel d (u32 (va - va mod 4096 + 4096)) (drop n buf) k1 ∧ stored k l k1 d va (take n buf).
Proof.
  intros Hs Hva Hmax Hb Hup Hne n. cbn [copyout_loop]. assert (0 < Z.of_nat (length buf)) as Hpos by (destruct buf; [done|simpl; lia]).
  rewrite bool_decide_true by done. pose proof (Z.mod_pos_bound va 4096 ltac:(lia)) as Hm. assert (0 ≤ va < KERNBASE) as Hvk by lia.
  destruct (page_start va Hvk) as (-> & Hs0 & Epg). set (va0 := va - va mod 4096) in *. assert (va - va0 = va mod 4096) as Eo by (unfold va0; lia).
  assert (xlate (pages k) d va0 = xlate (pages k) d va) as Ex by (apply xlate_page; unfold KERNBASE in *; lia).
  assert (user_page (pages k) d va0) as Hup0 by (unfold user_page, present in *; by rewrite Ex).
  mstep (uva2ka_run k l d va0 Hs Hs0 Hup0). unfold frame. rewrite Ex. fold (frame (pages k) d va). rewrite Eo.
  destruct (frame_page k l d va Hs Hvk (proj1 Hup)) as (Hf0 & pg & Hpgk & Hlen & Hby).
  rewrite (bool_decide_false (frame _ _ _ = 0)) by done. change (Z.to_nat (Z.min (PGSIZE - va mod 4096) (Z.of_nat (length buf)))) with n.
  assert (length (take n buf) = n) as Hlt by (rewrite length_take; unfold n, page_part; lia).
  pose proof (stored_page k l d va (take n buf) pg Hs Hvk (proj1 Hup) Hpgk (Forall_take _ _ _ Hb) ltac:(unfold n, page_part in *; lia)) as Hst.
  mstep (page_get_run k _ pg Hpgk). mstep (page_set_run k _ pg (splice pg (Z.to_nat (va mod 4096)) (take n buf)) Hpgk). eexists. split; [reflexivity|exact Hst].
Qed.
(** The rest of the buffer starts at the next page. *)
Lemma next_part va buf :
  0 ≤ va → va + Z.of_nat (length buf) ≤ KERNBASE → (page_part va buf < length buf)%nat → u32 (va - va mod 4096 + 4096) = va + Z.of_nat (page_part va buf).
Proof. intros Hva Hmax Hn. unfold page_part, KERNBASE in *. pose proof (Z.mod_pos_bound va 4096 ltac:(lia)). rewrite u32_small by lia. lia. Qed.
Lemma page_part_pos va buf : buf ≠ [] → (0 < page_part va buf ≤ length buf)%nat.
Proof. intros Hne. unfold page_part. pose proof (Z.mod_pos_bound va 4096 ltac:(lia)). assert (0 < length buf)%nat by (destruct buf; [done|simpl; lia]). lia. Qed.

(** [copyout] of a buffer into accessible pages. *)
Lemma copyout_loop_spec fuel k l d va buf :
  uspace k l d → 0 ≤ va → va + Z.of_nat (length buf) ≤ KERNBASE → Forall byte buf →
  (∀ a, va ≤ a < va + Z.of_nat (length buf) → user_page (pages k) d a) → (length buf < fuel)%nat →
  ∃ k', copyout_loop fuel d va buf k = Ret 0 k' [] ∧ stored k l k' d va buf.
Proof.
  revert k va buf. induction fuel as [|fuel IH]; intros k va buf Hs Hva Hmax Hb Hpg Hf; [lia|].
  destruct (decide (buf = [])) as [->|Hne]; [exists k; split; [done|by apply stored_nil]|]. pose proof (page_part_pos va buf Hne) as Hn.
  destruct (copyout_step fuel k l d va buf Hs Hva Hmax Hb ltac:(apply Hpg; lia) Hne) as (k1 & -> & Hst). set (n := page_part va buf) in *.
  destruct (decide (n = length buf)) as [En|En].
  - rewrite drop_ge by lia. rewrite take_ge in Hst by lia. exists k1. split; [|done]. destruct fuel; [lia|]. done.
  - rewrite (next_part va buf) by (done || (unfold n in *; lia)). fold n.
    destruct (IH k1 (va + Z.of_nat n) (drop n buf)) as (k2 & R2 & Hst2); rewrite ?length_drop; try lia.
    + apply (sd_keeps _ _ _ _ _ _ Hst).
    + by apply Forall_drop.
    + intros a Ha. apply (proj2 (same_map_page k k1 d a (kp_map _ _ _ _ (sd_keeps _ _ _ _ _ _ Hst)) ltac:(lia))). apply Hpg. lia.
    + exists k2. split; [done|]. rewrite <- (take_drop n buf). eapply (stored_app _ _ k1 _ _ _ (va + Z.of_nat n)); [exact Hst| |done]. rewrite length_take. lia.
Qed.

(** [copyout] into pages that are present, accessible or not. *)
Lemma copyout_loop_any fuel k l d va buf :
  uspace k l d → 0 ≤ va → va + Z.of_nat (length buf) ≤ KERNBASE → Forall byte buf →
  (∀ a, va ≤ a < va + Z.of_nat (length buf) → present (pages k) d a) → (length buf < fuel)%nat →
  ∃ r k', copyout_loop fuel d va buf k = Ret r k' [] ∧ keeps k l k' d.
Proof.
  revert k va buf. induction fuel as [|fuel IH]; intros k va buf Hs Hva Hmax Hb Hpg Hf; [lia|].
  destruct (decide (buf = [])) as [->|Hne]; [exists 0, k; split; [done|by apply keeps_space_refl]|]. pose proof (page_part_pos va buf Hne) as Hn.
  assert (0 ≤ va < KERNBASE ∧ present (pages k) d va) as [Hvk Hp] by (split; [lia|apply Hpg; lia]).
  destruct (has PTE_U (xlate (pages k) d va)) eqn:HU; cycle 1.
  { exists (-1), k. split; [|by apply keeps_space_refl]. cbn [copyout_loop]. rewrite bool_decide_true by lia. destruct (page_start va Hvk) as (-> & Hs0 & Epg).
    set (va0 := va - va mod 4096) in *. assert (xlate (pages k) d va0 = xlate (pages k) d va) as Ex by (apply xlate_page; unfold KERNBASE in *; lia).
    destruct (walk_present k l d va0 Hs Hs0) as (t & E1 & E2); [unfold present; by rewrite Ex|]. unfold present in Hp.
    assert (uva2ka d va0 k = Ret 0 k []) as R; [|by mstep R]. unfold uva2ka. mstep E1. cbn [deref]. rewrite bind_mret. cbn [fst snd]. mstep E2. by rewrite Ex, Hp, HU. }
  destruct (copyout_step fuel k l d va buf Hs Hva Hmax Hb (conj Hp HU) Hne) as (k1 & -> & Hst). set (n := page_part va buf) in *.
  pose proof (sd_keeps _ _ _ _ _ _ Hst) as Hk1. destruct (decide (n = length buf)) as [En|En].
  - rewrite drop_ge by lia. exists 0, k1. split; [|done]. destruct fuel; [lia|]. done.
  - rewrite (next_part va buf) by (done || (unfold n in *; lia)). fold n.
    destruct (IH k1 (va + Z.of_nat n) (drop n buf)) as (r & k2 & R2 & Hst2); rewrite ?length_drop; try lia.
    + apply Hk1.
    + by apply Forall_drop.
    + intros a Ha. apply (proj1 (same_map_page k k1 d a (kp_map _ _ _ _ Hk1) ltac:(lia))). apply Hpg. lia.
    + exists r, k2. split; [done|]. by eapply keeps_space_trans.
Qed.

Lemma copyout_spec k l d va buf :
  uspace k l d → 0 ≤ va → va + Z.of_nat (length buf) ≤ KERNBASE → Forall byte buf →
  (∀ a, va ≤ a < va + Z.of_nat (length buf) → user_page (pages k) d a) →
  ∃ k', copyout d va buf k = Ret 0 k' [] ∧ stored k l k' d va buf.
Proof. intros. apply copyout_loop_spec; try done. lia. Qed.

(** * The arguments of a program *)

Definition uword m (d va w : Z) : Prop := ∀ i, (i < 4)%nat → ubyte m d (va + Z.of_nat i) = le32 w !! i.
(** The string [s] with its NUL at [va]. *)
Definition ustr m (d va : Z) (s : list Z) : Prop := ∀ i, (i ≤ length s)%nat → ubyte m d (va + Z.of_nat i) = (s ++ [0]) !! i.
(** The bytes of memory outside [lo, hi) are the same. *)
Definition outside k k' (d lo hi : Z) : Prop :=
  ∀ a, 0 ≤ a < KERNBASE → present (pages k) d a → a < lo ∨ hi ≤ a → ubyte (pages k') d a = ubyte (pages k) d a.
(** Room for strings, with the alignment of each. *)
Fixpoint room (argv : list (list Z)) : Z :=
  match argv with [] => 0 | arg :: argv' => Z.of_nat (length arg) + 4 + room argv' end.

Lemma room_nonneg argv : 0 ≤ room argv.
Proof. induction argv; simpl; lia. Qed.

Lemma stored_outside k l k' d va buf : stored k l k' d va buf → outside k k' d va (va + Z.of_nat (length buf)).
Proof. intros [_ H] a Ha Hp Ho. rewrite H by done. by rewrite bool_decide_false by lia. Qed.
Lemma outside_mono k k' d lo hi lo' hi' : outside k k' d lo hi → lo' ≤ lo → hi ≤ hi' → outside k k' d lo' hi'.
Proof. intros H ?? a Ha Hp Ho. apply H; [done|done|lia]. Qed.
Lemma outside_trans k k1 k2 d lo hi :
  same_map (pages k) (pages k1) d → outside k k1 d lo hi → outside k1 k2 d lo hi → outside k k2 d lo hi.
Proof. intros Hm H1 H2 a Ha Hp Ho. rewrite H2; [by apply H1|done|by apply (proj1 (same_map_page _ _ _ _ Hm Ha))|done]. Qed.
Lemma stored_ustr k l k' d va s :
  stored k l k' d va (s ++ [0]) → 0 ≤ va → va + Z.of_nat (length s) < KERNBASE →
  (∀ a, va ≤ a ≤ va + Z.of_nat (length s) → present (pages k) d a) → ustr (pages k') d va s.
Proof.
  intros [_ H] H0 H1 Hp i Hi. rewrite H by (try apply Hp; lia). rewrite length_app. simpl.
  rewrite bool_decide_true by lia. f_equal. lia.
Qed.
Lemma ustr_outside k k' d va s lo hi :
  ustr (pages k) d va s → outside k k' d lo hi → 0 ≤ va → va + Z.of_nat (length s) < KERNBASE → hi ≤ va →
  (∀ a, va ≤ a ≤ va + Z.of_nat (length s) → present (pages k) d a) → ustr (pages k') d va s.
Proof. intros H Ho ??? Hp i Hi. rewrite Ho by (try apply Hp; lia). by apply H. Qed.

(** Pushing the strings, from the one at [argc] on. *)
Lemma exec_push_spec argv k l d argc sp us :
  uspace k l d → room argv ≤ sp → sp ≤ KERNBASE → sp mod 4 = 0 → (∀ a, sp - room argv ≤ a < sp → user_page (pages k) d a) →
  Forall (Forall byte) argv → (argc + length argv ≤ MAXARG)%nat →
  ∃ k' sp' ptrs, exec_push d argv argc sp us k = Ret (Some ((argc + length argv)%nat, sp', us ++ ptrs)) k' [] ∧
    keeps k l k' d ∧ outside k k' d sp' sp ∧
    sp - room argv ≤ sp' ≤ sp ∧ sp' mod 4 = 0 ∧
    Forall2 (λ p arg, sp' ≤ p ∧ p + Z.of_nat (length arg) < sp ∧ ustr (pages k') d p arg) ptrs argv.
Proof.
  revert k argc sp us. induction argv as [|arg argv IH]; intros k argc sp us Hs Hr Hsp Hal Hpg Hby Hn; cbn [exec_push room length] in *.
  { exists k, sp, []. rewrite Nat.add_0_r, app_nil_r. split_and!; try done; try lia; by apply keeps_space_refl. }
  pose proof (room_nonneg argv). rewrite bool_decide_false by lia. unfold KERNBASE in *. rewrite u32_small by lia. rewrite land_word_mask by lia.
  set (sp1 := sp - (Z.of_nat (length arg) + 1) - (sp - (Z.of_nat (length arg) + 1)) mod 4).
  assert (sp1 mod 4 = 0 ∧ sp - Z.of_nat (length arg) - 4 ≤ sp1 ∧ sp1 + Z.of_nat (length arg) + 1 ≤ sp) as (Hal1 & Hlo & Hhi)
    by (unfold sp1; Z.div_mod_to_equations; lia).
  apply Forall_cons in Hby as [Hb Hby].
  destruct (copyout_spec k l d sp1 (arg ++ [0])) as (k1 & R1 & Hst); unfold KERNBASE.
  { done. } { lia. } { rewrite length_app. simpl. lia. } { apply Forall_app. split; [done|]. repeat constructor; unfold byte; lia. }
  { intros a Ha. rewrite length_app in Ha. simpl in Ha. apply Hpg. lia. }
  mstep R1. rewrite (bool_decide_false (0 < 0)) by lia. pose proof (sd_keeps _ _ _ _ _ _ Hst) as Hk1. pose proof Hk1 as [Hs1 Hm1 _ _].
  assert (∀ a, 0 ≤ a < KERNBASE → user_page (pages k) d a → user_page (pages k1) d a) as Hup
    by (intros a Ha; apply (proj2 (same_map_page k k1 d a Hm1 Ha))).
  destruct (IH k1 (S argc) sp1 (us ++ [sp1])) as (k2 & sp2 & ptrs & R2 & Hk2 & Ho2 & Hr2 & Hal2 & Hptr); try done; try lia.
  { intros a Ha. apply Hup; [unfold KERNBASE; lia|]. apply Hpg. lia. }
  exists k2, sp2, (sp1 :: ptrs). rewrite <- Nat.add_succ_comm. split_and!; try done; try lia.
  - rewrite R2. by rewrite <- (assoc_L (++)).
  - by eapply keeps_space_trans.
  - eapply outside_trans; [exact Hm1| |eapply outside_mono; [exact Ho2|lia|lia]].
    eapply outside_mono; [by eapply stored_outside|lia|rewrite length_app; simpl; lia].
  - constructor.
    + split_and!; [lia|lia|]. assert (∀ a, sp1 ≤ a ≤ sp1 + Z.of_nat (length arg) → user_page (pages k) d a) as Hpa by (intros a Ha; apply Hpg; lia).
      eapply (ustr_outside k1 k2); [eapply stored_ustr; [exact Hst|..]|exact Ho2|..]; unfold KERNBASE; try lia.
      * intros a Ha. by apply Hpa.
      * intros a Ha. apply Hup; [unfold KERNBASE; lia|by apply Hpa].
    + eapply Forall2_impl; [exact Hptr|]. simpl. intros p s (H1 & H2 & H3). split_and!; [lia|lia|done].
Qed.

Lemma lookup_le32s A j i x : A !! j = Some x → (i < 4)%nat → (A ≫= le32) !! (4 * j + i)%nat = le32 x !! i.
Proof.
  intros H Hi. rewrite <- (slice_le32s A j x H). rewrite lookup_slice. by rewrite bool_decide_true.
Qed.
Lemma Forall_le32s A : Forall byte (A ≫= le32).
Proof. induction A as [|x A IH]; [constructor|]. cbn [mbind list_bind]. apply Forall_app. split; [apply le32_bytes|done]. Qed.

Lemma stored_uword k l k' d va A j x :
  stored k l k' d va (A ≫= le32) → A !! j = Some x → 0 ≤ va → va + 4 * Z.of_nat (length A) ≤ KERNBASE →
  (∀ a, va ≤ a < va + 4 * Z.of_nat (length A) → present (pages k) d a) → uword (pages k') d (va + 4 * Z.of_nat j) x.
Proof.
  intros [_ H] Hj H0 H1 Hp i Hi. pose proof (lookup_lt_Some _ _ _ Hj) as Hl. rewrite H by (try apply Hp; lia).
  rewrite length_le32s. rewrite bool_decide_true by lia. rewrite <- (lookup_le32s A j i x Hj Hi). f_equal. lia.
Qed.

(** What [main] of a program finds on a stack that ends at [top]: at [sp] the
    fake return address, [argc] and [argv], which points to the word after,
    where an array of [argc] pointers and a null pointer starts; the [i]-th
    pointer is to the [i]-th argument string with its NUL. *)
Record stack_has m (d sp top : Z) (argv : list (list Z)) (ptrs : list Z) : Prop := StackHas {
  sk_room : sp + 16 + 4 * Z.of_nat (length argv) ≤ top;
  sk_ret : uword m d sp 4294967295;
  sk_argc : uword m d (sp + 4) (Z.of_nat (length argv));
  sk_argv : uword m d (sp + 8) (sp + 12);
  sk_len : length ptrs = length argv;
  sk_args i p arg : ptrs !! i = Some p → argv !! i = Some arg →
    uword m d (sp + 12 + 4 * Z.of_nat i) p ∧ ustr m d p arg ∧ sp ≤ p ∧ p + Z.of_nat (length arg) < top;
  sk_null : uword m d (sp + 12 + 4 * Z.of_nat (length argv)) 0
}.
(** It is a matter of the bytes from [sp] on. *)
Lemma stack_has_same m m' d sp top argv ptrs :
  stack_has m d sp top argv ptrs → (∀ a, sp ≤ a < top → ubyte m' d a = ubyte m d a) → stack_has m' d sp top argv ptrs.
Proof.
  intros [R1 R2 R3 R4 R5 R6 R7] H.
  assert (∀ va w, sp ≤ va → va + 4 ≤ top → uword m d va w → uword m' d va w) as Hw by (intros va w H1 H2 Hu x Hx; rewrite H by lia; by apply Hu).
  split; [done|apply Hw; [lia|lia|done]..|done| |apply Hw; [lia|lia|done]].
  intros x p arg Hp Ha. destruct (R6 x p arg Hp Ha) as (Q1 & Q2 & Q3 & Q4). pose proof (lookup_lt_Some _ _ _ Ha).
  split_and!; [apply Hw; [lia|lia|done]| |done|done]. intros y Hy. rewrite H by lia. by apply Q2.
Qed.

(** For a stack page below [sz] that the arguments fit into, [exec] succeeds
    in laying them out, with an aligned [sp] inside the page.  The memory
    below the page and the page table are as before. *)
Theorem exec_stack_layout k l d sz argv :
  uspace k l d → 4096 ≤ sz ≤ KERNBASE → sz mod 4 = 0 → (∀ a, sz - 4096 ≤ a < sz → user_page (pages k) d a) →
  Forall (Forall byte) argv → (length argv ≤ MAXARG)%nat → room argv + 4 * (4 + Z.of_nat (length argv)) ≤ 4096 →
  ∃ k' sp ptrs, exec_ustack d sz argv k = Ret (Some sp) k' [] ∧ keeps k l k' d ∧
    sz - 4096 ≤ sp < sz ∧ sp mod 4 = 0 ∧ outside k k' d (sz - 4096) sz ∧ stack_has (pages k') d sp sz argv ptrs.
Proof.
  intros Hs Hsz Hal Hpg Hb Hn Hroom. set (argc := Z.of_nat (length argv)). pose proof (room_nonneg argv) as Hr0. unfold KERNBASE in Hsz.
  destruct (exec_push_spec argv k l d 0 sz []) as (k1 & sp1 & ptrs & R1 & Hk1 & Ho1 & Hr1 & Hal1 & Hptr); unfold KERNBASE; try done; try lia.
  { intros a Ha. apply Hpg. lia. }
  pose proof Hk1 as [Hs1 Hm1 _ _]. pose proof (Forall2_length _ _ _ Hptr) as Hlp. unfold exec_ustack. mstep R1. cbn [Nat.add app]. fold argc.
  rewrite (u32_small (sp1 - (argc + 1) * 4)), (u32_small (sp1 - (3 + argc + 1) * 4)) by lia. set (sp := sp1 - (3 + argc + 1) * 4).
  set (us := [4294967295; argc; sp1 - (argc + 1) * 4] ++ ptrs ++ [0]).
  assert (length us = (4 + length argv)%nat) as Hlus by (unfold us; rewrite !length_app; simpl; lia).
  destruct (copyout_spec k1 l d sp (us ≫= le32)) as (k2 & R2 & Hst); unfold KERNBASE; rewrite ?length_le32s, ?Hlus; try done; try lia.
  { apply Forall_le32s. }
  { intros a Ha. apply (proj2 (same_map_page k k1 d a Hm1 ltac:(unfold KERNBASE; lia))). apply Hpg. lia. }
  mstep R2. rewrite (bool_decide_false (0 < 0)) by lia. exists k2, sp, ptrs.
  assert (∀ j x, us !! j = Some x → uword (pages k2) d (sp + 4 * Z.of_nat j) x) as Hw.
  { intros j x Hj. eapply stored_uword; [exact Hst|done|lia|unfold KERNBASE; lia|]. intros a Ha.
    apply (proj1 (same_map_page k k1 d a Hm1 ltac:(unfold KERNBASE; lia))). apply Hpg. lia. }
  split_and!; [done|eapply keeps_space_trans; [done|apply (sd_keeps _ _ _ _ _ _ Hst)]|lia|lia|..|split; [| | | |done| |]].
  - unfold sp. Z.div_mod_to_equations. lia.
  - eapply outside_trans; [exact Hm1|eapply outside_mono; [exact Ho1|lia|lia]|].
    eapply outside_mono; [by eapply stored_outside|lia|rewrite length_le32s; lia].
  - unfold sp, argc in *. lia.
  - replace sp with (sp + 4 * Z.of_nat 0) by lia. by apply Hw.
  - by apply (Hw 1%nat).
  - replace (sp + 12) with (sp1 - (argc + 1) * 4) by lia. by apply (Hw 2%nat).
  - intros i p arg Hp Harg. destruct (Forall2_lookup_lr _ _ _ _ _ _ Hptr Hp Harg) as (H1 & H2 & H3).
    split_and!; [replace (sp + 12 + 4 * Z.of_nat i) with (sp + 4 * Z.of_nat (3 + i)) by lia; apply Hw| |unfold sp; lia|done].
    + unfold us. rewrite lookup_app_r by (simpl; lia). cbn [length]. replace (3 + i - 3)%nat with i by lia.
      rewrite lookup_app_l; [done|]. by eapply lookup_lt_Some.
    + eapply (ustr_outside k1 k2); [done|by eapply stored_outside|lia|unfold KERNBASE; lia|rewrite length_le32s; lia|].
      intros a Ha. apply (proj1 (same_map_page k k1 d a Hm1 ltac:(unfold KERNBASE; lia))). apply Hpg. lia.
  - replace (sp + 12 + 4 * Z.of_nat (length argv)) with (sp + 4 * Z.of_nat (3 + length argv)) by lia. apply (Hw (3 + length argv)%nat).
    unfold us. rewrite lookup_app_r by (simpl; lia). rewrite lookup_app_r by (simpl; lia).
    replace (_ - _ - _)%nat with O by (simpl; lia). done.
Qed.
End user_memory.

(** * A process with one page *)

Definition mini_base : Z := KERNBASE + PHYSTOP - 12288.
Definition mini_image : KernelImage := {| kdata := mini_base; kend := mini_base |}.
Lemma mini_image_ok : KernelImageOk mini_image.
Proof. split; simpl; unfold mini_base, KERNLINK, KERNBASE, PHYSTOP, EXTMEM; done. Qed.
(** A directory, its only table, and the page at user address 0. *)
Definition mini_state : kstate :=
  KState false false 0
    (<[mini_base := set_word 0 (V2P (mini_base + 4096) + 7) zero_page]>
      (<[mini_base + 4096 := set_word 0 (V2P (mini_base + 8192) + 7) zero_page]> (<[mini_base + 8192 := zero_page]> ∅))).

Lemma mini_page u :
  pages mini_state !! u = if decide (u = mini_base) then Some (set_word 0 (V2P (mini_base + 4096) + 7) zero_page)
    else if decide (u = mini_base + 4096) then Some (set_word 0 (V2P (mini_base + 8192) + 7) zero_page)
    else if decide (u = mini_base + 8192) then Some zero_page else None.
Proof.
  unfold mini_state. cbn [pages]. destruct (decide (u = mini_base)) as [->|]; [by rewrite lookup_insert_eq|rewrite lookup_insert_ne by done].
  destruct (decide (u = mini_base + 4096)) as [->|]; [by rewrite lookup_insert_eq|rewrite lookup_insert_ne by done].
  destruct (decide (u = mini_base + 8192)) as [->|]; [by rewrite lookup_insert_eq|by rewrite lookup_insert_ne by done].
Qed.

Lemma mini_word x i : word (set_word 0 x zero_page) i = if decide (i = 0%nat) then u32 x else 0.
Proof.
  rewrite word_set_word by (rewrite (proj1 zero_page_ok); lia). destruct (decide (i = 0%nat)); [by rewrite bool_decide_true|].
  rewrite bool_decide_false by done. destruct (decide (i < 1024)%nat); [by apply word_zero|].
  unfold word, slice. rewrite drop_ge; [done|]. rewrite (proj1 zero_page_ok). lia.
Qed.

Lemma mini_tab i : tab_at (pages mini_state) mini_base i = if decide (i = 0%nat) then Some (mini_base + 4096) else None.
Proof.
  unfold tab_at, pde_at. rewrite mini_page, decide_True by done. rewrite mini_word. destruct (decide (i = 0%nat)); [by vm_compute|done].
Qed.

Lemma mini_xlate va : xlate (pages mini_state) mini_base va = if decide (pdx va = 0%nat ∧ ptx va = 0%nat) then V2P (mini_base + 8192) + 7 else 0.
Proof.
  unfold xlate. rewrite mini_tab. destruct (decide (pdx va = 0%nat)) as [E|E]; [|by rewrite decide_False by naive_solver].
  rewrite mini_page, decide_False, decide_True by (done || unfold mini_base; lia). rewrite mini_word.
  destruct (decide (ptx va = 0%nat)); [by rewrite decide_True by done|by rewrite decide_False by naive_solver].
Qed.

Lemma mini_space : uspace (KI := mini_image) mini_state [] mini_base.
Proof.
  assert (∀ v, allocatable (KI := mini_image) v → v = mini_base ∨ v = mini_base + 4096 ∨ v = mini_base + 8192) as Hall.
  { intros v (H1 & H2 & H3). simpl in H2. unfold mini_base, KERNBASE, PHYSTOP, PGSIZE in *. Z.div_mod_to_equations. lia. }
  assert (∀ o, o = 0 ∨ o = 4096 ∨ o = 8192 → allocatable (KI := mini_image) (mini_base + o)) as Hal.
  { intros o Ho. unfold allocatable. simpl. unfold mini_base, KERNBASE, PHYSTOP, PGSIZE. split_and!; [|lia|lia]. destruct Ho as [->|[-> | ->]]; done. }
  pose proof zero_page_ok as [Hz Hzb].
  split.
  - split; [done|constructor|constructor| |intros v Hv|done].
    + intros v pg. rewrite mini_page. repeat case_decide; try done; intros [= <-]; try done.
      all: split; [rewrite length_set_word; rewrite Hz; lia|by apply Forall_set_word].
    + rewrite mini_page. destruct (Hall v Hv) as [->|[-> | ->]]; repeat case_decide; eauto; unfold mini_base in *; lia.
  - split.
    + split; [|apply not_elem_of_nil]. replace mini_base with (mini_base + 0) by lia. apply Hal. lia.
    + intros i t _. rewrite mini_tab. case_decide; [|done]. intros [= <-]. split_and!; [apply Hal; lia|apply not_elem_of_nil|unfold mini_base; lia].
    + intros i j t _ _. rewrite !mini_tab. destruct (decide (i = 0%nat)), (decide (j = 0%nat)); [by subst|done..].
  - assert (∀ va, present (pages mini_state) mini_base va → pdx va = 0%nat ∧ ptx va = 0%nat ∧ frame (pages mini_state) mini_base va = mini_base + 8192) as Hp.
    { intros va. unfold present, frame. rewrite mini_xlate. case_decide as E; [|done]. intros _. destruct E. split_and!; [done|done|by vm_compute]. }
    split.
    + intros va _ (_ & _ & ->)%Hp. split_and!; [apply Hal; lia|apply not_elem_of_nil|]. intros [E|(i & _ & E)]; [unfold mini_base in E; lia|].
      rewrite mini_tab in E. case_decide; [|done]. injection E. unfold mini_base. lia.
    + intros va va' Hva Hva' (H1 & H2 & _)%Hp (H3 & H4 & _)%Hp _. apply same_page; [unfold KERNBASE in *; lia..|]. split; congruence.
Qed.

(** [exec] of "ls" with the argument "-l". *)
Example mini_ls :
  let argv := [str "ls"; str "-l"] in
  ∃ k' sp (ptrs : list Z), exec_ustack mini_base 4096 argv mini_state = Ret (Some sp) k' [] ∧ stack_has (pages k') mini_base sp 4096 argv ptrs.
Proof.
  intros argv.
  destruct (exec_stack_layout (KI := mini_image) (KO := mini_image_ok) mini_state [] mini_base 4096 argv mini_space)
    as (k' & sp & ptrs & R & _ & _ & _ & _ & Hst).
  - unfold KERNBASE. lia.
  - done.
  - intros a Ha. unfold user_page, present. rewrite mini_xlate, decide_True; [by vm_compute|].
    apply (same_page a 0); [lia|lia|]. Z.div_mod_to_equations. lia.
  - repeat constructor; unfold byte; simpl; lia.
  - unfold MAXARG. simpl. lia.
  - by vm_compute.
  - by exists k', sp, ptrs.
Qed.
