(* ===== verification/ExecLoad.v ===== *)
(** Loading a program (src/exec.c, [loaduvm] of src/vm.c): what a program file
    says the memory is to be, and that [exec] makes it so.  [load_file] reads
    the program headers of a file as the ELF format defines them and gives the
    size and the bytes of the memory; the code that reads the file page by
    page through the inode layer and stores it through the page table gives
    the same memory, or gives up with every page accounted for. *)
From S2P Require Import Prelude Layout Bytes Spinlock Sleeplock CString Format Kalloc Vm VmSpec Bio Log Console Fs FsSpec FsFile Directory File Args Sysfile Exec ExecSpec.

(** * What a program file describes *)

(** The bytes [b] laid over a memory at [va]. *)
Definition overlay (va : Z) (b : list Z) (B : Z → Z) (x : Z) : Z :=
  if bool_decide (va ≤ x < va + Z.of_nat (length b)) then default 0 (b !! Z.to_nat (x - va)) else B x.

(** A LOAD segment that can be loaded. *)
Definition segment_fits (C : list Z) (ph : proghdr) : bool :=
  bool_decide (ph_filesz ph ≤ ph_memsz ph ∧ ph_vaddr ph + ph_memsz ph < KERNBASE ∧ ph_vaddr ph mod PGSIZE = 0 ∧
    (ph_filesz ph = 0 ∨ ph_off ph + ph_filesz ph ≤ Z.of_nat (length C))).

(** The [n] program headers at [off] of the file [C], on top of a memory of
    [sz] bytes [B]. *)
Fixpoint load_file (C : list Z) (n : nat) (off sz : Z) (B : Z → Z) : option (Z * (Z → Z)) :=
  match n with
  | O => Some (sz, B)
  | S n' =>
      if bool_decide (u32 off + sizeof_proghdr ≤ Z.of_nat (length C)) then
        let ph := proghdr_of (slice C (Z.to_nat (u32 off)) (Z.to_nat sizeof_proghdr)) in
        let next := i32 (off + sizeof_proghdr) in
        if bool_decide (ph_type ph ≠ ELF_PROG_LOAD) then load_file C n' next sz B
        else
          let sz' := Z.max sz (ph_vaddr ph + ph_memsz ph) in
          if segment_fits C ph && bool_decide (sz' ≠ 0) then
            load_file C n' next sz' (overlay (ph_vaddr ph) (slice C (Z.to_nat (ph_off ph)) (Z.to_nat (ph_filesz ph))) B)
          else None
      else None
  end.

(** A program: its entry point, the size of its memory and its bytes. *)
Definition program (C : list Z) : option (Z * Z * (Z → Z)) :=
  let h := elfhdr_of (slice C 0 (Z.to_nat sizeof_elfhdr)) in
  if bool_decide (sizeof_elfhdr ≤ Z.of_nat (length C)) && bool_decide (elf_magic h = ELF_MAGIC) then
    '(sz, B) ← load_file C (Z.to_nat (elf_phnum h)) (i32 (elf_phoff h)) 0 (λ _, 0);
    if bool_decide (PGROUNDUP sz + 2 * PGSIZE < KERNBASE) then Some (elf_entry h, sz, B) else None
  else None.

(** * Generic steps *)

Lemma returns_zoom {S T A} (g : S → T) (p : T → S → S) (m : M T A) Q s :
  returns m (λ v x, Q v (p x s)) (g s) → returns (zoom g p m) Q s.
Proof. intros H. apply wp_zoom. exact H. Qed.

Lemma overlay_app va b1 b2 B x : overlay va (b1 ++ b2) B x = overlay (va + Z.of_nat (length b1)) b2 (overlay va b1 B) x.
Proof.
  unfold overlay. rewrite length_app. repeat case_bool_decide; try lia; try done.
  - rewrite lookup_app_r by lia. do 2 f_equal. lia.
  - by rewrite lookup_app_l by lia.
Qed.
Lemma overlay_nil va B x : overlay va [] B x = B x.
Proof. unfold overlay. rewrite bool_decide_false; [done|]. simpl. lia. Qed.

Lemma round_size sz : 0 ≤ sz < KERNBASE → PGROUNDUP sz mod 4096 = 0 ∧ sz ≤ PGROUNDUP sz < sz + 4096 ∧ PGROUNDUP sz ≤ KERNBASE.
Proof. intros H. unfold KERNBASE in *. destruct (PGROUNDUP_spec sz) as (E & H1 & H2); [lia|]. split_and!; [done|lia|lia|]. Z.div_mod_to_equations. lia. Qed.

Section images.
Context {KI : KernelImage} {KO : KernelImageOk KI}.
Context (l0 : list Z) (m0 : gmap Z (list Z)).
Implicit Types (k : kstate) (l : list Z) (B : Z → Z).

(** A program's page: the user may read and write it. *)
Definition user_rw : Z := Z.lor (Z.lor PTE_W PTE_U) PTE_P.
Definition image_want B (va : Z) : option (Z * option Z) := Some (user_rw, Some (B va)).
(** The space [d] holds the bytes [B] below [a], in pages of [l0]. *)
Definition holds B := built (.∈ l0) m0 (image_want B) kern_pte (.∈ l0).

Lemma built_want {T0 m1 want kern} want' {T k l d a} :
  built T0 m1 want kern T k l d a → (∀ va, 0 ≤ va < a → want' va = want va) → built T0 m1 want' kern T k l d a.
Proof.
  intros [H1 H2 H3 H4 H5 H6] Hw. split; try done. intros va Hva. specialize (H5 va Hva). case_bool_decide; [|done]. by rewrite Hw by lia.
Qed.
Lemma holds_ext B B' k l d a : holds B k l d a → (∀ va, 0 ≤ va < a → B' va = B va) → holds B' k l d a.
Proof. intros H HB. apply (built_want _ H). intros va Hva. unfold image_want. by rewrite HB. Qed.

Lemma holds_page B k l d a va : holds B k l d a → 0 ≤ va < KERNBASE → va < a →
  present (pages k) d va ∧ PTE_FLAGS (xlate (pages k) d va) = user_rw ∧ ubyte (pages k) d va = Some (B va).
Proof. intros H Hva Ha. pose proof (bu_user _ _ _ _ _ _ _ _ _ H va Hva) as Hs. rewrite bool_decide_true in Hs by done. exact Hs. Qed.

(** Storing bytes in one page. *)
Lemma holds_stored B k l k' d a va buf :
  holds B k l d a → stored k l k' d va buf → a ≤ KERNBASE → holds (overlay va buf B) k' l d a.
Proof.
  intros H [[S M O P] Hb] Ha. pose proof H as [H1 H2 H3 H4 H5 H6]. split; [done| |done| | |].
  - intros u. rewrite O. apply H2.
  - intros u Hu. rewrite P; [by apply H4|]. intros Ho. apply Hu. apply H2. by right.
  - intros x Hx. specialize (H5 x Hx). assert (xlate (pages k') d x = xlate (pages k) d x) as Ex by (apply M; unfold KERNBASE in *; lia).
    case_bool_decide; cycle 1.
    { unfold shows, present in *. by rewrite Ex. }
    destruct H5 as (Q1 & Q2 & Q3). unfold image_want, shows, present in *. rewrite Ex. split_and!; [done|done|].
    rewrite Hb by done. unfold overlay. case_bool_decide; [|done]. destruct (lookup_lt_is_Some_2 buf (Z.to_nat (x - va))) as [y Hy]; [lia|]. by rewrite Hy.
  - intros x Hx. rewrite M by (unfold KERNBASE in *; lia). by apply H6.
Qed.

(** Growing the space: new pages are zero. *)
Lemma holds_grown B k l k' l' d sz a' :
  holds B k l d (PGROUNDUP sz) → (∀ va, PGROUNDUP sz ≤ va → B va = 0) →
  built (grow_pages d k l) (pages k) (grow_want d sz k) (xlate (pages k) d) (grow_pages d k l) k' l' d a' → holds B k' l' d a'.
Proof.
  intros H HB [G1 G2 _ G4 G5 G6]. pose proof H as [H1 H2 H3 H4 H5 H6].
  assert (∀ u, grow_pages d k l u ↔ u ∈ l0) as HT by (intros u; symmetry; apply H2).
  split; [done| |done| | |].
  - intros u. rewrite <- HT. apply G2.
  - intros u Hu. rewrite G4; [by apply H4|]. by rewrite HT.
  - intros va Hva. specialize (G5 va Hva). case_bool_decide as E1; [|done]. unfold grow_want in G5. case_bool_decide as E2.
    + destruct (holds_page _ _ _ _ _ _ H Hva E2) as (Q1 & Q2 & Q3). unfold present in Q1. rewrite Q1, Q2, Q3 in G5. exact G5.
    + unfold image_want. rewrite HB by lia. exact G5.
  - intros va Hva. rewrite G6 by done. by apply H6.
Qed.

Lemma holds_alloc B k l d sz e :
  holds B k l d (PGROUNDUP sz) → 0 ≤ sz < KERNBASE → (∀ va, PGROUNDUP sz ≤ va → B va = 0) → 0 ≤ e →
  ∃ r k' l' out, allocuvm d sz e k = Ret r k' out ∧ dwrites out = [] ∧
    (e < KERNBASE ∧ r = Z.max sz e ∧ holds B k' l' d (PGROUNDUP (Z.max sz e)) ∨
     r = 0 ∧ (e < KERNBASE → short_of (.∈ l0) e) ∧ holds B k' l' d (PGROUNDUP sz)).
Proof.
  intros H Hsz HB He. destruct (decide (KERNBASE ≤ e)) as [Hk|Hk].
  { exists 0, k, l, []. unfold allocuvm. rewrite bool_decide_true by done. split_and!; [done|done|]. right. split_and!; [done|lia|done]. }
  destruct (decide (e < sz)) as [Hlt|Hge].
  { exists sz, k, l, []. unfold allocuvm. rewrite bool_decide_false, bool_decide_true by lia. split_and!; [done|done|]. left.
    rewrite Z.max_l by lia. split_and!; [lia|done|done]. }
  pose proof H as [H1 H2 H3 H4 H5 H6].
  destruct (allocuvm_run d sz e k l H1) as (r & k' & l' & out & R & Hr); [lia| |].
  { intros va Hva. specialize (H5 va). destruct (PGROUNDUP_spec sz) as (_ & _ & Hp); [unfold KERNBASE in *; lia|].
    specialize (H5 ltac:(lia)). rewrite bool_decide_false in H5 by lia. exact H5. }
  exists r, k', l', out. rewrite Z.max_r by lia. split; [exact R|]. destruct Hr as [(-> & -> & Hb)|(-> & Ho & Hb & Hsh)].
  - split; [done|]. left. split_and!; [lia|done|by eapply holds_grown].
  - split; [by destruct Ho as [-> | ->]|]. right. split_and!; [done| |by eapply holds_grown]. intros _.
    destruct Hsh as (O & HO & Hlen). exists O. split; [|done]. intros u Hu. apply HO. by apply H2.
Qed.

(** Nothing is mapped yet. *)
Lemma setupkvm_holds k :
  pages k = m0 → kalloc_inv k l0 →
  ∃ d k' l', setupkvm k = Ret d k' [] ∧
    (d = 0 ∧ kalloc_inv k' l' ∧ (∀ u, u ∈ l0 ↔ u ∈ l') ∧ (∀ u, u ∉ l0 → pages k' !! u = m0 !! u) ∧ short_of (.∈ l0) 0 ∨
     d ≠ 0 ∧ holds (λ _, 0) k' l' d (PGROUNDUP 0)).
Proof.
  intros Em Hk. destruct (setupkvm_run k l0 Hk) as (d & k' & l' & E & Hk' & Hkept & Hd). rewrite Em in Hkept.
  exists d, k', l'. split; [done|]. destruct Hd as [(-> & Hin & Hsh)|(Hd0 & Hs1 & Hacc1 & Hx1)]; [by left|right]. split; [done|].
  split; try done; intros va Hva; unfold KERNBASE in *.
  - change (PGROUNDUP 0) with 0. rewrite bool_decide_false by lia. unfold shows, present. rewrite Hx1 by lia.
    rewrite (kmap_pte_low KERNBASE) by (apply kmap_ok_kernel || (unfold KERNBASE; lia)). done.
  - apply Hx1. lia.
Qed.
End images.

(** * Reading the file into memory *)

Section load.
Context {KI : KernelImage} {KO : KernelImageOk KI}.
Context (l0 : list Z) (m0 : gmap Z (list Z)).
(** The state when the program's inode is locked, and the file. *)
Context (s0 : sstate) (ip : nat) (i : inode) (a : acache) (L m C : list Z).
Hypothesis Hview : fview (s_fs s0) ip i a L m.
Hypothesis HL : (length L < NBUF)%nat.
Hypothesis Htype : i_type i ≠ T_DEV.
Hypothesis Hfull : full (a_data a) (i_addrs i) (i_size i).
Hypothesis Hsize : 0 ≤ i_size i ≤ MAXFILE * BSIZE.
Hypothesis HC : contents a i = C.
Hypothesis Hbytes : Forall byte C.
Implicit Types (s : sstate) (B : Z → Z).

(** Only the log, the buffers and physical memory have changed, and physical
    memory holds [sz] bytes [B] for [d]. *)
Record at_load (d sz : Z) B s : Prop := AtLoad {
  al_rest : s = set_sfs (s_fs s) (set_skmem (s_kmem s) s0);
  al_log : only_log (s_fs s0) (s_fs s);
  al_rep : fsrep (s_fs s) a L;
  al_size : 0 ≤ sz < KERNBASE;
  al_mem : ∃ l, holds l0 m0 B (s_kmem s) l d (PGROUNDUP sz);
  al_zero va : PGROUNDUP sz ≤ va → B va = 0
}.

Lemma size_C : i_size i = Z.of_nat (length C).
Proof. rewrite <- HC. unfold contents. rewrite length_file_bytes. lia. Qed.

Lemma file_part off n :
  0 ≤ off → 0 ≤ n → off + n ≤ i_size i → file_bytes (a_data a) (i_addrs i) off n = slice C (Z.to_nat off) (Z.to_nat n).
Proof.
  intros Ho Hn Hs. apply list_eq. intros p. rewrite lookup_slice, lookup_file_bytes by done. rewrite <- HC. unfold contents.
  rewrite (bool_decide_ext (p < Z.to_nat n)%nat (Z.of_nat p < n)) by lia. case_bool_decide; [|done].
  rewrite lookup_file_bytes, bool_decide_true by lia. do 2 f_equal. lia.
Qed.

(** A read of [n] bytes at [off]: all of them, or fewer. *)
Definition read_as (off n : Z) (r : Z * list Z) : Prop :=
  if bool_decide (off + n ≤ Z.of_nat (length C)) then r = (n, slice C (Z.to_nat off) (Z.to_nat n))
  else r.1 ≠ n ∧ Forall byte r.2 ∧ Z.of_nat (length r.2) ≤ n.

Lemma file_read (s : fstate) off n :
  fview s ip i a L m → 0 ≤ off < 4294967296 → 0 < n ≤ 4096 →
  returns (readi ip off n) (λ r x, read_as off n r ∧ only_log s x ∧ fsrep x a L) s.
Proof.
  intros Hv Ho Hn. pose proof size_C as Es. unfold MAXFILE, NDIRECT, NINDIRECT, BSIZE in *.
  destruct (decide (i_size i < off)) as [Hbig|Hin].
  { unfold readi. eapply returns_eq; [apply iget_ip_run; apply Hv|]. rewrite (bool_decide_false (i_type i = T_DEV)) by done.
    rewrite bool_decide_true by done. cbn [orb]. apply returns_mret. split_and!; [|done|apply Hv]. unfold read_as. rewrite bool_decide_false by lia.
    cbn. split_and!; [lia|constructor|lia]. }
  eapply returns_mono; [apply (readi_spec s ip i a L m off n Hv); try done; unfold MAXFILE, NDIRECT, NINDIRECT, BSIZE; lia|].
  intros r s' (-> & Hlog & Hrep). split_and!; [|done|done]. rewrite (bool_decide_false (i_size i < off)) by lia. cbv zeta. unfold read_as.
  rewrite file_part by lia. case_bool_decide; [by rewrite Z.min_l by lia|]. cbn [fst snd]. split_and!; [lia|by apply Forall_slice|].
  rewrite length_slice by lia. lia.
Qed.

Lemma load_read d sz B s off n :
  at_load d sz B s → 0 ≤ off < 4294967296 → 0 < n ≤ 4096 →
  returns (on_fs (readi ip off n)) (λ r s', read_as off n r ∧ at_load d sz B s' ∧ s_kmem s' = s_kmem s) s.
Proof.
  intros [H1 H2 H3 H4 H5 H6] Ho Hn. apply returns_zoom.
  eapply returns_mono; [apply (file_read (s_fs s) off n); [by eapply fview_only_log|done|done]|].
  intros r x (Hr & Hlog & Hrep). split_and!; [done| |done]. split; try done; [|by etrans]. rewrite H1. by destruct s0.
Qed.

(** The page of the new space that is filled next. *)
Lemma load_walk d sz B s va :
  at_load d sz B s → 0 ≤ va < PGROUNDUP sz →
  ∃ t pte, on_kmem (walkpgdir d va false) s = Ret (Some (t, ptx va)) s [] ∧ on_kmem (word_get t (ptx va)) s = Ret pte s [] ∧
    P2V (PTE_ADDR pte) = frame (pages (s_kmem s)) d va.
Proof.
  intros [_ _ _ H4 [l H5] _] Hva. pose proof (round_size sz H4) as (_ & _ & Hk).
  destruct (holds_page _ _ _ _ _ _ _ va H5 ltac:(lia) ltac:(lia)) as (Hp & _). destruct (walk_present _ l d va (bu_space _ _ _ _ _ _ _ _ _ H5) ltac:(lia) Hp) as (t & E1 & E2).
  assert (set_skmem (s_kmem s) s = s) as Es by (by destruct s). exists t. eexists. split_and!.
  - unfold on_kmem. rewrite (zoom_run _ _ _ _ _ _ _ E1). by rewrite Es.
  - unfold on_kmem. rewrite (zoom_run _ _ _ _ _ _ _ E2). by rewrite Es.
  - done.
Qed.

Lemma load_store d sz B s va buf :
  at_load d sz B s → 0 ≤ va < PGROUNDUP sz → va mod 4096 = 0 → Forall byte buf → Z.of_nat (length buf) ≤ 4096 →
  let f := frame (pages (s_kmem s)) d va in
  ∃ pg s', on_kmem (page_get f) s = Ret pg s [] ∧ on_kmem (page_set f (splice pg 0 buf)) s = Ret tt s' [] ∧ at_load d sz (overlay va buf B) s'.
Proof.
  intros [H1 H2 H3 H4 [l H5] H6] Hva Hal Hb Hlen f. pose proof (round_size sz H4) as (Hm & _ & Hk). set (k := s_kmem s) in *.
  destruct (holds_page _ _ _ _ _ _ _ va H5 ltac:(lia) ltac:(lia)) as (Hp & _). pose proof (bu_space _ _ _ _ _ _ _ _ _ H5) as Hs.
  destruct (frame_page k l d va Hs ltac:(lia) Hp) as (_ & pg & Hpg & _). fold f in Hpg.
  pose proof (stored_page k l d va buf pg Hs ltac:(lia) Hp Hpg Hb ltac:(lia)) as Hst. rewrite Hal in Hst. change (Z.to_nat 0) with 0%nat in Hst. fold f in Hst.
  exists pg, (set_skmem (set_pages (<[f := splice pg 0 buf]> (pages k)) k) s). split_and!.
  - unfold on_kmem. rewrite (zoom_run _ _ _ _ _ _ _ (page_get_run k f pg Hpg)). by destruct s.
  - unfold on_kmem. by rewrite (zoom_run _ _ _ _ _ _ _ (page_set_run k f pg _ Hpg)).
  - split; try done.
    + rewrite H1. by destruct s0.
    + exists l. eapply holds_stored; [exact H5|exact Hst|done].
    + intros x Hx. unfold overlay. rewrite bool_decide_false; [by apply H6|]. Z.div_mod_to_equations. lia.
Qed.

Lemma at_load_ext d sz B B' s : at_load d sz B s → (∀ x, B' x = B x) → at_load d sz B' s.
Proof.
  intros [H1 H2 H3 H4 [l H5] H6] HB. split; try done; [exists l; by eapply holds_ext|]. intros va Hva. rewrite HB. by apply H6.
Qed.

Lemma slice_split off n1 n2 : slice C off (n1 + n2) = slice C off n1 ++ slice C (off + n1) n2.
Proof. unfold slice. by rewrite <- drop_drop, take_take_drop. Qed.

(** [loaduvm]: the part of the file is in memory, if the file has it. *)
Lemma loaduvm_loop_run fuel d sz B s addr offset fsz j :
  at_load d sz B s → addr mod 4096 = 0 → 0 ≤ addr → addr + fsz ≤ sz → 0 ≤ offset < 4294967296 →
  0 ≤ j → j mod 4096 = 0 → (j < fsz → j = 0 ∨ offset + j ≤ Z.of_nat (length C)) → fsz ≤ j + 4096 * (Z.of_nat fuel - 1) → (1 ≤ fuel)%nat →
  returns (loaduvm_loop fuel d addr ip offset fsz j) (λ r s',
    r = 0 ∧ (j < fsz → offset + fsz ≤ Z.of_nat (length C)) ∧
      at_load d sz (overlay (addr + j) (slice C (Z.to_nat (offset + j)) (Z.to_nat (fsz - j))) B) s' ∨
    r = -1 ∧ j < fsz ∧ Z.of_nat (length C) < offset + fsz ∧ ∃ B', at_load d sz B' s') s.
Proof.
  revert B s j. induction fuel as [|fuel IH]; intros B s j Hal Ha Ha0 Hsz Hoff Hj Hjm Hin Hfuel H1; [lia|]. cbn [loaduvm_loop].
  pose proof (al_size _ _ _ _ Hal) as Hs. pose proof (round_size sz Hs) as (Hm & Hr & Hk). unfold KERNBASE in *.
  case_bool_decide as Hlt; cycle 1.
  { apply returns_mret. left. split_and!; [done|lia|]. replace (Z.to_nat (fsz - j)) with 0%nat by lia. eapply at_load_ext; [exact Hal|]. intros x. apply overlay_nil. }
  pose proof size_C as Es. unfold MAXFILE, NDIRECT, NINDIRECT, BSIZE in Hsize. rewrite (u32_small (addr + j)) by lia. rewrite (u32_small (offset + j)) by lia.
  destruct (load_walk d sz B s (addr + j) Hal ltac:(lia)) as (t & pte & E1 & E2 & Ef). eapply returns_eq; [exact E1|]. eapply returns_eq; [exact E2|].
  set (n := if bool_decide (fsz - j < PGSIZE) then fsz - j else PGSIZE).
  assert (n = Z.min (fsz - j) 4096) as En by (unfold n, PGSIZE; case_bool_decide; lia). clearbody n. rewrite Ef. cbv zeta.
  eapply returns_step; [apply (load_read d sz B s (offset + j) n Hal); lia|]. intros [r out] s1 (Hr1 & Hal1 & Ek). rewrite <- Ek.
  assert (Forall byte out ∧ Z.of_nat (length out) ≤ n) as [Hob Hol].
  { unfold read_as in Hr1. case_bool_decide; [|tauto]. injection Hr1 as -> ->. split; [by apply Forall_slice|]. rewrite length_slice by lia. lia. }
  destruct (load_store d sz B s1 (addr + j) out Hal1 ltac:(lia)) as (pg & s2 & E3 & E4 & Hal2);
    [by rewrite Z.add_mod, Ha, Hjm by lia|done|lia|]. eapply returns_eq; [exact E3|]. eapply returns_eq; [exact E4|]. unfold read_as in Hr1.
  case_bool_decide as Hfit; cycle 1.
  { destruct Hr1 as [Hrn _]. rewrite bool_decide_true by exact Hrn. apply returns_mret. right. split_and!; [done|done|lia|by eexists]. }
  injection Hr1 as -> ->. rewrite bool_decide_false by (intros X; by apply X). rewrite u32_small by (unfold PGSIZE; lia). unfold PGSIZE.
  assert (length (slice C (Z.to_nat (offset + j)) (Z.to_nat n)) = Z.to_nat n) as Hln by (rewrite length_slice by lia; lia).
  eapply returns_mono; [apply (IH _ s2 (j + 4096) Hal2); try done; try lia; by rewrite Z.add_mod, Hjm by lia|].
  intros r s3 [(-> & Hok & Hal3)|(-> & Hlt' & Hbad & HB)]; [left|right; split_and!; [done|lia|lia|done]]. split_and!; [done|lia|].
  eapply at_load_ext; [exact Hal3|]. intros x. destruct (decide (fsz ≤ j + 4096)) as [Hend|Hmore].
  - replace (Z.to_nat (fsz - (j + 4096))) with 0%nat by lia. unfold slice at 2. rewrite take_0, overlay_nil. replace (fsz - j) with n by lia. done.
  - replace (Z.to_nat (fsz - j)) with (Z.to_nat n + Z.to_nat (fsz - (j + 4096)))%nat by lia. rewrite slice_split, overlay_app, Hln.
    replace (addr + j + Z.of_nat (Z.to_nat n)) with (addr + (j + 4096)) by lia. do 2 f_equal. lia.
Qed.

Lemma loaduvm_run d sz B s addr offset fsz :
  at_load d sz B s → addr mod 4096 = 0 → 0 ≤ addr → 0 ≤ fsz → addr + fsz ≤ sz → 0 ≤ offset < 4294967296 →
  returns (loaduvm d addr ip offset fsz) (λ r s',
    r = 0 ∧ (fsz = 0 ∨ offset + fsz ≤ Z.of_nat (length C)) ∧
      at_load d sz (overlay addr (slice C (Z.to_nat offset) (Z.to_nat fsz)) B) s' ∨
    r = -1 ∧ fsz ≠ 0 ∧ Z.of_nat (length C) < offset + fsz ∧ ∃ B', at_load d sz B' s') s.
Proof.
  intros Hal Ha Ha0 Hf Hsz Hoff. unfold loaduvm. rewrite bool_decide_false by (unfold PGSIZE; lia). eapply returns_eq; [reflexivity|].
  eapply returns_mono; [apply (loaduvm_loop_run _ d sz B s addr offset fsz 0 Hal); try done; try lia; unfold PGSIZE; Z.div_mod_to_equations; lia|].
  intros r s'. rewrite !Z.add_0_r, Z.sub_0_r. intros [(-> & Hok & H)|(-> & Hlt & Hbad & H)]; [left|right]; split_and!; try done; lia.
Qed.

Lemma load_alloc d sz B s e :
  at_load d sz B s → 0 ≤ e →
  returns (on_kmem (allocuvm d sz e)) (λ r s',
    e < KERNBASE ∧ r = Z.max sz e ∧ at_load d (Z.max sz e) B s' ∨
    r = 0 ∧ (e < KERNBASE → short_of (.∈ l0) e) ∧ at_load d sz B s') s.
Proof.
  intros [H1 H2 H3 H4 [l H5] H6] He. destruct (holds_alloc l0 m0 B (s_kmem s) l d sz e H5 H4 H6 He) as (r & k' & l' & out & R & Ho & Hr).
  eapply returns_run; [exact (zoom_run _ _ _ _ _ _ _ R)|done|]. destruct Hr as [(Hek & -> & Hh)|(-> & Hsh & Hh)]; [left|right]; split_and!; try done.
  - split; try done; [rewrite H1; by destruct s0|lia|by exists l'|]. intros va Hva. apply H6.
    destruct (round_size sz H4) as (A1 & A2 & _), (round_size (Z.max sz e)) as (B1 & B2 & _); [lia|]. Z.div_mod_to_equations. lia.
  - split; try done; [rewrite H1; by destruct s0|by exists l'].
Qed.
End load.

Lemma load_file_grows C n off sz B sz' B' : load_file C n off sz B = Some (sz', B') → sz ≤ sz'.
Proof.
  revert off sz B. induction n as [|n IH]; intros off sz B; cbn [load_file]; [intros [= -> _]; lia|].
  repeat case_match; try done; intros Hrec%IH; lia.
Qed.

Lemma load_file_below C n off sz B sz' B' : load_file C n off sz B = Some (sz', B') → sz < KERNBASE → sz' < KERNBASE.
Proof.
  revert off sz B. induction n as [|n IH]; intros off sz B; cbn [load_file]; [by intros [= -> _]|].
  case_bool_decide; [|done]. case_bool_decide; [by eauto|]. case_match eqn:E; [|done]. apply andb_true_iff in E as [E _].
  apply bool_decide_eq_true in E. intros Hl Hsz. eapply IH; [exact Hl|lia].
Qed.

Lemma ph_range b :
  length b = 32%nat → Forall byte b →
  0 ≤ ph_off (proghdr_of b) < 4294967296 ∧ 0 ≤ ph_vaddr (proghdr_of b) < 4294967296 ∧
  0 ≤ ph_filesz (proghdr_of b) < 4294967296 ∧ 0 ≤ ph_memsz (proghdr_of b) < 4294967296.
Proof.
  intros Hl Hb. assert (∀ o, (o + 4 ≤ 32)%nat → 0 ≤ of_le (slice b o 4) < 4294967296) as H; [|split_and!; apply H; lia].
  intros o Ho. pose proof (of_le_range (slice b o 4) (Forall_slice _ _ _ _ Hb)) as Hr. rewrite length_slice in Hr by lia. exact Hr.
Qed.

Section headers.
Context {KI : KernelImage} {KO : KernelImageOk KI}.
Context (l0 : list Z) (m0 : gmap Z (list Z)) (s0 : sstate) (ip : nat) (i : inode) (a : acache) (L m C : list Z).
Hypothesis Hview : fview (s_fs s0) ip i a L m.
Hypothesis HL : (length L < NBUF)%nat.
Hypothesis Htype : i_type i ≠ T_DEV.
Hypothesis Hfull : full (a_data a) (i_addrs i) (i_size i).
Hypothesis Hsize : 0 ≤ i_size i ≤ MAXFILE * BSIZE.
Hypothesis HC : contents a i = C.
Hypothesis Hbytes : Forall byte C.
Abbreviation at_load := (at_load l0 m0 s0 a L).

(** The headers are loaded as the file says ([o]); they are not only if the
    file has no valid program, or there are too few free pages. *)
Definition loaded_as (o : option (Z * (Z → Z))) (d : Z) (r : option Z) (s : sstate) : Prop :=
  match r with
  | Some sz => ∃ B, o = Some (sz, B) ∧ at_load d sz B s
  | None => (∀ sz B, o = Some (sz, B) → short_of (.∈ l0) sz) ∧ ∃ sz B, at_load d sz B s
  end.
Lemma loaded_none o d sz B s : o = None → at_load d sz B s → loaded_as o d None s.
Proof. intros -> H. split; [done|]. by exists sz, B. Qed.

Lemma exec_load_run n d off sz B s :
  at_load d sz B s → returns (exec_load n d ip off sz) (loaded_as (load_file C n off sz B) d) s.
Proof.
  revert off sz B s. induction n as [|n IH]; intros off sz B s Hal; cbn [exec_load load_file]; [apply returns_mret; by exists B|].
  pose proof (u32_range off) as Hu. unfold sizeof_proghdr in *.
  eapply returns_step; [eapply (load_read l0 m0 s0 ip i a L m C Hview HL Htype Hfull Hsize HC Hbytes d sz B s (u32 off) 32 Hal); lia|].
  intros [r b] s1 (Hr & Hal1 & _). unfold read_as in Hr.
  case_bool_decide as Hfit; cycle 1.
  { rewrite bool_decide_true by apply Hr. apply returns_mret. by eapply loaded_none. }
  injection Hr as -> ->. rewrite (bool_decide_false (32 ≠ 32)) by lia. set (b := slice C (Z.to_nat (u32 off)) (Z.to_nat 32)) in *.
  destruct (ph_range b) as (P1 & P2 & P3 & P4); [unfold b; rewrite length_slice by lia; done|by apply Forall_slice|].
  set (ph := proghdr_of b) in *. cbv zeta. case_bool_decide as Hty; [by apply IH|]. unfold segment_fits. set (e := ph_vaddr ph + ph_memsz ph) in *.
  case_bool_decide as Hmf.
  { apply returns_mret. eapply loaded_none; [by rewrite bool_decide_false by lia|done]. }
  case_bool_decide as Hwrap.
  { apply returns_mret. eapply loaded_none; [|done]. rewrite bool_decide_false; [done|]. intros (_ & Hk & _). unfold KERNBASE in Hk. rewrite u32_small in Hwrap by lia. lia. }
  assert (u32 e = e) as Ee by (unfold u32 in *; Z.div_mod_to_equations; lia). rewrite Ee.
  eapply returns_step; [eapply load_alloc; [..|exact Hal1|lia]; done|].
  intros sz1 s2 [(Hek & -> & Hal2)|(-> & Hsh & Hal2)]; cycle 1.
  { rewrite bool_decide_true by done. apply returns_mret. split; [|by eauto]. intros sz' B'. case_match eqn:Ec; [|done].
    apply andb_true_iff in Ec as [Ec _]. apply bool_decide_eq_true in Ec. intros Hg%load_file_grows.
    eapply short_mono; [apply Hsh; lia|lia]. }
  case_bool_decide as Hz.
  { apply returns_mret. eapply loaded_none; [|done]. by rewrite (bool_decide_false (Z.max sz e ≠ 0)), andb_false_r by lia. }
  rewrite (bool_decide_true (Z.max sz e ≠ 0)) by done. rewrite andb_true_r. unfold PGSIZE in *.
  case_bool_decide as Hal0.
  { apply returns_mret. eapply loaded_none; [|done]. by rewrite bool_decide_false by lia. }
  eapply returns_step; [eapply (loaduvm_run l0 m0 s0 ip i a L m C Hview HL Htype Hfull Hsize HC Hbytes d _ B s2 (ph_vaddr ph) (ph_off ph) (ph_filesz ph) Hal2); lia|].
  intros r s3 [(-> & Hok & Hal3)|(-> & Hne & Hlong & B' & HB)].
  - rewrite (bool_decide_false (0 < 0)) by lia. rewrite (bool_decide_true (_ ∧ _)) by lia. by apply IH.
  - rewrite bool_decide_true by lia. apply returns_mret. eapply loaded_none; [by rewrite bool_decide_false by lia|done].
Qed.
End headers.

(** * The guard page and the stack *)

Section guard.
Context {KI : KernelImage} {KO : KernelImageOk KI}.
Implicit Types (k : kstate) (l : list Z) (B : Z → Z).

(** Another entry with the same frame for a page. *)
Lemma reflag k l d va x :
  uspace k l d → 0 ≤ va < KERNBASE → present (pages k) d va →
  0 ≤ x < 4294967296 → PTE_ADDR x = PTE_ADDR (xlate (pages k) d va) → has PTE_P x = true →
  ∃ t k', tab_at (pages k) d (pdx va) = Some t ∧ word_set t (ptx va) x k = Ret tt k' [] ∧ uspace k' l d ∧
    (∀ u, owns (pages k') d u ↔ owns (pages k) d u) ∧ (∀ u, ¬ owns (pages k) d u → pages k' !! u = pages k !! u) ∧
    (∀ y, 0 ≤ y < 4294967296 → xlate (pages k') d y = if bool_decide (y / 4096 = va / 4096) then x else xlate (pages k) d y) ∧
    ∀ y, 0 ≤ y < KERNBASE → present (pages k) d y → ubyte (pages k') d y = ubyte (pages k) d y.
Proof.
  intros [Hk Hv Hu] Hva Hp Hx Ha HP. assert (0 ≤ va < 4294967296) as Hva' by (unfold KERNBASE in *; lia). unfold present in Hp.
  destruct (tab_at (pages k) d (pdx va)) as [t|] eqn:Ht; [|unfold xlate in Hp; by rewrite Ht in Hp].
  destruct (set_pte k l d va t x Hk Hv Hva' Ht) as (pg & Hpg & _ & Hw & Hk' & Hv' & Hxl). set (k' := set_pages _ k) in *.
  destruct (vo_tab _ _ _ Hv (pdx va) t (pdx_lt va Hva') Ht) as (_ & _ & Htd).
  assert (∀ u, table_page (pages k') d u ↔ table_page (pages k) d u) as Htp.
  { intros u. unfold table_page, k'. cbn [pages set_pages]. setoid_rewrite tab_at_other; done. }
  rewrite u32_small in Hxl by done.
  assert (∀ y, 0 ≤ y < KERNBASE → (present (pages k') d y ↔ present (pages k) d y) ∧ frame (pages k') d y = frame (pages k) d y) as Hsame.
  { intros y Hy. unfold present, frame. rewrite Hxl by (unfold KERNBASE in *; lia). case_bool_decide as E; [|done].
    rewrite (xlate_page _ _ y va) by (unfold KERNBASE in *; lia). rewrite HP, Hp, Ha. done. }
  exists t, k'. split_and!; [done|done| | | |done|].
  - split; [done|done|]. split.
    + intros y Hy. destruct (Hsame y Hy) as [-> ->]. intros Hpy. rewrite Htp. by apply (uo_frame _ _ _ Hu).
    + intros y y' Hy Hy'. destruct (Hsame y Hy) as [-> ->], (Hsame y' Hy') as [-> ->]. by apply (uo_inj _ _ _ Hu).
  - intros u. unfold owns, user_frame. rewrite Htp. split; (intros [H|(y & Hy & H1 & H2)]; [by left|right; exists y]); destruct (Hsame y Hy) as [E1 E2].
    + rewrite <- E1, <- E2. done.
    + rewrite E1, E2. done.
  - intros u Hno. apply lookup_insert_ne. intros <-. apply Hno. left. right. exists (pdx va). split; [by apply pdx_lt|done].
  - intros y Hy Hpy. unfold ubyte. destruct (Hsame y Hy) as [_ ->]. unfold k'. cbn [pages set_pages]. rewrite lookup_insert_ne; [done|].
    intros Ef. apply (uo_frame _ _ _ Hu y Hy Hpy). right. exists (pdx va). split; [by apply pdx_lt|]. by rewrite <- Ef.
Qed.

(** Clearing PTE_U. *)
Lemma clear_user x (y := Z.land x (u32 (Z.lnot PTE_U))) :
  PTE_ADDR y = PTE_ADDR x ∧ has PTE_P y = has PTE_P x ∧ PTE_FLAGS y = Z.land (PTE_FLAGS x) 4091 ∧ (0 ≤ x < 4294967296 → 0 ≤ y < 4294967296).
Proof.
  unfold y, PTE_ADDR, PTE_FLAGS, has. rewrite <- !Z.land_assoc. split_and!; [done|done|done|]. intros Hx.
  change (u32 (Z.lnot PTE_U)) with 4294967291. split; [apply Z.land_nonneg; lia|].
  destruct (decide (Z.land x 4294967291 = 0)) as [->|Hne]; [lia|]. change 4294967296 with (2 ^ 32).
  apply Z.log2_lt_pow2; [pose proof (Z.land_nonneg x 4294967291); lia|]. eapply Z.le_lt_trans; [apply Z.log2_land; lia|].
  change (Z.log2 4294967291) with 31. lia.
Qed.

Lemma xlate_range k l d va : kalloc_inv k l → 0 ≤ xlate (pages k) d va < 4294967296.
Proof.
  intros Hk. unfold xlate. destruct (tab_at _ _ _) as [t|]; [|lia]. destruct (pages k !! t) as [pg|] eqn:Hpg; [|lia].
  apply word_range. by apply (ki_pages _ _ Hk _ _ Hpg).
Qed.

(** [clearpteu] of a page that is present takes it from the user. *)
Lemma clearpteu_any k l d g :
  uspace k l d → 0 ≤ g < KERNBASE → present (pages k) d g →
  ∃ k', clearpteu d g k = Ret tt k' [] ∧ uspace k' l d ∧
    (∀ u, owns (pages k') d u ↔ owns (pages k) d u) ∧ (∀ u, ¬ owns (pages k) d u → pages k' !! u = pages k !! u) ∧
    (∀ y, 0 ≤ y < 4294967296 → xlate (pages k') d y =
       if bool_decide (y / 4096 = g / 4096) then Z.land (xlate (pages k) d g) (u32 (Z.lnot PTE_U)) else xlate (pages k) d y) ∧
    ∀ y, 0 ≤ y < KERNBASE → present (pages k) d y → ubyte (pages k') d y = ubyte (pages k) d y.
Proof.
  intros Hs Hg Hp. destruct (walk_present k l d g Hs Hg Hp) as (t & E1 & E2).
  destruct (clear_user (xlate (pages k) d g)) as (Ca & Cp & _ & Cr). pose proof (Cr (xlate_range k l d g (us_inv _ _ _ Hs))) as Hx. unfold present in Hp.
  destruct (reflag k l d g _ Hs Hg Hp Hx Ca) as (t' & k' & Ht & Hw & H); [by rewrite Cp|].
  assert (t' = t) as ->.
  { pose proof (walk_noalloc k l d g (us_inv _ _ _ Hs) (us_vm _ _ _ Hs)) as E3. rewrite E1, Ht in E3. by injection E3. }
  exists k'. split; [|exact H]. unfold clearpteu. mstep E1. mstep E2. exact Hw.
Qed.

Context (l0 : list Z) (m0 : gmap Z (list Z)).

(** The page at [g] is not for the user. *)
Definition guard_want B (g va : Z) : option (Z * option Z) :=
  if bool_decide (va / 4096 = g / 4096) then Some (Z.lor PTE_W PTE_P, Some (B va)) else image_want B va.

Lemma clearpteu_run B k l d a g :
  holds l0 m0 B k l d a → 0 ≤ g < a → a ≤ KERNBASE → a mod 4096 = 0 →
  ∃ k', clearpteu d g k = Ret tt k' [] ∧ built (.∈ l0) m0 (guard_want B g) kern_pte (.∈ l0) k' l d a.
Proof.
  intros H Hg Ha Ham. pose proof H as [H1 H2 H3 H4 H5 H6]. destruct (holds_page _ _ _ _ _ _ _ g H ltac:(lia) ltac:(lia)) as (Hp & Hf & _).
  destruct (clearpteu_any k l d g H1 ltac:(lia) Hp) as (k' & R & Hs' & Ho & Hoth & Hxl & Hb). exists k'. split; [done|].
  destruct (clear_user (xlate (pages k) d g)) as (_ & Cp & Cf & _). unfold present in Hp.
  split; [done| |done| | |].
  - intros u. rewrite Ho. apply H2.
  - intros u Hu. rewrite Hoth; [by apply H4|]. intros Hou. apply Hu, H2. by right.
  - intros va Hva. specialize (H5 va Hva). pose proof (Hxl va ltac:(unfold KERNBASE in *; lia)) as E. destruct (decide (va < a)) as [Hlt|Hge]; cycle 1.
    { rewrite !bool_decide_false in * by (Z.div_mod_to_equations; lia). unfold shows, present in *. by rewrite E. }
    rewrite bool_decide_true in H5 |- * by done. destruct H5 as (Q1 & Q2 & Q3).
    unfold guard_want. destruct (decide (va / 4096 = g / 4096)) as [Eg|Eg]; [rewrite bool_decide_true in E |- * by done|rewrite bool_decide_false in E |- * by done].
    + unfold shows, present. rewrite E, Cp, Cf, Hf. split_and!; [done|done|by rewrite Hb].
    + unfold image_want, shows, present in *. rewrite E. split_and!; [done|done|by rewrite Hb].
  - intros va Hva. rewrite Hxl by (unfold KERNBASE in *; lia). rewrite bool_decide_false; [by apply H6|]. unfold KERNBASE in *. Z.div_mod_to_equations. lia.
Qed.
End guard.

(** * The new program *)

(** Arguments that fit into the stack page. *)
Definition args_fit (argv : list (list Z)) : Prop :=
  Forall (Forall byte) argv ∧ (length argv ≤ MAXARG)%nat ∧ room argv + 4 * (4 + Z.of_nat (length argv)) ≤ 4096.

Section new_program.
Context {KI : KernelImage} {KO : KernelImageOk KI}.
Context (l0 : list Z) (m0 : gmap Z (list Z)).
Implicit Types (k : kstate) (l : list Z) (B : Z → Z).

(** The memory of a program of [sz] bytes [B] that starts with [argv]: its
    pages, a page that it cannot access, and a page of stack with the
    arguments at [sp]; nothing above, and the kernel's mappings. *)
Record runs_with B (sz : Z) (argv : list (list Z)) (sp : Z) k l (d : Z) : Prop := RunsWith {
  rw_space : uspace k l d;
  rw_image va : 0 ≤ va < PGROUNDUP sz → user_page (pages k) d va ∧ ubyte (pages k) d va = Some (B va);
  rw_guard va : PGROUNDUP sz ≤ va < PGROUNDUP sz + 4096 → present (pages k) d va ∧ ¬ user_page (pages k) d va;
  rw_stack va : PGROUNDUP sz + 4096 ≤ va < PGROUNDUP sz + 8192 → user_page (pages k) d va;
  rw_top va : PGROUNDUP sz + 8192 ≤ va < KERNBASE → ¬ present (pages k) d va;
  rw_kern va : KERNBASE ≤ va < 4294967296 → xlate (pages k) d va = kern_pte va;
  rw_sp : PGROUNDUP sz + 4096 ≤ sp < PGROUNDUP sz + 8192 ∧ sp mod 4 = 0;
  rw_args : ∃ ptrs, stack_has (pages k) d sp (PGROUNDUP sz + 8192) argv ptrs;
  rw_end : 0 ≤ PGROUNDUP sz ∧ PGROUNDUP sz + 8192 < KERNBASE
}.
(** It is in pages of [l0], and every other page of [l0] is free. *)
Record starts_with B (sz : Z) (argv : list (list Z)) (sp : Z) k l (d : Z) : Prop := StartsWith {
  sw_runs : runs_with B sz argv sp k l d;
  sw_acct u : u ∈ l0 ↔ u ∈ l ∨ owns (pages k) d u;
  sw_kept u : u ∉ l0 → pages k !! u = m0 !! u
}.

(** The program stands as long as its pages are left alone. *)
Lemma runs_with_frame B sz argv sp k l k' l' d :
  runs_with B sz argv sp k l d → kalloc_inv k' l' → (∀ u, owns (pages k) d u → u ∉ l' ∧ pages k' !! u = pages k !! u) →
  runs_with B sz argv sp k' l' d ∧ ∀ u, owns (pages k') d u ↔ owns (pages k) d u.
Proof.
  intros [H1 H2 H3 H4 H5 H6 H7 [ptrs H8] [H9 H10]] Hk' Hown. destruct (uspace_frame k l d k' l' H1 Hk' Hown) as (Q1 & Q2 & Q3 & Q4).
  assert (∀ va, 0 ≤ va < KERNBASE → xlate (pages k') d va = xlate (pages k) d va) as Ex by (intros va Hva; apply Q2; unfold KERNBASE in *; lia).
  split; [|intros u; unfold owns; by rewrite Q3, (same_user_frames _ _ _ _ (same_map_user _ _ _ Q2))].
  split; [done|..|done| |done].
  - intros va Hva. destruct (H2 va Hva) as [[Hp HU] Hb]. rewrite Q4 by (done || lia). split; [|done]. unfold user_page, present. by rewrite Ex by lia.
  - intros va Hva. unfold user_page, present. rewrite Ex by lia. by apply H3.
  - intros va Hva. unfold user_page, present. rewrite Ex by lia. by apply H4.
  - intros va Hva. unfold present. rewrite Ex by lia. by apply H5.
  - intros va Hva. rewrite Q2 by (unfold KERNBASE in *; lia). by apply H6.
  - exists ptrs. eapply stack_has_same; [exact H8|]. intros x Hx. apply Q4; [lia|]. apply H4. lia.
Qed.

Lemma user_flag x : PTE_FLAGS x = user_rw → has PTE_U x = true.
Proof.
  intros H. unfold has. apply bool_decide_eq_true. assert (Z.land (PTE_FLAGS x) PTE_U = Z.land x PTE_U) as <-; [|by rewrite H].
  unfold PTE_FLAGS. by rewrite <- Z.land_assoc.
Qed.
Lemma guard_flag x : PTE_FLAGS x = Z.lor PTE_W PTE_P → has PTE_U x = false.
Proof.
  intros H. unfold has. apply bool_decide_eq_false. assert (Z.land (PTE_FLAGS x) PTE_U = Z.land x PTE_U) as <-; [|rewrite H; by intros []].
  unfold PTE_FLAGS. by rewrite <- Z.land_assoc.
Qed.

(** The pages before and after the arguments are written. *)
Lemma starts_from B k2 l k d sz argv sp ptrs :
  let a := PGROUNDUP sz in
  built (.∈ l0) m0 (guard_want B a) kern_pte (.∈ l0) k2 l d (a + 8192) → 0 ≤ sz → a mod 4096 = 0 → 0 ≤ a → a + 8192 < KERNBASE →
  keeps k2 l k d → outside k2 k d (a + 4096) (a + 8192) → a + 4096 ≤ sp < a + 8192 → sp mod 4 = 0 → stack_has (pages k) d sp (a + 8192) argv ptrs →
  starts_with B sz argv sp k l d.
Proof.
  intros a [G1 G2 G3 G4 G5 G6] Hsz Ham Ha0 Hk [K1 K2 K3 K4] Hout Hsp Hal Hhas.
  assert (∀ va, 0 ≤ va < KERNBASE → xlate (pages k) d va = xlate (pages k2) d va) as Ex by (intros va Hva; apply K2; unfold KERNBASE in *; lia).
  assert (∀ va, 0 ≤ va < a + 8192 → va / 4096 ≠ a / 4096 → user_page (pages k) d va ∧ present (pages k2) d va ∧ ubyte (pages k2) d va = Some (B va)) as Huser.
  { intros va Hva Hg. specialize (G5 va ltac:(lia)). rewrite bool_decide_true in G5 by lia. unfold guard_want in G5.
    rewrite bool_decide_false in G5 by done. destruct G5 as (Q1 & Q2 & Q3). unfold user_page, present. rewrite Ex by lia.
    split_and!; [done|by apply user_flag|done|done]. }
  split; [split; [done| | | | | |done|by exists ptrs|done]|..]; fold a.
  - intros va Hva. destruct (Huser va) as (Q1 & Q2 & Q3); [lia|Z.div_mod_to_equations; lia|]. split; [done|]. by rewrite Hout by (done || lia).
  - intros va Hva. specialize (G5 va ltac:(lia)). rewrite bool_decide_true in G5 by lia. unfold guard_want in G5.
    rewrite bool_decide_true in G5 by (Z.div_mod_to_equations; lia). destruct G5 as (Q1 & Q2 & Q3). unfold user_page, present. rewrite Ex by lia.
    split; [done|]. rewrite (guard_flag _ Q2). by intros [_ ?].
  - intros va Hva. apply Huser; [lia|Z.div_mod_to_equations; lia].
  - intros va Hva. unfold present. rewrite Ex by lia. specialize (G5 va ltac:(lia)). rewrite bool_decide_false in G5 by lia. exact G5.
  - intros va Hva. rewrite K2 by (unfold KERNBASE in *; lia). by apply G6.
  - intros u. rewrite K3. apply G2.
  - intros u Hu. rewrite K4; [by apply G4|]. intros Ho'. apply Hu, G2. by right.
Qed.

Lemma exec_stack_run B k l d sz argv :
  holds l0 m0 B k l d (PGROUNDUP sz) → 0 ≤ sz < KERNBASE → (∀ va, PGROUNDUP sz ≤ va → B va = 0) → args_fit argv →
  let top := PGROUNDUP sz + 8192 in
  ∃ r k' out, exec_stack d sz argv k = Ret r k' out ∧ dwrites out = [] ∧
    match r with
    | Some (sz', sp) => top < KERNBASE ∧ sz' = top ∧ ∃ l', starts_with B sz argv sp k' l' d
    | None => (top < KERNBASE → short_of (.∈ l0) top) ∧ ∃ l', holds l0 m0 B k' l' d (PGROUNDUP sz)
    end.
Proof.
  intros H Hsz HB (Hab & Han & Har) top. destruct (round_size sz Hsz) as (Hm & Hr & Hk). unfold exec_stack. cbv zeta.
  set (a := PGROUNDUP sz) in *. assert (u32 (a + 2 * PGSIZE) = top) as -> by (unfold top, PGSIZE; apply u32_small; unfold KERNBASE in *; lia).
  destruct (decide (KERNBASE ≤ top)) as [Hbig|Hfit].
  { exists None, k, []. split_and!; [|done|lia|by exists l]. unfold allocuvm. rewrite bool_decide_true by done. done. }
  assert (PGROUNDUP a = a ∧ PGROUNDUP top = top) as [Ea Et].
  { unfold KERNBASE, top in *. split; [destruct (PGROUNDUP_spec a) as (E & _)|destruct (PGROUNDUP_spec (a + 8192)) as (E & _)]; try lia; rewrite E; Z.div_mod_to_equations; lia. }
  destruct (holds_alloc l0 m0 B k l d a top) as (r & k1 & l1 & out & R & Ho & Hcase); [by rewrite Ea|unfold top in *; lia|by rewrite Ea|unfold top; lia|].
  rewrite Z.max_r, Ea, Et in Hcase by (unfold top; lia). destruct Hcase as [(_ & -> & H1)|(-> & Hsh & H1)]; cycle 1.
  { exists None, k1, out. split_and!; [|done|done|by exists l1]. rewrite (bind_run _ _ _ _ _ _ R), bool_decide_true by done. cbn. by rewrite app_nil_r. }
  assert (top mod 4096 = 0) as Htm by (unfold top; Z.div_mod_to_equations; lia).
  assert (u32 (top - 2 * PGSIZE) = a) as Eg by (unfold top, PGSIZE; rewrite u32_small; unfold KERNBASE in *; lia).
  destruct (clearpteu_run l0 m0 B k1 l1 d top a H1) as (k2 & R2 & Hb2); [unfold top; lia|lia|done|]. pose proof Hb2 as [G1 _ _ _ G5 _].
  assert (∀ va, a + 4096 ≤ va < top → user_page (pages k2) d va) as Hst.
  { intros va Hva. specialize (G5 va ltac:(unfold top in *; lia)). rewrite bool_decide_true in G5 by lia. unfold guard_want in G5.
    rewrite bool_decide_false in G5 by (Z.div_mod_to_equations; lia). destruct G5 as (Q1 & Q2 & _). split; [done|by apply user_flag]. }
  destruct (exec_stack_layout k2 l1 d top argv G1) as (k3 & sp & ptrs & R3 & Hkp & Hsp & Hal & Hout & Hhas);
    [unfold top in *; lia|Z.div_mod_to_equations; lia|intros va Hva; apply Hst; unfold top in *; lia|done|done|done|].
  exists (Some (top, sp)), k3, out. split_and!; [|done|lia|done|exists l1].
  { rewrite (bind_run _ _ _ _ _ _ R). rewrite bool_decide_false by (unfold top; lia). rewrite Eg, (bind_run _ _ _ _ _ _ R2), (bind_run _ _ _ _ _ _ R3). cbn. by rewrite app_nil_r. }
  replace (top - 4096) with (a + 4096) in * by (unfold top; lia). by eapply starts_from; try done; unfold top in *; lia.
Qed.
End new_program.
