(* ===== verification/VmOwner.v ===== *)
(** Who owns a page (src/kalloc.c, src/vm.c): the pages of physical memory are
    free, belong to exactly one address space, or are held by the kernel (as a
    stack or a pipe).  The theorem is a type-safety theorem: any sequence of
    the operations on physical memory and on address spaces runs, without a
    panic and without an undefined access, and keeps it so. *)
From S2P Require Import Prelude Layout Bytes Spinlock Format Kalloc Vm VmSpec Exec ExecSpec ExecLoad.

Section owner.
Context {KI : KernelImage}.

(** Physical memory, the address spaces with their sizes, and the pages that
    the kernel holds. *)
Record mem := Mem { mk : kstate; spaces : gmap Z Z; held : gset Z }.

(** The pages below [sz] are mapped, and no others. *)
Definition sized (m : gmap Z (list Z)) (d sz : Z) : Prop :=
  0 ≤ sz < KERNBASE ∧ ∀ va, 0 ≤ va < KERNBASE → present m d va ↔ va < PGROUNDUP sz.

Record typed (s : mem) (l : list Z) : Prop := Typed {
  ty_inv : kalloc_inv (mk s) l;
  ty_space d sz : spaces s !! d = Some sz → uspace (mk s) l d ∧ sized (pages (mk s)) d sz;
  ty_own d d' u : is_Some (spaces s !! d) → is_Some (spaces s !! d') → owns (pages (mk s)) d u → owns (pages (mk s)) d' u → d = d';
  ty_held u : u ∈ held s → allocatable u ∧ u ∉ l ∧ ∀ d, is_Some (spaces s !! d) → ¬ owns (pages (mk s)) d u
}.

(** * The operations *)

Inductive vm_op :=
  | OpAlloc | OpFree (v : Z) | OpWrite (v : Z) (pg : list Z)     (* the kernel's own pages *)
  | OpSetup | OpDrop (d : Z)                                     (* a space begins and ends *)
  | OpGrow (d n : Z) | OpShrink (d n : Z) | OpCopy (d : Z)
  | OpOut (d va : Z) (buf : list Z) | OpGuard (d g : Z).

Definition size_of (s : mem) (d : Z) : Z := default 0 (spaces s !! d).
(** What the kernel checks before: it frees and writes only pages it holds,
    and uses only page directories that it has. *)
Definition allowed (o : vm_op) (s : mem) : bool :=
  match o with
  | OpAlloc | OpSetup => true
  | OpFree v => bool_decide (v ∈ held s)
  | OpWrite v pg => bool_decide (v ∈ held s ∧ length pg = 4096%nat ∧ Forall byte pg)
  | OpDrop d | OpCopy d => bool_decide (is_Some (spaces s !! d))
  | OpGrow d n | OpShrink d n => bool_decide (is_Some (spaces s !! d) ∧ 0 ≤ n)
  | OpOut d va buf => bool_decide (is_Some (spaces s !! d) ∧ 0 ≤ va ∧ va + Z.of_nat (length buf) ≤ PGROUNDUP (size_of s d) ∧ Forall byte buf)
  | OpGuard d g => bool_decide (is_Some (spaces s !! d) ∧ 0 ≤ g < PGROUNDUP (size_of s d))
  end.

(** The call, and what the kernel has afterwards when it returns [r]. *)
Definition call (o : vm_op) (s : mem) : M kstate Z :=
  match o with
  | OpAlloc => kalloc
  | OpFree v => kfree v;; mret 0
  | OpWrite v pg => page_set v pg;; mret 0
  | OpSetup => setupkvm
  | OpDrop d => freevm d;; mret 0
  | OpGrow d n => allocuvm d (size_of s d) n
  | OpShrink d n => deallocuvm d (size_of s d) n
  | OpCopy d => copyuvm d (size_of s d)
  | OpOut d va buf => copyout d va buf
  | OpGuard d g => clearpteu d g;; mret 0
  end.
Definition spaces_after (o : vm_op) (s : mem) (r : Z) : gmap Z Z :=
  match o with
  | OpSetup => if decide (r = 0) then spaces s else <[r := 0]> (spaces s)
  | OpDrop d => delete d (spaces s)
  | OpGrow d n => if decide (r = 0) then spaces s else <[d := r]> (spaces s)
  | OpShrink d n => <[d := r]> (spaces s)
  | OpCopy d => if decide (r = 0) then spaces s else <[r := size_of s d]> (spaces s)
  | _ => spaces s
  end.
Definition held_after (o : vm_op) (s : mem) (r : Z) : gset Z :=
  match o with
  | OpAlloc => if decide (r = 0) then held s else {[ r ]} ∪ held s
  | OpFree v => held s ∖ {[ v ]}
  | _ => held s
  end.

(** One operation; [None] for a panic or an undefined access. *)
Definition vm_step (o : vm_op) (s : mem) : option mem :=
  if allowed o s then
    match call o s (mk s) with
    | Ret r k _ => Some (Mem k (spaces_after o s r) (held_after o s r))
    | _ => None
    end
  else Some s.
Fixpoint vm_steps (ops : list vm_op) (s : mem) : option mem :=
  match ops with
  | [] => Some s
  | o :: ops => s' ← vm_step o s; vm_steps ops s'
  end.
End owner.

Section typing.
Context {KI : KernelImage} {KO : KernelImageOk KI}.
Implicit Types (k : kstate) (l : list Z) (s : mem).

(** Only pages of [T] change, which other spaces than [d] do not have. *)
Lemma typed_update s l k' l' d o (T : Z → Prop) K' :
  typed s l → kalloc_inv k' l' →
  (∀ u, ¬ T u → pages k' !! u = pages (mk s) !! u) → (∀ u, u ∈ l' → T u) →
  (∀ u d', T u → d' ≠ d → is_Some (spaces s !! d') → ¬ owns (pages (mk s)) d' u) →
  (∀ u, u ∈ K' → allocatable u ∧ u ∉ l' ∧ (∀ d', d' ≠ d → is_Some (spaces s !! d') → ¬ owns (pages (mk s)) d' u) ∧ (is_Some o → ¬ owns (pages k') d u)) →
  (∀ sz, o = Some sz → uspace k' l' d ∧ sized (pages k') d sz ∧ ∀ u, owns (pages k') d u → T u) →
  typed (Mem k' (partial_alter (λ _, o) d (spaces s)) K') l'.
Proof.
  intros [I S O H] Hk' Hfr Hl' HT HK Hd.
  assert (∀ d' sz, d' ≠ d → spaces s !! d' = Some sz → uspace k' l' d' ∧ sized (pages k') d' sz ∧
    ∀ u, owns (pages k') d' u ↔ owns (pages (mk s)) d' u) as Hoth.
  { intros d' sz Hne E. destruct (S d' sz E) as [Hs Hz].
    destruct (uspace_frame (mk s) l d' k' l' Hs Hk') as (H1 & H2 & H3 & _).
    { intros u Ho. assert (¬ T u) as Hn by (intros Ht; by apply (HT u d' Ht Hne)). split; [by intros ?%Hl'|by apply Hfr]. }
    split_and!; [done| |].
    - split; [apply Hz|]. intros va Hva. unfold present. rewrite H2 by (unfold KERNBASE in *; lia). by apply Hz.
    - intros u. unfold owns. by rewrite H3, (same_user_frames _ _ _ _ (same_map_user _ _ _ H2)). }
  split; cbn [mk spaces held]; [done|..].
  - intros d' sz. destruct (decide (d' = d)) as [->|Hne].
    + rewrite lookup_partial_alter_eq. intros (H1 & H2 & _)%Hd. done.
    + rewrite lookup_partial_alter_ne by done. intros E. by destruct (Hoth d' sz Hne E) as (H1 & H2 & _).
  - intros d1 d2 u. destruct (decide (d1 = d)) as [->|N1], (decide (d2 = d)) as [->|N2];
      rewrite ?lookup_partial_alter_eq, ?lookup_partial_alter_ne by done; [done|..].
    + intros [sz E] [sz2 E2] H1 H2. destruct (Hd sz E) as (_ & _ & HT1). destruct (Hoth d2 sz2 N2 E2) as (_ & _ & HO).
      exfalso. apply (HT u d2 (HT1 u H1) N2); [done|by apply HO].
    + intros [sz E] [sz2 E2] H1 H2. destruct (Hd sz2 E2) as (_ & _ & HT1). destruct (Hoth d1 sz N1 E) as (_ & _ & HO).
      exfalso. apply (HT u d1 (HT1 u H2) N1); [done|by apply HO].
    + intros [sz E] [sz2 E2]. destruct (Hoth d1 sz N1 E) as (_ & _ & ->), (Hoth d2 sz2 N2 E2) as (_ & _ & ->). by apply O.
  - intros u Hu. destruct (HK u Hu) as (H1 & H2 & H3 & H4). split_and!; [done|done|]. intros d'. destruct (decide (d' = d)) as [->|Hne].
    + rewrite lookup_partial_alter_eq. exact H4.
    + rewrite lookup_partial_alter_ne by done. intros [sz E]. destruct (Hoth d' sz Hne E) as (_ & _ & ->). by apply H3.
Qed.

(** An operation on the space [d], or that makes it. *)
Definition reach s l (d u : Z) : Prop := u ∈ l ∨ is_Some (spaces s !! d) ∧ owns (pages (mk s)) d u.
Lemma typed_space s l k' l' d o :
  typed s l → kalloc_inv k' l' → (∀ u, ¬ reach s l d u → pages k' !! u = pages (mk s) !! u) → (∀ u, u ∈ l' → reach s l d u) →
  (∀ sz, o = Some sz → uspace k' l' d ∧ sized (pages k') d sz ∧ ∀ u, owns (pages k') d u → reach s l d u) →
  typed (Mem k' (partial_alter (λ _, o) d (spaces s)) (held s)) l'.
Proof.
  intros Ht Hk' Hfr Hl' Hd. pose proof Ht as [I S O H]. apply (typed_update s l k' l' d o (reach s l d)); try done.
  - intros u d' [Hu|[Hs Ho]] Hne [sz Hs'] Ho'; [|by apply Hne, (O d' d u)].
    destruct (S d' sz Hs') as [Hsp _]. by apply (owns_used _ _ _ _ Hsp) in Ho' as [_ ?].
  - intros u Hu. destruct (H u Hu) as (H1 & H2 & H3). assert (¬ reach s l d u) as Hn by (intros [?|[? Ho]]; [done|by apply (H3 d)]).
    split_and!; [done|by intros ?%Hl'|by eauto|]. intros [sz E] Ho. by apply Hn, (Hd sz E).
Qed.
Lemma reach_in s l d sz u : spaces s !! d = Some sz → reach s l d u ↔ u ∈ l ∨ owns (pages (mk s)) d u.
Proof. intros E. unfold reach. rewrite E. naive_solver. Qed.

Lemma typed_resize s l k' l' d sz sz' :
  typed s l → spaces s !! d = Some sz → uspace k' l' d → sized (pages k') d sz' →
  (∀ u, u ∈ l ∨ owns (pages (mk s)) d u ↔ u ∈ l' ∨ owns (pages k') d u) →
  (∀ u, u ∉ l → ¬ owns (pages (mk s)) d u → pages k' !! u = pages (mk s) !! u) → typed (Mem k' (<[d := sz']> (spaces s)) (held s)) l'.
Proof.
  intros Ht E Hs Hz Hacc Hfr. apply (typed_space s l); [done|apply Hs|..].
  - intros u Hn. rewrite (reach_in s l d sz u E) in Hn. apply Hfr; tauto.
  - intros u Hu. rewrite (reach_in s l d sz u E). apply Hacc. by left.
  - intros ? [= <-]. split_and!; [done|done|]. intros u Hu. rewrite (reach_in s l d sz u E). apply Hacc. by right.
Qed.
(** The contents or flags of the pages of [d] change. *)
Lemma typed_same s l k' d sz :
  typed s l → spaces s !! d = Some sz → uspace k' l d → (∀ va, 0 ≤ va < KERNBASE → present (pages k') d va ↔ present (pages (mk s)) d va) →
  (∀ u, owns (pages k') d u ↔ owns (pages (mk s)) d u) → (∀ u, ¬ owns (pages (mk s)) d u → pages k' !! u = pages (mk s) !! u) →
  typed (Mem k' (spaces s) (held s)) l.
Proof.
  intros Ht E Hs Hp Ho Hfr. rewrite <- (insert_id (spaces s) d sz E). destruct (ty_space _ _ Ht d sz E) as [_ [Hz Hz']].
  eapply (typed_resize s l k' l d sz sz); try done.
  - split; [done|]. intros va Hva. rewrite Hp by done. by apply Hz'.
  - intros u. by rewrite Ho.
  - intros u _. apply Hfr.
Qed.

(** ** The operations, one by one *)

Definition step_ok (o : vm_op) s : Prop :=
  ∃ r k' t l', call o s (mk s) = Ret r k' t ∧ typed (Mem k' (spaces_after o s r) (held_after o s r)) l'.

Lemma no_space_0 s l : typed s l → spaces s !! 0 = None.
Proof.
  intros [_ S _ _]. destruct (spaces s !! 0) as [sz|] eqn:E; [|done]. destruct (S 0 sz E) as [[_ [[(_ & H & _) _] _ _] _] _]. pose proof kend_pos. lia.
Qed.
(** An operation on pages that no space has. *)
Lemma typed_pages s l k' l' (T : Z → Prop) K' :
  typed s l → kalloc_inv k' l' → (∀ u, ¬ T u → pages k' !! u = pages (mk s) !! u) → (∀ u, u ∈ l' → T u) →
  (∀ u, T u ∨ u ∈ K' → u ∈ l ∨ u ∈ held s) → (∀ u, u ∈ K' → u ∉ l') → typed (Mem k' (spaces s) K') l'.
Proof.
  intros Ht Hk' Hfr Hl' HT HK. pose proof Ht as [I S O H].
  assert (∀ u d', u ∈ l ∨ u ∈ held s → is_Some (spaces s !! d') → ¬ owns (pages (mk s)) d' u) as Hno.
  { intros u d' [Hu|Hu] [sz E] Ho; [|by apply (proj2 (proj2 (H u Hu)) d')]. destruct (S d' sz E) as [Hs _]. by apply (owns_used _ _ _ _ Hs) in Ho as [_ ?]. }
  rewrite <- (delete_id (spaces s) 0) by (by eapply no_space_0). apply (typed_update s l k' l' 0 None T); try done.
  - intros u d' Hu _. apply Hno, HT. by left.
  - intros u Hu. assert (u ∈ l ∨ u ∈ held s) as Hor by (apply HT; by right). split_and!; [|by apply HK|by eauto|by intros []].
    destruct Hor as [Hul|Huh]; [|apply (H u Huh)]. pose proof (ki_range _ _ I) as Hr. rewrite Forall_forall in Hr. by apply Hr.
Qed.

Lemma step_alloc s l : typed s l → step_ok OpAlloc s.
Proof.
  intros Ht. pose proof Ht as [I S O H]. destruct l as [|v l].
  { exists 0, (mk s), [], []. split; [exact (kalloc_empty _ I)|]. cbn. by destruct s. }
  destruct (kalloc_pop _ v l I) as (Hv & Hvl & k' & E & Hk' & Hp & _). exists v, k', [], l. split; [exact E|]. cbn [spaces_after held_after].
  rewrite decide_False by (pose proof (allocatable_pos v Hv); lia). apply (typed_pages s (v :: l) k' l (.∈ l)); try done.
  - intros u _. by rewrite Hp.
  - set_solver.
  - intros u [->%elem_of_singleton|Hu]%elem_of_union; [done|]. by destruct (H u Hu) as (_ & [_ ?]%not_elem_of_cons & _).
Qed.

Lemma step_free s l v : typed s l → v ∈ held s → step_ok (OpFree v) s.
Proof.
  intros Ht Hv. pose proof Ht as [I S O H]. destruct (H v Hv) as (Ha & Hl & _). destruct (kfree_push _ l v I Ha Hl) as (k' & E & Hk' & Hp & _).
  exists 0, k', [], (v :: l). split; [cbn [call]; by mstep E|]. apply (typed_pages s l k' (v :: l) (.∈ v :: l)); try done.
  - intros u [Hu _]%not_elem_of_cons. by apply Hp.
  - intros u. cbn. set_solver.
  - intros u. cbn. intros [Hu Hn]%elem_of_difference. apply not_elem_of_cons. split; [set_solver|by apply (H u Hu)].
Qed.

Lemma step_write s l v pg : typed s l → v ∈ held s → length pg = 4096%nat → Forall byte pg → step_ok (OpWrite v pg) s.
Proof.
  intros Ht Hv Hlen Hb. pose proof Ht as [I S O H]. destruct (H v Hv) as (Ha & Hl & _). destruct (ki_dom _ _ I v Ha) as [pg0 Hpg].
  pose proof (page_set_run (mk s) v pg0 pg Hpg) as E. eexists 0, _, [], l. split; [cbn [call]; by mstep E|].
  apply (typed_pages s l _ l (λ u, u ∈ l ∨ u = v)); try done.
  - by apply kalloc_inv_page.
  - intros u Hu. cbn. rewrite lookup_insert_ne; [done|]. intros <-. apply Hu. by right.
  - by left.
  - cbn. set_solver.
  - intros u Hu. apply (H u Hu).
Qed.

Lemma size_is s d sz : spaces s !! d = Some sz → size_of s d = sz.
Proof. intros E. unfold size_of. by rewrite E. Qed.
Lemma sized_start m d : (∀ va, 0 ≤ va < KERNBASE → ¬ present m d va) → sized m d 0.
Proof. intros H. split; [unfold KERNBASE; lia|]. intros va Hva. change (PGROUNDUP 0) with 0. split; [by intros ?%H|lia]. Qed.

(** Nothing new but the free pages. *)
Lemma typed_back s l k' l' :
  typed s l → kalloc_inv k' l' → (∀ u, u ∈ l' → u ∈ l) → (∀ u, u ∉ l → pages k' !! u = pages (mk s) !! u) → typed (Mem k' (spaces s) (held s)) l'.
Proof.
  intros Ht Hk Hl Hfr. apply (typed_pages s l k' l' (.∈ l)); try done. intros u Hu Hul. by apply (ty_held _ _ Ht u Hu), Hl.
Qed.
(** A new space out of free pages. *)
Lemma typed_new s l k' l' d sz :
  typed s l → uspace k' l' d → sized (pages k') d sz → (∀ u, u ∈ l ↔ u ∈ l' ∨ owns (pages k') d u) → (∀ u, u ∉ l → pages k' !! u = pages (mk s) !! u) →
  typed (Mem k' (<[d := sz]> (spaces s)) (held s)) l'.
Proof.
  intros Ht Hs Hz Hacc Hfr. apply (typed_space s l); [done|apply Hs|..].
  - intros u Hn. apply Hfr. intros Hu. apply Hn. by left.
  - intros u Hu. left. apply Hacc. by left.
  - intros ? [= <-]. split_and!; [done|done|]. intros u Hu. left. apply Hacc. by right.
Qed.

Lemma step_setup s l : typed s l → step_ok OpSetup s.
Proof.
  intros Ht. destruct (setupkvm_run (mk s) l (ty_inv _ _ Ht)) as (d & k' & l' & E & Hk' & Hfr & Hd). exists d, k', [], l'. split; [done|]. cbn [spaces_after held_after].
  destruct Hd as [(-> & Hin & _)|(Hd0 & Hs & Hacc & Hx)].
  - rewrite decide_True by done. apply (typed_back s l); try done. by intros u ?%Hin.
  - rewrite decide_False by done. apply (typed_new s l); try done. apply sized_start. intros va Hva. unfold present.
    rewrite Hx by (unfold KERNBASE in *; lia). by rewrite (kmap_pte_low KERNBASE) by (apply kmap_ok_kernel || lia).
Qed.

Lemma step_drop s l d : typed s l → is_Some (spaces s !! d) → step_ok (OpDrop d) s.
Proof.
  intros Ht [sz E]. destruct (ty_space _ _ Ht d sz E) as [Hs _]. destruct (freevm_run _ l d Hs) as (k' & freed & R & Hk' & Hin & Hfr).
  exists 0, k', [], (freed ++ l). split; [cbn [call]; by mstep R|]. apply (typed_space s l); [done|done|..].
  - intros u Hn. apply Hfr. rewrite Hin. intros Ho. apply Hn. right. by rewrite E.
  - intros u [Hu%Hin|Hu]%elem_of_app; [right; by rewrite E|by left].
  - done.
Qed.

Lemma sized_built {T0 m0 want kern T k l d} sz :
  built T0 m0 want kern T k l d (PGROUNDUP sz) → 0 ≤ sz < KERNBASE → (∀ va, 0 ≤ va < PGROUNDUP sz → is_Some (want va)) → sized (pages k) d sz.
Proof.
  intros [_ _ _ _ Hu _] Hsz Hw. split; [done|]. intros va Hva. specialize (Hu va Hva). case_bool_decide as Hlt; [|done].
  destruct (Hw va ltac:(lia)) as [[f b] E]. rewrite E in Hu. destruct Hu as [Hp _]. done.
Qed.

Lemma step_grow s l d n : typed s l → is_Some (spaces s !! d) → 0 ≤ n → step_ok (OpGrow d n) s.
Proof.
  intros Ht [sz E] Hn. destruct (ty_space _ _ Ht d sz E) as [Hs [Hsz Hz]]. unfold step_ok. cbn [call spaces_after held_after].
  rewrite (size_is s d sz E).
  assert (Mem (mk s) (spaces s) (held s) = s) as Es by (by destruct s).
  destruct (decide (KERNBASE ≤ n)) as [Hk|Hk].
  { exists 0, (mk s), [], l. unfold allocuvm. rewrite bool_decide_true by done. split; [done|]. rewrite decide_True by done. by rewrite Es. }
  destruct (decide (n < sz)) as [Hlt|Hge].
  { exists sz, (mk s), [], l. unfold allocuvm. rewrite bool_decide_false, bool_decide_true by lia. split; [done|]. rewrite decide_False by lia. by rewrite insert_id, Es. }
  destruct (allocuvm_run d sz n (mk s) l Hs) as (r & k' & l' & out & R & Hr); [lia| |].
  { intros va Hva. destruct (round_size sz Hsz) as (_ & ? & _). rewrite Hz by lia. lia. }
  exists r, k', out, l'. split; [done|]. assert (∀ va, 0 ≤ va → is_Some (grow_want d sz (mk s) va)) as Hw.
  { intros va Hva. unfold grow_want. case_bool_decide; [|done]. destruct (round_size sz Hsz) as (_ & _ & ?).
    assert (present (pages (mk s)) d va) as Hp by (apply Hz; lia). unfold present in Hp. by rewrite Hp. }
  assert (∀ sz', 0 ≤ sz' < KERNBASE → built (grow_pages d (mk s) l) (pages (mk s)) (grow_want d sz (mk s)) (xlate (pages (mk s)) d) (grow_pages d (mk s) l) k' l' d (PGROUNDUP sz') →
    typed (Mem k' (<[d := sz']> (spaces s)) (held s)) l') as Hb.
  { intros sz' Hsz' Hb. pose proof (sized_built sz' Hb Hsz' ltac:(intros; apply Hw; lia)) as Hz'. destruct Hb as [B1 B2 _ B4 _ _].
    eapply (typed_resize s l k' l' d sz); try done. intros u Hul Huo. apply B4. by intros [?|?]. }
  destruct Hr as [(-> & _ & H)|(-> & _ & H & _)].
  - case_decide as Hn0; [|apply Hb; [lia|done]]. subst n. assert (sz = 0) as -> by lia. rewrite <- (insert_id _ _ _ E). apply Hb; [lia|done].
  - rewrite decide_True by done. rewrite <- (insert_id _ _ _ E). by apply Hb.
Qed.

Lemma step_shrink s l d n : typed s l → is_Some (spaces s !! d) → 0 ≤ n → step_ok (OpShrink d n) s.
Proof.
  intros Ht [sz E] Hn. destruct (ty_space _ _ Ht d sz E) as [Hs [Hsz Hz]]. unfold step_ok. cbn [call spaces_after held_after]. rewrite (size_is s d sz E).
  destruct (decide (sz ≤ n)) as [Hge|Hlt].
  { exists sz, (mk s), [], l. unfold deallocuvm. rewrite bool_decide_true by done. split; [done|]. rewrite insert_id by done. by destruct s. }
  destruct (deallocuvm_run d sz n (mk s) l (us_inv _ _ _ Hs) (us_vm _ _ _ Hs) (us_user _ _ _ Hs)) as (k' & freed & R & Hsh); [lia|lia|].
  destruct (shrunk_space _ _ _ _ _ _ _ Hs Hsh) as (Hs' & Hown & Hfr & Hout & Hin). exists n, k', [], (freed ++ l). split; [done|].
  eapply (typed_resize s l k' (freed ++ l) d sz n); try done; [|intros u _; apply Hfr].
  destruct (round_size n ltac:(lia)) as (A1 & A2 & A3), (round_size sz Hsz) as (B1 & B2 & B3).
  split; [lia|]. intros va Hva. destruct (page_in (PGROUNDUP n) sz va) eqn:Ep.
  - apply bool_decide_eq_true in Ep. split; [by intros ?%Hin; [| |apply bool_decide_eq_true]|]. Z.div_mod_to_equations. lia.
  - apply bool_decide_eq_false in Ep. destruct (Hout va) as [Hx _]; [unfold KERNBASE in *; lia|by apply bool_decide_eq_false|].
    assert (present (pages k') d va ↔ present (pages (mk s)) d va) as -> by (unfold present; by rewrite Hx). rewrite Hz by done. Z.div_mod_to_equations. lia.
Qed.

Lemma step_copy s l d : typed s l → is_Some (spaces s !! d) → step_ok (OpCopy d) s.
Proof.
  intros Ht [sz E]. destruct (ty_space _ _ Ht d sz E) as [Hs [Hsz Hz]]. unfold step_ok. cbn [call spaces_after held_after]. rewrite (size_is s d sz E).
  destruct (round_size sz Hsz) as (A1 & A2 & A3).
  destruct (copyuvm_run d sz (mk s) l Hs) as (r & k' & l' & R & [C1 _ C3 C4]); [lia|intros va Hva; apply Hz; lia|].
  exists r, k', [], l'. split; [done|]. destruct C4 as [(-> & (lost & _ & Hl) & _)|(Hr & Hb)].
  - rewrite decide_True by done. apply (typed_back s l); try done; [apply C1|]. intros u Hu. apply Hl. by right.
  - rewrite decide_False by done. pose proof (sized_built sz Hb Hsz ltac:(by eexists)) as Hz'. destruct Hb as [B1 B2 _ B4 _ _]. by apply (typed_new s l).
Qed.

Lemma step_out s l d va buf :
  typed s l → is_Some (spaces s !! d) → 0 ≤ va → va + Z.of_nat (length buf) ≤ PGROUNDUP (size_of s d) → Forall byte buf → step_ok (OpOut d va buf) s.
Proof.
  intros Ht [sz E] Hva Hmax Hb. rewrite (size_is s d sz E) in Hmax. destruct (ty_space _ _ Ht d sz E) as [Hs [Hsz Hz]]. destruct (round_size sz Hsz) as (A1 & A2 & A3).
  destruct (copyout_loop_any (length buf + 1) (mk s) l d va buf Hs Hva ltac:(lia) Hb) as (r & k' & R & [K1 K2 K3 K4]); [intros a Ha; apply Hz; lia|lia|].
  exists r, k', [], l. split; [done|]. eapply (typed_same s l); try done. intros a Ha. unfold present. by rewrite K2 by (unfold KERNBASE in *; lia).
Qed.

Lemma step_guard s l d g : typed s l → is_Some (spaces s !! d) → 0 ≤ g < PGROUNDUP (size_of s d) → step_ok (OpGuard d g) s.
Proof.
  intros Ht [sz E] Hg. rewrite (size_is s d sz E) in Hg. destruct (ty_space _ _ Ht d sz E) as [Hs [Hsz Hz]]. destruct (round_size sz Hsz) as (A1 & A2 & A3).
  assert (present (pages (mk s)) d g) as Hp by (apply Hz; lia).
  destruct (clearpteu_any (mk s) l d g Hs ltac:(lia) Hp) as (k' & R & Hs' & Ho & Hfr & Hx & _).
  exists 0, k', [], l. split; [cbn [call]; by mstep R|]. eapply (typed_same s l); try done. intros va Hva. unfold present. rewrite Hx by (unfold KERNBASE in *; lia).
  case_bool_decide as Eq; [|done]. destruct (clear_user (xlate (pages (mk s)) d g)) as (_ & -> & _). by rewrite (xlate_page _ _ va g) by (unfold KERNBASE in *; lia).
Qed.

Lemma allowed_step o s l : typed s l → allowed o s = true → step_ok o s.
Proof.
  intros Ht. destruct o; cbn [allowed]; try (intros H%bool_decide_eq_true); try (intros _).
  - by eapply step_alloc.
  - by eapply step_free.
  - destruct H as (? & ? & ?). by eapply step_write.
  - by eapply step_setup.
  - by eapply step_drop.
  - destruct H. by eapply step_grow.
  - destruct H. by eapply step_shrink.
  - by eapply step_copy.
  - destruct H as (? & ? & ? & ?). by eapply step_out.
  - destruct H as (? & ?). by eapply step_guard.
Qed.

End typing.

