(* ===== verification/ExecBoot.v ===== *)
(** Running a program of the disk: [exec] (src/exec.c) up to its last page
    table, of a file that mkfs put into the image, on a file system that booted
    from it ([exec_on_image]).  The new memory is what the file describes, with
    the arguments on the stack; or all memory is as before. *)
From S2P Require Import Prelude Layout Bytes Spinlock Sleeplock CString Format Kalloc Vm VmSpec Bio Log Console Fs FsSpec FsFile FsDir FsRef Directory Mkfs MkfsSpec MkfsBoot File Args Sysfile Exec ExecSpec ExecLoad.

(** A state that differs in the file system and the memory only. *)
Definition only_fs_mem (s s' : sstate) : Prop := s' = set_sfs (s_fs s') (set_skmem (s_kmem s') s).
Lemma only_fs_mem_set s s' k : only_fs_mem s s' → only_fs_mem s (set_skmem k s').
Proof. unfold only_fs_mem. intros ->. by destruct s. Qed.
Lemma only_fs_mem_fs s s' x : only_fs_mem s s' → only_fs_mem s (set_sfs x s').
Proof. unfold only_fs_mem. intros ->. by destruct s. Qed.
Lemma only_fs_mem_trans s1 s2 s3 : only_fs_mem s1 s2 → only_fs_mem s2 s3 → only_fs_mem s1 s3.
Proof. unfold only_fs_mem. intros -> ->. by destruct s1. Qed.

(** The end of a transaction that wrote nothing. *)
Lemma end_clean s a :
  fsrep s a [] → txn (f_log s) = (1, false) →
  ∃ l t, on_log end_op s = Ret tt (set_flog l s) t ∧ dwrites t = [] ∧ fsrep (set_flog l s) a [] ∧ txn l = (0, false).
Proof.
  intros Hf [= Ho Hc]. pose proof (fr_log _ _ _ Hf) as Hl. pose proof Hl as [L1 L2 L3 L4 L5 L6 L7 L8].
  set (l1 := set_committing true (set_outstanding 0 (f_log s))).
  assert (commit l1 = Ret tt l1 []) as R by (by apply commit_nothing).
  pose proof (end_op_last (f_log s) l1 [] L2 Hc Ho R L2) as R2. exists (set_committing false l1). eexists. split_and!.
  - exact (zoom_run _ _ _ _ _ _ _ R2).
  - done.
  - destruct Hf. split; try done; by split.
  - done.
Qed.

(** * What [exec] leaves *)

Section result.
Context {KI : KernelImage}.
(** Every page of [l0] is free, the others are as in [k0]. *)
Definition memory_back (k0 : kstate) (l0 : list Z) (k : kstate) : Prop :=
  ∃ l, kalloc_inv k l ∧ (∀ u, u ∈ l0 ↔ u ∈ l) ∧ ∀ u, u ∉ l0 → pages k !! u = pages k0 !! u.

(** The program in the file [C] is in memory, or nothing has changed and the
    file is no program or there was too little memory for it. *)
Definition exec_result (k0 : kstate) (l0 C path : list Z) (argv : list (list Z)) (r : option image) (k : kstate) : Prop :=
  match r with
  | Some im => ∃ entry sz B l, program C = Some (entry, sz, B) ∧
      im = Image (im_pgdir im) (PGROUNDUP sz + 2 * PGSIZE) entry (im_sp im) (exec_last path path) ∧
      starts_with l0 (pages k0) B sz argv (im_sp im) k l (im_pgdir im)
  | None => memory_back k0 l0 k ∧
      ∀ entry sz B, program C = Some (entry, sz, B) → Z.of_nat (length l0) ≤ 1029 + PGROUNDUP sz / PGSIZE
  end.
End result.

Section run.
Context {KI : KernelImage} {KO : KernelImageOk KI}.
(** The state when [exec] has locked the program's inode. *)
Context (s1 : sstate) (ip : nat) (i : inode) (a : acache) (m C l0 : list Z).
Hypothesis Hfile : file_ok (s_fs s1) ip i a [] m.
Hypothesis HC : contents a i = C.
Hypothesis Hbytes : Forall byte C.
Hypothesis Htype : i_type i ≠ T_DEV.
Hypothesis Hlock : sl_lk (i_lock i) = false ∧ sl_locked (i_lock i) = true.
Hypothesis Href : 1 ≤ i_ref i ∧ i_nlink i ≠ 0.
Hypothesis Hcache : f_icheld (s_fs s1) = false.
Hypothesis Htxn : txn (f_log (s_fs s1)) = (1, false).
Hypothesis Hmem : kalloc_inv (s_kmem s1) l0.
Abbreviation m0 := (pages (s_kmem s1)).

(** No transaction and no lock is left, and nothing else has changed. *)
Record fs_closed (s : sstate) : Prop := FsClosed {
  fc_rep : fsrep (s_fs s) a [];
  fc_txn : txn (f_log (s_fs s)) = (0, false);
  fc_cache : only_cache (s_fs s1) (s_fs s);
  fc_rest : only_fs_mem s1 s
}.

Lemma fs_closed_kmem k s : fs_closed s → fs_closed (set_skmem k s).
Proof. intros []. split; try done. by apply only_fs_mem_set. Qed.

Lemma close_run s :
  only_log (s_fs s1) (s_fs s) → fsrep (s_fs s) a [] → only_fs_mem s1 s →
  returns (on_fs (iunlockput ip);; end_trans) (λ _ s', fs_closed s' ∧ s_kmem s' = s_kmem s) s.
Proof.
  intros Hlog Hrep Hrest. pose proof (fo_view _ _ _ _ _ _ Hfile) as Hv. apply returns_bind, returns_zoom.
  assert (f_inodes (s_fs s) !! ip = Some i) as Hi by (rewrite (only_log_inodes _ _ Hlog); apply Hv).
  eapply returns_mono; [apply (iunlockput_run (s_fs s) ip i); [by rewrite (only_log_icheld _ _ Hlog)|done|apply Hlock|apply Hlock|apply Href|apply Href]|].
  intros _ x ->. set (x := with_inode _ _ _). assert (fsrep x a []) as Hx by (by apply fsrep_inodes).
  destruct (end_clean x a Hx) as (l & t & R & Ht & Hf & El); [unfold x; cbn; destruct Hlog as [_ E]; by rewrite E|].
  unfold end_trans, on_fs. eapply returns_run; [apply zoom_run; exact R|done|]. split; [|done]. split; [done|done| |].
  - change (only_cache (s_fs s1) (set_flog l x)). eapply only_cache_trans; [by apply only_log_cache|].
    eapply only_cache_trans; [apply (with_inode_cache ip (put_entry i))|]. fold x. by destruct x.
  - by apply only_fs_mem_fs, only_fs_mem_fs.
Qed.

Abbreviation memory_back := (memory_back (s_kmem s1) l0).
Definition exec_failed (r : option image) (s : sstate) : Prop := r = None ∧ fs_closed s ∧ memory_back (s_kmem s).

(** The label [bad], before and after the page directory is there. *)
Lemma bad_early s :
  only_log (s_fs s1) (s_fs s) → fsrep (s_fs s) a [] → only_fs_mem s1 s → memory_back (s_kmem s) → returns (exec_bad 0 (Some ip)) exec_failed s.
Proof.
  intros Hlog Hrep Hrest Hm. unfold exec_bad. rewrite bool_decide_false by (by intros []). eapply returns_eq; [reflexivity|].
  eapply returns_step; [by apply close_run|]. intros _ s' [Hc Ek]. apply returns_mret. split_and!; [done|done|]. by rewrite Ek.
Qed.

Lemma free_space B k l d x : holds l0 m0 B k l d x → d ≠ 0 ∧ ∃ k', freevm d k = Ret tt k' [] ∧ memory_back k'.
Proof.
  intros H. split.
  - destruct (us_vm _ _ _ (bu_space _ _ _ _ _ _ _ _ _ H)) as [[(_ & Hd & _) _] _ _]. pose proof kend_pos. lia.
  - destruct (build_free _ _ _ _ _ _ _ _ _ H) as (k' & l' & E & H1 & H2 & H3). exists k'. split; [done|]. by exists l'.
Qed.

Lemma bad_late d sz B s : at_load l0 m0 s1 a [] d sz B s → returns (exec_bad d (Some ip)) exec_failed s.
Proof.
  intros [H1 H2 H3 H4 [l H5] H6]. destruct (free_space _ _ _ _ _ H5) as (Hd & k' & E & Hm). unfold exec_bad. rewrite bool_decide_true by done.
  eapply returns_eq; [exact (zoom_run _ _ _ _ _ _ _ E)|]. eapply returns_step; [apply close_run; [done|done|by apply only_fs_mem_set]|]. intros _ s' [Hc Ek].
  apply returns_mret. split_and!; [done|done|]. by rewrite Ek.
Qed.

Lemma bad_stack d B s l x : fs_closed s → holds l0 m0 B (s_kmem s) l d x → returns (exec_bad d None) exec_failed s.
Proof.
  intros Hc H. destruct (free_space _ _ _ _ _ H) as (Hd & k' & E & Hm). unfold exec_bad. rewrite bool_decide_true by done.
  eapply returns_eq; [exact (zoom_run _ _ _ _ _ _ _ E)|]. eapply returns_eq; [reflexivity|]. apply returns_mret.
  split_and!; [done|by apply fs_closed_kmem|done].
Qed.

Definition exec_post (path : list Z) (argv : list (list Z)) (r : option image) (s : sstate) : Prop :=
  fs_closed s ∧ exec_result (s_kmem s1) l0 C path argv r (s_kmem s).

Lemma post_none path argv s :
  exec_failed None s → (∀ entry sz B, program C = Some (entry, sz, B) → short_of (.∈ l0) (PGROUNDUP sz + 8192)) → exec_post path argv None s.
Proof.
  intros (_ & Hc & Hm) Hsh. split; [done|]. split; [done|]. intros entry sz B Hp.
  pose proof (short_length _ _ l0 (Hsh _ _ _ Hp) (ki_nodup _ _ Hmem) ltac:(done)) as Hl. unfold PGSIZE. Z.div_mod_to_equations. lia.
Qed.
Lemma failed_none path argv m' s :
  returns m' exec_failed s → (∀ entry sz B, program C = Some (entry, sz, B) → short_of (.∈ l0) (PGROUNDUP sz + 8192)) →
  returns m' (exec_post path argv) s.
Proof. intros H Hp. eapply returns_mono; [exact H|]. intros r s' Hf. pose proof Hf as [-> _]. by apply post_none. Qed.

Lemma header_read :
  returns (on_fs (readi ip 0 sizeof_elfhdr)) (λ r s, read_as C 0 sizeof_elfhdr r ∧ s_kmem s = s_kmem s1 ∧
    only_log (s_fs s1) (s_fs s) ∧ fsrep (s_fs s) a [] ∧ s = set_sfs (s_fs s) s1) s1.
Proof.
  pose proof (fo_view _ _ _ _ _ _ Hfile) as Hv. assert (0 ≤ i_size i ≤ MAXFILE * BSIZE) as Hsize by (split; apply Hfile).
  assert (length (@nil Z) < NBUF)%nat as HL by (unfold NBUF, MAXOPBLOCKS; cbn; lia). apply returns_zoom.
  eapply returns_mono; [eapply (file_read ip i a [] m C HL Htype (fo_full _ _ _ _ _ _ Hfile) Hsize HC Hbytes); [exact Hv|lia|done]|].
  intros r x (Hr & Hlog & Hrep). by split_and!.
Qed.

(** The load and the stack, once the page directory is there. *)
Lemma exec_body_run path argv elf d s :
  args_fit argv → at_load l0 m0 s1 a [] d 0 (λ _, 0) s →
  elf = elfhdr_of (slice C 0 (Z.to_nat sizeof_elfhdr)) → sizeof_elfhdr ≤ Z.of_nat (length C) → elf_magic elf = ELF_MAGIC →
  returns (o ← exec_load (Z.to_nat (elf_phnum elf)) d ip (i32 (elf_phoff elf)) 0;
      match o with
      | None => exec_bad d (Some ip)
      | Some sz =>
          on_fs (iunlockput ip);; end_trans;;
          o ← on_kmem (exec_stack d sz argv);
          match o with
          | None => exec_bad d None
          | Some (sz, sp) => mret (Some (Image d sz (elf_entry elf) sp (exec_last path path)))
          end
      end) (exec_post path argv) s.
Proof.
  intros Hargs Hal Eelf Hlen Hmag. pose proof (fo_view _ _ _ _ _ _ Hfile) as Hv. assert (0 ≤ i_size i ≤ MAXFILE * BSIZE) as Hsize by (split; apply Hfile).
  assert (length (@nil Z) < NBUF)%nat as HL by (unfold NBUF, MAXOPBLOCKS; cbn; lia). pose proof (fo_full _ _ _ _ _ _ Hfile) as Hfull.
  assert (program C = '(sz, B) ← load_file C (Z.to_nat (elf_phnum elf)) (i32 (elf_phoff elf)) 0 (λ _, 0);
    if bool_decide (PGROUNDUP sz + 2 * PGSIZE < KERNBASE) then Some (elf_entry elf, sz, B) else None) as Eprog.
  { unfold program. rewrite <- Eelf, bool_decide_true, bool_decide_true by done. done. }
  eapply returns_step; [by apply (exec_load_run l0 m0 s1 ip i a [] m C Hv HL Htype Hfull Hsize HC Hbytes)|]. intros [sz|] s2; cbn [loaded_as].
  - intros (B & Eload & [H1 H2 H3 H4 [l H5] H6]). rewrite Eload in Eprog. cbn in Eprog.
    apply returns_assoc. eapply returns_step; [by apply close_run|]. intros _ s3 [Hcl Ek].
    destruct (exec_stack_run l0 m0 B (s_kmem s2) l d sz argv H5 H4 H6 Hargs) as (r & k' & out & R & Ho & Hr). rewrite <- Ek in R.
    apply returns_bind. eapply returns_run; [exact (zoom_run _ _ _ _ _ _ _ R)|done|]. destruct r as [[sz' sp]|].
    + destruct Hr as (Htop & -> & l' & Hst). apply returns_mret. split; [by apply fs_closed_kmem|]. exists (elf_entry elf), sz, B, l'. cbn [im_pgdir im_sp].
      split_and!; [|done|done]. rewrite Eprog. by rewrite bool_decide_true by done.
    + destruct Hr as (Hsh & l' & Hh). apply failed_none; [eapply bad_stack; [by apply fs_closed_kmem|exact Hh]|]. intros entry sz' B'. rewrite Eprog. case_bool_decide; [|done].
      intros [= _ <- _]. by apply Hsh.
  - intros (Hsh & sz & B & Hal2). apply failed_none; [by eapply bad_late|]. intros entry sz' B'. rewrite Eprog.
    destruct (load_file _ _ _ _ _) as [[sz2 B2]|] eqn:El; cbn; [|done]. case_bool_decide; [|done]. intros [= _ <- <-].
    eapply short_mono; [by eapply Hsh|]. destruct (PGROUNDUP_spec sz2) as (_ & _ & ?); [|lia].
    pose proof (load_file_grows _ _ _ _ _ _ _ El). pose proof (load_file_below _ _ _ _ _ _ _ El). unfold KERNBASE in *. lia.
Qed.

Lemma exec_locked_run path argv :
  args_fit argv → returns (exec_locked path argv ip) (exec_post path argv) s1.
Proof.
  intros Hargs. unfold exec_locked. eapply returns_step; [apply header_read|]. intros [r b] s2 (Hr & Ek & Hlog & Hrep & Es).
  assert (only_fs_mem s1 s2) as Hrest by (unfold only_fs_mem; rewrite Es; by destruct s1).
  assert (memory_back (s_kmem s2)) as Hm by (rewrite Ek; by exists l0). pose proof (bad_early s2 Hlog Hrep Hrest Hm) as Hbad.
  assert (∀ P : Prop, program C = None → ∀ entry sz (B : Z → Z), program C = Some (entry, sz, B) → P) as Hnone by (intros P ->; done).
  unfold read_as in Hr. change (0 + sizeof_elfhdr) with sizeof_elfhdr in Hr. change (Z.to_nat 0) with 0%nat in Hr. case_bool_decide as Hlen; cycle 1.
  { rewrite bool_decide_true by apply Hr. apply failed_none; [done|]. intros ???. apply Hnone. unfold program. by rewrite bool_decide_false by done. }
  injection Hr as -> ->. rewrite bool_decide_false by (intros X; by apply X). set (elf := elfhdr_of _). cbv zeta. case_bool_decide as Hmag.
  { apply failed_none; [done|]. intros ???. apply Hnone. unfold program. fold elf. by rewrite (bool_decide_false (elf_magic elf = ELF_MAGIC)), andb_false_r by done. }
  destruct (setupkvm_holds l0 m0 (s_kmem s1) eq_refl Hmem) as (d & k' & l' & R & Hd). rewrite <- Ek in R.
  eapply returns_eq; [exact (zoom_run _ _ _ _ _ _ _ R)|]. destruct Hd as [(-> & Hk' & Hin & Hkept & Hsh)|(Hd0 & Hh)].
  - rewrite bool_decide_true by done. apply failed_none; [apply bad_early; [done|done|by apply only_fs_mem_set|by exists l']|]. intros entry sz B Hp.
    eapply short_mono; [exact Hsh|]. assert (0 ≤ PGROUNDUP sz); [|lia]. apply Z.land_nonneg. left. apply u32_range.
  - rewrite bool_decide_false by done. apply exec_body_run; try done. split; try done; [|by exists l'].
    cbn. rewrite Es. by destruct s1.
Qed.
End run.

(** * Booting and running *)

(** The file system of the image [D] after the boot. *)
Record fs_up (D : list (list Z)) (x : fstate) : Prop := FsUp {
  up_rep : fsrep x (a_boot D) [];
  up_sb : f_sb x = Mkfs.sb;
  up_held : f_icheld x = false;
  up_cache : f_inodes x = boot_cache;
  up_txn : txn (f_log x) = (0, false)
}.

Lemma boot_up D m fb files root addrs :
  fs_image D m fb files root addrs → ∃ s t, forkret_first (fs_first D) = Ret tt s t ∧ fs_up D s.
Proof.
  intros Him. destruct (forkret_first_run _ _ _ _ _ _ Him) as (s & t & R & Hf & Esb & Hi & Hc & Hout & Hcom). exists s, t. split; [exact R|].
  split; [exact Hf|exact Esb|exact Hc|exact Hi|]. unfold txn. by rewrite Hout, Hcom.
Qed.

Section on_image.
Context {KI : KernelImage} {KO : KernelImageOk KI}.
Context (files : list (list Z * list Z)) (D : list (list Z)) (m : list Z) (fb : Z) (root : list Z) (addrs : list (list Z)).
Hypothesis Him : fs_image D m fb files root addrs.
Hypothesis Hfit : Forall file_fits files.
Hypothesis Hlen : Z.of_nat (length files) + 1 < Mkfs.NINODES.
Hypothesis Hround : (2 + Z.of_nat (length files)) mod 32 ≠ 0.
Context (j : nat) (name content : list Z).
Hypothesis Hj : files !! j = Some (name, content).
Hypothesis Hne : strip name ≠ [].
Hypothesis H0 : 0 ∉ name.
Hypothesis Hfirst : first_named files j (strip name).

Lemma exec_on_image argv st l0 :
  args_fit argv → kalloc_inv (s_kmem st) l0 → fs_up D (s_fs st) →
  returns (exec_image (slash :: strip name) argv) (λ r st',
    exec_result (s_kmem st) l0 content (slash :: strip name) argv r (s_kmem st') ∧
    fsrep (s_fs st') (a_boot D) [] ∧ txn (f_log (s_fs st')) = (0, false) ∧ only_cache (s_fs st) (s_fs st') ∧ only_fs_mem st st') st.
Proof.
  intros Hargs Hmem [Hf Esb Hc Hi Ht]. injection Ht as Hout Hcom. set (s := s_fs st) in *.
  destruct (Forall_lookup_1 _ _ _ _ Hfit Hj) as (Hsl & Hnb & Hcb & Hmax). cbn in Hsl, Hnb, Hcb, Hmax.
  assert ((32 + 16 * Z.of_nat (length files)) mod 512 ≠ 0) as Hround' by (clear -Hround; Z.div_mod_to_equations; lia).
  assert (∃ A, addrs !! j = Some A) as [A HA].
  { apply lookup_lt_is_Some_2. rewrite (fi_files _ _ _ _ _ _ Him). by eapply lookup_lt_Some. }
  destruct (begin_first D s Hf Hout Hcom) as (s1 & R1 & Hf1 & Ho1 & Ht1). unfold exec_image.
  assert (begin_trans st = Ret tt (set_sfs s1 st) []) as R2 by (exact (zoom_run s_fs set_sfs _ st _ _ _ R1)).
  eapply returns_eq; [exact R2|].
  assert (Forall byte (strip name) ∧ strip name ≠ [] ∧ slash ∉ strip name ∧ 0 ∉ strip name) as Hname.
  { split; [by apply strip_bytes|]. split; [exact Hne|]. split; by apply strip_out. }
  apply returns_bind, returns_zoom. eapply returns_mono; [apply (namei_finds D m _ files root addrs Him Hlen Hround' j name content Hj Hname Hfirst s1 Hf1); by rewrite Ho1|].
  intros r s2 (-> & Hf2 & Esb2 & Hi2 & Hc2 & Ht2 & Hoc2).
  apply returns_bind, returns_zoom. eapply returns_mono; [apply (ilock_file D m _ files root addrs Him Hlen j name content Hj s2 A Hf2 Esb2 Hi2 HA Hmax)|].
  intros _ s3 (Hfo & HC & Ho3). set (i := file_in _ _ _ _) in *.
  assert (1 ≤ i_ref i ∧ i_nlink i ≠ 0) as Href by (unfold i, file_in; cbn; lia).
  assert (f_icheld s3 = false) as Hc3 by (destruct Ho3 as [-> _]; exact Hc2).
  assert (txn (f_log s3) = (1, false)) as Ht3 by (destruct Ho3 as [_ E3]; rewrite E3, Ht2; exact Ht1).
  pose proof (exec_locked_run (set_sfs s3 (set_sfs s2 (set_sfs s1 st))) 1 i (a_boot D) m content l0 Hfo HC Hcb ltac:(discriminate)
    (conj eq_refl eq_refl) Href Hc3 Ht3 Hmem (slash :: strip name) argv Hargs) as Hrun.
  eapply returns_mono; [exact Hrun|]. intros r st' ([H1 H2 H3 H4] & H5). refine (conj H5 (conj H1 (conj H2 (conj _ _)))).
  - assert (only_cache s s1) as Hoc1 by (unfold only_cache; rewrite Ho1; by destruct s). cbn [s_fs set_sfs] in H3.
    eapply only_cache_trans; [exact Hoc1|]. eapply only_cache_trans; [exact Hoc2|]. eapply only_cache_trans; [by eapply only_inode_cache|exact H3].
  - eapply only_fs_mem_trans; [|exact H4]. unfold only_fs_mem. by destruct st.
Qed.
End on_image.
