(* ===== verification/ProcTable.v ===== *)
(** The process table (src/proc.c, src/proc.h): its data, the services it
    needs from the memory and file systems (an interface, [ProcServices]),
    and every operation of proc.c except the scheduler loop, which is in
    Scheduler.v.

    A [struct proc*] is the index of its slot; a null pointer is [None].
    Code that stops in [sched()] has the outcome [Blocked CSched]; what the
    process does when it is switched back is a separate definition
    ([sleep_resume], [yield_resume], one more round of [wait_round]). *)
From S2P Require Import Prelude Layout Spinlock Format CString.

Inductive procstate : Type := UNUSED | EMBRYO | SLEEPING | RUNNABLE | RUNNING | ZOMBIE.

#[export] Instance procstate_eq_dec : EqDecision procstate.
Proof. solve_decision. Defined.

(** Code addresses that the kernel plants on a new process's stack. *)
Inductive codeptr : Type := CodeNull | CodeForkret | CodeTrapret | CodeAt (a : Z).

(** [struct context]. *)
Record context := Context {
  ctx_edi : Z; ctx_esi : Z; ctx_ebx : Z; ctx_ebp : Z; ctx_eip : codeptr
}.

(** [struct trapframe] (src/x86.h), without the padding. *)
Record trapframe := Trapframe {
  tf_edi : Z; tf_esi : Z; tf_ebp : Z; tf_oesp : Z;
  tf_ebx : Z; tf_edx : Z; tf_ecx : Z; tf_eax : Z;
  tf_gs : Z; tf_fs : Z; tf_es : Z; tf_ds : Z;
  tf_trapno : Z; tf_err : Z; tf_eip : Z; tf_cs : Z; tf_eflags : Z;
  tf_esp : Z; tf_ss : Z
}.
Definition sizeof_trapframe : Z := 76.
Definition sizeof_context : Z := 20.

Definition tf_zero : trapframe := Trapframe 0 0 0 0 0 0 0 0 0 0 0 0 0 0 0 0 0 0 0.

(** A page fresh from the allocator holds the byte 1 (see [kfree]). *)
Definition tf_junk : trapframe :=
  let w := 16843009 in let h := 257 in
  Trapframe w w w w w w w w h h h h w w w h w w h.

Definition set_eax (v : Z) (f : trapframe) : trapframe :=
  Trapframe (tf_edi f) (tf_esi f) (tf_ebp f) (tf_oesp f) (tf_ebx f) (tf_edx f) (tf_ecx f)
    v (tf_gs f) (tf_fs f) (tf_es f) (tf_ds f) (tf_trapno f) (tf_err f) (tf_eip f)
    (tf_cs f) (tf_eflags f) (tf_esp f) (tf_ss f).

(** [struct proc].  [p_tf] and [p_context] are the contents of the frames on
    the kernel stack, [p_tfaddr] and [p_ctxaddr] the pointers to them, and
    [p_kret] the return address between the two. *)
Record proc := Proc {
  p_sz : Z;
  p_pgdir : Z;
  p_kstack : Z;
  p_state : procstate;
  p_pid : Z;
  p_parent : option nat;
  p_tf : trapframe;
  p_tfaddr : Z;
  p_kret : codeptr;
  p_context : context;
  p_ctxaddr : Z;
  p_chan : option chan;
  p_killed : Z;
  p_ofile : list (option nat);
  p_cwd : option nat;
  p_name : list Z;
  p_priority : Z;
  p_counter : Z
}.

(** The zero-initialised slot of a global array. *)
Definition proc_zero : proc :=
  Proc 0 0 0 UNUSED 0 None tf_zero 0 CodeNull (Context 0 0 0 0 CodeNull) 0 None 0
    (replicate NOFILE None) None (replicate 16 0) 0 0.

Definition set_sz v p := Proc v (p_pgdir p) (p_kstack p) (p_state p) (p_pid p) (p_parent p) (p_tf p) (p_tfaddr p) (p_kret p) (p_context p) (p_ctxaddr p) (p_chan p) (p_killed p) (p_ofile p) (p_cwd p) (p_name p) (p_priority p) (p_counter p).
Definition set_pgdir v p := Proc (p_sz p) v (p_kstack p) (p_state p) (p_pid p) (p_parent p) (p_tf p) (p_tfaddr p) (p_kret p) (p_context p) (p_ctxaddr p) (p_chan p) (p_killed p) (p_ofile p) (p_cwd p) (p_name p) (p_priority p) (p_counter p).
Definition set_kstack v p := Proc (p_sz p) (p_pgdir p) v (p_state p) (p_pid p) (p_parent p) (p_tf p) (p_tfaddr p) (p_kret p) (p_context p) (p_ctxaddr p) (p_chan p) (p_killed p) (p_ofile p) (p_cwd p) (p_name p) (p_priority p) (p_counter p).
Definition set_state v p := Proc (p_sz p) (p_pgdir p) (p_kstack p) v (p_pid p) (p_parent p) (p_tf p) (p_tfaddr p) (p_kret p) (p_context p) (p_ctxaddr p) (p_chan p) (p_killed p) (p_ofile p) (p_cwd p) (p_name p) (p_priority p) (p_counter p).
Definition set_pid v p := Proc (p_sz p) (p_pgdir p) (p_kstack p) (p_state p) v (p_parent p) (p_tf p) (p_tfaddr p) (p_kret p) (p_context p) (p_ctxaddr p) (p_chan p) (p_killed p) (p_ofile p) (p_cwd p) (p_name p) (p_priority p) (p_counter p).
Definition set_parent v p := Proc (p_sz p) (p_pgdir p) (p_kstack p) (p_state p) (p_pid p) v (p_tf p) (p_tfaddr p) (p_kret p) (p_context p) (p_ctxaddr p) (p_chan p) (p_killed p) (p_ofile p) (p_cwd p) (p_name p) (p_priority p) (p_counter p).
Definition set_tf v p := Proc (p_sz p) (p_pgdir p) (p_kstack p) (p_state p) (p_pid p) (p_parent p) v (p_tfaddr p) (p_kret p) (p_context p) (p_ctxaddr p) (p_chan p) (p_killed p) (p_ofile p) (p_cwd p) (p_name p) (p_priority p) (p_counter p).
Definition set_frames a r c b p := Proc (p_sz p) (p_pgdir p) (p_kstack p) (p_state p) (p_pid p) (p_parent p) tf_junk a r c b (p_chan p) (p_killed p) (p_ofile p) (p_cwd p) (p_name p) (p_priority p) (p_counter p).
Definition set_chan v p := Proc (p_sz p) (p_pgdir p) (p_kstack p) (p_state p) (p_pid p) (p_parent p) (p_tf p) (p_tfaddr p) (p_kret p) (p_context p) (p_ctxaddr p) v (p_killed p) (p_ofile p) (p_cwd p) (p_name p) (p_priority p) (p_counter p).
Definition set_killed v p := Proc (p_sz p) (p_pgdir p) (p_kstack p) (p_state p) (p_pid p) (p_parent p) (p_tf p) (p_tfaddr p) (p_kret p) (p_context p) (p_ctxaddr p) (p_chan p) v (p_ofile p) (p_cwd p) (p_name p) (p_priority p) (p_counter p).
Definition set_ofile v p := Proc (p_sz p) (p_pgdir p) (p_kstack p) (p_state p) (p_pid p) (p_parent p) (p_tf p) (p_tfaddr p) (p_kret p) (p_context p) (p_ctxaddr p) (p_chan p) (p_killed p) v (p_cwd p) (p_name p) (p_priority p) (p_counter p).
Definition set_cwd v p := Proc (p_sz p) (p_pgdir p) (p_kstack p) (p_state p) (p_pid p) (p_parent p) (p_tf p) (p_tfaddr p) (p_kret p) (p_context p) (p_ctxaddr p) (p_chan p) (p_killed p) (p_ofile p) v (p_name p) (p_priority p) (p_counter p).
Definition set_name v p := Proc (p_sz p) (p_pgdir p) (p_kstack p) (p_state p) (p_pid p) (p_parent p) (p_tf p) (p_tfaddr p) (p_kret p) (p_context p) (p_ctxaddr p) (p_chan p) (p_killed p) (p_ofile p) (p_cwd p) v (p_priority p) (p_counter p).
Definition set_prio v p := Proc (p_sz p) (p_pgdir p) (p_kstack p) (p_state p) (p_pid p) (p_parent p) (p_tf p) (p_tfaddr p) (p_kret p) (p_context p) (p_ctxaddr p) (p_chan p) (p_killed p) (p_ofile p) (p_cwd p) (p_name p) v (p_counter p).
Definition set_counter v p := Proc (p_sz p) (p_pgdir p) (p_kstack p) (p_state p) (p_pid p) (p_parent p) (p_tf p) (p_tfaddr p) (p_kret p) (p_context p) (p_ctxaddr p) (p_chan p) (p_killed p) (p_ofile p) (p_cwd p) (p_name p) (p_priority p) v.

(** * What the process code needs from the rest of the kernel *)

(** [W] is the state of the memory allocator, the page tables, the file table
    and the file system.  A file is an index in [ftable], an inode an index in
    [icache], a page or page directory its kernel address (0 is null). *)
Class ProcServices (W : Type) : Type := {
  sv_kalloc : M W Z;
  sv_kfree : Z → M W unit;
  sv_setupkvm : M W Z;
  sv_inituvm : Z → M W unit;
  sv_copyuvm : Z → Z → M W Z;
  sv_freevm : Z → M W unit;
  sv_allocuvm : Z → Z → Z → M W Z;
  sv_deallocuvm : Z → Z → Z → M W Z;
  sv_filedup : nat → M W nat;
  sv_fileclose : nat → M W unit;
  sv_begin_op : M W unit;
  sv_end_op : M W unit;
  sv_idup : nat → M W nat;
  sv_iput : nat → M W unit;
  sv_namei : list Z → M W (option nat);
  sv_iinit : M W unit;
  sv_initlog : M W unit
}.

(** The globals of proc.c, [kpgdir] of vm.c, and the CPUs. *)
Record pstate (W : Type) := PState {
  mach : machine;
  plk : spinlock;                 (* ptable.lock *)
  procs : list proc;              (* ptable.proc *)
  nextpid : Z;
  initproc : option nat;
  fr_first : bool;                (* forkret's static "first" *)
  kpgdir : Z;
  world : W
}.
Arguments PState {W}.
Arguments mach {W}.
Arguments plk {W}.
Arguments procs {W}.
Arguments nextpid {W}.
Arguments initproc {W}.
Arguments fr_first {W}.
Arguments kpgdir {W}.
Arguments world {W}.

Section proc_c.
Context {W : Type} {SV : ProcServices W}.

Definition set_mach m (s : pstate W) := PState m (plk s) (procs s) (nextpid s) (initproc s) (fr_first s) (kpgdir s) (world s).
Definition set_ml (x : lockst) (s : pstate W) := PState x.1 x.2 (procs s) (nextpid s) (initproc s) (fr_first s) (kpgdir s) (world s).
Definition set_procs ps (s : pstate W) := PState (mach s) (plk s) ps (nextpid s) (initproc s) (fr_first s) (kpgdir s) (world s).
Definition set_nextpid n (s : pstate W) := PState (mach s) (plk s) (procs s) n (initproc s) (fr_first s) (kpgdir s) (world s).
Definition set_initproc i (s : pstate W) := PState (mach s) (plk s) (procs s) (nextpid s) i (fr_first s) (kpgdir s) (world s).
Definition set_first b (s : pstate W) := PState (mach s) (plk s) (procs s) (nextpid s) (initproc s) b (kpgdir s) (world s).
Definition set_world (w : W) (s : pstate W) := PState (mach s) (plk s) (procs s) (nextpid s) (initproc s) (fr_first s) (kpgdir s) w.

Definition on_mach {A} : M machine A → M (pstate W) A := zoom mach set_mach.
Definition on_plock {A} : M lockst A → M (pstate W) A := zoom (λ s, (mach s, plk s)) set_ml.

(** [acquire(&ptable.lock)], [release(&ptable.lock)], [myproc()]. *)
Definition pt_acquire : M (pstate W) unit := on_plock acquire.
Definition pt_release : M (pstate W) unit := on_plock release.
Definition pt_myproc : M (pstate W) (option nat) := on_mach myproc.
(** [struct proc *curproc = myproc();] followed by uses of [curproc->...]. *)
Definition pt_curproc : M (pstate W) nat := p ← pt_myproc; deref p.

(** [p->field] and [p->field = v]. *)
Definition pget (i : nat) : M (pstate W) proc := s ← get; deref (procs s !! i).
Definition pupd (i : nat) (f : proc → proc) : M (pstate W) unit :=
  pget i;; modify (λ s, set_procs (alter f i (procs s)) s).

Definition pinit : M (pstate W) unit := on_plock initlock.

(** ** Sleeping and waking *)

Definition wake1 (c : option chan) (p : proc) : proc :=
  if bool_decide (p_state p = SLEEPING) && bool_decide (p_chan p = c)
  then set_state RUNNABLE p else p.

Definition wakeup1 (c : option chan) : M (pstate W) unit :=
  modify (λ s, set_procs (wake1 c <$> procs s) s).

Definition wakeup (c : option chan) : M (pstate W) unit :=
  pt_acquire;; wakeup1 c;; pt_release.

(** [sched]: the checks, then [swtch] into the scheduler.  The saved
    [intena] is part of the suspended code and is restored by
    [sched_resume]. *)
Definition sched : M (pstate W) unit :=
  cur ← pt_curproc;
  h ← on_plock holding;
  panic_if (negb h) "sched ptable.lock";;
  n ← on_mach (mycpu_get ncli);
  panic_if (bool_decide (n ≠ 1)) "sched locks";;
  p ← pget cur;
  panic_if (bool_decide (p_state p = RUNNING)) "sched running";;
  b ← on_mach readeflags_IF;
  panic_if b "sched interruptible";;
  ie ← on_mach (mycpu_get intena);
  block CSched.
Definition sched_resume (ie : bool) : M (pstate W) unit :=
  on_mach (mycpu_upd (set_intena ie)).

Definition yield : M (pstate W) unit :=
  pt_acquire;;
  cur ← pt_curproc;
  pupd cur (set_state RUNNABLE);;
  sched.
Definition yield_resume (ie : bool) : M (pstate W) unit :=
  sched_resume ie;; pt_release.

(** A [struct spinlock*] argument: null, [&ptable.lock], or the lock of
    another component given by its two operations. *)
Inductive lockref : Type :=
| LkNull
| LkPtable
| LkOther (lk_acquire lk_release : M (pstate W) unit).

Definition sleep (c : option chan) (lk : lockref) : M (pstate W) unit :=
  p ← pt_myproc;
  match p with
  | None => panic "sleep"
  | Some cur =>
      (match lk with
       | LkNull => panic "sleep without lk"
       | LkPtable => mret tt
       | LkOther _ rel => pt_acquire;; rel
       end);;
      pupd cur (set_chan c);;
      pupd cur (set_state SLEEPING);;
      sched
  end.
Definition sleep_resume (cur : nat) (ie : bool) (lk : lockref) : M (pstate W) unit :=
  sched_resume ie;;
  pupd cur (set_chan None);;
  match lk with
  | LkOther acq _ => pt_release;; acq
  | _ => mret tt
  end.

(** Code of another component runs in [W]; the [wakeup] calls it makes are
    applied to the process table, and where it sleeps (its own lock already
    released in [W]) the process sleeps. *)
Definition deliver (t : list event) : M (pstate W) unit :=
  foreach t (λ e, match e with EvWakeup c => wakeup c | _ => mret tt end).
Definition svc {A} (m : M W A) : M (pstate W) A := λ s,
  match m (world s) with
  | Ret a w t => prepend t ((deliver t;; mret a) (set_world w s))
  | Panic msg w => Panic msg (set_world w s)
  | Blocked c w t =>
      prepend t ((deliver t;; sleep (Some c) (LkOther (mret tt) (mret tt));; undef) (set_world w s))
  | Spins w => Spins (set_world w s)
  | Undef => Undef
  end.

(** ** Creation *)

Definition allocproc : M (pstate W) (option nat) :=
  pt_acquire;;
  s ← get;
  match list_find (λ p, p_state p = UNUSED) (procs s) with
  | None => pt_release;; mret None
  | Some (i, _) =>
      pupd i (set_state EMBRYO);;
      pupd i (set_pid (nextpid s));;
      modify (set_nextpid (i32 (nextpid s + 1)));;
      pupd i (set_prio 5);;
      pupd i (set_counter 0);;
      pt_release;;
      k ← svc sv_kalloc;
      pupd i (set_kstack k);;
      if bool_decide (k = 0) then
        pupd i (set_state UNUSED);; mret None
      else
        let sp := k + KSTACKSIZE - sizeof_trapframe in
        pupd i (set_frames sp CodeTrapret (Context 0 0 0 0 CodeForkret) (sp - 4 - sizeof_context));;
        mret (Some i)
  end.

(** [safestrcpy(p->name, src, sizeof(p->name))], for a [src] that is a C string
    or another 16-byte name. *)
Definition name_copy (old src : list Z) : list Z := default old (safestrcpy old src 16).

Definition userinit : M (pstate W) unit :=
  op ← allocproc;
  modify (set_initproc op);;
  i ← deref op;
  pg ← svc sv_setupkvm;
  pupd i (set_pgdir pg);;
  panic_if (bool_decide (pg = 0)) "userinit: out of memory?";;
  svc (sv_inituvm pg);;
  pupd i (set_sz PGSIZE);;
  let ds := Z.lor (Z.shiftl SEG_UDATA 3) DPL_USER in
  pupd i (set_tf (Trapframe 0 0 0 0 0 0 0 0 0 0 ds ds 0 0 0
                    (Z.lor (Z.shiftl SEG_UCODE 3) DPL_USER) FL_IF PGSIZE ds));;
  p ← pget i;
  pupd i (set_name (name_copy (p_name p) (str "initcode" ++ [0])));;
  cwd ← svc (sv_namei (str "/"));
  pupd i (set_cwd cwd);;
  pt_acquire;;
  pupd i (set_state RUNNABLE);;
  pt_release.

(** [switchuvm] (src/vm.c): load the process's kernel stack and page table. *)
Definition switchuvm (i : nat) : M (pstate W) unit :=
  p ← pget i;
  panic_if (bool_decide (p_kstack p = 0)) "switchuvm: no kstack";;
  panic_if (bool_decide (p_pgdir p = 0)) "switchuvm: no pgdir";;
  on_mach (pushcli;;
           mycpu_upd (set_esp0 (u32 (p_kstack p + KSTACKSIZE)));;
           modify (λ m, upd_cpu (set_cr3 (V2P (p_pgdir p))) (me m) m);;
           popcli).
Definition switchkvm : M (pstate W) unit :=
  s ← get; on_mach (modify (λ m, upd_cpu (set_cr3 (V2P (kpgdir s))) (me m) m)).

(** [growproc]: [n] is an [int]. *)
Definition growproc (n : Z) : M (pstate W) Z :=
  cur ← pt_curproc;
  p ← pget cur;
  let sz := p_sz p in
  if bool_decide (n > 0) then
    sz' ← svc (sv_allocuvm (p_pgdir p) sz (u32 (sz + n)));
    if bool_decide (sz' = 0) then mret (-1)
    else pupd cur (set_sz sz');; switchuvm cur;; mret 0
  else if bool_decide (n < 0) then
    sz' ← svc (sv_deallocuvm (p_pgdir p) sz (u32 (sz + n)));
    if bool_decide (sz' = 0) then mret (-1)
    else pupd cur (set_sz sz');; switchuvm cur;; mret 0
  else pupd cur (set_sz sz);; switchuvm cur;; mret 0.

(** [if(curproc->ofile[fd]) np->ofile[fd] = filedup(curproc->ofile[fd]);] *)
Definition fork_dup (cur np fd : nat) : M (pstate W) unit :=
  c ← pget cur;
  o ← deref (p_ofile c !! fd);
  match o with
  | None => mret tt
  | Some f => f' ← svc (sv_filedup f);
              pupd np (λ p, set_ofile (<[fd:=Some f']> (p_ofile p)) p)
  end.

(** The rest of [fork] once the address space is copied. *)
Definition fork_copy (cur np : nat) : M (pstate W) Z :=
  c ← pget cur;
  pupd np (set_sz (p_sz c));;
  pupd np (set_parent (Some cur));;
  pupd np (set_tf (set_eax 0 (p_tf c)));;
  foreach (seq 0 NOFILE) (fork_dup cur np);;
  c ← pget cur;
  cwd ← deref (p_cwd c);
  cwd' ← svc (sv_idup cwd);
  pupd np (set_cwd (Some cwd'));;
  pupd np (λ p, set_name (name_copy (p_name p) (p_name c)) p);;
  n ← pget np;
  pt_acquire;;
  pupd np (set_state RUNNABLE);;
  pt_release;;
  mret (p_pid n).

Definition fork : M (pstate W) Z :=
  cur ← pt_curproc;
  onp ← allocproc;
  match onp with
  | None => mret (-1)
  | Some np =>
      c ← pget cur;
      pg ← svc (sv_copyuvm (p_pgdir c) (p_sz c));
      pupd np (set_pgdir pg);;
      if bool_decide (pg = 0) then
        n ← pget np;
        svc (sv_kfree (p_kstack n));;
        pupd np (set_kstack 0);;
        pupd np (set_state UNUSED);;
        mret (-1)
      else
        fork_copy cur np
  end.

(** A fork child's first steps after [swtch], still holding [ptable.lock]. *)
Definition forkret : M (pstate W) unit :=
  pt_release;;
  s ← get;
  if fr_first s then
    modify (set_first false);; svc sv_iinit;; svc sv_initlog
  else mret tt.

(** ** Termination *)

Definition exit_close (cur fd : nat) : M (pstate W) unit :=
  c ← pget cur;
  o ← deref (p_ofile c !! fd);
  match o with
  | None => mret tt
  | Some f => svc (sv_fileclose f);;
              pupd cur (λ p, set_ofile (<[fd:=None]> (p_ofile p)) p)
  end.

(** The first half of [exit]: close all files and release the directory. *)
Definition exit_files (cur : nat) : M (pstate W) unit :=
  foreach (seq 0 NOFILE) (exit_close cur);;
  svc sv_begin_op;;
  c ← pget cur;
  cwd ← deref (p_cwd c);
  svc (sv_iput cwd);;
  svc sv_end_op;;
  pupd cur (set_cwd None).

(** The body of exit's loop over the table: hand a child over to init. *)
Definition exit_reparent (cur i : nat) : M (pstate W) unit :=
  p ← pget i;
  if bool_decide (p_parent p = Some cur) then
    s ← get;
    pupd i (set_parent (initproc s));;
    if bool_decide (p_state p = ZOMBIE) then wakeup1 (CProc <$> initproc s) else mret tt
  else mret tt.

Definition exit : M (pstate W) unit :=
  cur ← pt_curproc;
  s ← get;
  panic_if (bool_decide (initproc s = Some cur)) "init exiting";;
  exit_files cur;;
  pt_acquire;;
  c ← pget cur;
  wakeup1 (CProc <$> p_parent c);;
  foreach (seq 0 NPROC) (exit_reparent cur);;
  pupd cur (set_state ZOMBIE);;
  sched;;
  panic "zombie exit".

(** The scan of wait's loop: [inr pid] if a zombie child was reaped (the lock
    is released), [inl havekids] otherwise. *)
Fixpoint wait_scan (cur : nat) (l : list nat) (havekids : bool) : M (pstate W) (bool + Z) :=
  match l with
  | [] => mret (inl havekids)
  | i :: l' =>
      p ← pget i;
      if bool_decide (p_parent p ≠ Some cur) then wait_scan cur l' havekids
      else if bool_decide (p_state p = ZOMBIE) then
        svc (sv_kfree (p_kstack p));;
        pupd i (set_kstack 0);;
        svc (sv_freevm (p_pgdir p));;
        pupd i (set_pid 0);;
        pupd i (set_parent None);;
        pupd i (λ q, set_name (<[0%nat:=0]> (p_name q)) q);;
        pupd i (set_killed 0);;
        pupd i (set_state UNUSED);;
        pt_release;;
        mret (inr (p_pid p))
      else wait_scan cur l' true
  end.

(** One round of [wait]'s [for(;;)], with [ptable.lock] held: it returns the
    result, or sleeps; after [sleep_resume cur ie LkPtable] the next round
    starts. *)
Definition wait_round (cur : nat) : M (pstate W) Z :=
  r ← wait_scan cur (seq 0 NPROC) false;
  match r with
  | inr pid => mret pid
  | inl havekids =>
      c ← pget cur;
      if negb havekids || bool_decide (p_killed c ≠ 0) then pt_release;; mret (-1)
      else sleep (Some (CProc cur)) LkPtable;; undef
  end.
Definition wait : M (pstate W) Z :=
  cur ← pt_curproc; pt_acquire;; wait_round cur.

(** ** Kill and priorities *)

Definition kill (pid : Z) : M (pstate W) Z :=
  pt_acquire;;
  s ← get;
  match list_find (λ p, p_pid p = pid) (procs s) with
  | Some (i, p) =>
      pupd i (set_killed 1);;
      (if bool_decide (p_state p = SLEEPING) then pupd i (set_state RUNNABLE) else mret tt);;
      pt_release;; mret 0
  | None => pt_release;; mret (-1)
  end.

Definition set_priority (pid new_priority : Z) : M (pstate W) Z :=
  if bool_decide (new_priority ≤ 0) || bool_decide (new_priority > 20) then mret (-1)
  else
    pt_acquire;;
    s ← get;
    (match list_find (λ p, p_pid p = pid) (procs s) with
     | Some (i, _) => pupd i (set_prio new_priority)
     | None => mret tt
     end);;
    pt_release;; mret 0.

Definition get_priority (pid : Z) : M (pstate W) Z :=
  pt_acquire;;
  s ← get;
  let val := match list_find (λ p, p_pid p = pid) (procs s) with
             | Some (_, p) => p_priority p
             | None => -1
             end in
  pt_release;; mret val.

(** ** Listings *)

Definition state_name (st : procstate) : string :=
  match st with
  | UNUSED => "UNUSED" | EMBRYO => "EMBRYO" | SLEEPING => "SLEEPING"
  | RUNNABLE => "RUNNABLE" | RUNNING => "RUNNING" | ZOMBIE => "ZOMBIE"
  end.

Definition nl : string := String (Ascii.ascii_of_nat 10) EmptyString.

Definition ps : M (pstate W) Z :=
  pt_acquire;;
  s ← get;
  foreach (procs s) (λ p,
    if bool_decide (p_state p = RUNNABLE) || bool_decide (p_state p = RUNNING)
       || bool_decide (p_state p = SLEEPING)
    then cprintf ("pid:%d name:%s state:%s priority:%d" +:+ nl)
           [FInt (p_pid p); FStr (Some (p_name p)); FStr (Some (str (state_name (p_state p))));
            FInt (p_priority p)]
    else mret tt);;
  pt_release;; mret 0.

Definition state_name_dump (st : procstate) : string :=
  match st with
  | UNUSED => "unused" | EMBRYO => "embryo" | SLEEPING => "sleep "
  | RUNNABLE => "runble" | RUNNING => "run   " | ZOMBIE => "zombie"
  end.

(** [procdump]: [mem] is the words of kernel memory, for the saved stacks. *)
Definition procdump (mem : Z → Z) : M (pstate W) unit :=
  s ← get;
  foreach (procs s) (λ p,
    if bool_decide (p_state p = UNUSED) then mret tt
    else
      cprintf "%d %s %s" [FInt (p_pid p); FStr (Some (str (state_name_dump (p_state p))));
                          FStr (Some (p_name p))];;
      (if bool_decide (p_state p = SLEEPING) then
         foreach (cstr (getcallerpcs mem (u32 (ctx_ebp (p_context p) + 8))))
           (λ pc, cprintf " %p" [FInt pc])
       else mret tt);;
      cprintf nl []).

End proc_c.

(** * Symbolic execution of the primitives *)

(** The executing CPU's entry, and the two situations of [ptable.lock]: free
    with the CPU inside [n] critical sections, or held by this CPU. *)
Definition cpu_at {W} (s : pstate W) (c : cpu) : Prop :=
  mach_ok (mach s) ∧ cpus (mach s) !! me (mach s) = Some c.
Definition pt_free {W} (s : pstate W) : Prop :=
  plk s = Spinlock false None ∧ ∃ c, cpu_at s c ∧ 0 ≤ ncli c.
Definition pt_held {W} (s : pstate W) : Prop :=
  plk s = Spinlock true (Some (me (mach s))) ∧
  ∃ c, cpu_at s c ∧ 1 ≤ ncli c ∧ eflags_IF c = false.

Section run_lemmas.
Context {W : Type} {SV : ProcServices W}.
Implicit Types s : pstate W.

(** The state after [acquire(&ptable.lock)] and after [release]. *)
Definition with_lock s : pstate W :=
  set_ml (upd_cpu pushed (me (mach s)) (mach s), Spinlock true (Some (me (mach s)))) s.
Definition without_lock s : pstate W :=
  set_ml (upd_cpu popped (me (mach s)) (mach s), Spinlock false None) s.

Lemma pt_acquire_run s : pt_free s → pt_acquire s = Ret tt (with_lock s) [].
Proof.
  intros (Hl & c & [Hok Hc] & _). unfold pt_acquire, on_plock.
  erewrite zoom_run; [done|]. apply (acquire_run _ _ c); [done|done|by rewrite Hl].
Qed.

Lemma pt_release_run s : pt_held s → pt_release s = Ret tt (without_lock s) [].
Proof.
  intros (Hl & c & [Hok Hc] & Hn & HIF). unfold pt_release, on_plock.
  erewrite zoom_run; [done|].
  apply (release_run _ _ c); try done; by rewrite Hl.
Qed.

Lemma with_lock_held s : pt_free s → pt_held (with_lock s).
Proof.
  intros (Hl & c & [Hok Hc] & Hn). split; [done|]. exists (pushed c). split; [split|].
  - by apply mach_ok_upd.
  - exact (lookup_upd_me _ _ _ Hc).
  - simpl. split; [lia|done].
Qed.

Lemma without_lock_free s : pt_held s → pt_free (without_lock s).
Proof.
  intros (Hl & c & [Hok Hc] & Hn & HIF). split; [done|]. exists (popped c). split; [split|].
  - by apply mach_ok_upd.
  - exact (lookup_upd_me _ _ _ Hc).
  - simpl. lia.
Qed.

Lemma pget_run s i p : procs s !! i = Some p → pget i s = Ret p s [].
Proof. intros H. unfold pget. munfold. by rewrite H. Qed.

Lemma pget_Ret s i p s' t : pget i s = Ret p s' t → procs s !! i = Some p ∧ s' = s ∧ t = [].
Proof. unfold pget. munfold. destruct (procs s !! i); naive_solver. Qed.

Lemma pupd_run s i p f :
  procs s !! i = Some p → pupd i f s = Ret tt (set_procs (alter f i (procs s)) s) [].
Proof. intros H. unfold pupd. by erewrite bind_run by (by apply pget_run). Qed.

Lemma pupd_Ret s i f u s' t :
  pupd i f s = Ret u s' t →
  s' = set_procs (alter f i (procs s)) s ∧ t = [] ∧ is_Some (procs s !! i).
Proof.
  unfold pupd. intros H. inv_bind H. apply pget_Ret in Hm as (Hp & -> & ->).
  unfold modify in H. simplify_eq. by eauto.
Qed.

Lemma pt_myproc_run s c :
  cpu_at s c → 0 ≤ ncli c →
  pt_myproc s = Ret (cproc c) (set_mach (upd_cpu (popped ∘ pushed) (me (mach s)) (mach s)) s) [].
Proof.
  intros [Hok Hc] Hn. unfold pt_myproc, on_mach.
  by erewrite zoom_run by (by eapply myproc_run).
Qed.

(** Being held or free does not depend on the processes. *)
Lemma pt_held_procs s ps : pt_held (set_procs ps s) ↔ pt_held s.
Proof. done. Qed.
Lemma pt_free_procs s ps : pt_free (set_procs ps s) ↔ pt_free s.
Proof. done. Qed.
Lemma pt_free_world s w : pt_free (set_world w s) ↔ pt_free s.
Proof. done. Qed.

End run_lemmas.

(** A system without memory or files, to run the process code on its own. *)
Definition no_services : ProcServices unit := {|
  sv_kalloc := mret 2147487744;
  sv_kfree := λ _, mret tt;
  sv_setupkvm := mret 2147491840;
  sv_inituvm := λ _, mret tt;
  sv_copyuvm := λ _ _, mret 2147495936;
  sv_freevm := λ _, mret tt;
  sv_allocuvm := λ _ _ n, mret n;
  sv_deallocuvm := λ _ _ n, mret n;
  sv_filedup := λ f, mret f;
  sv_fileclose := λ _, mret tt;
  sv_begin_op := mret tt;
  sv_end_op := mret tt;
  sv_idup := λ i, mret i;
  sv_iput := λ _, mret tt;
  sv_namei := λ _, mret (Some 0%nat);
  sv_iinit := mret tt;
  sv_initlog := mret tt
|}.
