(* ===== verification/Scheduler.v ===== *)
(** The per-CPU scheduler: [scheduler] of src/proc.c (strict priorities) and
    of src/proc_3.c (priorities with aging).

    The infinite loop is a state machine.  [STop] is the top of the outer
    loop, [SScan p] the test of the inner [for] loop at slot [p], and
    [SRun h] the return of [swtch] after process [h] has run.  What happens
    between the two halves of a dispatch, while the process runs, is not the
    scheduler's: the theorems quantify over it. *)
From S2P Require Import Prelude Layout Spinlock Format ProcTable.

Inductive spc : Type := STop | SScan (p : nat) | SRun (h : nat).

#[export] Instance spc_eq_dec : EqDecision spc.
Proof. solve_decision. Defined.

(** [if(p1->state != RUNNABLE) continue;
     if(p1->priority > highestp->priority) highestp = p1;] *)
Definition better (ps : list proc) (highestp p1 : nat) : nat :=
  match ps !! p1, ps !! highestp with
  | Some q, Some h =>
      if bool_decide (p_state q = RUNNABLE) && bool_decide (p_priority q > p_priority h)
      then p1 else highestp
  | _, _ => highestp
  end.

(** The two loops over [p1]: from [p] to the end, then from the start to [p]. *)
Definition highest (ps : list proc) (p : nat) : nat :=
  foldl (better ps) (foldl (better ps) p (seq p (NPROC - p))) (seq 0 p).

(** proc_3.c's loop after [switchkvm()]: one tick for each process that is
    RUNNABLE or RUNNING. *)
Definition age1 (p : proc) : proc :=
  if bool_decide (p_state p = RUNNABLE) || bool_decide (p_state p = RUNNING) then
    let c := p_counter p + 1 in
    if bool_decide (c = 50) then
      let p := set_counter 0 p in
      if bool_decide (p_priority p < 20) then set_prio (p_priority p + 1) p else p
    else set_counter c p
  else p.

Section scheduler_c.
Context {W : Type}.

Definition age_all : M (pstate W) unit := modify (λ s, set_procs (age1 <$> procs s) s).

Definition set_cpu_proc (o : option nat) : M (pstate W) unit :=
  on_mach (modify (λ m, upd_cpu (set_cproc o) (me m) m)).

(** One step of the loop; [after_switch] is the code between [switchkvm()]
    and [c->proc = 0]. *)
Definition scheduler_step_with (after_switch : M (pstate W) unit) (pc : spc)
    : M (pstate W) spc :=
  match pc with
  | STop => on_mach sti;; pt_acquire;; mret (SScan 0)
  | SScan p =>
      if bool_decide (p < NPROC)%nat then
        q ← pget p;
        if bool_decide (p_state q ≠ RUNNABLE) then mret (SScan (S p))
        else
          s ← get;
          let h := highest (procs s) p in
          set_cpu_proc (Some h);;
          switchuvm h;;
          pupd h (set_state RUNNING);;
          mret (SRun h)
      else pt_release;; mret STop
  | SRun h =>
      switchkvm;; after_switch;; set_cpu_proc None;; mret (SScan (S h))
  end.

Definition scheduler_step : spc → M (pstate W) spc := scheduler_step_with (mret tt).
Definition scheduler_step_3 : spc → M (pstate W) spc := scheduler_step_with age_all.

End scheduler_c.

(** * The choice of the next process *)

Definition runnable (ps : list proc) (i : nat) : Prop :=
  ∃ p, ps !! i = Some p ∧ p_state p = RUNNABLE.
Definition prio (ps : list proc) (i : nat) : Z :=
  match ps !! i with Some p => p_priority p | None => 0 end.

(** [h] is the choice among the slots [l], in that order: the first of the
    highest priority among the runnable ones and [c]. *)
Lemma better_foldl ps l c :
  runnable ps c →
  let h := foldl (better ps) c l in
  runnable ps h ∧ prio ps c ≤ prio ps h ∧
  (∀ j, j ∈ l → runnable ps j → prio ps j ≤ prio ps h) ∧
  (h = c ∨ ∃ l1 l2, l = l1 ++ h :: l2 ∧ prio ps c < prio ps h ∧
     ∀ j, j ∈ l1 → runnable ps j → prio ps j < prio ps h).
Proof.
  revert c; induction l as [|x l IH]; intros c Hc; simpl.
  { split_and!; [done|lia| |by left]. intros j Hj. by apply not_elem_of_nil in Hj. }
  assert (runnable ps (better ps c x) ∧ prio ps c ≤ prio ps (better ps c x) ∧
    (runnable ps x → prio ps x ≤ prio ps (better ps c x)) ∧
    (better ps c x = c ∨ (better ps c x = x ∧ runnable ps x ∧ prio ps c < prio ps x)))
    as (Hb & Hle & Hx & Hbc).
  { pose proof Hc as (pc & Hpc & Hrc). unfold better. rewrite Hpc.
    destruct (ps !! x) as [q|] eqn:Hq.
    2: { split_and!; [done|lia| |by left]. intros (q & Hq' & _). congruence. }
    assert (prio ps x = p_priority q ∧ prio ps c = p_priority pc) as [Hpx Hpcc]
      by (unfold prio; by rewrite Hq, Hpc).
    destruct (decide (p_state q = RUNNABLE)) as [Hrq|Hrq]; [rewrite bool_decide_true by done
      |rewrite bool_decide_false by done; simpl].
    - assert (runnable ps x) by (by exists q).
      simpl. case_bool_decide.
      + split_and!; [done|lia|lia|right; split_and!; [done|done|lia]].
      + split_and!; [done|lia|lia|by left].
    - split_and!; [done|lia| |by left]. intros (q' & Hq' & Hr'). congruence. }
  destruct (IH _ Hb) as (Hr & Hle' & Hmax & Hpos). clear IH.
  set (h := foldl (better ps) (better ps c x) l) in *.
  split_and!; [done|lia| |].
  - intros j [->|Hj]%elem_of_cons Hj'; [specialize (Hx Hj'); lia|by apply Hmax].
  - destruct Hpos as [Heq|(l1 & l2 & Hl & Hlt & Hbefore)].
    + destruct Hbc as [Hbc|(Hbc & Hrx & Hlt)]; [left; congruence|right].
      exists [], l. rewrite Heq, Hbc. split_and!; [done|done|].
      intros j Hj. by apply not_elem_of_nil in Hj.
    + right. exists (x :: l1), l2. rewrite Hl. split_and!; [done|lia|].
      intros j [->|Hj]%elem_of_cons Hj'; [specialize (Hx Hj'); lia|by apply Hbefore].
Qed.

(** The slots in the order in which the scheduler considers them from [p]. *)
Definition cyclic (p : nat) : list nat := seq p (NPROC - p) ++ seq 0 p.

Lemma highest_foldl ps p : highest ps p = foldl (better ps) p (cyclic p).
Proof. unfold highest, cyclic. by rewrite foldl_app. Qed.

Lemma elem_of_cyclic p j : (p ≤ NPROC)%nat → (j < NPROC)%nat → j ∈ cyclic p.
Proof. intros. unfold cyclic. rewrite elem_of_app, !elem_of_seq. lia. Qed.

Lemma runnable_lt ps j : length ps = NPROC → runnable ps j → (j < NPROC)%nat.
Proof. intros <- (p & Hp & _). by eapply lookup_lt_Some. Qed.

Lemma highest_spec ps p :
  length ps = NPROC → runnable ps p →
  runnable ps (highest ps p) ∧
  (∀ j, runnable ps j → prio ps j ≤ prio ps (highest ps p)) ∧
  (∃ l1 l2, cyclic p = l1 ++ highest ps p :: l2 ∧
     ∀ j, j ∈ l1 → runnable ps j → prio ps j < prio ps (highest ps p)).
Proof.
  intros Hlen Hp. pose proof (runnable_lt _ _ Hlen Hp) as Hlt. rewrite highest_foldl.
  destruct (better_foldl ps (cyclic p) p Hp) as (Hr & Hle & Hmax & Hpos).
  split_and!; [done| |].
  - intros j Hj. apply Hmax; [|done]. apply elem_of_cyclic; [lia|]. by eapply runnable_lt.
  - destruct Hpos as [Heq|(l1 & l2 & Hl & _ & Hb)]; [|by exists l1, l2].
    exists [], (seq (S p) (NPROC - S p) ++ seq 0 p). rewrite Heq. split.
    + unfold cyclic. by replace (NPROC - p)%nat with (S (NPROC - S p)) by lia.
    + intros j Hj. by apply not_elem_of_nil in Hj.
Qed.

(** * Steps of the scheduler *)

Section steps.
Context {W : Type}.
Implicit Types s : pstate W.

(** The CPU inside the inner loop ([ptable.lock] is its only lock), and at
    the top of the outer loop. *)
Definition scan_ok s : Prop :=
  plk s = Spinlock true (Some (me (mach s))) ∧
  ∃ c, cpu_at s c ∧ ncli c = 1 ∧ eflags_IF c = false.
Definition top_ok s : Prop :=
  plk s = Spinlock false None ∧ ∃ c, cpu_at s c ∧ ncli c = 0.

Lemma scan_ok_held s : scan_ok s → pt_held s.
Proof. intros (Hl & c & Hc & Hn & HIF). split; [done|]. exists c. split_and!; [done|lia|done]. Qed.
Lemma top_ok_free s : top_ok s → pt_free s.
Proof. intros (Hl & c & Hc & Hn). split; [done|]. exists c. split; [done|lia]. Qed.

(** Any change of the executing CPU's own entry that keeps its id, its lock
    depth and interrupts off. *)
Lemma scan_ok_upd f s :
  (∀ c, apicid (f c) = apicid c) →
  (∀ c, ncli c = 1 → eflags_IF c = false → ncli (f c) = 1 ∧ eflags_IF (f c) = false) →
  scan_ok s → scan_ok (set_mach (upd_cpu f (me (mach s)) (mach s)) s).
Proof.
  intros Hid Hf (Hl & c & [Hok Hc] & Hn & HIF). split; [done|]. exists (f c). split; [split|].
  - by apply mach_ok_upd.
  - exact (lookup_upd_me _ _ _ Hc).
  - by apply Hf.
Qed.

(** What a dispatch does to the CPU's entry. *)
Definition load_proc (h : nat) (p : proc) (c : cpu) : cpu :=
  Cpu (apicid c) (started c) (ncli c) (intena c) (Some h) false
      (u32 (p_kstack p + KSTACKSIZE)) (V2P (p_pgdir p)).
Definition dispatched (h : nat) (p : proc) s : pstate W :=
  set_procs (alter (set_state RUNNING) h (procs s))
    (set_mach (upd_cpu (load_proc h p) (me (mach s)) (mach s)) s).

Lemma switchuvm_run h p c s :
  cpu_at s c → ncli c = 1 → eflags_IF c = false →
  procs s !! h = Some p → p_kstack p ≠ 0 → p_pgdir p ≠ 0 →
  switchuvm h s = Ret tt (set_mach
    (upd_cpu (λ c, set_cr3 (V2P (p_pgdir p)) (set_esp0 (u32 (p_kstack p + KSTACKSIZE)) c))
       (me (mach s)) (mach s)) s) [].
Proof.
  intros [Hok Hc] Hn HIF Hp Hk Hg. unfold switchuvm.
  erewrite bind_run by (by apply pget_run).
  rewrite (bool_decide_false (p_kstack p = 0)) by done. erewrite bind_run by reflexivity.
  rewrite (bool_decide_false (p_pgdir p = 0)) by done. erewrite bind_run by reflexivity.
  rewrite !prepend_nil. unfold on_mach. eapply zoom_run.
  set (m := mach s) in *.
  erewrite bind_run by (by eapply pushcli_run).
  set (m1 := upd_cpu pushed (me m) m).
  assert (mach_ok m1) as Hok1 by (by apply mach_ok_upd).
  assert (cpus m1 !! me m1 = Some (pushed c)) as Hc1 by exact (lookup_upd_me _ m _ Hc).
  erewrite bind_run by (by eapply mycpu_upd_run).
  erewrite bind_run by reflexivity. rewrite !prepend_nil. unfold m1. simpl.
  rewrite !upd_upd.
  erewrite popcli_run.
  - simpl. rewrite upd_upd. f_equal. eapply upd_ext; [exact Hc|].
    destruct c as [a b n i pr e z1 z2]. simpl in *. subst.
    unfold compose, popped, set_cr3, set_esp0, pushed. simpl. done.
  - by apply mach_ok_upd.
  - exact (lookup_upd_me _ m _ Hc).
  - done.
  - simpl. lia.
Qed.

Variable after : M (pstate W) unit.

Lemma step_skip p s :
  (p < NPROC)%nat → length (procs s) = NPROC → ¬ runnable (procs s) p →
  scheduler_step_with after (SScan p) s = Ret (SScan (S p)) s [].
Proof.
  intros Hp Hlen Hr. simpl. rewrite bool_decide_true by done.
  assert (is_Some (procs s !! p)) as [q Hq] by (apply lookup_lt_is_Some; lia).
  erewrite bind_run by (by apply pget_run).
  rewrite bool_decide_true; [done|]. intros Hq'. apply Hr. by exists q.
Qed.

Lemma step_dispatch p s h ph :
  scan_ok s → length (procs s) = NPROC → runnable (procs s) p →
  h = highest (procs s) p → procs s !! h = Some ph → p_kstack ph ≠ 0 → p_pgdir ph ≠ 0 →
  scheduler_step_with after (SScan p) s = Ret (SRun h) (dispatched h ph s) [].
Proof.
  intros Hs Hlen Hr Hh Hph Hk Hg. pose proof (runnable_lt _ _ Hlen Hr) as Hp.
  destruct Hr as (q & Hq & Hrq). simpl. rewrite bool_decide_true by done.
  erewrite bind_run by (by apply pget_run).
  rewrite bool_decide_false by (intros H; by apply H).
  erewrite bind_run by reflexivity. rewrite <- Hh.
  erewrite bind_run by reflexivity. rewrite !prepend_nil.
  set (s1 := set_mach _ s).
  assert (scan_ok s1) as (Hl1 & c1 & Hc1 & Hn1 & HIF1) by (by apply scan_ok_upd).
  erewrite bind_run by (by eapply switchuvm_run).
  erewrite bind_run by (eapply pupd_run; exact Hph). rewrite !prepend_nil.
  unfold mret, M_ret. f_equal. unfold dispatched, s1, set_procs, set_mach. simpl. f_equal.
  rewrite upd_upd. destruct Hs as (Hl & c & [Hok Hc] & Hn & HIF).
  eapply upd_ext; [exact Hc|]. destruct c as [a b n i pr e z1 z2]. simpl in *. subst.
  unfold compose, set_cr3, set_esp0, set_cproc, load_proc. simpl. done.
Qed.

Lemma step_end p s :
  (NPROC ≤ p)%nat → scan_ok s →
  scheduler_step_with after (SScan p) s = Ret STop (without_lock s) [].
Proof.
  intros Hp Hs. simpl. rewrite bool_decide_false by lia.
  by erewrite bind_run by (apply pt_release_run, scan_ok_held, Hs).
Qed.

Lemma without_lock_top s : scan_ok s → top_ok (without_lock s).
Proof.
  intros (Hl & c & [Hok Hc] & Hn & HIF). split; [done|]. exists (popped c). split; [split|].
  - by apply mach_ok_upd.
  - exact (lookup_upd_me _ _ _ Hc).
  - simpl. lia.
Qed.

Lemma step_top s :
  top_ok s → ∃ s', scheduler_step_with after STop s = Ret (SScan 0) s' [] ∧
    scan_ok s' ∧ procs s' = procs s.
Proof.
  intros (Hl & c & [Hok Hc] & Hn). simpl.
  erewrite bind_run by reflexivity. rewrite prepend_nil.
  set (s1 := set_mach _ s).
  assert (top_ok s1) as Ht.
  { split; [done|]. exists (set_IF true c). split; [split|done].
    - by apply mach_ok_upd.
    - exact (lookup_upd_me _ _ _ Hc). }
  erewrite bind_run by (apply pt_acquire_run, top_ok_free, Ht).
  eexists; split_and!; [done| |done].
  destruct Ht as (_ & c1 & [Hok1 Hc1] & Hn1). split; [done|]. exists (pushed c1). split; [split|].
  - by apply mach_ok_upd.
  - exact (lookup_upd_me _ _ _ Hc1).
  - simpl. split; [lia|done].
Qed.

Lemma step_return h s g :
  scan_ok s → (∀ s, after s = Ret tt (set_procs (g <$> procs s) s) []) →
  ∃ s', scheduler_step_with after (SRun h) s = Ret (SScan (S h)) s' [] ∧
    scan_ok s' ∧ procs s' = g <$> procs s.
Proof.
  intros Hs Ha. simpl. unfold switchkvm. erewrite bind_run by reflexivity.
  erewrite bind_run by apply Ha. erewrite bind_run by reflexivity.
  eexists; split_and!; [done| |done].
  apply (scan_ok_upd (set_cproc None)); [done|done|].
  by apply (scan_ok_upd (set_cr3 (V2P (kpgdir s)))).
Qed.

End steps.

(** * Runs of the scheduler with an environment *)

(** What the rest of the system does to the state: while the last process of
    the history runs, until it comes back through [sched()] ([e_run]), and
    while the CPU is at the top of its loop without the lock ([e_idle]). *)
Record senv (W : Type) := SEnv {
  e_run : list nat → pstate W → pstate W;
  e_idle : list nat → pstate W → pstate W
}.
Arguments SEnv {W}.
Arguments e_run {W}.
Arguments e_idle {W}.

Section runs.
Context {W : Type}.
Implicit Types s : pstate W.

(** A configuration: the processes dispatched so far, the point in the loop,
    the state. *)
Definition sconf : Type := list nat * spc * pstate W.

Definition sstep (step : spc → M (pstate W) spc) (env : senv W) (x : sconf) : option sconf :=
  let '(l, pc, s) := x in
  let s := if bool_decide (pc = STop) then e_idle env l s else s in
  match step pc s with
  | Ret (SRun h) s1 _ => Some (l ++ [h], SRun h, e_run env (l ++ [h]) s1)
  | Ret pc1 s1 _ => Some (l, pc1, s1)
  | _ => None
  end.
Fixpoint siter (step : spc → M (pstate W) spc) (env : senv W) (n : nat) (x : sconf)
    : option sconf :=
  match n with
  | O => Some x
  | S n' => sstep step env x ≫= siter step env n'
  end.

(** Every process that can run has a kernel stack and a page table, and no
    priority is above 20. *)
Definition table_ok (ps : list proc) : Prop :=
  length ps = NPROC ∧
  (∀ i p, ps !! i = Some p → p_state p = RUNNABLE ∨ p_state p = RUNNING →
     p_kstack p ≠ 0 ∧ p_pgdir p ≠ 0) ∧
  (∀ i p, ps !! i = Some p → p_priority p ≤ 20).

(** Slot [j] holds a runnable process with this priority and age. *)
Definition waits (j : nat) (pr ct : Z) (ps : list proc) : Prop :=
  ∃ p, ps !! j = Some p ∧ p_state p = RUNNABLE ∧ p_priority p = pr ∧ p_counter p = ct.

(** The environment leaves process [j] waiting: it neither takes it off the
    run queue nor changes its priority. *)
Record env_ok (j : nat) (env : senv W) : Prop := {
  eo_run : ∀ l s, last l ≠ Some j → scan_ok s → table_ok (procs s) →
    scan_ok (e_run env l s) ∧ table_ok (procs (e_run env l s)) ∧
    ∀ pr ct, waits j pr ct (procs s) → waits j pr ct (procs (e_run env l s));
  eo_idle : ∀ l s, top_ok s → table_ok (procs s) →
    top_ok (e_idle env l s) ∧ table_ok (procs (e_idle env l s)) ∧
    ∀ pr ct, waits j pr ct (procs s) → waits j pr ct (procs (e_idle env l s))
}.

Lemma siter_add step env n m x :
  siter step env (n + m) x = siter step env n x ≫= siter step env m.
Proof.
  revert x; induction n as [|n IH]; intros x; [done|]. simpl.
  destruct (sstep step env x); simpl; [apply IH|done].
Qed.

Lemma waits_runnable j pr ct ps : waits j pr ct ps → runnable ps j ∧ prio ps j = pr.
Proof. intros (p & Hp & Hr & Hpr & _). unfold prio. rewrite Hp. split; [by exists p|done]. Qed.

Lemma dispatched_other h ph s j pr ct :
  h ≠ j → waits j pr ct (procs s) → waits j pr ct (procs (dispatched h ph s)).
Proof.
  intros Hne (p & Hp & Hw). exists p. split; [|done]. simpl.
  by rewrite list_lookup_alter_ne.
Qed.

Lemma dispatched_table_ok h ph s : 
  runnable (procs s) h → table_ok (procs s) → table_ok (procs (dispatched h ph s)).
Proof.
  intros (p0 & Hp0 & Hr) (Hlen & Hstk & Hpri). simpl. split_and!; [by rewrite length_alter|..];
    intros i p Hi; rewrite list_lookup_alter in Hi; case_decide as Hd; subst.
  - rewrite Hp0 in Hi. injection Hi as <-. intros _. simpl. apply (Hstk _ _ Hp0). by left.
  - intros Hst. by eapply Hstk.
  - rewrite Hp0 in Hi. injection Hi as <-. simpl. by apply Hpri in Hp0.
  - by eapply Hpri.
Qed.

Lemma dispatched_scan_ok h ph s : scan_ok s → scan_ok (dispatched h ph s).
Proof. intros Hs. apply (scan_ok_upd (load_proc h ph)) in Hs; done. Qed.

End runs.

(** * Waiting processes are dispatched *)

(** Slots between the scan position [p] and [j], going round the table. *)
Definition dist (p j : nat) : nat :=
  if bool_decide (p ≤ j)%nat then (j - p)%nat else (NPROC - p + j)%nat.

Lemma dist_lt p j : (p ≤ NPROC)%nat → (j < NPROC)%nat → (dist p j < NPROC)%nat.
Proof. intros. unfold dist. case_bool_decide; lia. Qed.

Lemma runnable_dec ps i : {runnable ps i} + {¬ runnable ps i}.
Proof.
  destruct (ps !! i) as [p|] eqn:Hp.
  - destruct (decide (p_state p = RUNNABLE)); [left; by exists p|right].
    intros (p' & Hp' & ?). congruence.
  - right. intros (p' & Hp' & _). congruence.
Qed.

Lemma first_runnable ps p :
  (∃ q, (p ≤ q < NPROC)%nat ∧ runnable ps q ∧ ∀ i, (p ≤ i < q)%nat → ¬ runnable ps i) ∨
  (∀ i, (p ≤ i < NPROC)%nat → ¬ runnable ps i).
Proof.
  remember (NPROC - p)%nat as n eqn:Hn. revert p Hn. induction n as [|n IH]; intros p Hn.
  { right. intros i Hi. lia. }
  destruct (runnable_dec ps p) as [Hr|Hr].
  { left. exists p. split_and!; [lia|lia|done|]. intros i Hi. lia. }
  destruct (IH (S p)) as [(q & Hq & Hrq & Hb)|Hnone]; [lia|left|right].
  - exists q. split_and!; [lia|lia|done|]. intros i Hi.
    destruct (decide (i = p)) as [->|]; [done|]. apply Hb. lia.
  - intros i Hi. destruct (decide (i = p)) as [->|]; [done|]. apply Hnone. lia.
Qed.

(** The position of a slot in the cyclic order is its distance. *)
Lemma lookup_cyclic p j :
  (p < NPROC)%nat → (j < NPROC)%nat → cyclic p !! dist p j = Some j.
Proof.
  intros Hp Hj. unfold cyclic, dist. destruct (decide (p ≤ j)%nat).
  - rewrite bool_decide_true by done.
    rewrite lookup_app_l by (rewrite length_seq; lia). rewrite lookup_seq_lt by lia. f_equal; lia.
  - rewrite bool_decide_false by done.
    rewrite lookup_app_r by (rewrite length_seq; lia). rewrite length_seq.
    rewrite lookup_seq_lt by lia. f_equal; lia.
Qed.

Lemma cyclic_order p j l1 h l2 :
  (p < NPROC)%nat → (j < NPROC)%nat → (h < NPROC)%nat →
  cyclic p = l1 ++ h :: l2 → j ∉ l1 → h ≠ j → (dist p h < dist p j)%nat.
Proof.
  intros Hp Hj Hh Hc Hnot Hne.
  assert (cyclic p !! length l1 = Some h) as Hl1 by (rewrite Hc; by apply list_lookup_middle).
  pose proof (lookup_cyclic p h Hp Hh) as Hlh. pose proof (lookup_cyclic p j Hp Hj) as Hlj.
  assert (NoDup (cyclic p)) as Hnd.
  { unfold cyclic. apply NoDup_app. split_and!; [apply NoDup_seq| |apply NoDup_seq].
    intros x. rewrite !elem_of_seq. lia. }
  assert (dist p h = length l1) as -> by (by eapply NoDup_lookup).
  destruct (decide (dist p j < length l1)%nat).
  - exfalso. apply Hnot. rewrite Hc, lookup_app_l in Hlj by lia. by eapply list_elem_of_lookup_2.
  - assert (dist p j ≠ length l1) by congruence. lia.
Qed.

Lemma cyclic_before p j l1 h l2 :
  (p < NPROC)%nat → (j < NPROC)%nat → (h < NPROC)%nat →
  cyclic p = l1 ++ h :: l2 → j ∉ l1 → h = j ∨ (dist (S h) j < dist p j)%nat.
Proof.
  intros Hp Hj Hh Hc Hnot. destruct (decide (h = j)) as [|Hne]; [by left|right].
  pose proof (cyclic_order _ _ _ _ _ Hp Hj Hh Hc Hnot Hne) as Hlt.
  unfold dist in *. repeat case_bool_decide; lia.
Qed.

Lemma highest_dist ps p j :
  length ps = NPROC → runnable ps p → runnable ps j →
  (∀ i, runnable ps i → prio ps i ≤ prio ps j) →
  highest ps p = j ∨ (dist (S (highest ps p)) j < dist p j)%nat.
Proof.
  intros Hlen Hp Hj Hmax.
  destruct (highest_spec ps p Hlen Hp) as (Hr & _ & l1 & l2 & Hc & Hbefore).
  eapply (cyclic_before p j); eauto using runnable_lt.
  intros Hin. specialize (Hbefore _ Hin Hj). specialize (Hmax _ Hr). lia.
Qed.

(** Skipping slots that are not runnable does not pass [j]. *)
Lemma dist_skip p q j ps :
  (p ≤ q)%nat → runnable ps j → (∀ i, (p ≤ i < q)%nat → ¬ runnable ps i) →
  (q ≤ NPROC)%nat → (dist q j ≤ dist p j)%nat.
Proof.
  intros Hpq Hj Hskip Hq. unfold dist.
  assert (¬ (p ≤ j < q)%nat) by (intros H; by apply (Hskip j)).
  repeat case_bool_decide; lia.
Qed.

#[local] Arguments scheduler_step_with : simpl never.

Section liveness.
Context {W : Type}.
Implicit Types s : pstate W.
Context (j : nat) (env : senv W) (Henv : env_ok j env).
Context (after : M (pstate W) unit) (g : proc → proc).
Context (Hafter : ∀ s, after s = Ret tt (set_procs (g <$> procs s) s) []).

Notation step := (scheduler_step_with after).

Lemma scan_skip l p q s :
  length (procs s) = NPROC → (p ≤ q ≤ NPROC)%nat →
  (∀ i, (p ≤ i < q)%nat → ¬ runnable (procs s) i) →
  siter step env (q - p) (l, SScan p, s) = Some (l, SScan q, s).
Proof.
  intros Hlen Hpq Hskip. remember (q - p)%nat as n eqn:Hn. revert p Hpq Hskip Hn.
  induction n as [|n IH]; intros p Hpq Hskip Hn; simpl.
  { by replace q with p by lia. }
  rewrite step_skip by (try apply Hskip; lia || done). simpl.
  apply IH; [lia| |lia]. intros i Hi. apply Hskip. lia.
Qed.

Lemma dispatch_found l p q s pr ct :
  scan_ok s → table_ok (procs s) → waits j pr ct (procs s) →
  (p ≤ q < NPROC)%nat → runnable (procs s) q →
  (∀ i, (p ≤ i < q)%nat → ¬ runnable (procs s) i) →
  ∃ n h s', (n ≤ NPROC + 1)%nat ∧ (h < NPROC)%nat ∧
    siter step env n (l, SScan p, s) = Some (l ++ [h], SRun h, s') ∧
    (h ≠ j → scan_ok s' ∧ table_ok (procs s') ∧ waits j pr ct (procs s') ∧
       (pr = 20 → (dist (S h) j < dist p j)%nat)).
Proof.
  intros Hs (Hlen & Hstk & Hpri) Hw Hpq Hrq Hskip.
  destruct (waits_runnable _ _ _ _ Hw) as [Hrj Hprj].
  destruct (highest_spec (procs s) q Hlen Hrq) as (Hrh' & _ & _).
  pose proof Hrh' as (ph & Hph & Hrh).
  destruct (Hstk _ _ Hph (or_introl Hrh)) as [Hk Hg].
  set (h := highest (procs s) q) in *.
  exists (q - p + 1)%nat, h, (e_run env (l ++ [h]) (dispatched h ph s)).
  split_and!; [lia|by eapply runnable_lt; [|exists ph]| |].
  - rewrite siter_add, scan_skip by (done || lia). simpl.
    by rewrite (step_dispatch _ q s h ph).
  - intros Hne.
    destruct (eo_run _ _ Henv (l ++ [h]) (dispatched h ph s)) as (H1 & H2 & H3).
    + rewrite last_snoc. congruence.
    + by apply dispatched_scan_ok.
    + by apply dispatched_table_ok.
    + split_and!; [done|done|by apply H3, dispatched_other|].
      intros ->. eapply Nat.lt_le_trans; [|eapply (dist_skip p q); eauto; lia].
      destruct (highest_dist (procs s) q j Hlen Hrq Hrj) as [Heq|]; [|done|done].
      rewrite Hprj. intros i (pi & Hpi & _). unfold prio. rewrite Hpi. by eapply Hpri.
Qed.

Lemma dispatch_next l p s pr ct :
  (p ≤ NPROC)%nat → scan_ok s → table_ok (procs s) → waits j pr ct (procs s) →
  ∃ n h s', (n ≤ 2 * NPROC + 3)%nat ∧ (h < NPROC)%nat ∧
    siter step env n (l, SScan p, s) = Some (l ++ [h], SRun h, s') ∧
    (h ≠ j → scan_ok s' ∧ table_ok (procs s') ∧ waits j pr ct (procs s') ∧
       (pr = 20 → (dist (S h) j < dist p j)%nat)).
Proof.
  intros Hp Hs Ht Hw. pose proof Ht as (Hlen & _).
  destruct (first_runnable (procs s) p) as [(q & Hq & Hrq & Hb)|Hnone].
  { destruct (dispatch_found l p q s pr ct) as (n & h & s' & Hn & H); eauto.
    exists n, h, s'. split; [lia|done]. }
  destruct (eo_idle _ _ Henv l (without_lock s)) as (Htop & Ht1 & Hw1);
    [by apply without_lock_top|done|]. specialize (Hw1 _ _ Hw).
  destruct (step_top after _ Htop) as (s1 & Hs1 & Hok1 & Hps1).
  rewrite <- Hps1 in Ht1, Hw1.
  destruct (waits_runnable _ _ _ _ Hw) as [Hrj _].
  destruct (waits_runnable _ _ _ _ Hw1) as [Hrj1 _].
  pose proof (runnable_lt _ _ (proj1 Ht1) Hrj1) as Hj.
  destruct (first_runnable (procs s1) 0) as [(q & Hq & Hrq & Hb)|Hno]; [|by destruct (Hno j); [lia|]].
  destruct (dispatch_found l 0 q s1 pr ct) as (n & h & s' & Hn & Hh & Hit & Hrest); eauto.
  exists ((NPROC - p) + (2 + n))%nat, h, s'. split_and!; [lia|done| |].
  - rewrite siter_add, scan_skip by (done || lia). simpl.
    rewrite step_end by (done || lia). simpl. rewrite Hs1. simpl. done.
  - intros Hne. destruct (Hrest Hne) as (? & ? & ? & Hd). split_and!; [done|done|done|].
    intros H20. specialize (Hd H20). unfold dist in *.
    assert (¬ (p ≤ j)%nat) by (intros ?; by destruct (Hnone j); [lia|]).
    repeat case_bool_decide; lia.
Qed.

(** The effect of the code after the switch on the waiting process: its
    (priority, age) pair satisfies [P], and until it reaches priority 20 the
    measure [μ] decreases. *)
Context (P : Z → Z → Prop) (μ : Z → Z → nat).
Context (Htick : ∀ ps pr ct, table_ok ps → waits j pr ct ps → P pr ct →
  table_ok (g <$> ps) ∧ ∃ pr' ct', waits j pr' ct' (g <$> ps) ∧ P pr' ct' ∧
    (pr = 20 → pr' = 20) ∧ (pr ≠ 20 → (μ pr' ct' < μ pr ct)%nat)).

Lemma dispatched_within k l p s pr ct :
  (p ≤ NPROC)%nat → scan_ok s → table_ok (procs s) → waits j pr ct (procs s) → P pr ct →
  (if bool_decide (pr = 20) then (dist p j < k)%nat else (μ pr ct + NPROC ≤ k)%nat) →
  ∃ n l' pc' s', (n ≤ k * (2 * NPROC + 4))%nat ∧ (length l' ≤ k)%nat ∧ last l' = Some j ∧
    siter step env n (l, SScan p, s) = Some (l ++ l', pc', s').
Proof.
  revert l p s pr ct. induction k as [|k IH]; intros l p s pr ct Hp Hs Ht Hw HP Hk.
  { unfold NPROC in Hk. case_bool_decide; lia. }
  destruct (dispatch_next l p s pr ct Hp Hs Ht Hw) as (n & h & s1 & Hn & Hh & Hit & Hrest).
  destruct (decide (h = j)) as [->|Hne].
  { exists n, [j], (SRun j), s1. split_and!; [lia|simpl; lia|done|done]. }
  destruct (Hrest Hne) as (Hs1 & Ht1 & Hw1 & Hd).
  destruct (step_return after h s1 g Hs1 Hafter) as (s2 & Hst & Hs2 & Hps2).
  destruct (Htick _ _ _ Ht1 Hw1 HP) as (Ht2 & pr' & ct' & Hw2 & HP2 & H20 & Hmu).
  rewrite <- Hps2 in Ht2, Hw2.
  destruct (IH (l ++ [h]) (S h) s2 pr' ct') as (n2 & l2 & pc' & s' & Hn2 & Hl2 & Hlast & Hit2);
    try done.
  { assert (dist (S h) j < NPROC)%nat.
    { apply dist_lt; [lia|]. eapply runnable_lt, waits_runnable, Hw. apply Ht. }
    destruct (decide (pr = 20)) as [E|E].
    - rewrite (bool_decide_true (pr = 20)) in Hk by done.
      rewrite (bool_decide_true (pr' = 20)) by auto. specialize (Hd E). lia.
    - rewrite (bool_decide_false (pr = 20)) in Hk by done. specialize (Hmu E).
      case_bool_decide; lia. }
  exists (n + (1 + n2))%nat, (h :: l2), pc', s'. split_and!.
  - lia.
  - simpl. lia.
  - by destruct l2; [done|].
  - rewrite siter_add, Hit. simpl. rewrite Hst. simpl. rewrite Hit2.
    by rewrite <- (assoc_L (++)).
Qed.

End liveness.

(** * Theorems *)

Section theorems.
Context {W : Type}.
Implicit Types s : pstate W.

(** C6: one dispatch, of either scheduler.  With the lock held and a runnable
    process at the scan position [p], the scheduler switches to a process [h]
    that is runnable, has the highest priority of all runnable processes, and
    is the first such process going round the table from [p]; it becomes
    RUNNING, the CPU's current process, with its kernel stack and page table
    loaded, and no other slot and not the lock change. *)
Theorem scheduler_dispatch after p s :
  scan_ok s → table_ok (procs s) → runnable (procs s) p →
  ∃ h ph s', scheduler_step_with after (SScan p) s = Ret (SRun h) s' [] ∧
    procs s !! h = Some ph ∧ p_state ph = RUNNABLE ∧
    (∀ j pj, procs s !! j = Some pj → p_state pj = RUNNABLE → p_priority pj ≤ p_priority ph) ∧
    (∀ j pj, procs s !! j = Some pj → p_state pj = RUNNABLE →
       p_priority pj = p_priority ph → h = j ∨ (dist p h < dist p j)%nat) ∧
    procs s' = <[h := set_state RUNNING ph]> (procs s) ∧ plk s' = plk s ∧
    (∃ c, cpus (mach s') !! me (mach s') = Some c ∧ cproc c = Some h ∧
       cr3 c = V2P (p_pgdir ph) ∧ ts_esp0 c = u32 (p_kstack ph + KSTACKSIZE)).
Proof.
  intros Hs Ht Hr. pose proof Ht as (Hlen & Hstk & _).
  destruct (highest_spec _ _ Hlen Hr) as (Hrh & Hmax & l1 & l2 & Hc & Hfirst).
  set (h := highest (procs s) p) in *. pose proof Hrh as (ph & Hph & Hrph).
  assert (∀ j pj, procs s !! j = Some pj → prio (procs s) j = p_priority pj) as Hprio
    by (intros j pj Hj; unfold prio; by rewrite Hj).
  assert (runnable (procs s) h) by (by exists ph).
  destruct (Hstk _ _ Hph (or_introl Hrph)) as [Hk Hg].
  exists h, ph, (dispatched h ph s). split_and!; try done.
  - by apply step_dispatch.
  - intros j pj Hj Hrj. rewrite <- (Hprio _ _ Hj), <- (Hprio _ _ Hph). apply Hmax. by exists pj.
  - intros j pj Hj Hrj Heq.
    assert (runnable (procs s) j) as Hrj' by (by exists pj).
    destruct (decide (h = j)) as [|Hne]; [by left|right].
    eapply (cyclic_order p j l1 h l2); eauto using runnable_lt. intros Hin. specialize (Hfirst _ Hin Hrj'). rewrite (Hprio _ _ Hj), (Hprio _ _ Hph) in Hfirst. lia.
  - simpl. apply list_eq. intros i. rewrite list_lookup_alter, list_lookup_insert.
    case_decide as Hd; [subst i|by destruct (decide _) as [[? _]|]]. rewrite Hph. simpl.
    by rewrite decide_True by (split; [done|by eapply lookup_lt_Some]).
  - destruct Hs as (_ & c & [_ Hcpu] & _). exists (load_proc h ph c). split; [|done].
    exact (lookup_upd_me _ _ _ Hcpu).
Qed.

(** Ticks that take a process of priority [pr] and age [ct] to priority 20. *)
Definition ticks_to_top (pr ct : Z) : nat := Z.to_nat (50 * (20 - pr) - ct).

Lemma age1_tick j ps pr ct :
  table_ok ps → waits j pr ct ps → pr ≤ 20 ∧ 0 ≤ ct < 50 →
  table_ok (age1 <$> ps) ∧ ∃ pr' ct', waits j pr' ct' (age1 <$> ps) ∧ (pr' ≤ 20 ∧ 0 ≤ ct' < 50) ∧
    (pr = 20 → pr' = 20) ∧ (pr ≠ 20 → (ticks_to_top pr' ct' < ticks_to_top pr ct)%nat).
Proof.
  intros (Hlen & Hstk & Hpri) (p & Hp & Hr & Hpr & Hct) [Hb Hc]. split.
  - split_and!; [by rewrite length_fmap|..]; intros i q Hq;
      rewrite list_lookup_fmap in Hq; apply fmap_Some in Hq as (q0 & Hq0 & ->);
      pose proof (Hpri _ _ Hq0); pose proof (Hstk _ _ Hq0); unfold age1;
      repeat case_bool_decide; simpl in *; naive_solver lia.
  - exists (p_priority (age1 p)), (p_counter (age1 p)). split_and!.
    + exists (age1 p). split_and!; [by rewrite list_lookup_fmap, Hp| |done|done].
      unfold age1. repeat case_bool_decide; done.
    + unfold age1. repeat case_bool_decide; simpl in *; lia.
    + unfold age1. repeat case_bool_decide; simpl in *; lia.
    + unfold age1. repeat case_bool_decide; simpl in *; lia.
    + unfold age1. repeat case_bool_decide; simpl in *; lia.
    + unfold age1, ticks_to_top. rewrite Hr. simpl. repeat case_bool_decide; simpl in *; lia.
Qed.


(** strict priorities (proc.c).  A runnable process of priority 20 is
    switched to within 64 dispatches, whatever the environment does. *)
Theorem top_priority_dispatched j env l p s ct :
  (p ≤ NPROC)%nat → scan_ok s → table_ok (procs s) → env_ok j env →
  waits j 20 ct (procs s) →
  ∃ n l' pc' s', (n ≤ NPROC * (2 * NPROC + 4))%nat ∧
    (length l' ≤ NPROC)%nat ∧ last l' = Some j ∧
    siter scheduler_step env n (l, SScan p, s) = Some (l ++ l', pc', s').
Proof.
  intros Hp Hs Ht Henv Hw.
  eapply (dispatched_within j env Henv (mret tt) id) with (P := λ pr _, pr = 20) (μ := λ _ _, 0%nat);
    try done.
  - intros s0. unfold mret, M_ret. f_equal. rewrite list_fmap_id. by destruct s0.
  - intros ps0 pr0 ct0 Ht0 Hw0 ->. rewrite list_fmap_id. split; [done|]. by exists 20, ct0.
  - rewrite bool_decide_true by done. apply dist_lt; [done|].
    eapply runnable_lt, waits_runnable, Hw. apply Ht.
Qed.

End theorems.

(** * A concrete system *)

(** The environment in which every process runs until the timer makes it
    yield. *)
Definition yields (p : proc) : proc :=
  if bool_decide (p_state p = RUNNING) then set_state RUNNABLE p else p.
Definition yield_env : senv unit := {|
  e_run := λ l s, match last l with
                  | Some h => set_procs (alter yields h (procs s)) s
                  | None => s
                  end;
  e_idle := λ _ s, s
|}.

Lemma yield_env_ok j : env_ok j yield_env.
Proof.
  split; simpl; [|done].
  intros l s Hl Hs (Hlen & Hstk & Hpri). destruct (last l) as [h|]; [|done].
  split; [done|]. simpl. split.
  - split_and!; [by rewrite length_alter|..]; intros i p Hi; rewrite list_lookup_alter in Hi;
      case_decide; subst; [|by eauto| |by eauto];
      apply fmap_Some in Hi as (p0 & Hp0 & ->);
      pose proof (Hstk _ _ Hp0); pose proof (Hpri _ _ Hp0); unfold yields;
      case_bool_decide; simpl; auto.
  - intros pr ct (p & Hp & Hw). exists p. split; [|done].
    rewrite list_lookup_alter_ne; [done|congruence].
Qed.

(** Two processes of priority 19 and 20 and one of priority 18. *)
Definition demo_proc (pid pr : Z) : proc :=
  set_prio pr (set_pid pid (set_state RUNNABLE (set_kstack 2147487744 (set_pgdir 2147491840 proc_zero)))).
Definition demo_table : list proc :=
  [demo_proc 1 19; demo_proc 2 18; demo_proc 3 20] ++ replicate 61 proc_zero.
Definition demo_state : pstate unit :=
  PState (Machine [Cpu 0 1 1 true None false 0 0] 0) (Spinlock true (Some 0%nat)) demo_table 4
    (Some 0%nat) false 2147479552 tt.

Lemma demo_scan_ok : scan_ok demo_state.
Proof.
  split; [done|]. exists (Cpu 0 1 1 true None false 0 0). split; [|done].
  split; [|done]. split; [|simpl; lia]. apply (bool_decide_unpack _). done.
Qed.

Lemma demo_table_ok : table_ok (procs demo_state).
Proof.
  split_and!; [done|..].
  - intros i p Hi Hst. simpl in Hi.
    do 3 (destruct i as [|i]; [simplify_eq/=; done|]).
    apply lookup_replicate in Hi as [-> _]. by destruct Hst.
  - intros i p Hi. simpl in Hi.
    do 3 (destruct i as [|i]; [simplify_eq/=; lia|]).
    apply lookup_replicate in Hi as [-> _]. simpl. lia.
Qed.

Lemma scheduler_dispatch_witness :
  (match scheduler_step (SScan 0) demo_state with Ret pc _ _ => bool_decide (pc = SRun 2) | _ => false end)
    = true ∧
  ∃ h ph s'', scheduler_step_with (mret tt) (SScan 0) demo_state = Ret (SRun h) s'' [] ∧
    procs demo_state !! h = Some ph ∧ p_state ph = RUNNABLE.
Proof.
  split; [vm_compute; reflexivity|].
  assert (runnable (procs demo_state) 0) as Hr by (exists (demo_proc 1 19); split; reflexivity).
  destruct (scheduler_dispatch (mret tt) 0 demo_state demo_scan_ok demo_table_ok Hr)
    as (h & ph & s' & H1 & H2 & H3 & _).
  exists h, ph, s'. exact (conj H1 (conj H2 H3)).
Defined.


Lemma top_priority_dispatched_witness :
  waits 2 20 0 (procs demo_state) ∧
  ∃ n l' pc' s', (n ≤ NPROC * (2 * NPROC + 4))%nat ∧ (length l' ≤ NPROC)%nat ∧ last l' = Some 2%nat ∧
    siter (scheduler_step) yield_env n ([], SScan 0, demo_state)
    = Some (l', pc', s').
Proof.
  assert (waits 2 20 0 (procs demo_state)) as Hw by (exists (demo_proc 3 20); repeat split).
  split; [done|].
  destruct (top_priority_dispatched 2 yield_env [] 0 demo_state 0)
    as (n & l' & pc' & s' & Hn & Hl & Hlast & Hrun);
    [lia|apply demo_scan_ok|apply demo_table_ok|apply yield_env_ok|done|].
  exists n, l', pc', s'. exact (conj Hn (conj Hl (conj Hlast Hrun))).
Defined.
