(* ===== verification/ProcInv.v ===== *)
(** The system invariant of the process table (src/proc.c): what every
    operation of proc.c can rely on and leaves behind, whatever the memory and
    file services do, and wherever the operation stops in [sched()].

    The operations are followed by a partial weakest precondition, [wlp], on
    the part of the state the invariant talks about, the [view]. *)
From S2P Require Import Prelude Layout Spinlock Format CString ProcTable Scheduler.

(** * The view *)

Record pview := PView {
  v_procs : list proc;
  v_next : Z;
  v_init : option nat;
  v_runs : list (option nat);     (* cpu->proc of every CPU *)
  v_me : nat
}.

Definition view {W} (s : pstate W) : pview :=
  PView (procs s) (nextpid s) (initproc s) (cproc <$> cpus (mach s)) (me (mach s)).

Definition v_set (ps : list proc) (v : pview) : pview :=
  PView ps (v_next v) (v_init v) (v_runs v) (v_me v).
Definition v_upd (i : nat) (f : proc → proc) (v : pview) : pview :=
  v_set (alter f i (v_procs v)) v.
Definition v_wake (c : option chan) (v : pview) : pview := v_set (wake1 c <$> v_procs v) v.
Definition v_curr (v : pview) (cur : nat) : Prop := v_runs v !! v_me v = Some (Some cur).

(** * The invariant *)

Definition alive (st : procstate) : bool :=
  match st with SLEEPING | RUNNABLE | RUNNING => true | _ => false end.

(** What holds of one slot on its own. *)
Record slot_ok (next : Z) (p : proc) : Prop := SlotOk {
  so_pid : p_state p ≠ UNUSED → 1 ≤ p_pid p < next;
  so_prio : p_state p ≠ UNUSED → 1 ≤ p_priority p ≤ 20;
  so_counter : 0 ≤ p_counter p < 50;
  so_mem : alive (p_state p) = true → p_kstack p ≠ 0 ∧ p_pgdir p ≠ 0;
  so_unused : p_state p = UNUSED → p_parent p = None;
  so_ofile : length (p_ofile p) = NOFILE;
  so_name : length (p_name p) = 16%nat
}.

(** The whole table.  [ex] is the CPU, if any, that is inside [sched()]: its
    process has already given up the state RUNNING. *)
Record tinv (ex : option nat) (v : pview) : Prop := TInv {
  ti_len : length (v_procs v) = NPROC;
  ti_next : 1 ≤ v_next v ≤ 2147483647;
  ti_slot i p : v_procs v !! i = Some p → slot_ok (v_next v) p;
  ti_uniq i j p q : v_procs v !! i = Some p → v_procs v !! j = Some q →
    p_state p ≠ UNUSED → p_state q ≠ UNUSED → p_pid p = p_pid q → i = j;
  ti_parent i p j : v_procs v !! i = Some p → p_parent p = Some j →
    ∃ q, v_procs v !! j = Some q ∧ alive (p_state q) = true;
  ti_init : ∃ k q, v_init v = Some k ∧ v_procs v !! k = Some q ∧ alive (p_state q) = true;
  ti_run k i : v_runs v !! k = Some (Some i) →
    ∃ p, v_procs v !! i = Some p ∧ (p_state p = RUNNING ↔ Some k ≠ ex);
  ti_inj k k' i : v_runs v !! k = Some (Some i) → v_runs v !! k' = Some (Some i) → k = k';
  ti_onrun i p : v_procs v !! i = Some p → p_state p = RUNNING →
    ∃ k, v_runs v !! k = Some (Some i)
}.

(** * Partial correctness on views *)

(** The view of a state; none if two CPUs share an APIC id. *)
Class Viewed (S V : Type) : Type := viewed : S → V → Prop.

Section wlp.
Context {S V : Type} `{!Viewed S V}.

(** Run from any state with view [v], the code stops with [Q] if it returns
    and with [B] if it stops in [sched()]. *)
Definition wlp {A} (m : M S A) (Q : A → V → Prop) (B : V → Prop) (v : V) : Prop :=
  ∀ s, viewed s v →
  match m s with
  | Ret a s' _ => ∃ v', viewed s' v' ∧ Q a v'
  | Blocked CSched s' _ => ∃ v', viewed s' v' ∧ B v'
  | Blocked _ _ _ => False
  | _ => True
  end.

Lemma wlp_ret {A} (a : A) (Q : A → V → Prop) B v : Q a v → wlp (mret a) Q B v.
Proof. intros H s Hs. by exists v. Qed.

Lemma wlp_bind {A C} (m : M S A) (k : A → M S C) Q B v :
  wlp m (λ a, wlp (k a) Q B) B v → wlp (m ≫= k) Q B v.
Proof.
  intros H s Hs. specialize (H s Hs). unfold mbind, M_bind.
  destruct (m s) as [a s1 t| |c| |]; try done.
  destruct H as (v1 & Hv1 & H). specialize (H s1 Hv1). by destruct (k a s1).
Qed.

Lemma wlp_mono {A} (m : M S A) (Q Q' : A → V → Prop) (B B' : V → Prop) v :
  wlp m Q B v → (∀ a v', Q a v' → Q' a v') → (∀ v', B v' → B' v') → wlp m Q' B' v.
Proof.
  intros H HQ HB s Hs. specialize (H s Hs).
  destruct (m s) as [| |c| |]; [| |destruct c| |]; naive_solver.
Qed.

Lemma wlp_get (Q : S → V → Prop) B v :
  (∀ s, viewed s v → Q s v) → wlp get Q B v.
Proof. intros H s Hs. exists v; auto. Qed.

Lemma wlp_panic {A} msg (Q : A → V → Prop) B v : wlp (panic msg) Q B v.
Proof. done. Qed.

Lemma wlp_undef {A} (Q : A → V → Prop) B v : wlp undef Q B v.
Proof. done. Qed.

Lemma wlp_panic_if b msg (Q : unit → V → Prop) B v :
  (b = false → Q tt v) → wlp (panic_if b msg) Q B v.
Proof. intros H s Hs. destruct b; simpl; eauto. Qed.

Lemma wlp_deref {A} (o : option A) (Q : A → V → Prop) B v :
  (∀ a, o = Some a → Q a v) → wlp (deref o) Q B v.
Proof. intros H s Hs. destruct o; simpl; eauto. Qed.

Lemma wlp_modify (f : S → S) (Q : unit → V → Prop) B v :
  (∀ s, viewed s v → ∃ v', viewed (f s) v' ∧ Q tt v') → wlp (modify f) Q B v.
Proof. intros H s Hs. exact (H s Hs). Qed.

Lemma wlp_emits t (Q : unit → V → Prop) B v : Q tt v → wlp (λ s, Ret tt s t) Q B v.
Proof. intros H s Hs. eauto. Qed.

Lemma wlp_foreach {A} (I : list A → V → Prop) (l : list A) (f : A → M S unit) B v :
  I [] v →
  (∀ done x rest v', l = done ++ x :: rest → I done v' →
     wlp (f x) (λ _, I (done ++ [x])) B v') →
  wlp (foreach l f) (λ _, I l) B v.
Proof.
  intros H0 Hstep.
  enough (∀ rest done v', l = done ++ rest → I done v' →
    wlp (foreach rest f) (λ _, I l) B v') as H by (by eapply (H l [])).
  clear v H0. induction rest as [|x rest IH]; intros dn v' Hl HI; simpl.
  - apply wlp_ret. rewrite app_nil_r in Hl. by rewrite Hl.
  - apply wlp_bind. eapply wlp_mono; [by eapply Hstep| |done].
    intros [] v1 HI1. eapply IH; [|exact HI1]. by rewrite <- (assoc_L (++)).
Qed.
End wlp.

(** ** The machine and the lock *)

(** Of the machine the invariant sees which process is on which CPU. *)
Definition mview : Type := list (option nat) * nat.
#[export] Instance viewed_machine : Viewed machine mview := λ m v,
  mach_ok m ∧ cproc <$> cpus m = v.1 ∧ me m = v.2.
#[export] Instance viewed_lockst : Viewed lockst mview := λ s v, viewed s.1 v.
#[export] Instance viewed_pstate {W} : Viewed (pstate W) pview := λ s v,
  mach_ok (mach s) ∧ view s = v.

Lemma fmap_cproc_alter (f : cpu → cpu) k (l : list cpu) :
  (∀ c, cproc (f c) = cproc c) → cproc <$> alter f k l = cproc <$> l.
Proof.
  intros Hf. apply list_eq; intros i. rewrite !list_lookup_fmap.
  destruct (decide (i = k)) as [->|Hne].
  - rewrite list_lookup_alter_eq. destruct (l !! k); simpl; by rewrite ?Hf.
  - by rewrite list_lookup_alter_ne.
Qed.

(** An update of a CPU that keeps its identity and its process. *)
Definition frames (f : cpu → cpu) : Prop := ∀ c, apicid (f c) = apicid c ∧ cproc (f c) = cproc c.

Lemma viewed_upd f i m (v : mview) : frames f → viewed m v → viewed (upd_cpu f i m) v.
Proof.
  intros Hf (Hok & Hr & Hme). split_and!; [|simpl|done].
  - apply mach_ok_upd; [|done]. intros c. apply Hf.
  - rewrite fmap_cproc_alter; [done|]. intros c. apply Hf.
Qed.

Section machine_wlp.
Implicit Types v : mview.
Implicit Types B : mview → Prop.

Lemma wlp_readeflags (Q : bool → mview → Prop) B v :
  (∀ b, Q b v) → wlp readeflags_IF Q B v.
Proof.
  intros H. unfold readeflags_IF. apply wlp_bind, wlp_get. intros m _.
  apply wlp_bind, wlp_deref. intros c _. apply wlp_ret, H.
Qed.

Lemma wlp_mycpu (Q : nat → mview → Prop) B v : Q v.2 v → wlp mycpu Q B v.
Proof.
  intros H m (Hok & Hr & Hme). destruct (lookup_me m Hok) as [c Hc].
  destruct (eflags_IF c) eqn:HIF.
  - unfold mycpu, readeflags_IF. munfold. rewrite Hc. simpl. by rewrite HIF.
  - rewrite (mycpu_run m c) by done. exists v. rewrite Hme. by split.
Qed.

Lemma wlp_mycpu_get {A} (f : cpu → A) (Q : A → mview → Prop) B v :
  (∀ c, v.1 !! v.2 = Some (cproc c) → Q (f c) v) → wlp (mycpu_get f) Q B v.
Proof.
  intros H. unfold mycpu_get. apply wlp_bind, wlp_mycpu, wlp_bind, wlp_get.
  intros m (_ & Hr & Hme). apply wlp_bind, wlp_deref. intros c Hc.
  apply wlp_ret, H. by rewrite <- Hr, list_lookup_fmap, Hc.
Qed.

Lemma wlp_mycpu_upd f (Q : unit → mview → Prop) B v :
  frames f → Q tt v → wlp (mycpu_upd f) Q B v.
Proof.
  intros Hf H. unfold mycpu_upd. apply wlp_bind, wlp_mycpu, wlp_modify.
  intros m Hm. exists v. split; [by apply viewed_upd|done].
Qed.

Lemma wlp_upd_me f (Q : unit → mview → Prop) B v :
  frames f → Q tt v → wlp (modify (λ m, upd_cpu f (me m) m)) Q B v.
Proof.
  intros Hf H. apply wlp_modify. intros m Hm. exists v. split; [by apply viewed_upd|done].
Qed.

Lemma wlp_pushcli (Q : unit → mview → Prop) B v : Q tt v → wlp pushcli Q B v.
Proof.
  intros H. unfold pushcli. apply wlp_bind, wlp_readeflags. intros b.
  apply wlp_bind, wlp_upd_me; [done|].
  apply wlp_bind, wlp_mycpu_get. intros c _. apply wlp_bind. case_bool_decide.
  - apply wlp_mycpu_upd; [done|]. by apply wlp_mycpu_upd.
  - apply wlp_ret. by apply wlp_mycpu_upd.
Qed.

Lemma wlp_popcli (Q : unit → mview → Prop) B v : Q tt v → wlp popcli Q B v.
Proof.
  intros H. unfold popcli. apply wlp_bind, wlp_readeflags. intros b.
  apply wlp_bind, wlp_panic_if. intros _. apply wlp_bind, wlp_mycpu_upd; [done|].
  apply wlp_bind, wlp_mycpu_get. intros c _. apply wlp_bind, wlp_panic_if. intros _.
  apply wlp_bind, wlp_mycpu_get. intros c' _. case_match; [by apply wlp_upd_me|by apply wlp_ret].
Qed.

Lemma wlp_myproc (Q : option nat → mview → Prop) B v :
  (∀ o, v.1 !! v.2 = Some o → Q o v) → wlp myproc Q B v.
Proof.
  intros H. unfold myproc. apply wlp_bind, wlp_pushcli, wlp_bind, wlp_mycpu_get.
  intros c Hc. apply wlp_bind, wlp_popcli, wlp_ret. auto.
Qed.

Lemma wlp_onm {A} (o : M machine A) (Q : A → mview → Prop) B v :
  wlp o Q B v → wlp (onm o) Q B v.
Proof.
  intros H [m l] Hs. specialize (H m Hs). unfold onm, zoom. simpl.
  by destruct (o m).
Qed.

Lemma wlp_setlock (f : lockst → spinlock) (Q : unit → mview → Prop) B v :
  Q tt v → wlp (modify (λ s, set_lock (f s) s)) Q B v.
Proof. intros H. apply wlp_modify. intros s Hs. by exists v. Qed.

Lemma wlp_holding (Q : bool → mview → Prop) B v : (∀ b, Q b v) → wlp holding Q B v.
Proof.
  intros H. unfold holding. apply wlp_bind, wlp_get. intros s _.
  destruct (locked s.2); [|by apply wlp_ret].
  apply wlp_bind, wlp_onm, wlp_mycpu, wlp_ret, H.
Qed.

Lemma wlp_acquire (Q : unit → mview → Prop) B v : Q tt v → wlp acquire Q B v.
Proof.
  intros H. unfold acquire, acquire_enter.
  apply wlp_bind, wlp_bind, wlp_onm, wlp_pushcli, wlp_bind, wlp_holding. intros b.
  apply wlp_panic_if. intros _. apply wlp_bind. intros s Hs. unfold acquire_xchg.
  destruct (locked s.2); [done|]. exists v. split; [exact Hs|].
  apply wlp_bind, wlp_onm, wlp_mycpu. by apply wlp_setlock.
Qed.

Lemma wlp_release (Q : unit → mview → Prop) B v : Q tt v → wlp release Q B v.
Proof.
  intros H. unfold release, release_clear, release_store.
  apply wlp_bind, wlp_bind, wlp_holding. intros b. apply wlp_bind, wlp_panic_if. intros _.
  apply wlp_setlock, wlp_bind, wlp_setlock, wlp_onm. by apply wlp_popcli.
Qed.
End machine_wlp.

(** * The primitives of proc.c *)

Section pstate_wlp.
Context {W : Type} {SV : ProcServices W}.
Implicit Types v : pview.
Implicit Types B : pview → Prop.
Local Notation wlp := (wlp (S := pstate W) (V := pview)).

Lemma wlp_on_mach {A} (o : M machine A) (Q : A → pview → Prop) B v :
  ProcInv.wlp o (λ a mv, mv = (v_runs v, v_me v) ∧ Q a v) (λ _, False) (v_runs v, v_me v) →
  wlp (on_mach o) Q B v.
Proof.
  intros H s [Hok <-]. specialize (H (mach s) (conj Hok (conj eq_refl eq_refl))).
  unfold on_mach, zoom. destruct (o (mach s)) as [a m t| |c| |]; try done.
  - destruct H as (mv & (Hok' & Hr & Hme) & -> & HQ). simpl in *.
    exists (view s). split; [|done]. split; [done|]. unfold view. simpl. by rewrite Hr, Hme.
  - destruct c; naive_solver.
Qed.

Lemma wlp_on_plock {A} (o : M lockst A) (Q : A → pview → Prop) B v :
  ProcInv.wlp o (λ a mv, mv = (v_runs v, v_me v) ∧ Q a v) (λ _, False) (v_runs v, v_me v) →
  wlp (on_plock o) Q B v.
Proof.
  intros H s [Hok <-].
  specialize (H (mach s, plk s) (conj Hok (conj eq_refl eq_refl))).
  unfold on_plock, zoom. destruct (o (mach s, plk s)) as [a [m l] t| |c| |]; try done.
  - destruct H as (mv & (Hok' & Hr & Hme) & -> & HQ). simpl in *.
    exists (view s). split; [|done]. split; [done|]. unfold view. simpl. by rewrite Hr, Hme.
  - destruct c; naive_solver.
Qed.

Lemma wlp_pt_acquire (Q : unit → pview → Prop) B v : Q tt v → wlp pt_acquire Q B v.
Proof. intros H. by apply wlp_on_plock, wlp_acquire. Qed.

Lemma wlp_pt_release (Q : unit → pview → Prop) B v : Q tt v → wlp pt_release Q B v.
Proof. intros H. by apply wlp_on_plock, wlp_release. Qed.

Lemma wlp_pt_myproc (Q : option nat → pview → Prop) B v :
  (∀ o, v_runs v !! v_me v = Some o → Q o v) → wlp pt_myproc Q B v.
Proof. intros H. apply wlp_on_mach, wlp_myproc. auto. Qed.

Lemma wlp_pt_curproc (Q : nat → pview → Prop) B v :
  (∀ cur, v_curr v cur → Q cur v) → wlp pt_curproc Q B v.
Proof.
  intros H. unfold pt_curproc. apply wlp_bind, wlp_pt_myproc. intros o Ho.
  apply wlp_deref. intros cur ->. auto.
Qed.

Lemma wlp_pget i (Q : proc → pview → Prop) B v :
  (∀ p, v_procs v !! i = Some p → Q p v) → wlp (pget i) Q B v.
Proof.
  intros H. unfold pget. apply wlp_bind, wlp_get. intros s [_ <-]. by apply wlp_deref.
Qed.

Lemma wlp_pupd i f (Q : unit → pview → Prop) B v :
  (∀ p, v_procs v !! i = Some p → Q tt (v_upd i f v)) → wlp (pupd i f) Q B v.
Proof.
  intros H. unfold pupd. apply wlp_bind, wlp_pget. intros p Hp.
  apply wlp_modify. intros s [Hok <-]. exists (v_upd i f (view s)). split; [done|eauto].
Qed.

Lemma wlp_wakeup1 c (Q : unit → pview → Prop) B v :
  Q tt (v_wake c v) → wlp (wakeup1 c) Q B v.
Proof.
  intros H. apply wlp_modify. intros s [Hok <-]. by exists (v_wake c (view s)).
Qed.

Lemma wlp_wakeup c (Q : unit → pview → Prop) B v :
  Q tt (v_wake c v) → wlp (wakeup c) Q B v.
Proof.
  intros H. unfold wakeup.
  by apply wlp_bind, wlp_pt_acquire, wlp_bind, wlp_wakeup1, wlp_pt_release.
Qed.

(** [sched] changes nothing before it switches away. *)
Lemma wlp_sched (Q : unit → pview → Prop) B v : B v → wlp sched Q B v.
Proof.
  intros H. unfold sched. apply wlp_bind, wlp_pt_curproc. intros cur _.
  apply wlp_bind, wlp_on_plock, wlp_holding. intros b. split; [done|].
  apply wlp_bind, wlp_panic_if. intros _.
  apply wlp_bind, wlp_on_mach, wlp_mycpu_get. intros c _. split; [done|].
  apply wlp_bind, wlp_panic_if. intros _. apply wlp_bind, wlp_pget. intros p _.
  apply wlp_bind, wlp_panic_if. intros _.
  apply wlp_bind, wlp_on_mach, wlp_readeflags. intros b'. split; [done|].
  apply wlp_bind, wlp_panic_if. intros _.
  apply wlp_bind, wlp_on_mach, wlp_mycpu_get. intros c' _. split; [done|].
  intros s Hs. exists v. by split.
Qed.

(** A lock argument whose operations do not touch what the view shows. *)
Definition lockref_ok (lk : lockref) : Prop :=
  match lk with
  | LkOther acq rel => ∀ v (Q : unit → pview → Prop) B, Q tt v → wlp acq Q B v ∧ wlp rel Q B v
  | _ => True
  end.

Lemma wlp_sleep c lk (Q : unit → pview → Prop) B v :
  lockref_ok lk →
  (∀ cur, v_curr v cur → B (v_upd cur (set_state SLEEPING) (v_upd cur (set_chan c) v))) →
  wlp (sleep c lk) Q B v.
Proof.
  intros Hlk H. unfold sleep. apply wlp_bind, wlp_pt_myproc. intros [cur|] Hcur; [|apply wlp_panic].
  apply wlp_bind. eapply (wlp_mono _ (λ _ v', v' = v)); [| |done].
  - destruct lk as [| |acq rel]; [apply wlp_panic|by apply wlp_ret|].
    apply wlp_bind, wlp_pt_acquire. by apply Hlk.
  - intros [] ? ->. apply wlp_bind, wlp_pupd. intros p Hp. apply wlp_bind, wlp_pupd. intros p' Hp'.
    apply wlp_sched. auto.
Qed.

(** A service of another component: the invariant [I] survives the wakeups it
    makes, and its sleeping. *)
Lemma wlp_svc {A} (I : pview → Prop) (m : M W A) (Q : A → pview → Prop) B v :
  (∀ c v', I v' → I (v_wake c v')) →
  (∀ c cur v', I v' → v_curr v' cur →
     B (v_upd cur (set_state SLEEPING) (v_upd cur (set_chan c) v'))) →
  I v → (∀ a v', I v' → Q a v') → wlp (svc m) Q B v.
Proof.
  intros Hwake Hsleep HI HQ.
  assert (∀ t C (k : M (pstate W) C) R, (∀ v', I v' → wlp k R B v') →
    wlp (deliver t ;; k) R B v) as Hdeliver.
  { intros t C k R Hk. apply wlp_bind.
    apply (wlp_mono _ (λ _, I) _ B); [|by intros [] v' Hv'; apply Hk, Hv'|done].
    apply (wlp_foreach (λ _, I)); [done|]. intros _ e _ v' _ Hv'.
    destruct e; [|by apply wlp_ret..]. apply wlp_wakeup; auto. }
  intros s [Hok Hv]. unfold svc. destruct (m (world s)) as [a w t| |c w t| |]; try done.
  - specialize (Hdeliver t A (mret a) Q (λ v' H, wlp_ret a Q B v' (HQ a v' H)) (set_world w s)
      (conj Hok Hv)).
    by destruct ((deliver t;; mret a) _).
  - assert (wlp (deliver t;; sleep (Some c) (LkOther (mret tt) (mret tt));; undef) Q B v) as Hw.
    { apply Hdeliver. intros v' Hv'. apply wlp_bind, wlp_sleep; [|auto].
      intros v1 Q1 B1 H1. split; by apply wlp_ret. }
    specialize (Hw (set_world w s) (conj Hok Hv)).
    by destruct ((deliver t;; _) _).
Qed.
End pstate_wlp.

(** * Updates of the table *)

Lemma v_upd_lookup i f v j q :
  v_procs (v_upd i f v) !! j = Some q →
  (j ≠ i ∧ v_procs v !! j = Some q) ∨ (j = i ∧ ∃ p, v_procs v !! i = Some p ∧ q = f p).
Proof.
  simpl. destruct (decide (j = i)) as [->|Hne].
  - rewrite list_lookup_alter_eq. intros (p & Hp & ->)%fmap_Some. eauto.
  - rewrite list_lookup_alter_ne by done. eauto.
Qed.

Lemma v_upd_eq i f v p : v_procs v !! i = Some p → v_procs (v_upd i f v) !! i = Some (f p).
Proof. intros H. simpl. by rewrite list_lookup_alter_eq, H. Qed.

Lemma v_upd_ne i f v j : j ≠ i → v_procs (v_upd i f v) !! j = v_procs v !! j.
Proof. intros H. simpl. by rewrite list_lookup_alter_ne. Qed.

Lemma v_upd_upd i f g v : v_upd i g (v_upd i f v) = v_upd i (g ∘ f) v.
Proof. unfold v_upd, v_set. simpl. by rewrite list_alter_alter_eq. Qed.

(** A live slot stays live under an update that keeps its own slot live. *)
Lemma v_upd_alive i f v p j q :
  v_procs v !! i = Some p → (j = i → alive (p_state (f p)) = true) →
  v_procs v !! j = Some q → alive (p_state q) = true →
  ∃ q', v_procs (v_upd i f v) !! j = Some q' ∧ alive (p_state q') = true.
Proof.
  intros Hp Ha Hq Hl. destruct (decide (j = i)) as [->|Hne].
  - exists (f p). split; [by apply v_upd_eq|auto].
  - exists q. by rewrite v_upd_ne.
Qed.

(** The effect on the invariant of changing one slot, in general. *)
Lemma tinv_upd_gen ex ex' v i f p :
  tinv ex v → v_procs v !! i = Some p →
  slot_ok (v_next v) (f p) →
  (p_state (f p) ≠ UNUSED → ∀ j q, j ≠ i → v_procs v !! j = Some q →
     p_state q ≠ UNUSED → p_pid q ≠ p_pid (f p)) →
  (∀ j, p_parent (f p) = Some j → p_parent p = Some j ∨
     ((j = i → alive (p_state (f p)) = true) ∧
      ∃ q, v_procs v !! j = Some q ∧ alive (p_state q) = true)) →
  (alive (p_state (f p)) = true ∨ alive (p_state p) = false ∨
     v_init v ≠ Some i ∧ ∀ j q, v_procs v !! j = Some q → p_parent q ≠ Some i) →
  (∀ k, v_runs v !! k = Some (Some i) → p_state (f p) = RUNNING ↔ Some k ≠ ex') →
  (∀ k j, v_runs v !! k = Some (Some j) → j ≠ i → Some k ≠ ex ↔ Some k ≠ ex') →
  (p_state (f p) = RUNNING → ∃ k, v_runs v !! k = Some (Some i)) →
  tinv ex' (v_upd i f v).
Proof.
  intros [Hlen Hnext Hslot Huniq Hpar Hinit Hrun Hinj Hon] Hp Hf Hpid Hfp Hal Hrf Hex Honf.
  assert (∀ j q, v_procs v !! j = Some q → alive (p_state q) = true →
    (j = i → alive (p_state (f p)) = true) →
    ∃ q', v_procs (v_upd i f v) !! j = Some q' ∧ alive (p_state q') = true) as Hlive.
  { intros j q Hq Hl Hj. by eapply v_upd_alive. }
  split; simpl.
  - by rewrite length_alter.
  - done.
  - intros j q [[_ Hq]|[_ (p' & Hp' & ->)]]%v_upd_lookup; [eauto|]. by simplify_eq.
  - intros j1 j2 q1 q2 [[Hn1 H1]|[-> (p1 & Hp1 & ->)]]%v_upd_lookup
      [[Hn2 H2]|[-> (p2 & Hp2 & ->)]]%v_upd_lookup Hu1 Hu2 Heq; simplify_eq; try done.
    + eauto.
    + by destruct (Hpid Hu2 j1 q1).
    + by destruct (Hpid Hu1 j2 q2).
  - intros j q par [[Hn Hq]|[-> (p1 & Hp1 & ->)]]%v_upd_lookup Hparent; simplify_eq.
    + destruct (Hpar _ _ _ Hq Hparent) as (r & Hr & Har). apply (Hlive par r Hr Har).
      intros ->. destruct Hal as [?|[?|[_ Hno]]]; [done|congruence|by destruct (Hno j q)].
    + destruct (Hfp par Hparent) as [Hpp|(Hne & r & Hr & Har)]; [|by apply (Hlive par r)].
      destruct (Hpar _ _ _ Hp Hpp) as (r & Hr & Har). apply (Hlive par r Hr Har).
      intros ->. destruct Hal as [?|[?|[_ Hno]]]; [done|congruence|by destruct (Hno i p)].
  - destruct Hinit as (k & q & Hk & Hq & Hl).
    destruct (Hlive k q Hq Hl) as (q' & ? & ?); [|by exists k, q'].
    intros ->. destruct Hal as [?|[?|[Hno _]]]; [done|congruence|done].
  - intros k j Hk. destruct (Hrun k j Hk) as (q & Hq & Hst).
    destruct (decide (j = i)) as [->|Hne].
    + exists (f p). split; [by apply v_upd_eq|auto].
    + exists q. split; [rewrite <- Hq; by apply v_upd_ne|]. rewrite Hst. eauto.
  - done.
  - intros j q [[Hn Hq]|[-> (p1 & Hp1 & ->)]]%v_upd_lookup Hst; [eauto|]. simplify_eq. auto.
Qed.

(** Changes that leave a slot's state, pid and parent alone. *)
Definition quiet (f : proc → proc) : Prop := ∀ p,
  p_state (f p) = p_state p ∧ p_pid (f p) = p_pid p ∧ p_parent (f p) = p_parent p.

Lemma tinv_upd_quiet ex v i f p :
  tinv ex v → v_procs v !! i = Some p → quiet f → slot_ok (v_next v) (f p) →
  tinv ex (v_upd i f v).
Proof.
  intros Hv Hp Hf Hok. destruct (Hf p) as (Hst & Hpid & Hpar).
  apply (tinv_upd_gen ex ex v i f p); try done; rewrite ?Hst, ?Hpid, ?Hpar.
  - intros Hu j q Hne Hq Hq' Heq. by apply Hne, (ti_uniq _ _ Hv j i q p).
  - by left.
  - destruct (alive (p_state p)); auto.
  - intros k Hk. destruct (ti_run _ _ Hv k i Hk) as (p' & Hp' & ?). by simplify_eq.
  - intros Hr. by apply (ti_onrun _ _ Hv i p).
Qed.

(** The running process gives up the CPU. *)
Lemma tinv_leave v cur f p :
  tinv None v → v_curr v cur → v_procs v !! cur = Some p →
  slot_ok (v_next v) (f p) → p_pid (f p) = p_pid p → p_parent (f p) = p_parent p →
  p_state (f p) ≠ RUNNING →
  (alive (p_state (f p)) = true ∨
     v_init v ≠ Some cur ∧ ∀ j q, v_procs v !! j = Some q → p_parent q ≠ Some cur) →
  tinv (Some (v_me v)) (v_upd cur f v).
Proof.
  intros Hv Hcur Hp Hok Hpid Hpar Hnr Hal.
  assert (∀ k, v_runs v !! k = Some (Some cur) → k = v_me v) as Hk
    by (intros k Hk; by eapply (ti_inj _ _ Hv)).
  assert (p_state p = RUNNING) as Hst.
  { destruct (ti_run _ _ Hv _ _ Hcur) as (p' & Hp' & Hr). simplify_eq. by apply Hr. }
  apply (tinv_upd_gen None _ v cur f p); try done; rewrite ?Hpid, ?Hpar.
  - intros _ j q Hne Hq Hq' Heq. apply Hne, (ti_uniq _ _ Hv j cur q p); try done. by rewrite Hst.
  - by left.
  - destruct Hal; auto.
  - intros k ->%Hk. naive_solver.
  - intros k j Hkj Hne. split; [|done]. intros _ [= ->]. unfold v_curr in Hcur. congruence.
Qed.

(** [wakeup1] keeps the invariant. *)
Lemma wake1_fields c p :
  wake1 c p = p ∨ p_state p = SLEEPING ∧ wake1 c p = set_state RUNNABLE p.
Proof. unfold wake1. repeat case_bool_decide; simpl; auto. Qed.

Lemma v_wake_lookup c v j q :
  v_procs (v_wake c v) !! j = Some q → ∃ p, v_procs v !! j = Some p ∧ q = wake1 c p.
Proof. simpl. rewrite list_lookup_fmap. intros (p & Hp & ->)%fmap_Some. eauto. Qed.

Lemma v_wake_at c v j p :
  v_procs v !! j = Some p → v_procs (v_wake c v) !! j = Some (wake1 c p).
Proof. intros H. simpl. by rewrite list_lookup_fmap, H. Qed.

Lemma wake1_same c p :
  p_pid (wake1 c p) = p_pid p ∧ p_parent (wake1 c p) = p_parent p ∧
  alive (p_state (wake1 c p)) = alive (p_state p) ∧
  (p_state (wake1 c p) = UNUSED ↔ p_state p = UNUSED) ∧
  (p_state (wake1 c p) = RUNNING ↔ p_state p = RUNNING) ∧
  (∀ n, slot_ok n p → slot_ok n (wake1 c p)).
Proof.
  destruct (wake1_fields c p) as [->|[Hs ->]]; [done|].
  simpl. rewrite Hs. split_and!; try done.
  intros n [H1 H2 H3 H4 H5 H6 H7]. rewrite Hs in *. by split; simpl; auto.
Qed.

(** A change of every slot that keeps what the other slots and the CPUs see. *)
Record neutral (g : proc → proc) : Prop := Neutral {
  ne_pid p : p_pid (g p) = p_pid p;
  ne_parent p : p_parent (g p) = p_parent p;
  ne_alive p : alive (p_state (g p)) = alive (p_state p);
  ne_unused p : p_state (g p) = UNUSED ↔ p_state p = UNUSED;
  ne_running p : p_state (g p) = RUNNING ↔ p_state p = RUNNING;
  ne_slot n p : slot_ok n p → slot_ok n (g p)
}.

Lemma neutral_wake1 c : neutral (wake1 c).
Proof. split; intros; by apply wake1_same. Qed.

Lemma tinv_map ex g v : neutral g → tinv ex v → tinv ex (v_set (g <$> v_procs v) v).
Proof.
  intros Hg [Hlen Hnext Hslot Huniq Hpar Hinit Hrun Hinj Hon].
  assert (∀ j q, v_procs (v_set (g <$> v_procs v) v) !! j = Some q →
    ∃ p, v_procs v !! j = Some p ∧ q = g p) as Hlook.
  { intros j q. simpl. rewrite list_lookup_fmap. intros (p & Hp & ->)%fmap_Some. eauto. }
  assert (∀ j p, v_procs v !! j = Some p → v_procs (v_set (g <$> v_procs v) v) !! j = Some (g p))
    as Hat by (intros j p Hp; simpl; by rewrite list_lookup_fmap, Hp).
  assert (∀ j q, v_procs v !! j = Some q → alive (p_state q) = true →
    ∃ q', v_procs (v_set (g <$> v_procs v) v) !! j = Some q' ∧ alive (p_state q') = true) as Hlive.
  { intros j q Hq Hl. exists (g q). split; [by apply Hat|]. by rewrite (ne_alive _ Hg). }
  split.
  - simpl. by rewrite length_fmap.
  - done.
  - intros j q (p & Hp & ->)%Hlook. apply (ne_slot _ Hg). eauto.
  - intros j1 j2 q1 q2 (p1 & Hp1 & ->)%Hlook (p2 & Hp2 & ->)%Hlook.
    rewrite !(ne_unused _ Hg), !(ne_pid _ Hg). eauto.
  - intros j q par (p & Hp & ->)%Hlook. rewrite (ne_parent _ Hg). intros Hp'.
    destruct (Hpar j p par Hp Hp') as (r & Hr & Ha). by apply (Hlive par r).
  - destruct Hinit as (k & q & Hk & Hq & Hl). destruct (Hlive k q Hq Hl) as (q' & ? & ?).
    by exists k, q'.
  - intros k j Hk. destruct (Hrun k j Hk) as (p & Hp & Hst). exists (g p).
    split; [by apply Hat|]. by rewrite (ne_running _ Hg).
  - done.
  - intros j q (p & Hp & ->)%Hlook Hst. apply (Hon j p Hp). by apply (ne_running _ Hg).
Qed.

Lemma tinv_wake ex c v : tinv ex v → tinv ex (v_wake c v).
Proof. apply tinv_map, neutral_wake1. Qed.

(** * Every operation of proc.c keeps the invariant *)

(** Where the code stops in [sched()]. *)
Definition switching (v : pview) : Prop := tinv (Some (v_me v)) v.
(** Process [cur] is running on the executing CPU. *)
Definition tcur (cur : nat) (v : pview) : Prop := tinv None v ∧ v_curr v cur.

Ltac slot_auto :=
  match goal with H : slot_ok _ ?p |- slot_ok _ _ =>
    destruct H as [Kpid Kprio Kcnt Kmem Kunu Kof Knm];
    try match goal with E : p_state p = _ |- _ => rewrite E in Kpid, Kprio, Kmem, Kunu end;
    split; simpl in *; auto; try match goal with E : p_state p = _ |- _ => rewrite ?E end;
    try done; try lia;
    try (by intros; first [apply Kpid | apply Kprio | apply Kmem | congruence])
  end.

Lemma tcur_running cur v :
  tcur cur v → ∃ p, v_procs v !! cur = Some p ∧ p_state p = RUNNING ∧ slot_ok (v_next v) p.
Proof.
  intros [Hv Hc]. destruct (ti_run _ _ Hv _ _ Hc) as (p & Hp & Hr). exists p.
  split_and!; [done|by apply Hr|by apply (ti_slot _ _ Hv cur)].
Qed.

Lemma switching_sleep cur c v :
  tcur cur v → switching (v_upd cur (set_state SLEEPING) (v_upd cur (set_chan c) v)).
Proof.
  intros H. destruct (tcur_running cur v H) as (p & Hp & Hst & Hok), H as [Hv Hc].
  rewrite v_upd_upd. apply (tinv_leave v cur _ p); try done; [|by left].
  slot_auto.
Qed.

Lemma tcur_wake cur c v : tcur cur v → tcur cur (v_wake c v).
Proof. intros [Hv Hc]. split; [by apply tinv_wake|done]. Qed.

Lemma tcur_upd_quiet cur v i f p :
  tcur cur v → v_procs v !! i = Some p → quiet f →
  (slot_ok (v_next v) p → slot_ok (v_next v) (f p)) → tcur cur (v_upd i f v).
Proof.
  intros [Hv Hc] Hp Hq Hf. split; [|done].
  apply (tinv_upd_quiet _ _ _ _ p); try done. by apply Hf, (ti_slot _ _ Hv i).
Qed.

(** A slot under construction, [EMBRYO] and known to satisfy [P]. *)
Definition emb (cur np : nat) (P : proc → Prop) (v : pview) : Prop :=
  tcur cur v ∧ ∃ p, v_procs v !! np = Some p ∧ p_state p = EMBRYO ∧ P p.

Lemma emb_wake cur np P c v : emb cur np P v → emb cur np P (v_wake c v).
Proof.
  intros (Hv & p & Hp & Hst & HP). split; [by apply tcur_wake|].
  exists p. split_and!; try done. rewrite (v_wake_at c _ _ _ Hp).
  destruct (wake1_fields c p) as [->|[? _]]; [done|congruence].
Qed.

Lemma emb_ne cur np P v : emb cur np P v → cur ≠ np.
Proof.
  intros (Hv & p & Hp & Hst & _) ->. destruct (tcur_running _ _ Hv) as (q & Hq & ? & _). congruence.
Qed.

(** A step of the construction. *)
Lemma emb_upd cur np (P P' : proc → Prop) f v :
  emb cur np P v →
  (∀ p, P p → p_state p = EMBRYO → slot_ok (v_next v) p →
     p_state (f p) = EMBRYO ∧ p_pid (f p) = p_pid p ∧
     (p_parent (f p) = p_parent p ∨ p_parent (f p) = Some cur) ∧
     slot_ok (v_next v) (f p) ∧ P' (f p)) →
  emb cur np P' (v_upd np f v).
Proof.
  intros He Hf. pose proof (emb_ne _ _ _ _ He) as Hne. destruct He as ([Hv Hc] & p & Hp & Hst & HP).
  destruct (Hf p HP Hst (ti_slot _ _ Hv np p Hp)) as (Hst' & Hpid & Hpar & Hok & HP').
  split; [split|]; [|done|exists (f p); by split; [apply v_upd_eq|]].
  apply (tinv_upd_gen None None v np f p); try done; rewrite ?Hst', ?Hpid; try done.
  - intros _ j q Hj Hq Hq' Heq. apply Hj, (ti_uniq _ _ Hv j np q p); try done. by rewrite Hst.
  - intros j Hj. destruct Hpar as [Hpar|Hpar]; rewrite Hpar in Hj; [by left|right]. simplify_eq.
    destruct (tcur_running _ _ (conj Hv Hc)) as (q & Hq & Hr & _).
    split; [done|]. exists q. by rewrite Hr.
  - right; left. by rewrite Hst.
  - intros k Hk. destruct (ti_run _ _ Hv k np Hk) as (p' & Hp' & Hr). simplify_eq.
    rewrite Hst in Hr. naive_solver.
Qed.

(** The end of the construction: the slot is published or given back. *)
Lemma emb_finish cur np P st v :
  emb cur np P v →
  (st = RUNNABLE ∧ (∀ p, P p → p_kstack p ≠ 0 ∧ p_pgdir p ≠ 0) ∨
   st = UNUSED ∧ (∀ p, P p → p_parent p = None)) →
  tcur cur (v_upd np (set_state st) v).
Proof.
  intros He Hst'. pose proof (emb_ne _ _ _ _ He) as Hne. destruct He as ([Hv Hc] & p & Hp & Hst & HP).
  pose proof (ti_slot _ _ Hv np p Hp) as Hok. split; [|done].
  apply (tinv_upd_gen None None v np _ p); try done; simpl.
  - destruct Hst' as [[-> Hm]|[-> Hm]]; slot_auto.
  - intros Hu j q Hj Hq Hq' Heq. apply Hj, (ti_uniq _ _ Hv j np q p); try done. by rewrite Hst.
  - by left.
  - right; left. by rewrite Hst.
  - intros k Hk. destruct (ti_run _ _ Hv k np Hk) as (p' & Hp' & Hr). simplify_eq.
    rewrite Hst in Hr. naive_solver.
  - destruct Hst' as [[-> _]|[-> _]]; done.
Qed.

(** Taking an UNUSED slot with the next pid. *)
Definition v_setnext n v : pview := PView (v_procs v) n (v_init v) (v_runs v) (v_me v).

Lemma slot_ok_next n n' p : n ≤ n' → slot_ok n p → slot_ok n' p.
Proof. intros Hn H. slot_auto. intros ?%Kpid. lia. Qed.

Lemma tinv_setnext ex v n :
  tinv ex v → v_next v ≤ n ≤ 2147483647 → tinv ex (v_setnext n v).
Proof.
  intros [Hlen Hnext Hslot Huniq Hpar Hinit Hrun Hinj Hon] Hn. split; simpl; try done; [lia|].
  intros i p Hp. eapply slot_ok_next; [|by eapply Hslot]. lia.
Qed.

Lemma emb_alloc cur np v p f :
  tcur cur v → v_next v < 2147483647 → v_procs v !! np = Some p → p_state p = UNUSED →
  (∀ q, p_state (f q) = EMBRYO ∧ p_pid (f q) = v_next v ∧ p_parent (f q) = p_parent q ∧
     p_priority (f q) = 5 ∧ p_counter (f q) = 0 ∧ p_ofile (f q) = p_ofile q ∧ p_name (f q) = p_name q) →
  emb cur np (λ q, p_parent q = None) (v_upd np f (v_setnext (v_next v + 1) v)).
Proof.
  intros [Hv Hc] Hn Hp Hst Hf. destruct (Hf p) as (Hst' & Hpid & Hpar & Hpr & Hco & Hof & Hnm).
  pose proof (ti_slot _ _ Hv np p Hp) as [_ _ _ _ Hun Hlen1 Hlen2].
  pose proof (ti_next _ _ Hv) as Hn1.
  split; [split|]; [|done|exists (f p); split_and!; [by apply v_upd_eq|done|by rewrite Hpar, Hun]].
  apply (tinv_upd_gen None None _ np f p); try done; simpl; rewrite ?Hst', ?Hpid; try done.
  - by apply tinv_setnext; [|lia].
  - split; rewrite ?Hst', ?Hpid, ?Hpar, ?Hpr, ?Hco, ?Hof, ?Hnm; try done; lia.
  - intros _ j q Hj Hq Hq'. pose proof (so_pid _ _ (ti_slot _ _ Hv j q Hq) Hq'). lia.
  - intros j. rewrite Hpar. by left.
  - right; left. by rewrite Hst.
  - intros k Hk. destruct (ti_run _ _ Hv k np Hk) as (p' & Hp' & Hr). simplify_eq.
    rewrite Hst in Hr. naive_solver.
Qed.

Section operations.
Context {W : Type} {SV : ProcServices W}.
Implicit Types v : pview.
Implicit Types B : pview → Prop.
Local Notation wlp := (wlp (S := pstate W) (V := pview)).

Lemma wlp_svc_cur {A} (m : M W A) cur (Q : A → pview → Prop) v :
  tcur cur v → (∀ a v', tcur cur v' → Q a v') → wlp (svc m) Q switching v.
Proof.
  intros Hv HQ. apply (wlp_svc (tcur cur)); try done; [apply tcur_wake|].
  intros c cur' v' Hv' Hc'. destruct Hv' as [Ht Hc]. unfold v_curr in *. simplify_eq.
  by apply switching_sleep.
Qed.

Lemma wlp_svc_emb {A} (m : M W A) cur np P (Q : A → pview → Prop) v :
  emb cur np P v → (∀ a v', emb cur np P v' → Q a v') → wlp (svc m) Q switching v.
Proof.
  intros Hv HQ. apply (wlp_svc (emb cur np P)); try done; [apply emb_wake|].
  intros c cur' v' [[Ht Hc] _] Hc'. unfold v_curr in *. simplify_eq. by apply switching_sleep.
Qed.

(** A step on a slot under construction. *)
Lemma wlp_pupd_emb cur np P P' f (Q : unit → pview → Prop) B v :
  emb cur np P v →
  (∀ p, P p → p_state p = EMBRYO → slot_ok (v_next v) p →
     p_state (f p) = EMBRYO ∧ p_pid (f p) = p_pid p ∧
     (p_parent (f p) = p_parent p ∨ p_parent (f p) = Some cur) ∧
     slot_ok (v_next v) (f p) ∧ P' (f p)) →
  (∀ v', emb cur np P' v' → Q tt v') → wlp (pupd np f) Q B v.
Proof. intros Hv Hf HQ. apply wlp_pupd. intros p Hp. apply HQ. by eapply emb_upd. Qed.

Lemma wlp_allocproc cur v (Q : option nat → pview → Prop) :
  tcur cur v → v_next v < 2147483647 →
  (∀ v', tcur cur v' → Q None v') →
  (∀ np v', emb cur np (λ p, p_parent p = None ∧ p_kstack p ≠ 0) v' → Q (Some np) v') →
  wlp allocproc Q switching v.
Proof.
  intros Hv Hn Hnone Hsome. unfold allocproc. apply wlp_bind, wlp_pt_acquire, wlp_bind, wlp_get.
  intros s [_ Hs]. destruct (list_find _ (procs s)) as [[i p]|] eqn:Hf.
  2: { apply wlp_bind, wlp_pt_release, wlp_ret. auto. }
  apply list_find_Some in Hf as (Hi & Hst & _).
  assert (procs s = v_procs v ∧ nextpid s = v_next v) as [Hps Hnx] by (by subst v).
  rewrite Hps in Hi. rewrite Hnx.
  apply wlp_bind, wlp_pupd. intros _ _. apply wlp_bind, wlp_pupd. intros _ _.
  apply wlp_bind, wlp_modify. intros s1 [Hok1 Hs1].
  exists (v_setnext (v_next v + 1) (v_upd i (set_pid (v_next v)) (v_upd i (set_state EMBRYO) v))).
  split.
  { split; [done|]. rewrite <- Hs1. unfold view, v_setnext. simpl.
    pose proof (ti_next _ _ (proj1 Hv)). rewrite i32_small by lia. done. }
  apply wlp_bind, wlp_pupd. intros _ _. apply wlp_bind, wlp_pupd. intros _ _.
  apply wlp_bind, wlp_pt_release.
  apply wlp_bind, (wlp_svc_emb _ cur i (λ q, p_parent q = None)).
  { assert (∀ f g h k n, v_upd i k (v_upd i h (v_setnext n (v_upd i g (v_upd i f v))))
      = v_upd i (k ∘ h ∘ g ∘ f) (v_setnext n v)) as ->
      by (intros; unfold v_upd, v_setnext, v_set; simpl; by rewrite !list_alter_alter_eq).
    by eapply emb_alloc. }
  intros k v2 Hv2.
  apply wlp_bind, (wlp_pupd_emb _ _ _ (λ q, p_parent q = None ∧ p_kstack q = k) _ _ _ _ Hv2).
  { intros q Hq Hs' Hok. split_and!; try done; [by left|]. slot_auto. }
  intros v3 Hv3. case_bool_decide as Hk.
  - apply wlp_bind, wlp_pupd. intros _ _. apply wlp_ret, Hnone.
    eapply emb_finish; [done|]. right. split; [done|]. by intros q [? _].
  - apply wlp_bind, (wlp_pupd_emb _ _ _ (λ q, p_parent q = None ∧ p_kstack q ≠ 0) _ _ _ _ Hv3).
    { intros q [Hq Hqk] Hs' Hok. split_and!; simpl; try done; [by left|slot_auto|congruence]. }
    intros v4 Hv4. apply wlp_ret. auto.
Qed.

(** An embryo whose kernel stack and page table exist. *)
Definition has_mem (p : proc) : Prop := p_kstack p ≠ 0 ∧ p_pgdir p ≠ 0.

Lemma wlp_fork_dup cur np fd (Q : unit → pview → Prop) v :
  emb cur np has_mem v → (∀ v', emb cur np has_mem v' → Q tt v') →
  wlp (fork_dup cur np fd) Q switching v.
Proof.
  intros Hv HQ. unfold fork_dup. apply wlp_bind, wlp_pget. intros c _.
  apply wlp_bind, wlp_deref. intros [f|] _; [|apply wlp_ret; auto].
  apply wlp_bind, (wlp_svc_emb _ _ _ _ _ _ Hv). intros f' v1 Hv1.
  eapply wlp_pupd_emb; [exact Hv1| |exact HQ].
  intros p Hp Hst Hok. split_and!; try done; [by left|]. slot_auto. by rewrite length_insert.
Qed.

Lemma name_copy_length old src :
  length old = 16%nat → length (name_copy old src) = 16%nat.
Proof.
  intros H. unfold name_copy. destruct (safestrcpy old src 16) eqn:E; [|done]. simpl.
  by rewrite (safestrcpy_length _ _ _ _ E).
Qed.

Ltac emb_step H :=
  apply wlp_bind, (wlp_pupd_emb _ _ _ has_mem _ _ _ _ H);
  [ intros ?p [? ?] ?Hst ?Hok; split_and!; try done; [first [by left | by right]|slot_auto]
  | clear H; intros ? H ].

Lemma wlp_fork_copy cur np v :
  emb cur np has_mem v → wlp (fork_copy cur np) (λ _, tinv None) switching v.
Proof.
  intros H. unfold fork_copy. apply wlp_bind, wlp_pget. intros c _.
  emb_step H. emb_step H. emb_step H. apply wlp_bind.
  eapply wlp_mono; [apply (wlp_foreach (λ _, emb cur np has_mem)); [exact H|]| |done].
  { intros _ fd _ u _ Hu. by apply wlp_fork_dup. }
  clear H. intros [] u H. apply wlp_bind, wlp_pget. intros c2 _.
  apply wlp_bind, wlp_deref. intros cwd _.
  apply wlp_bind, (wlp_svc_emb _ _ _ _ _ _ H). clear H. intros cwd' u' H.
  emb_step H. emb_step H; [by apply name_copy_length|].
  apply wlp_bind, wlp_pget. intros n _.
  apply wlp_bind, wlp_pt_acquire, wlp_bind, wlp_pupd. intros _ _.
  apply wlp_bind, wlp_pt_release, wlp_ret.
  apply (emb_finish cur np _ RUNNABLE _ H). by left.
Qed.

Lemma wlp_fork v :
  tinv None v → v_next v < 2147483647 → wlp fork (λ _, tinv None) switching v.
Proof.
  intros Hv Hn. unfold fork. apply wlp_bind, wlp_pt_curproc. intros cur Hc.
  apply wlp_bind, (wlp_allocproc cur); [by split|done| |].
  { intros v1 [Hv1 _]. by apply wlp_ret. }
  intros np v1 Hv1. apply wlp_bind, wlp_pget. intros c _.
  apply wlp_bind, (wlp_svc_emb _ _ _ _ _ _ Hv1). intros pg v2 Hv2.
  apply wlp_bind, (wlp_pupd_emb cur np _
    (λ p, p_parent p = None ∧ p_kstack p ≠ 0 ∧ p_pgdir p = pg) _ _ _ _ Hv2).
  { intros p [Hp Hk] Hst Hok. split_and!; try done; [by left|slot_auto]. }
  intros v3 Hv3. case_bool_decide as Hpg.
  - apply wlp_bind, wlp_pget. intros n _.
    apply wlp_bind, (wlp_svc_emb _ _ _ _ _ _ Hv3). intros _ v4 Hv4.
    apply wlp_bind, (wlp_pupd_emb cur np _ (λ p, p_parent p = None) _ _ _ _ Hv4).
    { intros p [Hp _] Hst Hok. split_and!; try done; [by left|slot_auto]. }
    intros v5 Hv5. apply wlp_bind, wlp_pupd. intros _ _. apply wlp_ret.
    apply (emb_finish cur np _ UNUSED _ Hv5). by right.
  - apply wlp_fork_copy. destruct Hv3 as (Ht & p & Hp & Hst & _ & Hk & Hpp). split; [done|].
    exists p. split_and!; [done|done|split; congruence].
Qed.
(** A process that stops sleeping without being chosen to run. *)
Lemma tinv_unsleep ex v i p :
  tinv ex v → v_procs v !! i = Some p → p_state p = SLEEPING →
  tinv ex (v_upd i (set_state RUNNABLE) v).
Proof.
  intros Hv Hp Hst. pose proof (ti_slot _ _ Hv i p Hp) as Hok.
  apply (tinv_upd_gen ex ex v i _ p); try done; simpl.
  - slot_auto.
  - intros Hu j q Hj Hq Hq' Heq. apply Hj, (ti_uniq _ _ Hv j i q p); try done. by rewrite Hst.
  - by left.
  - by left.
  - intros k Hk. destruct (ti_run _ _ Hv k i Hk) as (p' & Hp' & Hr). simplify_eq.
    rewrite Hst in Hr. naive_solver.
Qed.

Lemma wlp_kill pid ex B v : tinv ex v → wlp (kill pid) (λ _, tinv ex) B v.
Proof.
  intros Hv. unfold kill. apply wlp_bind, wlp_pt_acquire, wlp_bind, wlp_get. intros s [_ Hs].
  assert (procs s = v_procs v) as Hps by (by subst v).
  destruct (list_find _ _) as [[i p]|] eqn:Hf; [|by apply wlp_bind, wlp_pt_release, wlp_ret].
  apply list_find_Some in Hf as (Hi & _ & _). rewrite Hps in Hi.
  assert (tinv ex (v_upd i (set_killed 1) v)) as Hv1.
  { pose proof (ti_slot _ _ Hv i p Hi) as Hok.
    apply (tinv_upd_quiet _ _ _ _ p); try done. slot_auto. }
  apply wlp_bind, wlp_pupd. intros _ _. apply wlp_bind.
  apply (wlp_mono _ (λ _, tinv ex) _ B); [| |done].
  - case_bool_decide as Hst; [|by apply wlp_ret]. apply wlp_pupd. intros q Hq.
    apply (tinv_unsleep _ _ _ q); try done. rewrite (v_upd_eq _ _ _ p Hi) in Hq. by simplify_eq.
  - intros [] v' Hv'. by apply wlp_bind, wlp_pt_release, wlp_ret.
Qed.

Lemma wlp_set_priority pid n ex B v : tinv ex v → wlp (set_priority pid n) (λ _, tinv ex) B v.
Proof.
  intros Hv. unfold set_priority. do 2 (case_bool_decide; [by apply wlp_ret|]). simpl.
  apply wlp_bind, wlp_pt_acquire, wlp_bind, wlp_get. intros s [_ Hs]. apply wlp_bind.
  assert (procs s = v_procs v) as Hps by (by subst v).
  apply (wlp_mono _ (λ _, tinv ex) _ B); [| |done].
  - destruct (list_find _ _) as [[i p]|] eqn:Hf; [|by apply wlp_ret].
    apply list_find_Some in Hf as (Hi & _ & _). rewrite Hps in Hi. apply wlp_pupd. intros _ _.
    pose proof (ti_slot _ _ Hv i p Hi) as Hok.
    apply (tinv_upd_quiet _ _ _ _ p); try done. slot_auto.
  - intros [] v' Hv'. by apply wlp_bind, wlp_pt_release, wlp_ret.
Qed.

Lemma wlp_get_priority pid ex B v : tinv ex v → wlp (get_priority pid) (λ _, tinv ex) B v.
Proof.
  intros Hv. unfold get_priority. apply wlp_bind, wlp_pt_acquire, wlp_bind, wlp_get. intros s _.
  by apply wlp_bind, wlp_pt_release, wlp_ret.
Qed.

Lemma wlp_cprintf fmt ap (Q : unit → pview → Prop) B v : Q tt v → wlp (cprintf fmt ap) Q B v.
Proof.
  intros H. unfold cprintf. apply wlp_bind, wlp_deref. intros o _.
  apply (wlp_mono _ (λ _ v', v' = v) _ B); [|by intros [] ? ->|done].
  apply (wlp_foreach (λ _ v', v' = v)); [done|]. intros _ x _ v' _ ->. by apply wlp_emits.
Qed.

Lemma wlp_ps ex B v : tinv ex v → wlp ps (λ _, tinv ex) B v.
Proof.
  intros Hv. unfold ps. apply wlp_bind, wlp_pt_acquire, wlp_bind, wlp_get. intros s _.
  apply wlp_bind, (wlp_mono _ (λ _, tinv ex) _ B); [| |done].
  - apply (wlp_foreach (λ _, tinv ex)); [done|]. intros _ p _ v' _ Hv'.
    case_match; [by apply wlp_cprintf|by apply wlp_ret].
  - intros [] v' Hv'. by apply wlp_bind, wlp_pt_release, wlp_ret.
Qed.

Lemma wlp_procdump mem ex B v : tinv ex v → wlp (procdump mem) (λ _, tinv ex) B v.
Proof.
  intros Hv. unfold procdump. apply wlp_bind, wlp_get. intros s _.
  apply (wlp_foreach (λ _, tinv ex)); [done|]. intros _ p _ v' _ Hv'.
  case_bool_decide; [by apply wlp_ret|]. apply wlp_bind, wlp_cprintf, wlp_bind.
  apply (wlp_mono _ (λ _, tinv ex) _ B); [|by intros [] u Hu; apply wlp_cprintf|done].
  case_bool_decide; [|by apply wlp_ret].
  apply (wlp_foreach (λ _, tinv ex)); [done|]. intros _ pc _ u _ Hu. by apply wlp_cprintf.
Qed.

Lemma wlp_wakeup_inv c ex B v : tinv ex v → wlp (wakeup c) (λ _, tinv ex) B v.
Proof. intros Hv. apply wlp_wakeup. by apply tinv_wake. Qed.

Lemma wlp_switchuvm i (Q : unit → pview → Prop) B v : Q tt v → wlp (switchuvm i) Q B v.
Proof.
  intros H. unfold switchuvm. apply wlp_bind, wlp_pget. intros p _.
  apply wlp_bind, wlp_panic_if. intros _. apply wlp_bind, wlp_panic_if. intros _.
  apply wlp_on_mach, wlp_bind, wlp_pushcli, wlp_bind, wlp_mycpu_upd; [done|].
  apply wlp_bind, wlp_upd_me; [done|]. by apply wlp_popcli.
Qed.

Lemma wlp_growproc n v : tinv None v → wlp (growproc n) (λ _, tinv None) switching v.
Proof.
  intros Hv. unfold growproc. apply wlp_bind, wlp_pt_curproc. intros cur Hc.
  apply wlp_bind, wlp_pget. intros p _.
  assert (∀ sz v', tcur cur v' →
    wlp (pupd cur (set_sz sz);; switchuvm cur;; mret 0) (λ _, tinv None) switching v') as Hend.
  { intros sz v' Hv'. apply wlp_bind, wlp_pupd. intros q Hq. apply wlp_bind, wlp_switchuvm, wlp_ret.
    apply (tcur_upd_quiet cur v' cur _ q); try done. intros Hok. slot_auto. }
  repeat case_bool_decide.
  - apply wlp_bind, (wlp_svc_cur _ cur); [by split|]. intros sz v' Hv'.
    case_bool_decide; [apply wlp_ret, Hv'|auto].
  - apply wlp_bind, (wlp_svc_cur _ cur); [by split|]. intros sz v' Hv'.
    case_bool_decide; [apply wlp_ret, Hv'|auto].
  - by apply Hend.
Qed.

Lemma wlp_yield v : tinv None v → wlp yield (λ _ _, False) switching v.
Proof.
  intros Hv. unfold yield. apply wlp_bind, wlp_pt_acquire, wlp_bind, wlp_pt_curproc.
  intros cur Hc. apply wlp_bind, wlp_pupd. intros p Hp. apply wlp_sched.
  destruct (tcur_running cur v (conj Hv Hc)) as (q & Hq & Hst & Hok).
  apply (tinv_leave v cur _ q); try done; [|by left]. slot_auto.
Qed.

Lemma wlp_sleep_inv c lk v :
  lockref_ok lk → tinv None v → wlp (sleep c lk) (λ _ _, False) switching v.
Proof. intros Hlk Hv. apply wlp_sleep; [done|]. intros cur Hc. by apply switching_sleep. Qed.

Lemma wlp_forkret v : tinv None v → wlp forkret (λ _, tinv None) switching v.
Proof.
  intros Hv. unfold forkret. apply wlp_bind, wlp_pt_release, wlp_bind, wlp_get. intros s _.
  destruct (fr_first s); [|by apply wlp_ret].
  apply wlp_bind, wlp_modify. intros s1 [Hok1 Hs1]. exists v. split; [by split|].
  assert (∀ v', tinv None v' → wlp (svc sv_initlog) (λ _, tinv None) switching v' ∧
    ∀ Q, (∀ u, tinv None u → Q tt u) → wlp (svc sv_iinit) Q switching v') as Hs.
  { intros v' Hv'. split; [|intros Q HQ]; (apply (wlp_svc (tinv None));
      [intros c u; apply tinv_wake|intros c cur u Hu Hc; by apply switching_sleep|done|]); [done|].
    intros [] u Hu. auto. }
  apply wlp_bind, Hs; [done|]. intros u Hu. by apply Hs.
Qed.

(** ** exit *)

Definition not_init (cur : nat) (v : pview) : Prop := tcur cur v ∧ v_init v ≠ Some cur.

Lemma wlp_svc_not_init {A} (m : M W A) cur (Q : A → pview → Prop) v :
  not_init cur v → (∀ a v', not_init cur v' → Q a v') → wlp (svc m) Q switching v.
Proof.
  intros Hv HQ. apply (wlp_svc (not_init cur)); try done.
  - intros c v' [? ?]. split; [by apply tcur_wake|done].
  - intros c cur' v' [[Ht Hc] _] Hc'. unfold v_curr in *. simplify_eq. by apply switching_sleep.
Qed.

Lemma wlp_exit_close cur fd v :
  not_init cur v → wlp (exit_close cur fd) (λ _, not_init cur) switching v.
Proof.
  intros Hv. unfold exit_close. apply wlp_bind, wlp_pget. intros c _.
  apply wlp_bind, wlp_deref. intros [f|] _; [|by apply wlp_ret].
  apply wlp_bind, (wlp_svc_not_init _ cur); [done|]. intros _ v1 [Hv1 Hi1].
  apply wlp_pupd. intros p Hp. split; [|done].
  apply (tcur_upd_quiet cur v1 cur _ p); try done. intros Hok. slot_auto. by rewrite length_insert.
Qed.

(** After slot [n] of the loop, no slot below [n] is a child of [cur]. *)
Definition handed_over (cur n : nat) (v : pview) : Prop :=
  not_init cur v ∧ ∀ j q, v_procs v !! j = Some q → p_parent q = Some cur → (n ≤ j)%nat.

Lemma handed_over_wake cur n c v : handed_over cur n v → handed_over cur n (v_wake c v).
Proof.
  intros [[Hv Hi] Hn]. split; [split; [by apply tcur_wake|done]|].
  intros j q (p & Hp & ->)%v_wake_lookup. destruct (wake1_same c p) as (_ & -> & _). eauto.
Qed.

Lemma wlp_exit_reparent cur i B v :
  handed_over cur i v → wlp (exit_reparent cur i) (λ _, handed_over cur (S i)) B v.
Proof.
  intros [[Hv Hi] Hn]. unfold exit_reparent. apply wlp_bind, wlp_pget. intros p Hp.
  assert (∀ j q, j ≠ i → v_procs v !! j = Some q → p_parent q = Some cur → (S i ≤ j)%nat) as Hn'.
  { intros j q Hj Hq Hc. specialize (Hn j q Hq Hc). lia. }
  case_bool_decide as Hpar; [|apply wlp_ret; split; [done|]; intros j q Hq Hc].
  2: { destruct (decide (j = i)) as [->|]; [by simplify_eq|eauto]. }
  apply wlp_bind, wlp_get. intros s [_ Hs]. assert (initproc s = v_init v) as -> by (by subst v).
  destruct Hv as [Ht Hc]. destruct (ti_init _ _ Ht) as (k & q & Hk & Hq & Hl).
  assert (handed_over cur (S i) (v_upd i (set_parent (v_init v)) v)) as Hdone.
  { split; [split; [split|]|]; [|done|done|].
    - pose proof (ti_slot _ _ Ht i p Hp) as Hok.
      apply (tinv_upd_gen None None v i _ p); try done; simpl.
      + slot_auto. intros Hst. specialize (Kunu Hst). congruence.
      + intros Hu j r Hj Hr Hr' Heq. by apply Hj, (ti_uniq _ _ Ht j i r p).
      + intros j Hj. rewrite Hk in Hj. simplify_eq. right. split; [|eauto]. intros ->. congruence.
      + destruct (alive (p_state p)); auto.
      + intros k' Hk'. destruct (ti_run _ _ Ht k' i Hk') as (p' & Hp' & ?). by simplify_eq.
      + intros Hr. by apply (ti_onrun _ _ Ht i p).
    - intros j r [[Hj Hr]|[-> (p' & Hp' & ->)]]%v_upd_lookup Hrc; [eauto|]. simpl in Hrc. congruence. }
  apply wlp_bind, wlp_pupd. intros _ _. case_bool_decide; [|by apply wlp_ret].
  apply wlp_wakeup1. by apply handed_over_wake.
Qed.

Lemma wlp_exit_files cur v :
  not_init cur v → wlp (exit_files cur) (λ _, not_init cur) switching v.
Proof.
  intros Hv. unfold exit_files. apply wlp_bind.
  eapply wlp_mono; [apply (wlp_foreach (λ _, not_init cur)); [exact Hv|]| |done].
  { intros _ fd _ v' _ Hv'. by apply wlp_exit_close. }
  intros [] v1 Hv1. apply wlp_bind, (wlp_svc_not_init _ cur); [done|]. intros _ v2 Hv2.
  apply wlp_bind, wlp_pget. intros c _. apply wlp_bind, wlp_deref. intros cwd _.
  apply wlp_bind, (wlp_svc_not_init _ cur); [done|]. intros _ v3 Hv3.
  apply wlp_bind, (wlp_svc_not_init _ cur); [done|]. intros _ v4 [Hv4 Hi4].
  apply wlp_pupd. intros p4 Hp4. split; [|done].
  apply (tcur_upd_quiet cur v4 cur _ p4); try done. intros Hok. slot_auto.
Qed.

Lemma wlp_exit v : tinv None v → wlp exit (λ _ _, False) switching v.
Proof.
  intros Ht. unfold exit. apply wlp_bind, wlp_pt_curproc. intros cur Hc.
  apply wlp_bind, wlp_get. intros s [_ Hs]. apply wlp_bind, wlp_panic_if. intros Hi.
  apply bool_decide_eq_false in Hi. assert (not_init cur v) as Hv by (by split; [split|subst v]).
  clear s Hs Hi. apply wlp_bind. eapply wlp_mono; [by apply wlp_exit_files| |done].
  intros [] v5 Hv5. apply wlp_bind, wlp_pt_acquire, wlp_bind, wlp_pget. intros c5 _.
  apply wlp_bind, wlp_wakeup1.
  apply wlp_bind, (wlp_mono _ (λ _, handed_over cur NPROC) _ switching); [| |done].
  - eapply wlp_mono; [apply (wlp_foreach (λ dn, handed_over cur (length dn)))| |done].
    + apply handed_over_wake. split; [done|]. intros j q _ _. simpl. lia.
    + intros dn i rest v' Hl Hv'. rewrite length_app, Nat.add_comm. simpl.
      assert (length dn = i) as <-.
      { assert (seq 0 NPROC !! length dn = Some i) as Hi by (rewrite Hl; by apply list_lookup_middle).
        by apply lookup_seq in Hi as [-> _]. }
      by apply wlp_exit_reparent.
    + intros u v'. by rewrite length_seq.
  - intros [] v6 [[[Ht6 Hc6] Hi6] Hn6]. apply wlp_bind, wlp_pupd. intros p Hp.
    apply wlp_bind, wlp_sched. destruct (tcur_running cur v6 (conj Ht6 Hc6)) as (q & Hq & Hst & Hok).
    apply (tinv_leave v6 cur _ q); try done.
    + slot_auto.
    + right. split; [done|]. intros j r Hr Hrc. pose proof (Hn6 j r Hr Hrc) as Hj.
      apply lookup_lt_Some in Hr. rewrite (ti_len _ _ Ht6) in Hr. lia.
Qed.

(** ** wait *)

(** A child that has exited, before it is reaped. *)
Definition zomb (cur i : nat) (v : pview) : Prop :=
  tcur cur v ∧ ∃ p, v_procs v !! i = Some p ∧ p_state p = ZOMBIE.

Lemma wlp_svc_zomb {A} (m : M W A) cur i (Q : A → pview → Prop) v :
  zomb cur i v → (∀ a v', zomb cur i v' → Q a v') → wlp (svc m) Q switching v.
Proof.
  intros Hv HQ. apply (wlp_svc (zomb cur i)); try done.
  - intros c v' (? & p & Hp & Hst). split; [by apply tcur_wake|]. exists p. split; [|done].
    rewrite (v_wake_at c _ _ _ Hp). destruct (wake1_fields c p) as [->|[? _]]; [done|congruence].
  - intros c cur' v' [[Ht Hc] _] Hc'. unfold v_curr in *. simplify_eq. by apply switching_sleep.
Qed.

(** Giving a ZOMBIE's slot back. *)
Lemma tinv_reap cur i f v :
  zomb cur i v →
  (∀ p, p_state (f p) = UNUSED ∧ p_parent (f p) = None ∧ p_counter (f p) = p_counter p ∧
     p_ofile (f p) = p_ofile p ∧ length (p_name (f p)) = length (p_name p)) →
  tcur cur (v_upd i f v).
Proof.
  intros ([Hv Hc] & p & Hp & Hst) Hf. destruct (Hf p) as (Hu & Hpar & Hco & Hof & Hnm).
  pose proof (ti_slot _ _ Hv i p Hp) as [_ _ Kc _ _ Ko Kn]. split; [|done].
  apply (tinv_upd_gen None None v i f p); try done; rewrite ?Hu, ?Hpar; try done.
  - split; rewrite ?Hu, ?Hpar, ?Hco, ?Hof, ?Hnm; done.
  - right; left. by rewrite Hst.
  - intros k Hk. destruct (ti_run _ _ Hv k i Hk) as (p' & Hp' & Hr). simplify_eq.
    rewrite Hst in Hr. naive_solver.
Qed.

Lemma wlp_wait_scan cur l b v :
  tcur cur v → wlp (wait_scan cur l b) (λ _, tcur cur) switching v.
Proof.
  revert b. induction l as [|i l IH]; intros b Hv; simpl; [by apply wlp_ret|].
  apply wlp_bind, wlp_pget. intros p Hp. case_bool_decide; [by apply IH|].
  case_bool_decide as Hst; [|by apply IH].
  apply wlp_bind, (wlp_svc_zomb _ cur i); [by split; eauto|]. intros _ v1 (Hv1 & p1 & Hp1 & Hst1).
  apply wlp_bind, wlp_pupd. intros _ _.
  apply wlp_bind, (wlp_svc_zomb _ cur i).
  { split; [|exists (set_kstack 0 p1); by split; [apply v_upd_eq|]].
    apply (tcur_upd_quiet cur v1 i _ p1); try done. intros Hok. slot_auto. }
  intros _ v2 Hv2. do 5 (apply wlp_bind, wlp_pupd; intros _ _).
  apply wlp_bind, wlp_pt_release, wlp_ret. rewrite !v_upd_upd.
  apply (tinv_reap cur i _ v2 Hv2). intros q. simpl. by rewrite length_insert.
Qed.

Lemma wlp_wait_round cur v :
  tcur cur v → wlp (wait_round cur) (λ _, tinv None) switching v.
Proof.
  intros Hv. unfold wait_round. apply wlp_bind.
  eapply wlp_mono; [by apply wlp_wait_scan| |done]. intros [b|pid] v1 [Hv1 Hc1]; [|by apply wlp_ret].
  apply wlp_bind, wlp_pget. intros c _. case_match; [by apply wlp_bind, wlp_pt_release, wlp_ret|].
  apply wlp_bind, wlp_sleep; [done|]. intros cur' Hc'. by apply switching_sleep.
Qed.

Lemma wlp_wait v : tinv None v → wlp wait (λ _, tinv None) switching v.
Proof.
  intros Hv. unfold wait. apply wlp_bind, wlp_pt_curproc. intros cur Hc.
  apply wlp_bind, wlp_pt_acquire. by apply wlp_wait_round.
Qed.

(** ** Coming back from [sched()] *)

Lemma wlp_sched_resume ie (Q : unit → pview → Prop) B v : Q tt v → wlp (sched_resume ie) Q B v.
Proof. intros H. by apply wlp_on_mach, wlp_mycpu_upd. Qed.

Lemma wlp_yield_resume ie B v : tinv None v → wlp (yield_resume ie) (λ _, tinv None) B v.
Proof. intros H. by apply wlp_bind, wlp_sched_resume, wlp_pt_release. Qed.

Lemma wlp_sleep_resume cur ie lk B v :
  lockref_ok lk → tcur cur v → wlp (sleep_resume cur ie lk) (λ _, tcur cur) B v.
Proof.
  intros Hlk Hv. unfold sleep_resume. apply wlp_bind, wlp_sched_resume, wlp_bind, wlp_pupd.
  intros p Hp. assert (tcur cur (v_upd cur (set_chan None) v)) as Hv1.
  { apply (tcur_upd_quiet cur v cur _ p); try done. intros Hok. slot_auto. }
  destruct lk as [| |acq rel]; [by apply wlp_ret..|]. apply wlp_bind, wlp_pt_release. by apply Hlk.
Qed.

(** ** The scheduler *)

Definition v_setruns (o : option nat) (v : pview) : pview :=
  PView (v_procs v) (v_next v) (v_init v) (<[v_me v := o]> (v_runs v)) (v_me v).

Lemma wlp_set_cpu_proc o (Q : unit → pview → Prop) B v :
  Q tt (v_setruns o v) → wlp (set_cpu_proc o) Q B v.
Proof.
  intros H s [Hok <-]. unfold set_cpu_proc, on_mach, zoom, modify.
  exists (v_setruns o (view s)). split; [split|done].
  - by apply mach_ok_upd.
  - unfold view, v_setruns. simpl. f_equal. apply list_eq. intros k.
    rewrite list_lookup_fmap. destruct (decide (k = me (mach s))) as [->|Hne].
    + rewrite list_lookup_alter_eq. destruct Hok as [_ Hlt].
      rewrite list_lookup_insert_eq by (by rewrite length_fmap).
      by destruct (lookup_lt_is_Some_2 _ _ Hlt) as [c ->].
    + by rewrite list_lookup_alter_ne, list_lookup_insert_ne, list_lookup_fmap.
Qed.

(** No process on the executing CPU. *)
Definition idle (v : pview) : Prop := v_runs v !! v_me v = Some None.

(** The RUNNABLE process [h] is put on an idle CPU. *)
Lemma tcur_dispatch h p v :
  tinv None v → idle v → v_procs v !! h = Some p → p_state p = RUNNABLE →
  tcur h (v_upd h (set_state RUNNING) (v_setruns (Some h) v)).
Proof.
  intros Hv Hi Hp Hst. pose proof (ti_slot _ _ Hv h p Hp) as Hok.
  assert (∀ k, v_runs v !! k ≠ Some (Some h)) as Hno.
  { intros k Hk. destruct (ti_run _ _ Hv k h Hk) as (p' & Hp' & Hr). simplify_eq.
    rewrite Hst in Hr. naive_solver. }
  assert (v_runs (v_setruns (Some h) v) !! v_me v = Some (Some h)) as Hme
    by (simpl; apply list_lookup_insert_eq; by eapply lookup_lt_Some).
  assert (∀ k j, v_runs (v_setruns (Some h) v) !! k = Some (Some j) →
    k = v_me v ∧ j = h ∨ v_runs v !! k = Some (Some j) ∧ j ≠ h) as Hruns.
  { intros k j Hk. destruct (decide (k = v_me v)) as [->|Hne].
    - left. rewrite Hme in Hk. by simplify_eq.
    - simpl in Hk. rewrite list_lookup_insert_ne in Hk by done. right. split; [done|]. intros ->. by apply (Hno k). }
  split; [|exact Hme].
  destruct Hv as [Hlen Hnext Hslot Huniq Hpar Hinit Hrun Hinj Hon].
  apply (tinv_upd_gen (Some (v_me v)) None (v_setruns (Some h) v) h _ p); simpl; try done.
  - split; try done.
    + intros k j Hk. destruct (Hruns k j Hk) as [[-> ->]|[Hk' Hj]].
      * exists p. rewrite Hst. split; [done|naive_solver].
      * destruct (Hrun k j Hk') as (q & Hq & Hr). exists q. split; [done|]. rewrite Hr.
        split; [|done]. intros _ [= ->]. unfold idle in Hi. congruence.
    + intros k k' j Hk Hk'.
      destruct (Hruns k j Hk) as [[-> ->]|[? ?]], (Hruns k' _ Hk') as [[-> ?]|[? ?]]; try done. eauto.
    + intros j q Hq Hr. destruct (Hon j q Hq Hr) as [k Hk]. exists k. simpl.
      rewrite list_lookup_insert_ne; [done|]. intros <-. unfold idle in Hi. congruence.
  - slot_auto.
  - intros Hu j q Hj Hq Hq' Heq. apply Hj, (Huniq j h q p); try done. by rewrite Hst.
  - by left.
  - by left.
  - intros k j Hk Hne. destruct (Hruns k j Hk) as [[-> ->]|[Hk' _]]; [done|].
    split; [done|]. intros _ [= ->]. unfold idle in Hi. congruence.
  - intros _. by exists (v_me v).
Qed.

(** The process has switched away: the CPU becomes idle. *)
Lemma tinv_undispatch v : switching v → (∃ h, v_curr v h) → tinv None (v_setruns None v).
Proof.
  intros [Hlen Hnext Hslot Huniq Hpar Hinit Hrun Hinj Hon] [h Hc].
  assert (∀ k j, v_runs (v_setruns None v) !! k = Some (Some j) →
    k ≠ v_me v ∧ v_runs v !! k = Some (Some j)) as Hruns.
  { intros k j Hk. simpl in Hk. destruct (decide (k = v_me v)) as [->|Hne].
    - rewrite list_lookup_insert_eq in Hk; [done|]. by eapply lookup_lt_Some.
    - by rewrite list_lookup_insert_ne in Hk. }
  split; try done.
  - intros k j [Hne Hk]%Hruns. destruct (Hrun k j Hk) as (q & Hq & Hr). exists q.
    split; [done|]. rewrite Hr. split; [done|]. intros _ [= ->]. done.
  - intros k k' j [_ Hk]%Hruns [_ Hk']%Hruns. eauto.
  - intros j q Hq Hr. destruct (Hon j q Hq Hr) as [k Hk]. exists k. simpl.
    rewrite list_lookup_insert_ne; [done|]. intros <-.
    destruct (Hrun _ _ Hk) as (q' & Hq' & Hr'). simpl in Hq. simplify_eq. by apply Hr'.
Qed.

Lemma idle_undispatch v h : v_curr v h → idle (v_setruns None v).
Proof. intros H. apply list_lookup_insert_eq. by eapply lookup_lt_Some. Qed.

Lemma neutral_age1 : neutral age1.
Proof.
  assert (∀ p, p_pid (age1 p) = p_pid p ∧ p_parent (age1 p) = p_parent p ∧
    p_state (age1 p) = p_state p) as H.
  { intros p. unfold age1. by repeat case_match. }
  split; intros; try (destruct (H p) as (E1 & E2 & E3); by rewrite ?E1, ?E2, ?E3).
  unfold age1. repeat case_bool_decide; simpl in *; try done; slot_auto;
    intros ?%Kprio; lia.
Qed.

(** Where the scheduler's loop is, and what it has done. *)
Definition sched_pre (pc : spc) (v : pview) : Prop :=
  match pc with SRun h => switching v ∧ v_curr v h | _ => tinv None v ∧ idle v end.
Definition sched_post (pc : spc) (v : pview) : Prop :=
  match pc with SRun h => tcur h v | _ => tinv None v ∧ idle v end.

Lemma wlp_scheduler_step (after : M (pstate W) unit) pc B v :
  after = mret tt ∨ after = age_all → sched_pre pc v →
  wlp (scheduler_step_with after pc) sched_post B v.
Proof.
  intros Hafter Hv. destruct pc as [|p|h]; simpl.
  - apply wlp_bind, wlp_on_mach, wlp_upd_me; [done|]. split; [done|].
    by apply wlp_bind, wlp_pt_acquire, wlp_ret.
  - destruct Hv as [Hv Hi]. case_bool_decide; [|by apply wlp_bind, wlp_pt_release, wlp_ret].
    apply wlp_bind, wlp_pget. intros q Hq. case_bool_decide as Hst; [by apply wlp_ret|].
    apply wlp_bind, wlp_get. intros s [_ Hs].
    assert (procs s = v_procs v) as -> by (by subst v).
    destruct (highest_spec (v_procs v) p) as ((ph & Hph & Hsth) & _); [apply Hv|by exists q|].
    apply wlp_bind, wlp_set_cpu_proc, wlp_bind, wlp_switchuvm, wlp_bind, wlp_pupd. intros _ _.
    apply wlp_ret. by apply (tcur_dispatch _ ph).
  - destruct Hv as [Hv Hc]. unfold switchkvm. apply wlp_bind, wlp_bind, wlp_get. intros s _.
    apply wlp_on_mach, wlp_upd_me; [done|]. split; [done|].
    apply wlp_bind, (wlp_mono _ (λ _ v', switching v' ∧ v_curr v' h) _ B); [| |done].
    + destruct Hafter as [->| ->]; [by apply wlp_ret|]. apply wlp_modify. intros s1 [Hok1 <-].
      exists (v_set (age1 <$> v_procs (view s1)) (view s1)). split; [done|]. split; [|done].
      apply (tinv_map _ age1 _ neutral_age1 Hv).
    + intros [] v1 [Hv1 Hc1]. apply wlp_bind, wlp_set_cpu_proc, wlp_ret.
      split; [apply tinv_undispatch; eauto|by eapply idle_undispatch].
Qed.

End operations.
