(* ===== verification/ProcSystem.v ===== *)
(** The processes of the whole machine: [userinit] establishes the invariant
    of ProcInv.v, and every history of scheduler steps and of calls into
    proc.c on every CPU keeps it.

    Between two CPUs the unit of interleaving is one call (or one step of a
    scheduler loop); inside a call the lock discipline of Spinlock.v applies.
    A process that slept in a service starts its call again. *)
From S2P Require Import Prelude Layout Spinlock Format ProcTable Scheduler ProcInv.

(** * Only the scheduler changes which process is on a CPU *)

Definition fr (v : pview) : list (option nat) * nat := (v_runs v, v_me v).

Section keeps.
Context {W : Type} {SV : ProcServices W}.
Local Notation wlp := (wlp (S := pstate W) (V := pview)).

Definition keeps {A} (m : M (pstate W) A) : Prop := ∀ v,
  wlp m (λ _ v', fr v' = fr v) (λ v', fr v' = fr v) v.

Lemma keeps_ret {A} (a : A) : keeps (mret a).
Proof. intros v. by apply wlp_ret. Qed.
Lemma keeps_bind {A C} (m : M (pstate W) A) (k : A → M (pstate W) C) :
  keeps m → (∀ a, keeps (k a)) → keeps (m ≫= k).
Proof.
  intros Hm Hk v. apply wlp_bind. eapply wlp_mono; [apply Hm| |done].
  intros a v1 <-. apply Hk.
Qed.
Lemma keeps_get : keeps get.
Proof. intros v. by apply wlp_get. Qed.
Lemma keeps_panic {A} msg : keeps (A := A) (panic msg).
Proof. intros v. apply wlp_panic. Qed.
Lemma keeps_undef {A} : keeps (A := A) undef.
Proof. intros v. apply wlp_undef. Qed.
Lemma keeps_panic_if b msg : keeps (panic_if b msg).
Proof. intros v. by apply wlp_panic_if. Qed.
Lemma keeps_deref {A} (o : option A) : keeps (deref o).
Proof. intros v. by apply wlp_deref. Qed.
Lemma keeps_pget i : keeps (pget i).
Proof. intros v. by apply wlp_pget. Qed.
Lemma keeps_pupd i f : keeps (pupd i f).
Proof. intros v. by apply wlp_pupd. Qed.
Lemma keeps_acquire : keeps pt_acquire.
Proof. intros v. by apply wlp_pt_acquire. Qed.
Lemma keeps_release : keeps pt_release.
Proof. intros v. by apply wlp_pt_release. Qed.
Lemma keeps_curproc : keeps pt_curproc.
Proof. intros v. by apply wlp_pt_curproc. Qed.
Lemma keeps_wakeup c : keeps (wakeup c).
Proof. intros v. by apply wlp_wakeup. Qed.
Lemma keeps_wakeup1 c : keeps (wakeup1 c).
Proof. intros v. by apply wlp_wakeup1. Qed.
Lemma keeps_sched : keeps sched.
Proof. intros v. by apply wlp_sched. Qed.
Lemma keeps_sched_resume ie : keeps (sched_resume ie).
Proof. intros v. by apply wlp_sched_resume. Qed.
Lemma keeps_sleep c lk : lockref_ok lk → keeps (sleep c lk).
Proof. intros Hlk v. by apply wlp_sleep. Qed.
Lemma keeps_switchuvm i : keeps (switchuvm i).
Proof. intros v. by apply wlp_switchuvm. Qed.
Lemma keeps_cprintf fmt ap : keeps (cprintf fmt ap).
Proof. intros v. by apply wlp_cprintf. Qed.
Lemma keeps_svc {A} (m : M W A) : keeps (svc m).
Proof. intros v. by apply (wlp_svc (λ v', fr v' = fr v)). Qed.
Lemma keeps_nextpid n : keeps (modify (set_nextpid n)).
Proof.
  intros v. apply wlp_modify. intros s [Hok <-]. by exists (v_setnext n (view s)).
Qed.
Lemma keeps_first b : keeps (modify (set_first b)).
Proof. intros v. apply wlp_modify. intros s [Hok <-]. by exists (view s). Qed.
Lemma keeps_foreach {A} (l : list A) f : (∀ x, keeps (f x)) → keeps (foreach l f).
Proof.
  intros Hf. induction l as [|x l IH]; simpl; [apply keeps_ret|]. by apply keeps_bind.
Qed.

End keeps.

Create HintDb keeps discriminated.
#[export] Hint Constants Opaque : keeps.
#[export] Hint Resolve keeps_ret keeps_get keeps_panic keeps_undef keeps_panic_if keeps_deref keeps_pget
  keeps_pupd keeps_acquire keeps_release keeps_curproc keeps_wakeup keeps_wakeup1 keeps_sched
  keeps_sched_resume keeps_switchuvm keeps_cprintf keeps_svc keeps_nextpid keeps_first : keeps.

Ltac keeps :=
  repeat first
    [ solve [auto with keeps]
    | by apply keeps_sleep
    | apply keeps_bind; [|intros ?]
    | apply keeps_foreach; intros ?
    | progress case_match ].

Section keeps_ops.
Context {W : Type} {SV : ProcServices W}.
Local Notation keeps := (keeps (W := W)).

Lemma keeps_allocproc : keeps allocproc.
Proof. unfold allocproc. keeps. Qed.
Lemma keeps_fork_dup cur np fd : keeps (fork_dup cur np fd).
Proof. unfold fork_dup. keeps. Qed.
Hint Resolve keeps_allocproc keeps_fork_dup : keeps.
Lemma keeps_fork : keeps fork.
Proof. unfold fork, fork_copy. keeps. Qed.
Lemma keeps_exit : keeps exit.
Proof. unfold exit, exit_files, exit_close, exit_reparent. keeps. Qed.
Lemma keeps_wait_scan cur l b : keeps (wait_scan cur l b).
Proof. revert b. induction l as [|i l IH]; intros b; simpl; keeps. Qed.
Hint Resolve keeps_wait_scan : keeps.
Lemma keeps_wait_round cur : keeps (wait_round cur).
Proof. unfold wait_round. keeps. Qed.
Hint Resolve keeps_wait_round : keeps.
Lemma keeps_wait : keeps wait.
Proof. unfold wait. keeps. Qed.
End keeps_ops.

(** * The first process *)

(** The globals of proc.c before [userinit]. *)
Definition boot_table : list proc := replicate NPROC proc_zero.
Definition booting {W} (s : pstate W) : Prop :=
  mach_ok (mach s) ∧ procs s = boot_table ∧ nextpid s = 1 ∧
  ∀ k i, (cproc <$> cpus (mach s)) !! k ≠ Some (Some i).

Section boot.
Context {W : Type} {SV : ProcServices W}.
Implicit Types v : pview.
Local Notation wlp := (wlp (S := pstate W) (V := pview)).

(** Slot 0 holds [p], the others are still zero. *)
Definition first_slot (ini : option nat) (rs : list (option nat)) (m : nat) (p : proc) : pview :=
  PView (p :: replicate 63 proc_zero) 2 ini rs m.

Lemma first_slot_upd ini rs m p f :
  v_upd 0 f (first_slot ini rs m p) = first_slot ini rs m (f p).
Proof. done. Qed.

Lemma first_slot_wake ini rs m p c :
  p_state p = EMBRYO → v_wake c (first_slot ini rs m p) = first_slot ini rs m p.
Proof.
  intros Hp. unfold v_wake, v_set, first_slot. simpl.
  by destruct (wake1_fields c p) as [->|[? _]]; [|congruence].
Qed.

Lemma wlp_svc_first {A} (c : M W A) ini rs m p (Q : A → pview → Prop) B :
  p_state p = EMBRYO → (∀ k i, rs !! k ≠ Some (Some i)) →
  (∀ a, Q a (first_slot ini rs m p)) → wlp (svc c) Q B (first_slot ini rs m p).
Proof.
  intros Hp Hrs HQ. apply (wlp_svc (λ v, v = first_slot ini rs m p)); [| |done|by intros a ? ->].
  - intros ch ? ->. by apply first_slot_wake.
  - intros ch cur ? -> Hc. by destruct (Hrs m cur).
Qed.

Lemma wlp_pupd_first f ini rs m p (Q : unit → pview → Prop) B :
  Q tt (first_slot ini rs m (f p)) → wlp (pupd 0 f) Q B (first_slot ini rs m p).
Proof. intros H. apply wlp_pupd. intros _ _. exact H. Qed.

(** [allocproc] on the empty table. *)
Definition first_embryo (k : Z) : proc :=
  set_kstack k (set_counter 0 (set_prio 5 (set_pid 1 (set_state EMBRYO proc_zero)))).

Lemma wlp_allocproc_first rs m ini (Q : option nat → pview → Prop) B :
  (∀ k i, rs !! k ≠ Some (Some i)) →
  (∀ v, Q None v) →
  (∀ k a b, k ≠ 0 → Q (Some 0%nat) (first_slot ini rs m
     (set_frames a CodeTrapret (Context 0 0 0 0 CodeForkret) b (first_embryo k)))) →
  wlp allocproc Q B (PView boot_table 1 ini rs m).
Proof.
  intros Hrs HN HQ. unfold allocproc. apply wlp_bind, wlp_pt_acquire, wlp_bind, wlp_get.
  intros s [_ Hs]. injection Hs as Hps Hnx _ _ _. rewrite Hps, Hnx.
  change (list_find _ boot_table) with (Some (0%nat, proc_zero)).
  apply wlp_bind, wlp_pupd. intros _ _. apply wlp_bind, wlp_pupd. intros _ _.
  apply wlp_bind, wlp_modify. intros s1 [Hok1 Hs1].
  exists (first_slot ini rs m (set_pid 1 (set_state EMBRYO proc_zero))). split.
  { split; [done|]. unfold view in *. simpl. injection Hs1 as -> _ -> -> ->. done. }
  do 2 apply wlp_bind, wlp_pupd_first. apply wlp_bind, wlp_pt_release.
  apply wlp_bind, wlp_svc_first; [done|done|]. intros k.
  apply wlp_bind, wlp_pupd_first. case_bool_decide as Hk.
  - apply wlp_bind, wlp_pupd_first, wlp_ret, HN.
  - apply wlp_bind, wlp_pupd_first, wlp_ret, HQ, Hk.
Qed.

(** The table with one process, ready to run. *)
Lemma tinv_first rs m p :
  (∀ k i, rs !! k ≠ Some (Some i)) → slot_ok 2 p → p_state p = RUNNABLE → p_parent p = None →
  tinv None (first_slot (Some 0%nat) rs m p).
Proof.
  intros Hrs Hok Hst Hpar.
  assert (∀ i q, v_procs (first_slot (Some 0%nat) rs m p) !! i = Some q →
    i = 0%nat ∧ q = p ∨ q = proc_zero) as Hlook.
  { intros [|i] q Hq; [left; by simplify_eq/=|right].
    by apply lookup_replicate in Hq as [-> _]. }
  split; simpl.
  - done.
  - lia.
  - intros i q [[-> ->]| ->]%Hlook; [done|]. by split.
  - intros i j q r [[-> ->]| ->]%Hlook [[-> ->]| ->]%Hlook; done.
  - intros i q j [[-> ->]| ->]%Hlook; [congruence|done].
  - exists 0%nat, p. by rewrite Hst.
  - intros k i Hk. by destruct (Hrs k i).
  - intros k k' i Hk. by destruct (Hrs k i).
  - intros i q [[-> ->]| ->]%Hlook; [congruence|done].
Qed.

(** If [userinit] returns, the invariant holds and slot 0 is runnable. *)
Lemma wlp_userinit rs m ini B :
  (∀ k i, rs !! k ≠ Some (Some i)) →
  wlp userinit (λ _ v, tinv None v ∧ v_runs v = rs) B (PView boot_table 1 ini rs m).
Proof.
  intros Hrs. unfold userinit. apply wlp_bind, wlp_allocproc_first; [done| |].
  { intros v. apply wlp_bind, wlp_modify. intros s [Hok Hs].
    exists (PView (v_procs v) (v_next v) None (v_runs v) (v_me v)).
    split; [split; [done|by rewrite <- Hs]|]. by apply wlp_bind, wlp_deref. }
  intros k a b Hk. apply wlp_bind, wlp_modify. intros s [Hok Hs].
  exists (first_slot (Some 0%nat) rs m
     (set_frames a CodeTrapret (Context 0 0 0 0 CodeForkret) b (first_embryo k))). split.
  { split; [done|]. unfold view in *. simpl. by injection Hs as -> -> _ -> ->. }
  apply wlp_bind, wlp_deref. intros i [= <-].
  apply wlp_bind, wlp_svc_first; [done|done|]. intros pg.
  apply wlp_bind, wlp_pupd_first, wlp_bind, wlp_panic_if. intros Hpg%bool_decide_eq_false.
  apply wlp_bind, wlp_svc_first; [done|done|]. intros _.
  do 2 apply wlp_bind, wlp_pupd_first. apply wlp_bind, wlp_pget. intros p [= <-].
  apply wlp_bind, wlp_pupd_first, wlp_bind, wlp_svc_first; [done|done|]. intros cwd.
  apply wlp_bind, wlp_pupd_first, wlp_bind, wlp_pt_acquire, wlp_bind, wlp_pupd_first, wlp_pt_release.
  split; [|done]. apply tinv_first; try done.
Qed.
End boot.

(** * Histories *)

(** The calls a running process (or an interrupt handler on its CPU) makes
    into proc.c. *)
Inductive pcall : Type :=
| KFork | KExit | KWait | KKill (pid : Z) | KSetPriority (pid n : Z) | KGetPriority (pid : Z)
| KPs | KProcdump (mem : Z → Z) | KGrowproc (n : Z) | KYield | KSleep (c : option chan)
| KWakeup (c : option chan).

(** How a process that was switched to continues. *)
Inductive resumption : Type :=
| RForkret | RYield (ie : bool) | RSleep (ie : bool) | RWait (ie : bool).

(** What a CPU is doing: its scheduler loop, the code after [swtch] into a
    process, or that process. *)
Inductive phase : Type := PSched (pc : spc) | PResume (h : nat) | PProc (h : nat).

Section system.
Context {W : Type} {SV : ProcServices W}.
Implicit Types s : pstate W.
Local Notation wlp := (wlp (S := pstate W) (V := pview)).

(** The lock of [sleep]'s caller belongs to another component. *)
Definition other_lock : lockref := LkOther (W := W) (mret tt) (mret tt).

Definition pcall_run (c : pcall) : M (pstate W) unit :=
  match c with
  | KFork => fork;; mret tt
  | KExit => exit
  | KWait => wait;; mret tt
  | KKill pid => kill pid;; mret tt
  | KSetPriority pid n => set_priority pid n;; mret tt
  | KGetPriority pid => get_priority pid;; mret tt
  | KPs => ps;; mret tt
  | KProcdump mem => procdump mem
  | KGrowproc n => growproc n;; mret tt
  | KYield => yield
  | KSleep c => sleep c other_lock
  | KWakeup c => wakeup c
  end.

Definition resume_run (h : nat) (r : resumption) : M (pstate W) unit :=
  match r with
  | RForkret => forkret
  | RYield ie => yield_resume ie
  | RSleep ie => sleep_resume h ie other_lock
  | RWait ie => sleep_resume h ie LkPtable;; wait_round h;; mret tt
  end.

(** The code that runs next is CPU [k]'s. *)
Definition on_cpu (k : nat) s : pstate W := set_mach (Machine (cpus (mach s)) k) s.

Definition sched_phase (pc : spc) : phase :=
  match pc with SRun h => PResume h | _ => PSched pc end.

Definition sys : Type := list phase * pstate W.

(** The code after [swtch] back into the scheduler, which runs before the
    lock is released. *)
Definition switched (step : spc → M (pstate W) spc) (m : M (pstate W) unit) (h : nat)
    s s' (pc : spc) : Prop :=
  ∃ s1 t1 t2, m s = Blocked CSched s1 t1 ∧ step (SRun h) s1 = Ret pc s' t2.

Inductive sys_step (step : spc → M (pstate W) spc) : sys → sys → Prop :=
| ss_sched k pc pc' ph s s' t :
    ph !! k = Some (PSched pc) → step pc (on_cpu k s) = Ret pc' s' t →
    sys_step step (ph, s) (<[k := sched_phase pc']> ph, s')
| ss_call k h c ph s s' t :
    ph !! k = Some (PProc h) → (c = KFork → nextpid s < 2147483647) →
    pcall_run c (on_cpu k s) = Ret tt s' t →
    sys_step step (ph, s) (ph, s')
| ss_switch k h c ph s s' pc :
    ph !! k = Some (PProc h) → (c = KFork → nextpid s < 2147483647) →
    switched step (pcall_run c) h (on_cpu k s) s' pc →
    sys_step step (ph, s) (<[k := PSched pc]> ph, s')
| ss_resume k h r ph s s' t :
    ph !! k = Some (PResume h) → resume_run h r (on_cpu k s) = Ret tt s' t →
    sys_step step (ph, s) (<[k := PProc h]> ph, s')
| ss_resume_switch k h r ph s s' pc :
    ph !! k = Some (PResume h) → switched step (resume_run h r) h (on_cpu k s) s' pc →
    sys_step step (ph, s) (<[k := PSched pc]> ph, s').

(** The machine starts its schedulers after [userinit]. *)
Inductive sys_reach (step : spc → M (pstate W) spc) : sys → Prop :=
| sr_boot s0 s t :
    booting s0 → userinit s0 = Ret tt s t →
    sys_reach step (replicate (length (cpus (mach s))) (PSched STop), s)
| sr_step x y : sys_reach step x → sys_step step x y → sys_reach step y.

(** The phases agree with [cpu->proc]. *)
Definition phase_proc (p : phase) : option nat :=
  match p with PSched _ => None | PResume h | PProc h => Some h end.
Definition phase_ok (p : phase) : Prop := ∀ h, p ≠ PSched (SRun h).

Definition sys_inv (x : sys) : Prop :=
  mach_ok (mach x.2) ∧
  tinv None (view x.2) ∧
  cproc <$> cpus (mach x.2) = phase_proc <$> x.1 ∧
  Forall phase_ok x.1.

Lemma wlp_and {A} (m : M (pstate W) A) Q Q' B B' v :
  wlp m Q B v → wlp m Q' B' v → wlp m (λ a v, Q a v ∧ Q' a v) (λ v, B v ∧ B' v) v.
Proof.
  intros H1 H2 s Hs. specialize (H1 s Hs). specialize (H2 s Hs).
  destruct (m s) as [a s1 t| |c s1 t| |]; try done.
  - destruct H1 as (v1 & [Hok <-] & H1), H2 as (? & [_ <-] & H2). by exists (view s1).
  - destruct c; try done.
    destruct H1 as (v1 & [Hok <-] & H1), H2 as (? & [_ <-] & H2). by exists (view s1).
Qed.

Lemma wlp_discard {A} (m : M (pstate W) A) (P : pview → Prop) B v :
  wlp m (λ _, P) B v → wlp (m;; mret tt) (λ _, P) B v.
Proof.
  intros H. apply wlp_bind. eapply wlp_mono; [exact H| |done]. intros a v' Hv'. by apply wlp_ret.
Qed.

Lemma other_lock_ok : lockref_ok other_lock.
Proof. intros v Q B H. split; by apply wlp_ret. Qed.

Lemma wlp_False {A} (m : M (pstate W) A) P B v :
  wlp m (λ _ _, False) B v → wlp m P B v.
Proof. intros H. by eapply wlp_mono; [exact H| |]. Qed.

(** The invariant through one call, whatever the services do. *)
Lemma wlp_pcall c v :
  tinv None v → (c = KFork → v_next v < 2147483647) →
  wlp (pcall_run c) (λ _, tinv None) switching v.
Proof.
  intros Hv Hn. destruct c; simpl.
  - apply wlp_discard, wlp_fork; auto.
  - by apply wlp_False, wlp_exit.
  - by apply wlp_discard, wlp_wait.
  - by apply wlp_discard, wlp_kill.
  - by apply wlp_discard, wlp_set_priority.
  - by apply wlp_discard, wlp_get_priority.
  - by apply wlp_discard, wlp_ps.
  - by apply wlp_procdump.
  - by apply wlp_discard, wlp_growproc.
  - by apply wlp_False, wlp_yield.
  - by apply wlp_False, wlp_sleep_inv; [apply other_lock_ok|].
  - by apply wlp_wakeup_inv.
Qed.

Lemma wlp_resume h r v :
  tcur h v → wlp (resume_run h r) (λ _, tinv None) switching v.
Proof.
  intros Hv. destruct r; simpl.
  - by apply wlp_forkret, Hv.
  - by apply wlp_yield_resume, Hv.
  - eapply wlp_mono; [apply wlp_sleep_resume; [apply other_lock_ok|done]|by intros ? ? [? _]|].
    intros v' H. exact H.
  - apply wlp_bind. eapply wlp_mono; [by apply wlp_sleep_resume| |].
    + intros [] v' Hv'. apply wlp_discard. by apply wlp_wait_round.
    + intros v' H. exact H.
Qed.

Lemma keeps_pcall c : keeps (pcall_run c).
Proof.
  destruct c; simpl; try (apply keeps_bind; [|intros ?; apply keeps_ret]).
  - apply keeps_fork.
  - apply keeps_exit.
  - apply keeps_wait.
  - unfold kill. keeps.
  - unfold set_priority. keeps.
  - unfold get_priority. keeps.
  - unfold ps. keeps.
  - unfold procdump. keeps.
  - unfold growproc. keeps.
  - unfold yield. keeps.
  - apply keeps_sleep, other_lock_ok.
  - apply keeps_wakeup.
Qed.

Lemma keeps_resume h r : keeps (resume_run h r).
Proof.
  assert (∀ ie, keeps (sleep_resume h ie other_lock)) as Hs.
  { intros ie. unfold sleep_resume, other_lock. keeps. }
  destruct r as [| | |ie]; cbn [resume_run].
  - unfold forkret. keeps.
  - unfold yield_resume. keeps.
  - apply Hs.
  - apply keeps_bind; [unfold sleep_resume; keeps|intros ?]. 
    apply keeps_bind; [apply keeps_wait_round|intros ?; apply keeps_ret].
Qed.
(** The invariant does not depend on which CPU executes. *)
Lemma tinv_me v k :
  tinv None v → tinv None (PView (v_procs v) (v_next v) (v_init v) (v_runs v) k).
Proof. by intros []. Qed.

Definition kernel_scheduler (step : spc → M (pstate W) spc) : Prop :=
  step = scheduler_step ∨ step = scheduler_step_3.

Lemma wlp_step step pc v :
  kernel_scheduler step → sched_pre pc v → wlp (step pc) sched_post (λ _, False) v.
Proof.
  intros Hstep Hpre. destruct Hstep as [->| ->]; (apply wlp_scheduler_step; [|done]); auto.
Qed.

(** A scheduler's step changes [cpu->proc] of its own CPU only. *)
Lemma wlp_step_runs step pc v :
  kernel_scheduler step → sched_pre pc v →
  wlp (step pc) (λ pc' v', v_me v' = v_me v ∧
      v_runs v' = <[v_me v := phase_proc (sched_phase pc')]> (v_runs v) ∧
      ∀ h, pc = SRun h → pc' = SScan (S h)) (λ _, False) v.
Proof.
  intros Hstep Hpre. enough (∀ after, keeps after → wlp (scheduler_step_with after pc)
    (λ pc' v', v_me v' = v_me v ∧
      v_runs v' = <[v_me v := phase_proc (sched_phase pc')]> (v_runs v) ∧
      ∀ h, pc = SRun h → pc' = SScan (S h)) (λ _, True) v) as H.
  { assert (keeps (W := W) age_all) as Ha.
    { intros u. apply wlp_modify. intros s [Hok <-].
      by exists (v_set (age1 <$> v_procs (view s)) (view s)). }
    intros s Hs. destruct Hstep as [->| ->].
    - specialize (H _ (keeps_ret tt) s Hs).
      pose proof (wlp_scheduler_step (mret tt) pc (λ _, False) v (or_introl eq_refl) Hpre s Hs) as H'.
      unfold scheduler_step. destruct (scheduler_step_with _ _ s) as [| |[]| |]; done.
    - specialize (H _ Ha s Hs).
      pose proof (wlp_scheduler_step age_all pc (λ _, False) v (or_intror eq_refl) Hpre s Hs) as H'.
      unfold scheduler_step_3. destruct (scheduler_step_with _ _ s) as [| |[]| |]; done. }
  intros after Hafter. destruct pc as [|p|h]; simpl in Hpre |- *.
  - destruct Hpre as [_ Hi]. apply wlp_bind, wlp_on_mach, wlp_upd_me; [done|]. split; [done|].
    apply wlp_bind, wlp_pt_acquire, wlp_ret. split_and!; [done| |done]. simpl.
    by rewrite list_insert_id.
  - destruct Hpre as [_ Hi]. case_bool_decide.
    2: { apply wlp_bind, wlp_pt_release, wlp_ret. split_and!; [done| |done]. simpl.
         by rewrite list_insert_id. }
    apply wlp_bind, wlp_pget. intros q _. case_bool_decide.
    { apply wlp_ret. split_and!; [done| |done]. simpl. by rewrite list_insert_id. }
    apply wlp_bind, wlp_get. intros s _. apply wlp_bind, wlp_set_cpu_proc, wlp_bind, wlp_switchuvm.
    apply wlp_bind, wlp_pupd. intros _ _. by apply wlp_ret.
  - unfold switchkvm. apply wlp_bind, wlp_bind, wlp_get; intros s _.
    apply wlp_on_mach, wlp_upd_me; [done|]. split; [done|]. apply wlp_bind.
    eapply wlp_mono; [apply Hafter| |done]. intros [] v1 Hfr. apply wlp_bind, wlp_set_cpu_proc, wlp_ret.
    simpl. assert (v_runs v1 = v_runs v ∧ v_me v1 = v_me v) as [-> ->]
      by (unfold fr in Hfr; split; congruence).
    split_and!; [done|done|]. by intros ? [= ->].
Qed.

(** One step of CPU [k] seen as a change of the whole machine. *)
Definition moved (k : nat) (o : option nat) (v : pview) s' : Prop :=
  mach_ok (mach s') ∧ tinv None (view s') ∧ v_runs (view s') = <[k := o]> (v_runs v).

Lemma moved_step step pc pc' v s s' t :
  kernel_scheduler step → viewed s v → sched_pre pc v → step pc s = Ret pc' s' t →
  moved (v_me v) (phase_proc (sched_phase pc')) v s' ∧ ∀ h, pc = SRun h → pc' = SScan (S h).
Proof.
  intros Hstep Hs Hpre Hr.
  pose proof (wlp_and _ _ _ _ _ _ (wlp_step step pc v Hstep Hpre)
    (wlp_step_runs step pc v Hstep Hpre) s Hs) as H.
  rewrite Hr in H. destruct H as (v' & [Hok <-] & Hpost & Hme & Hruns & Hsr).
  split; [|done]. split_and!; [done| |done].
  destruct pc'; simpl in Hpost; apply Hpost.
Qed.

(** A process that gives up the CPU leaves an idle, consistent machine. *)
Lemma moved_switched step m h v s s' pc :
  kernel_scheduler step → viewed s v → v_curr v h →
  wlp m (λ _, tinv None) switching v → keeps m →
  switched step m h s s' pc →
  moved (v_me v) None v s' ∧ pc = SScan (S h).
Proof.
  intros Hstep Hs Hc Hm Hk (s1 & t1 & t2 & Hb & Hr).
  pose proof (wlp_and _ _ _ _ _ _ Hm (Hk v) s Hs) as H. rewrite Hb in H.
  destruct H as (v1 & Hv1 & Hsw & Hfr).
  assert (v_runs v1 = v_runs v ∧ v_me v1 = v_me v) as [Hruns Hme]
    by (unfold fr in Hfr; split; congruence).
  assert (v_curr v1 h) as Hc1 by (unfold v_curr; by rewrite Hruns, Hme).
  destruct (moved_step step (SRun h) pc v1 s1 s' t2) as [(Hok & Ht & Hr') Hpc]; try done.
  rewrite (Hpc h eq_refl) in Hr' |- *. split; [|done]. split_and!; [done..|].
  by rewrite Hr', Hruns, Hme.
Qed.

Lemma moved_ret (m : M (pstate W) unit) (h : nat) v s a s' t :
  viewed s v → v_curr v h → wlp m (λ _, tinv None) switching v → keeps m →
  m s = Ret a s' t → moved (v_me v) (Some h) v s'.
Proof.
  intros Hs Hc Hm Hk Hr. pose proof (wlp_and _ _ _ _ _ _ Hm (Hk v) s Hs) as H. rewrite Hr in H.
  destruct H as (v1 & [Hok <-] & Ht & Hfr). split_and!; [done..|].
  rewrite list_insert_id by done. unfold fr in Hfr. congruence.
Qed.

(** The view of CPU [k]. *)
Lemma sys_inv_cpu ph s k p :
  sys_inv (ph, s) → ph !! k = Some p →
  ∃ v, viewed (on_cpu k s) v ∧ v_me v = k ∧ tinv None v ∧ v_next v = nextpid s ∧
    v_runs v = phase_proc <$> ph ∧ v_runs v !! k = Some (phase_proc p) ∧ phase_ok p.
Proof.
  intros (Hok & Ht & Hph & Hall) Hk. simpl in *.
  exists (PView (procs s) (nextpid s) (initproc s) (cproc <$> cpus (mach s)) k).
  split_and!; try done.
  - split; [|done]. split; [apply Hok|]. simpl.
    rewrite <- (length_fmap cproc), Hph, length_fmap. by eapply lookup_lt_Some.
  - by apply (tinv_me _ k Ht).
  - simpl. by rewrite Hph, list_lookup_fmap, Hk.
  - by eapply Forall_lookup_1.
Qed.

Lemma sys_inv_moved ph v k o p s' :
  moved k o v s' → v_runs v = phase_proc <$> ph → Forall phase_ok ph →
  phase_proc p = o → phase_ok p → sys_inv (<[k := p]> ph, s').
Proof.
  intros (Hok & Ht & Hr) Hv Hall <- Hp. split_and!; simpl; try done.
  - change (v_runs (view s') = phase_proc <$> <[k:=p]> ph). by rewrite Hr, Hv, list_fmap_insert.
  - by apply Forall_insert.
Qed.

Lemma sys_inv_step step x y : kernel_scheduler step → sys_inv x → sys_step step x y → sys_inv y.
Proof.
  intros Hstep Hinv Hs. pose proof Hinv as (_ & _ & _ & Hall).
  destruct Hs as [k pc pc' ph s s' t Hk Hr|k h c ph s s' t Hk Hn Hr|k h c ph s s' pc Hk Hn Hr
    |k h r ph s s' t Hk Hr|k h r ph s s' pc Hk Hr];
    destruct (sys_inv_cpu ph s k _ Hinv Hk) as (v & Hv & Hme & Ht & Hnx & Hruns & Hcur & Hpok);
    simpl in Hall, Hcur; try rewrite <- Hnx in Hn.
  - destruct (moved_step step pc pc' v (on_cpu k s) s' t) as [Hmv Hsr]; try done.
    { destruct pc as [| |h]; [| |by destruct (Hpok h)]; by split; [|rewrite <- Hme in Hcur]. }
    rewrite Hme in Hmv. eapply sys_inv_moved; try done. by destruct pc'.
  - rewrite <- (list_insert_id ph k (PProc h)) by done.
    eapply (sys_inv_moved ph v k (Some h)); try done. rewrite <- Hme at 1.
    rewrite <- Hme in Hcur. eapply moved_ret; try done; [by apply wlp_pcall|apply keeps_pcall].
  - rewrite <- Hme in Hcur. destruct (moved_switched step (pcall_run c) h v (on_cpu k s) s' pc)
      as [Hmv ->]; try done; [by apply wlp_pcall|apply keeps_pcall|].
    rewrite Hme in Hmv. by eapply sys_inv_moved.
  - eapply (sys_inv_moved ph v k (Some h)); try done. rewrite <- Hme at 1.
    rewrite <- Hme in Hcur. eapply moved_ret; try done; [by apply wlp_resume|apply keeps_resume].
  - rewrite <- Hme in Hcur. destruct (moved_switched step (resume_run h r) h v (on_cpu k s) s' pc)
      as [Hmv ->]; try done; [by apply wlp_resume|apply keeps_resume|].
    rewrite Hme in Hmv. by eapply sys_inv_moved.
Qed.

Lemma sys_inv_boot s0 s t :
  booting s0 → userinit s0 = Ret tt s t →
  sys_inv (replicate (length (cpus (mach s))) (PSched STop), s).
Proof.
  intros (Hok & Hps & Hnx & Hrs) Hu.
  pose proof (wlp_userinit (cproc <$> cpus (mach s0)) (me (mach s0)) (initproc s0)
    (λ _, False) Hrs s0) as H.
  rewrite Hu in H. destruct H as (v & [Hok' <-] & Ht & Hruns).
  { split; [done|]. unfold view. by rewrite Hps, Hnx. }
  split_and!; simpl; try done.
  - apply list_eq. intros k. rewrite (list_lookup_fmap phase_proc).
    change (cproc <$> cpus (mach s)) with (v_runs (view s)).
    assert (length (v_runs (view s)) = length (cpus (mach s))) as Hlen by (simpl; by rewrite length_fmap).
    destruct (v_runs (view s) !! k) as [o|] eqn:Hk.
    + rewrite lookup_replicate_2 by (rewrite <- Hlen; by eapply lookup_lt_Some). simpl.
      rewrite Hruns in Hk. destruct o as [i|]; [by destruct (Hrs k i)|done].
    + rewrite (proj2 (lookup_ge_None _ _)); [done|].
      rewrite length_replicate, <- Hlen. by apply lookup_ge_None.
  - apply Forall_replicate. by intros h.
Qed.

End system.

(** * A machine that boots *)

Definition boot_cpu (id : Z) : cpu := Cpu id 1 0 false None false 0 0.
Definition boot_state : pstate unit :=
  PState (Machine [boot_cpu 0; boot_cpu 1] 0) (Spinlock false None) boot_table 1 None true 4096 tt.
Definition booted : pstate unit :=
  match userinit (SV := no_services) boot_state with Ret _ s _ => s | _ => boot_state end.

Lemma boot_state_booting : booting boot_state.
Proof.
  split_and!; [split| | |].
  - apply NoDup_cons_2; [|apply NoDup_singleton]. set_solver.
  - simpl. lia.
  - reflexivity.
  - reflexivity.
  - intros [|[|k]] i H; simpl in H; simplify_eq.
Qed.

