(* ===== verification/ProcSpec.v ===== *)
(** What the operations of proc.c do, exactly: [fork], [exit], [wait],
    [kill], [wakeup], [set_priority], [get_priority], on every branch.

    The runs are stated on explicit states; the services called are
    characterised by hypotheses on their results. *)
From S2P Require Import Prelude Layout Spinlock Format ProcTable.

(** * Runs on explicit states *)

(** What [acquire] then [release] leaves of the machine. *)
Definition relock (m : machine) : machine :=
  upd_cpu popped (me m) (upd_cpu pushed (me m) m).

(** A machine whose executing CPU is not counting below zero. *)
Definition mach_free (m : machine) : Prop :=
  mach_ok m ∧ ∃ c, cpus m !! me m = Some c ∧ 0 ≤ ncli c.
(** The process on the executing CPU. *)
Definition mach_runs (m : machine) (cur : nat) : Prop :=
  ∃ c, cpus m !! me m = Some c ∧ cproc c = Some cur.
Definition free_lock : spinlock := Spinlock false None.

Lemma mach_free_upd f m :
  (∀ c, apicid (f c) = apicid c ∧ (0 ≤ ncli c → 0 ≤ ncli (f c))) →
  mach_free m → mach_free (upd_cpu f (me m) m).
Proof.
  intros Hf (Hok & c & Hc & Hn). split; [apply mach_ok_upd; [|done]; intros; apply Hf|].
  exists (f c). split; [exact (lookup_upd_me _ _ _ Hc)|by apply Hf].
Qed.

Lemma mach_runs_upd f m cur :
  (∀ c, cproc (f c) = cproc c) → mach_runs m cur → mach_runs (upd_cpu f (me m) m) cur.
Proof.
  intros Hf (c & Hc & Hp). exists (f c). split; [exact (lookup_upd_me _ _ _ Hc)|by rewrite Hf].
Qed.

Lemma relock_one m : relock m = upd_cpu (popped ∘ pushed) (me m) m.
Proof. unfold relock. apply upd_upd. Qed.

Lemma mach_free_relock m : mach_free m → mach_free (relock m).
Proof.
  rewrite relock_one. apply mach_free_upd. intros c. split; [done|]. simpl. lia.
Qed.

Lemma mach_runs_relock m cur : mach_runs m cur → mach_runs (relock m) cur.
Proof. rewrite relock_one. by apply mach_runs_upd. Qed.

#[export] Hint Resolve mach_free_relock mach_runs_relock : kernel.

#[local] Opaque relock upd_cpu.

Section runs.
Context {W : Type} {SV : ProcServices W}.
Implicit Types (m : machine) (L : list proc) (w : W).

Definition held_by m : spinlock := Spinlock true (Some (me m)).

Lemma run_acquire m L n ini b kp w :
  mach_free m →
  pt_acquire (PState m free_lock L n ini b kp w)
  = Ret tt (PState (upd_cpu pushed (me m) m) (held_by m) L n ini b kp w) [].
Proof.
  intros (Hok & c & Hc & Hn). apply pt_acquire_run. split; [done|]. by exists c.
Qed.

Lemma run_release m L n ini b kp w :
  mach_free m →
  pt_release (PState (upd_cpu pushed (me m) m) (held_by m) L n ini b kp w)
  = Ret tt (PState (relock m) free_lock L n ini b kp w) [].
Proof.
  intros (Hok & c & Hc & Hn). apply pt_release_run. split; [done|]. exists (pushed c). split.
  - split; [by apply mach_ok_upd|exact (lookup_upd_me _ _ _ Hc)].
  - split; [simpl; lia|done].
Qed.

Lemma run_curproc m lk L n ini b kp w cur :
  mach_free m → mach_runs m cur →
  pt_curproc (PState m lk L n ini b kp w) = Ret cur (PState (relock m) lk L n ini b kp w) [].
Proof.
  intros (Hok & c & Hc & Hn) (c' & Hc' & Hcur). simplify_eq. unfold pt_curproc.
  erewrite bind_run by (by apply (pt_myproc_run _ c)). rewrite Hcur, relock_one. done.
Qed.

Lemma run_pget m lk L n ini b kp w i p :
  L !! i = Some p →
  pget i (PState m lk L n ini b kp w) = Ret p (PState m lk L n ini b kp w) [].
Proof. intros H. by apply pget_run. Qed.

(** Updating a slot whose content is known. *)
Lemma run_pupd m lk L n ini b kp w i p f :
  (i < length L)%nat →
  pupd i f (PState m lk (<[i:=p]> L) n ini b kp w)
  = Ret tt (PState m lk (<[i:=f p]> L) n ini b kp w) [].
Proof.
  intros Hi. erewrite pupd_run by (by apply list_lookup_insert_eq). unfold set_procs. simpl.
  do 2 f_equal. apply list_eq. intros j. destruct (decide (j = i)) as [->|Hne].
  - rewrite list_lookup_alter_eq, !list_lookup_insert_eq by done. done.
  - by rewrite list_lookup_alter_ne, !list_lookup_insert_ne.
Qed.

Lemma run_pupd0 m lk L n ini b kp w i p f :
  L !! i = Some p →
  pupd i f (PState m lk L n ini b kp w) = Ret tt (PState m lk (<[i:=f p]> L) n ini b kp w) [].
Proof.
  intros Hi. rewrite <- (list_insert_id L i p Hi) at 1.
  rewrite run_pupd by (by eapply lookup_lt_Some). done.
Qed.

Lemma run_svc {A} (c : M W A) m lk L n ini b kp w a w' :
  c w = Ret a w' [] →
  svc c (PState m lk L n ini b kp w) = Ret a (PState m lk L n ini b kp w') [].
Proof. intros H. unfold svc. simpl. by rewrite H. Qed.
End runs.

(** Execute the next statement with lemma [E]. *)
Tactic Notation "run" uconstr(E) :=
  erewrite bind_run by (eapply E; eauto with kernel); rewrite prepend_nil; cbv beta iota.

(** * Wakeups *)

Lemma run_wakeup {W} m L n ini b kp (w : W) c :
  mach_free m →
  wakeup c (PState m free_lock L n ini b kp w)
  = Ret tt (PState (relock m) free_lock (wake1 c <$> L) n ini b kp w) [].
Proof.
  intros Hm. unfold wakeup. run run_acquire. unfold wakeup1.
  erewrite bind_run by reflexivity. rewrite prepend_nil. unfold set_procs. simpl.
  by apply run_release.
Qed.

(** [wakeup(chan)] makes exactly the processes that sleep on [chan]
    RUNNABLE, and changes nothing else of the table. *)
Theorem wakeup_exact {W} m L n ini b kp (w : W) c :
  mach_free m →
  wakeup c (PState m free_lock L n ini b kp w)
  = Ret tt (PState (relock m) free_lock (wake1 c <$> L) n ini b kp w) [] ∧
  ∀ i p, L !! i = Some p →
    (wake1 c <$> L) !! i = Some
      (if bool_decide (p_state p = SLEEPING ∧ p_chan p = c) then set_state RUNNABLE p else p).
Proof.
  intros Hm. split.
  - by apply run_wakeup.
  - intros i p Hp. rewrite list_lookup_fmap, Hp. simpl. f_equal. unfold wake1.
    by rewrite <- bool_decide_and.
Qed.

(** * Kill and priorities *)

Section by_pid.
Context {W : Type}.
Implicit Types (m : machine) (L : list proc) (w : W).

(** Slot [i] is the first whose pid is [pid]. *)
Definition has_pid L (i : nat) (p : proc) (pid : Z) : Prop :=
  L !! i = Some p ∧ p_pid p = pid ∧ ∀ j q, L !! j = Some q → (j < i)%nat → p_pid q ≠ pid.

Lemma find_has_pid L i p pid :
  has_pid L i p pid → list_find (λ p, p_pid p = pid) L = Some (i, p).
Proof. intros (H1 & H2 & H3). by apply list_find_Some. Qed.

Lemma find_no_pid L pid :
  (∀ i p, L !! i = Some p → p_pid p ≠ pid) → list_find (λ p, p_pid p = pid) L = None.
Proof.
  intros H. apply list_find_None, Forall_lookup_2. intros i p Hp. by eapply H.
Qed.

(** [kill(pid)] marks the process with that pid, wakes it if it sleeps,
    and returns 0; without such a process it returns -1 and changes
    nothing. *)
Theorem kill_spec m L n ini b kp w pid :
  mach_free m →
  (∀ i p, has_pid L i p pid →
     kill pid (PState m free_lock L n ini b kp w)
     = Ret 0 (PState (relock m) free_lock
         (<[i := set_killed 1 (if bool_decide (p_state p = SLEEPING) then set_state RUNNABLE p else p)]> L)
         n ini b kp w) []) ∧
  ((∀ i p, L !! i = Some p → p_pid p ≠ pid) →
     kill pid (PState m free_lock L n ini b kp w)
     = Ret (-1) (PState (relock m) free_lock L n ini b kp w) []).
Proof.
  intros Hm. split.
  - intros i p Hp. pose proof Hp as (Hi & _ & _). unfold kill. run run_acquire.
    erewrite bind_run by reflexivity. rewrite prepend_nil. simpl.
    rewrite (find_has_pid L i p pid Hp).
    assert (i < length L)%nat as Hlt by (by eapply lookup_lt_Some).
    run run_pupd0. case_bool_decide.
    + run run_pupd. run run_release. done.
    + erewrite bind_run by reflexivity. rewrite prepend_nil. run run_release. done.
  - intros Hno. unfold kill. run run_acquire.
    erewrite bind_run by reflexivity. rewrite prepend_nil. simpl.
    rewrite (find_no_pid L pid Hno). run run_release. done.
Qed.
(** a priority outside 1..20 is refused with -1 and nothing changes; a
    priority in the range is stored in the process with that pid and is what
    [get_priority] then returns, with every other slot as it was; for a pid
    of no process [set_priority] still returns 0 and [get_priority] -1. *)
Theorem priority_roundtrip m L n ini b kp w pid np :
  mach_free m →
  let s := PState m free_lock L n ini b kp w in
  (¬ (1 ≤ np ≤ 20) → set_priority pid np s = Ret (-1) s []) ∧
  (1 ≤ np ≤ 20 → ∀ i p, has_pid L i p pid →
     ∃ s', set_priority pid np s = Ret 0 s' [] ∧ procs s' = <[i := set_prio np p]> L ∧
       ∃ s'', get_priority pid s' = Ret np s'' [] ∧ procs s'' = procs s') ∧
  (1 ≤ np ≤ 20 → (∀ i p, L !! i = Some p → p_pid p ≠ pid) →
     ∃ s', set_priority pid np s = Ret 0 s' [] ∧ procs s' = L ∧
       ∃ s'', get_priority pid s' = Ret (-1) s'' [] ∧ procs s'' = L).
Proof.
  intros Hm s. unfold set_priority. split_and!.
  - intros Hr. destruct (bool_decide (np ≤ 0)) eqn:E1; [done|].
    destruct (bool_decide (np > 20)) eqn:E2; [done|].
    apply bool_decide_eq_false in E1, E2. lia.
  - intros Hr i p Hp. rewrite !bool_decide_false by lia. simpl.
    pose proof Hp as (Hi & Hpid & Hfirst).
    assert (i < length L)%nat as Hlt by (by eapply lookup_lt_Some).
    unfold s. run run_acquire. erewrite bind_run by reflexivity. rewrite prepend_nil. simpl.
    rewrite (find_has_pid L i p pid Hp). run run_pupd0. run run_release.
    eexists. split; [reflexivity|]. split; [reflexivity|].
    assert (has_pid (<[i := set_prio np p]> L) i (set_prio np p) pid) as Hp'.
    { split_and!; [by apply list_lookup_insert_eq|done|]. intros j q Hq Hj.
      rewrite list_lookup_insert_ne in Hq by lia. eauto. }
    unfold get_priority. run run_acquire. erewrite bind_run by reflexivity. rewrite prepend_nil.
    simpl. rewrite (find_has_pid _ _ _ _ Hp'). run run_release. eauto.
  - intros Hr Hno. rewrite !bool_decide_false by lia. simpl.
    unfold s. run run_acquire. erewrite bind_run by reflexivity. rewrite prepend_nil. simpl.
    rewrite (find_no_pid L pid Hno). erewrite bind_run by reflexivity. rewrite prepend_nil.
    run run_release. eexists. split; [reflexivity|]. split; [reflexivity|].
    unfold get_priority. run run_acquire. erewrite bind_run by reflexivity. rewrite prepend_nil.
    simpl. rewrite (find_no_pid L pid Hno). run run_release. eauto.
Qed.
End by_pid.

(** * fork *)

Section fork_spec.
Context {W : Type} {SV : ProcServices W}.
Implicit Types (m : machine) (L : list proc) (w : W).

(** The first UNUSED slot. *)
Definition first_unused L (np : nat) (p : proc) : Prop :=
  L !! np = Some p ∧ p_state p = UNUSED ∧
  ∀ j q, L !! j = Some q → (j < np)%nat → p_state q ≠ UNUSED.

Lemma find_first_unused L np p :
  first_unused L np p → list_find (λ p, p_state p = UNUSED) L = Some (np, p).
Proof. intros (H1 & H2 & H3). by apply list_find_Some. Qed.

(** What [allocproc] makes of the slot before it has a kernel stack. *)
Definition embryo (pid : Z) (p : proc) : proc :=
  set_counter 0 (set_prio 5 (set_pid pid (set_state EMBRYO p))).
(** The stack of a new process: room for the trap frame, the return address
    [trapret], and a context that starts in [forkret]. *)
Definition new_stack (k : Z) (p : proc) : proc :=
  set_frames (k + 4020) CodeTrapret (Context 0 0 0 0 CodeForkret) (k + 3996) (set_kstack k p).

Lemma run_allocproc m L n ini b kp w np p k w1 :
  mach_free m → first_unused L np p → sv_kalloc w = Ret k w1 [] →
  allocproc (PState m free_lock L n ini b kp w)
  = if bool_decide (k = 0)
    then Ret None (PState (relock m) free_lock
           (<[np := set_state UNUSED (set_kstack 0 (embryo n p))]> L) (i32 (n + 1)) ini b kp w1) []
    else Ret (Some np) (PState (relock m) free_lock
           (<[np := new_stack k (embryo n p)]> L) (i32 (n + 1)) ini b kp w1) [].
Proof.
  intros Hm Hp Hk. pose proof Hp as (Hi & _ & _).
  assert (np < length L)%nat as Hlt by (by eapply lookup_lt_Some).
  unfold allocproc. run run_acquire. erewrite bind_run by reflexivity. rewrite prepend_nil. simpl.
  rewrite (find_first_unused L np p Hp). run run_pupd0. run run_pupd.
  erewrite bind_run by reflexivity. rewrite prepend_nil. unfold set_nextpid. simpl.
  run run_pupd. run run_pupd. run run_release. run @run_svc. run run_pupd.
  case_bool_decide as Hk0; run run_pupd; [by subst k|]. unfold KSTACKSIZE, sizeof_trapframe, sizeof_context.
  replace (k + 4096 - 76) with (k + 4020) by lia.
  replace (k + 4020 - 4 - 20) with (k + 3996) by lia. done.
Qed.

Lemma run_allocproc_ok m L n ini b kp w np p k w1 :
  mach_free m → first_unused L np p → sv_kalloc w = Ret k w1 [] → k ≠ 0 →
  allocproc (PState m free_lock L n ini b kp w)
  = Ret (Some np) (PState (relock m) free_lock
      (<[np := new_stack k (embryo n p)]> L) (i32 (n + 1)) ini b kp w1) [].
Proof. intros. erewrite run_allocproc by done. by rewrite bool_decide_false. Qed.

Lemma run_allocproc_full m L n ini b kp w :
  mach_free m → (∀ i p, L !! i = Some p → p_state p ≠ UNUSED) →
  allocproc (PState m free_lock L n ini b kp w)
  = Ret None (PState (relock m) free_lock L n ini b kp w) [].
Proof.
  intros Hm Hfull. unfold allocproc. run run_acquire. erewrite bind_run by reflexivity.
  rewrite prepend_nil. simpl.
  rewrite (proj2 (list_find_None _ L)) by (apply Forall_lookup_2; intros i p Hp; by eapply Hfull).
  run run_release. done.
Qed.
(** The descriptors after the loop has passed over [fds]. *)
Definition dup_ofile (src : list (option nat)) (fds : list nat) (dst : list (option nat))
    : list (option nat) :=
  foldl (λ d fd, match src !! fd with Some (Some f) => <[fd := Some f]> d | _ => d end) dst fds.

Lemma dup_ofile_all src : dup_ofile src (seq 0 (length src)) (replicate (length src) None) = src.
Proof.
  assert (∀ k dst, length dst = length src → (k ≤ length src)%nat →
    (∀ fd, (k ≤ fd)%nat → dst !! fd = replicate (length src) None !! fd) →
    (∀ fd, (fd < k)%nat → dst !! fd = src !! fd) →
    dup_ofile src (seq k (length src - k)) dst = src) as H.
  { intros k. remember (length src - k)%nat as d eqn:Hd. revert k Hd.
    induction d as [|d IH]; intros k Hd dst Hlen Hk Hhi Hlo; simpl.
    - apply list_eq. intros fd. destruct (decide (fd < k)%nat); [auto|].
      rewrite !(proj2 (lookup_ge_None _ _)); [done|lia|lia].
    - destruct (lookup_lt_is_Some_2 src k) as [o Ho]; [lia|]. rewrite Ho.
      apply IH; [lia|by destruct o; rewrite ?length_insert|lia| |].
      + intros fd Hfd. rewrite <- Hhi by lia. destruct o; [|done].
        by rewrite list_lookup_insert_ne by lia.
      + intros fd Hfd. destruct (decide (fd = k)) as [->|]; [|destruct o;
          rewrite ?list_lookup_insert_ne by lia; apply Hlo; lia].
        destruct o; [by rewrite list_lookup_insert_eq by lia|].
        rewrite Hhi, lookup_replicate_2 by lia. done. }
  rewrite <- (Nat.sub_0_r (length src)) at 1. apply H; [by rewrite length_replicate|lia|done|lia].
Qed.

Section success.
Context (I : W → Prop) (c : proc) (cur np : nat).
Hypothesis (Hne : cur ≠ np) (Hlen : length (p_ofile c) = NOFILE).
Hypothesis Hdup : ∀ f w', I w' → Some f ∈ p_ofile c → ∃ w'', sv_filedup f w' = Ret f w'' [] ∧ I w''.

Lemma run_fork_dup fds L m lk n ini b kp w q :
  (np < length L)%nat → L !! cur = Some c → I w → Forall (λ fd, (fd < NOFILE)%nat) fds →
  ∃ w', foreach fds (fork_dup cur np) (PState m lk (<[np := q]> L) n ini b kp w)
    = Ret tt (PState m lk (<[np := set_ofile (dup_ofile (p_ofile c) fds (p_ofile q)) q]> L)
                n ini b kp w') [] ∧ I w'.
Proof.
  intros Hnp Hc. revert w q. induction fds as [|fd fds IH]; intros w q Hw Hall.
  { exists w. split; [|done]. simpl. unfold mret, M_ret. do 3 f_equal. by destruct q. }
  apply Forall_cons in Hall as [Hfd Hall]. simpl.
  destruct (lookup_lt_is_Some_2 (p_ofile c) fd) as [o Ho]; [by rewrite Hlen|].
  assert ((<[np:=q]> L) !! cur = Some c) as Hc' by (by rewrite list_lookup_insert_ne).
  destruct o as [f|].
  - destruct (Hdup f w Hw) as (w1 & Hd & Hw1); [by eapply list_elem_of_lookup_2|].
    destruct (IH w1 (set_ofile (<[fd := Some f]> (p_ofile q)) q) Hw1 Hall) as (w2 & E & Hw2).
    exists w2. split; [|done].
    erewrite bind_run. 2: { unfold fork_dup. run run_pget. rewrite Ho. erewrite bind_run by reflexivity.
      rewrite prepend_nil. run @run_svc. by apply run_pupd. }
    rewrite prepend_nil, E. rewrite Ho. done.
  - destruct (IH w q Hw Hall) as (w2 & E & Hw2). exists w2. split; [|done].
    erewrite bind_run. 2: { unfold fork_dup. run run_pget. rewrite Ho.
      erewrite bind_run by reflexivity. reflexivity. }
    rewrite prepend_nil, E. rewrite Ho. done.
Qed.
End success.

(** The child as [fork] leaves it: a copy of the parent that will return 0. *)
Definition fork_child (c p : proc) (cur : nat) (pid k pg : Z) : proc :=
  Proc (p_sz c) pg k RUNNABLE pid (Some cur) (set_eax 0 (p_tf c)) (k + 4020) CodeTrapret
    (Context 0 0 0 0 CodeForkret) (k + 3996) (p_chan p) (p_killed p) (p_ofile c) (p_cwd c)
    (name_copy (p_name p) (p_name c)) 5 0.

(** The run of [fork] when there is a slot and memory. *)
Lemma run_fork (I : W → Prop) m L n ini b kp w cur c np p k pg cwd w1 w2 :
  mach_free m → mach_runs m cur → L !! cur = Some c → p_state c = RUNNING →
  length (p_ofile c) = NOFILE → p_cwd c = Some cwd →
  first_unused L np p → p_ofile p = replicate NOFILE None →
  sv_kalloc w = Ret k w1 [] → k ≠ 0 →
  sv_copyuvm (p_pgdir c) (p_sz c) w1 = Ret pg w2 [] → pg ≠ 0 → I w2 →
  (∀ f w', I w' → Some f ∈ p_ofile c → ∃ w'', sv_filedup f w' = Ret f w'' [] ∧ I w'') →
  (∀ w', I w' → ∃ w'', sv_idup cwd w' = Ret cwd w'' [] ∧ I w'') →
  ∃ m' w', fork (PState m free_lock L n ini b kp w)
    = Ret n (PState m' free_lock (<[np := fork_child c p cur n k pg]> L) (i32 (n + 1)) ini b kp w') []
    ∧ mach_runs m' cur ∧ I w'.
Proof.
  intros Hm Hr Hc Hst Hlen Hcwd Hp Hof Hk Hk0 Hpg Hpg0 Hw Hdup Hidup.
  pose proof Hp as (Hnp & Hun & _). assert (cur ≠ np) as Hne by congruence.
  assert (np < length L)%nat as Hlt by (by eapply lookup_lt_Some).
  assert (∀ q, (<[np:=q]> L) !! cur = Some c) as Hc' by (intros; by rewrite list_lookup_insert_ne).
  unfold fork. run run_curproc. run run_allocproc_ok.
  run run_pget. run @run_svc. run run_pupd. rewrite bool_decide_false by done.
  unfold fork_copy. run run_pget. run run_pupd. run run_pupd. run run_pupd.
  match goal with |- context [<[np := ?q]> L] =>
    destruct (run_fork_dup I c cur np Hne Hlen Hdup (seq 0 NOFILE) L (relock (relock m)) free_lock
      (i32 (n + 1)) ini b kp w2 q Hlt Hc Hw) as (w3 & E & Hw3) end.
  { apply Forall_forall. intros fd. rewrite elem_of_seq. lia. }
  run E. simpl p_ofile. rewrite Hof, <- Hlen, dup_ofile_all.
  run run_pget. rewrite Hcwd. erewrite bind_run by reflexivity. rewrite prepend_nil.
  destruct (Hidup w3 Hw3) as (w4 & Hi & Hw4). run @run_svc. run run_pupd. run run_pupd.
  erewrite bind_run by (apply run_pget; by apply list_lookup_insert_eq). rewrite prepend_nil.
  run run_acquire. run run_pupd. run run_release.
  exists (relock (relock (relock m))), w4. split; [|split; [auto with kernel|done]].
  unfold fork_child. rewrite Hcwd. reflexivity.
Qed.

(** When a slot and memory are available, [fork] returns the new pid and
    the table gains a RUNNABLE child, in the first UNUSED slot, with the
    parent's size, registers (but 0 in eax), open files, directory and name,
    the copied address space and priority 5; nothing else changes. *)
Theorem fork_creates_child (I : W → Prop) m L n ini b kp w cur c np p k pg cwd w1 w2 :
  mach_free m → mach_runs m cur → L !! cur = Some c → p_state c = RUNNING →
  length (p_ofile c) = NOFILE → p_cwd c = Some cwd →
  first_unused L np p → p_ofile p = replicate NOFILE None →
  sv_kalloc w = Ret k w1 [] → k ≠ 0 →
  sv_copyuvm (p_pgdir c) (p_sz c) w1 = Ret pg w2 [] → pg ≠ 0 → I w2 →
  (∀ f w', I w' → Some f ∈ p_ofile c → ∃ w'', sv_filedup f w' = Ret f w'' [] ∧ I w'') →
  (∀ w', I w' → ∃ w'', sv_idup cwd w' = Ret cwd w'' [] ∧ I w'') →
  ∃ m' w', fork (PState m free_lock L n ini b kp w)
    = Ret n (PState m' free_lock (<[np := fork_child c p cur n k pg]> L) (i32 (n + 1)) ini b kp w') []
    ∧ mach_runs m' cur ∧ I w'.
Proof. apply run_fork. Qed.

(** The runs of [fork] that fail. *)
Lemma run_fork_fails m L n ini b kp w cur c :
  mach_free m → mach_runs m cur → L !! cur = Some c → p_state c = RUNNING →
  let s := PState m free_lock L n ini b kp w in
  ((∀ i p, L !! i = Some p → p_state p ≠ UNUSED) →
     ∃ m', fork s = Ret (-1) (PState m' free_lock L n ini b kp w) []) ∧
  (∀ np p w1, first_unused L np p → sv_kalloc w = Ret 0 w1 [] →
     ∃ m' q, fork s = Ret (-1) (PState m' free_lock (<[np := q]> L) (i32 (n + 1)) ini b kp w1) [] ∧
       p_state q = UNUSED ∧ p_kstack q = 0 ∧ p_parent q = p_parent p ∧ p_pid q = n) ∧
  (∀ np p k w1 w2 w3, first_unused L np p → sv_kalloc w = Ret k w1 [] → k ≠ 0 →
     sv_copyuvm (p_pgdir c) (p_sz c) w1 = Ret 0 w2 [] → sv_kfree k w2 = Ret tt w3 [] →
     ∃ m' q, fork s = Ret (-1) (PState m' free_lock (<[np := q]> L) (i32 (n + 1)) ini b kp w3) [] ∧
       p_state q = UNUSED ∧ p_kstack q = 0 ∧ p_parent q = p_parent p ∧ p_pid q = n).
Proof.
  intros Hm Hr Hc Hst s. unfold fork, s. split_and!.
  - intros Hfull. run run_curproc. run @run_allocproc_full. by exists (relock (relock m)).
  - intros np p w1 Hp Hk. run run_curproc.
    erewrite bind_run by (erewrite run_allocproc by eauto with kernel;
      rewrite bool_decide_true by done; reflexivity).
    rewrite prepend_nil. by eexists _, _.
  - intros np p k w1 w2 w3 Hp Hk Hk0 Hcp Hkf. pose proof Hp as (Hnp & Hun & _).
    assert (np < length L)%nat as Hlt by (by eapply lookup_lt_Some).
    assert (∀ q, (<[np:=q]> L) !! cur = Some c) as Hc'
      by (intros; rewrite list_lookup_insert_ne; congruence).
    run run_curproc. run run_allocproc_ok. run run_pget. run @run_svc. run run_pupd.
    rewrite bool_decide_true by done.
    erewrite bind_run by (apply run_pget; by apply list_lookup_insert_eq). rewrite prepend_nil.
    run @run_svc. run run_pupd. run run_pupd. by eexists _, _.
Qed.

(** C7: [fork] returns -1 and no process is created when the table is full,
    when there is no page for the kernel stack, or when the address space
    cannot be copied; in the last case the kernel stack is given back. *)
Theorem fork_fails m L n ini b kp w cur c :
  mach_free m → mach_runs m cur → L !! cur = Some c → p_state c = RUNNING →
  let s := PState m free_lock L n ini b kp w in
  ((∀ i p, L !! i = Some p → p_state p ≠ UNUSED) →
     ∃ m', fork s = Ret (-1) (PState m' free_lock L n ini b kp w) []) ∧
  (∀ np p w1, first_unused L np p → sv_kalloc w = Ret 0 w1 [] →
     ∃ m' q, fork s = Ret (-1) (PState m' free_lock (<[np := q]> L) (i32 (n + 1)) ini b kp w1) [] ∧
       p_state q = UNUSED ∧ p_kstack q = 0 ∧ p_parent q = p_parent p ∧ p_pid q = n) ∧
  (∀ np p k w1 w2 w3, first_unused L np p → sv_kalloc w = Ret k w1 [] → k ≠ 0 →
     sv_copyuvm (p_pgdir c) (p_sz c) w1 = Ret 0 w2 [] → sv_kfree k w2 = Ret tt w3 [] →
     ∃ m' q, fork s = Ret (-1) (PState m' free_lock (<[np := q]> L) (i32 (n + 1)) ini b kp w3) [] ∧
       p_state q = UNUSED ∧ p_kstack q = 0 ∧ p_parent q = p_parent p ∧ p_pid q = n).
Proof. apply run_fork_fails. Qed.
End fork_spec.

(** * Services that wake processes *)

(** The table after the wakeups of a trace. *)
Definition wakes (t : list event) (L : list proc) : list proc :=
  foldl (λ L e, match e with EvWakeup c => wake1 c <$> L | _ => L end) L t.

Lemma wakes_app t1 t2 L : wakes (t1 ++ t2) L = wakes t2 (wakes t1 L).
Proof. unfold wakes. by rewrite foldl_app. Qed.

Lemma wake1_awake c p : p_state p ≠ SLEEPING → wake1 c p = p.
Proof. intros H. unfold wake1. by rewrite bool_decide_false. Qed.

(** A process that is not asleep is not affected by wakeups. *)
Lemma wakes_insert t i p L :
  p_state p ≠ SLEEPING → wakes t (<[i:=p]> L) = <[i:=p]> (wakes t L).
Proof.
  intros Hp. revert L. induction t as [|e t IH]; intros L; [done|]. unfold wakes in *.
  simpl. rewrite <- IH. destruct e; try done. by rewrite list_fmap_insert, wake1_awake.
Qed.

Lemma length_wakes t L : length (wakes t L) = length L.
Proof.
  revert L. induction t as [|e t IH]; intros L; [done|]. unfold wakes in *. simpl.
  rewrite IH. destruct e; by rewrite ?length_fmap.
Qed.

Lemma wakes_lookup t i p L : p_state p ≠ SLEEPING → L !! i = Some p → wakes t L !! i = Some p.
Proof.
  intros Hp Hi. rewrite <- (list_insert_id L i p Hi), wakes_insert by done.
  apply list_lookup_insert_eq. rewrite length_wakes. by eapply lookup_lt_Some.
Qed.

(** The executing CPU runs [cur] outside every critical section. *)
Definition mach_user (m : machine) (cur : nat) : Prop :=
  mach_ok m ∧ ∃ c, cpus m !! me m = Some c ∧ ncli c = 0 ∧ cproc c = Some cur.

Lemma mach_user_free m cur : mach_user m cur → mach_free m ∧ mach_runs m cur.
Proof. intros (Hok & c & Hc & Hn & Hp). split; [split; [done|]|]; exists c; split; auto; lia. Qed.

Lemma mach_user_relock m cur : mach_user m cur → mach_user (relock m) cur.
Proof.
  intros (Hok & c & Hc & Hn & Hp). rewrite relock_one. split; [by apply mach_ok_upd|].
  exists (popped (pushed c)). split; [exact (lookup_upd_me _ _ _ Hc)|]. simpl. split; [lia|done].
Qed.

#[export] Hint Resolve mach_user_relock : kernel.
#[export] Hint Extern 1 (mach_free _) =>
  (match goal with H : mach_user ?m ?cur |- mach_free ?m => exact (proj1 (mach_user_free m cur H)) end)
  : kernel.

Section user_runs.
Context {W : Type} {SV : ProcServices W}.
Implicit Types (m : machine) (L : list proc) (w : W).

Lemma run_deliver t m cur L n ini b kp w :
  mach_user m cur →
  ∃ m', mach_user m' cur ∧
    deliver t (PState m free_lock L n ini b kp w)
    = Ret tt (PState m' free_lock (wakes t L) n ini b kp w) [].
Proof.
  revert m L. induction t as [|e t IH]; intros m L Hm; [by exists m|].
  assert (mach_free m) as Hf by (by eapply mach_user_free).
  destruct e as [c| | |]; unfold deliver; cbn [foreach];
    [|destruct (IH m L Hm) as (m' & Hm' & E); exists m'; (split; [done|]);
      exact (eq_trans (prepend_nil _) E)..].
  destruct (IH (relock m) (wake1 c <$> L)) as (m' & Hm' & E); [auto with kernel|].
  exists m'. split; [done|]. erewrite bind_run by (by apply run_wakeup).
  rewrite prepend_nil. exact E.
Qed.

(** A service call made by the running process. *)
Lemma run_service {A} (c : M W A) m cur L n ini b kp w a w' t :
  mach_user m cur → c w = Ret a w' t →
  ∃ m', mach_user m' cur ∧
    svc c (PState m free_lock L n ini b kp w)
    = Ret a (PState m' free_lock (wakes t L) n ini b kp w') t.
Proof.
  intros Hm Hc. destruct (run_deliver t m cur L n ini b kp w' Hm) as (m' & Hm' & E).
  exists m'. split; [done|]. unfold svc. simpl. rewrite Hc. unfold set_world. simpl.
  erewrite bind_run by exact E. simpl. by rewrite app_nil_r.
Qed.

(** [sched] with [ptable.lock] as the only lock switches away. *)
Lemma run_sched m cur L n ini b kp w p :
  mach_user m cur → L !! cur = Some p → p_state p ≠ RUNNING →
  ∃ m', cproc <$> cpus m' = cproc <$> cpus m ∧ me m' = me m ∧
    sched (PState (upd_cpu pushed (me m) m) (held_by m) L n ini b kp w)
    = Blocked CSched (PState m' (held_by m) L n ini b kp w) [].
Proof.
  intros (Hok & c & Hc & Hn & Hp) HL Hst.
  set (m1 := upd_cpu pushed (me m) m).
  assert (mach_ok m1) as Hok1 by (by apply mach_ok_upd).
  assert (cpus m1 !! me m1 = Some (pushed c)) as Hc1 by exact (lookup_upd_me _ _ _ Hc).
  assert (mach_ok (relock m1)) as Hok2 by (rewrite relock_one; by apply mach_ok_upd).
  assert (cpus (relock m1) !! me (relock m1) = Some (popped (pushed (pushed c)))) as Hc2
    by (rewrite relock_one; exact (lookup_upd_me _ _ _ Hc1)).
  assert (eflags_IF (popped (pushed (pushed c))) = false) as HIF.
  { simpl. by rewrite bool_decide_false by lia. }
  exists (relock m1). split_and!.
  { rewrite relock_one. unfold m1. rewrite upd_upd. Transparent upd_cpu. simpl. Opaque upd_cpu.
    apply list_eq. intros j. rewrite !list_lookup_fmap. destruct (decide (j = me m)) as [->|].
    - by rewrite list_lookup_alter_eq, Hc.
    - by rewrite list_lookup_alter_ne. }
  { reflexivity. }
  unfold sched. erewrite bind_run.
  2: { apply run_curproc; [split; [done|]|]; exists (pushed c); (split; [exact Hc1|]); simpl; [lia|done]. }
  rewrite prepend_nil. erewrite bind_run.
  2: { unfold on_plock. eapply zoom_run. eapply holding_run; [exact Hok2|exact Hc2|done]. }
  rewrite prepend_nil. simpl. rewrite bool_decide_true by done. simpl.
  erewrite bind_run by reflexivity. rewrite prepend_nil. erewrite bind_run.
  2: { unfold on_mach. eapply zoom_run. eapply (mycpu_get_run ncli); [exact Hok2|exact Hc2|done]. }
  rewrite prepend_nil, bool_decide_false by (simpl; lia).
  erewrite bind_run by reflexivity. rewrite prepend_nil. run run_pget.
  rewrite bool_decide_false by done. erewrite bind_run by reflexivity. rewrite prepend_nil.
  erewrite bind_run.
  2: { unfold on_mach. eapply zoom_run. unfold readeflags_IF. munfold.
       simpl. rewrite Hc2. reflexivity. }
  rewrite HIF, prepend_nil. erewrite bind_run by reflexivity. rewrite prepend_nil.
  erewrite bind_run.
  2: { unfold on_mach. eapply zoom_run. eapply (mycpu_get_run intena); [exact Hok2|exact Hc2|done]. }
  done.
Qed.

Lemma relock_pushed m :
  mach_free m → relock (upd_cpu pushed (me m) m) = upd_cpu pushed (me m) m.
Proof.
  intros (Hok & c & Hc & Hn). rewrite relock_one, upd_upd. eapply upd_ext; [exact Hc|].
  unfold pushed, popped, compose. simpl.
  rewrite (bool_decide_false (ncli c + 1 = 0)), (bool_decide_false (ncli c + 1 + 1 = 1)) by lia.
  simpl. f_equal. lia.
Qed.

(** [sleep(chan, &ptable.lock)] by the running process. *)
Lemma run_sleep_ptable m cur L n ini b kp w p ch :
  mach_user m cur → L !! cur = Some p →
  ∃ m', sleep ch LkPtable (PState (upd_cpu pushed (me m) m) (held_by m) L n ini b kp w)
    = Blocked CSched (PState m' (held_by m')
        (<[cur := set_state SLEEPING (set_chan ch p)]> L) n ini b kp w) [].
Proof.
  intros Hm Hp. assert (cur < length L)%nat as Hlt by (by eapply lookup_lt_Some).
  destruct (run_sched m cur (<[cur := set_state SLEEPING (set_chan ch p)]> L) n ini b kp w
    (set_state SLEEPING (set_chan ch p))) as (m' & _ & Hme & E);
    [done|by apply list_lookup_insert_eq|done|].
  exists m'. unfold sleep. pose proof Hm as (Hok & c & Hc & Hn & Hcur).
  erewrite bind_run.
  2: { apply (pt_myproc_run _ (pushed c)); [|simpl; lia].
       split; [by apply mach_ok_upd|exact (lookup_upd_me _ _ _ Hc)]. }
  unfold set_mach. cbn [mach plk procs nextpid initproc fr_first kpgdir world].
  rewrite <- relock_one, relock_pushed, prepend_nil by auto with kernel.
  change (cproc (pushed c)) with (cproc c). rewrite Hcur. erewrite bind_run by reflexivity. rewrite prepend_nil.
  run run_pupd0. run run_pupd. rewrite E. unfold held_by. by rewrite Hme.
Qed.
End user_runs.

(** * exit *)

(** Children of [cur] handed over to init; if one of them is a ZOMBIE, init
    is woken. *)
Definition child_of (cur : nat) (p : proc) : bool := bool_decide (p_parent p = Some cur).
Definition adopt1 (cur : nat) (ini : option nat) (p : proc) : proc :=
  if child_of cur p then set_parent ini p else p.
Definition zombie_child (cur : nat) (p : proc) : bool :=
  child_of cur p && bool_decide (p_state p = ZOMBIE).
Definition adopt (cur : nat) (ini : option nat) (L : list proc) : list proc :=
  let L' := adopt1 cur ini <$> L in
  if existsb (zombie_child cur) L then wake1 (CProc <$> ini) <$> L' else L'.

Lemma wake1_idem c p : wake1 c (wake1 c p) = wake1 c p.
Proof.
  unfold wake1 at 2 3.
  destruct (bool_decide (p_state p = SLEEPING) && bool_decide (p_chan p = c)) eqn:E;
    [by apply wake1_awake|]. unfold wake1. by rewrite E.
Qed.
Lemma wake1_adopt1 c cur ini p : wake1 c (adopt1 cur ini p) = adopt1 cur ini (wake1 c p).
Proof.
  unfold adopt1, child_of, wake1.
  destruct (bool_decide (p_state p = SLEEPING) && bool_decide (p_chan p = c)) eqn:E; simpl;
    destruct (bool_decide (p_parent p = Some cur)); simpl; by rewrite ?E.
Qed.
Lemma wake1_child c cur p :
  child_of cur (wake1 c p) = child_of cur p ∧ zombie_child cur (wake1 c p) = zombie_child cur p.
Proof.
  unfold zombie_child, child_of, wake1. case_match; [|done]. simpl.
  apply andb_prop in H as [H _]. apply bool_decide_eq_true in H. rewrite H. done.
Qed.

Lemma fmap_wake1_idem c (L : list proc) : wake1 c <$> (wake1 c <$> L) = wake1 c <$> L.
Proof. rewrite <- list_fmap_compose. apply list_fmap_ext. intros _ p _. apply wake1_idem. Qed.

Section exit_loop.
Context {W : Type}.
Implicit Types (m : machine) (L : list proc) (w : W).

(** The loop has treated the slots of [A]; [B] is still to come. *)
Lemma run_exit_reparent cur ini (A B : list proc) m lk n b kp w :
  foreach (seq (length A) (length B)) (exit_reparent cur)
    (PState m lk (adopt cur ini A ++
       (if existsb (zombie_child cur) A then wake1 (CProc <$> ini) <$> B else B)) n ini b kp w)
  = Ret tt (PState m lk (adopt cur ini (A ++ B)) n ini b kp w) [].
Proof.
  revert A. induction B as [|p B IH]; intros A.
  { simpl. unfold mret, M_ret. do 2 f_equal. rewrite !app_nil_r. by case_match; rewrite app_nil_r. }
  specialize (IH (A ++ [p])). rewrite length_app, Nat.add_comm in IH. simpl in IH.
  rewrite <- (assoc_L (++)) in IH. simpl app in IH.
  cbn [length seq foreach]. erewrite bind_run; [rewrite prepend_nil; exact IH|]. clear IH.
  set (za := existsb (zombie_child cur) A).
  set (wk := λ l : list proc, if za then wake1 (CProc <$> ini) <$> l else l).
  assert (length (adopt cur ini A) = length A) as HA.
  { unfold adopt. case_match; by rewrite ?length_fmap. }
  set (p' := if za then wake1 (CProc <$> ini) p else p).
  assert (wk (p :: B) = p' :: wk B) as HB by (unfold wk, p'; by destruct za).
  assert (child_of cur p' = child_of cur p ∧ zombie_child cur p' = zombie_child cur p) as [Hch Hz].
  { unfold p'. destruct za; [apply wake1_child|done]. }
  change (if za then _ else _) with (wk (p :: B)). rewrite HB.
  assert ((adopt cur ini A ++ p' :: wk B) !! length A = Some p') as Hl
    by (rewrite <- HA; by apply list_lookup_middle).
  assert (∀ q, <[length A := q]> (adopt cur ini A ++ p' :: wk B) = adopt cur ini A ++ q :: wk B) as Hins.
  { intros q. rewrite insert_app_r_alt, HA, Nat.sub_diag by lia. done. }
  assert (adopt cur ini (A ++ [p]) ++ (if existsb (zombie_child cur) (A ++ [p])
      then wake1 (CProc <$> ini) <$> B else B)
    = if zombie_child cur p then wake1 (CProc <$> ini) <$> (adopt cur ini A ++ adopt1 cur ini p' :: wk B)
      else adopt cur ini A ++ adopt1 cur ini p' :: wk B) as ->.
  { unfold adopt, wk, p'. rewrite existsb_app, fmap_app. simpl. rewrite orb_false_r. fold za.
    destruct za, (zombie_child cur p); simpl; rewrite ?fmap_app, ?fmap_wake1_idem, <- ?(assoc_L (++));
      simpl; rewrite ?fmap_wake1_idem, <- ?wake1_adopt1, ?wake1_idem; done. }
  unfold exit_reparent. run (run_pget _ _ _ _ _ _ _ _ (length A) p').
  change (bool_decide (p_parent p' = Some cur)) with (child_of cur p').
  unfold zombie_child in Hz |- *. rewrite Hch in Hz |- *.
  unfold adopt1. rewrite Hch. destruct (child_of cur p); simpl in Hz |- *.
  - erewrite bind_run by reflexivity. rewrite prepend_nil. simpl.
    erewrite bind_run by (by apply run_pupd0). rewrite prepend_nil, Hins, Hz.
    case_match; [|done]. reflexivity.
  - rewrite <- Hins, list_insert_id by done. done.
Qed.
Lemma run_exit_adopt cur L m lk n ini b kp w :
  length L = NPROC →
  foreach (seq 0 NPROC) (exit_reparent cur) (PState m lk L n ini b kp w)
  = Ret tt (PState m lk (adopt cur ini L) n ini b kp w) [].
Proof. intros <-. exact (run_exit_reparent cur ini [] L m lk n b kp w). Qed.
End exit_loop.

(** Adoption does not touch the slot of [cur] itself. *)
Lemma existsb_insert {A} (f : A → bool) i (x y : A) (M : list A) :
  M !! i = Some x → f x = false → f y = false → existsb f (<[i:=y]> M) = existsb f M.
Proof.
  intros Hi Hx Hy. revert i Hi. induction M as [|z M IH]; intros [|i] Hi; simplify_eq/=.
  - by rewrite Hx, Hy.
  - by rewrite (IH i Hi).
Qed.

Lemma adopt_insert cur ini c q M :
  M !! cur = Some c → child_of cur c = false → child_of cur q = false → p_state q ≠ SLEEPING →
  adopt cur ini (<[cur:=q]> M) = <[cur:=q]> (adopt cur ini M).
Proof.
  intros Hc Hcc Hcq Hq. unfold adopt.
  rewrite (existsb_insert _ _ c q M Hc) by (unfold zombie_child; by rewrite ?Hcc, ?Hcq).
  rewrite list_fmap_insert. unfold adopt1 at 1 3. rewrite Hcq.
  destruct (existsb _ M); [|done]. by rewrite list_fmap_insert, wake1_awake.
Qed.

(** Descriptors [fds] closed. *)
Definition close_fds (fds : list nat) (o : list (option nat)) : list (option nat) :=
  foldl (λ o fd, <[fd := None]> o) o fds.

Lemma close_fds_all o : close_fds (seq 0 (length o)) o = replicate (length o) None.
Proof.
  assert (∀ d k (o' : list (option nat)), (k + d = length o')%nat → (∀ fd, (fd < k)%nat → o' !! fd = Some None) →
    close_fds (seq k d) o' = replicate (length o') None) as H.
  { induction d as [|d IH]; intros k o' Hk Hlo; simpl.
    - apply list_eq. intros fd. destruct (decide (fd < length o')%nat).
      + rewrite lookup_replicate_2 by done. apply Hlo. lia.
      + rewrite !(proj2 (lookup_ge_None _ _)); rewrite ?length_replicate; lia || done.
    - rewrite (IH (S k)); [by rewrite length_insert|rewrite length_insert; lia|].
      intros fd Hfd. destruct (decide (fd = k)) as [->|].
      + apply list_lookup_insert_eq. lia.
      + rewrite list_lookup_insert_ne by done. apply Hlo. lia. }
  apply H; [lia|]. intros fd. lia.
Qed.

Section exit_spec.
Context {W : Type} {SV : ProcServices W}.
Implicit Types (m : machine) (L : list proc) (w : W).

Lemma run_exit_close (I : W → Prop) fds m cur L n ini b kp w q :
  (∀ f w', I w' → ∃ w'' t, sv_fileclose f w' = Ret tt w'' t ∧ I w'') →
  mach_user m cur → (cur < length L)%nat → p_state q = RUNNING → I w →
  Forall (λ fd, (fd < length (p_ofile q))%nat) fds →
  ∃ m' w' t, mach_user m' cur ∧ I w' ∧
    foreach fds (exit_close cur) (PState m free_lock (<[cur := q]> L) n ini b kp w)
    = Ret tt (PState m' free_lock (<[cur := set_ofile (close_fds fds (p_ofile q)) q]> (wakes t L))
                n ini b kp w') t.
Proof.
  intros Hclose. revert m L w q. induction fds as [|fd fds IH]; intros m L w q Hm Hlt Hq Hw Hall.
  { exists m, w, []. split_and!; [done..|]. simpl. unfold mret, M_ret. do 3 f_equal. by destruct q. }
  apply Forall_cons in Hall as [Hfd Hall]. cbn [foreach].
  destruct (lookup_lt_is_Some_2 (p_ofile q) fd Hfd) as [o Ho].
  assert ((<[cur:=q]> L) !! cur = Some q) as Hc by (by apply list_lookup_insert_eq).
  destruct o as [f|].
  - destruct (Hclose f w Hw) as (w1 & t1 & Hd & Hw1).
    destruct (run_service (sv_fileclose f) m cur (<[cur:=q]> L) n ini b kp w tt w1 t1 Hm Hd)
      as (m1 & Hm1 & E1). rewrite wakes_insert in E1 by (by rewrite Hq).
    set (q1 := set_ofile (<[fd := None]> (p_ofile q)) q).
    destruct (IH m1 (wakes t1 L) w1 q1 Hm1) as (m2 & w2 & t2 & Hm2 & Hw2 & E2);
      [by rewrite length_wakes|done|done|by simpl; rewrite length_insert|].
    exists m2, w2, (t1 ++ t2). split_and!; [done..|].
    erewrite bind_run. 2: { unfold exit_close. run run_pget. rewrite Ho. erewrite bind_run by reflexivity.
      rewrite prepend_nil. erewrite bind_run by exact E1.
      rewrite run_pupd by (by rewrite length_wakes). simpl. by rewrite app_nil_r. }
    change (set_ofile (<[fd:=None]> (p_ofile q)) q) with q1. rewrite E2. simpl.
    by rewrite wakes_app.
  - destruct (IH m L w q Hm Hlt Hq Hw Hall) as (m2 & w2 & t2 & Hm2 & Hw2 & E2).
    exists m2, w2, t2. split_and!; [done..|].
    erewrite bind_run. 2: { unfold exit_close. run run_pget. rewrite Ho.
      erewrite bind_run by reflexivity. reflexivity. }
    rewrite prepend_nil, E2. simpl. by rewrite (list_insert_id (p_ofile q) fd None Ho).
Qed.

(** The services [exit] uses, in a world where [I] holds. *)
Record exit_services (I : W → Prop) : Prop := ExitServices {
  es_close f w : I w → ∃ w' t, sv_fileclose f w = Ret tt w' t ∧ I w';
  es_begin w : I w → ∃ w' t, sv_begin_op w = Ret tt w' t ∧ I w';
  es_iput i w : I w → ∃ w' t, sv_iput i w = Ret tt w' t ∧ I w';
  es_end w : I w → ∃ w' t, sv_end_op w = Ret tt w' t ∧ I w'
}.

Lemma run_exit_files (I : W → Prop) m cur L n ini b kp w c cwd :
  exit_services I → mach_user m cur → L !! cur = Some c → p_state c = RUNNING →
  length (p_ofile c) = NOFILE → p_cwd c = Some cwd → I w →
  ∃ m' w' t, mach_user m' cur ∧ I w' ∧
    exit_files cur (PState m free_lock L n ini b kp w)
    = Ret tt (PState m' free_lock
        (<[cur := set_cwd None (set_ofile (replicate NOFILE None) c)]> (wakes t L)) n ini b kp w') t.
Proof.
  intros HI Hm Hc Hst Hof Hcwd Hw.
  assert (cur < length L)%nat as Hlt by (by eapply lookup_lt_Some).
  destruct (run_exit_close I (seq 0 NOFILE) m cur L n ini b kp w c)
    as (m1 & w1 & t1 & Hm1 & Hw1 & E1); try done; [apply HI| |].
  { apply Forall_forall. intros fd. rewrite elem_of_seq, Hof. lia. }
  rewrite (list_insert_id L cur c Hc) in E1. unfold exit_files. erewrite bind_run by exact E1.
  rewrite <- Hof, close_fds_all, Hof. clear E1.
  destruct (es_begin I HI w1 Hw1) as (w2 & t2 & H2 & Hw2).
  edestruct (run_service sv_begin_op m1 cur) as (m2 & Hm2 & E2); [done|exact H2|].
  erewrite bind_run by exact E2. clear E2. rewrite wakes_insert by (simpl; by rewrite Hst).
  erewrite bind_run by (apply run_pget, list_lookup_insert_eq; by rewrite !length_wakes).
  simpl p_cwd. rewrite Hcwd. erewrite bind_run by reflexivity.
  destruct (es_iput I HI cwd w2 Hw2) as (w3 & t3 & H3 & Hw3).
  edestruct (run_service (sv_iput cwd) m2 cur) as (m3 & Hm3 & E3); [done|exact H3|].
  erewrite bind_run by exact E3. clear E3. rewrite wakes_insert by (simpl; by rewrite Hst).
  destruct (es_end I HI w3 Hw3) as (w4 & t4 & H4 & Hw4).
  edestruct (run_service sv_end_op m3 cur) as (m4 & Hm4 & E4); [done|exact H4|].
  erewrite bind_run by exact E4. clear E4. rewrite wakes_insert by (simpl; by rewrite Hst).
  rewrite run_pupd by (by rewrite !length_wakes). simpl prepend.
  exists m4, w4, (t1 ++ t2 ++ t3 ++ t4). split_and!; [done..|].
  by rewrite !wakes_app, !app_nil_r.
Qed.

(** The process that exits, as its parent will find it. *)
Definition zombie_of (c : proc) : proc :=
  set_state ZOMBIE (set_cwd None (set_ofile (replicate NOFILE None) c)).

(** The state in which [exit] gives up the CPU. *)
Lemma run_exit (I : W → Prop) m L n ini b kp w cur c cwd :
  exit_services I → mach_user m cur → length L = NPROC → L !! cur = Some c → p_state c = RUNNING →
  length (p_ofile c) = NOFILE → p_cwd c = Some cwd → p_parent c ≠ Some cur → ini ≠ Some cur → I w →
  ∃ m' w' t, I w' ∧
    exit (PState m free_lock L n ini b kp w)
    = Blocked CSched (PState m' (held_by m')
        (<[cur := zombie_of c]>
           (adopt cur ini (wake1 (CProc <$> p_parent c) <$> wakes t L))) n ini b kp w') t.
Proof.
  intros HI Hm HL Hc Hst Hof Hcwd Hpar Hini Hw.
  assert (cur < length L)%nat as Hlt by (by eapply lookup_lt_Some).
  destruct (mach_user_free m cur Hm) as [Hmf Hmr].
  unfold exit. run run_curproc. erewrite bind_run by reflexivity. rewrite prepend_nil. simpl.
  rewrite bool_decide_false by done. erewrite bind_run by reflexivity. rewrite prepend_nil.
  destruct (run_exit_files I (relock m) cur L n ini b kp w c cwd)
    as (m1 & w1 & t & Hm1 & Hw1 & E1); try done; [auto with kernel|].
  erewrite bind_run by exact E1. clear E1. set (q := set_cwd None _).
  run run_acquire.
  erewrite bind_run by (apply run_pget, list_lookup_insert_eq; by rewrite length_wakes).
  rewrite prepend_nil. erewrite bind_run by reflexivity. rewrite prepend_nil.
  unfold set_procs. simpl. rewrite list_fmap_insert, wake1_awake by (simpl; by rewrite Hst).
  set (Lw := wake1 (CProc <$> p_parent c) <$> wakes t L).
  assert (Lw !! cur = Some c) as Hcw.
  { unfold Lw. rewrite list_lookup_fmap, (wakes_lookup t cur c L) by (done || by rewrite Hst).
    simpl. by rewrite wake1_awake by (by rewrite Hst). }
  assert (length Lw = NPROC) as HLw by (unfold Lw; by rewrite length_fmap, length_wakes).
  erewrite bind_run by (apply run_exit_adopt; by rewrite length_insert). rewrite prepend_nil.
  rewrite (adopt_insert cur ini c q Lw Hcw);
    [|by apply bool_decide_eq_false|by apply bool_decide_eq_false|simpl; by rewrite Hst].
  assert (length (adopt cur ini Lw) = NPROC) as HLa
    by (unfold adopt; case_match; by rewrite ?length_fmap).
  erewrite bind_run by (apply run_pupd; by rewrite HLa, <- HL). rewrite prepend_nil.
  destruct (run_sched m1 cur (<[cur := set_state ZOMBIE q]> (adopt cur ini Lw)) n ini b kp w1
    (set_state ZOMBIE q)) as (m2 & _ & Hme & E2);
    [done|apply list_lookup_insert_eq; by rewrite HLa, <- HL|done|].
  erewrite bind_blocked by exact E2. exists m2, w1, t. split; [done|]. simpl.
  unfold held_by. rewrite Hme, app_nil_r. done.
Qed.
(** A waiting parent is RUNNABLE in that state. *)
Lemma exit_wakes_parent cur ini c par pp t L :
  cur ≠ par → L !! par = Some pp → p_state pp = SLEEPING → p_chan pp = Some (CProc par) →
  p_parent c = Some par →
  ∃ q, (<[cur := zombie_of c]> (adopt cur ini (wake1 (CProc <$> p_parent c) <$> wakes t L))) !! par
    = Some q ∧ p_state q = RUNNABLE.
Proof.
  intros Hne Hpp Hst Hch Hpar. rewrite list_lookup_insert_ne by done. rewrite Hpar. simpl.
  assert (∃ q, wakes t L !! par = Some q ∧ (q = pp ∨ p_state q = RUNNABLE)) as (q & Hq & Hor).
  { clear Hch. revert L Hpp. induction t as [|e t IH]; intros L Hpp; [by exists pp; auto|].
    destruct e as [ch| | |]; [|by apply (IH L)..]. change (wakes (EvWakeup ch :: t) L) with (wakes t (wake1 ch <$> L)).
    unfold wake1 at 1. destruct (decide (p_chan pp = ch)) as [<-|Hch].
    - exists (set_state RUNNABLE pp). split; [|auto].
      apply wakes_lookup; [done|]. rewrite list_lookup_fmap, Hpp. simpl. unfold wake1.
      by rewrite !bool_decide_true.
    - apply IH. rewrite list_lookup_fmap, Hpp. simpl. unfold wake1. by rewrite (bool_decide_false (_ = ch)), andb_false_r. }
  assert (∃ q', (wake1 (Some (CProc par)) <$> wakes t L) !! par = Some q' ∧ p_state q' = RUNNABLE)
    as (q' & Hq' & Hr).
  { rewrite list_lookup_fmap, Hq. eexists. split; [reflexivity|]. destruct Hor as [->|Hr].
    - unfold wake1. by rewrite !bool_decide_true.
    - by rewrite wake1_awake by (by rewrite Hr). }
  assert (p_state (adopt1 cur ini q') = RUNNABLE) as Hr' by (unfold adopt1; by case_match).
  exists (adopt1 cur ini q'). split; [|done]. unfold adopt.
  case_match.
  - rewrite list_lookup_fmap, (list_lookup_fmap (adopt1 cur ini)), Hq'. simpl.
    rewrite wake1_awake; [done|by rewrite Hr'].
  - by rewrite (list_lookup_fmap (adopt1 cur ini)), Hq'.
Qed.
End exit_spec.


(** * wait *)

Section wait_spec.
Context {W : Type} {SV : ProcServices W}.
Implicit Types (m : machine) (L : list proc) (w : W).

(** The slot of a reaped child. *)
Definition reaped (p : proc) : proc :=
  set_state UNUSED (set_killed 0 (set_name (<[0%nat:=0]> (p_name p))
    (set_parent None (set_pid 0 (set_kstack 0 p))))).

(** Slot [i] is the first ZOMBIE child of [cur]. *)
Definition first_zombie L (cur i : nat) (p : proc) : Prop :=
  L !! i = Some p ∧ zombie_child cur p = true ∧
  ∀ j q, L !! j = Some q → (j < i)%nat → zombie_child cur q = false.

Lemma zombie_child_true cur p :
  zombie_child cur p = true ↔ p_parent p = Some cur ∧ p_state p = ZOMBIE.
Proof. unfold zombie_child, child_of. by rewrite andb_true_iff, !bool_decide_eq_true. Qed.

Lemma run_wait_scan_reap L cur i p k hk m n ini b kp w w1 w2 :
  first_zombie L cur i p → mach_free m → (k ≤ i < NPROC)%nat →
  sv_kfree (p_kstack p) w = Ret tt w1 [] → sv_freevm (p_pgdir p) w1 = Ret tt w2 [] →
  wait_scan cur (seq k (NPROC - k)) hk (PState (upd_cpu pushed (me m) m) (held_by m) L n ini b kp w)
  = Ret (inr (p_pid p)) (PState (relock m) free_lock (<[i := reaped p]> L) n ini b kp w2) [].
Proof.
  intros (Hi & Hz & Hfirst) Hm. remember (i - k)%nat as d eqn:Hd. revert k hk Hd.
  assert (i < length L)%nat as Hlt by (by eapply lookup_lt_Some).
  apply zombie_child_true in Hz as [Hpar Hst].
  induction d as [|d IH]; intros k hk Hd Hk H1 H2.
  - replace k with i by lia. replace (NPROC - i)%nat with (S (NPROC - S i)) by lia. cbn [seq wait_scan].
    run run_pget. rewrite (bool_decide_false (p_parent p ≠ Some cur)) by (intros H; by apply H).
    rewrite bool_decide_true by done. run @run_svc. run run_pupd0. run @run_svc.
    do 5 run run_pupd. run run_release. done.
  - replace (NPROC - k)%nat with (S (NPROC - S k)) by lia. cbn [seq wait_scan].
    destruct (lookup_lt_is_Some_2 L k) as [q Hq]; [lia|]. run run_pget.
    specialize (Hfirst k q Hq ltac:(lia)).
    assert (∀ hk, wait_scan cur (seq (S k) (NPROC - S k)) hk
      (PState (upd_cpu pushed (me m) m) (held_by m) L n ini b kp w)
      = Ret (inr (p_pid p)) (PState (relock m) free_lock (<[i := reaped p]> L) n ini b kp w2) []) as E
      by (intros hk'; apply IH; [lia|lia|done|done]).
    case_bool_decide as Hc; [apply E|]. case_bool_decide as Hs; [|apply E].
    exfalso. apply not_true_iff_false in Hfirst. apply Hfirst, zombie_child_true. done.
Qed.

(** A ZOMBIE child is found by some scan. *)
Lemma first_zombie_exists L cur i p :
  L !! i = Some p → zombie_child cur p = true → ∃ j q, first_zombie L cur j q.
Proof.
  intros Hi Hz. destruct (list_find (λ q, zombie_child cur q = true) L) as [[j q]|] eqn:E.
  - apply list_find_Some in E as (Hj & Hq & Hf). exists j, q. split_and!; [done..|].
    intros k r Hr Hk. apply not_true_iff_false. by eapply Hf.
  - apply list_find_None in E. by destruct (Forall_lookup_1 _ _ _ _ E Hi).
Qed.


(** Without a ZOMBIE child the scan only finds out if there are children. *)
Lemma run_wait_scan_none L cur k hk s :
  procs s = L → length L = NPROC → (k ≤ NPROC)%nat →
  (∀ i p, L !! i = Some p → zombie_child cur p = false) →
  wait_scan cur (seq k (NPROC - k)) hk s
  = Ret (A := bool + Z) (S := pstate W) (inl (hk || existsb (child_of cur) (drop k L))) s [].
Proof.
  intros Hs HL Hk Hno. remember (NPROC - k)%nat as d eqn:Hd. revert k hk Hd Hk.
  induction d as [|d IH]; intros k hk Hd Hk.
  { simpl. rewrite drop_ge by lia. simpl. by rewrite orb_false_r. }
  destruct (lookup_lt_is_Some_2 L k) as [q Hq]; [lia|]. cbn [seq wait_scan].
  erewrite bind_run by (apply pget_run; by rewrite Hs). rewrite prepend_nil.
  rewrite (drop_S _ _ _ Hq). simpl. unfold child_of at 1.
  specialize (Hno k q Hq). apply not_true_iff_false in Hno. rewrite zombie_child_true in Hno.
  case_bool_decide as Hc.
  - rewrite (bool_decide_false (p_parent q = Some cur)) by done. simpl. apply IH; lia.
  - rewrite (bool_decide_true (p_parent q = Some cur)) by done.
    rewrite (bool_decide_false (p_state q = ZOMBIE)) by naive_solver. rewrite orb_true_r. simpl.
    rewrite (IH (S k) true) by lia. done.
Qed.

(** C5: [wait] returns the pid of the first ZOMBIE child and frees its slot,
    its kernel stack and its address space; a process without children, or
    one that was killed and has no ZOMBIE child, gets -1 and nothing changes;
    otherwise the process goes to sleep on its own channel. *)
Theorem wait_spec m L n ini b kp w cur c :
  mach_user m cur → length L = NPROC → L !! cur = Some c → p_state c = RUNNING →
  let s := PState m free_lock L n ini b kp w in
  (∀ i p w1 w2, first_zombie L cur i p →
     sv_kfree (p_kstack p) w = Ret tt w1 [] → sv_freevm (p_pgdir p) w1 = Ret tt w2 [] →
     ∃ m', wait s = Ret (p_pid p) (PState m' free_lock (<[i := reaped p]> L) n ini b kp w2) []) ∧
  ((∀ i p, L !! i = Some p → zombie_child cur p = false) →
     (existsb (child_of cur) L = false ∨ p_killed c ≠ 0) →
     ∃ m', wait s = Ret (-1) (PState m' free_lock L n ini b kp w) []) ∧
  ((∀ i p, L !! i = Some p → zombie_child cur p = false) →
     existsb (child_of cur) L = true → p_killed c = 0 →
     ∃ m', wait s = Blocked CSched (PState m' (held_by m')
       (<[cur := set_state SLEEPING (set_chan (Some (CProc cur)) c)]> L) n ini b kp w) []).
Proof.
  intros Hm HL Hc Hst s. destruct (mach_user_free m cur Hm) as [Hmf Hmr].
  assert (cur < length L)%nat as Hlt by (by eapply lookup_lt_Some).
  unfold wait, wait_round, s. split_and!.
  - intros i p w1 w2 Hz H1 H2. run run_curproc. run run_acquire.
    assert (i < NPROC)%nat by (rewrite <- HL; destruct Hz as [Hi _]; by eapply lookup_lt_Some).
    erewrite bind_run by (eapply (run_wait_scan_reap L cur i p 0); eauto with kernel; lia).
    rewrite prepend_nil. by eexists.
  - intros Hno Hor. run run_curproc. run run_acquire.
    erewrite bind_run by (apply (run_wait_scan_none L cur 0); [done|done|lia|done]).
    rewrite prepend_nil, drop_0. simpl. run run_pget.
    replace (negb (existsb (child_of cur) L) || bool_decide (p_killed c ≠ 0)) with true.
    2: { symmetry. apply orb_true_iff. rewrite bool_decide_eq_true.
         destruct Hor as [->|]; auto. }
    run run_release. by eexists.
  - intros Hno Hkids Hkill. run run_curproc. run run_acquire.
    erewrite bind_run by (apply (run_wait_scan_none L cur 0); [done|done|lia|done]).
    rewrite prepend_nil, drop_0. simpl. run run_pget.
    rewrite Hkids, (bool_decide_false (p_killed c ≠ 0)) by (intros H; by apply H). simpl.
    destruct (run_sleep_ptable (relock m) cur L n ini b kp w c (Some (CProc cur))) as (m' & E);
      [auto with kernel|done|].
    exists m'. by erewrite bind_blocked by exact E.
Qed.
End wait_spec.

(** * A small system *)

(** A table with init asleep in [wait] (slot 0), its running child (slot 1),
    which has a ZOMBIE child of its own (slot 2). *)
Definition ex_proc (st : procstate) (pid : Z) (par : option nat) (ch : option chan) : proc :=
  Proc 4096 8192 12288 st pid par tf_zero 0 CodeTrapret (Context 0 0 0 0 CodeForkret) 0 ch 0
    (<[0%nat := Some 3%nat]> (replicate NOFILE None)) (Some 0%nat) (replicate 16 0) 5 0.
Definition ex_table : list proc :=
  ex_proc SLEEPING 1 None (Some (CProc 0)) :: ex_proc RUNNING 2 (Some 0%nat) None ::
  ex_proc ZOMBIE 3 (Some 1%nat) None :: replicate 61 proc_zero.
Definition ex_mach : machine := Machine [Cpu 0 1 0 true (Some 1%nat) true 0 0] 0.
Definition ex_state : pstate unit :=
  PState ex_mach free_lock ex_table 4 (Some 0%nat) false 4096 tt.

Lemma ex_user : mach_user ex_mach 1.
Proof.
  split; [split; [apply NoDup_singleton|simpl; lia]|].
  eexists. split; [reflexivity|]. split; reflexivity.
Qed.
Lemma ex_free : mach_free ex_mach.
Proof. apply (mach_user_free _ _ ex_user). Qed.
Lemma ex_runs : mach_runs ex_mach 1.
Proof. apply (mach_user_free _ _ ex_user). Qed.

Lemma ex_first_unused : first_unused ex_table 3 proc_zero.
Proof.
  split_and!; [reflexivity|reflexivity|]. intros j q Hq Hj.
  destruct j as [|[|[|j]]]; [injection Hq as <-; done..|lia].
Qed.

Lemma wakeup_exact_witness :
  mach_free ex_mach ∧
  wakeup (Some (CProc 0)) ex_state
  = Ret tt (PState (relock ex_mach) free_lock (wake1 (Some (CProc 0)) <$> ex_table) 4 (Some 0%nat)
              false 4096 tt) [].
Proof.
  split; [exact ex_free|].
  exact (proj1 (wakeup_exact ex_mach ex_table 4 (Some 0%nat) false 4096 tt (Some (CProc 0)) ex_free)).
Defined.

Lemma kill_spec_witness :
  (∃ i p, has_pid ex_table i p 1) ∧
  kill 1 ex_state
  = Ret 0 (PState (relock ex_mach) free_lock
      (<[0%nat := set_killed 1 (set_state RUNNABLE (ex_proc SLEEPING 1 None (Some (CProc 0))))]> ex_table)
      4 (Some 0%nat) false 4096 tt) [].
Proof.
  assert (has_pid ex_table 0 (ex_proc SLEEPING 1 None (Some (CProc 0))) 1) as H.
  { split_and!; [reflexivity|reflexivity|]. intros j q _ Hj. lia. }
  split; [exists 0%nat; eexists; exact H|].
  exact (proj1 (kill_spec ex_mach ex_table 4 (Some 0%nat) false 4096 tt 1 ex_free) _ _ H).
Defined.

Lemma priority_roundtrip_witness :
  ∃ s', set_priority 2 17 ex_state = Ret 0 s' [] ∧
    ∃ s'', get_priority 2 s' = Ret 17 s'' [] ∧ procs s'' = procs s'.
Proof.
  assert (has_pid ex_table 1 (ex_proc RUNNING 2 (Some 0%nat) None) 2) as H.
  { split_and!; [reflexivity|reflexivity|]. intros [|j] q Hq Hj; [injection Hq as <-; done|lia]. }
  destruct (proj1 (proj2 (priority_roundtrip ex_mach ex_table 4 (Some 0%nat) false 4096 tt 2 17 ex_free))
    ltac:(lia) _ _ H) as (s' & H1 & _ & H2).
  exists s'. exact (conj H1 H2).
Defined.

Lemma fork_creates_child_witness :
  ∃ m' w', fork (SV := no_services) ex_state
    = Ret 4 (PState m' free_lock
        (<[3%nat := fork_child (ex_proc RUNNING 2 (Some 0%nat) None) proc_zero 1 4 2147487744 2147495936]>
           ex_table) (i32 (4 + 1)) (Some 0%nat) false 4096 w') [].
Proof.
  destruct (fork_creates_child (SV := no_services) (λ _, True) ex_mach ex_table 4 (Some 0%nat) false
    4096 tt 1 (ex_proc RUNNING 2 (Some 0%nat) None) 3 proc_zero 2147487744 2147495936 0 tt tt
    ex_free ex_runs eq_refl eq_refl eq_refl eq_refl ex_first_unused eq_refl eq_refl ltac:(lia)
    eq_refl ltac:(lia) Logic.I) as (m' & w' & H & _ & _).
  - intros f w' _ _. exists w'. split; [reflexivity|exact Logic.I].
  - intros w' _. exists w'. split; [reflexivity|exact Logic.I].
  - exists m', w'. exact H.
Defined.

(** A system whose memory is exhausted. *)
Definition no_memory : ProcServices unit := {|
  sv_kalloc := mret 0; sv_kfree := λ _, mret tt; sv_setupkvm := mret 0;
  sv_inituvm := λ _, mret tt; sv_copyuvm := λ _ _, mret 0; sv_freevm := λ _, mret tt;
  sv_allocuvm := λ _ _ _, mret 0; sv_deallocuvm := λ _ _ n, mret n; sv_filedup := λ f, mret f;
  sv_fileclose := λ _, mret tt; sv_begin_op := mret tt; sv_end_op := mret tt;
  sv_idup := λ i, mret i; sv_iput := λ _, mret tt; sv_namei := λ _, mret None;
  sv_iinit := mret tt; sv_initlog := mret tt |}.

Lemma fork_fails_witness :
  ∃ m' q, fork (SV := no_memory) ex_state
    = Ret (-1) (PState m' free_lock (<[3%nat := q]> ex_table) (i32 (4 + 1)) (Some 0%nat) false 4096 tt) []
    ∧ p_state q = UNUSED.
Proof.
  destruct (fork_fails (SV := no_memory) ex_mach ex_table 4 (Some 0%nat) false 4096 tt 1
    (ex_proc RUNNING 2 (Some 0%nat) None) ex_free ex_runs eq_refl eq_refl) as (_ & H & _).
  destruct (H 3%nat proc_zero tt ex_first_unused eq_refl) as (m' & q & H1 & H2 & _).
  exists m', q. exact (conj H1 H2).
Defined.


Lemma wait_spec_witness :
  ∃ m', wait (SV := no_services) ex_state
    = Ret 3 (PState m' free_lock
        (<[2%nat := reaped (ex_proc ZOMBIE 3 (Some 1%nat) None)]> ex_table) 4 (Some 0%nat) false 4096 tt) [].
Proof.
  assert (first_zombie ex_table 1 2 (ex_proc ZOMBIE 3 (Some 1%nat) None)) as Hz.
  { split_and!; [reflexivity|reflexivity|]. intros j q Hq Hj.
    destruct j as [|[|j]]; [injection Hq as <-; reflexivity..|lia]. }
  destruct (wait_spec (SV := no_services) ex_mach ex_table 4 (Some 0%nat) false 4096 tt 1
    (ex_proc RUNNING 2 (Some 0%nat) None) ex_user eq_refl eq_refl eq_refl) as (H & _ & _).
  exact (H 2%nat _ tt tt Hz eq_refl eq_refl).
Defined.

(** [kill(0)] is not an error: it finds an UNUSED slot (whose pid is 0),
    returns 0 and marks the slot; since [allocproc] does not clear [killed],
    the next process forked into that slot is born killed. *)
Theorem kill_zero_kills_next_fork :
  match (r ← kill 0; pid ← fork (SV := no_services); mret (r, pid)) ex_state with
  | Ret (r, pid) s' _ => r = 0 ∧ pid = 4 ∧
      (p_killed <$> procs s' !! 3%nat) = Some 1 ∧ (p_pid <$> procs s' !! 3%nat) = Some pid
  | _ => False
  end.
Proof. vm_compute. done. Qed.
