(* ===== verification/Asm.v ===== *)
(** The assembly of the kernel's control transfers: the context switch
    (src/swtch.S), trap entry and return (src/vectors.S, src/trapasm.S), the
    system call stubs (src/usys.S) and the start of the first program
    (src/initcode.S).

    Code is a list of instructions of a small x86 ([instr], [exec]) whose
    state has the registers and a memory of 32-bit words.  An access to an
    address that is not a multiple of 4 is outside of the model ([None]), and
    so are the descriptors that segment registers are checked against.  What
    the processor does at an interrupt is [trap_entry], over [Segments.deliver].
    The C code between two pieces of assembly is not run here: the theorems
    take the state in which it returns, with the stack pointer where the
    calling convention puts it. *)
From S2P Require Import Prelude Layout Bytes Spinlock Segments ProcTable ProcSpec.

(** * The processor *)

Inductive reg : Type := EAX | ECX | EDX | EBX | ESP | EBP | ESI | EDI.
Inductive sreg : Type := CS | DS | ES | FS | GS | SS.

Record x86 := X86 {
  x_eax : Z; x_ecx : Z; x_edx : Z; x_ebx : Z; x_esp : Z; x_ebp : Z; x_esi : Z; x_edi : Z;
  x_cs : Z; x_ds : Z; x_es : Z; x_fs : Z; x_gs : Z; x_ss : Z;
  x_eip : Z; x_eflags : Z;
  x_mem : Z → Z
}.

Definition get_reg (r : reg) (s : x86) : Z :=
  match r with
  | EAX => x_eax s | ECX => x_ecx s | EDX => x_edx s | EBX => x_ebx s
  | ESP => x_esp s | EBP => x_ebp s | ESI => x_esi s | EDI => x_edi s
  end.
Definition set_reg (r : reg) (v : Z) (s : x86) : x86 :=
  let 'X86 a c d b sp bp si di cs ds es fs gs ss ip fl m := s in
  match r with
  | EAX => X86 v c d b sp bp si di cs ds es fs gs ss ip fl m
  | ECX => X86 a v d b sp bp si di cs ds es fs gs ss ip fl m
  | EDX => X86 a c v b sp bp si di cs ds es fs gs ss ip fl m
  | EBX => X86 a c d v sp bp si di cs ds es fs gs ss ip fl m
  | ESP => X86 a c d b v bp si di cs ds es fs gs ss ip fl m
  | EBP => X86 a c d b sp v si di cs ds es fs gs ss ip fl m
  | ESI => X86 a c d b sp bp v di cs ds es fs gs ss ip fl m
  | EDI => X86 a c d b sp bp si v cs ds es fs gs ss ip fl m
  end.
Definition get_sreg (r : sreg) (s : x86) : Z :=
  match r with CS => x_cs s | DS => x_ds s | ES => x_es s | FS => x_fs s | GS => x_gs s | SS => x_ss s end.
Definition set_sreg (r : sreg) (v : Z) (s : x86) : x86 :=
  let 'X86 a c d b sp bp si di cs ds es fs gs ss ip fl m := s in
  match r with
  | CS => X86 a c d b sp bp si di v ds es fs gs ss ip fl m
  | DS => X86 a c d b sp bp si di cs v es fs gs ss ip fl m
  | ES => X86 a c d b sp bp si di cs ds v fs gs ss ip fl m
  | FS => X86 a c d b sp bp si di cs ds es v gs ss ip fl m
  | GS => X86 a c d b sp bp si di cs ds es fs v ss ip fl m
  | SS => X86 a c d b sp bp si di cs ds es fs gs v ip fl m
  end.
Definition set_eip (v : Z) (s : x86) : x86 :=
  let 'X86 a c d b sp bp si di cs ds es fs gs ss _ fl m := s in X86 a c d b sp bp si di cs ds es fs gs ss v fl m.
Definition set_flags (v : Z) (s : x86) : x86 :=
  let 'X86 a c d b sp bp si di cs ds es fs gs ss ip _ m := s in X86 a c d b sp bp si di cs ds es fs gs ss ip v m.
Definition set_mem (m : Z → Z) (s : x86) : x86 :=
  let 'X86 a c d b sp bp si di cs ds es fs gs ss ip fl _ := s in X86 a c d b sp bp si di cs ds es fs gs ss ip fl m.

(** Memory accesses. *)
Definition poke (a v : Z) (m : Z → Z) : Z → Z := λ x, if bool_decide (x = a) then v else m x.
Definition aligned (a : Z) : bool := bool_decide (a mod 4 = 0).
Definition load (a : Z) (s : x86) : option Z := if aligned a then Some (x_mem s a) else None.
Definition store (a v : Z) (s : x86) : option x86 := if aligned a then Some (set_mem (poke a v (x_mem s)) s) else None.
Definition push (v : Z) (s : x86) : option x86 :=
  let sp := u32 (x_esp s - 4) in store sp v (set_reg ESP sp s).
Definition pop (s : x86) : option (Z * x86) :=
  v ← load (x_esp s) s; Some (v, set_reg ESP (u32 (x_esp s + 4)) s).

(** A push of a selector writes the word, or only its lower half: processors
    differ. *)
Class SelectorPush := { push_zero_extends : bool }.
Definition selector_word `{SelectorPush} (sel old : Z) : Z := if push_zero_extends then sel else sel + 65536 * (u32 old / 65536).
Definition push_sel `{SelectorPush} (v : Z) (s : x86) : option x86 := push (selector_word v (x_mem s (u32 (x_esp s - 4)))) s.

Definition cpl (s : x86) : Z := x_cs s mod 4.

Inductive instr : Type :=
| PushlR (r : reg) | PushlI (v : Z) | PushlS (r : sreg) | Pushal
| PoplR (r : reg) | PoplS (r : sreg) | Popal
| MovlRR (src dst : reg) | MovlI (v : Z) (dst : reg) | MovlMR (off : Z) (base dst : reg) | MovlRM (src base : reg)
| MovwI (v : Z) (dst : reg) | MovwRS (src : reg) (dst : sreg)
| AddlI (v : Z) (dst : reg)
| Jmp (a : Z) | Call (a next : Z) | Ret | Iret.

(** [pushal] pushes the stack pointer as it was; [popal] discards it. *)
Definition pushal (s : x86) : option x86 :=
  foldl (λ o v, s' ← o; push v s') (Some s) [x_eax s; x_ecx s; x_edx s; x_ebx s; x_esp s; x_ebp s; x_esi s; x_edi s].
Definition pop_reg (r : reg) (s : x86) : option x86 := '(v, s) ← pop s; Some (set_reg r v s).
Definition popal (s : x86) : option x86 :=
  s ← pop_reg EDI s; s ← pop_reg ESI s; s ← pop_reg EBP s; '(_, s) ← pop s;
  s ← pop_reg EBX s; s ← pop_reg EDX s; s ← pop_reg ECX s; pop_reg EAX s.

(** [iret] from kernel mode: the stack changes when the privilege does. *)
Definition iret (s : x86) : option x86 :=
  '(ip, s1) ← pop s; '(c, s1) ← pop s1; '(fl, s1) ← pop s1;
  let s2 := set_flags fl (set_sreg CS (u16 c) (set_eip ip s1)) in
  if bool_decide (cpl s < u16 c mod 4) then
    '(sp, s3) ← pop s2; '(ss, s3) ← pop s3; Some (set_sreg SS (u16 ss) (set_reg ESP sp s3))
  else Some s2.

(** One instruction that is not a jump. *)
Definition step1 `{SelectorPush} (i : instr) (s : x86) : option x86 :=
  match i with
  | PushlR r => push (get_reg r s) s
  | PushlI v => push v s
  | PushlS r => push_sel (get_sreg r s) s
  | Pushal => pushal s
  | PoplR r => pop_reg r s
  | PoplS r => '(v, s) ← pop s; Some (set_sreg r (u16 v) s)
  | Popal => popal s
  | MovlRR src dst => Some (set_reg dst (get_reg src s) s)
  | MovlI v dst => Some (set_reg dst v s)
  | MovlMR off base dst => v ← load (u32 (get_reg base s + off)) s; Some (set_reg dst v s)
  | MovlRM src base => store (get_reg base s) (get_reg src s) s
  | MovwI v dst => Some (set_reg dst (get_reg dst s / 65536 * 65536 + v) s)
  | MovwRS src dst => Some (set_sreg dst (u16 (get_reg src s)) s)
  | AddlI v dst => Some (set_reg dst (u32 (get_reg dst s + v)) s)
  | Jmp _ | Call _ _ | Ret | Iret => None
  end.

(** The instructions up to and with the first jump; [x_eip] is where it goes. *)
Fixpoint exec `{SelectorPush} (code : list instr) (s : x86) : option x86 :=
  match code with
  | [] => Some s
  | Jmp a :: _ => Some (set_eip a s)
  | Call a next :: _ => s ← push next s; Some (set_eip a s)
  | Ret :: _ => '(a, s) ← pop s; Some (set_eip a s)
  | Iret :: _ => iret s
  | i :: code' => s ← step1 i s; exec code' s
  end.

(** An interrupt or exception: the processor changes to the stack of the gate,
    if any, and pushes where it was; [err] is the error code of the exceptions
    that have one.  The flags that are cleared: IF for an interrupt gate, and
    TF, NT, RF and VM. *)
Definition trap_entry `{SelectorPush} (t : tables) (software : bool) (n : nat) (err : option Z) (s : x86) : option x86 :=
  match Segments.deliver t software (cpl s) n with
  | Faults => None
  | Enters e =>
      s1 ← match e_stack e with
           | None => Some s
           | Some (ss, sp) => s1 ← push_sel (x_ss s) (set_sreg SS ss (set_reg ESP sp s)); push (x_esp s) s1
           end;
      s1 ← push (x_eflags s) s1; s1 ← push_sel (x_cs s) s1; s1 ← push (x_eip s) s1;
      s1 ← match err with None => Some s1 | Some c => push c s1 end;
      let fl := Z.ldiff (x_eflags s) (if e_keepif e then 213248 else 213760) in
      Some (set_flags fl (set_eip (e_eip e) (set_sreg CS (e_cs e) s1)))
  end.

(** * The code *)

(** Addresses that the linker chooses: of [alltraps], [trap], the instruction
    after its call, [trapret] and [forkret]. *)
Class CodeLayout := { a_alltraps : Z; a_trap : Z; a_traped : Z; a_trapret : Z; a_forkret : Z }.

Definition swtch : list instr :=
  [ MovlMR 4 ESP EAX; MovlMR 8 ESP EDX;
    PushlR EBP; PushlR EBX; PushlR ESI; PushlR EDI;
    MovlRM ESP EAX; MovlRR EDX ESP;
    PoplR EDI; PoplR ESI; PoplR EBX; PoplR EBP; Ret ].

(** The handler [vector<i>]; the processor pushes an error code for some. *)
Definition pushes_error (i : nat) : bool :=
  bool_decide (i = 8%nat) || bool_decide (10 ≤ i ≤ 14)%nat || bool_decide (i = 17%nat).
Definition vector `{CodeLayout} (i : nat) : list instr :=
  (if pushes_error i then [] else [PushlI 0]) ++ [PushlI (Z.of_nat i); Jmp a_alltraps].

Definition alltraps `{CodeLayout} : list instr :=
  [ PushlS DS; PushlS ES; PushlS FS; PushlS GS; Pushal;
    MovwI (Z.shiftl SEG_KDATA 3) EAX; MovwRS EAX DS; MovwRS EAX ES;
    PushlR ESP; Call a_trap a_traped ].
Definition trapret : list instr := [ Popal; PoplS GS; PoplS FS; PoplS ES; PoplS DS; AddlI 8 ESP; Iret ].
(** The code after [call trap], which falls through to [trapret]. *)
Definition alltraps_end : list instr := AddlI 4 ESP :: trapret.

(** A stub of src/usys.S up to its [int $T_SYSCALL], and after it. *)
Definition usys (num : Z) : list instr := [ MovlI num EAX ].
Definition usys_end : list instr := [ Ret ].

(** The system calls of src/syscall.h in the order of their numbers, from 1 on. *)
Definition SYS : list string :=
  [ "fork"; "exit"; "wait"; "pipe"; "read"; "kill"; "exec"; "fstat"; "chdir"; "dup"; "getpid"; "sbrk"; "sleep"; "uptime"; "open"; "write";
    "mknod"; "unlink"; "link"; "mkdir"; "close"; "toggle"; "add"; "ps"; "setpriority"; "getpriority" ]%string.
Definition SYS_num (name : string) : option Z := (λ p, Z.of_nat p.1 + 1) <$> list_find (λ n, n = name) SYS.
(** The stubs of src/usys.S. *)
Definition stub_names : list string :=
  [ "fork"; "exit"; "wait"; "pipe"; "read"; "write"; "close"; "kill"; "exec"; "open"; "mknod"; "unlink"; "fstat"; "link"; "mkdir"; "chdir";
    "dup"; "getpid"; "sbrk"; "sleep"; "uptime"; "toggle"; "add"; "ps"; "setpriority"; "getpriority" ]%string.
Definition stub (name : string) : option (list instr) := usys <$> SYS_num name.

(** src/initcode.S up to its first [int], with the addresses of its data. *)
Definition initcode_start (init argv : Z) : list instr := [ PushlI argv; PushlI init; PushlI 0; MovlI 7 EAX ].
(** Its loop after a failed [exec], up to the [int]. *)
Definition initcode_exit : list instr := [ MovlI 2 EAX ].

(** Each of the numbers 1 to 26 has one stub. *)
Lemma stubs_complete : omap SYS_num stub_names ≡ₚ seqZ 1 26.
Proof.
  apply NoDup_Permutation; [by apply (bool_decide_eq_true_1 _)|apply NoDup_seqZ|].
  assert (Forall (λ x, x ∈ seqZ 1 26) (omap SYS_num stub_names) ∧ Forall (λ x, x ∈ omap SYS_num stub_names) (seqZ 1 26)) as [H1 H2]
    by (split; by apply (bool_decide_eq_true_1 _)).
  rewrite Forall_forall in H1, H2. intros x. split; [apply H1|apply H2].
Qed.

(** ** The structs in memory *)

Definition tf_at (m : Z → Z) (a : Z) : trapframe :=
  Trapframe (m a) (m (a + 4)) (m (a + 8)) (m (a + 12)) (m (a + 16)) (m (a + 20)) (m (a + 24)) (m (a + 28))
    (u16 (m (a + 32))) (u16 (m (a + 36))) (u16 (m (a + 40))) (u16 (m (a + 44))) (m (a + 48)) (m (a + 52)) (m (a + 56))
    (u16 (m (a + 60))) (m (a + 64)) (m (a + 68)) (u16 (m (a + 72))).
Definition code_addr `{CodeLayout} (c : codeptr) : Z :=
  match c with CodeNull => 0 | CodeForkret => a_forkret | CodeTrapret => a_trapret | CodeAt a => a end.
(** The words of a [struct context]. *)
Definition ctx_words `{CodeLayout} (c : context) : list Z := [ctx_edi c; ctx_esi c; ctx_ebx c; ctx_ebp c; code_addr (ctx_eip c)].
Fixpoint words_at (m : Z → Z) (a : Z) (ws : list Z) : Prop :=
  match ws with [] => True | w :: ws' => m a = w ∧ words_at m (a + 4) ws' end.

Lemma words_lookup m a ws i w x : words_at m a ws → ws !! i = Some w → x = a + 4 * Z.of_nat i → m x = w.
Proof.
  revert a i. induction ws as [|w' ws IH]; intros a i Hw Hi ->; [done|]. destruct Hw as [H1 H2], i as [|i].
  - injection Hi as <-. rewrite <- H1. f_equal. lia.
  - eapply (IH (a + 4) i); [done|done|lia].
Qed.

Lemma tf_at_ext m m' a : (∀ x, a ≤ x < a + 76 → m x = m' x) → tf_at m a = tf_at m' a.
Proof. intros H. unfold tf_at. by rewrite !H by lia. Qed.

(** * Steps *)

(** A stack pointer with [n] words below it. *)
Definition room (sp n : Z) : Prop := sp mod 4 = 0 ∧ 4 * n ≤ sp < 4294967296.

Lemma aligned_true a : a mod 4 = 0 → aligned a = true.
Proof. intros H. by apply bool_decide_true. Qed.
Lemma poke_eq a v m : poke a v m a = v.
Proof. unfold poke. by rewrite bool_decide_true. Qed.
Lemma poke_same a v m x : x = a → poke a v m x = v.
Proof. intros ->. apply poke_eq. Qed.
Lemma poke_ne a v m x : x ≠ a → poke a v m x = m x.
Proof. intros H. unfold poke. by rewrite bool_decide_false. Qed.

Lemma push_run v s n : room (x_esp s) n → 1 ≤ n → push v s = Some (set_mem (poke (x_esp s - 4) v (x_mem s)) (set_reg ESP (x_esp s - 4) s)).
Proof.
  intros [Hm Hr] Hn. unfold push, store. rewrite u32_small by lia. rewrite aligned_true by (Z.div_mod_to_equations; lia). by destruct s.
Qed.
Lemma pop_run s : x_esp s mod 4 = 0 → 0 ≤ x_esp s → x_esp s + 4 < 4294967296 → pop s = Some (x_mem s (x_esp s), set_reg ESP (x_esp s + 4) s).
Proof. intros Hm H1 H2. unfold pop, load. rewrite aligned_true, u32_small by lia. done. Qed.

(** Running code on a stack that is described by offsets from [t]. *)
Ltac word_ok := unfold room in *; Z.div_mod_to_equations; lia.
Ltac next_sp sp n :=
  lazymatch sp with
  | ?t + ?k => let k' := eval vm_compute in (k + n) in constr:(t + k')
  | ?t => constr:(t + n)
  end.

Lemma push_at v a c d b sp sp' bp si di cs ds es fs gs ss ip fl m :
  sp' = sp - 4 → sp' mod 4 = 0 → 0 ≤ sp' < 4294967296 →
  push v (X86 a c d b sp bp si di cs ds es fs gs ss ip fl m) = Some (X86 a c d b sp' bp si di cs ds es fs gs ss ip fl (poke sp' v m)).
Proof. intros -> Hm Hr. unfold push, store. cbn [x_esp]. rewrite u32_small by done. rewrite aligned_true by done. done. Qed.
Lemma selector_kept `{SelectorPush} sel old : 0 ≤ sel < 65536 → u16 (selector_word sel old) = sel.
Proof.
  intros Hs. unfold selector_word, u16. destruct push_zero_extends; [by rewrite Z.mod_small|].
  rewrite (Z.mul_comm 65536), Z.mod_add by lia. by apply Z.mod_small.
Qed.

Lemma push_sel_at `{SelectorPush} v a c d b sp sp' bp si di cs ds es fs gs ss ip fl m :
  sp' = sp - 4 → sp' mod 4 = 0 → 0 ≤ sp' < 4294967296 → 0 ≤ v < 65536 →
  ∃ w, push_sel v (X86 a c d b sp bp si di cs ds es fs gs ss ip fl m)
       = Some (X86 a c d b sp' bp si di cs ds es fs gs ss ip fl (poke sp' w m)) ∧ u16 w = v.
Proof.
  intros E Hm Hr Hv. unfold push_sel. cbn [x_esp x_mem]. rewrite (u32_small (sp - 4)) by lia. rewrite <- E. eexists.
  split; [by apply push_at|by apply selector_kept].
Qed.
Lemma pop_at a c d b sp sp' bp si di cs ds es fs gs ss ip fl m :
  sp' = sp + 4 → sp mod 4 = 0 → 0 ≤ sp → sp' < 4294967296 →
  pop (X86 a c d b sp bp si di cs ds es fs gs ss ip fl m) = Some (m sp, X86 a c d b sp' bp si di cs ds es fs gs ss ip fl m).
Proof. intros -> Hm H1 H2. unfold pop, load. cbn [x_esp]. rewrite aligned_true, u32_small by lia. done. Qed.

Ltac xsimpl :=
  cbn [exec step1 pop_reg get_reg set_reg get_sreg set_sreg set_eip set_flags set_mem foldl mbind option_bind
       x_eax x_ecx x_edx x_ebx x_esp x_ebp x_esi x_edi x_cs x_ds x_es x_fs x_gs x_ss x_eip x_eflags x_mem].
Ltac xpush :=
  match goal with
  | |- context [push ?v (X86 ?a ?c ?d ?b ?sp ?bp ?si ?di ?cs ?ds ?es ?fs ?gs ?ss ?ip ?fl ?m)] =>
      let sp' := next_sp sp (-4) in rewrite (push_at v a c d b sp sp' bp si di cs ds es fs gs ss ip fl m) by word_ok
  end; xsimpl.
Ltac xpush_sel w Hw :=
  match goal with
  | |- context [push_sel ?v (X86 ?a ?c ?d ?b ?sp ?bp ?si ?di ?cs ?ds ?es ?fs ?gs ?ss ?ip ?fl ?m)] =>
      let sp' := next_sp sp (-4) in let E := fresh in
      destruct (push_sel_at v a c d b sp sp' bp si di cs ds es fs gs ss ip fl m) as (w & E & Hw); [word_ok..|assumption|]; rewrite E; clear E
  end; xsimpl.
Ltac xpop :=
  match goal with
  | |- context [pop (X86 ?a ?c ?d ?b ?sp ?bp ?si ?di ?cs ?ds ?es ?fs ?gs ?ss ?ip ?fl ?m)] =>
      let sp' := next_sp sp 4 in rewrite (pop_at a c d b sp sp' bp si di cs ds es fs gs ss ip fl m) by word_ok
  end; xsimpl.
(** Reading through writes. *)
Ltac peek := repeat ((rewrite poke_same by lia) || (rewrite poke_ne by lia)).
(** Reading words one by one. *)
Ltac words := cbn [words_at]; split_and!; [peek; lia..|exact I].

Section code.
Context {SP : SelectorPush} {CL : CodeLayout}.

Lemma alltraps_run a c d b t bp si di cs ds es fs gs ss ip fl m :
  room t 2 → t + 48 < 4294967296 → 0 ≤ gs < 65536 → 0 ≤ fs < 65536 → 0 ≤ es < 65536 → 0 ≤ ds < 65536 →
  ∃ m' wg wf we wd, exec alltraps (X86 a c d b (t + 48) bp si di cs ds es fs gs ss ip fl m)
      = Some (X86 (a / 65536 * 65536 + 16) c d b (t + -8) bp si di cs 16 16 fs gs ss a_trap fl m') ∧
    words_at m' (t + -8) [a_traped; t; di; si; bp; t + 32; b; d; c; a; wg; wf; we; wd] ∧
    u16 wg = gs ∧ u16 wf = fs ∧ u16 we = es ∧ u16 wd = ds ∧ ∀ x, x < t + -8 ∨ t + 48 ≤ x → m' x = m x.
Proof.
  intros Hr Ht Hg Hf He Hd. unfold alltraps. xsimpl.
  xpush_sel wd Hwd. xpush_sel we Hwe. xpush_sel wf Hwf. xpush_sel wg Hwg. unfold pushal. xsimpl. do 8 xpush.
  change (Z.shiftl SEG_KDATA 3) with 16.
  assert (u16 (a / 65536 * 65536 + 16) = 16) as -> by (unfold u16; Z.div_mod_to_equations; lia).
  do 2 xpush. eexists _, wg, wf, we, wd. split; [reflexivity|]. split_and!; [|done..|].
  - words.
  - intros x Hx. by peek.
Qed.

(** [trapret] on a frame at [t], to user or to kernel code. *)
Definition resumed (s : x86) (t : Z) : x86 :=
  let f := tf_at (x_mem s) t in
  let user := bool_decide (tf_cs f mod 4 = 3) in
  X86 (tf_eax f) (tf_ecx f) (tf_edx f) (tf_ebx f) (if user then tf_esp f else t + 68) (tf_ebp f) (tf_esi f) (tf_edi f)
    (tf_cs f) (tf_ds f) (tf_es f) (tf_fs f) (tf_gs f) (if user then tf_ss f else x_ss s) (tf_eip f) (tf_eflags f) (x_mem s).

Lemma trapret_run s t :
  x_esp s = t → room t 0 → t + 76 < 4294967296 → cpl s = 0 → tf_cs (tf_at (x_mem s) t) mod 4 ∈ [0; 3] →
  exec trapret s = Some (resumed s t).
Proof.
  intros Et Hr Ht Hc Hcs. destruct s as [a c d b sp bp si di cs ds es fs gs ss ip fl m]. cbn in Et, Hc, Hcs. subst sp. unfold trapret, resumed, tf_at. cbv zeta.
  cbn [tf_edi tf_esi tf_ebp tf_ebx tf_edx tf_ecx tf_eax tf_gs tf_fs tf_es tf_ds tf_eip tf_cs tf_eflags tf_esp tf_ss]. xsimpl. unfold popal, pop_reg. xsimpl. do 8 xpop. do 4 xpop.
  assert (u32 (t + 48 + 8) = t + 56) as -> by (rewrite u32_small; [lia|unfold room in *; lia]). unfold iret. do 3 xpop. unfold cpl in *. cbn [x_cs] in *. rewrite Hc.
  apply elem_of_cons in Hcs as [E|E%list_elem_of_singleton]; rewrite E.
  - rewrite !bool_decide_false by done. done.
  - rewrite !bool_decide_true by done. do 2 xpop. done.
Qed.

Lemma alltraps_end_run s t :
  x_esp s = t - 4 → room t 1 → t + 76 < 4294967296 → cpl s = 0 → tf_cs (tf_at (x_mem s) t) mod 4 ∈ [0; 3] →
  exec alltraps_end s = Some (resumed s t).
Proof.
  intros Et Hr Ht Hc Hcs. unfold alltraps_end. change (exec (AddlI 4 ESP :: trapret) s) with (exec trapret (set_reg ESP (u32 (x_esp s + 4)) s)).
  rewrite Et, Z.sub_add, u32_small by (unfold room in *; lia). rewrite (trapret_run _ t); destruct s; try done. cbn. unfold room in *; lia.
Qed.

(** * The switch *)

(** [swtch(old, new)] called with the return address on top of the stack. *)
Lemma swtch_run a c d b t bp si di cs ds es fs gs ss ip fl m ra old new rdi rsi rbx rbp rip :
  room t 4 → t + 12 < 4294967296 → m t = ra → m (t + 4) = old → m (t + 8) = new → old mod 4 = 0 → room new 0 → new + 20 < 4294967296 →
  words_at m new [rdi; rsi; rbx; rbp; rip] → (∀ x, new ≤ x < new + 20 → x ≠ old ∧ ¬ t - 16 ≤ x < t) →
  exec swtch (X86 a c d b t bp si di cs ds es fs gs ss ip fl m)
  = Some (X86 old c new rbx (new + 20) rbp rsi rdi cs ds es fs gs ss rip fl
      (poke old (t - 16) (poke (t - 16) di (poke (t - 12) si (poke (t - 8) b (poke (t - 4) bp m)))))).
Proof.
  intros Hr Ht Hra Hold Hnew Hom Hnr Hnt (W1 & W2 & W3 & W4 & W5 & _) Hdis. unfold swtch. xsimpl. unfold load, pop_reg. xsimpl.
  rewrite (u32_small (t + 4)), (aligned_true (t + 4)) by word_ok. xsimpl.
  rewrite (u32_small (t + 8)), (aligned_true (t + 8)) by word_ok. xsimpl. rewrite Hold, Hnew. do 4 xpush.
  unfold store. rewrite (aligned_true old) by done. xsimpl. do 5 xpop.
  assert (∀ k, 0 ≤ k < 20 → poke old (t + -16) (poke (t + -16) di (poke (t + -12) si (poke (t + -8) b (poke (t + -4) bp m)))) (new + k) = m (new + k)) as E.
  { intros k Hk. destruct (Hdis (new + k)) as [H1 H2]; [lia|]. by peek. }
  pose proof (E 0 ltac:(lia)) as E0. rewrite Z.add_0_r in E0. rewrite E0, !E by lia. rewrite W1. replace (new + 8) with (new + 4 + 4) by lia. replace (new + 12) with (new + 4 + 4 + 4) by lia.
  replace (new + 16) with (new + 4 + 4 + 4 + 4) by lia. by rewrite W2, W3, W4, W5.
Qed.

(** * Traps *)

(** The selectors are 16 bits wide, and the code is user or kernel code. *)
Definition selectors_ok (s : x86) : Prop :=
  (∀ r, 0 ≤ get_sreg r s < 65536) ∧ (cpl s = 0 ∨ cpl s = 3).

Definition from_user (s : x86) : bool := bool_decide (cpl s = 3).
(** The trap frame of a trap in state [s]: at the end of the kernel stack of
    the process, or below the stack pointer. *)
Definition frame_addr (kstack : Z) (s : x86) : Z :=
  if from_user s then kstack + KSTACKSIZE - sizeof_trapframe else x_esp s - 68.
Definition entry_flags (n : nat) (fl : Z) : Z := Z.ldiff fl (if bool_decide (n = Z.to_nat T_SYSCALL) then 213248 else 213760).

Section traps.
Context (vectors : nat → Z) (tsaddr kstack : Z) (gdt : list segdesc) (idt : list gatedesc).
Hypothesis Hgdt : length gdt = Z.to_nat NSEGS.
Hypothesis Hidt : length idt = 256%nat.
Hypothesis Hvec : ∀ n, 0 ≤ vectors n < 4294967296.
Abbreviation tables := (kernel_tables vectors tsaddr kstack gdt idt).

Lemma enter_run software n err s :
  (n < 256)%nat → selectors_ok s → (software = true → from_user s = true → n = Z.to_nat T_SYSCALL) → pushes_error n = bool_decide (is_Some err) →
  let t := frame_addr kstack s in room t 2 → t + 76 < 4294967296 →
  ∃ s1 m' wcs wss, trap_entry tables software n err s = Some s1 ∧ x_eip s1 = vectors n ∧
    exec (vector n) s1 = Some (X86 (x_eax s) (x_ecx s) (x_edx s) (x_ebx s) (t + 48) (x_ebp s) (x_esi s) (x_edi s)
      8 (x_ds s) (x_es s) (x_fs s) (x_gs s) (if from_user s then 16 else x_ss s) a_alltraps (entry_flags n (x_eflags s)) m') ∧
    words_at m' (t + 48) ([Z.of_nat n; default 0 err; x_eip s; wcs; x_eflags s] ++ if from_user s then [x_esp s; wss] else []) ∧
    u16 wcs = x_cs s ∧ u16 wss = x_ss s ∧ ∀ x, x < t + 48 ∨ t + (if from_user s then 76 else 68) ≤ x → m' x = x_mem s x.
Proof.
  intros Hn [Hsel Hcpl] Hsw Herr t Hr Ht. destruct s as [a c d b sp bp si di cs ds es fs gs ss ip fl m].
  pose proof (Hsel CS) as HCS. pose proof (Hsel SS) as HSS. cbn [get_sreg x_cs x_ss] in HCS, HSS. unfold trap_entry.
  rewrite deliver_run by (done || (destruct Hcpl; lia)).
  assert (software && negb (bool_decide (n = Z.to_nat T_SYSCALL)) && bool_decide (0 < cpl (X86 a c d b sp bp si di cs ds es fs gs ss ip fl m)) = false) as ->.
  { destruct software; [|done]. unfold from_user in Hsw. destruct Hcpl as [->| E]; [by rewrite andb_false_r|].
    rewrite (bool_decide_true (n = _)); [done|]. apply Hsw; [done|]. by apply bool_decide_true. }
  unfold entry_flags. cbn [e_stack e_keepif e_eip e_cs]. unfold vector. rewrite Herr. set (keep := bool_decide (n = Z.to_nat T_SYSCALL)). clearbody keep.
  assert (from_user (X86 a c d b sp bp si di cs ds es fs gs ss ip fl m) = bool_decide (0 < cpl (X86 a c d b sp bp si di cs ds es fs gs ss ip fl m))) as Eu
    by (unfold from_user; destruct Hcpl as [-> | ->]; done).
  assert (t = if from_user (X86 a c d b sp bp si di cs ds es fs gs ss ip fl m) then kstack + KSTACKSIZE - sizeof_trapframe else sp - 68) as Et by done.
  clearbody t. rewrite Eu in Et |- *. clear Hsel Hsw Hcpl Eu. destruct (bool_decide (0 < _)).
  - assert (u32 (kstack + KSTACKSIZE) = t + 76) as -> by (unfold sizeof_trapframe, KSTACKSIZE, room in *; rewrite u32_small; lia). xsimpl.
    xpush_sel wss Hss. xpush. xpush. xpush_sel wcs Hcs. xpush. destruct err as [e|]; [change (default 0 (Some e)) with e|change (default 0 (@None Z)) with 0]; xsimpl.
    + xpush. eexists _, _, wcs, wss. split; [reflexivity|]. split; [reflexivity|]. rewrite bool_decide_true by done. cbn [app]. xsimpl. xpush. split; [reflexivity|].
      split; [cbn [app default]; words|]. split_and!; [done..|]. intros x Hx. by peek.
    + eexists _, _, wcs, wss. split; [reflexivity|]. split; [reflexivity|]. rewrite bool_decide_false by (by intros []). cbn [app]. xsimpl. do 2 xpush. split; [reflexivity|].
      split; [cbn [app default]; words|]. split_and!; [done..|]. intros x Hx. by peek.
  - assert (sp = t + 68) as Esp by lia. clear Et. xsimpl. rewrite Esp. xpush. xpush_sel wcs Hcs. xpush. destruct err as [e|]; [change (default 0 (Some e)) with e|change (default 0 (@None Z)) with 0]; xsimpl.
    + xpush. eexists _, _, wcs, ss. split; [reflexivity|]. split; [reflexivity|]. rewrite bool_decide_true by done. cbn [app]. xsimpl. xpush. split; [reflexivity|].
      split; [cbn [app default]; words|]. split_and!; [done|by apply Z.mod_small|]. intros x Hx. by peek.
    + eexists _, _, wcs, ss. split; [reflexivity|]. split; [reflexivity|]. rewrite bool_decide_false by (by intros []). cbn [app]. xsimpl. do 2 xpush. split; [reflexivity|].
      split; [cbn [app default]; words|]. split_and!; [done|by apply Z.mod_small|]. intros x Hx. by peek.
Qed.

(** What the trap saves. *)
Definition trap_frame (n : nat) (err : option Z) (s : x86) : trapframe :=
  let t := frame_addr kstack s in
  Trapframe (x_edi s) (x_esi s) (x_ebp s) (t + 32) (x_ebx s) (x_edx s) (x_ecx s) (x_eax s)
    (x_gs s) (x_fs s) (x_es s) (x_ds s) (Z.of_nat n) (default 0 err) (x_eip s) (x_cs s) (x_eflags s)
    (if from_user s then x_esp s else x_mem s (t + 68)) (if from_user s then x_ss s else u16 (x_mem s (t + 72))).

(** The frame from what was pushed. *)
Lemma frame_saved n err s m1 m3 wcs wss wg wf we wd :
  let t := frame_addr kstack s in
  words_at m3 (t + -8) [a_traped; t; x_edi s; x_esi s; x_ebp s; t + 32; x_ebx s; x_edx s; x_ecx s; x_eax s; wg; wf; we; wd] →
  u16 wg = x_gs s → u16 wf = x_fs s → u16 we = x_es s → u16 wd = x_ds s → (∀ x, x < t + -8 ∨ t + 48 ≤ x → m3 x = m1 x) →
  words_at m1 (t + 48) ([Z.of_nat n; default 0 err; x_eip s; wcs; x_eflags s] ++ if from_user s then [x_esp s; wss] else []) →
  u16 wcs = x_cs s → u16 wss = x_ss s → (∀ x, x < t + 48 ∨ t + (if from_user s then 76 else 68) ≤ x → m1 x = x_mem s x) →
  tf_at m3 t = trap_frame n err s.
Proof.
  intros t W3 Hg Hf He Hd H3 W1 Hcs Hss H1.
  pose proof (λ i w x, words_lookup _ _ _ i w x W3) as A. pose proof (λ i w x, words_lookup _ _ _ i w x W1) as B. clear W1 W3.
  unfold tf_at, trap_frame. fold t. f_equal;
    [apply (A 2%nat)|apply (A 3%nat)|apply (A 4%nat)|apply (A 5%nat)|apply (A 6%nat)|apply (A 7%nat)|apply (A 8%nat)|apply (A 9%nat)
    |rewrite <- Hg; f_equal; apply (A 10%nat)|rewrite <- Hf; f_equal; apply (A 11%nat)
    |rewrite <- He; f_equal; apply (A 12%nat)|rewrite <- Hd; f_equal; apply (A 13%nat)
    |rewrite H3 by lia; apply (B 0%nat)|rewrite H3 by lia; apply (B 1%nat)|rewrite H3 by lia; apply (B 2%nat)
    |rewrite <- Hcs; f_equal; rewrite H3 by lia; apply (B 3%nat)|rewrite H3 by lia; apply (B 4%nat)|rewrite H3 by lia|rewrite H3 by lia]; try done; try lia.
  - destruct (from_user s); [apply (B 5%nat); [done|lia]|apply H1; lia].
  - destruct (from_user s); [rewrite <- Hss; f_equal; apply (B 6%nat); [done|lia]|f_equal; apply H1; lia].
Qed.

Lemma resumed_same n err s s4 v :
  selectors_ok s → let t := frame_addr kstack s in
  tf_at (x_mem s4) t = set_eax v (trap_frame n err s) → (from_user s = false → x_ss s4 = x_ss s) →
  resumed s4 t = set_reg EAX v (set_mem (x_mem s4) s).
Proof.
  intros [_ Hcpl] t E Hss. unfold resumed. fold t in E. rewrite E. unfold trap_frame, from_user, frame_addr, cpl in *. destruct s as [a c d b sp bp si di cs ds es fs gs ss ip fl m]. cbn in *.
  case_bool_decide as Hu; [done|]. rewrite Hss by done. f_equal. unfold t, frame_addr, from_user, cpl. cbn. rewrite bool_decide_false by done. lia.
Qed.

Lemma trap_run software n err s :
  (n < 256)%nat → selectors_ok s → (software = true → from_user s = true → n = Z.to_nat T_SYSCALL) → pushes_error n = bool_decide (is_Some err) →
  let t := frame_addr kstack s in room t 2 → t + 76 < 4294967296 →
  ∃ s1 s2 s3, trap_entry tables software n err s = Some s1 ∧ x_eip s1 = vectors n ∧
    exec (vector n) s1 = Some s2 ∧ x_eip s2 = a_alltraps ∧ exec alltraps s2 = Some s3 ∧ x_eip s3 = a_trap ∧
    cpl s3 = 0 ∧ x_ds s3 = 16 ∧ x_es s3 = 16 ∧ x_eflags s3 = entry_flags n (x_eflags s) ∧
    x_esp s3 = t - 8 ∧ words_at (x_mem s3) (t - 8) [a_traped; t] ∧ tf_at (x_mem s3) t = trap_frame n err s ∧
    (∀ x, x < t - 8 ∨ t + (if from_user s then 76 else 68) ≤ x → x_mem s3 x = x_mem s x) ∧
    ∀ s4 v, x_esp s4 = t - 4 → cpl s4 = 0 → x_ss s4 = x_ss s3 → tf_at (x_mem s4) t = set_eax v (trap_frame n err s) →
      exec alltraps_end s4 = Some (set_reg EAX v (set_mem (x_mem s4) s)).
Proof.
  intros Hn Hsel Hsw Herr t Hr Ht. destruct (enter_run software n err s Hn Hsel Hsw Herr Hr Ht) as (s1 & m1 & wcs & wss & E1 & Ev & E2 & W & Hcs & Hss & Hout).
  fold t in E2, W, Hout. pose proof Hsel as [Hrange Hcpl].
  destruct (alltraps_run (x_eax s) (x_ecx s) (x_edx s) (x_ebx s) t (x_ebp s) (x_esi s) (x_edi s) 8 (x_ds s) (x_es s) (x_fs s) (x_gs s)
    (if from_user s then 16 else x_ss s) a_alltraps (entry_flags n (x_eflags s)) m1) as (m3 & wg & wf & we & wd & E3 & W3 & Hg & Hf & He & Hd & Hout3);
    [done|lia|exact (Hrange GS)|exact (Hrange FS)|exact (Hrange ES)|exact (Hrange DS)|].
  eexists s1, _, _. split; [exact E1|]. split; [done|]. split; [exact E2|]. split; [done|]. split; [exact E3|]. cbn [x_eip x_ds x_es x_eflags x_esp x_mem x_ss].
  assert (tf_at m3 t = trap_frame n err s) as Hf3.
  { exact (frame_saved n err s m1 m3 wcs wss wg wf we wd W3 Hg Hf He Hd Hout3 W Hcs Hss Hout). }
  split_and!; try done.
  - destruct W3 as (A1 & A2 & _). exact (conj A1 (conj A2 I)).
  - intros x Hx. rewrite Hout3 by (destruct (from_user s); lia). apply Hout. destruct (from_user s); lia.
  - intros s4 v Hsp Hc Hsseg Htf. rewrite (alltraps_end_run s4 t); [|done|unfold room in *; lia|done|done|].
    + f_equal. apply (resumed_same n err s s4 v Hsel Htf). intros Hu. rewrite Hsseg. by rewrite Hu.
    + rewrite Htf. cbn. unfold cpl in Hcpl. set_solver.
Qed.

(** C25: A trap saves the interrupted code and returns to it.  Under the
    tables of the kernel let trap [n] come in user or kernel code [s] (from an
    [int] in user code only for a system call), with an error code exactly for
    the vectors that the processor gives one.  Then the processor enters the
    vector of [n], and the vector and [alltraps] call [trap], with kernel
    segments and privilege, and with a pointer to a [struct trapframe]
    that holds all registers of [s], the trap number and the error code (0 if
    there is none): at the end of the process's kernel stack if [s] is user
    code, below the stack pointer otherwise.  No memory outside of this stack
    changes.  When [trap] returns and has left the frame but for [eax], the
    code that follows continues [s] with every register as it was, but for
    that [eax]. *)
Theorem trap_roundtrip software n err s :
  (n < 256)%nat → selectors_ok s → (software = true → from_user s = true → n = Z.to_nat T_SYSCALL) → pushes_error n = bool_decide (is_Some err) →
  let t := frame_addr kstack s in room t 2 → t + 76 < 4294967296 →
  ∃ s1 s2 s3, trap_entry tables software n err s = Some s1 ∧ x_eip s1 = vectors n ∧
    exec (vector n) s1 = Some s2 ∧ x_eip s2 = a_alltraps ∧ exec alltraps s2 = Some s3 ∧ x_eip s3 = a_trap ∧
    cpl s3 = 0 ∧ x_ds s3 = 16 ∧ x_es s3 = 16 ∧ x_eflags s3 = entry_flags n (x_eflags s) ∧
    x_esp s3 = t - 8 ∧ words_at (x_mem s3) (t - 8) [a_traped; t] ∧ tf_at (x_mem s3) t = trap_frame n err s ∧
    (∀ x, x < t - 8 ∨ t + (if from_user s then 76 else 68) ≤ x → x_mem s3 x = x_mem s x) ∧
    ∀ s4 v, x_esp s4 = t - 4 → cpl s4 = 0 → x_ss s4 = x_ss s3 → tf_at (x_mem s4) t = set_eax v (trap_frame n err s) →
      exec alltraps_end s4 = Some (set_reg EAX v (set_mem (x_mem s4) s)).
Proof. apply trap_run. Qed.

(** * System calls *)

(** An [int $T_SYSCALL] in user code that has a return address and arguments
    on its stack, as the kernel and then the code itself see it. *)
Definition syscall_made (s : x86) (args : list Z) : Prop :=
  let t := frame_addr kstack s in
  ∃ s1 s2 s3, trap_entry tables true (Z.to_nat T_SYSCALL) None s = Some s1 ∧
    exec (vector (Z.to_nat T_SYSCALL)) s1 = Some s2 ∧ exec alltraps s2 = Some s3 ∧ x_eip s3 = a_trap ∧
    let f := tf_at (x_mem s3) t in
    tf_trapno f = T_SYSCALL ∧ tf_eax f = x_eax s ∧
    (∀ i w, args !! i = Some w → x_mem s (tf_esp f + 4 + 4 * Z.of_nat i) = w) ∧
    ∀ s4 v, x_esp s4 = t - 4 → cpl s4 = 0 → x_ss s4 = x_ss s3 → tf_at (x_mem s4) t = set_eax v f →
      exec alltraps_end s4 = Some (set_reg EAX v (set_mem (x_mem s4) s)).

Lemma syscall_trap s ra args :
  selectors_ok s → from_user s = true → words_at (x_mem s) (x_esp s) (ra :: args) →
  let t := frame_addr kstack s in room t 2 → t + 76 < 4294967296 → syscall_made s args.
Proof.
  intros Hsel Hu [_ Hargs] t Ht1 Ht2.
  destruct (trap_run true (Z.to_nat T_SYSCALL) None s) as (s1 & s2 & s3 & E1 & _ & E2 & _ & E3 & Eip & _ & _ & _ & _ & _ & _ & Hf & _ & Hret);
    [change (Z.to_nat T_SYSCALL) with 64%nat; lia|done|done|by vm_compute|done|done|].
  exists s1, s2, s3. split; [exact E1|]. split; [exact E2|]. split; [exact E3|]. split; [exact Eip|]. fold t in Hf, Hret |- *. cbv zeta. rewrite Hf.
  unfold trap_frame. rewrite Hu. cbn [tf_trapno tf_eax tf_esp]. split; [done|]. split; [done|]. split.
  - intros i w Hi. by apply (words_lookup _ _ _ i w _ Hargs Hi).
  - intros s4 v H1 H2 H3 H4. apply Hret; [done|done|done|]. rewrite H4. unfold trap_frame. by rewrite Hu.
Qed.

(** C28: A system call from C.  Let user code call a stub of src/usys.S, with
    its return address and the arguments on the stack.  The stub puts its
    number into [eax] and traps; [trap] sees number 64, the call's number in
    the [eax] of the frame, and argument [i] at the address that [argint(i)]
    computes from the [esp] of the frame.  When [trap] returns with the value
    [v] in the frame's [eax] and the stack of the user as it was, the stub
    returns [v] to its caller, with all other registers as at the call. *)
Theorem syscall_stub num s ra args :
  selectors_ok s → from_user s = true → room (x_esp s) 0 → x_esp s + 4 < 4294967296 → words_at (x_mem s) (x_esp s) (ra :: args) →
  let t := frame_addr kstack s in room t 2 → t + 76 < 4294967296 →
  ∃ s0, exec (usys num) s = Some s0 ∧ x_eax s0 = num ∧ x_esp s0 = x_esp s ∧ syscall_made s0 args ∧
    ∀ m v, m (x_esp s) = ra →
      exec usys_end (set_reg EAX v (set_mem m s0)) = Some (set_eip ra (set_reg ESP (x_esp s + 4) (set_reg EAX v (set_mem m s)))).
Proof.
  intros Hsel Hu Hr Hsp Hw t Ht1 Ht2. exists (set_reg EAX num s). split; [done|]. destruct s as [a c d b sp bp si di cs ds es fs gs ss ip fl m]. cbn in *.
  split; [done|]. split; [done|]. split; [by apply (syscall_trap _ ra)|]. intros m' v Hra. unfold pop, load. cbn.
  rewrite aligned_true, u32_small by (unfold room in *; lia). cbn. by rewrite Hra.
Qed.

(** The first process: its first system call is [exec(init, argv)]. *)
Theorem initcode_execs init argv s :
  selectors_ok s → from_user s = true → room (x_esp s) 3 →
  let t := frame_addr kstack s in room t 2 → t + 76 < 4294967296 →
  ∃ s0, exec (initcode_start init argv) s = Some s0 ∧ x_eax s0 = 7 ∧ x_esp s0 = x_esp s - 12 ∧ syscall_made s0 [init; argv].
Proof.
  intros Hsel Hu Hr t Ht1 Ht2. destruct s as [a c d b sp bp si di cs ds es fs gs ss ip fl m]. cbn [x_esp] in *. eexists. split.
  - unfold initcode_start. xsimpl. do 3 xpush. reflexivity.
  - cbn [x_eax x_esp]. split; [done|]. split; [lia|]. unfold t, frame_addr in Ht1, Ht2. rewrite Hu in Ht1, Ht2.
    apply (syscall_trap _ 0); [exact Hsel|exact Hu| |unfold frame_addr; by change (from_user _) with (from_user (X86 a c d b sp bp si di cs ds es fs gs ss ip fl m)); rewrite Hu..]. cbn [x_mem x_esp words_at]. split_and!; [peek; done..|done].
Qed.
End traps.

(** * Context switches *)

(** [swtch(old, new)] has been called in [s]; neither [old] nor the stack in
    use is in the context at [new]. *)
Record swtch_called (s : x86) (ra old new : Z) : Prop := SwtchCalled {
  sc_room : room (x_esp s) 4;
  sc_top : x_esp s + 12 < 4294967296;
  sc_args : words_at (x_mem s) (x_esp s) [ra; old; new];
  sc_old : old mod 4 = 0;
  sc_new : room new 0 ∧ new + 20 < 4294967296;
  sc_apart x : new ≤ x < new + 20 → x ≠ old ∧ ¬ x_esp s - 16 ≤ x < x_esp s
}.

Lemma swtch_called_run s ra old new rdi rsi rbx rbp rip :
  swtch_called s ra old new → words_at (x_mem s) new [rdi; rsi; rbx; rbp; rip] → (¬ x_esp s - 16 ≤ old < x_esp s + 4) →
  ∃ s', exec swtch s = Some s' ∧ x_eip s' = rip ∧ x_esp s' = new + 20 ∧ x_ebp s' = rbp ∧ x_ebx s' = rbx ∧ x_esi s' = rsi ∧ x_edi s' = rdi ∧
    x_cs s' = x_cs s ∧ x_mem s' old = x_esp s - 16 ∧ words_at (x_mem s') (x_esp s - 16) [x_edi s; x_esi s; x_ebx s; x_ebp s; ra] ∧
    ∀ x, x ≠ old → ¬ x_esp s - 16 ≤ x < x_esp s → x_mem s' x = x_mem s x.
Proof.
  intros [H1 H2 (A1 & A2 & A3 & _) H4 [H5 H6] H7] Hw Ho. destruct s as [a c d b t bp si di cs ds es fs gs ss ip fl m]. cbn in *.
  replace (t + 4 + 4) with (t + 8) in A3 by lia. eexists. split; [exact (swtch_run a c d b t bp si di cs ds es fs gs ss ip fl m ra old new rdi rsi rbx rbp rip H1 H2 A1 A2 A3 H4 H5 H6 Hw H7)|]. cbn [x_eip x_esp x_ebp x_ebx x_esi x_edi x_cs x_mem]. do 7 (split; [done|]). split; [by peek|]. split.
  - split_and!; [peek; done|peek; done|peek; done|peek; done|peek; rewrite <- A1; f_equal; lia|done].
  - intros x Hx Hne. by peek.
Qed.
(** C26: A switch comes back.  [swtch(old, new)] saves the callee-saved
    registers and the return address of its caller as a [struct context] on
    the caller's stack, its address in [*old], and continues where the context
    [new] says, with the registers saved there and the stack above it.  When
    later code, on any stack, switches to the saved context, which has been
    left alone, the first call returns to its caller, as a C function must:
    with the return address popped and [ebx], [esi], [edi], [ebp] and [esp] as
    at the call. *)
Theorem swtch_resumes s ra old new c :
  swtch_called s ra old new → (¬ x_esp s - 16 ≤ old < x_esp s + 4) → words_at (x_mem s) new (ctx_words c) →
  ∃ s1, exec swtch s = Some s1 ∧ x_eip s1 = code_addr (ctx_eip c) ∧ x_esp s1 = new + sizeof_context ∧
    x_ebp s1 = ctx_ebp c ∧ x_ebx s1 = ctx_ebx c ∧ x_esi s1 = ctx_esi c ∧ x_edi s1 = ctx_edi c ∧
    let saved := x_mem s1 old in
    words_at (x_mem s1) saved (ctx_words (Context (x_edi s) (x_esi s) (x_ebx s) (x_ebp s) (CodeAt ra))) ∧
    (∀ x, x ≠ old → ¬ x_esp s - 16 ≤ x < x_esp s → x_mem s1 x = x_mem s x) ∧
    ∀ s2 ra2 old2, swtch_called s2 ra2 old2 saved → (¬ x_esp s2 - 16 ≤ old2 < x_esp s2 + 4) → (∀ x, saved ≤ x < saved + 20 → x_mem s2 x = x_mem s1 x) →
      ∃ s3, exec swtch s2 = Some s3 ∧ x_eip s3 = ra ∧ x_esp s3 = x_esp s + 4 ∧
        x_ebp s3 = x_ebp s ∧ x_ebx s3 = x_ebx s ∧ x_esi s3 = x_esi s ∧ x_edi s3 = x_edi s ∧
        ∀ x, x ≠ old2 → ¬ x_esp s2 - 16 ≤ x < x_esp s2 → x_mem s3 x = x_mem s2 x.
Proof.
  intros Hc Ho Hw. destruct (swtch_called_run s ra old new _ _ _ _ _ Hc Hw Ho) as (s1 & E & H1 & H2 & H3 & H4 & H5 & H6 & _ & H7 & H8 & H9).
  exists s1. do 7 (split; [done|]). cbv zeta. rewrite H7. split; [done|]. split; [done|]. intros s2 ra2 old2 Hc2 Ho2 Hsame.
  assert (words_at (x_mem s2) (x_esp s - 16) [x_edi s; x_esi s; x_ebx s; x_ebp s; ra]) as Hw2.
  { destruct H8 as (B1 & B2 & B3 & B4 & B5 & _). cbn [words_at]. split_and!; rewrite ?Hsame by lia; done. }
  destruct (swtch_called_run s2 ra2 old2 _ _ _ _ _ _ Hc2 Hw2 Ho2) as (s3 & E3 & J1 & J2 & J3 & J4 & J5 & J6 & _ & _ & _ & J9).
  exists s3. split_and!; try done. rewrite J2. lia.
Qed.

(** The kernel stack of a process that has not run yet. *)
Definition kstack_holds (m : Z → Z) (p : proc) : Prop :=
  words_at m (p_ctxaddr p) (ctx_words (p_context p) ++ [code_addr (p_kret p)]) ∧ tf_at m (p_tfaddr p) = p_tf p.

End code.

(** * Examples *)

#[local] Instance ex_push : SelectorPush := {| push_zero_extends := false |}.
#[local] Instance ex_code : CodeLayout :=
  {| a_alltraps := 2148554000; a_trap := 2148554100; a_traped := 2148554030; a_trapret := 2148554033; a_forkret := 2148550000 |}.
Definition ex_gdt : list segdesc := replicate 6 (Segdesc 0 0 0 0 0 0 0 0 0 0 0 0 0).
Definition ex_idt : list gatedesc := replicate 256 (Gatedesc 0 0 0 0 0 0 0 0 0).
Definition ex_vectors (n : nat) : Z := 2148560896.
Lemma ex_vectors_ok n : 0 ≤ ex_vectors n < 4294967296.
Proof. done. Qed.
(** User code that has called a function with two arguments. *)
Definition ex_user_code : x86 := X86 1 2 3 4 12272 6 7 8 27 35 35 0 0 35 1000 512 (poke 12272 1004 (poke 12276 3 (poke 12280 8192 (λ _, 0)))).
Lemma ex_user_ok : selectors_ok ex_user_code.
Proof. split; [by intros []|by right]. Qed.

Lemma trap_roundtrip_witness :
  let s := ex_user_code in
  ∃ s1 s2 s3, trap_entry (kernel_tables ex_vectors 2148700000 2380267520 ex_gdt ex_idt) false 14 (Some 6) s = Some s1 ∧
    exec (vector 14) s1 = Some s2 ∧ exec alltraps s2 = Some s3 ∧
    tf_at (x_mem s3) 2380271540 = Trapframe 8 7 6 2380271572 4 3 2 1 0 0 35 35 14 6 1000 27 512 12272 35.
Proof.
  destruct (trap_roundtrip ex_vectors 2148700000 2380267520 ex_gdt ex_idt eq_refl eq_refl ex_vectors_ok false 14 (Some 6) ex_user_code
    ltac:(lia) ex_user_ok ltac:(done) ltac:(by vm_compute) ltac:(done) ltac:(done)) as (s1 & s2 & s3 & E1 & _ & E2 & _ & E3 & _ & _ & _ & _ & _ & _ & _ & Hf & _).
  exists s1, s2, s3. exact (conj E1 (conj E2 (conj E3 Hf))).
Defined.

Lemma syscall_stub_witness :
  let s := ex_user_code in
  ∃ s0, exec (usys 5) s = Some s0 ∧ x_eax s0 = 5 ∧ syscall_made ex_vectors 2148700000 2380267520 ex_gdt ex_idt s0 [3; 8192].
Proof.
  destruct (syscall_stub ex_vectors 2148700000 2380267520 ex_gdt ex_idt eq_refl eq_refl ex_vectors_ok 5 ex_user_code 1004 [3; 8192]
    ex_user_ok eq_refl ltac:(done) ltac:(done) ltac:(done) ltac:(done) ltac:(done)) as (s0 & E & H1 & _ & H2 & _).
  exists s0. exact (conj E (conj H1 H2)).
Defined.

(** The stack of a scheduler that switches to the context at 2380271516, in
    the stack of a new process. *)
Definition ex_switch_mem : Z → Z :=
  poke 8192 2148550100 (poke 8196 4096 (poke 8200 2380271516 (poke 2380271532 2148550000 (poke 2380271536 2148554033 (poke 2380271600 27 (λ _, 0)))))).
Definition ex_scheduler : x86 := X86 1 2 3 4 8192 6 7 8 8 16 16 0 0 16 0 0 ex_switch_mem.
Lemma ex_called : swtch_called ex_scheduler 2148550100 4096 2380271516.
Proof. split; [done..|]. intros x Hx. change (x_esp ex_scheduler) with 8192. lia. Qed.

Lemma swtch_resumes_witness :
  ∃ s1, exec swtch ex_scheduler = Some s1 ∧ x_eip s1 = a_forkret ∧ x_esp s1 = 2380271536.
Proof.
  destruct (swtch_resumes ex_scheduler 2148550100 4096 2380271516 (Context 0 0 0 0 CodeForkret) ex_called ltac:(change (x_esp ex_scheduler) with 8192; lia)
    ltac:(by repeat split)) as (s1 & E & H1 & H2 & _).
  exists s1. exact (conj E (conj H1 H2)).
Defined.

