(* ===== verification/Kernel.v ===== *)
(** The kernel put together: the process code over the memory and file
    systems, the system call dispatch and counters (src/syscall.c), the calls
    of src/sysproc.c, the end of [exec] (src/exec.c) and [trap]
    (src/trap.c).

    The memory and file systems are the services of the process code
    ([kernel_services]).  Their code sees the running process as its open
    files, working directory, memory and [killed] flag; [user_call] lends
    these to it and takes them back, through the page table for the memory. *)
From S2P Require Import Prelude Layout Bytes Spinlock Sleeplock CString Format Kalloc Vm Bio Log Console Kbd Fs File Args Sysfile Exec.
From S2P Require Import ProcTable.

(** * The state *)

(** The memory and file systems, the clock (src/trap.c), the counters of
    src/syscall.c and the keyboard's [shift]. *)
Record kworld := KWorld {
  w_s : sstate;
  w_tlheld : bool;                (* tickslock *)
  w_ticks : Z;
  w_counter : list Z;             (* counter[26] *)
  w_toggle : Z;                   (* v_toggle *)
  w_shift : Z
}.
Definition set_ws v w := KWorld v (w_tlheld w) (w_ticks w) (w_counter w) (w_toggle w) (w_shift w).
Definition set_tlheld v w := KWorld (w_s w) v (w_ticks w) (w_counter w) (w_toggle w) (w_shift w).
Definition set_ticks v w := KWorld (w_s w) (w_tlheld w) v (w_counter w) (w_toggle w) (w_shift w).
Definition set_wcounter v w := KWorld (w_s w) (w_tlheld w) (w_ticks w) v (w_toggle w) (w_shift w).
Definition set_toggle v w := KWorld (w_s w) (w_tlheld w) (w_ticks w) (w_counter w) v (w_shift w).
Definition set_wshift v w := KWorld (w_s w) (w_tlheld w) (w_ticks w) (w_counter w) (w_toggle w) v.

Definition on_s {A} : M sstate A → M kworld A := zoom w_s set_ws.
#[export] Instance kworld_mem : UserMem kworld := {| um_mem := λ w, s_mem (w_s w); um_esp := λ w, s_esp (w_s w) |}.

Definition tl_acquire : M kworld unit := lk_acquire w_tlheld set_tlheld.
Definition tl_release : M kworld unit := lk_release w_tlheld set_tlheld.

(** ** The running process as the services see it *)

(** The user memory below [sz] of directory [d]; [None] if a page is missing. *)
Definition user_page_of (k : kstate) (d : Z) (i : Z) : option (list Z) :=
  if has PTE_P (xlate (pages k) d (4096 * i)) then pages k !! frame (pages k) d (4096 * i) else None.
Definition umem_load (k : kstate) (d sz : Z) : option (list Z) :=
  (λ pgs, take (Z.to_nat sz) (mjoin pgs)) <$> mapM (user_page_of k d) (seqZ 0 ((sz + 4095) / 4096)).
Definition umem_store (d : Z) (mem : list Z) (k : kstate) : kstate :=
  foldl (λ k i,
    match user_page_of k d i with
    | Some pg => set_pages (<[frame (pages k) d (4096 * i) := splice pg 0 (slice mem (Z.to_nat (4096 * i)) 4096)]> (pages k)) k
    | None => k
    end) k (seqZ 0 ((Z.of_nat (length mem) + 4095) / 4096)).

Definition set_fproc (killed : bool) (cwd : option nat) (pid : Z) (s : fstate) : fstate :=
  let b := l_bio (f_log s) in
  FState (set_lbio (BState (bc_held b) (bufs b) (memdisk b) pid) (f_log s)) (f_sb s) (f_icheld s) (f_inodes s) (f_devread s) (f_devwrite s)
    (f_cons s) killed cwd.
Definition lend (p : proc) (mem : list Z) (w : kworld) : kworld :=
  let s := w_s w in
  set_ws (SState (set_fproc (bool_decide (p_killed p ≠ 0)) (p_cwd p) (p_pid p) (s_fs s)) (s_ftheld s) (s_files s) (s_pipes s) (s_kmem s)
            (p_ofile p) mem (tf_esp (p_tf p))) w.
Definition take_back (w : kworld) (p : proc) : proc := set_ofile (s_ofile (w_s w)) (set_cwd (f_cwd (s_fs (w_s w))) p).
Definition keep_mem (d : Z) (w : kworld) : kworld := set_ws (set_skmem (umem_store d (s_mem (w_s w)) (s_kmem (w_s w))) (w_s w)) w.

(** [myproc()] without its effects. *)
Definition running {W} (s : pstate W) : option nat :=
  c ← cpus (mach s) !! me (mach s); '(_, c') ← list_find (λ x, apicid x = apicid c) (cpus (mach s)); cproc c'.

Section kernel.
Context {KI : KernelImage}.
(** The program of the first process, which the build links in. *)
Variable initcode : list Z.

#[local] Instance kernel_services : ProcServices kworld := {|
  sv_kalloc := on_s (on_kmem kalloc);
  sv_kfree := λ v, on_s (on_kmem (kfree v));
  sv_setupkvm := on_s (on_kmem setupkvm);
  sv_inituvm := λ d, on_s (on_kmem (inituvm d initcode));
  sv_copyuvm := λ d sz, on_s (on_kmem (copyuvm d sz));
  sv_freevm := λ d, on_s (on_kmem (freevm d));
  sv_allocuvm := λ d old new, on_s (on_kmem (allocuvm d old new));
  sv_deallocuvm := λ d old new, on_s (on_kmem (deallocuvm d old new));
  sv_filedup := λ f, on_s (filedup f);
  sv_fileclose := λ f, on_s (fileclose f);
  sv_begin_op := on_s begin_trans;
  sv_end_op := on_s end_trans;
  sv_idup := λ ip, on_s (on_fs (idup ip));
  sv_iput := λ ip, on_s (on_fs (iput ip));
  sv_namei := λ path, on_s (on_fs (namei path));
  sv_iinit := on_s (on_fs (iinit ROOTDEV));
  sv_initlog := on_s (on_fs (on_log (initlog ROOTDEV)))
|}.

Notation kernel := (pstate kworld).

(** Code of the services on behalf of the running process. *)
Definition user_call {A} (m : M kworld A) : M kernel A := λ s,
  match running s ≫= λ cur, p ← procs s !! cur; mem ← umem_load (s_kmem (w_s (world s))) (p_pgdir p) (p_sz p); Some (cur, p, mem) with
  | None => Undef
  | Some (cur, p, mem) =>
      let back w := set_world (keep_mem (p_pgdir p) w) (set_procs (alter (take_back w) cur (procs s)) s) in
      match m (lend p mem (world s)) with
      | Ret a w t => prepend t ((deliver t;; mret a) (back w))
      | Panic msg w => Panic msg (back w)
      | Blocked c w t => prepend t ((deliver t;; sleep (Some c) (LkOther (mret tt) (mret tt));; undef) (back w))
      | Spins w => Spins (back w)
      | Undef => Undef
      end
  end.

(** * exec *)

Definition set_image (im : image) (p : proc) : proc :=
  let f := p_tf p in
  set_tf (Trapframe (tf_edi f) (tf_esi f) (tf_ebp f) (tf_oesp f) (tf_ebx f) (tf_edx f) (tf_ecx f) (tf_eax f) (tf_gs f) (tf_fs f)
            (tf_es f) (tf_ds f) (tf_trapno f) (tf_err f) (im_entry im) (tf_cs f) (tf_eflags f) (im_sp im) (tf_ss f))
    (set_sz (im_sz im) (set_pgdir (im_pgdir im) p)).
Definition exec (path : list Z) (argv : list (list Z)) : M kernel Z :=
  cur ← pt_curproc;
  o ← user_call (on_s (exec_image path argv));
  match o with
  | None => mret (-1)
  | Some im =>
      p ← pget cur;
      pupd cur (set_name (name_copy (p_name p) (im_name im ++ [0])));;
      let oldpgdir := p_pgdir p in
      pupd cur (set_image im);;
      switchuvm cur;;
      svc (sv_freevm oldpgdir);;
      mret 0
  end.
Definition sys_exec : M kernel Z :=
  o ← user_call (on_s exec_args);
  match o with
  | None => mret (-1)
  | Some (path, argv) => exec path argv
  end.

(** * sysproc.c *)

(** [argint] from the process code. *)
Definition kargint (n : Z) : M kernel (option Z) := user_call (argint n).

Definition sys_add : M kernel Z :=
  a ← kargint 0;
  match a with
  | None => mret (-1)
  | Some a =>
      b ← kargint 1;
      mret (match b with None => -1 | Some b => i32 (a + b) end)
  end.
Definition sys_setpriority : M kernel Z :=
  a ← kargint 0;
  match a with
  | None => mret (-1)
  | Some a =>
      b ← kargint 1;
      match b with None => mret (-1) | Some b => set_priority a b end
  end.
Definition sys_getpriority : M kernel Z :=
  a ← kargint 0;
  match a with None => mret (-1) | Some a => get_priority a end.
Definition sys_toggle : M kernel Z :=
  modify (λ s, set_world (set_toggle (i32 (1 - w_toggle (world s))) (world s)) s);; mret 0.
Definition sys_ps : M kernel Z := ps.
Definition sys_fork : M kernel Z := fork.
Definition sys_exit : M kernel Z := exit;; mret 0.
Definition sys_wait : M kernel Z := wait.
Definition sys_kill : M kernel Z :=
  a ← kargint 0;
  match a with None => mret (-1) | Some pid => kill pid end.
Definition sys_getpid : M kernel Z := cur ← pt_curproc; p ← pget cur; mret (p_pid p).
Definition sys_sbrk : M kernel Z :=
  n ← kargint 0;
  match n with
  | None => mret (-1)
  | Some n =>
      cur ← pt_curproc;
      p ← pget cur;
      let addr := i32 (p_sz p) in
      r ← growproc n;
      mret (if bool_decide (r < 0) then -1 else addr)
  end.

(** One round of the loop of [sys_sleep], with [tickslock] held; a process
    that slept continues with [sleep_again]. *)
Definition sleep_round (ticks0 n : Z) : M kworld Z :=
  w ← get;
  if bool_decide (u32 (w_ticks w - ticks0) < u32 n) then
    if f_killed (s_fs (w_s w)) then tl_release;; mret (-1)
    else tl_release;; block CTicks
  else tl_release;; mret 0.
Definition sleep_again (ticks0 n : Z) : M kworld Z := tl_acquire;; sleep_round ticks0 n.
Definition sleep_call : M kworld Z :=
  o ← argint 0;
  match o with
  | None => mret (-1)
  | Some n => tl_acquire;; w ← get; sleep_round (w_ticks w) n
  end.
Definition sys_sleep : M kernel Z := user_call sleep_call.
Definition uptime : M kworld Z :=
  tl_acquire;; w ← get; tl_release;; mret (i32 (w_ticks w)).
Definition sys_uptime : M kernel Z := svc uptime.

(** * The dispatch *)

(** The table [syscalls]; entry 0 is null. *)
Definition syscalls : list (option (M kernel Z)) :=
  [ None;
    Some sys_fork; Some sys_exit; Some sys_wait; Some (user_call (on_s sys_pipe)); Some (user_call (on_s sys_read));
    Some sys_kill; Some sys_exec; Some (user_call (on_s sys_fstat)); Some (user_call (on_s sys_chdir));
    Some (user_call (on_s sys_dup)); Some sys_getpid; Some sys_sbrk; Some sys_sleep; Some sys_uptime;
    Some (user_call (on_s sys_open)); Some (user_call (on_s sys_write)); Some (user_call (on_s sys_mknod));
    Some (user_call (on_s sys_unlink)); Some (user_call (on_s sys_link)); Some (user_call (on_s sys_mkdir));
    Some (user_call (on_s sys_close)); Some sys_toggle; Some sys_add; Some sys_ps; Some sys_setpriority; Some sys_getpriority ].
Definition name : list string :=
  [ "sys_fork"; "sys_exit"; "sys_wait"; "sys_pipe"; "sys_read"; "sys_kill"; "sys_exec"; "sys_fstat"; "sys_chdir"; "sys_dup";
    "sys_getpid"; "sys_sbrk"; " sys_sleep"; "sys_uptime"; "sys_open"; " sys_write"; " sys_mknod"; "sys_unlink"; "sys_link";
    "sys_mkdir"; "sys_close"; "sys_toggle"; "sys_add"; "sys_ps"; "sys_setpriority"; "sys_getpriority" ]%string.

(** [syscalls[num]] when [num] is in range. *)
Definition handler (num : Z) : option (M kernel Z) :=
  if bool_decide (0 < num) && bool_decide (num < Z.of_nat (length syscalls)) then mjoin (syscalls !! Z.to_nat num) else None.

(** [counter[num-1]+=1;] *)
Definition bump (num : Z) (w : kworld) : kworld := set_wcounter (alter (λ c, i32 (c + 1)) (Z.to_nat (num - 1)) (w_counter w)) w.

Definition syscall : M kernel unit :=
  cur ← pt_curproc;
  p ← pget cur;
  let num := i32 (tf_eax (p_tf p)) in
  match handler num with
  | Some h =>
      modify (λ s, set_world (bump num (world s)) s);;
      s ← get;
      (if bool_decide (w_toggle (world s) = 1) then
         nm ← deref (name !! Z.to_nat (num - 1));
         c ← deref (w_counter (world s) !! Z.to_nat (num - 1));
         cprintf ("%s %d" +:+ nl) [FStr (Some (str nm)); FInt c]
       else mret tt);;
      r ← h;
      pupd cur (λ p, set_tf (set_eax (u32 r) (p_tf p)) p)
  | None =>
      cprintf ("%d %s: unknown sys call %d" +:+ nl) [FInt (p_pid p); FStr (Some (p_name p)); FInt num];;
      pupd cur (λ p, set_tf (set_eax (u32 (-1)) (p_tf p)) p)
  end.

(** * Traps *)

(** What the hardware holds when the trap is taken: the base address of the
    local APIC ([lapic] of src/lapic.c), the register [cr2], the bytes in the
    keyboard controller and in the serial port, and the kernel stacks. *)
Record hardware := Hardware { h_lapic : Z; h_cr2 : Z; h_kbd : list Z; h_uart : list Z; h_stack : Z → Z }.

Variable hw : hardware.

(** [lapicw(EOI, 0)] *)
Definition lapiceoi : M kernel unit :=
  if bool_decide (h_lapic hw ≠ 0) then emit (EvOut (h_lapic hw + 4 * 44) 0) else mret tt.

Definition clock_tick : M kworld unit :=
  tl_acquire;; modify (λ w, set_ticks (u32 (w_ticks w + 1)) w);; announce CTicks;; tl_release.

(** [consoleintr] from an interrupt; [procdump] runs after it. *)
Definition console_intr (m : M cstate (bool * Z)) : M kernel unit :=
  '(d, shift) ← svc (on_s (on_fs (on_cons m)));
  modify (λ s, set_world (set_wshift shift (world s)) s);;
  if (d : bool) then procdump (h_stack hw) else mret tt.

(** [tf->cs & 3] *)
Definition from_user (tf : trapframe) : bool := bool_decide (Z.land (tf_cs tf) 3 = DPL_USER).

(** The statement [if(myproc() && myproc()->killed && (tf->cs&3) == DPL_USER)
    exit();] *)
Definition exit_if_killed (tf : trapframe) : M kernel unit :=
  o ← pt_myproc;
  match o with
  | None => mret tt
  | Some cur =>
      p ← pget cur;
      if bool_decide (p_killed p ≠ 0) && from_user tf then exit else mret tt
  end.

(** The [default] case: an exception. *)
Definition trap_fault (tf : trapframe) : M kernel unit :=
  o ← pt_myproc;
  c ← on_mach cpuid;
  let cpu := FInt (Z.of_nat c) in
  match o with
  | Some cur =>
      if bool_decide (Z.land (tf_cs tf) 3 = 0) then
        cprintf ("unexpected trap %d from cpu %d eip %x (cr2=0x%x)" +:+ nl) [FInt (tf_trapno tf); cpu; FInt (tf_eip tf); FInt (h_cr2 hw)];;
        panic "trap"
      else
        p ← pget cur;
        cprintf ("pid %d %s: trap %d err %d on cpu %d eip 0x%x addr 0x%x--kill proc" +:+ nl)
          [FInt (p_pid p); FStr (Some (p_name p)); FInt (tf_trapno tf); FInt (tf_err tf); cpu; FInt (tf_eip tf); FInt (h_cr2 hw)];;
        pupd cur (set_killed 1)
  | None =>
      cprintf ("unexpected trap %d from cpu %d eip %x (cr2=0x%x)" +:+ nl) [FInt (tf_trapno tf); cpu; FInt (tf_eip tf); FInt (h_cr2 hw)];;
      panic "trap"
  end.

(** The [switch]. *)
Definition trap_dispatch (tf : trapframe) : M kernel unit :=
  let n := tf_trapno tf in
  if bool_decide (n = T_IRQ0 + IRQ_TIMER) then
    c ← on_mach cpuid;
    (if bool_decide (c = 0%nat) then svc clock_tick else mret tt);;
    lapiceoi
  else if bool_decide (n = T_IRQ0 + IRQ_IDE) then lapiceoi
  else if bool_decide (n = T_IRQ0 + IRQ_IDE + 1) then mret tt
  else if bool_decide (n = T_IRQ0 + IRQ_KBD) then
    s ← get; console_intr (kbdintr (h_kbd hw) (w_shift (world s)));; lapiceoi
  else if bool_decide (n = T_IRQ0 + IRQ_COM1) then
    s ← get; console_intr (d ← consoleintr (h_uart hw); mret (d, w_shift (world s)));; lapiceoi
  else if bool_decide (n = T_IRQ0 + 7) || bool_decide (n = T_IRQ0 + IRQ_SPURIOUS) then
    c ← on_mach cpuid;
    cprintf ("cpu%d: spurious interrupt at %x:%x" +:+ nl) [FInt (Z.of_nat c); FInt (tf_cs tf); FInt (tf_eip tf)];;
    lapiceoi
  else trap_fault tf.

(** The end of [trap] for a process that yielded on a clock tick and runs
    again. *)
Definition trap_resume (ie : bool) (tf : trapframe) : M kernel unit := yield_resume ie;; exit_if_killed tf.

Definition trap (tf : trapframe) : M kernel unit :=
  if bool_decide (tf_trapno tf = T_SYSCALL) then
    cur ← pt_curproc;
    p ← pget cur;
    (if bool_decide (p_killed p ≠ 0) then exit else mret tt);;
    pupd cur (set_tf tf);;
    syscall;;
    cur ← pt_curproc;
    p ← pget cur;
    if bool_decide (p_killed p ≠ 0) then exit else mret tt
  else
    trap_dispatch tf;;
    exit_if_killed tf;;
    o ← pt_myproc;
    (match o with
     | None => mret tt
     | Some cur =>
         p ← pget cur;
         if bool_decide (p_state p = RUNNING) && bool_decide (tf_trapno tf = T_IRQ0 + IRQ_TIMER) then yield else mret tt
     end);;
    exit_if_killed tf.

End kernel.
