(* ===== verification/KernelSpec.v ===== *)
(** What the system call dispatch, the clock and [trap] guarantee: calls are
    counted, a killed process does not get back to user mode, [sleep] lasts as
    long as it says. *)
From S2P Require Import Prelude Layout Bytes Spinlock Sleeplock CString Format Kalloc Vm Bio Log Console Kbd Fs File Args Sysfile Exec.
From S2P Require Import ProcTable Kernel.

(** * Observations that code preserves *)

(** The state a run ends in, however it ends. *)
Definition final {S A} (o : outcome S A) : option S :=
  match o with Ret _ s _ | Panic _ s | Blocked _ s _ | Spins s => Some s | Undef => None end.
Definition pres {S X A} (f : S → X) (m : M S A) : Prop := ∀ s s', final (m s) = Some s' → f s' = f s.

Create HintDb pres.

Section pres.
Context {S X : Type} (f : S → X).

Lemma pres_pure {A} (m : M S A) : (∀ s s', final (m s) = Some s' → s' = s) → pres f m.
Proof. intros H s s' E. by rewrite (H s s' E). Qed.
Lemma final_prepend {A} t (o : outcome S A) : final (prepend t o) = final o.
Proof. by destruct o. Qed.
Lemma pres_mret {A} (v : A) : pres f (mret v).
Proof. apply pres_pure. by intros s s' [= <-]. Qed.
Lemma pres_get : pres f get.
Proof. apply pres_pure. by intros s s' [= <-]. Qed.
Lemma pres_panic {A} msg : pres f (panic msg : M S A).
Proof. apply pres_pure. by intros s s' [= <-]. Qed.
Lemma pres_undef {A} : pres f (undef : M S A).
Proof. done. Qed.
Lemma pres_block {A} c : pres f (block c : M S A).
Proof. apply pres_pure. by intros s s' [= <-]. Qed.
Lemma pres_emit e : pres f (emit e).
Proof. apply pres_pure. by intros s s' [= <-]. Qed.
Lemma pres_deref {A} (o : option A) : pres f (deref o).
Proof. destruct o; [apply pres_mret|apply pres_undef]. Qed.
Lemma pres_panic_if b msg : pres f (panic_if b msg).
Proof. destruct b; [apply pres_panic|apply pres_mret]. Qed.
Lemma pres_bind {A B} (m : M S A) (g : A → M S B) : pres f m → (∀ v, pres f (g v)) → pres f (m ≫= g).
Proof.
  intros Hm Hg s s'. specialize (Hm s). unfold mbind, M_bind. destruct (m s) as [v s1 t| | | |]; cbn [final] in *; try (intros [= <-]; by apply Hm).
  rewrite final_prepend. intros E. rewrite (Hg v s1 s' E). by apply Hm.
Qed.
Lemma pres_if {A} (b : bool) (m1 m2 : M S A) : pres f m1 → pres f m2 → pres f (if b then m1 else m2).
Proof. by destruct b. Qed.
Lemma pres_foreach {A} (l : list A) (g : A → M S unit) : (∀ x, pres f (g x)) → pres f (foreach l g).
Proof. intros Hg. induction l as [|x l IH]; [apply pres_mret|]. simpl. by apply pres_bind. Qed.
Lemma pres_modify g : (∀ s, f (g s) = f s) → pres f (modify g).
Proof. intros H s s' [= <-]. apply H. Qed.
Lemma pres_zoom {T A} (g : S → T) (p : T → S → S) (m : M T A) : (∀ x s, f (p x s) = f s) → pres f (zoom g p m).
Proof. intros H s s'. unfold zoom. destruct (m (g s)); simpl; [intros [= <-]; apply H..|done]. Qed.
Lemma pres_cprintf fmt ap : pres f (cprintf fmt ap).
Proof. unfold cprintf. apply pres_bind; [apply pres_deref|]. intros. apply pres_foreach. intros. apply pres_emit. Qed.
Lemma pres_Ret {A} (m : M S A) s r s' t : pres f m → m s = Ret r s' t → f s' = f s.
Proof. intros H E. apply (H s s'). by rewrite E. Qed.
End pres.
#[export] Hint Resolve pres_mret pres_get pres_panic pres_undef pres_block pres_emit pres_deref pres_panic_if pres_cprintf : pres.
#[export] Hint Extern 2 (pres _ (_ ≫= _)) => apply pres_bind; [|intros ?] : pres.
#[export] Hint Extern 2 (pres _ (if _ then _ else _)) => apply pres_if : pres.
#[export] Hint Extern 2 (pres _ (foreach _ _)) => apply pres_foreach; intros ? : pres.
#[export] Hint Extern 3 (pres _ (modify _)) => apply pres_modify; done : pres.
#[export] Hint Extern 3 (pres _ (zoom _ _ _)) => apply pres_zoom; done : pres.
#[export] Hint Extern 4 (pres _ (match ?x with _ => _ end)) => destruct x : pres.

(** * myproc *)

(** What [myproc] depends on. *)
Definition ids (m : machine) : nat * list (Z * option nat) := (me m, (λ c, (apicid c, cproc c)) <$> cpus m).

Lemma ids_upd g i m : (∀ c, apicid (g c) = apicid c ∧ cproc (g c) = cproc c) → ids (upd_cpu g i m) = ids m.
Proof.
  intros H. unfold ids, upd_cpu. simpl. f_equal. apply list_eq. intros j. rewrite !list_lookup_fmap, list_lookup_alter.
  case_decide; [|done]. subst. destruct (cpus m !! j); [|done]. simpl. by destruct (H c) as [-> ->].
Qed.
Lemma pres_upd (g : machine → cpu → cpu) (i : machine → nat) :
  (∀ m c, apicid (g m c) = apicid c ∧ cproc (g m c) = cproc c) → pres ids (modify (λ m, upd_cpu (g m) (i m) m)).
Proof. intros H. apply pres_modify. intros m. by apply ids_upd. Qed.
Lemma pres_mycpu : pres ids mycpu.
Proof. unfold mycpu, readeflags_IF, lapicid. auto 20 with pres. Qed.
#[export] Hint Resolve pres_mycpu : pres.
Lemma pres_mycpu_get {A} (g : cpu → A) : pres ids (mycpu_get g).
Proof. unfold mycpu_get. auto 20 with pres. Qed.
Lemma pres_mycpu_upd g : (∀ c, apicid (g c) = apicid c ∧ cproc (g c) = cproc c) → pres ids (mycpu_upd g).
Proof. intros H. unfold mycpu_upd. apply pres_bind; [auto with pres|]. intros i. apply pres_modify. intros m. by apply ids_upd. Qed.
#[export] Hint Resolve pres_mycpu_get : pres.
#[export] Hint Extern 3 (pres ids (mycpu_upd _)) => apply pres_mycpu_upd; done : pres.
Lemma pres_cli : pres ids cli.
Proof. apply pres_modify. intros m. by apply ids_upd. Qed.
Lemma pres_sti : pres ids sti.
Proof. apply pres_modify. intros m. by apply ids_upd. Qed.
#[export] Hint Resolve pres_cli pres_sti : pres.
Lemma pres_pushcli : pres ids pushcli.
Proof. unfold pushcli, readeflags_IF. auto 20 with pres. Qed.
Lemma pres_popcli : pres ids popcli.
Proof. unfold popcli, readeflags_IF. auto 20 with pres. Qed.
#[export] Hint Resolve pres_pushcli pres_popcli : pres.

Definition cur_of (x : nat * list (Z * option nat)) : option nat :=
  '(a, _) ← x.2 !! x.1; '(_, (_, o)) ← list_find (λ y, y.1 = a) x.2; o.

Lemma running_ids {W} (s : pstate W) : running s = cur_of (ids (mach s)).
Proof.
  unfold running, cur_of, ids. simpl. rewrite list_lookup_fmap. destruct (cpus (mach s) !! me (mach s)) as [c|]; [|done]. simpl.
  rewrite list_find_fmap. unfold compose. simpl. by destruct (list_find _ (cpus (mach s))) as [[i c']|].
Qed.

Lemma mycpu_inv m i m' t : mycpu m = Ret i m' t → m' = m ∧ ∃ c c', cpus m !! me m = Some c ∧ list_find (λ x, apicid x = apicid c) (cpus m) = Some (i, c').
Proof.
  unfold mycpu, readeflags_IF, lapicid. munfold. destruct (cpus m !! me m) as [c|] eqn:Hc; [|done]. simpl.
  destruct (eflags_IF c); [done|]. simpl. rewrite Hc. simpl. destruct (list_find _ (cpus m)) as [[j c']|] eqn:E; [|done].
  intros [= -> <- _]. split; [done|]. by exists c, c'.
Qed.

Lemma mycpu_get_cproc m o m' t : mycpu_get cproc m = Ret o m' t → m' = m ∧ cur_of (ids m) = o.
Proof.
  unfold mycpu_get. intros H. inv_bind H. apply mycpu_inv in Hm as (-> & c & c' & Hc & Hf). rewrite bind_get in H.
  pose proof Hf as (Hi & _)%list_find_Some. rewrite Hi in H. injection H as <- <- _. split; [done|].
  unfold cur_of, ids. simpl. rewrite list_lookup_fmap, Hc. simpl. rewrite list_find_fmap. unfold compose. simpl. by rewrite Hf.
Qed.

Lemma myproc_inv m o m' t : myproc m = Ret o m' t → ids m' = ids m ∧ cur_of (ids m) = o.
Proof.
  unfold myproc. intros H. inv_bind H. inv_bind H. inv_bind H. injection H as <- <- _.
  apply (pres_Ret ids) in Hm; [|auto with pres]. apply mycpu_get_cproc in Hm0 as [-> <-].
  apply (pres_Ret ids) in Hm1; [|auto with pres]. split; congruence.
Qed.

Lemma pt_myproc_inv {W} (s : pstate W) o s' t :
  pt_myproc s = Ret o s' t → running s = o ∧ running s' = o ∧ procs s' = procs s ∧ world s' = world s.
Proof.
  unfold pt_myproc, on_mach. intros (m & H & ->)%zoom_Ret_inv. apply myproc_inv in H as [E1 E2]. rewrite !running_ids. simpl.
  rewrite E1. done.
Qed.
Lemma pt_curproc_inv {W} (s : pstate W) cur s' t :
  pt_curproc s = Ret cur s' t → running s = Some cur ∧ running s' = Some cur ∧ procs s' = procs s ∧ world s' = world s.
Proof.
  unfold pt_curproc. intros H. inv_bind H. apply pt_myproc_inv in Hm as (E1 & E2 & E3 & E4). destruct a as [c|]; [|done].
  injection H as <- <- _. done.
Qed.

(** * A killed process does not return to user mode *)

Section trap_spec.
Context {KI : KernelImage} (initcode : list Z) (hw : hardware).
Implicit Types s : pstate kworld.
#[local] Existing Instance kernel_services.

(** [exit] does not return. *)
Lemma exit_no_return s r s' t : exit (SV := kernel_services initcode) s ≠ Ret r s' t.
Proof. unfold exit. intros H. repeat (inv_bind H). done. Qed.

Lemma exit_if_killed_inv tf s r s' t :
  exit_if_killed initcode tf s = Ret r s' t → from_user tf = true →
  ∀ cur p, running s' = Some cur → procs s' !! cur = Some p → p_killed p = 0.
Proof.
  unfold exit_if_killed. intros H Hu. inv_bind H. apply pt_myproc_inv in Hm as (_ & E2 & E3 & _). destruct a as [c|].
  - inv_bind H. apply pget_Ret in Hm as (Hp & -> & _). rewrite Hu in H. case_bool_decide as Hk; [by apply exit_no_return in H|].
    injection H as _ <- _. intros cur p. rewrite E2. intros [= <-]. rewrite Hp. intros [= <-]. lia.
  - injection H as _ <- _. intros cur p. by rewrite E2.
Qed.

End trap_spec.

(** * Calls are counted *)

Section count.
Context {KI : KernelImage} (initcode : list Z) (hw : hardware).
Implicit Types s : pstate kworld.
#[local] Instance services : ProcServices kworld := kernel_services initcode.
Definition ctr (s : pstate kworld) : list Z := w_counter (world s).

Lemma ctr_on_mach {A} (m : M machine A) : pres ctr (on_mach m).
Proof. by apply pres_zoom. Qed.
Lemma ctr_on_plock {A} (m : M lockst A) : pres ctr (on_plock m).
Proof. by apply pres_zoom. Qed.
Lemma ctr_pget i : pres ctr (pget i).
Proof. unfold pget. auto with pres. Qed.
Hint Resolve ctr_on_mach ctr_on_plock ctr_pget : pres.
Lemma ctr_pupd i f : pres ctr (pupd i f).
Proof. unfold pupd. auto with pres. Qed.
Lemma ctr_pt_acquire : pres ctr pt_acquire.
Proof. apply ctr_on_plock. Qed.
Lemma ctr_pt_release : pres ctr pt_release.
Proof. apply ctr_on_plock. Qed.
Lemma ctr_pt_myproc : pres ctr pt_myproc.
Proof. apply ctr_on_mach. Qed.
Lemma ctr_pt_curproc : pres ctr pt_curproc.
Proof. unfold pt_curproc. apply pres_bind; [apply ctr_pt_myproc|]. auto with pres. Qed.
Lemma ctr_wakeup1 c : pres ctr (wakeup1 c).
Proof. unfold wakeup1. auto with pres. Qed.
Hint Resolve ctr_pupd ctr_pt_acquire ctr_pt_release ctr_pt_myproc ctr_pt_curproc ctr_wakeup1 : pres.
Lemma ctr_wakeup c : pres ctr (wakeup c).
Proof. unfold wakeup. auto with pres. Qed.
Lemma ctr_sched : pres ctr sched.
Proof. unfold sched. auto 20 with pres. Qed.
Hint Resolve ctr_wakeup ctr_sched : pres.
Lemma ctr_sleep c : pres ctr (sleep c (LkOther (mret tt) (mret tt))).
Proof. unfold sleep. auto 20 with pres. Qed.
Lemma ctr_sleep_pt c : pres ctr (sleep c LkPtable).
Proof. unfold sleep. auto 20 with pres. Qed.
Lemma ctr_yield : pres ctr yield.
Proof. unfold yield. auto 20 with pres. Qed.
Lemma ctr_deliver t : pres ctr (deliver t).
Proof. unfold deliver. apply pres_foreach. intros [c| | |]; auto with pres. Qed.
Hint Resolve ctr_sleep ctr_sleep_pt ctr_yield ctr_deliver : pres.

(** What a service leaves, the process code goes on with. *)
Lemma ctr_after {A} (o : outcome kworld A) (back : kworld → pstate kworld) (c0 : list Z) s' :
  (∀ w, final o = Some w → ctr (back w) = c0) →
  final match o with
    | Ret a w t => prepend t ((deliver t;; mret a) (back w))
    | Panic msg w => Panic msg (back w)
    | Blocked c w t => prepend t ((deliver t;; sleep (Some c) (LkOther (mret tt) (mret tt));; undef) (back w))
    | Spins w => Spins (back w)
    | Undef => Undef
    end = Some s' → ctr s' = c0.
Proof.
  intros H. destruct o as [a w t|msg w|c w t|w|]; cbn [final] in *; rewrite ?final_prepend.
  - intros E. rewrite <- (H w eq_refl). refine (pres_bind ctr _ _ _ _ _ _ E); auto with pres.
  - intros [= <-]. by apply H.
  - intros E. rewrite <- (H w eq_refl). refine (pres_bind ctr _ _ _ _ _ _ E); auto with pres.
  - intros [= <-]. by apply H.
  - done.
Qed.
Lemma ctr_svc {A} (m : M kworld A) : pres w_counter m → pres ctr (svc m).
Proof. intros Hm s s'. unfold svc. apply (ctr_after (m (world s)) (λ w, set_world w s)). intros w. apply Hm. Qed.
Lemma ctr_user_call {A} (m : M kworld A) : pres w_counter m → pres ctr (user_call m).
Proof.
  intros Hm s s'. unfold user_call. destruct (running s ≫= _) as [[[cur p] mem]|]; [|done].
  apply (ctr_after (m (lend p mem (world s)))
           (λ w, set_world (keep_mem (p_pgdir p) w) (set_procs (alter (take_back w) cur (procs s)) s))).
  intros w Hw. exact (Hm _ _ Hw).
Qed.
Lemma ctr_on_s {A} (m : M sstate A) : pres w_counter (on_s m).
Proof. by apply pres_zoom. Qed.
Hint Resolve ctr_on_s : pres.
Hint Extern 2 (pres ctr (svc _)) => apply ctr_svc; apply ctr_on_s : pres.
Hint Extern 2 (pres ctr (user_call _)) => apply ctr_user_call : pres.

Lemma ctr_allocproc : pres ctr allocproc.
Proof. unfold allocproc. apply pres_bind; [auto with pres|]. intros. apply pres_bind; [auto with pres|]. intros s. destruct (list_find _ _) as [[]|]; auto 20 with pres. Qed.
Lemma ctr_switchuvm i : pres ctr (switchuvm i).
Proof. unfold switchuvm. auto 20 with pres. Qed.
Hint Resolve ctr_allocproc ctr_switchuvm : pres.
Lemma ctr_growproc n : pres ctr (growproc n).
Proof. unfold growproc. auto 20 with pres. Qed.
Lemma ctr_fork_dup cur np fd : pres ctr (fork_dup cur np fd).
Proof. unfold fork_dup. auto 20 with pres. Qed.
Hint Resolve ctr_growproc ctr_fork_dup : pres.
Lemma ctr_fork_copy cur np : pres ctr (fork_copy cur np).
Proof. unfold fork_copy. auto 30 with pres. Qed.
Hint Resolve ctr_fork_copy : pres.
Lemma ctr_fork : pres ctr fork.
Proof. unfold fork. auto 30 with pres. Qed.
Lemma ctr_exit_close cur fd : pres ctr (exit_close cur fd).
Proof. unfold exit_close. auto 20 with pres. Qed.
Lemma ctr_exit_reparent cur i : pres ctr (exit_reparent cur i).
Proof. unfold exit_reparent. auto 20 with pres. Qed.
Hint Resolve ctr_fork ctr_exit_close ctr_exit_reparent : pres.
Lemma ctr_exit : pres ctr exit.
Proof. unfold exit, exit_files. auto 30 with pres. Qed.
Lemma ctr_wait_scan cur l hk : pres ctr (wait_scan cur l hk).
Proof. revert hk. induction l as [|i l IH]; intros hk; cbn [wait_scan]; auto 30 with pres. Qed.
Hint Resolve ctr_exit ctr_wait_scan : pres.
Lemma ctr_wait : pres ctr wait.
Proof. unfold wait, wait_round. auto 30 with pres. Qed.
Lemma ctr_kill pid : pres ctr (kill pid).
Proof. unfold kill. apply pres_bind; [auto with pres|]. intros. apply pres_bind; [auto with pres|]. intros s. destruct (list_find _ _) as [[]|]; auto 20 with pres. Qed.
Lemma ctr_set_priority a b : pres ctr (set_priority a b).
Proof. unfold set_priority. auto 20 with pres. Qed.
Lemma ctr_get_priority a : pres ctr (get_priority a).
Proof. unfold get_priority. auto 20 with pres. Qed.
Lemma ctr_ps : pres ctr ps.
Proof. unfold ps. auto 20 with pres. Qed.
Hint Resolve ctr_wait ctr_kill ctr_set_priority ctr_get_priority ctr_ps : pres.

Lemma ctr_argint n : pres w_counter (argint n : M kworld (option Z)).
Proof. unfold argint, fetchint, user_sz. auto 20 with pres. Qed.
Lemma ctr_sleep_call : pres w_counter sleep_call.
Proof.
  unfold sleep_call, sleep_round, tl_acquire, tl_release, lk_acquire, lk_release. apply pres_bind; [apply ctr_argint|]. auto 20 with pres.
Qed.
Lemma ctr_uptime : pres w_counter uptime.
Proof. unfold uptime, tl_acquire, tl_release, lk_acquire, lk_release. auto 20 with pres. Qed.
Hint Resolve ctr_argint ctr_sleep_call : pres.
Lemma ctr_kargint n : pres ctr (kargint n).
Proof. unfold kargint. auto with pres. Qed.
Hint Resolve ctr_kargint : pres.
Lemma ctr_exec path argv : pres ctr (exec initcode path argv).
Proof. unfold exec. auto 20 with pres. Qed.
Hint Resolve ctr_exec : pres.

(** No handler touches the counters. *)
Lemma ctr_handlers : Forall (λ o, ∀ h, o = Some h → pres ctr h) (syscalls initcode).
Proof.
  unfold syscalls. repeat (apply Forall_cons_2; [intros h [= <-]|]); [..|constructor].
  all: try unfold sys_fork; try unfold sys_exit; try unfold sys_wait; try unfold sys_kill; try unfold sys_exec; try unfold sys_getpid;
    try unfold sys_sbrk; try unfold sys_sleep; try unfold sys_toggle; try unfold sys_add; try unfold sys_ps; try unfold sys_setpriority;
    try unfold sys_getpriority; auto 20 with pres.
  apply ctr_svc, ctr_uptime.
Qed.
Lemma ctr_handler num h : handler initcode num = Some h → pres ctr h.
Proof.
  unfold handler. destruct (_ && _); [|done]. destruct (syscalls initcode !! Z.to_nat num) as [[h'|]|] eqn:E; [|done|done].
  intros [= <-]. exact (Forall_lookup_1 _ _ _ _ ctr_handlers E h' eq_refl).
Qed.
Lemma handler_range num : if bool_decide (1 ≤ num ≤ 26) then is_Some (handler initcode num) else handler initcode num = None.
Proof.
  unfold handler. change (Z.of_nat (length (syscalls initcode))) with 27. case_bool_decide as H.
  - rewrite !bool_decide_true by lia. cbn [andb]. assert (∃ k, num = Z.of_nat k ∧ (1 ≤ k ≤ 26)%nat) as (k & -> & Hk) by (exists (Z.to_nat num); lia).
    rewrite Nat2Z.id. do 27 (destruct k as [|k]; [try lia; eexists; reflexivity|]). lia.
  - destruct (bool_decide (0 < num)) eqn:E1; [|done]. destruct (bool_decide (num < 27)) eqn:E2; [|done].
    apply bool_decide_eq_true in E1, E2. lia.
Qed.

(** C31: System calls are counted.  Whatever a system call does (it returns, the
    process goes to sleep or exits, the kernel waits for a lock or panics), a
    call with number [num] in 1..26 adds one to [counter[num-1]] and changes
    no other counter; a call with any other number changes no counter and
    returns -1. *)
Theorem syscall_counted s c cur p :
  cpu_at s c → 0 ≤ ncli c → cproc c = Some cur → procs s !! cur = Some p →
  let num := i32 (tf_eax (p_tf p)) in
  if bool_decide (1 ≤ num ≤ 26)
  then ∀ s', final (syscall initcode s) = Some s' → ctr s' = alter (λ c, i32 (c + 1)) (Z.to_nat (num - 1)) (ctr s)
  else ∃ s' t p', syscall initcode s = Ret tt s' t ∧ ctr s' = ctr s ∧ procs s' !! cur = Some p' ∧ tf_eax (p_tf p') = 4294967295.
Proof.
  intros Hc Hn Hcur Hp num. pose proof (pt_myproc_run s c Hc Hn) as R. rewrite Hcur in R. set (s1 := set_mach _ s) in R.
  assert (pt_curproc s = Ret cur s1 []) as R1 by (unfold pt_curproc; by mstep R).
  assert (pget cur s1 = Ret p s1 []) as R2 by (by apply pget_run).
  pose proof (handler_range num) as Hh. case_bool_decide.
  - destruct Hh as [h Hh]. intros s'. unfold syscall. mstep R1. mstep R2. fold num. rewrite Hh, bind_modify, bind_get. intros E.
    assert (ctr s' = ctr (set_world (bump num (world s1)) s1)) as Hs'; [|by rewrite Hs'].
    pose proof (ctr_handler _ _ Hh) as Hph. refine (pres_bind ctr _ _ _ _ _ _ E); auto 10 with pres.
  - unfold syscall. destruct (cprintf_run ("%d %s: unknown sys call %d" +:+ nl) _ s1 (fmt_ok_chars _ (str ("%d %s: unknown sys call %d" +:+ nl))
      [FInt (p_pid p); FStr (Some (p_name p)); FInt num] (le_n _) eq_refl)) as [t Rp].
    eexists _, t, _. split_and!.
    + mstep R1. mstep R2. fold num. rewrite Hh, (bind_run _ _ _ _ _ _ Rp). rewrite (pupd_run s1 cur p) by done. simpl. by rewrite app_nil_r.
    + done.
    + simpl. rewrite list_lookup_alter_eq, Hp. done.
    + done.
Qed.
End count.

(** * sleep lasts *)

(** [n] clock interrupts on CPU 0. *)
Fixpoint tick_many (n : nat) (w : kworld) : option kworld :=
  match n with
  | O => Some w
  | S n' => match clock_tick w with Ret _ w' _ => tick_many n' w' | _ => None end
  end.

Lemma tick_many_run n w :
  w_tlheld w = false → 0 ≤ w_ticks w < 4294967296 → tick_many n w = Some (set_ticks (u32 (w_ticks w + Z.of_nat n)) w).
Proof.
  revert w. induction n as [|n IH]; intros w Hl Ht.
  - simpl. rewrite Z.add_0_r, u32_small by done. by destruct w.
  - cbn [tick_many]. unfold clock_tick, tl_acquire, tl_release. mstep (lk_acquire_run w_tlheld set_tlheld w Hl). rewrite bind_modify.
    rewrite (bind_run _ _ _ tt _ [EvWakeup (Some CTicks)]) by done. rewrite lk_release_run by done. cbn [prepend].
    rewrite IH; [|done|apply u32_range]. f_equal. destruct w. unfold set_ticks, set_tlheld. simpl in *. subst. f_equal.
    unfold u32. rewrite Zplus_mod_idemp_l. f_equal. lia.
Qed.


(** * An example: one CPU, one process *)

Definition ex_world : kworld :=
  KWorld (SState (FState (fresh []) (Superblock 0 0 0 0 0 0 0) false [] [] [] blank_console false None)
            false [] ∅ (KState false true 0 ∅) [] [] 0) false 7 (replicate 26 0) 0 0.
(** A process that calls [getpid] (number 11), with an empty memory. *)
Definition ex_proc (num : Z) : proc :=
  Proc 0 0 4096 RUNNING 3 None (set_eax num tf_zero) 0 CodeNull (Context 0 0 0 0 CodeNull) 0 None 0 (replicate NOFILE None) None (replicate 16 0) 5 0.
Definition ex_kernel (num : Z) : pstate kworld :=
  PState (Machine [Cpu 0 1 0 true (Some 0%nat) false 0 0] 0) (Spinlock false None) [ex_proc num] 4 (Some 0%nat) false 0 ex_world.

Lemma ex_cpu num : ∃ c, cpu_at (ex_kernel num) c ∧ 0 ≤ ncli c ∧ cproc c = Some 0%nat.
Proof.
  eexists. split; [split; [|reflexivity]|split; [simpl; lia|reflexivity]].
  split; [apply NoDup_singleton|simpl; lia].
Qed.

Definition ex_image : KernelImage := {| kdata := KERNLINK; kend := KERNLINK |}.
Lemma syscall_counted_witness :
  ∃ s', final (syscall (KI := ex_image) [] (ex_kernel 11)) = Some s' ∧ ctr s' = replicate 10 0 ++ [1] ++ replicate 15 0.
Proof.
  destruct (ex_cpu 11) as (c & Hc & Hn & Hcur).
  destruct (final (syscall (KI := ex_image) [] (ex_kernel 11))) as [s'|] eqn:E; [|by vm_compute in E].
  exists s'. split; [done|]. exact (syscall_counted (KI := ex_image) [] (ex_kernel 11) c 0 (ex_proc 11) Hc Hn Hcur eq_refl s' E).
Defined.


(** A system call from user mode. *)
Definition ex_tf : trapframe := Trapframe 0 0 0 0 0 0 0 11 0 0 0 0 T_SYSCALL 0 0 27 512 0 0.
Definition ex_hw : hardware := Hardware 0 0 [] [] (λ _, 0).
