(* ===== verification/ForkSpec.v ===== *)
(** [fork] in the kernel (src/proc.c over src/vm.c): with the services of
    Kernel.v the child's memory is the parent's, byte for byte. *)
From S2P Require Import Prelude Layout Bytes Spinlock Sleeplock CString Format Kalloc Vm VmSpec Bio Log Console Kbd Fs File Args Sysfile Exec.
From S2P Require Import ProcTable ProcSpec Kernel.

Section fork_memory.
Context {KI : KernelImage} {KO : KernelImageOk KI} (initcode : list Z).
Abbreviation services := (kernel_services initcode).

(** The services' view of memory. *)
Definition kmem (w : kworld) : kstate := s_kmem (w_s w).
Definition with_kmem (k : kstate) (w : kworld) : kworld := set_ws (set_skmem k (w_s w)) w.

Lemma svc_kmem {A} (m : M kstate A) w a k t :
  m (kmem w) = Ret a k t → on_s (on_kmem m) w = Ret a (with_kmem k w) t.
Proof. intros H. exact (zoom_run _ _ _ _ _ _ _ (zoom_run _ _ _ _ _ _ _ H)). Qed.

(** What duplicating the parent's files and directory needs, and keeps. *)
Record fork_ready (k : kstate) (c : proc) (cwd : nat) (w : kworld) : Prop := ForkReady {
  fw_kmem : kmem w = k;
  fw_ft : s_ftheld (w_s w) = false;
  fw_files f : Some f ∈ p_ofile c → ∃ x, s_files (w_s w) !! f = Some x ∧ 1 ≤ fl_ref x;
  fw_ic : f_icheld (s_fs (w_s w)) = false;
  fw_cwd : is_Some (f_inodes (s_fs (w_s w)) !! cwd)
}.

Lemma ready_filedup k c cwd f w :
  fork_ready k c cwd w → Some f ∈ p_ofile c → ∃ w', on_s (filedup f) w = Ret f w' [] ∧ fork_ready k c cwd w'.
Proof.
  intros [H1 H2 H3 H4 H5] Hf. destruct (H3 f Hf) as (x & Hx & Hr). unfold kmem in H1.
  eexists. split.
  - apply zoom_run. unfold filedup, ft_acquire. rewrite (bind_run _ _ _ _ _ _ (lk_acquire_run _ _ _ H2)), prepend_nil.
    unfold file_get, file_upd, file_get. erewrite bind_run; [|rewrite bind_get; simpl; rewrite Hx; reflexivity].
    rewrite prepend_nil, bool_decide_false by lia. unfold panic_if. rewrite bind_mret.
    erewrite bind_run; [|erewrite bind_run; [|rewrite bind_get; simpl; rewrite Hx; reflexivity]; reflexivity].
    erewrite bind_run by (by apply lk_release_run). reflexivity.
  - split; try done. intros g Hg. simpl. destruct (decide (g = f)) as [->|Hne].
    + exists (set_fref (fl_ref x + 1) x). split; [apply list_lookup_insert_eq; by eapply lookup_lt_Some|simpl; lia].
    + rewrite list_lookup_insert_ne by done. by apply H3.
Qed.

Lemma ready_idup k c cwd w :
  fork_ready k c cwd w → ∃ w', on_s (on_fs (idup cwd)) w = Ret cwd w' [] ∧ fork_ready k c cwd w'.
Proof.
  intros [H1 H2 H3 H4 [i Hi]]. eexists. split.
  - apply zoom_run, zoom_run. unfold idup, ic_acquire. rewrite (bind_run _ _ _ _ _ _ (lk_acquire_run _ _ _ H4)), prepend_nil.
    unfold iupd, iget_ip. erewrite bind_run; [|erewrite bind_run; [|rewrite bind_get; simpl; rewrite Hi; reflexivity]; reflexivity].
    erewrite bind_run by (by apply lk_release_run). reflexivity.
  - split; try done. simpl. apply lookup_lt_is_Some_2. rewrite length_insert. by eapply lookup_lt_Some.
Qed.

(** The page at [a] as a list. *)
Lemma page_bytes k l d a :
  uspace k l d → a mod 4096 = 0 → 0 ≤ a < KERNBASE → present (pages k) d a →
  ∃ pg, pages k !! frame (pages k) d a = Some pg ∧ length pg = 4096%nat ∧
    ∀ j, (j < 4096)%nat → ubyte (pages k) d (a + Z.of_nat j) = pg !! j.
Proof.
  intros [Hk _ Hu] Ha Har Hp. destruct (uo_frame _ _ _ Hu a Har Hp) as (Hfa & _ & _).
  destruct (ki_dom _ _ Hk _ Hfa) as [pg Hpg]. exists pg. split_and!; [done|by apply (ki_pages _ _ Hk _ _ Hpg)|].
  intros j Hj. unfold ubyte. unfold KERNBASE in *.
  assert (frame (pages k) d (a + Z.of_nat j) = frame (pages k) d a) as ->
    by (unfold frame; do 2 f_equal; apply xlate_page; Z.div_mod_to_equations; lia).
  rewrite Hpg. simpl. f_equal. Z.div_mod_to_equations. lia.
Qed.

(** Pages that hold the same bytes are the same memory. *)
Lemma umem_same k l k' l' d d' sz :
  uspace k l d → uspace k' l' d' → 0 ≤ sz ≤ KERNBASE →
  (∀ va, 0 ≤ va < PGROUNDUP sz → present (pages k) d va ∧ present (pages k') d' va ∧ ubyte (pages k') d' va = ubyte (pages k) d va) →
  umem_load k' d' sz = umem_load k d sz.
Proof.
  intros Hs Hs' Hsz Hb. unfold umem_load. f_equal. apply Forall_mapM_ext. apply Forall_forall. intros i Hi%elem_of_seqZ.
  unfold KERNBASE in *. destruct (PGROUNDUP_spec sz) as (E & Hm & Hr); [lia|].
  assert (4096 * i + 4096 ≤ PGROUNDUP sz) as Htop by (rewrite E; Z.div_mod_to_equations; lia).
  assert (PGROUNDUP sz ≤ 2147483648) as Hmax by (rewrite E; Z.div_mod_to_equations; lia).
  assert (4096 * i mod 4096 = 0 ∧ 0 ≤ 4096 * i < KERNBASE) as [Hi0 Hik] by (unfold KERNBASE; Z.div_mod_to_equations; lia).
  destruct (Hb (4096 * i)) as (Hp & Hp' & _); [lia|]. unfold user_page_of.
  destruct (page_bytes k l d _ Hs Hi0 Hik Hp) as (pg & -> & Hl & Hpg). destruct (page_bytes k' l' d' _ Hs' Hi0 Hik Hp') as (pg' & -> & Hl' & Hpg').
  unfold present in Hp, Hp'. rewrite Hp, Hp'. f_equal. apply list_eq. intros j. destruct (decide (j < 4096)%nat).
  - rewrite <- Hpg, <- Hpg' by done. apply Hb. lia.
  - rewrite !(proj2 (lookup_ge_None _ _)) by lia. done.
Qed.

Lemma present_up k d sz va :
  0 ≤ sz ≤ KERNBASE → (∀ va, 0 ≤ va < sz → present (pages k) d va) → 0 ≤ va < PGROUNDUP sz →
  present (pages k) d va ∧ 0 ≤ va < KERNBASE.
Proof.
  intros Hsz Hp Hva. unfold KERNBASE in *. destruct (PGROUNDUP_spec sz) as (E & Hm & Hr); [lia|].
  assert (PGROUNDUP sz ≤ 2147483648) by (rewrite E; Z.div_mod_to_equations; lia). split; [|lia].
  unfold present. rewrite (xlate_page _ _ va (va - va mod 4096)); [apply Hp|..]; Z.div_mod_to_equations; lia.
Qed.

(** Writing free pages keeps the memory of a process. *)
Lemma memory_kept k l d sz k' l' :
  uspace k l d → kalloc_inv k' l' → (∀ u, u ∈ l' → u ∈ l) → (∀ u, u ∉ l → pages k' !! u = pages k !! u) →
  0 ≤ sz ≤ KERNBASE → (∀ va, 0 ≤ va < sz → present (pages k) d va) →
  uspace k' l' d ∧ same_map (pages k) (pages k') d ∧ umem_load k' d sz = umem_load k d sz.
Proof.
  intros Hs Hk' Hl Hfr Hsz Hp. destruct (uspace_frame k l d k' l' Hs Hk') as (H1 & H2 & _ & H4).
  { intros u Ho. apply (owns_used k l d u Hs) in Ho as [_ Hu]. split; [by intros ?%Hl|by apply Hfr]. }
  split_and!; try done. apply (umem_same k l k' l'); try done. intros va Hva.
  assert (present (pages k) d va ∧ 0 ≤ va < KERNBASE) as [Hpr Hvk] by (by apply (present_up k d sz)).
  split_and!; [done| |by apply H4]. unfold present. by rewrite H2 by (unfold KERNBASE in *; lia).
Qed.

(** The child of a successful copy has the parent's memory. *)
Lemma child_memory k l k2 l2 d pg sz :
  uspace k l d → uspace k2 l2 pg → 0 ≤ sz ≤ KERNBASE → (∀ va, 0 ≤ va < sz → present (pages k) d va) →
  (∀ va, 0 ≤ va < KERNBASE → shows (pages k2) pg va
     (if bool_decide (va < PGROUNDUP sz) then Some (PTE_FLAGS (xlate (pages k) d va), ubyte (pages k) d va) else None)) →
  umem_load k2 pg sz = umem_load k d sz.
Proof.
  intros Hs Hs2 Hsz Hp Hsh. apply (umem_same k l k2 l2); try done. intros va Hva.
  destruct (present_up k d sz va Hsz Hp Hva) as [Hpr Hvk]. specialize (Hsh va Hvk). rewrite bool_decide_true in Hsh by lia.
  destruct Hsh as (H1 & _ & H2). done.
Qed.

End fork_memory.

(** * A fork on the small memory *)

Definition fk_parent : proc := set_pgdir (small_page 0) (set_sz 5000 (ProcSpec.ex_proc RUNNING 2 (Some 0%nat) None)).
Definition fk_table : list proc := ProcSpec.ex_proc SLEEPING 1 None (Some (CProc 0)) :: fk_parent :: replicate 62 proc_zero.
Definition fk_world (k : kstate) : kworld :=
  KWorld (SState (FState (fresh []) (Superblock 0 0 0 0 0 0 0) false [Inode 1 1 1 (SLock false false 0) false 0 0 0 0 0 []] [] [] blank_console false None)
            false (replicate 4 (File.File FD_NONE 1 false false 0 None 0)) ∅ k [] [] 0) false 7 (replicate 26 0) 0 0.

