(* ===== verification/KernelExec.v ===== *)
(** [exec] in the kernel (src/exec.c over src/proc.c and src/vm.c): the running
    process gets the program of a file of the disk, with the services of
    Kernel.v. *)
From S2P Require Import Prelude Layout Bytes Spinlock Sleeplock CString Format Kalloc Vm VmSpec Bio Log Console Kbd Fs FsSpec FsFile FsDir FsRef Directory Mkfs MkfsSpec MkfsBoot File Args Sysfile Exec ExecSpec ExecLoad ExecBoot.
From S2P Require Import ProcTable ProcSpec Kernel ForkSpec.

(** * The page table register *)

(** The executing CPU runs on the page directory [d] and takes traps on the
    stack [st]. *)
Definition cpu_runs_on (m : machine) (d st : Z) : Prop :=
  ∃ c, cpus m !! me m = Some c ∧ cr3 c = V2P d ∧ ts_esp0 c = u32 (st + KSTACKSIZE).

Lemma switched_run m cur d st :
  mach_user m cur →
  ∃ m', (pushcli;; mycpu_upd (set_esp0 (u32 (st + KSTACKSIZE)));; modify (λ m, upd_cpu (set_cr3 (V2P d)) (me m) m);; popcli) m = Ret tt m' [] ∧
    mach_user m' cur ∧ cpu_runs_on m' d st.
Proof.
  intros (Hok & c & Hc & Hn & Hp). set (m1 := upd_cpu pushed (me m) m).
  assert (mach_ok m1) as Hok1 by (by apply mach_ok_upd). assert (cpus m1 !! me m1 = Some (pushed c)) as Hc1 by exact (lookup_upd_me _ _ _ Hc).
  set (m2 := upd_cpu (set_esp0 (u32 (st + KSTACKSIZE))) (me m1) m1).
  assert (mach_ok m2) as Hok2 by (by apply mach_ok_upd). pose proof (lookup_upd_me (set_esp0 (u32 (st + KSTACKSIZE))) _ _ Hc1) as Hc2.
  set (m3 := upd_cpu (set_cr3 (V2P d)) (me m2) m2).
  assert (mach_ok m3) as Hok3 by (by apply mach_ok_upd). pose proof (lookup_upd_me (set_cr3 (V2P d)) m2 _ Hc2) as Hc3.
  exists (upd_cpu popped (me m3) m3). pose proof (lookup_upd_me popped m3 _ Hc3) as Hc4. split_and!.
  - rewrite (bind_run _ _ _ _ _ _ (pushcli_run m c Hok Hc)), prepend_nil. fold m1.
    rewrite (bind_run _ _ _ _ _ _ (mycpu_upd_run _ m1 _ Hok1 Hc1 eq_refl)), prepend_nil. fold m2.
    rewrite (bind_run _ _ _ tt m3 [] eq_refl), prepend_nil. eapply popcli_run; [done|exact Hc3|done|]. cbn. lia.
  - split; [by apply mach_ok_upd|]. eexists. split; [exact Hc4|]. cbn. split; [lia|done].
  - eexists. split; [exact Hc4|]. done.
Qed.

Lemma run_switchuvm {W : Type} {SV : ProcServices W} m cur i p L n ini b kp (w : W) :
  mach_user m cur → L !! i = Some p → p_kstack p ≠ 0 → p_pgdir p ≠ 0 →
  ∃ m', switchuvm i (PState m free_lock L n ini b kp w) = Ret tt (PState m' free_lock L n ini b kp w) [] ∧
    mach_user m' cur ∧ cpu_runs_on m' (p_pgdir p) (p_kstack p).
Proof.
  intros Hm Hp Hst Hpg. destruct (switched_run m cur (p_pgdir p) (p_kstack p) Hm) as (m' & R & H1 & H2). exists m'. split; [|done].
  unfold switchuvm. rewrite (bind_run _ _ _ _ _ _ (run_pget _ _ _ _ _ _ _ _ _ _ Hp)), prepend_nil. rewrite !bool_decide_false by done.
  unfold panic_if. rewrite !bind_mret. exact (zoom_run mach set_mach _ (PState m free_lock L n ini b kp w) _ _ _ R).
Qed.

(** * What [user_call] lends comes back *)

Lemma running_user {W} m cur lk L n ini b kp (w : W) : mach_user m cur → running (PState m lk L n ini b kp w) = Some cur.
Proof.
  intros ((Hnd & _) & c & Hc & _ & Hp). unfold running. cbn. rewrite Hc. cbn. by rewrite (find_apicid _ _ _ Hnd Hc).
Qed.

Lemma foldl_stays {A B} (f : A → B → A) (a : A) (l : list B) : (∀ x, x ∈ l → f a x = a) → foldl f a l = a.
Proof. induction l as [|x l IH]; intros H; [done|]. cbn. rewrite H by left. apply IH. intros y Hy. apply H. by right. Qed.

(** The bytes of one page of several. *)
Lemma drop_pages (pgs : list (list Z)) (i : nat) pg :
  Forall (λ p, length p = 4096%nat) pgs → pgs !! i = Some pg → ∃ rest, drop (4096 * i) (mjoin pgs) = pg ++ rest.
Proof.
  intros Hall. revert i. induction Hall as [|p pgs Hp Hall IH]; intros i Hi; [done|]. destruct i as [|i].
  - injection Hi as ->. by exists (mjoin pgs).
  - destruct (IH i Hi) as [rest E]. exists rest. cbn [mjoin list_join]. by rewrite drop_app_ge, Hp, Nat.mul_succ_r, Nat.add_sub by (rewrite Hp; lia).
Qed.
Lemma slice_pages (pgs : list (list Z)) (i : nat) pg n :
  Forall (λ p, length p = 4096%nat) pgs → pgs !! i = Some pg → slice (take n (mjoin pgs)) (4096 * i) 4096 = take (n - 4096 * i) pg.
Proof.
  intros Hall Hi. destruct (drop_pages pgs i pg Hall Hi) as [rest E]. unfold slice. rewrite skipn_firstn_comm, E, take_take.
  pose proof (Forall_lookup_1 _ _ _ _ Hall Hi) as Hl. cbn in Hl. rewrite take_app_le by (rewrite Hl; lia).
  destruct (decide (n - 4096 * i ≤ 4096)%nat); [by rewrite Nat.min_r by lia|]. rewrite Nat.min_l by lia. by rewrite !take_ge by lia.
Qed.

Lemma splice_prefix (pg : list Z) n : splice pg 0 (take n pg) = pg.
Proof.
  unfold splice. rewrite take_0, Nat.add_0_l, length_take. cbn [app]. destruct (decide (n ≤ length pg)%nat).
  - by rewrite Nat.min_l, take_drop by done.
  - rewrite Nat.min_r, take_ge, drop_ge by lia. by rewrite app_nil_r.
Qed.

(** Storing the memory that is there changes nothing. *)
Lemma umem_store_same k d sz mem :
  0 ≤ sz → (∀ v pg, pages k !! v = Some pg → length pg = 4096%nat) → umem_load k d sz = Some mem → umem_store d mem k = k.
Proof.
  intros Hsz Hall Hl. unfold umem_load in Hl. destruct (mapM _ _) as [pgs|] eqn:E; [|done]. injection Hl as <-.
  apply mapM_Some_1 in E. pose proof (Forall2_length _ _ _ E) as Hlen. rewrite length_seqZ in Hlen.
  assert (∀ i pg, user_page_of k d i = Some pg → pages k !! frame (pages k) d (4096 * i) = Some pg) as Hup.
  { intros i pg. unfold user_page_of. by destruct (has _ _). }
  assert (Forall (λ p, length p = 4096%nat) pgs) as Hpgs.
  { apply Forall_forall. intros p (j & Hj)%list_elem_of_lookup. destruct (Forall2_lookup_r _ _ _ _ _ E Hj) as (i & _ & Hi). eapply Hall. by apply Hup. }
  apply foldl_stays. intros i Hi%elem_of_seqZ. rewrite length_take in Hi.
  assert (0 ≤ i < (sz + 4095) / 4096) as Hi' by (Z.div_mod_to_equations; lia).
  destruct (Forall2_lookup_l _ _ _ (Z.to_nat i) i E) as (pg & Hj & Hp); [apply lookup_seqZ; lia|]. rewrite Hp.
  replace (Z.to_nat (4096 * i)) with (4096 * Z.to_nat i)%nat by lia. rewrite (slice_pages _ _ _ _ Hpgs Hj), splice_prefix.
  rewrite insert_id by (by apply Hup). by destruct k.
Qed.

Lemma take_back_same w (p : proc) : s_ofile (w_s w) = p_ofile p → f_cwd (s_fs (w_s w)) = p_cwd p → take_back w p = p.
Proof. intros H1 H2. unfold take_back. rewrite H1, H2. by destruct p. Qed.

Lemma alter_same {A} (L : list A) i x (f : A → A) : L !! i = Some x → f x = x → alter f i L = L.
Proof. intros Hx Hf. apply list_eq. intros j. destruct (decide (j = i)) as [->|]; [by rewrite list_lookup_alter_eq, Hx; cbn; rewrite Hf|by rewrite list_lookup_alter_ne]. Qed.

(** A service call that leaves the process's memory, files and directory. *)
Lemma user_call_run {A} (c : M sstate A) m cur L n ini b kp w p mem a s' t :
  mach_user m cur → L !! cur = Some p → umem_load (kmem w) (p_pgdir p) (p_sz p) = Some mem → 0 ≤ p_sz p →
  c (w_s (lend p mem w)) = Ret a s' t → only_fs_mem (w_s (lend p mem w)) s' → f_cwd (s_fs s') = p_cwd p →
  umem_load (s_kmem s') (p_pgdir p) (p_sz p) = Some mem → (∀ v pg, pages (s_kmem s') !! v = Some pg → length pg = 4096%nat) →
  ∃ m', mach_user m' cur ∧
    user_call (on_s c) (PState m free_lock L n ini b kp w) = Ret a (PState m' free_lock (wakes t L) n ini b kp (set_ws s' w)) t.
Proof.
  intros Hm Hp Hl Hsz Hc Hrest Hcwd Hl' Hlen. unfold user_call. rewrite (running_user _ _ _ _ _ _ _ _ _ Hm). cbn [mbind option_bind procs world].
  rewrite Hp. cbn [mbind option_bind]. unfold kmem in Hl. rewrite Hl. cbn [mbind option_bind].
  assert (on_s c (lend p mem w) = Ret a (set_ws s' w) t) as R by exact (zoom_run w_s set_ws _ (lend p mem w) _ _ _ Hc). rewrite R.
  assert (keep_mem (p_pgdir p) (set_ws s' w) = set_ws s' w) as ->.
  { unfold keep_mem. cbn [w_s set_ws]. assert (s_mem s' = mem) as -> by (by rewrite Hrest). rewrite (umem_store_same _ _ (p_sz p)) by done. by destruct s'. }
  rewrite (alter_same L cur p) by (done || (apply take_back_same; [by rewrite Hrest|done])).
  destruct (run_deliver t m cur L n ini b kp (set_ws s' w) Hm) as (m' & Hm' & E). exists m'. split; [done|].
  change (prepend t ((deliver t;; mret a) (PState m free_lock L n ini b kp (set_ws s' w))) = Ret a (PState m' free_lock (wakes t L) n ini b kp (set_ws s' w)) t).
  rewrite (bind_run _ _ _ _ _ _ E). cbn. by rewrite app_nil_r.
Qed.

Lemma fs_up_lend D x killed cwd pid : fs_up D x → fs_up D (set_fproc killed cwd pid x).
Proof.
  intros [[H1 [[B1 B2 B3 B4 B5] L2 L3 L4 L5 L6 L7 L8] H3 H4 H5 H6 H7] ? ? ? ?]. split; done.
Qed.

(** * exec *)

Section exec.
Context {KI : KernelImage} {KO : KernelImageOk KI} (initcode : list Z).
Implicit Types (k : kstate) (w : kworld).

Lemma pgdir_nonzero k l d : uspace k l d → d ≠ 0.
Proof. intros [_ [[(_ & Hd & _) _] _ _] _]. pose proof kend_pos. lia. Qed.

Lemma umem_present k l d sz :
  uspace k l d → 0 ≤ sz ≤ KERNBASE → (∀ va, 0 ≤ va < sz → present (pages k) d va) → is_Some (umem_load k d sz).
Proof.
  intros Hs Hsz Hp. unfold umem_load. apply fmap_is_Some, mapM_is_Some_2, Forall_forall. intros i Hi%elem_of_seqZ.
  unfold user_page_of. unfold KERNBASE in *. assert (present (pages k) d (4096 * i) ∧ 0 ≤ 4096 * i < KERNBASE) as [Hpr Hr].
  { apply (present_up k d sz); [done|done|]. destruct (PGROUNDUP_spec sz) as (-> & _); [lia|]. Z.div_mod_to_equations. lia. }
  pose proof (page_bytes k l d (4096 * i) Hs ltac:(Z.div_mod_to_equations; lia) Hr Hpr) as (pg & Hpg & _). unfold present in Hpr. cbn. rewrite Hpr. by exists pg.
Qed.

(** The new program after the old memory is freed. *)
Lemma old_freed l0 k0 B sz argv sp k l d d0 :
  uspace k0 l0 d0 → starts_with l0 (pages k0) B sz argv sp k l d →
  ∃ k' l', freevm d0 k = Ret tt k' [] ∧ runs_with B sz argv sp k' l' d ∧
    (∀ u, u ∈ l0 ∨ owns (pages k0) d0 u ↔ u ∈ l' ∨ owns (pages k') d u) ∧
    ∀ u, u ∉ l0 → ¬ owns (pages k0) d0 u → pages k' !! u = pages k0 !! u.
Proof.
  intros Hs [Hrun Hacct Hkept]. pose proof (rw_space _ _ _ _ _ _ _ Hrun) as Hs1.
  assert (∀ u, u ∈ l → u ∈ l0) as Hsub by (intros u Hu; apply Hacct; by left).
  destruct (uspace_frame k0 l0 d0 k l Hs (us_inv _ _ _ Hs1)) as (Q1 & Q2 & Q3 & _).
  { intros u Ho. apply (owns_used _ _ _ _ Hs) in Ho as [_ Hu]. split; [by intros ?%Hsub|by apply Hkept]. }
  assert (∀ u, owns (pages k) d0 u ↔ owns (pages k0) d0 u) as Hold.
  { intros u. unfold owns. by rewrite Q3, (same_user_frames _ _ _ _ (same_map_user _ _ _ Q2)). }
  destruct (freevm_run k l d0 Q1) as (k' & freed & E & Hk' & Hin & Hfr). exists k', (freed ++ l).
  destruct (runs_with_frame B sz argv sp k l k' (freed ++ l) d Hrun Hk') as [Hrun' Hown].
  { intros u Ho. assert (u ∉ freed) as Hu.
    { rewrite Hin, Hold. intros [_ Hu]%(owns_used _ _ _ _ Hs). apply Hu, Hacct. by right. }
    split; [|by apply Hfr]. rewrite elem_of_app. intros [?|?]; [done|]. by apply (owns_used _ _ _ _ Hs1) in Ho as [_ ?]. }
  split_and!; [done|done| |].
  - intros u. rewrite elem_of_app, Hin, Hold, Hown, Hacct. tauto.
  - intros u Hu Ho. rewrite Hfr by (by rewrite Hin, Hold). by apply Hkept.
Qed.

(** Writing free pages keeps the memory that was lent. *)
Lemma kept_mem w p mem l k' l' :
  uspace (kmem w) l (p_pgdir p) → 0 ≤ p_sz p ≤ KERNBASE → (∀ va, 0 ≤ va < p_sz p → present (pages (kmem w)) (p_pgdir p) va) →
  umem_load (kmem w) (p_pgdir p) (p_sz p) = Some mem →
  kalloc_inv k' l' → (∀ u, u ∈ l' → u ∈ l) → (∀ u, u ∉ l → pages k' !! u = pages (kmem w) !! u) →
  umem_load k' (p_pgdir p) (p_sz p) = Some mem ∧ ∀ v pg, pages k' !! v = Some pg → length pg = 4096%nat.
Proof.
  intros Hs Hsz Hp Hmem Hk' Hl Hfr. destruct (memory_kept _ _ _ _ _ _ Hs Hk' Hl Hfr Hsz Hp) as (_ & _ & E). split; [by rewrite E|].
  intros v pg Hv. by apply (ki_pages _ _ Hk' _ _ Hv).
Qed.

(** The process after [exec] of image [im]. *)
Definition execed (im : image) (c : proc) : proc := set_image im (set_name (name_copy (p_name c) (im_name im ++ [0])) c).

(** The end of [exec]. *)
Lemma exec_end m cur L n ini b kp w c im k' :
  mach_user m cur → L !! cur = Some c → p_kstack c ≠ 0 → im_pgdir im ≠ 0 → freevm (p_pgdir c) (kmem w) = Ret tt k' [] →
  ∃ m', (p ← pget cur; pupd cur (set_name (name_copy (p_name p) (im_name im ++ [0])));; pupd cur (set_image im);;
         switchuvm cur;; svc (sv_freevm (ProcServices := kernel_services initcode) (p_pgdir p));; mret 0)
          (PState m free_lock L n ini b kp w)
        = Ret 0 (PState m' free_lock (<[cur := execed im c]> L) n ini b kp (with_kmem k' w)) [] ∧
    mach_user m' cur ∧ cpu_runs_on m' (im_pgdir im) (p_kstack c).
Proof.
  intros Hm Hc Hst Hpg E. rewrite (bind_run _ _ _ _ _ _ (run_pget _ _ _ _ _ _ _ _ _ _ Hc)), prepend_nil.
  assert (cur < length L)%nat as Hlt by (by eapply lookup_lt_Some).
  rewrite (bind_run _ _ _ _ _ _ (run_pupd0 _ _ _ _ _ _ _ _ _ _ _ Hc)), prepend_nil.
  rewrite (bind_run _ _ _ _ _ _ (run_pupd _ _ _ _ _ _ _ _ _ _ (set_image im) Hlt)), prepend_nil. fold (execed im c).
  assert (p_kstack (execed im c) = p_kstack c ∧ p_pgdir (execed im c) = im_pgdir im) as [E1 E2] by done.
  destruct (run_switchuvm (SV := kernel_services initcode) m cur cur (execed im c) (<[cur := execed im c]> L) n ini b kp w Hm) as (m' & R & H1 & H2);
    [by apply list_lookup_insert_eq|by rewrite E1|by rewrite E2|].
  exists m'. split; [|by rewrite E1, E2 in H2]. rewrite (bind_run _ _ _ _ _ _ R), prepend_nil.
  rewrite (bind_run _ _ _ _ _ _ (run_svc _ _ _ _ _ _ _ _ _ _ _ (svc_kmem _ w tt k' [] E))), prepend_nil. done.
Qed.

(** The process [c] is as it was, and so is all memory. *)
Definition exec_undone w (l : list Z) c w' l' (C : list Z) : Prop :=
  uspace (kmem w') l' (p_pgdir c) ∧ same_map (pages (kmem w)) (pages (kmem w')) (p_pgdir c) ∧
  umem_load (kmem w') (p_pgdir c) (p_sz c) = umem_load (kmem w) (p_pgdir c) (p_sz c) ∧
  (∀ u, u ∈ l ↔ u ∈ l') ∧ (∀ u, u ∉ l → pages (kmem w') !! u = pages (kmem w) !! u) ∧
  ∀ entry sz B, program C = Some (entry, sz, B) → Z.of_nat (length l) ≤ 1029 + PGROUNDUP sz / PGSIZE.

(** The process [c] runs the program [C] from its start, on the CPU whose
    state is in [m']; the pages of its old memory are free or the program's. *)
Definition exec_done w (l : list Z) c m' w' (l' : list Z) (C path : list Z) argv im : Prop :=
  ∃ sz B, program C = Some (im_entry im, sz, B) ∧ im_sz im = PGROUNDUP sz + 2 * PGSIZE ∧ im_name im = exec_last path path ∧
    runs_with B sz argv (im_sp im) (kmem w') l' (im_pgdir im) ∧ cpu_runs_on m' (im_pgdir im) (p_kstack c) ∧
    (∀ u, u ∈ l ∨ owns (pages (kmem w)) (p_pgdir c) u ↔ u ∈ l' ∨ owns (pages (kmem w')) (im_pgdir im) u) ∧
    ∀ u, u ∉ l → ¬ owns (pages (kmem w)) (p_pgdir c) u → pages (kmem w') !! u = pages (kmem w) !! u.

End exec.

(** * A program of one segment *)

(** The ELF header, one program header, and four bytes of code, which is
    loaded at address 0 of a memory of 8 bytes. *)
Definition tiny_elf : list Z :=
  [127; 69; 76; 70] ++ replicate 24 0 ++ le32 52 ++ replicate 12 0 ++ le16 1 ++ replicate 6 0 ++
  (([1; 84; 0; 0; 4; 8; 7; 4096] : list Z) ≫= le32) ++ [235; 254; 144; 144].
Definition tiny_files : list (list Z * list Z) := [(str "_ls", tiny_elf)].
Lemma tiny_files_fit : Forall file_fits tiny_files.
Proof.
  apply Forall_cons_2; [|constructor]. split_and!; [vm_compute; set_solver| | |by vm_compute].
  - apply str_bytes.
  - vm_compute. repeat constructor; done.
Qed.

(** 2300 pages of memory, all free. *)
Definition wide_base : Z := KERNBASE + PHYSTOP - 2300 * 4096.
Definition wide_image : KernelImage := image_to wide_base.
Lemma wide_image_ok : KernelImageOk wide_image.
Proof. split; by vm_compute. Qed.
Definition wide_start : kstate := cleared_from wide_base.
Lemma wide_inv : kalloc_inv (KI := wide_image) wide_start [].
Proof. by apply cleared_inv. Qed.

Lemma wide_free : ∃ k l, freerange (KI := wide_image) wide_base (KERNBASE + PHYSTOP) wide_start = Ret tt k [] ∧
  kalloc_inv (KI := wide_image) k l ∧ length l = 2300%nat.
Proof.
  destruct (freerange_run (KI := wide_image) (KO := wide_image_ok) wide_base (KERNBASE + PHYSTOP) [] wide_start wide_inv) as (k & E & Hk & _); [by vm_compute..|set_solver|].
  eexists k, _. split_and!; [exact E|exact Hk|]. rewrite app_nil_r, length_rev. unfold range_pages, page_range. rewrite length_fmap, length_seq. by vm_compute.
Qed.

Lemma tiny_program : ∃ B, program tiny_elf = Some (0, 8, B).
Proof.
  assert (fst <$> program tiny_elf = Some (0, 8)) as E by (by vm_compute). destruct (program tiny_elf) as [[[e sz] B]|]; [|done].
  injection E as -> ->. by exists B.
Qed.

Lemma tiny_named : strip (str "_ls") ≠ [] ∧ 0 ∉ str "_ls" ∧ first_named tiny_files 0 (strip (str "_ls")).
Proof. unfold first_named. split_and!; [done|vm_compute; set_solver|by vm_compute..|]. intros j' x Hx Hlt. lia. Qed.
Definition tiny_argv : list (list Z) := [str "ls"; str "-l"].
Lemma tiny_args : args_fit tiny_argv.
Proof. split; [|split; [vm_compute; lia|by vm_compute]]. repeat (apply Forall_cons; split; [apply str_bytes|]). constructor. Qed.

(** A process without memory, and the free pages left beside it. *)
Lemma wide_process : ∃ k l d, uspace (KI := wide_image) k l d ∧ 1200 ≤ Z.of_nat (length l).
Proof.
  destruct wide_free as (k & l & E & Hk & Hl). pose proof wide_image_ok as KO.
  destruct (setupkvm_holds (KI := wide_image) l (pages k) k eq_refl Hk) as (d & k' & l' & _ & [(_ & _ & _ & _ & Hsh)|(_ & Hb)]).
  - exfalso. pose proof (short_length _ _ l Hsh (ki_nodup _ _ Hk) ltac:(done)) as H. rewrite Hl in H. apply H. reflexivity.
  - exists k', l', d. split; [apply Hb|]. pose proof Hb as [_ Hacc _ _ Huser _]. destruct (owned_few (pages k') d 0) as (O & HO & Hlen); [lia| |].
    { intros va Hva. specialize (Huser va Hva). rewrite bool_decide_false in Huser by (change (PGROUNDUP 0) with 0; lia). exact Huser. }
    assert (length l ≤ length (l' ++ O))%nat as H.
    { apply submseteq_length, NoDup_submseteq; [apply Hk|]. intros u Hu. apply Hacc in Hu. rewrite elem_of_app. destruct Hu; [by left|right; by apply HO]. }
    rewrite length_app, Hl in H. change (1025 + (0 + 4095) / 4096) with 1025 in Hlen. lia.
Qed.

Definition ke_proc (d : Z) : proc := set_pgdir d (set_sz 0 (set_kstack 4096 (ProcSpec.ex_proc RUNNING 2 (Some 0%nat) None))).
Definition ke_table (d : Z) : list proc := [ProcSpec.ex_proc SLEEPING 1 None (Some (CProc 0)); ke_proc d].
Definition ke_world (x : fstate) (k : kstate) : kworld := KWorld (SState x false [] ∅ k [] [] 0) false 7 (replicate 26 0) 0 0.

