(* ===== verification/Ulib.v ===== *)
(** The user library (src/ulib.c) but for [atoi], which is in Format.v, and
    [stat], which only wraps three system calls.  As in CString.v the [mem*]
    routines work on one memory in which the blocks may overlap, and a string
    is the bytes from its pointer to the end of its object. *)
From S2P Require Import Prelude Bytes CString.

(** [strchr(s, c)]: the position of the character before the NUL. *)
Fixpoint strchr (s : list Z) (c : Z) : option nat :=
  match s with
  | [] => None
  | x :: s' => if bool_decide (x = 0) then None else if bool_decide (x = c) then Some 0%nat else S <$> strchr s' c
  end.

(** The loop of [gets] with room for [n] characters and the NUL, on the bytes
    that [read(0, &c, 1)] will give: the characters stored, and the input
    left. *)
Fixpoint gets_line (n : nat) (input : list Z) : list Z * list Z :=
  match n, input with
  | S n', c :: input' =>
      if bool_decide (c = 10) || bool_decide (c = 13) then ([c], input')
      else let '(l, rest) := gets_line n' input' in (c :: l, rest)
  | _, _ => ([], input)
  end.

(** [strcpy(s, t)]: the destination after the loop. *)
Fixpoint strcpy (s t : list Z) : option (list Z) :=
  match s, t with
  | _ :: s', c :: t' => if bool_decide (c = 0) then Some (c :: s') else r ← strcpy s' t'; Some (c :: r)
  | _, _ => None
  end.

Fixpoint strcmp (p q : list Z) : option Z :=
  match p, q with
  | a :: p', b :: q' =>
      if bool_decide (a ≠ 0) && bool_decide (a = b) then strcmp p' q' else Some (u8 a - u8 b)
  | _, _ => None
  end.

(** [strlen] counts in an [int] and returns a [uint]. *)
Definition u_strlen (s : list Z) : option Z := u32 <$> strlen_from s 0.

(** [memset] is always the byte store, and [memmove] always copies forwards. *)
Definition u_memset (m : list Z) (dst : nat) (c : Z) (n : nat) : option (list Z) := stosb m dst c n.
Definition u_memmove (m : list Z) (dst src : nat) (n : Z) : option (list Z) := copy_forward m dst src (Z.to_nat n).

Lemma strchr_elem l x : 0 ∉ l → is_Some (strchr l x) ↔ x ∈ l.
Proof.
  induction l as [|y l IH]; intros H0; simpl; [split; [by intros [? ?]|by intros ?%not_elem_of_nil]|].
  apply not_elem_of_cons in H0 as [Hy H0]. rewrite bool_decide_false by done. rewrite elem_of_cons. case_bool_decide as E.
  - split; [by left|by eexists].
  - rewrite fmap_is_Some, IH by done. naive_solver.
Qed.

(** [strcpy] writes the string and its NUL, and leaves the rest of a
    destination that is large enough. *)
Lemma strcpy_spec s t :
  0 ∈ t → (length (cstr t) < length s)%nat →
  strcpy s t = Some (cstr t ++ 0 :: drop (S (length (cstr t))) s).
Proof.
  revert s. induction t as [|c t IH]; intros s H0 Hl; [by apply not_elem_of_nil in H0|].
  destruct s as [|x s]; [simpl in Hl; lia|]. cbn [strcpy cstr] in *. case_bool_decide as Hc; [by subst c|].
  apply elem_of_cons in H0 as [?|H0]; [congruence|]. rewrite IH by (simpl in Hl; done || lia). done.
Qed.

(** The string runs past a destination that is too small. *)
Lemma strcpy_overruns s t : (length s ≤ length (cstr t))%nat → strcpy s t = None.
Proof.
  revert s. induction t as [|c t IH]; intros [|x s] Hl; simpl in *; try done.
  case_bool_decide; simpl in *; [lia|]. by rewrite IH by lia.
Qed.

(** [strcmp] returns 0 exactly on equal strings. *)
Lemma strcmp_zero p q :
  Forall byte p → Forall byte q → 0 ∈ p → 0 ∈ q →
  ∃ r, strcmp p q = Some r ∧ (r = 0 ↔ cstr p = cstr q).
Proof.
  revert q. induction p as [|a p IH]; intros q Hp Hq H0p H0q; [by apply not_elem_of_nil in H0p|].
  destruct q as [|b q]; [by apply not_elem_of_nil in H0q|].
  apply Forall_cons in Hp as [Ha Hp]. apply Forall_cons in Hq as [Hb Hq]. cbn [strcmp cstr].
  destruct (bool_decide (a ≠ 0) && bool_decide (a = b)) eqn:E.
  - apply andb_true_iff in E as [Ha0%bool_decide_eq_true <-%bool_decide_eq_true].
    apply elem_of_cons in H0p as [?|H0p]; [congruence|]. apply elem_of_cons in H0q as [?|H0q]; [congruence|].
    rewrite (bool_decide_false (a = 0)) by done.
    destruct (IH q Hp Hq H0p H0q) as (r & -> & Hr). exists r. split; [done|]. rewrite Hr. split; [by intros ->|by intros [= ?]].
  - eexists. split; [reflexivity|]. rewrite !u8_small by done.
    apply andb_false_iff in E as [Ha0%bool_decide_eq_false|Hab%bool_decide_eq_false].
    + apply dec_stable in Ha0 as ->. rewrite bool_decide_true by done. case_bool_decide; split; intros; try lia; done.
    + split; [lia|]. do 2 case_bool_decide; intros [=]; congruence.
Qed.

(** Where the destination does not start inside the source, [memmove] of the
    user library is that of the kernel. *)
Lemma u_memmove_kernel m dst src n :
  0 ≤ n → (dst ≤ src)%nat ∨ (src + Z.to_nat n ≤ dst)%nat →
  u_memmove m dst src n = memmove m dst src (Z.to_nat n).
Proof.
  intros Hn H. unfold u_memmove, memmove. do 2 case_bool_decide; try done. lia.
Qed.

(** Where it does, the bytes it overwrites are copied again. *)
Example u_memmove_overlap :
  u_memmove [1; 2; 3; 4; 5] 1 0 4 = Some [1; 1; 1; 1; 1] ∧ memmove [1; 2; 3; 4; 5] 1 0 4 = Some [1; 1; 2; 3; 4].
Proof. split; reflexivity. Qed.

(** [memset] of the user library is that of the kernel on a block in memory. *)
Lemma u_memset_kernel m dst c n :
  (dst + n ≤ length m)%nat → u_memset m dst c n = memset m dst c n.
Proof. intros H. unfold u_memset. by rewrite memset_spec, stosb_spec. Qed.
