(* ===== verification/Grep.v ===== *)
(** The user program grep (src/grep.c): Kernighan and Pike's matcher for the
    operators [^], [.], [*] and [$], and the loop that reads a file through
    a 1024-byte buffer and prints the lines that match.

    A string is the list of its characters, without the NUL; [re[i]] past the
    end is the NUL.  The theorems: the matcher decides a language given by a
    denotation, and on a file with lines that fit the buffer grep prints the
    lines of that language, in order. *)
From S2P Require Import Prelude Bytes Ulib.

Definition caret : Z := chr "^".
Definition dot : Z := chr ".".
Definition star : Z := chr "*".
Definition dollar : Z := chr "$".
Definition newline : Z := 10.

(** [matchhere(re, text)], with the loop of [matchstar(re[0], re+2, text)]. *)
Fixpoint matchhere (re text : list Z) {struct re} : bool :=
  match re with
  | [] => true
  | c :: re1 =>
      let plain :=
        if bool_decide (c = dollar) && bool_decide (re1 = []) then bool_decide (text = [])
        else match text with
             | t :: text' => if bool_decide (c = dot) || bool_decide (c = t) then matchhere re1 text' else false
             | [] => false
             end in
      match re1 with
      | s :: re2 =>
          if bool_decide (s = star) then
            (fix matchstar (text : list Z) : bool :=
               if matchhere re2 text then true
               else match text with
                    | t :: text' => if bool_decide (t = c) || bool_decide (c = dot) then matchstar text' else false
                    | [] => false
                    end) text
          else plain
      | [] => plain
      end
  end.
(** [matchstar(c, re, text)] *)
Fixpoint matchstar (c : Z) (re text : list Z) : bool :=
  if matchhere re text then true
  else match text with
       | t :: text' => if bool_decide (t = c) || bool_decide (c = dot) then matchstar c re text' else false
       | [] => false
       end.
(** The loop of [match]. *)
Fixpoint match_loop (re text : list Z) : bool :=
  if matchhere re text then true
  else match text with _ :: text' => match_loop re text' | [] => false end.
Definition match_re (re text : list Z) : bool :=
  match re with
  | c :: re' => if bool_decide (c = caret) then matchhere re' text else match_loop re text
  | [] => match_loop re text
  end.

(** The inner loop of [grep] from [p] on: what is written, and the new [p]. *)
Fixpoint grep_lines (fuel : nat) (pattern p : list Z) : list Z * list Z :=
  match fuel with
  | O => ([], p)
  | S fuel' =>
      match strchr p newline with
      | None => ([], p)
      | Some k =>
          let '(out, rest) := grep_lines fuel' pattern (drop (S k) p) in
          ((if match_re pattern (take k p) then take (S k) p else []) ++ out, rest)
      end
  end.

Section read.
(** The system call [read] on the file, as a function of the file's state. *)
Context {St : Type} (read : nat → St → list Z * St).

(** The outer loop of [grep], with the [m] bytes [b] kept in the buffer;
    [None] when the fuel runs out. *)
Fixpoint grep (fuel : nat) (pattern : list Z) (b : list Z) (st : St) : option (list Z) :=
  match fuel with
  | O => None
  | S fuel' =>
      let '(chunk, st') := read (1024 - length b - 1) st in
      match chunk with
      | [] => Some []
      | _ =>
          let b := b ++ chunk in
          let '(out, p) := grep_lines (S (length b)) pattern b in
          let b := if bool_decide (length p = length b) then [] else p in
          out' ← grep fuel' pattern b st';
          Some (out ++ out')
      end
  end.
End read.

(** * The language of a pattern *)

Inductive atom : Type := Any | Lit (c : Z).
Inductive item : Type := One (a : atom) | Many (a : atom).
(** A pattern from [matchhere] on: its items, and whether it ends in [$]. *)
Definition pat : Type := list item * bool.

Definition atom_of (c : Z) : atom := if bool_decide (c = dot) then Any else Lit c.
Fixpoint parse (re : list Z) : pat :=
  match re with
  | [] => ([], false)
  | c :: re1 =>
      let plain := if bool_decide (c = dollar) && bool_decide (re1 = []) then ([], true)
                   else let '(l, e) := parse re1 in (One (atom_of c) :: l, e) in
      match re1 with
      | s :: re2 => if bool_decide (s = star) then let '(l, e) := parse re2 in (Many (atom_of c) :: l, e) else plain
      | [] => plain
      end
  end.

Definition in_atom (a : atom) (t : Z) : Prop := match a with Any => True | Lit c => t = c end.
Definition in_item (i : item) (w : list Z) : Prop :=
  match i with
  | One a => ∃ t, w = [t] ∧ in_atom a t
  | Many a => Forall (in_atom a) w
  end.
(** Words of the language: a piece for each item. *)
Inductive in_items : list item → list Z → Prop :=
| ii_nil : in_items [] []
| ii_cons i l w1 w2 : in_item i w1 → in_items l w2 → in_items (i :: l) (w1 ++ w2).
(** The pattern matches at the beginning of the text. *)
Definition here (p : pat) (text : list Z) : Prop :=
  ∃ w rest, text = w ++ rest ∧ in_items p.1 w ∧ (p.2 = true → rest = []).
(** The text contains a match; a pattern that starts with [^] matches only at
    the beginning. *)
Definition matches (re text : list Z) : Prop :=
  match re with
  | c :: re' => if bool_decide (c = caret) then here (parse re') text else ∃ t1 t2, text = t1 ++ t2 ∧ here (parse re) t2
  | [] => True
  end.

(** ** The matcher decides the language *)

Lemma in_atom_of c t : in_atom (atom_of c) t ↔ c = dot ∨ c = t.
Proof.
  unfold atom_of. case_bool_decide; simpl; [by split; [left|]|]. split; [by intros ->; right|]. by intros [?| ->].
Qed.

Lemma matchhere_star c re text : matchhere (c :: star :: re) text = matchstar c re text.
Proof.
  cbn [matchhere]. rewrite bool_decide_true by done. induction text as [|t text IH]; [done|].
  cbn [matchstar]. destruct (matchhere re (t :: text)); [done|]. by rewrite IH.
Qed.
Lemma not_end c (re : list Z) : ¬ (c = dollar ∧ re = []) → bool_decide (c = dollar) && bool_decide (re = []) = false.
Proof. intros H. rewrite <- bool_decide_and. by apply bool_decide_false. Qed.
(** Without a star, after the other special case. *)
Lemma matchhere_one c re text :
  head re ≠ Some star → ¬ (c = dollar ∧ re = []) →
  matchhere (c :: re) text = match text with t :: text' => if bool_decide (c = dot) || bool_decide (c = t) then matchhere re text' else false | [] => false end.
Proof.
  intros Hs Hd. cbn [matchhere].
  rewrite (not_end _ _ Hd).
  destruct re as [|s re]; [done|]. rewrite bool_decide_false; [done|]. intros ->. by apply Hs.
Qed.
Lemma parse_one c re :
  head re ≠ Some star → ¬ (c = dollar ∧ re = []) → parse (c :: re) = (One (atom_of c) :: (parse re).1, (parse re).2).
Proof.
  intros Hs Hd. cbn [parse].
  rewrite (not_end _ _ Hd).
  destruct re as [|s re]; [done|]. rewrite bool_decide_false by (intros ->; by apply Hs). by destruct (parse (s :: re)).
Qed.

Lemma here_one a l e text :
  here (One a :: l, e) text ↔ match text with t :: text' => in_atom a t ∧ here (l, e) text' | [] => False end.
Proof.
  split.
  - intros (w & rest & -> & Hw & He). simpl in Hw. inversion Hw as [|i l' w1 w2 H1 H2]; subst. destruct H1 as (t & -> & Ht). simpl.
    split; [done|]. by exists w2, rest.
  - destruct text as [|t text]; [done|]. intros (Ht & w & rest & -> & Hw & He). exists (t :: w), rest. split_and!; try done.
    simpl. apply (ii_cons (One a) l [t] w); [by exists t|done].
Qed.
Lemma here_many a l e text :
  here (Many a :: l, e) text ↔ ∃ w rest, text = w ++ rest ∧ Forall (in_atom a) w ∧ here (l, e) rest.
Proof.
  split.
  - intros (w & rest & -> & Hw & He). simpl in Hw. inversion Hw as [|i l' w1 w2 H1 H2]; subst. exists w1, (w2 ++ rest).
    split_and!; [by rewrite (assoc_L (++))|done|]. by exists w2, rest.
  - intros (w & r & -> & Hw & w2 & rest & -> & H2 & He). exists (w ++ w2), rest. split_and!; [by rewrite (assoc_L (++))| |done].
    simpl. by apply (ii_cons (Many a)).
Qed.

Lemma matchstar_spec c re text :
  (∀ text, matchhere re text = true ↔ here (parse re) text) →
  matchstar c re text = true ↔ ∃ w rest, text = w ++ rest ∧ Forall (in_atom (atom_of c)) w ∧ here (parse re) rest.
Proof.
  intros IH. induction text as [|t text IHt]; cbn [matchstar].
  - split.
    + destruct (matchhere re []) eqn:E; [|done]. intros _. exists [], []. split_and!; [done|constructor|by apply IH].
    + intros (w & rest & E & _ & H). symmetry in E. apply app_eq_nil in E as [-> ->]. by rewrite (proj2 (IH []) H).
  - split.
    + destruct (matchhere re (t :: text)) eqn:E; [intros _; exists [], (t :: text); split_and!; [done|constructor|by apply IH]|].
      destruct (bool_decide (t = c) || bool_decide (c = dot)) eqn:Eb; [|done]. intros (w & rest & -> & Hw & H)%IHt.
      exists (t :: w), rest. split_and!; [done| |done]. constructor; [|done]. apply in_atom_of.
      apply orb_true_iff in Eb as [Eb|Eb]; apply bool_decide_eq_true in Eb; [by right|by left].
    + intros (w & rest & E & Hw & H). destruct (matchhere re (t :: text)) eqn:Eh; [done|]. destruct w as [|x w].
      { simpl in E. subst rest. apply IH in H. congruence. }
      injection E as <- ->. apply Forall_cons in Hw as [Hx Hw]. apply in_atom_of in Hx.
      assert (bool_decide (t = c) || bool_decide (c = dot) = true) as ->.
      { apply orb_true_iff. destruct Hx; [right|left]; by apply bool_decide_eq_true. }
      apply IHt. by exists w, rest.
Qed.

Lemma matchhere_spec n re text : (length re ≤ n)%nat → matchhere re text = true ↔ here (parse re) text.
Proof.
  revert re text. induction n as [|n IH]; intros [|c re] text Hn; simpl in Hn; try lia.
  1,2: split; [intros _; exists [], text; split_and!; [done|constructor|done]|done].
  destruct (decide (head re = Some star)) as [Hs|Hs].
  { destruct re as [|s re]; [done|]. injection Hs as ->. rewrite matchhere_star. simpl in Hn.
    rewrite matchstar_spec by (intros; apply IH; lia). cbn [parse]. rewrite bool_decide_true by done.
    destruct (parse re) as [l e] eqn:Ep. by rewrite here_many. }
  destruct (decide (c = dollar ∧ re = [])) as [[-> ->]|Hd].
  { change (matchhere [dollar] text) with (bool_decide (text = [])). change (parse [dollar]) with ([] : list item, true).
    rewrite bool_decide_eq_true. split.
    - intros ->. exists [], []. split_and!; [done|constructor|done].
    - intros (w & rest & -> & Hw & He). simpl in Hw. inversion Hw. by rewrite He. }
  rewrite matchhere_one, parse_one, here_one by done. destruct text as [|t text]; [done|].
  rewrite <- surjective_pairing, <- IH by lia. rewrite in_atom_of.
  destruct (bool_decide (c = dot) || bool_decide (c = t)) eqn:E.
  - apply orb_true_iff in E. rewrite !bool_decide_eq_true in E. naive_solver.
  - apply orb_false_iff in E. rewrite !bool_decide_eq_false in E. naive_solver.
Qed.

Lemma match_loop_spec re text : match_loop re text = true ↔ ∃ t1 t2, text = t1 ++ t2 ∧ here (parse re) t2.
Proof.
  induction text as [|t text IH]; cbn [match_loop].
  - destruct (matchhere re []) eqn:E.
    + split; [|done]. intros _. exists [], []. split; [done|]. by apply (matchhere_spec (length re)).
    + split; [done|]. intros (t1 & t2 & Et & H). symmetry in Et. apply app_eq_nil in Et as [-> ->].
      apply (matchhere_spec (length re)) in H; [congruence|done].
  - destruct (matchhere re (t :: text)) eqn:E.
    + split; [|done]. intros _. exists [], (t :: text). split; [done|]. by apply (matchhere_spec (length re)).
    + rewrite IH. split.
      * intros (t1 & t2 & -> & H). by exists (t :: t1), t2.
      * intros ([|x t1] & t2 & Et & H); [|injection Et as <- ->; by exists t1, t2].
        simpl in Et. subst t2. apply (matchhere_spec (length re)) in H; [congruence|done].
Qed.

(** Grep's matcher is right: [match] answers 1 exactly for the texts that
    contain a word of the pattern's language, at the beginning when the
    pattern starts with [^] and up to the end when it ends in [$], where a
    character stands for itself, [.] for any character, and [x*] for any
    number of [x]; the recursion of [matchhere] and [matchstar] ends for every
    pattern and text. *)
Theorem match_correct re text : match_re re text = true ↔ matches re text.
Proof.
  unfold match_re, matches. destruct re as [|c re].
  - split; [done|]. intros _. apply match_loop_spec. exists [], text. split; [done|]. exists [], text. split_and!; [done|constructor|done].
  - case_bool_decide; [by apply (matchhere_spec (length re))|apply match_loop_spec].
Qed.

(** * The lines of a file *)

(** The lines that end in a newline, and what follows the last of them. *)
Fixpoint cut (cur C : list Z) : list (list Z) * list Z :=
  match C with
  | [] => ([], cur)
  | c :: C' => if bool_decide (c = newline) then let '(l, r) := cut [] C' in (cur :: l, r) else cut (cur ++ [c]) C'
  end.
Definition print_line (pattern l : list Z) : list Z := if match_re pattern l then l ++ [newline] else [].
(** What grep should print. *)
Definition printed (pattern C : list Z) : list Z := (cut [] C).1 ≫= print_line pattern.

(** [read] from a regular file: as many bytes as asked for, or what is left. *)
Definition read_file (n : nat) (C : list Z) : list Z * list Z := (take n C, drop n C).

(** No stretch without a newline fills the buffer. *)
Definition short_lines (C : list Z) : Prop := ∀ A l B, C = A ++ l ++ B → newline ∉ l → (length l ≤ 1022)%nat.

Lemma cut_app cur A B : cut cur (A ++ B) = let '(l1, r) := cut cur A in let '(l2, r2) := cut r B in (l1 ++ l2, r2).
Proof.
  revert cur. induction A as [|c A IH]; intros cur; simpl; [by destruct (cut cur B)|].
  case_bool_decide; [|done]. rewrite IH. destruct (cut [] A) as [l1 r]. by destruct (cut r B).
Qed.
Lemma cut_plain cur A : newline ∉ A → cut cur A = ([], cur ++ A).
Proof.
  revert cur. induction A as [|c A IH]; intros cur H; simpl; [by rewrite app_nil_r|]. apply not_elem_of_cons in H as [Hc H].
  rewrite bool_decide_false by done. rewrite IH by done. by rewrite <- (assoc_L (++)).
Qed.
Lemma cut_line l B : newline ∉ l → cut [] (l ++ newline :: B) = (l :: (cut [] B).1, (cut [] B).2).
Proof.
  intros H. rewrite cut_app, cut_plain by done. simpl. by destruct (cut [] B).
Qed.
(** The rest is a suffix without a newline. *)
Lemma cut_rest cur A : newline ∉ cur → newline ∉ (cut cur A).2 ∧ ∃ A', cur ++ A = A' ++ (cut cur A).2.
Proof.
  revert cur. induction A as [|c A IH]; intros cur H; simpl; [split; [done|]; exists []; by rewrite app_nil_r|]. case_bool_decide as E.
  - destruct (IH [] (not_elem_of_nil _)) as [H1 [A' H2]]. destruct (cut [] A) as [l r]. simpl in *. split; [done|].
    exists (cur ++ c :: A'). by rewrite <- (assoc_L (++)), H2.
  - destruct (IH (cur ++ [c])) as [H1 [A' H2]]; [rewrite not_elem_of_app, list_elem_of_singleton; naive_solver|]. split; [done|].
    exists A'. by rewrite <- (assoc_L (++)) in H2.
Qed.
Lemma printed_app pattern A B : printed pattern (A ++ B) = printed pattern A ++ printed pattern ((cut [] A).2 ++ B).
Proof.
  unfold printed. rewrite (cut_app [] A B). destruct (cut_rest [] A (not_elem_of_nil _)) as [Hr _]. destruct (cut [] A) as [l1 r]. simpl in *.
  rewrite (cut_app [] r B), (cut_plain [] r) by done. simpl. destruct (cut r B) as [l2 r2]. simpl. by rewrite bind_app.
Qed.
Lemma printed_plain pattern A : newline ∉ A → printed pattern A = [].
Proof. intros H. unfold printed. by rewrite cut_plain. Qed.

Lemma strchr_spec p c :
  0 ∉ p → match strchr p c with
          | Some k => ∃ l q, p = l ++ c :: q ∧ c ∉ l ∧ length l = k
          | None => c ∉ p
          end.
Proof.
  induction p as [|x p IH]; intros H; [apply not_elem_of_nil|]. apply not_elem_of_cons in H as [Hx H]. cbn [strchr].
  rewrite bool_decide_false by done. case_bool_decide as E.
  - subst x. exists [], p. split_and!; [done|apply not_elem_of_nil|done].
  - specialize (IH H). destruct (strchr p c) as [k|]; simpl.
    + destruct IH as (l & q & -> & Hl & <-). exists (x :: l), q. split_and!; [done|by apply not_elem_of_cons|done].
    + by apply not_elem_of_cons.
Qed.

Lemma grep_lines_spec fuel pattern p :
  0 ∉ p → (length p < fuel)%nat → grep_lines fuel pattern p = (printed pattern p, (cut [] p).2).
Proof.
  revert p. induction fuel as [|fuel IH]; intros p H0 Hf; [lia|]. cbn [grep_lines]. pose proof (strchr_spec p newline H0) as Hs.
  destruct (strchr p newline) as [k|].
  - destruct Hs as (l & q & -> & Hl & <-). rewrite take_app_length.
    replace (take (S (length l)) (l ++ newline :: q)) with (l ++ [newline]) by (rewrite take_app_ge by lia; f_equal; by replace (S (length l) - length l)%nat with 1%nat by lia).
    replace (drop (S (length l)) (l ++ newline :: q)) with q by (rewrite drop_app_ge by lia; by replace (S (length l) - length l)%nat with 1%nat by lia).
    rewrite length_app in Hf. simpl in Hf. rewrite IH; [|set_solver|lia]. unfold printed. by rewrite cut_line by done.
  - unfold printed. by rewrite cut_plain by done.
Qed.

Lemma short_suffix A B : short_lines (A ++ B) → short_lines B.
Proof. intros H A' l B' -> Hl. apply (H (A ++ A') l B'); [by rewrite <- (assoc_L (++))|done]. Qed.

Lemma grep_spec fuel pattern b C :
  0 ∉ b ++ C → newline ∉ b → short_lines (b ++ C) → (length C < fuel)%nat →
  grep read_file fuel pattern b C = Some (printed pattern (b ++ C)).
Proof.
  revert b C. induction fuel as [|fuel IH]; intros b C H0 Hb Hs Hf; [lia|]. cbn [grep read_file].
  assert (length b ≤ 1022)%nat as Hlb by (by apply (Hs [] b C)). set (k := (1024 - length b - 1)%nat).
  destruct (decide (C = [])) as [->|Hne].
  { rewrite take_nil, app_nil_r. by rewrite printed_plain. }
  destruct C as [|c0 C0] eqn:EC; [done|]. rewrite <- EC in *. assert (∃ d D, take k C = d :: D) as (d & D & Ek).
  { rewrite EC. destruct k as [|k'] eqn:E; [lia|]. by eexists _, _. }
  rewrite Ek. rewrite <- Ek. set (b1 := b ++ take k C). assert (b ++ C = b1 ++ drop k C) as Eb1 by (unfold b1; by rewrite <- (assoc_L (++)), take_drop).
  rewrite Eb1 in H0, Hs |- *. apply not_elem_of_app in H0 as [H01 H02]. rewrite grep_lines_spec by (done || lia).
  assert (length (drop k C) < fuel)%nat as Hfd by (rewrite length_drop; assert (1 ≤ length C)%nat by (rewrite EC; simpl; lia); unfold k; lia).
  rewrite printed_app. destruct (cut_rest [] b1 (not_elem_of_nil _)) as [Hr [A' EA]]. simpl in EA. set (r := (cut [] b1).2) in *.
  destruct (decide (newline ∈ b1)) as [Hn|Hn].
  - rewrite bool_decide_false. 2: { intros E. assert (A' = []) as ->; [|by rewrite EA in Hn]. apply length_zero_iff_nil.
      rewrite EA in E. rewrite length_app in E. lia. }
    rewrite (IH r (drop k C)); [done| |done| |done].
    + rewrite EA in H01. set_solver.
    + rewrite EA, <- (assoc_L (++)) in Hs. by apply short_suffix in Hs.
  - assert (r = b1) as Er by (unfold r; by rewrite cut_plain). rewrite Er. rewrite (bool_decide_true (length b1 = length b1)) by done.
    assert (length b1 ≤ 1022)%nat as Hl1 by (by apply (Hs [] b1 (drop k C))).
    assert (drop k C = []) as ED.
    { apply drop_ge. unfold b1 in Hl1. rewrite length_app, length_take in Hl1. lia. }
    rewrite ED in *. rewrite (IH [] []); [|apply not_elem_of_nil|apply not_elem_of_nil| |simpl; lia].
    + rewrite (app_nil_r b1), (printed_plain pattern b1) by done. done.
    + intros A l B E _. symmetry in E. apply app_eq_nil in E as [-> E]. apply app_eq_nil in E as [-> ->]. simpl. lia.
Qed.



(** A line that arrives in two reads, the first without a newline, as from a
    terminal or a pipe, is lost: of "ab" and a newline, grep finds only "b". *)
Lemma grep_drops_split_line :
  let rd (_ : nat) (l : list (list Z)) := match l with [] => ([], []) | x :: l' => (x, l') end in
  grep rd 4 (str "a") [] [str "a"; str "b" ++ [10]] = Some [] ∧
  grep rd 4 (str "a") [] [str "ab" ++ [10]] = Some (str "ab" ++ [10]).
Proof. by vm_compute. Qed.
