(* ===== verification/Sh.v ===== *)
(** The shell (src/sh.c): the parser of command lines, and the system calls
    that run a command.

    A parsed command has pointers into the line, which [nulterminate] cuts
    into strings; here a pointer is a position in the line, and [cmd A] is the
    tree with words of type [A], so that the same tree serves for pointers and
    for the strings they point to.  [malloc] is taken to succeed.  The
    shell's [panic], which prints a message and exits, is the outcome
    [Panic].

    The theorems: the parser reads every tree back from its notation, whatever
    the white space, and ends on every line. *)
From S2P Require Import Prelude Layout Bytes Ulib.

Definition MAXARGS : nat := 10.

Inductive cmd (A : Type) : Type :=
| Execcmd (argv : list A)
| Redircmd (c : cmd A) (file : A) (mode fd : Z)
| Pipecmd (left right : cmd A)
| Listcmd (left right : cmd A)
| Backcmd (c : cmd A).
Arguments Execcmd {A} _.
Arguments Redircmd {A} _ _ _ _.
Arguments Pipecmd {A} _ _.
Arguments Listcmd {A} _ _.
Arguments Backcmd {A} _.

(** A word of the line: [argv[i]] and [eargv[i]], or [file] and [efile]. *)
Definition span : Type := nat * nat.

Definition whitespace : list Z := [32; 9; 13; 10; 11].
Definition symbols : list Z := str "<|>&;()".
Definition is_in (l : list Z) (c : Z) : bool := bool_decide (is_Some (strchr l c)).
Definition is_space : Z → bool := is_in whitespace.
Definition is_word (c : Z) : bool := negb (is_in whitespace c) && negb (is_in symbols c).

Section parser.
(** The line, with its NUL, and the position of the NUL. *)
Context (buf : list Z) (es : nat).

(** [*s] *)
Definition char_at (s : nat) : M nat Z := deref (buf !! s).
(** [while(s < es && f( *s)) s++;] *)
Fixpoint scan (f : Z → bool) (n s : nat) : nat :=
  match n with
  | O => s
  | S n' => match buf !! s with Some c => if f c then scan f n' (S s) else s | None => s end
  end.
Definition skip (f : Z → bool) (s : nat) : nat := scan f (es - s) s.

(** The token and its ends; the state is [*ps]. *)
Definition gettoken : M nat (Z * span) :=
  s ← get;
  let q := skip is_space s in
  c ← char_at q;
  '(ret, eq) ←
    (if bool_decide (c = 0) then mret (c, q)
     else if is_in (str "|();&<") c then mret (c, S q)
     else if bool_decide (c = chr ">") then
       c' ← char_at (S q);
       if bool_decide (c' = chr ">") then mret (chr "+", S (S q)) else mret (c, S q)
     else mret (chr "a", skip is_word q));
  modify (λ _, skip is_space eq);;
  mret (ret, (q, eq)).
Definition peek (toks : list Z) : M nat bool :=
  s ← get;
  let s := skip is_space s in
  modify (λ _, s);;
  c ← char_at s;
  mret (bool_decide (c ≠ 0) && is_in toks c).

(** A redirection: what [redircmd] is given besides the command. *)
Definition redir_of (tok : Z) (w : span) : option (span * Z * Z) :=
  if bool_decide (tok = chr "<") then Some (w, O_RDONLY, 0)
  else if bool_decide (tok = chr ">") then Some (w, Z.lor O_WRONLY O_CREATE, 1)
  else if bool_decide (tok = chr "+") then Some (w, Z.lor O_WRONLY O_CREATE, 1)
  else None.
Definition wrap (c : cmd span) (r : option (span * Z * Z)) : cmd span :=
  match r with Some (w, mode, fd) => Redircmd c w mode fd | None => c end.
(** [parseredirs]: the redirections in the order in which they are wrapped
    around the command.  (The command itself may still be completed after
    that, through the pointer that [parseexec] keeps.) *)
Fixpoint redirs_loop (fuel : nat) (rs : list (option (span * Z * Z))) : M nat (list (option (span * Z * Z))) :=
  match fuel with
  | O => undef
  | S fuel' =>
      b ← peek (str "<>");
      if b : bool then
        '(tok, _) ← gettoken;
        '(tok', w) ← gettoken;
        panic_if (bool_decide (tok' ≠ chr "a")) "missing file for redirection";;
        redirs_loop fuel' (rs ++ [redir_of tok w])
      else mret rs
  end.
Definition parseredirs (rs : list (option (span * Z * Z))) : M nat (list (option (span * Z * Z))) := redirs_loop (S es) rs.

(** The loop of [parseexec]: the arguments and the redirections. *)
Fixpoint args_loop (fuel : nat) (argv : list span) (rs : list (option (span * Z * Z))) : M nat (list span * list (option (span * Z * Z))) :=
  match fuel with
  | O => undef
  | S fuel' =>
      b ← peek (str "|)&;");
      if b : bool then mret (argv, rs)
      else
        '(tok, w) ← gettoken;
        if bool_decide (tok = 0) then mret (argv, rs)
        else
          panic_if (bool_decide (tok ≠ chr "a")) "syntax";;
          let argv := argv ++ [w] in
          panic_if (bool_decide (MAXARGS ≤ length argv)%nat) "too many args";;
          rs ← parseredirs rs;
          args_loop fuel' argv rs
  end.

Fixpoint back_loop (fuel : nat) (c : cmd span) : M nat (cmd span) :=
  match fuel with
  | O => undef
  | S fuel' =>
      b ← peek (str "&");
      if b : bool then gettoken;; back_loop fuel' (Backcmd c) else mret c
  end.

Fixpoint parseline (fuel : nat) : M nat (cmd span) :=
  match fuel with
  | O => undef
  | S fuel' =>
      c ← parsepipe fuel';
      c ← back_loop (S es) c;
      b ← peek (str ";");
      if b : bool then gettoken;; r ← parseline fuel'; mret (Listcmd c r) else mret c
  end
with parsepipe (fuel : nat) : M nat (cmd span) :=
  match fuel with
  | O => undef
  | S fuel' =>
      c ← parseexec fuel';
      b ← peek (str "|");
      if b : bool then gettoken;; r ← parsepipe fuel'; mret (Pipecmd c r) else mret c
  end
with parseexec (fuel : nat) : M nat (cmd span) :=
  match fuel with
  | O => undef
  | S fuel' =>
      b ← peek (str "(");
      if b : bool then parseblock fuel'
      else
        rs ← parseredirs [];
        '(argv, rs) ← args_loop (S es) [] rs;
        mret (foldl wrap (Execcmd argv) rs)
  end
with parseblock (fuel : nat) : M nat (cmd span) :=
  match fuel with
  | O => undef
  | S fuel' =>
      b ← peek (str "(");
      panic_if (negb b) "parseblock";;
      gettoken;;
      c ← parseline fuel';
      b ← peek (str ")");
      panic_if (negb b) "syntax - missing )";;
      gettoken;;
      rs ← parseredirs [];
      mret (foldl wrap c rs)
  end.
End parser.

(** [*p = 0] *)
Definition put_nul (p : nat) (buf : list Z) : list Z := <[p := 0]> buf.
Fixpoint nulterminate (c : cmd span) (buf : list Z) : list Z :=
  match c with
  | Execcmd argv => foldl (λ b w, put_nul w.2 b) buf argv
  | Redircmd c w _ _ => put_nul w.2 (nulterminate c buf)
  | Pipecmd l r | Listcmd l r => nulterminate r (nulterminate l buf)
  | Backcmd c => nulterminate c buf
  end.

(** [parsecmd] on a line in memory: the tree and the memory after it. *)
Definition parsecmd (buf : list Z) : M nat (cmd span * list Z) :=
  let es := length (cstr buf) in
  modify (λ _, 0%nat);;
  c ← parseline buf es (4 * es + 4);
  peek buf es [];;
  s ← get;
  panic_if (bool_decide (s ≠ es)) "syntax";;
  mret (c, nulterminate c buf).

(** The strings that a tree's pointers point to. *)
Fixpoint cmd_map {A B} (f : A → B) (c : cmd A) : cmd B :=
  match c with
  | Execcmd argv => Execcmd (f <$> argv)
  | Redircmd c w m d => Redircmd (cmd_map f c) (f w) m d
  | Pipecmd l r => Pipecmd (cmd_map f l) (cmd_map f r)
  | Listcmd l r => Listcmd (cmd_map f l) (cmd_map f r)
  | Backcmd c => Backcmd (cmd_map f c)
  end.
Definition string_at (buf : list Z) (w : span) : list Z := cstr (drop w.1 buf).

(** * Notation of commands *)

(** A token: an operator or a word. *)
Inductive stok : Type := Sym (c : Z) | Word (x : list Z).

(** The line [l] is a layout of the tokens [ts]: white space anywhere between
    tokens, and at least where two words or two [>] would run together. *)
Inductive lays : list Z → list stok → Prop :=
| lays_nil w : Forall is_space w → lays w []
| lays_sym w c l ts :
    Forall is_space w → is_in symbols c → (c = chr ">" → head l ≠ Some (chr ">")) → lays l ts → lays (w ++ c :: l) (Sym c :: ts)
| lays_word w x l ts :
    Forall is_space w → x ≠ [] → Forall is_word x → (∀ c, head l = Some c → ¬ is_word c) → lays l ts → lays (w ++ x ++ l) (Word x :: ts).

(** The tokens of a command, as an operand of [;] on its right ([LLine]) or
    left ([LBack]), of [|] on its right ([LPipe]) or left ([LExec]). *)
Inductive level : Type := LLine | LBack | LPipe | LExec.
Definition paren (b : bool) (ts : list stok) : list stok := if b then Sym (chr "(") :: ts ++ [Sym (chr ")")] else ts.
Fixpoint notation (lv : level) (c : cmd (list Z)) : list stok :=
  match c with
  | Execcmd argv => Word <$> argv
  | Redircmd c w m d => notation LExec c ++ [Sym (if bool_decide (d = 0) then chr "<" else chr ">"); Word w]
  | Pipecmd l r => paren (match lv with LExec => true | _ => false end) (notation LExec l ++ Sym (chr "|") :: notation LPipe r)
  | Backcmd c => paren (match lv with LExec | LPipe => true | _ => false end) (notation LBack c ++ [Sym (chr "&")])
  | Listcmd l r => paren (match lv with LLine => false | _ => true end) (notation LBack l ++ Sym (chr ";") :: notation LLine r)
  end.
(** The commands that have a notation. *)
Fixpoint printable (c : cmd (list Z)) : Prop :=
  match c with
  | Execcmd argv => (length argv < MAXARGS)%nat
  | Redircmd c _ m d => printable c ∧ (m = O_RDONLY ∧ d = 0 ∨ m = Z.lor O_WRONLY O_CREATE ∧ d = 1)
  | Pipecmd l r | Listcmd l r => printable l ∧ printable r
  | Backcmd c => printable c
  end.

(** * The tokens of a line *)

Section lexer.
Context (line rest : list Z) (Hnul : 0 ∉ line).
Local Notation buf := (line ++ 0 :: rest).
Local Notation es := (length line).

Lemma strchr_in l c : is_in l c ↔ ∃ n, strchr l c = Some n.
Proof. unfold is_in. rewrite bool_decide_spec. done. Qed.

Lemma scan_run (f : Z → bool) x l n s :
  Forall f x → (∀ c, head l = Some c → ¬ f c) → drop s line = x ++ l → (length (x ++ l) ≤ n)%nat → (s + n ≤ es)%nat →
  scan buf f n s = (s + length x)%nat.
Proof.
  revert x s. induction n as [|n IH]; intros x s Hx Hl Hd Hn Hs; simpl in *.
  - destruct x; simpl in *; lia.
  - assert (s < es)%nat as Hlt by lia. rewrite lookup_app_l by done.
    assert (line !! s = head (x ++ l)) as Hc by (by rewrite head_lookup, <- Hd, lookup_drop, Nat.add_0_r).
    destruct x as [|c x]; simpl in *.
    + destruct l as [|c l]; simpl in Hc; [apply lookup_ge_None in Hc; lia|]. rewrite Hc.
      specialize (Hl c eq_refl). destruct (f c); [|lia]. by destruct Hl.
    + rewrite Hc. apply Forall_cons in Hx as [Hfc Hx]. destruct (f c); [|done]. rewrite (IH x); [lia|done|done| |lia|lia].
      rewrite <- Nat.add_1_r, <- drop_drop, Hd. done.
Qed.
Lemma skip_run (f : Z → bool) x l s :
  Forall f x → (∀ c, head l = Some c → ¬ f c) → drop s line = x ++ l → (s ≤ es)%nat →
  skip buf es f s = (s + length x)%nat ∧ drop (s + length x) line = l ∧ (s + length x ≤ es)%nat.
Proof.
  intros Hx Hl Hd Hs. assert (length (x ++ l) = es - s)%nat as Hlen by (by rewrite <- Hd, length_drop).
  rewrite length_app in Hlen. split_and!; [|by rewrite <- drop_drop, Hd, drop_app_length|lia].
  unfold skip. apply (scan_run f x l); [done|done|done|rewrite length_app; lia|lia].
Qed.

(** [*s] at a token and at the end. *)
Lemma char_run c l s st : drop s line = c :: l → char_at buf s st = Ret c st [] ∧ c ≠ 0.
Proof.
  intros H. assert (line !! s = Some c) as Hc by (by rewrite <- (Nat.add_0_r s), <- lookup_drop, H). split.
  - unfold char_at. by rewrite (lookup_app_l_Some _ _ _ _ Hc).
  - intros ->. apply Hnul. by eapply list_elem_of_lookup_2.
Qed.
Lemma char_end st : char_at buf es st = Ret 0 st [].
Proof. unfold char_at. by rewrite list_lookup_middle. Qed.

(** ** Classes of characters *)

Lemma in_toks l c : is_in l c → c ∈ l.
Proof.
  unfold is_in. rewrite bool_decide_spec. intros [n H]. revert n H. induction l as [|x l IH]; intros n H; [done|]. simpl in H.
  case_bool_decide; [done|]. case_bool_decide; [subst; by constructor|]. apply fmap_Some in H as (k & Hk & _). apply elem_of_cons. right. by eapply IH.
Qed.
Lemma symbol_not_space c : is_in symbols c → ¬ is_space c.
Proof. intros H%in_toks. revert c H. apply Forall_forall. repeat constructor; by intros []. Qed.
Lemma word_not_space c : is_word c → ¬ is_space c.
Proof. unfold is_word, is_space. destruct (is_in whitespace c); [done|]. by intros _ []. Qed.
Lemma word_not_symbol c : is_word c → is_in symbols c = false.
Proof. unfold is_word. destruct (is_in symbols c); [|done]. by rewrite andb_false_r. Qed.

Lemma symbol_gt c : is_in symbols c → is_in (str "|();&<") c = false → c = chr ">".
Proof. intros H%in_toks. revert c H. apply (Forall_forall (λ c, is_in (str "|();&<") c = false → c = chr ">")). by repeat constructor. Qed.
Lemma symbol_in k : k ∈ symbols → is_in symbols k = true.
Proof. revert k. apply Forall_forall. by repeat constructor. Qed.
Lemma word_ne_symbol c k : is_word c → k ∈ symbols → c ≠ k.
Proof. intros Hw%word_not_symbol Hk%symbol_in ->. congruence. Qed.

(** The line from [s] on is a layout of [ts]. *)
Definition ahead (s : nat) (ts : list stok) : Prop := (s ≤ es)%nat ∧ lays (drop s line) ts.
(** Its first character. *)
Definition first (ts : list stok) : option Z :=
  match ts with [] => None | Sym c :: _ => Some c | Word x :: _ => head x end.

(** Skipping white space leads to the first token. *)
Lemma ahead_skip s ts :
  ahead s ts → ∃ s', skip buf es is_space s = s' ∧ ahead s' ts ∧ head (drop s' line) = first ts ∧
    match ts with [] => s' = es | Sym c :: ts' => ∃ l, drop s' line = c :: l ∧ is_in symbols c ∧ (c = chr ">" → head l ≠ Some (chr ">")) ∧ lays l ts'
             | Word x :: ts' => ∃ l, drop s' line = x ++ l ∧ x ≠ [] ∧ Forall is_word x ∧ (∀ c, head l = Some c → ¬ is_word c) ∧ lays l ts' end.
Proof.
  intros [Hs H]. remember (drop s line) as dl eqn:El. destruct H as [w Hw|w c l ts Hw Hc Hg H|w x l ts Hw Hx Hfx Hl H].
  - destruct (skip_run is_space w [] s) as (E & Hd & Hle); [done|done|by rewrite app_nil_r|done|].
    exists (s + length w)%nat. assert (s + length w = es)%nat as Ee.
    { apply (f_equal length) in Hd. rewrite length_drop in Hd. simpl in Hd. lia. }
    split_and!; [done|split; [done|rewrite Hd; by apply (lays_nil [])]|by rewrite Hd|done].
  - destruct (skip_run is_space w (c :: l) s) as (E & Hd & Hle); [done| |done|done|].
    { intros c' [= <-]. by apply symbol_not_space. }
    exists (s + length w)%nat. split_and!; [done|split; [done|rewrite Hd; by apply (lays_sym [])]|by rewrite Hd|]. by exists l.
  - destruct (skip_run is_space w (x ++ l) s) as (E & Hd & Hle); [done| |done|done|].
    { destruct x as [|c x]; [done|]. apply Forall_cons in Hfx as [Hc _]. intros c' [= <-]. by apply word_not_space. }
    exists (s + length w)%nat. split_and!; [done|split; [done|rewrite Hd; by apply (lays_word [])]|rewrite Hd; by destruct x|]. by exists l.
Qed.
(** [toks] are operators. *)
Definition ops (toks : list Z) : Prop := ∀ c, is_in toks c → is_in symbols c.
Definition starts (toks : list Z) (ts : list stok) : bool := match ts with Sym c :: _ => is_in toks c | _ => false end.

Lemma ops_of toks : forallb (is_in symbols) toks = true → ops toks.
Proof. intros H c Hc%in_toks. rewrite forallb_forall in H. by rewrite H by (by apply list_elem_of_In). Qed.

Lemma peek_run s ts toks :
  ahead s ts → ops toks → ∃ s', peek buf es toks s = Ret (starts toks ts) s' [] ∧ ahead s' ts.
Proof.
  intros Ha Ho. destruct (ahead_skip s ts Ha) as (s' & E & Ha' & Hf & Hm). exists s'. split; [|done].
  unfold peek. rewrite bind_get. cbn zeta. rewrite E, bind_modify. cbv beta. destruct ts as [|[c|x] ts].
  - rewrite Hm. mstep (char_end es). by rewrite bool_decide_false by (by intros []).
  - destruct Hm as (l & Hd & _). destruct (char_run c l s' s' Hd) as [R Hc]. mstep R. by rewrite bool_decide_true.
  - destruct Hm as (l & Hd & Hx & Hfx & _). destruct x as [|c x]; [done|]. apply Forall_cons in Hfx as [Hw _].
    destruct (char_run c (x ++ l) s' s' Hd) as [R Hc]. mstep R. rewrite bool_decide_true by done. simpl. unfold mret, M_ret. f_equal.
    apply word_not_symbol in Hw. destruct (is_in toks c) eqn:Et; [|done]. specialize (Ho c). rewrite Et, Hw in Ho. by destruct Ho.
Qed.

(** A word of the line: its text, which ends before a character that is not
    of a word. *)
Definition word_at (w : span) (x : list Z) : Prop :=
  (w.1 < w.2 ≤ es)%nat ∧ slice line w.1 (w.2 - w.1) = x ∧ Forall is_word x ∧ (∀ c, line !! w.2 = Some c → ¬ is_word c).

(** The last part of [gettoken]. *)
Lemma token_end s eq ts : ahead eq ts → ∃ s', (∀ (v : Z * span), (modify (λ _, skip buf es is_space eq);; mret v) s = Ret v s' []) ∧ ahead s' ts.
Proof. intros Ha. destruct (ahead_skip eq ts Ha) as (s' & E & Ha' & _). exists s'. split; [|done]. intros v. by rewrite bind_modify, E. Qed.

Lemma gettoken_end s : ahead s [] → ∃ w s', gettoken buf es s = Ret (0, w) s' [] ∧ ahead s' [].
Proof.
  intros Ha. destruct (ahead_skip s _ Ha) as (q & E & Ha' & _ & ->). unfold gettoken. rewrite bind_get. cbn zeta. rewrite E.
  mstep (char_end s). rewrite bool_decide_true by done. rewrite bind_mret.
  destruct (token_end s es [] Ha') as (s' & R & Hs'). exists (es, es), s'. by rewrite R.
Qed.
Lemma gettoken_sym s c ts : ahead s (Sym c :: ts) → ∃ w s', gettoken buf es s = Ret (c, w) s' [] ∧ ahead s' ts.
Proof.
  intros Ha. destruct (ahead_skip s _ Ha) as (q & E & [Hq _] & _ & l & Hd & Hc & Hg & Hl). unfold gettoken. rewrite bind_get. cbn zeta. rewrite E.
  destruct (char_run c l q s Hd) as [R Hc0]. mstep R. rewrite bool_decide_false by done.
  assert (drop (S q) line = l) as Hd1 by (by rewrite <- Nat.add_1_r, <- drop_drop, Hd).
  assert (S q ≤ es)%nat as Hq1 by (apply (f_equal length) in Hd; rewrite length_drop in Hd; simpl in Hd; lia).
  assert (ahead (S q) ts) as Ha1 by (split; [done|by rewrite Hd1]).
  destruct (token_end s (S q) ts Ha1) as (s' & R' & Hs'). exists (q, S q), s'. split; [|done].
  destruct (is_in (str "|();&<") c) eqn:Ei; [by rewrite bind_mret, R'|].
  apply symbol_gt in Ei as ->; [|done].
  rewrite bool_decide_true by done. specialize (Hg eq_refl).
  assert (∃ c', char_at buf (S q) s = Ret c' s [] ∧ c' ≠ chr ">") as (c' & R1 & Hc').
  { destruct l as [|c' l].
    - exists 0. split; [|done]. assert (S q = es) as -> by (apply (f_equal length) in Hd1; rewrite length_drop in Hd1; simpl in Hd1; lia). apply char_end.
    - exists c'. split; [by apply (char_run c' l)|]. intros ->. by apply Hg. }
  erewrite (bind_run _ _ s (chr ">", S q) s []); [by rewrite prepend_nil, R'|]. mstep R1. by rewrite bool_decide_false.
Qed.
Lemma gettoken_word s x ts : ahead s (Word x :: ts) → ∃ w s', gettoken buf es s = Ret (chr "a", w) s' [] ∧ word_at w x ∧ ahead s' ts.
Proof.
  intros Ha. destruct (ahead_skip s _ Ha) as (q & E & [Hq _] & _ & l & Hd & Hx & Hfx & Hhl & Hl). unfold gettoken. rewrite bind_get. cbn zeta. rewrite E.
  destruct x as [|c x]; [done|]. destruct (char_run c (x ++ l) q s Hd) as [R Hc0]. mstep R. rewrite bool_decide_false by done.
  pose proof Hfx as [Hw _]%Forall_cons. assert (∀ k, k ∈ symbols → c ≠ k) as Hns by (intros k; by apply word_ne_symbol).
  assert (is_in (str "|();&<") c = false) as ->.
  { unfold is_in. simpl. rewrite !(bool_decide_false (_ = c)) by (apply not_eq_sym, Hns; by repeat constructor). done. }
  rewrite bool_decide_false by (apply Hns; by repeat constructor). destruct (skip_run is_word (c :: x) l q Hfx Hhl Hd Hq) as (Es & Hd' & Hle). rewrite Es, bind_mret.
  destruct (token_end s (q + length (c :: x)) ts) as (s' & R' & Hs'); [split; [done|by rewrite Hd']|]. exists (q, q + length (c :: x))%nat, s'. split_and!; [by rewrite R'| |done].
  split_and!; [simpl; lia|done| |done|].
  - unfold slice. cbn [fst snd]. replace (q + length (c :: x) - q)%nat with (length (c :: x)) by lia. by rewrite Hd, take_app_length.
  - intros c' Hc'. apply Hhl. by rewrite <- Hd', head_lookup, lookup_drop, Nat.add_0_r.
Qed.
Lemma ahead_length s ts : ahead s ts → (length ts ≤ es - s)%nat.
Proof.
  intros [_ H]. rewrite <- length_drop. induction H as [|w c l ts|w x l ts Hw Hx Hfx Hl H IH]; simpl; rewrite ?length_app; simpl; try lia.
  destruct x; simpl; [done|lia].
Qed.

(** ** Redirections and arguments *)

Fixpoint spells (p : cmd span) (c : cmd (list Z)) : Prop :=
  match p, c with
  | Execcmd ws, Execcmd xs => Forall2 word_at ws xs
  | Redircmd p w m d, Redircmd c x m' d' => spells p c ∧ word_at w x ∧ m = m' ∧ d = d'
  | Pipecmd p p', Pipecmd c c' | Listcmd p p', Listcmd c c' => spells p c ∧ spells p' c'
  | Backcmd p, Backcmd c => spells p c
  | _, _ => False
  end.

Definition redir : Type := list Z * Z * Z.
Definition redir_toks (r : redir) : list stok := [Sym (if bool_decide (r.2 = 0) then chr "<" else chr ">"); Word r.1.1].
Definition redirs_toks (rs : list redir) : list stok := concat (redir_toks <$> rs).
Definition redir_ok (r : redir) : Prop := r.1.2 = O_RDONLY ∧ r.2 = 0 ∨ r.1.2 = Z.lor O_WRONLY O_CREATE ∧ r.2 = 1.
Definition redir_at (p : span * Z * Z) (r : redir) : Prop := word_at p.1.1 r.1.1 ∧ p.1.2 = r.1.2 ∧ p.2 = r.2.

Lemma redirs_run rs fuel s more acc :
  ahead s (redirs_toks rs ++ more) → starts (str "<>") more = false → Forall redir_ok rs → (length rs < fuel)%nat →
  ∃ ps s', redirs_loop buf es fuel acc s = Ret (acc ++ (Some <$> ps)) s' [] ∧ Forall2 redir_at ps rs ∧ ahead s' more.
Proof.
  revert fuel s acc. induction rs as [|[[x m] d] rs IH]; intros fuel s acc Ha Hr Hok Hf; (destruct fuel as [|fuel]; [simpl in Hf; lia|]); cbn [redirs_loop].
  - destruct (peek_run s more (str "<>") Ha) as (s' & R & Ha'); [by apply ops_of|]. mstep R. rewrite Hr. exists [], s'. rewrite app_nil_r. split_and!; [done|constructor|done].
  - destruct (peek_run s _ (str "<>") Ha) as (s1 & R1 & Ha1); [by apply ops_of|].
    replace (starts _ _) with true in R1 by (simpl; by case_bool_decide). mstep R1. apply Forall_cons in Hok as [Hok Hoks].
    destruct (gettoken_sym s1 _ _ Ha1) as (w1 & s2 & R2 & Ha2). mstep R2. destruct (gettoken_word s2 _ _ Ha2) as (w & s3 & R3 & Hw & Ha3). mstep R3.
    rewrite (bool_decide_false (chr "a" ≠ chr "a")) by (by intros []). cbn [panic_if]. rewrite bind_mret.
    assert (redir_of (if bool_decide (d = 0) then chr "<" else chr ">") w = Some (w, m, d)) as Er.
    { destruct Hok as [[Em Ed]|[Em Ed]]; simpl in Em, Ed; subst; done. }
    cbn [snd]. rewrite Er. destruct (IH fuel s3 (acc ++ [Some (w, m, d)]) Ha3 Hr Hoks) as (ps & s' & R & Hps & Ha'); [simpl in Hf; lia|].
    rewrite R. exists ((w, m, d) :: ps), s'. split_and!; [by rewrite <- (assoc_L (++))|by constructor|done].
Qed.
Lemma parseredirs_run rs s more acc :
  ahead s (redirs_toks rs ++ more) → starts (str "<>") more = false → Forall redir_ok rs →
  ∃ ps s', parseredirs buf es acc s = Ret (acc ++ (Some <$> ps)) s' [] ∧ Forall2 redir_at ps rs ∧ ahead s' more.
Proof.
  intros Ha Hr Hok. apply redirs_run; [done|done|done|]. pose proof (ahead_length _ _ Ha) as Hl. rewrite length_app in Hl.
  assert (length rs ≤ length (redirs_toks rs))%nat; [|lia]. clear. unfold redirs_toks. induction rs as [|r rs IH]; [done|].
  rewrite fmap_cons. cbn [concat]. rewrite length_app. cbn [length redir_toks]. lia.
Qed.

Lemma starts_ops toks toks' ts : starts toks ts = true → forallb (λ c, negb (is_in toks' c)) toks = true → starts toks' ts = false.
Proof.
  destruct ts as [|[c|x] ts]; simpl; [done| |done]. intros Hc H. rewrite forallb_forall in H. apply negb_true_iff, H, list_elem_of_In, in_toks. by rewrite Hc.
Qed.
(** What can follow a command. *)
Definition follows (toks : list Z) (ts : list stok) : Prop := ts = [] ∨ starts toks ts = true.
Lemma follows_not toks toks' ts : follows toks ts → forallb (λ c, negb (is_in toks' c)) toks = true → starts toks' ts = false.
Proof. intros [->|H] Hf; [done|by eapply starts_ops]. Qed.

(** The redirections are read before the first word, or after the last. *)
Lemma redirs_split (xs : list (list Z)) rs more :
  ∃ rs1 rs2, rs = rs1 ++ rs2 ∧ (Word <$> xs) ++ redirs_toks rs ++ more = redirs_toks rs1 ++ (Word <$> xs) ++ redirs_toks rs2 ++ more ∧ (xs = [] → rs2 = []).
Proof. destruct xs; [exists rs, []|exists [], rs]; by rewrite ?app_nil_r. Qed.

Lemma args_stop fuel s argv racc more :
  ahead s more → follows (str "|)&;") more → ∃ s', args_loop buf es (S fuel) argv racc s = Ret (argv, racc) s' [] ∧ ahead s' more.
Proof.
  intros Ha Hf. destruct (peek_run s more (str "|)&;") Ha) as (s1 & R1 & Ha1); [by apply ops_of|]. cbn [args_loop]. mstep R1. destruct Hf as [->| ->].
  - destruct (gettoken_end s1 Ha1) as (w & s2 & R2 & Ha2). cbn [starts]. mstep R2. by exists s2.
  - by exists s1.
Qed.
Lemma args_run xs rs fuel s argv racc more :
  ahead s ((Word <$> xs) ++ redirs_toks rs ++ more) → (xs = [] → rs = []) → follows (str "|)&;") more → Forall redir_ok rs →
  (length argv + length xs < MAXARGS)%nat → (length xs < fuel)%nat →
  ∃ ws ps s', args_loop buf es fuel argv racc s = Ret (argv ++ ws, racc ++ (Some <$> ps)) s' [] ∧
    Forall2 word_at ws xs ∧ Forall2 redir_at ps rs ∧ ahead s' more.
Proof.
  revert rs fuel s argv racc. induction xs as [|x xs IH]; intros rs fuel s argv racc Ha Hrs Hm Hok Hn Hf; (destruct fuel as [|fuel]; [simpl in Hf; lia|]).
  - rewrite Hrs in * by done. destruct (args_stop fuel s argv racc more Ha Hm) as (s' & R & Ha'). exists [], [], s'.
    rewrite R. cbn. rewrite !app_nil_r. split_and!; [done|constructor|constructor|done].
  - destruct (peek_run s _ (str "|)&;") Ha) as (s1 & R1 & Ha1); [by apply ops_of|]. cbn [args_loop]. mstep R1. cbn [starts fmap list_fmap app].
    destruct (gettoken_word s1 _ _ Ha1) as (w & s2 & R2 & Hw & Ha2). mstep R2. rewrite (bool_decide_false (chr "a" = 0)) by done.
    rewrite (bool_decide_false (chr "a" ≠ chr "a")) by (by intros []). cbn [panic_if]. rewrite bind_mret. cbn zeta.
    rewrite (bool_decide_false (MAXARGS ≤ _)%nat) by (rewrite length_app; simpl in *; lia). cbn [panic_if]. rewrite bind_mret.
    destruct (redirs_split xs rs more) as (rs1 & rs2 & Ers & Et & H2).
    change (ahead s2 ((Word <$> xs) ++ redirs_toks rs ++ more)) in Ha2.
    rewrite Et in Ha2. rewrite Ers in Hok. apply Forall_app in Hok as [Hok1 Hok2].
    destruct (parseredirs_run rs1 s2 _ racc Ha2) as (ps1 & s3 & R3 & Hp1 & Ha3); [|done|].
    { destruct xs; [|done]. rewrite H2 by done. by eapply follows_not. }
    mstep R3. destruct (IH rs2 fuel s3 (argv ++ [w]) (racc ++ (Some <$> ps1))) as (ws & ps2 & s' & R & Hws & Hp2 & Ha'); try done.
    { rewrite length_app. simpl in *. lia. }
    { simpl in Hf. lia. }
    rewrite R. exists (w :: ws), (ps1 ++ ps2), s'. split_and!; [by rewrite fmap_app, <- !(assoc_L (++))|by constructor|by rewrite Ers; apply Forall2_app|done].
Qed.

Lemma wrap_spells ps rs p c :
  Forall2 redir_at ps rs → spells p c → spells (foldl wrap p (Some <$> ps)) (foldl (λ c r, Redircmd c r.1.1 r.1.2 r.2) c rs).
Proof.
  intros H. revert p c. induction H as [|[[w m] d] [[x m'] d'] ps rs [Hw [Hm Hd]] H IH]; intros p c Hp; [done|]. simpl in *. subst. by apply IH.
Qed.

(** ** The grammar *)

(** [m] parses the notation [ts] of [c] where [toks] can follow; [4 * n + k] is
    enough fuel for [n] tokens. *)
Definition parses (m : nat → M nat (cmd span)) (k : nat) (toks : string) (c : cmd (list Z)) (ts : list stok) : Prop :=
  ∀ fuel s more, ahead s (ts ++ more) → follows (str toks) more → (4 * length (ts ++ more) + k ≤ fuel)%nat →
    ∃ p s', m fuel s = Ret p s' [] ∧ spells p c ∧ ahead s' more.
Local Notation line_ := (parseline buf es).
Local Notation pipe_ := (parsepipe buf es).
Local Notation exec_ := (parseexec buf es).
Local Notation block_ := (parseblock buf es).

Lemma exec_words xs rs :
  (length xs < MAXARGS)%nat → Forall redir_ok rs →
  parses exec_ 2 "|)&;" (foldl (λ c r, Redircmd c r.1.1 r.1.2 r.2) (Execcmd xs) rs) ((Word <$> xs) ++ redirs_toks rs).
Proof.
  intros Hn Hok fuel s more Ha Hm Hf. destruct fuel as [|fuel]; [lia|]. rewrite <- (assoc_L (++)) in Ha. cbn [parseexec].
  destruct (peek_run s _ (str "(") Ha) as (s1 & R1 & Ha1); [by apply ops_of|].
  assert (starts (str "(") ((Word <$> xs) ++ redirs_toks rs ++ more) = false) as E.
  { destruct xs; [|done]. destruct rs as [|r rs]; [by eapply follows_not|]. simpl. by case_bool_decide. }
  rewrite E in R1. mstep R1.
  destruct (redirs_split xs rs more) as (rs1 & rs2 & Ers & Et & H2).
  rewrite Et in Ha1. rewrite Ers in Hok. apply Forall_app in Hok as [Hok1 Hok2].
  destruct (parseredirs_run rs1 s1 _ [] Ha1) as (ps1 & s2 & R2 & Hp1 & Ha2); [|done|].
  { destruct xs; [|done]. rewrite H2 by done. by eapply follows_not. }
  mstep R2. destruct (args_run xs rs2 (S es) s2 [] ([] ++ (Some <$> ps1)) more) as (ws & ps2 & s' & R & Hws & Hp2 & Ha'); try done.
  { pose proof (ahead_length _ _ Ha2) as Hl. rewrite length_app, length_fmap in Hl. lia. }
  mstep R. exists (foldl wrap (Execcmd ws) (Some <$> ps1 ++ ps2)), s'. split_and!; [by rewrite fmap_app| |done].
  rewrite Ers. apply wrap_spells; [by apply Forall2_app|done].
Qed.

Lemma exec_block c rs ts :
  parses line_ 4 ")" c ts → Forall redir_ok rs →
  parses exec_ 2 "|)&;" (foldl (λ c r, Redircmd c r.1.1 r.1.2 r.2) c rs) (paren true ts ++ redirs_toks rs).
Proof.
  intros Hc Hok fuel s more Ha Hm Hf.
  assert (((paren true ts ++ redirs_toks rs) ++ more) = Sym (chr "(") :: ts ++ Sym (chr ")") :: redirs_toks rs ++ more) as Et.
  { unfold paren. cbn [app]. by rewrite <- !(assoc_L (++)). }
  rewrite Et in Ha, Hf. destruct fuel as [|[|fuel]]; [lia|simpl in Hf; lia|]. cbn [parseexec parseblock].
  destruct (peek_run s _ (str "(") Ha) as (s1 & R1 & Ha1); [by apply ops_of|]. change (starts _ _) with true in R1. mstep R1.
  destruct (peek_run s1 _ (str "(") Ha1) as (s2 & R2 & Ha2); [by apply ops_of|]. change (starts _ _) with true in R2. mstep R2.
  cbn [negb panic_if]. rewrite bind_mret. destruct (gettoken_sym s2 _ _ Ha2) as (w & s3 & R3 & Ha3). mstep R3.
  destruct (Hc fuel s3 _ Ha3) as (p & s4 & R4 & Hp & Ha4); [by right|simpl in Hf; lia|].
  mstep R4. destruct (peek_run s4 _ (str ")") Ha4) as (s5 & R5 & Ha5); [by apply ops_of|]. change (starts _ _) with true in R5. mstep R5.
  cbn [negb panic_if]. rewrite bind_mret. destruct (gettoken_sym s5 _ _ Ha5) as (w' & s6 & R6 & Ha6). mstep R6.
  destruct (parseredirs_run rs s6 more [] Ha6) as (ps & s7 & R7 & Hps & Ha7); [by eapply follows_not|done|]. mstep R7.
  exists (foldl wrap p (Some <$> ps)), s7. split_and!; [done|by apply wrap_spells|done].
Qed.

Lemma follows_mono toks toks' ts : follows toks ts → forallb (is_in toks') toks = true → follows toks' ts.
Proof.
  intros [->|H] Hf; [by left|right]. destruct ts as [|[c|] ts]; try done. simpl in *. rewrite forallb_forall in Hf.
  apply Hf, list_elem_of_In, in_toks. by rewrite H.
Qed.

Lemma pipe_end c ts : parses exec_ 2 "|)&;" c ts → parses pipe_ 3 ")&;" c ts.
Proof.
  intros Hc fuel s more Ha Hm Hf. destruct fuel as [|fuel]; [lia|]. cbn [parsepipe].
  destruct (Hc fuel s more Ha) as (p & s1 & R1 & Hp & Ha1); [by eapply follows_mono|lia|].
  mstep R1. destruct (peek_run s1 _ (str "|") Ha1) as (s2 & R2 & Ha2); [by apply ops_of|].
  rewrite (follows_not _ _ _ Hm) in R2 by done. mstep R2. by exists p, s2.
Qed.
Lemma pipe_more l r tl tr :
  parses exec_ 2 "|)&;" l tl → parses pipe_ 3 ")&;" r tr → parses pipe_ 3 ")&;" (Pipecmd l r) (tl ++ Sym (chr "|") :: tr).
Proof.
  intros Hl Hr fuel s more Ha Hm Hf. rewrite <- (assoc_L (++)) in Ha, Hf. destruct fuel as [|fuel]; [lia|]. cbn [parsepipe].
  destruct (Hl fuel s _ Ha) as (p & s1 & R1 & Hp & Ha1); [by right|lia|]. mstep R1.
  destruct (peek_run s1 _ (str "|") Ha1) as (s2 & R2 & Ha2); [by apply ops_of|]. change (starts _ _) with true in R2. mstep R2.
  destruct (gettoken_sym s2 _ _ Ha2) as (w & s3 & R3 & Ha3). mstep R3.
  destruct (Hr fuel s3 more Ha3 Hm) as (p' & s4 & R4 & Hp' & Ha4); [rewrite !length_app in *; cbn [length] in *; lia|]. mstep R4.
  by exists (Pipecmd p p'), s4.
Qed.

Lemma back_run k fuel s p c more :
  ahead s (replicate k (Sym (chr "&")) ++ more) → starts (str "&") more = false → (k < fuel)%nat → spells p c →
  ∃ p' s', back_loop buf es fuel p s = Ret p' s' [] ∧ spells p' (Nat.iter k Backcmd c) ∧ ahead s' more.
Proof.
  revert fuel s p c. induction k as [|k IH]; intros fuel s p c Ha Hm Hf Hp; (destruct fuel as [|fuel]; [lia|]); cbn [back_loop].
  - destruct (peek_run s _ (str "&") Ha) as (s1 & R1 & Ha1); [by apply ops_of|]. cbn [replicate app] in R1. rewrite Hm in R1. mstep R1. by exists p, s1.
  - destruct (peek_run s _ (str "&") Ha) as (s1 & R1 & Ha1); [by apply ops_of|]. change (starts _ _) with true in R1. mstep R1.
    destruct (gettoken_sym s1 _ _ Ha1) as (w & s2 & R2 & Ha2). mstep R2. rewrite Nat.iter_succ_r. apply IH; [done|done|lia|done].
Qed.
(** A pipeline with its [&]s, before what cannot be more of them. *)
Lemma line_head c ts k fuel s more :
  parses pipe_ 3 ")&;" c ts → ahead s (ts ++ replicate k (Sym (chr "&")) ++ more) → follows (str ");") more →
  (4 * length (ts ++ replicate k (Sym (chr "&")) ++ more) + 3 ≤ fuel)%nat →
  ∃ p s', (∀ f : cmd span → M nat (cmd span), (c ← parsepipe buf es fuel; c ← back_loop buf es (S es) c; f c) s = f p s') ∧
    spells p (Nat.iter k Backcmd c) ∧ ahead s' more.
Proof.
  intros Hc Ha Hm Hf. destruct (Hc fuel s _ Ha) as (p & s1 & R1 & Hp & Ha1); [|lia|].
  { destruct k; [by eapply follows_mono|by right]. }
  destruct (back_run k (S es) s1 p c more Ha1) as (p' & s2 & R2 & Hp' & Ha2); [by eapply follows_not| |done|].
  { pose proof (ahead_length _ _ Ha1) as Hl. rewrite length_app, length_replicate in Hl. lia. }
  exists p', s2. split_and!; [|done|done]. intros f. mstep R1. by mstep R2.
Qed.
Lemma line_end c ts k : parses pipe_ 3 ")&;" c ts → parses line_ 4 ")" (Nat.iter k Backcmd c) (ts ++ replicate k (Sym (chr "&"))).
Proof.
  intros Hc fuel s more Ha Hm Hf. rewrite <- (assoc_L (++)) in Ha, Hf. destruct fuel as [|fuel]; [lia|]. cbn [parseline].
  destruct (line_head c ts k fuel s more Hc Ha) as (p & s1 & R1 & Hp & Ha1); [by eapply follows_mono|lia|]. rewrite R1.
  destruct (peek_run s1 _ (str ";") Ha1) as (s2 & R2 & Ha2); [by apply ops_of|]. rewrite (follows_not _ _ _ Hm) in R2 by done. mstep R2. by exists p, s2.
Qed.
Lemma line_more c ts k r tr :
  parses pipe_ 3 ")&;" c ts → parses line_ 4 ")" r tr →
  parses line_ 4 ")" (Listcmd (Nat.iter k Backcmd c) r) ((ts ++ replicate k (Sym (chr "&"))) ++ Sym (chr ";") :: tr).
Proof.
  intros Hc Hr fuel s more Ha Hm Hf. rewrite <- !(assoc_L (++)) in Ha, Hf. destruct fuel as [|fuel]; [lia|]. cbn [parseline].
  destruct (line_head c ts k fuel s _ Hc Ha) as (p & s1 & R1 & Hp & Ha1); [by right|lia|]. rewrite R1.
  destruct (peek_run s1 _ (str ";") Ha1) as (s2 & R2 & Ha2); [by apply ops_of|]. change (starts _ _) with true in R2. mstep R2.
  destruct (gettoken_sym s2 _ _ Ha2) as (w & s3 & R3 & Ha3). mstep R3.
  destruct (Hr fuel s3 more Ha3 Hm) as (p' & s4 & R4 & Hp' & Ha4); [rewrite !length_app in *; cbn [length] in *; lia|]. mstep R4.
  by exists (Listcmd p p'), s4.
Qed.

(** ** Every command *)

Fixpoint cmd_size {A} (c : cmd A) : nat :=
  match c with
  | Execcmd _ => 1
  | Redircmd c _ _ _ | Backcmd c => S (cmd_size c)
  | Pipecmd l r | Listcmd l r => S (cmd_size l + cmd_size r)
  end.

Lemma backs_of c :
  printable c → ∃ b k, c = Nat.iter k Backcmd b ∧ notation LBack c = notation LPipe b ++ replicate k (Sym (chr "&")) ∧ printable b ∧
    (cmd_size b + k = cmd_size c)%nat.
Proof.
  induction c as [xs|c IH x m d|l IHl r IHr|l IHl r IHr|c IH]; intros Hp; [exists (Execcmd xs), 0%nat|exists (Redircmd c x m d), 0%nat|exists (Pipecmd l r), 0%nat|exists (Listcmd l r), 0%nat|];
    try (rewrite app_nil_r, Nat.add_0_r; done).
  destruct (IH Hp) as (b & k & -> & E & Hb & Hs). exists b, (S k). split_and!; [done| |done|simpl in *; lia].
  cbn [notation paren]. rewrite E, <- (assoc_L (++)). by rewrite <- replicate_cons_app.
Qed.
Lemma redirs_of c :
  printable c → ∃ b rs, c = foldl (λ c r, Redircmd c r.1.1 r.1.2 r.2) b rs ∧ notation LExec c = notation LExec b ++ redirs_toks rs ∧ printable b ∧
    Forall redir_ok rs ∧ (cmd_size b + length rs = cmd_size c)%nat ∧ match b with Redircmd _ _ _ _ => False | _ => True end.
Proof.
  induction c as [xs|c IH x m d|l IHl r IHr|l IHl r IHr|c IH]; intros Hp; [exists (Execcmd xs), []| |exists (Pipecmd l r), []|exists (Listcmd l r), []|exists (Backcmd c), []];
    try (rewrite app_nil_r, Nat.add_0_r; done).
  destruct Hp as [Hp Hd]. destruct (IH Hp) as (b & rs & -> & E & Hb & Hok & Hs & Hm). exists b, (rs ++ [(x, m, d)]). split_and!; try done.
  - by rewrite foldl_app.
  - cbn [notation]. rewrite E, <- (assoc_L (++)). unfold redirs_toks. by rewrite fmap_app, concat_app.
  - apply Forall_app. by split; [|constructor].
  - rewrite length_app. simpl in *. lia.
Qed.

Definition levels (c : cmd (list Z)) : Prop :=
  parses line_ 4 ")" c (notation LLine c) ∧ parses pipe_ 3 ")&;" c (notation LPipe c) ∧ parses exec_ 2 "|)&;" c (notation LExec c).
(** A command that is a block where an operand of [|] is needed. *)
Lemma levels_block c : notation LExec c = paren true (notation LLine c) → parses line_ 4 ")" c (notation LLine c) → parses exec_ 2 "|)&;" c (notation LExec c).
Proof. intros -> H. pose proof (exec_block c [] _ H) as He. rewrite app_nil_r in He. apply He. constructor. Qed.
Lemma levels_exec c :
  notation LPipe c = notation LExec c → notation LLine c = notation LExec c → parses exec_ 2 "|)&;" c (notation LExec c) → levels c.
Proof.
  intros E1 E2 H. pose proof (pipe_end _ _ H) as Hp. split_and!; [|by rewrite E1|done]. rewrite E2.
  pose proof (line_end c _ 0 Hp) as Hl. rewrite app_nil_r in Hl. done.
Qed.

Lemma every_command n c : (cmd_size c ≤ n)%nat → printable c → levels c.
Proof.
  revert c. induction n as [|n IH]; intros c Hn Hc; [destruct c; simpl in Hn; lia|]. destruct c as [xs|c x m d|l r|l r|c].
  - apply levels_exec; [done|done|]. pose proof (exec_words xs [] Hc) as H. rewrite app_nil_r in H. apply H. constructor.
  - apply levels_exec; [done|done|]. destruct (redirs_of _ Hc) as (b & rs & Ec & -> & Hb & Hok & Hs & Hm). rewrite Ec.
    assert (rs ≠ []) as Hrs by (intros ->; simpl in Ec; by subst b). assert (levels b) as (Hl & _) by (apply IH; [destruct rs; simpl in *; [done|lia]|done]).
    destruct b as [xs|? ? ? ?|l r|l r|b]; [by apply exec_words|done|by apply exec_block..].
  - destruct Hc as [Hcl Hcr]. simpl in Hn. destruct (IH l) as (_ & _ & Hl); [lia|done|]. destruct (IH r) as (_ & Hr & _); [lia|done|].
    pose proof (pipe_more _ _ _ _ Hl Hr) as Hp. pose proof (line_end _ _ 0 Hp) as Hline. rewrite app_nil_r in Hline. split_and!; [done|done|by apply levels_block].
  - destruct Hc as [Hcl Hcr]. simpl in Hn. destruct (backs_of l Hcl) as (b & k & -> & El & Hb & Hs). destruct (IH b) as (_ & Hpb & _); [lia|done|].
    destruct (IH r) as (Hr & _ & _); [lia|done|]. assert (parses line_ 4 ")" (Listcmd (Nat.iter k Backcmd b) r) (notation LLine (Listcmd (Nat.iter k Backcmd b) r))) as Hl.
    { cbn [notation paren]. rewrite El. by apply line_more. }
    split_and!; [done|apply pipe_end; by apply levels_block|by apply levels_block].
  - simpl in Hn. destruct (backs_of c Hc) as (b & k & -> & Eb & Hb & Hs). destruct (IH b) as (_ & Hpb & _); [lia|done|].
    assert (parses line_ 4 ")" (Backcmd (Nat.iter k Backcmd b)) (notation LLine (Backcmd (Nat.iter k Backcmd b)))) as Hl.
    { cbn [notation paren]. rewrite Eb, <- (assoc_L (++)), <- replicate_cons_app. by apply (line_end b _ (S k)). }
    split_and!; [done|apply pipe_end; by apply levels_block|by apply levels_block].
Qed.

(** ** Cutting the line into strings *)

Fixpoint cmd_words {A} (c : cmd A) : list A :=
  match c with
  | Execcmd argv => argv
  | Redircmd c w _ _ => cmd_words c ++ [w]
  | Pipecmd l r | Listcmd l r => cmd_words l ++ cmd_words r
  | Backcmd c => cmd_words c
  end.

Lemma nulterminate_words c b : nulterminate c b = foldl (λ b w, put_nul w.2 b) b (cmd_words c).
Proof. revert b. induction c; intros b; simpl; rewrite ?foldl_app; simpl; congruence. Qed.
Lemma put_nuls_lookup (ws : list span) b i :
  foldl (λ b w, put_nul w.2 b) b ws !! i = if bool_decide (i ∈ ws.*2) then (λ _, 0) <$> b !! i else b !! i.
Proof.
  revert b. induction ws as [|w ws IH]; intros b; [done|]. cbn [foldl fmap list_fmap]. rewrite IH. unfold put_nul.
  destruct (decide (i = w.2)) as [->|Hne].
  - rewrite (bool_decide_true (w.2 ∈ _ :: _)) by constructor. destruct (decide (w.2 < length b)%nat) as [Hlt|Hge].
    + rewrite list_lookup_insert_eq by done. destruct (lookup_lt_is_Some_2 b w.2 Hlt) as [x Hx]. rewrite Hx. by case_bool_decide.
    + rewrite list_insert_ge by lia. rewrite (lookup_ge_None_2 b) by lia. by case_bool_decide.
  - rewrite list_lookup_insert_ne by done. rewrite (bool_decide_ext _ (i ∈ w.2 :: ws.*2)); [done|]. set_solver.
Qed.

Lemma spells_map (f : span → list Z) p c : spells p c → (∀ w x, w ∈ cmd_words p → word_at w x → f w = x) → cmd_map f p = c.
Proof.
  revert c. induction p as [ws|p IH w m d|p1 IH1 p2 IH2|p1 IH1 p2 IH2|p IH]; intros [xs|c x m' d'|c1 c2|c1 c2|c] H Hf; try done; simpl in H |- *.
  - f_equal. induction H as [|w x ws xs Hw H IH]; [done|]. cbn. rewrite (Hf w x) by (done || constructor). f_equal. apply IH. intros w' x' Hw'. apply Hf. by constructor.
  - destruct H as (H & Hw & -> & ->). f_equal; [|by apply Hf; [simpl; set_solver|]]. apply IH; [done|]. intros w' x' Hw'. apply Hf. simpl. set_solver.
  - destruct H. f_equal; [apply IH1|apply IH2]; try done; intros w' x' Hw'; apply Hf; simpl; set_solver.
  - destruct H. f_equal; [apply IH1|apply IH2]; try done; intros w' x' Hw'; apply Hf; simpl; set_solver.
  - f_equal. by apply IH.
Qed.
Lemma spells_words p c : spells p c → Forall2 word_at (cmd_words p) (cmd_words c).
Proof.
  revert c. induction p as [ws|p IH w m d|p1 IH1 p2 IH2|p1 IH1 p2 IH2|p IH]; intros [xs|c x m' d'|c1 c2|c1 c2|c] H; try done; simpl in H |- *.
  - destruct H as (H & Hw & _). apply Forall2_app; [by apply IH|by constructor].
  - destruct H. apply Forall2_app; auto.
  - destruct H. apply Forall2_app; auto.
  - by apply IH.
Qed.

(** The characters of a word stay when the words are cut. *)
Lemma word_kept ws w x i c :
  Forall (λ w, ∃ x, word_at w x) ws → word_at w x → x !! i = Some c →
  c ≠ 0 ∧ foldl (λ b w, put_nul w.2 b) buf ws !! (w.1 + i)%nat = Some c.
Proof.
  intros Hws (Hr & Hx & Hfx & _) Hc. assert (is_word c) as Hw by (by eapply Forall_lookup_1 in Hfx).
  assert (line !! (w.1 + i)%nat = Some c) as Hl by (rewrite <- Hx in Hc; unfold slice in Hc; apply lookup_take_Some in Hc as [Hc _]; by rewrite lookup_drop in Hc).
  split; [intros ->; apply Hnul; by eapply list_elem_of_lookup_2|]. rewrite put_nuls_lookup, bool_decide_false; [by apply lookup_app_l_Some|].
  intros ((w' & y) & E & Hin)%list_elem_of_fmap. rewrite Forall_forall in Hws. destruct (Hws _ Hin) as (x' & _ & _ & _ & He). apply (He c); [|done]. by rewrite <- E.
Qed.
Lemma string_cut ws w x :
  Forall (λ w, ∃ x, word_at w x) ws → w ∈ ws → word_at w x → string_at (foldl (λ b w, put_nul w.2 b) buf ws) w = x.
Proof.
  intros Hws Hin Hw. pose proof (λ i c, word_kept ws w x i c Hws Hw) as Hk. destruct Hw as (Hr & Hx & _).
  assert (length x = w.2 - w.1)%nat as Hlen by (rewrite <- Hx; unfold slice; rewrite length_take, length_drop; lia).
  set (b := foldl _ _ _) in *. unfold string_at. assert (drop w.1 b = x ++ 0 :: drop (S w.2) b) as ->.
  - apply list_eq. intros i. rewrite lookup_drop. destruct (decide (i < length x)%nat) as [Hi|Hi].
    + rewrite lookup_app_l by done. destruct (lookup_lt_is_Some_2 x i Hi) as [c Hc]. rewrite Hc. by apply Hk.
    + rewrite lookup_app_r by lia. destruct (decide (i = length x)) as [->|Hne].
      * rewrite Nat.sub_diag. replace (w.1 + length x)%nat with w.2 by lia. unfold b. rewrite put_nuls_lookup, bool_decide_true by (by apply list_elem_of_fmap_2).
        destruct (lookup_lt_is_Some_2 buf w.2) as [c Hc]; [rewrite length_app; simpl; lia|]. by rewrite Hc.
      * destruct (i - length x)%nat as [|k] eqn:Ek; [lia|]. simpl. rewrite lookup_drop. f_equal. lia.
  - apply cstr_stop. intros (i & Hi)%list_elem_of_lookup. by destruct (Hk _ _ Hi).
Qed.

(** * Every line *)

Lemma split_while (f : Z → bool) (l : list Z) : ∃ x y, l = x ++ y ∧ Forall f x ∧ (∀ c, head y = Some c → ¬ f c).
Proof.
  induction l as [|c l (x & y & -> & Hx & Hy)]; [by exists [], []|]. destruct (f c) eqn:E.
  - exists (c :: x), y. split_and!; [done|constructor; [by rewrite E|done]|done].
  - exists [], (c :: x ++ y). split_and!; [done|constructor|]. intros c' [= <-]. rewrite E. by intros [].
Qed.
Lemma skip_any (f : Z → bool) s :
  (s ≤ es)%nat → ∃ x l, skip buf es f s = (s + length x)%nat ∧ drop s line = x ++ l ∧ drop (s + length x) line = l ∧ Forall f x ∧
    (∀ c, head l = Some c → ¬ f c) ∧ (s + length x ≤ es)%nat.
Proof.
  intros Hs. destruct (split_while f (drop s line)) as (x & l & E & Hx & Hl). destruct (skip_run f x l s Hx Hl E Hs) as (E1 & E2 & E3). by exists x, l.
Qed.
Lemma drop_end s : (s ≤ es)%nat → drop s line = [] → s = es.
Proof. intros Hs H. apply (f_equal length) in H. rewrite length_drop in H. simpl in H. lia. Qed.
Lemma drop_more s c l : drop s line = c :: l → (S s ≤ es)%nat ∧ drop (S s) line = l.
Proof.
  intros H. split; [apply (f_equal length) in H; rewrite length_drop in H; simpl in H; lia|]. by rewrite <- Nat.add_1_r, <- drop_drop, H.
Qed.

Lemma peek_total toks s : (s ≤ es)%nat → ∃ b s', peek buf es toks s = Ret b s' [] ∧ (s ≤ s' ≤ es)%nat ∧ (b = true → s' < es)%nat.
Proof.
  intros Hs. destruct (skip_any is_space s Hs) as (x & l & E & _ & Hd & _ & _ & Hle). unfold peek. rewrite bind_get. cbn zeta. rewrite E, bind_modify. cbv beta.
  destruct l as [|c l].
  - apply drop_end in Hd; [|done]. rewrite Hd. mstep (char_end es). eexists _, _. split_and!; [done|lia|lia|]. by rewrite bool_decide_false by (by intros []).
  - destruct (char_run c l _ (s + length x) Hd) as [R _]. mstep R. apply drop_more in Hd as [Hd _]. eexists _, _. split_and!; [done|lia|lia|lia].
Qed.

(** The end of a token at [eq]. *)
Lemma token_total s eq (v : Z * span) :
  (eq ≤ es)%nat → ∃ s', (modify (λ _, skip buf es is_space eq);; mret v) s = Ret v s' [] ∧ (eq ≤ s' ≤ es)%nat.
Proof. intros He. destruct (skip_any is_space eq He) as (x & l & E & _ & _ & _ & _ & Hle). rewrite bind_modify, E. eexists. split; [done|lia]. Qed.

Lemma gettoken_total s :
  (s ≤ es)%nat → ∃ tok w s', gettoken buf es s = Ret (tok, w) s' [] ∧ (s ≤ s' ≤ es)%nat ∧ (tok ≠ 0 ∨ (s < es)%nat → (s < s')%nat) ∧
    (tok = chr "a" → ∃ x, word_at w x).
Proof.
  intros Hs. destruct (skip_any is_space s Hs) as (x & l & E & Hdx & Hd & _ & Hl & Hle). set (q := (s + length x)%nat) in *.
  unfold gettoken. rewrite bind_get. cbn zeta. rewrite E. destruct l as [|c l].
  - apply drop_end in Hd; [|done]. rewrite Hd. mstep (char_end s). rewrite bool_decide_true by done. rewrite bind_mret.
    destruct (token_total s es (0, (es, es))) as (s' & R & Hs'); [done|]. exists 0, (es, es), s'. split_and!; [done|lia|lia| |done]. intros [|]; [done|lia].
  - destruct (char_run c l q s Hd) as [R Hc0]. mstep R. rewrite bool_decide_false by done. destruct (drop_more _ _ _ Hd) as [Hq Hd1].
    destruct (is_in (str "|();&<") c) eqn:Ei.
    { rewrite bind_mret. destruct (token_total s (S q) (c, (q, S q))) as (s' & R' & Hs'); [done|]. exists c, (q, S q), s'. split_and!; [done|lia|lia|lia|].
      intros ->. done. }
    destruct (decide (c = chr ">")) as [->|Hgt].
    + rewrite bool_decide_true by done. set (c1 := default 0 (head l)). assert (char_at buf (S q) s = Ret c1 s []) as R1.
      { destruct l as [|c' l]; [apply drop_end in Hd1; [|done]; rewrite Hd1; apply char_end|by apply (char_run c' l)]. }
      set (d := bool_decide (c1 = chr ">")). assert (S q + (if d then 1 else 0) ≤ es)%nat as Hle2.
      { unfold d, c1. destruct l as [|c' l]; [rewrite bool_decide_false by done; lia|]. apply drop_more in Hd1 as [? _]. case_bool_decide; lia. }
      destruct (token_total s (S q + (if d then 1 else 0)) (if d then chr "+" else chr ">", (q, S q + (if d then 1 else 0))%nat)) as (s' & R' & Hs'); [done|].
      eexists _, _, s'. split_and!; [| | | |]; cycle 1; [lia|lia|lia| |].
      2: { rewrite (bind_run _ _ s (if d then chr "+" else chr ">", S q + (if d then 1 else 0))%nat s []); [rewrite prepend_nil; exact R'|]. mstep R1. fold d. destruct d; [by rewrite Nat.add_1_r|by rewrite Nat.add_0_r]. }
      by destruct d.
    + rewrite bool_decide_false by done. destruct (skip_any is_word q) as (y & k & Ey & Hdy & Hdk & Hfy & Hk & Hley); [lia|]. rewrite Ey, bind_mret.
      assert (is_word c) as Hw.
      { unfold is_word. specialize (Hl c eq_refl). unfold is_space in Hl. destruct (is_in whitespace c); [by destruct Hl|].
        destruct (is_in symbols c) eqn:Es; [|done]. apply symbol_gt in Ei; [done|by rewrite Es]. }
      assert (0 < length y)%nat as Hy. { destruct y; [|simpl; lia]. simpl in Hdy. rewrite <- Hdy, Hd in Hk. by destruct (Hk c). }
      destruct (token_total s (q + length y) (chr "a", (q, q + length y)%nat)) as (s' & R' & Hs'); [done|].
      eexists _, _, s'. split_and!; [done|lia|lia|lia|]. intros _. exists y. split_and!; [simpl; lia|done| |done|].
      * unfold slice. cbn [fst snd]. replace (q + length y - q)%nat with (length y) by lia. by rewrite Hdy, take_app_length.
      * intros c' Hc'. apply Hk. by rewrite <- Hdk, head_lookup, lookup_drop, Nat.add_0_r.
Qed.

(** The code moves forward and returns, or stops with one of these messages. *)
Definition syntax_errors : list string := ["missing file for redirection"; "syntax"; "too many args"; "syntax - missing )"]%string.
Definition tot {A} (Q : A → Prop) (m : M nat A) (s : nat) : Prop :=
  match m s with
  | Ret a s' t => (s ≤ s' ≤ es)%nat ∧ t = [] ∧ Q a
  | Panic msg _ => msg ∈ syntax_errors
  | _ => False
  end.

Lemma tot_bind {A B} (Q : A → Prop) (R : B → Prop) (m : M nat A) f s :
  tot Q m s → (∀ a s', (s ≤ s' ≤ es)%nat → Q a → tot R (f a) s') → tot R (m ≫= f) s.
Proof.
  unfold tot, mbind, M_bind. destruct (m s) as [a s' t| | | |]; try done. intros (Hs & -> & HQ) H. specialize (H a s' Hs HQ).
  rewrite prepend_nil. destruct (f a s'); try done. destruct H as (? & ? & ?). split_and!; [lia|lia|done|done].
Qed.
(** A step that is known to return. *)
Lemma tot_step {A B} (R : B → Prop) (m : M nat A) f s a s' :
  m s = Ret a s' [] → (s ≤ s')%nat → tot R (f a) s' → tot R (m ≫= f) s.
Proof.
  intros E Hs. unfold tot. rewrite (bind_run _ _ _ _ _ _ E), prepend_nil. destruct (f a s'); try done. intros (? & ? & ?). split_and!; [lia|lia|done|done].
Qed.
Lemma tot_ret {A} (Q : A → Prop) a s : (s ≤ es)%nat → Q a → tot Q (mret a) s.
Proof. intros Hs HQ. split_and!; [lia|lia|done|done]. Qed.
Lemma tot_panic_if {B} (b : bool) msg (R : B → Prop) f s :
  msg ∈ syntax_errors → (b = false → tot R (f tt) s) → tot R (panic_if b msg ≫= f) s.
Proof. intros Hm Hf. destruct b; [done|]. cbn [panic_if]. unfold tot. rewrite bind_mret. by apply Hf. Qed.

Lemma tot_pass {B} msg (R : B → Prop) f s : tot R (f tt) s → tot R (panic_if false msg ≫= f) s.
Proof. cbn [panic_if]. unfold tot. by rewrite bind_mret. Qed.

Definition some_word (w : span) : Prop := ∃ x, word_at w x.
Definition redir_formed (r : option (span * Z * Z)) : Prop := match r with Some (w, _, _) => some_word w | None => True end.
Fixpoint formed (c : cmd span) : Prop :=
  match c with
  | Execcmd argv => (length argv < MAXARGS)%nat ∧ Forall some_word argv
  | Redircmd c w _ _ => formed c ∧ some_word w
  | Pipecmd l r | Listcmd l r => formed l ∧ formed r
  | Backcmd c => formed c
  end.
Lemma wrap_formed rs c : formed c → Forall redir_formed rs → formed (foldl wrap c rs).
Proof.
  revert c. induction rs as [|[[[w m] d]|] rs IH]; intros c Hc H; [done|..]; apply Forall_cons in H as [Hr H]; by apply IH.
Qed.

Ltac tpeek s := let b := fresh "b" in let s' := fresh "s" in let R := fresh "R" in let Hb := fresh "Hb" in
  match goal with |- tot _ (peek _ _ ?toks ≫= _) _ => destruct (peek_total toks s ltac:(lia)) as (b & s' & R & ? & Hb); apply (tot_step _ _ _ _ _ _ R); [lia|] end.
Ltac ttok s := let tok := fresh "tok" in let w := fresh "w" in let s' := fresh "s" in let R := fresh "R" in let H1 := fresh "Hadv" in let H2 := fresh "Hword" in
  destruct (gettoken_total s ltac:(lia)) as (tok & w & s' & R & ? & H1 & H2); apply (tot_step _ _ _ _ _ _ R); [lia|].

Lemma redirs_total fuel s rs :
  (s ≤ es)%nat → (es - s < fuel)%nat → Forall redir_formed rs → tot (Forall redir_formed) (redirs_loop buf es fuel rs) s.
Proof.
  revert s rs. induction fuel as [|fuel IH]; intros s rs Hs Hf Hrs; [lia|]. cbn [redirs_loop]. tpeek s. destruct b; [|by apply tot_ret; [lia|]].
  specialize (Hb eq_refl). ttok s0. ttok s1. apply tot_panic_if; [set_solver|]. intros Hw%bool_decide_eq_false_1. apply dec_stable in Hw.
  apply IH; [lia|lia|]. apply Forall_app. split; [done|]. constructor; [|done]. unfold redir_of. repeat case_bool_decide; simpl; auto; by apply Hword0.
Qed.
Lemma args_total fuel s argv rs :
  (s ≤ es)%nat → (es - s < fuel)%nat → (length argv < MAXARGS)%nat → Forall some_word argv → Forall redir_formed rs →
  tot (λ r, (length r.1 < MAXARGS)%nat ∧ Forall some_word r.1 ∧ Forall redir_formed r.2) (args_loop buf es fuel argv rs) s.
Proof.
  revert s argv rs. induction fuel as [|fuel IH]; intros s argv rs Hs Hf Hn Ha Hrs; [lia|]. cbn [args_loop]. tpeek s. destruct b; [by apply tot_ret; [lia|]|].
  ttok s0. case_bool_decide as Htok; [by apply tot_ret; [lia|]|]. apply tot_panic_if; [set_solver|]. intros Hw%bool_decide_eq_false_1. apply dec_stable in Hw.
  cbn zeta. apply tot_panic_if; [set_solver|]. intros Hm%bool_decide_eq_false_1. apply (tot_bind (Forall redir_formed)); [apply redirs_total; [lia|lia|done]|].
  intros rs' s' Hs' Hrs'. apply IH; [lia|specialize (Hadv (or_introl Htok)); lia|lia| |done]. apply Forall_app. split; [done|]. constructor; [by apply Hword|done].
Qed.
Lemma back_total fuel s c : (s ≤ es)%nat → (es - s < fuel)%nat → formed c → tot formed (back_loop buf es fuel c) s.
Proof.
  revert s c. induction fuel as [|fuel IH]; intros s c Hs Hf Hc; [lia|]. cbn [back_loop]. tpeek s. destruct b; [|by apply tot_ret; [lia|]].
  specialize (Hb eq_refl). ttok s0. apply IH; [lia|lia|done].
Qed.

Lemma peek_again toks s s' b : peek buf es toks s = Ret b s' [] → (s ≤ es)%nat → peek buf es toks s' = Ret b s' [].
Proof.
  intros H Hs. destruct (skip_any is_space s Hs) as (x & l & E & _ & Hd & _ & Hl & Hle). unfold peek in H. rewrite bind_get in H. cbn zeta in H.
  rewrite E, bind_modify in H. cbv beta in H. assert (s' = s + length x)%nat as ->.
  { unfold char_at in H. destruct (buf !! (s + length x)%nat); [|done]. cbn [deref] in H. rewrite bind_mret in H. by injection H. }
  destruct (skip_run is_space [] l (s + length x)) as (E' & _); [constructor|done|done|done|]. rewrite Nat.add_0_r in E'.
  unfold peek. rewrite bind_get. cbn zeta. rewrite E', bind_modify. done.
Qed.

Lemma parse_total n :
  (∀ fuel s, (s ≤ es)%nat → (es - s ≤ n)%nat → (4 * n + 4 ≤ fuel)%nat → tot formed (parseline buf es fuel) s) ∧
  (∀ fuel s, (s ≤ es)%nat → (es - s ≤ n)%nat → (4 * n + 3 ≤ fuel)%nat → tot formed (parsepipe buf es fuel) s) ∧
  (∀ fuel s, (s ≤ es)%nat → (es - s ≤ n)%nat → (4 * n + 2 ≤ fuel)%nat → tot formed (parseexec buf es fuel) s).
Proof.
  induction n as [n IH] using lt_wf_ind.
  assert (∀ fuel s, (s ≤ es)%nat → (es - s ≤ n)%nat → (4 * n + 2 ≤ fuel)%nat → tot formed (parseexec buf es fuel) s) as Hexec.
  { intros fuel s Hs Hn Hf. destruct fuel as [|[|fuel]]; [lia|lia|]. cbn [parseexec]. tpeek s. destruct b.
    - specialize (Hb eq_refl). cbn [parseblock]. apply (tot_step _ _ _ _ _ _ (peek_again _ _ _ _ R Hs)); [lia|]. apply tot_pass.
      ttok s0. specialize (Hadv (or_intror Hb)). destruct (IH (n - 1)%nat) as (Hline & _); [lia|]. apply (tot_bind formed); [apply Hline; lia|].
      intros c s2 Hs2 Hc. tpeek s2. apply tot_panic_if; [set_solver|]. intros _. ttok s3.
      apply (tot_bind (Forall redir_formed)); [apply redirs_total; [lia|lia|constructor]|]. intros rs s5 Hs5 Hrs. apply tot_ret; [lia|]. by apply wrap_formed.
    - apply (tot_bind (Forall redir_formed)); [apply redirs_total; [lia|lia|constructor]|]. intros rs s2 Hs2 Hrs.
      apply (tot_bind _ _ _ _ _ (args_total (S es) s2 [] rs ltac:(lia) ltac:(lia) ltac:(unfold MAXARGS; simpl; lia) ltac:(constructor) Hrs)).
      intros [argv rs'] s3 Hs3 (Hlen & Hargv & Hrs'). apply tot_ret; [lia|]. by apply wrap_formed. }
  assert (∀ fuel s, (s ≤ es)%nat → (es - s ≤ n)%nat → (4 * n + 3 ≤ fuel)%nat → tot formed (parsepipe buf es fuel) s) as Hpipe.
  { intros fuel s Hs Hn Hf. destruct fuel as [|fuel]; [lia|]. cbn [parsepipe]. apply (tot_bind formed); [apply Hexec; lia|]. intros c s1 Hs1 Hc.
    tpeek s1. destruct b; [|by apply tot_ret; [lia|]]. specialize (Hb eq_refl). ttok s0. specialize (Hadv (or_intror Hb)).
    destruct (IH (n - 1)%nat) as (_ & Hp & _); [lia|]. apply (tot_bind formed); [apply Hp; lia|]. intros r s3 Hs3 Hr. by apply tot_ret; [lia|]. }
  split_and!; [|done|done]. intros fuel s Hs Hn Hf. destruct fuel as [|fuel]; [lia|]. cbn [parseline]. apply (tot_bind formed); [apply Hpipe; lia|]. intros c s1 Hs1 Hc.
  apply (tot_bind formed); [apply back_total; [lia|lia|done]|]. intros c' s2 Hs2 Hc'. tpeek s2. destruct b; [|by apply tot_ret; [lia|]].
  specialize (Hb eq_refl). ttok s0. specialize (Hadv (or_intror Hb)). destruct (IH (n - 1)%nat) as (Hl & _); [lia|].
  apply (tot_bind formed); [apply Hl; lia|]. intros r s4 Hs4 Hr. by apply tot_ret; [lia|].
Qed.
Lemma formed_words p : formed p → Forall some_word (cmd_words p).
Proof.
  induction p as [ws|p IH w m d|l IHl r IHr|l IHl r IHr|p IH]; simpl; [tauto| | | |done]; intros [H1 H2]; rewrite Forall_app; auto.
Qed.
End lexer.

Lemma parse_notation c line rest s0 :
  printable c → 0 ∉ line → lays line (notation LLine c) →
  ∃ p buf', parsecmd (line ++ 0 :: rest) s0 = Ret (p, buf') (length line) [] ∧ cmd_map (string_at buf') p = c.
Proof.
  intros Hc Hnul Hl. unfold parsecmd. rewrite cstr_stop by done. rewrite bind_modify. cbv beta.
  assert (ahead line 0 (notation LLine c ++ [])) as Ha by (rewrite app_nil_r; split; [lia|done]).
  destruct (every_command line rest Hnul (cmd_size c) c) as (H & _); [lia|done|].
  destruct (H (4 * length line + 4)%nat 0%nat [] Ha) as (p & s1 & R1 & Hp & Ha1); [by left|pose proof (ahead_length _ _ _ Ha); lia|].
  mstep R1. destruct (peek_run line rest Hnul s1 [] [] Ha1) as (s2 & R2 & Ha2); [by apply ops_of|]. mstep R2. rewrite bind_get.
  assert (s2 = length line) as ->.
  { destruct (ahead_skip line rest s1 [] Ha1) as (s' & E & _ & _ & ->). unfold peek in R2. rewrite bind_get in R2. cbn zeta in R2. rewrite E, bind_modify in R2.
    cbv beta in R2. rewrite (bind_run _ _ _ _ _ _ (char_end line rest (length line))) in R2. by injection R2. }
  rewrite bool_decide_false by (intros []; done). cbn [panic_if]. rewrite bind_mret. eexists _, _. split; [done|].
  apply (spells_map line Hnul _ p c Hp). intros w x Hin Hw. rewrite nulterminate_words. apply string_cut; [done| |done|done].
  apply spells_words in Hp. apply Forall_forall. intros w' (i & Hi)%list_elem_of_lookup. destruct (Forall2_lookup_l _ _ _ _ _ Hp Hi) as (x' & _ & Hx'). by exists x'.
Qed.

(** C35: the parser reads back the notation of every command.  For a command
    tree [c] with fewer than [MAXARGS] arguments in each simple command, and
    any layout of its notation on a line, [parsecmd] returns, and the pointers
    in the tree it builds point, in the line as [nulterminate] leaves it, to
    strings with which the tree is [c]: precedence of [|], [&] and [;],
    nesting by parentheses, redirections in their order, and every word cut
    out of the line whole. *)
Theorem parse_roundtrip c line rest s0 :
  printable c → 0 ∉ line → lays line (notation LLine c) →
  ∃ p buf', parsecmd (line ++ 0 :: rest) s0 = Ret (p, buf') (length line) [] ∧ cmd_map (string_at buf') p = c.
Proof. apply parse_notation. Qed.

(** The line "a|b <f&; c". *)
Lemma parse_roundtrip_witness :
  ∃ p buf', parsecmd (str "a|b <f&; c" ++ [0]) 0%nat = Ret (p, buf') 10%nat [] ∧
    cmd_map (string_at buf') p =
      Listcmd (Backcmd (Pipecmd (Execcmd [str "a"]) (Redircmd (Execcmd [str "b"]) (str "f") O_RDONLY 0))) (Execcmd [str "c"]).
Proof.
  apply (parse_roundtrip _ (str "a|b <f&; c") [] 0%nat).
  - cbn. unfold MAXARGS. split_and!; [lia|lia|by left|lia].
  - apply (bool_decide_eq_false_1 (0 ∈ _)). by vm_compute.
  - apply (lays_word [] (str "a") (str "|b <f&; c")); [constructor|done|by repeat constructor|by intros ? [= <-] []|].
    apply (lays_sym [] _ (str "b <f&; c")); [constructor|done|done|].
    apply (lays_word [] (str "b") (str " <f&; c")); [constructor|done|by repeat constructor|by intros ? [= <-] []|].
    apply (lays_sym (str " ") _ (str "f&; c")); [by repeat constructor|done|done|].
    apply (lays_word [] (str "f") (str "&; c")); [constructor|done|by repeat constructor|by intros ? [= <-] []|].
    apply (lays_sym [] _ (str "; c")); [constructor|done|done|].
    apply (lays_sym [] _ (str " c")); [constructor|done|done|].
    apply (lays_word (str " ") (str "c") []); [by repeat constructor|done|by repeat constructor|done|]. apply lays_nil. constructor.
Defined.

(** C36: the parser ends on every line and stays inside it.  Whatever the
    characters before the NUL, [parsecmd] does not run out of the line or of
    its recursion: it returns a tree in which every simple command has fewer
    than [MAXARGS] arguments (so that [argv] is not overrun) and every pointer
    is to a non-empty word of the line, which [nulterminate] has cut out; or
    it reports one of four syntax errors, never "parseblock". *)
Theorem parse_ends line rest s0 :
  0 ∉ line →
  match parsecmd (line ++ 0 :: rest) s0 with
  | Ret (p, buf') s' t =>
      s' = length line ∧ t = [] ∧ length buf' = length (line ++ 0 :: rest) ∧ formed line p ∧
      ∀ w, w ∈ cmd_words p → string_at buf' w = slice line w.1 (w.2 - w.1) ∧ string_at buf' w ≠ []
  | Panic msg _ => msg ∈ syntax_errors
  | _ => False
  end.
Proof.
  intros Hnul. unfold parsecmd. rewrite cstr_stop by done. rewrite bind_modify. cbv beta.
  destruct (parse_total line rest Hnul (length line)) as (H & _). specialize (H (4 * length line + 4)%nat 0%nat ltac:(lia) ltac:(lia) ltac:(lia)). unfold tot in H.
  destruct (parseline _ _ _ _) as [p s1 t|msg s1| | |] eqn:R; try done; [|unfold mbind, M_bind; by rewrite R]. destruct H as (Hs1 & -> & Hp). mstep R.
  destruct (peek_total line rest Hnul [] s1) as (b & s2 & R2 & Hs2 & _); [lia|]. mstep R2. rewrite bind_get.
  case_bool_decide as Hes; [set_solver|]. rewrite Hes. cbn [panic_if]. rewrite bind_mret, nulterminate_words.
  assert (Forall (some_word line) (cmd_words p)) as Hw by (by apply formed_words).
  split_and!; [done|done| |done|].
  - generalize (line ++ 0 :: rest). induction (cmd_words p) as [|w ws IH]; intros b'; [done|]. simpl. apply Forall_cons in Hw as [_ Hw]. rewrite IH by done. apply length_insert.
  - intros w Hin. pose proof Hw as Hw'. rewrite Forall_forall in Hw'. destruct (Hw' w Hin) as [x Hx]. rewrite (string_cut line rest Hnul (cmd_words p) w x) by done.
    destruct Hx as (Hr & <- & _). split; [done|]. intros E%(f_equal length). unfold slice in E. rewrite length_take, length_drop in E. simpl in E. lia.
Qed.

(** A tree, and an error. *)
Lemma parse_ends_witness :
  (∃ p b, parsecmd (str "a |b" ++ [0]) 0%nat = Ret (p, b) 4%nat [] ∧ formed (str "a |b") p) ∧
  (∃ msg s, parsecmd (str "(a|b >" ++ [0]) 0%nat = Panic msg s ∧ msg ∈ syntax_errors).
Proof.
  split.
  - pose proof (parse_ends (str "a |b") [] 0%nat) as H. specialize (H (bool_decide_eq_false_1 (0 ∈ str "a |b") eq_refl)).
    remember (parsecmd (str "a |b" ++ [0]) 0%nat) as r eqn:E. vm_compute in E. subst r. destruct H as (_ & _ & _ & H & _). eexists _, _. split; [done|exact H].
  - pose proof (parse_ends (str "(a|b >") [] 0%nat) as H. specialize (H (bool_decide_eq_false_1 (0 ∈ str "(a|b >") eq_refl)).
    remember (parsecmd (str "(a|b >" ++ [0]) 0%nat) as r eqn:E. vm_compute in E. subst r. eexists _, _. split; [done|exact H].
Defined.
