(* ===== verification/ShRun.v ===== *)
(** Running commands: [runcmd] and the main loop of the shell (src/sh.c).

    A program is the tree of its system calls with what it does with their
    results ([prog]); after [fork] it goes on in the child with 0 and in the
    parent with the child's number.  [run] follows a tree with the
    descriptor table of the process and lists what becomes of the processes:
    the programs that are executed, with their descriptors, and the messages
    printed.  The theorems: every program of a command gets the descriptors
    that its pipes and redirections ask for and no others, and the main loop
    runs the commands of a script one by one. *)
From S2P Require Import Prelude Layout Bytes Ulib Sh.

(** * The program *)

Inductive prog : Type :=
| Exit
| Exec (argv : list (list Z)) (failed : prog)
| Close (fd : Z) (k : prog)
| Open (path : list Z) (mode : Z) (k : Z → prog)
| Dup (fd : Z) (k : Z → prog)
| Pipe (k : option (Z * Z) → prog)
| Fork (k : Z → prog)
| Wait (k : prog)
| Write (msg : list Z) (k : prog).

Definition sh_panic (s : string) : prog := Write (str s ++ [10]) Exit.
Definition fork1 (k : Z → prog) : prog := Fork (λ pid, if bool_decide (pid = -1) then sh_panic "fork" else k pid).

Fixpoint runcmd (c : cmd (list Z)) : prog :=
  match c with
  | Execcmd argv =>
      match argv with
      | [] => Exit
      | a :: _ => Exec argv (Write (str "exec " ++ a ++ str " failed" ++ [10]) Exit)
      end
  | Redircmd c file mode fd =>
      Close fd (Open file mode (λ r,
        if bool_decide (r < 0) then Write (str "open " ++ file ++ str " failed" ++ [10]) Exit else runcmd c))
  | Listcmd l r => fork1 (λ pid, if bool_decide (pid = 0) then runcmd l else Wait (runcmd r))
  | Pipecmd l r =>
      Pipe (λ o, match o with
        | None => sh_panic "pipe"
        | Some (p0, p1) =>
            fork1 (λ pid,
              if bool_decide (pid = 0) then Close 1 (Dup p1 (λ _, Close p0 (Close p1 (runcmd l)))) else
              fork1 (λ pid,
                if bool_decide (pid = 0) then Close 0 (Dup p0 (λ _, Close p0 (Close p1 (runcmd r)))) else
                Close p0 (Close p1 (Wait (Wait Exit)))))
        end)
  | Backcmd c => fork1 (λ pid, if bool_decide (pid = 0) then runcmd c else Exit)
  end.

(** What the main loop does with a line. *)
Inductive action : Type := Chdir (path : list Z) | Run (c : cmd (list Z)) | Syntax (msg : string).
Definition sh_line (buf : list Z) : option action :=
  if bool_decide (take 3 buf = str "cd ") then
    let buf := put_nul (length (cstr buf) - 1) buf in
    Some (Chdir (cstr (drop 3 buf)))
  else
    match parsecmd buf 0%nat with
    | Ret (p, buf') _ _ => Some (Run (cmd_map (string_at buf') p))
    | Panic msg _ => Some (Syntax msg)
    | _ => None
    end.
(** [getcmd(buf, 100)]: the buffer and the input left; none at the end. *)
Definition getcmd (input : list Z) : option (list Z * list Z) :=
  let '(l, input') := gets_line 99 input in
  let buf := l ++ replicate (100 - length l) 0 in
  if bool_decide (head buf = Some 0) then None else Some (buf, input').
Fixpoint main_loop (fuel : nat) (input : list Z) : option (list action) :=
  match fuel with
  | O => None
  | S fuel' =>
      match getcmd input with
      | None => Some []
      | Some (buf, input') => a ← sh_line buf; l ← main_loop fuel' input'; Some (a :: l)
      end
  end.

(** * What becomes of the processes *)

(** What a descriptor refers to. *)
Inductive ofile : Type :=
| Other (n : nat)
| Named (path : list Z) (mode : Z)
| PipeRead (n : nat)
| PipeWrite (n : nat).
Abbreviation fds := (list (option ofile)).

(** The lowest free descriptor. *)
Definition fd_alloc (t : fds) : option nat := fst <$> list_find (λ o, o = None) t.
Definition fd_get (t : fds) (fd : Z) : option ofile := if bool_decide (0 ≤ fd) then mjoin (t !! Z.to_nat fd) else None.
Definition fd_close (t : fds) (fd : Z) : fds := if bool_decide (0 ≤ fd) then <[Z.to_nat fd := None]> t else t.

Inductive leaf : Type := Executed (argv : list (list Z)) (t : fds) | Printed (msg : list Z).

Section run.
(** The files that [open] can open. *)
Context (openable : list Z → Z → bool).

(** The processes of a tree, a child before its parent; [n] numbers the
    pipes. *)
Fixpoint run (p : prog) (t : fds) (n : nat) : list leaf * nat :=
  match p with
  | Exit => ([], n)
  | Exec argv _ => ([Executed argv t], n)
  | Close fd k => run k (fd_close t fd) n
  | Open path mode k =>
      match fd_alloc t with
      | Some fd => if openable path mode then run (k (Z.of_nat fd)) (<[fd := Some (Named path mode)]> t) n else run (k (-1)) t n
      | None => run (k (-1)) t n
      end
  | Dup fd k =>
      match fd_get t fd, fd_alloc t with
      | Some f, Some fd' => run (k (Z.of_nat fd')) (<[fd' := Some f]> t) n
      | _, _ => run (k (-1)) t n
      end
  | Pipe k =>
      match fd_alloc t with
      | Some p0 =>
          let t1 := <[p0 := Some (PipeRead n)]> t in
          match fd_alloc t1 with
          | Some p1 => run (k (Some (Z.of_nat p0, Z.of_nat p1))) (<[p1 := Some (PipeWrite n)]> t1) (S n)
          | None => run (k None) t n
          end
      | None => run (k None) t n
      end
  | Fork k =>
      let '(l, n1) := run (k 0) t n in
      let '(l', n2) := run (k 1) t n1 in
      (l ++ l', n2)
  | Wait k => run k t n
  | Write msg k => let '(l, n') := run k t n in (Printed msg :: l, n')
  end.

(** * What a command means *)

Fixpoint meaning (c : cmd (list Z)) (t : fds) (n : nat) : list leaf * nat :=
  match c with
  | Execcmd [] => ([], n)
  | Execcmd argv => ([Executed argv t], n)
  | Redircmd c file mode fd =>
      if openable file mode then meaning c (<[Z.to_nat fd := Some (Named file mode)]> t) n
      else ([Printed (str "open " ++ file ++ str " failed" ++ [10])], n)
  | Pipecmd l r =>
      let '(ll, n1) := meaning l (<[1%nat := Some (PipeWrite n)]> t) (S n) in
      let '(lr, n2) := meaning r (<[0%nat := Some (PipeRead n)]> t) n1 in
      (ll ++ lr, n2)
  | Listcmd l r =>
      let '(ll, n1) := meaning l t n in
      let '(lr, n2) := meaning r t n1 in
      (ll ++ lr, n2)
  | Backcmd c => meaning c t n
  end.

(** ** Descriptors *)

(** The standard input and output are open. *)
Definition open01 (t : fds) : Prop := (∃ f, t !! 0%nat = Some (Some f)) ∧ ∃ f, t !! 1%nat = Some (Some f).
(** And two descriptors are free. *)
Definition std (t : fds) : Prop := open01 t ∧ ∃ i j, i ≠ j ∧ t !! i = Some None ∧ t !! j = Some None.

Lemma fd_alloc_lowest t i : t !! i = Some None → (∀ k o, (k < i)%nat → t !! k = Some o → o ≠ None) → fd_alloc t = Some i.
Proof. intros Hi Hk. unfold fd_alloc. rewrite (proj2 (list_find_Some _ t i None)); [done|]. split_and!; [done|done|]. intros k o Ho Hlt. by apply (Hk k). Qed.
Lemma fd_alloc_some t i : t !! i = Some None → ∃ k, fd_alloc t = Some k ∧ t !! k = Some None.
Proof.
  intros Hi. unfold fd_alloc. destruct (list_find (λ o, o = None) t) as [[k o]|] eqn:E.
  - apply list_find_Some in E as (Hk & -> & _). by exists k.
  - apply list_find_None in E. rewrite Forall_lookup in E. by destruct (E i None Hi).
Qed.
(** Of a standard descriptor that was closed, the lower one being open. *)
Lemma fd_alloc_std t d : open01 t → d = 0 ∨ d = 1 → fd_alloc (fd_close t d) = Some (Z.to_nat d).
Proof.
  intros ((f & H0) & (g & H1)) Hd. unfold fd_close. rewrite bool_decide_true by lia. apply fd_alloc_lowest.
  - apply list_lookup_insert_eq. destruct Hd as [-> | ->]; by eapply lookup_lt_Some.
  - intros k o Hk. rewrite list_lookup_insert_ne by lia. assert (k = 0%nat) as -> by lia. rewrite H0. by intros [= <-].
Qed.
Lemma std_insert t d f : std t → d = 0 ∨ d = 1 → std (<[Z.to_nat d := Some f]> t).
Proof.
  intros (((g & H0) & (h & H1)) & i & j & Hij & Hi & Hj) Hd. pose proof (lookup_lt_Some _ _ _ H0). pose proof (lookup_lt_Some _ _ _ H1).
  assert (∀ k, t !! k = Some None → k ≠ Z.to_nat d) as Hne by (intros k Hk ->; destruct Hd as [-> | ->]; [change (Z.to_nat 0) with 0%nat in Hk|change (Z.to_nat 1) with 1%nat in Hk]; congruence). unfold std, open01. split_and!.
  - destruct Hd as [-> | ->]; [exists f; by apply list_lookup_insert_eq|exists g; by rewrite list_lookup_insert_ne].
  - destruct Hd as [-> | ->]; [exists h; by rewrite list_lookup_insert_ne|exists f; by apply list_lookup_insert_eq].
  - exists i, j. rewrite !list_lookup_insert_ne by (apply not_eq_sym, Hne; done). done.
Qed.

(** The two descriptors that [pipe] gives. *)
Lemma pipe_fds t n :
  std t → ∃ p0 p1, fd_alloc t = Some p0 ∧ fd_alloc (<[p0 := Some (PipeRead n)]> t) = Some p1 ∧ p0 ≠ p1 ∧ (2 ≤ p0)%nat ∧ (2 ≤ p1)%nat ∧
    t !! p0 = Some None ∧ t !! p1 = Some None.
Proof.
  intros (((g & H0) & (h & H1)) & i & j & Hij & Hi & Hj). destruct (fd_alloc_some t i Hi) as (p0 & E0 & Hp0). set (t1 := <[p0 := Some (PipeRead n)]> t).
  assert (∃ k, t1 !! k = Some None) as [k Hk].
  { destruct (decide (i = p0)) as [<-|]; [exists j|exists i]; unfold t1; by rewrite list_lookup_insert_ne. }
  destruct (fd_alloc_some t1 k Hk) as (p1 & E1 & Hp1). assert (p0 ≠ p1) as Hne.
  { intros <-. unfold t1 in Hp1. rewrite list_lookup_insert_eq in Hp1; [done|by eapply lookup_lt_Some]. }
  unfold t1 in Hp1. rewrite list_lookup_insert_ne in Hp1 by done.
  assert (∀ p, t !! p = Some None → (2 ≤ p)%nat) as H2 by (intros [|[|p]] Hp; [congruence|congruence|lia]). exists p0, p1. eauto 10.
Qed.
(** A child of a pipeline: its end of the pipe replaces descriptor [d], and
    the pipe's own descriptors are closed. *)
Lemma pipe_child t p0 p1 d f e (k : prog) n :
  std t → t !! p0 = Some None → t !! p1 = Some None → p0 ≠ p1 → (2 ≤ p0)%nat → (2 ≤ p1)%nat → d = 0 ∨ d = 1 →
  (e = p0 ∨ e = p1) →
  let t' := <[p1 := Some (PipeWrite n)]> (<[p0 := Some (PipeRead n)]> t) in
  t' !! e = Some (Some f) → ∀ m,
  run (Close d (Dup (Z.of_nat e) (λ _, Close (Z.of_nat p0) (Close (Z.of_nat p1) k)))) t' m = run k (<[Z.to_nat d := Some f]> t) m.
Proof.
  intros Hstd Hp0 Hp1 Hne H0 H1 Hd He t' Hf m. cbn [run].
  assert (open01 t') as H01.
  { destruct Hstd as (((g & Hg) & (h & Hh)) & _). unfold t'. split; [exists g|exists h]; by rewrite !list_lookup_insert_ne by lia. }
  assert (fd_get (fd_close t' d) (Z.of_nat e) = Some f) as ->.
  { unfold fd_get, fd_close. rewrite !bool_decide_true by lia. rewrite Nat2Z.id, list_lookup_insert_ne by lia. by rewrite Hf. }
  rewrite (fd_alloc_std t' d H01 Hd). f_equal. apply list_eq. intros i. unfold fd_close. rewrite !bool_decide_true by lia. rewrite !Nat2Z.id.
  destruct Hstd as (((g & Hg) & (h & Hh)) & _). apply lookup_lt_Some in Hg, Hh. pose proof (lookup_lt_Some _ _ _ Hp0). pose proof (lookup_lt_Some _ _ _ Hp1).
  destruct (decide (i = p1)) as [->|]; [rewrite list_lookup_insert_eq by (unfold t'; rewrite !length_insert; lia); rewrite list_lookup_insert_ne by lia; done|].
  rewrite list_lookup_insert_ne by done. destruct (decide (i = p0)) as [->|].
  { rewrite list_lookup_insert_eq by (unfold t'; rewrite !length_insert; lia). by rewrite list_lookup_insert_ne by lia. }
  rewrite list_lookup_insert_ne by done. destruct (decide (i = Z.to_nat d)) as [->|].
  - rewrite !list_lookup_insert_eq; [done|lia|unfold t'; rewrite !length_insert; lia].
  - unfold t'. by rewrite !list_lookup_insert_ne by done.
Qed.

(** ** Running a command *)

Lemma run_fork1 k t n :
  run (fork1 k) t n = let '(l, n1) := run (k 0) t n in let '(l', n2) := run (k 1) t n1 in (l ++ l', n2).
Proof. done. Qed.

Lemma run_runcmd c t n : std t → printable c → run (runcmd c) t n = meaning c t n.
Proof.
  revert t n. induction c as [argv|c IH file mode fd|l IHl r IHr|l IHl r IHr|c IH]; intros t n Ht Hc; cbn [runcmd meaning printable] in *.
  - by destruct argv.
  - destruct Hc as [Hc Hfd]. assert (fd = 0 ∨ fd = 1) as Hd by (destruct Hfd as [[_ ->]|[_ ->]]; auto). cbn [run].
    rewrite (fd_alloc_std t fd) by (done || apply Ht). destruct (openable file mode); [|done].
    rewrite bool_decide_false by lia. rewrite IH; [|unfold fd_close; rewrite bool_decide_true by lia; rewrite list_insert_insert_eq; by apply std_insert|done].
    unfold fd_close. rewrite bool_decide_true by lia. by rewrite list_insert_insert_eq.
  - destruct Hc as [Hl Hr]. cbn [run]. destruct (pipe_fds t n Ht) as (p0 & p1 & E0 & E1 & Hne & H0 & H1 & Hp0 & Hp1). rewrite E0, E1, run_fork1.
    rewrite (bool_decide_true (0 = 0)), (bool_decide_false (1 = 0)) by done. rewrite (pipe_child t p0 p1 1 (PipeWrite n) p1); try done; [|by right|by right|].
    2: { apply list_lookup_insert_eq. rewrite length_insert. by eapply lookup_lt_Some. }
    rewrite IHl by (done || by apply (std_insert t 1); [|right]). destruct (meaning l _ _) as [ll n1]. rewrite run_fork1.
    rewrite (bool_decide_true (0 = 0)), (bool_decide_false (1 = 0)) by done. rewrite (pipe_child t p0 p1 0 (PipeRead n) p0); try done; [|by left|by left|].
    2: { rewrite list_lookup_insert_ne by done. apply list_lookup_insert_eq. by eapply lookup_lt_Some. }
    rewrite IHr by (done || by apply (std_insert t 0); [|left]). destruct (meaning r _ _) as [lr n2]. cbn [run]. by rewrite app_nil_r.
  - destruct Hc as [Hl Hr]. rewrite run_fork1, (bool_decide_true (0 = 0)), (bool_decide_false (1 = 0)) by done. rewrite IHl by done. destruct (meaning l t n) as [ll n1].
    cbn [run]. by rewrite IHr.
  - rewrite run_fork1, (bool_decide_true (0 = 0)), (bool_decide_false (1 = 0)) by done. rewrite IH by done. destruct (meaning c t n) as [lc n1]. cbn [run]. by rewrite app_nil_r.
Qed.
End run.

(** * Scripts *)

Lemma gets_line_newline n l rest : 10 ∉ l → 13 ∉ l → (length l < n)%nat → gets_line n (l ++ 10 :: rest) = (l ++ [10], rest).
Proof.
  revert n. induction l as [|c l IH]; intros n H10 H13 Hn; (destruct n as [|n]; [simpl in Hn; lia|]); [done|]. cbn [app gets_line].
  apply not_elem_of_cons in H10 as [? ?]. apply not_elem_of_cons in H13 as [? ?]. rewrite !bool_decide_false by done. cbn [orb]. by rewrite IH by (simpl in Hn; done || lia).
Qed.
Lemma lays_space l ts c : lays l ts → is_space c → c ≠ chr ">" → lays (l ++ [c]) ts.
Proof.
  intros H Hc Hgt. assert (¬ is_word c) as Hw by (intros Hw; by apply (word_not_space c)).
  induction H as [w Hw'|w x l ts Hw' Hx Hg H IH|w x l ts Hw' Hx Hfx Hl H IH].
  - apply lays_nil, Forall_app. split; [done|]. by constructor.
  - rewrite <- (assoc_L (++)). cbn [app]. apply lays_sym; [done|done| |done]. intros E. destruct l; [|by apply Hg]. simpl. congruence.
  - rewrite <- !(assoc_L (++)). apply lays_word; [done|done|done| |done]. intros c'. destruct l; [|by apply Hl]. by intros [= <-].
Qed.

(** A line of a script and its command. *)
Definition script_line (x : list Z * cmd (list Z)) : Prop :=
  printable x.2 ∧ lays x.1 (notation LLine x.2) ∧ 0 ∉ x.1 ∧ 10 ∉ x.1 ∧ 13 ∉ x.1 ∧ (length x.1 ≤ 98)%nat ∧ take 3 x.1 ≠ str "cd ".

Lemma sh_line_runs x : script_line x → sh_line (x.1 ++ [10] ++ replicate (99 - length x.1) 0) = Some (Run x.2).
Proof.
  destruct x as [l c]. intros (Hc & Hl & H0 & H10 & _ & Hlen & Hcd). cbn [fst snd] in *. unfold sh_line. rewrite bool_decide_false.
  - destruct (99 - length l)%nat as [|k] eqn:Ek; [lia|]. cbn [replicate]. rewrite (assoc_L (++)).
    destruct (parse_notation c (l ++ [10]) (replicate k 0) 0%nat Hc) as (p & b & R & E); [set_solver|by apply lays_space|]. by rewrite R, E.
  - intros E. destruct (decide (3 ≤ length l)%nat) as [H3|H3]; [by rewrite take_app_le in E|].
    assert (10 ∈ str "cd ") as H; [|revert H; by apply (bool_decide_eq_false_1 (10 ∈ str "cd "))]. rewrite <- E. apply list_elem_of_lookup. exists (length l).
    rewrite lookup_take_lt by lia. by rewrite lookup_app_r, Nat.sub_diag.
Qed.

Lemma getcmd_line x rest :
  script_line x → getcmd ((x.1 ++ [10]) ++ rest) = Some (x.1 ++ [10] ++ replicate (99 - length x.1) 0, rest).
Proof.
  intros (_ & _ & H0 & H10 & H13 & Hlen & _). unfold getcmd. rewrite <- (assoc_L (++)). cbn [app]. rewrite gets_line_newline by (done || lia).
  rewrite length_app. cbn [length]. replace (100 - (length x.1 + 1))%nat with (99 - length x.1)%nat by lia. rewrite bool_decide_false; [by rewrite <- (assoc_L (++))|].
  destruct x.1 as [|c l]; [done|]. intros [= ->]. apply H0. constructor.
Qed.
Lemma main_loop_S fuel input buf input' a :
  getcmd input = Some (buf, input') → sh_line buf = Some a → main_loop (S fuel) input = l ← main_loop fuel input'; Some (a :: l).
Proof. intros E1 E2. cbn [main_loop]. rewrite E1. cbn [mbind option_bind]. by rewrite E2. Qed.

(** The shell runs a script command by command.  For any list of commands,
    written one to a line in any layout of at most 98 characters that does
    not start with "cd ", the main loop reads the lines, parses each and gives
    [runcmd] exactly these commands, in order, and stops at the end of the
    input. *)
Theorem shell_reads_script xs :
  Forall script_line xs →
  main_loop (S (length xs)) (concat ((λ x, x.1 ++ [10]) <$> xs)) = Some ((λ x, Run x.2) <$> xs).
Proof.
  induction 1 as [|x xs Hx H IH]; [done|]. change (S (length (x :: xs))) with (S (S (length xs))). cbn [fmap list_fmap concat].
  erewrite main_loop_S; [|apply (getcmd_line x _ Hx)|by apply sh_line_runs]. by rewrite IH.
Qed.

(** C37: every program of a command gets the right descriptors.  When
    descriptors 0 and 1 are open and two more are free, the system calls that
    [runcmd] makes, in the shell's child and in all the processes it forks,
    start exactly the programs that the command means, in order; a redirected
    program has the file as its descriptor 0 or 1, the two sides of a pipe
    have its write end as descriptor 1 and its read end as descriptor 0, and
    apart from these each program has the descriptors the shell had: no end
    of a pipe is left open in it.  If a file of a redirection cannot be opened
    its message is printed and nothing of that command runs. *)
Theorem runcmd_wires openable c t n : std t → printable c → run openable (runcmd c) t n = meaning openable c t n.
Proof. apply run_runcmd. Qed.

Definition ex_fds : fds := [Some (Other 0); Some (Other 1); Some (Other 2); None; None; None].
(** "a <f | b ; c" where [f] can be opened. *)
Definition ex_cmd : cmd (list Z) :=
  Listcmd (Pipecmd (Redircmd (Execcmd [str "a"]) (str "f") O_RDONLY 0) (Execcmd [str "b"])) (Execcmd [str "c"]).
Lemma runcmd_wires_witness :
  run (λ _ _, true) (runcmd ex_cmd) ex_fds 0 =
    ([Executed [str "a"] [Some (Named (str "f") O_RDONLY); Some (PipeWrite 0); Some (Other 2); None; None; None];
      Executed [str "b"] [Some (PipeRead 0); Some (Other 1); Some (Other 2); None; None; None];
      Executed [str "c"] ex_fds], 1%nat).
Proof.
  rewrite (runcmd_wires (λ _ _, true) ex_cmd ex_fds 0); [by vm_compute| |].
  - unfold std, open01. split_and!; [by eexists|by eexists|]. by exists 3%nat, 4%nat.
  - cbn. unfold MAXARGS. split_and!; [lia|by left|lia|lia].
Defined.
Lemma shell_reads_script_witness :
  main_loop 3 (str "a" ++ [10] ++ str " b " ++ [10]) = Some [Run (Execcmd [str "a"]); Run (Execcmd [str "b"])].
Proof.
  apply (shell_reads_script [(str "a", Execcmd [str "a"]); (str " b ", Execcmd [str "b"])]).
  assert (∀ (x : Z) (l : list Z), bool_decide (x ∈ l) = false → x ∉ l) as Hn by (intros x l; apply bool_decide_eq_false_1). repeat constructor; cbn [fst snd].
  all: try (unfold MAXARGS; simpl; lia); try (by apply Hn).
  - apply (lays_word [] (str "a") []); [constructor|done|by repeat constructor|done|by apply (lays_nil [])].
  - done.
  - apply (lays_word (str " ") (str "b") (str " ")); [by repeat constructor|done|by repeat constructor|by intros ? [= <-] []|].
    apply lays_nil. by repeat constructor.
  - done.
Defined.
