(* ===== verification/Umalloc.v ===== *)
(** The allocator of user programs (src/umalloc.c): the free blocks are a
    ring of headers in the order of their addresses, through the static
    header [base].

    Memory is a map from addresses to the words that have been written; a
    header is the word [ptr] and, four bytes on, the word [size], which counts
    units of eight bytes, the header included.  The loops have fuel, for which
    the number of free blocks is enough.

    The theorems are about [heap]: the free and the allocated blocks tile what
    [sbrk] has given, free blocks are never adjacent, and [malloc] and [free]
    keep this and the contents of the allocated blocks. *)
From stdpp Require Import sorting.
From S2P Require Import Prelude.

Record ustate := UState { u_mem : gmap Z Z; freep : Z; u_brk : Z }.
Definition set_umem v s := UState v (freep s) (u_brk s).
Definition set_freep v s := UState (u_mem s) v (u_brk s).
Definition set_ubrk v s := UState (u_mem s) (freep s) v.

Definition load (a : Z) : M ustate Z := s ← get; deref (u_mem s !! a).
Definition store (a v : Z) : M ustate unit := modify (λ s, set_umem (<[a := v]> (u_mem s)) s).
(** [p->s.ptr], [p->s.size], and assignments to them. *)
Definition hptr (p : Z) : M ustate Z := load p.
Definition hsize (p : Z) : M ustate Z := load (p + 4).
Definition set_hptr (p v : Z) : M ustate unit := store p v.
Definition set_hsize (p v : Z) : M ustate unit := store (p + 4) v.

Section umalloc.
(** The address of [base], and the largest size of the process. *)
Context (base limit : Z).

(** [sbrk(n)]: the old size, or [(char* )-1]. *)
Definition sbrk (n : Z) : M ustate (option Z) :=
  s ← get;
  if bool_decide (0 < u_brk s + n ≤ limit) then modify (set_ubrk (u_brk s + n));; mret (Some (u_brk s))
  else mret None.

(** The loop of [free]. *)
Fixpoint free_loop (fuel : nat) (bp p : Z) : M ustate Z :=
  match fuel with
  | O => undef
  | S fuel' =>
      nx ← hptr p;
      if bool_decide (p < bp) && bool_decide (bp < nx) then mret p
      else if bool_decide (nx ≤ p) && (bool_decide (p < bp) || bool_decide (bp < nx)) then mret p
      else free_loop fuel' bp nx
  end.
Definition free (fuel : nat) (ap : Z) : M ustate unit :=
  let bp := ap - 8 in
  s ← get;
  p ← free_loop fuel bp (freep s);
  nx ← hptr p;
  bs ← hsize bp;
  (if bool_decide (bp + 8 * bs = nx) then
     ns ← hsize nx; set_hsize bp (u32 (bs + ns));;
     nn ← hptr nx; set_hptr bp nn
   else set_hptr bp nx);;
  ps ← hsize p;
  (if bool_decide (p + 8 * ps = bp) then
     bs ← hsize bp; set_hsize p (u32 (ps + bs));;
     bn ← hptr bp; set_hptr p bn
   else set_hptr p bp);;
  modify (set_freep p).

Definition morecore (fuel : nat) (nu : Z) : M ustate Z :=
  let nu := if bool_decide (nu < 4096) then 4096 else nu in
  o ← sbrk (i32 (nu * 8));
  match o with
  | None => mret 0
  | Some hp =>
      set_hsize hp nu;;
      free fuel (hp + 8);;
      s ← get; mret (freep s)
  end.

(** The loop of [malloc], at the blocks [prevp] and [p]. *)
Fixpoint malloc_loop (ffuel fuel : nat) (nunits prevp p : Z) : M ustate Z :=
  match fuel with
  | O => undef
  | S fuel' =>
      sz ← hsize p;
      if bool_decide (nunits ≤ sz) then
        q ← (if bool_decide (sz = nunits) then nx ← hptr p; set_hptr prevp nx;; mret p
             else set_hsize p (sz - nunits);; let q := p + 8 * (sz - nunits) in set_hsize q nunits;; mret q);
        modify (set_freep prevp);;
        mret (q + 8)
      else
        s ← get;
        if bool_decide (p = freep s) then
          q ← morecore ffuel nunits;
          if bool_decide (q = 0) then mret 0 else nx ← hptr q; malloc_loop ffuel fuel' nunits q nx
        else nx ← hptr p; malloc_loop ffuel fuel' nunits p nx
  end.
Definition malloc_units (nbytes : Z) : Z := u32 (nbytes + 7) / 8 + 1.
Definition malloc (fuel : nat) (nbytes : Z) : M ustate Z :=
  let nunits := malloc_units nbytes in
  s ← get;
  (if bool_decide (freep s = 0) then set_hptr base base;; modify (set_freep base);; set_hsize base 0 else mret tt);;
  s ← get;
  p ← hptr (freep s);
  malloc_loop fuel fuel nunits (freep s) p.

(** * The heap *)

(** A block: its address and its size in units. *)
Abbreviation ublock := (Z * Z)%type.
Definition bend (b : ublock) : Z := b.1 + 8 * b.2.
Definition hd_addr (z : Z) (l : list ublock) : Z := match l with [] => z | b :: _ => b.1 end.
(** The headers of [l] are linked, the last one to [z]. *)
Fixpoint chain (mem : gmap Z Z) (l : list ublock) (z : Z) : Prop :=
  match l with
  | [] => True
  | b :: l' => mem !! b.1 = Some (hd_addr z l') ∧ mem !! (b.1 + 4) = Some b.2 ∧ chain mem l' z
  end.
(** Free blocks in order, with something between them. *)
Definition apart (b b' : ublock) : Prop := bend b < b'.1 ∧ b.1 + 8 ≤ b'.1.
Definition disj (b b' : ublock) : Prop := bend b ≤ b'.1 ∨ bend b' ≤ b.1.
Definition units (l : list ublock) : Z := foldr (λ b n, b.2 + n) 0 l.

Record heap (heap0 : Z) (s : ustate) (F A : list ublock) : Prop := Heap {
  hp_chain : chain (u_mem s) ((base, 0) :: F) base;
  hp_sorted : StronglySorted apart ((base, 0) :: F);
  hp_freep : freep s = base ∨ ∃ f, f ∈ F ∧ freep s = f.1;
  hp_pos b : b ∈ F ++ A → 1 ≤ b.2;
  hp_sizes a : a ∈ A → u_mem s !! (a.1 + 4) = Some a.2;
  hp_disjA : ForallOrdPairs disj A;
  hp_disjFA f a : f ∈ F → a ∈ A → disj f a;
  hp_bounds b : b ∈ F ++ A → heap0 ≤ b.1 ∧ bend b ≤ u_brk s;
  hp_total : heap0 + 8 * units (F ++ A) = u_brk s;
  hp_limit : u_brk s ≤ limit
}.
(** The memory of the blocks of [A], headers included, is the same. *)
Definition kept (A : list ublock) (s s' : ustate) : Prop := ∀ a w, a ∈ A → a.1 ≤ w < bend a → u_mem s' !! w = u_mem s !! w.

(** ** Chains and order *)

Lemma chain_app mem l1 l2 z : chain mem (l1 ++ l2) z ↔ chain mem l1 (hd_addr z l2) ∧ chain mem l2 z.
Proof.
  induction l1 as [|b l1 IH]; simpl; [tauto|]. rewrite IH. assert (hd_addr z (l1 ++ l2) = hd_addr (hd_addr z l2) l1) as -> by (by destruct l1). tauto.
Qed.
(** Words of headers that are not written. *)
Lemma chain_write mem l z w v : (∀ b, b ∈ l → w ≠ b.1 ∧ w ≠ b.1 + 4) → chain mem l z → chain (<[w := v]> mem) l z.
Proof.
  induction l as [|b l IH]; intros Hw H; [done|]. destruct (Hw b) as [H1 H2]; [by constructor|]. destruct H as (Hp & Hs & H).
  simpl. rewrite !lookup_insert_ne by done. split_and!; [done|done|]. apply IH; [|done]. intros b' Hb'. apply Hw. by constructor.
Qed.
Lemma apart_disj b b' : apart b b' → disj b b'.
Proof. unfold apart, disj. lia. Qed.
Lemma disj_sym b b' : disj b b' → disj b' b.
Proof. unfold disj. lia. Qed.

(** A block of the ring and what surrounds it. *)
Lemma sorted_at l1 b l2 :
  StronglySorted apart (l1 ++ b :: l2) → (∀ x, x ∈ l1 → apart x b) ∧ (∀ x, x ∈ l2 → apart b x).
Proof.
  intros (H1 & _ & H2)%StronglySorted_app. apply StronglySorted_cons in H2 as [H2 _]. rewrite Forall_forall in H2. split; [|done].
  intros x Hx. apply H1; [done|by constructor].
Qed.

Lemma load_run s a v : u_mem s !! a = Some v → load a s = Ret v s [].
Proof. intros H. unfold load. rewrite bind_get. by rewrite H. Qed.
Lemma store_run s a v : store a v s = Ret tt (set_umem (<[a := v]> (u_mem s)) s) [].
Proof. done. Qed.

(** ** Finding the place of a freed block *)

(** Blocks below [bp] lead on to the place. *)
Lemma free_below fuel bp l p Q s :
  chain (u_mem s) (l ++ p :: Q) base → StronglySorted apart (l ++ p :: Q) → (∀ x, x ∈ l ++ [p] → x.1 < bp) → (∀ x, x ∈ Q → bp < x.1) → base ≤ p.1 →
  (length l < fuel)%nat → free_loop fuel bp (hd_addr p.1 l) s = Ret p.1 s [].
Proof.
  revert fuel. induction l as [|x l IH]; intros fuel Hc Hs Hl HQ Hb Hf; (destruct fuel as [|fuel]; [simpl in Hf; lia|]); cbn [free_loop app chain hd_addr] in *.
  - destruct Hc as (Hp & _). unfold hptr. mstep (load_run s _ _ Hp). assert (p.1 < bp) as Hlt by (apply Hl; by constructor).
    rewrite (bool_decide_true (p.1 < bp)) by done. destruct Q as [|q Q]; cbn [hd_addr].
    + rewrite (bool_decide_true (base ≤ p.1)) by done. by destruct (bool_decide (bp < base)).
    + rewrite (bool_decide_true (bp < q.1)) by (apply HQ; by constructor). done.
  - destruct Hc as (Hx & _ & Hc). unfold hptr. mstep (load_run s _ _ Hx). destruct (sorted_at [] x (l ++ p :: Q) Hs) as [_ Hap].
    apply StronglySorted_cons in Hs as [_ Hs]. set (nx := hd_addr base (l ++ p :: Q)). assert (nx = hd_addr p.1 l) as -> by (by destruct l).
    assert (∃ y, y ∈ l ++ [p] ∧ hd_addr p.1 l = y.1) as (y & Hy & Ey) by (destruct l as [|y l]; [exists p|exists y]; split; set_solver).
    assert (apart x y) as [_ Hxy] by (apply Hap; set_solver). assert (y.1 < bp) as Hyb by (apply Hl; by right).
    rewrite Ey, (bool_decide_false (bp < y.1)), (bool_decide_false (y.1 ≤ x.1)), andb_false_r by lia. cbn [andb]. rewrite <- Ey.
    apply IH; [done|done| |done|done|simpl in Hf; lia]. intros z Hz. apply Hl. by right.
Qed.
(** Blocks above it lead to [base]. *)
Lemma free_above fuel n bp l s :
  chain (u_mem s) l base → StronglySorted apart l → (∀ x, x ∈ l → bp < x.1) → base < bp →
  (length l ≤ n)%nat → ∃ k, (fuel ≤ k)%nat ∧ free_loop (n + fuel) bp (hd_addr base l) s = free_loop k bp base s.
Proof.
  revert n. induction l as [|x l IH]; intros n Hc Hs Hl Hb Hn; [exists (n + fuel)%nat; split; [lia|done]|]. destruct n as [|n]; [simpl in Hn; lia|].
  cbn [free_loop Nat.add hd_addr chain] in *. destruct Hc as (Hx & _ & Hc). unfold hptr. rewrite (bind_run _ _ _ _ _ _ (load_run s _ _ Hx)), prepend_nil.
  assert (bp < x.1) as Hlt by (apply Hl; by constructor). rewrite (bool_decide_false (x.1 < bp)) by lia. cbn [andb orb].
  destruct (sorted_at [] x l Hs) as [_ Hap]. apply StronglySorted_cons in Hs as [_ Hs].
  assert (bool_decide (hd_addr base l ≤ x.1) && bool_decide (bp < hd_addr base l) = false) as ->.
  { destruct l as [|y l]; simpl; [rewrite (bool_decide_false (bp < base)) by lia; by rewrite andb_false_r|].
    destruct (Hap y) as [_ Hy]; [by constructor|]. by rewrite (bool_decide_false (y.1 ≤ x.1)) by lia. }
  apply IH; [done|done| |done|simpl in Hn; lia]. intros z Hz. apply Hl. by right.
Qed.
Lemma free_place fuel bp P p Q s :
  chain (u_mem s) (P ++ p :: Q) base → StronglySorted apart (P ++ p :: Q) → (∀ x, x ∈ P ++ [p] → x.1 < bp) → (∀ x, x ∈ Q → bp < x.1) →
  hd_addr p.1 P = base → (∃ x, x ∈ P ++ p :: Q ∧ freep s = x.1) → (length (P ++ p :: Q) < fuel)%nat →
  free_loop fuel bp (freep s) s = Ret p.1 s [].
Proof.
  intros Hc Hs HP HQ Hbase (x & Hx & ->) Hf. assert (base ≤ p.1) as Hbp.
  { destruct P as [|y P]; simpl in Hbase; [lia|]. destruct (sorted_at [] y (P ++ p :: Q) Hs) as [_ H]. destruct (H p) as [_ ?]; [set_solver|lia]. }
  assert (base < bp) as Hbb by (specialize (HP p); set_solver by lia).
  assert (∀ k, (length P < k)%nat → free_loop k bp base s = Ret p.1 s []) as Hgo.
  { intros k Hk. rewrite <- Hbase. by apply (free_below k bp P p Q). }
  rewrite length_app in Hf. simpl in Hf. apply elem_of_app in Hx as [Hx|Hx].
  - apply list_elem_of_split in Hx as (l1 & l2 & ->). rewrite <- (assoc_L (++)) in Hc, Hs. apply chain_app in Hc as [_ Hc]. apply StronglySorted_app_1_r in Hs.
    apply (free_below fuel bp (x :: l2) p Q); [done|done| |done|done|rewrite length_app in Hf; simpl in *; lia]. intros z Hz. apply HP. set_solver.
  - apply elem_of_cons in Hx as [->|Hx].
    + apply chain_app in Hc as [_ Hc]. apply StronglySorted_app_1_r in Hs. apply (free_below fuel bp [] p Q); [done|done| |done|done|simpl; lia].
      intros z Hz. apply HP. set_solver.
    + apply list_elem_of_split in Hx as (l1 & l2 & ->). rewrite (app_comm_cons l1), (assoc_L (++)) in Hc, Hs. apply chain_app in Hc as [_ Hc]. apply StronglySorted_app_1_r in Hs.
      rewrite length_app in Hf. simpl in Hf.
      destruct (free_above (S (length P)) (fuel - S (length P)) bp (x :: l2) s) as (k & Hk & E); [done|done| |done|simpl; lia|].
      { intros z Hz. apply HQ. set_solver. }
      replace (fuel - S (length P) + S (length P))%nat with fuel in E by lia. simpl in E. rewrite E. apply Hgo. lia.
Qed.

(** ** Merging *)

Definition join_right (b : ublock) (Q : list ublock) : ublock * list ublock :=
  match Q with
  | q :: Q' => if bool_decide (bend b = q.1) then ((b.1, b.2 + q.2), Q') else (b, Q)
  | [] => (b, Q)
  end.
Definition join_left (p b : ublock) : list ublock := if bool_decide (bend p = b.1) then [(p.1, p.2 + b.2)] else [p; b].

(** What merging keeps: that no block meets [x], and the bounds. *)
Definition clear (x : ublock) (l : list ublock) : Prop := ∀ y, y ∈ l → disj x y.
Definition within (lo hi : Z) (l : list ublock) : Prop := ∀ y, y ∈ l → lo ≤ y.1 ∧ bend y ≤ hi ∧ 1 ≤ y.2.

Lemma join_right_sorted b Q :
  StronglySorted apart Q → 1 ≤ b.2 → (∀ q, q ∈ Q → bend b ≤ q.1 ∧ 1 ≤ q.2) →
  StronglySorted apart ((join_right b Q).1 :: (join_right b Q).2).
Proof.
  intros HQ Hb Hq. destruct Q as [|q Q]; [by repeat constructor|]. destruct (Hq q) as [Hbq Hq1]; [by constructor|]. apply StronglySorted_cons in HQ as [HqQ HQ].
  rewrite Forall_forall in HqQ. unfold bend in Hbq, Hb. cbn [join_right]. case_bool_decide as E; cbn [fst snd]; apply StronglySorted_cons; rewrite Forall_forall; split; try done.
  - intros y Hy. destruct (HqQ y Hy). unfold apart, bend in *. simpl. lia.
  - intros y [->|Hy]%elem_of_cons; unfold apart, bend in *; [lia|]. destruct (HqQ y Hy). lia.
  - apply StronglySorted_cons. by rewrite Forall_forall.
Qed.
Lemma join_right_keeps b Q :
  units ((join_right b Q).1 :: (join_right b Q).2) = units (b :: Q) ∧ (join_right b Q).1.1 = b.1 ∧
  (∀ x, 1 ≤ x.2 → clear x (b :: Q) → clear x ((join_right b Q).1 :: (join_right b Q).2)) ∧
  (∀ lo hi, within lo hi (b :: Q) → within lo hi ((join_right b Q).1 :: (join_right b Q).2)).
Proof.
  destruct Q as [|q Q]; [done|]. cbn [join_right]. case_bool_decide as E; [|done]. cbn [fst snd]. unfold bend in E. split_and!; [simpl; lia|done| |].
  - intros x Hx H y [->|Hy]%elem_of_cons; [|apply H; by do 2 right]. destruct (H b) as [|]; [by constructor| |]; destruct (H q) as [|]; try (right; by constructor); unfold disj, bend in *; simpl; try lia; set_solver.
  - intros lo hi H y [->|Hy]%elem_of_cons; [|apply H; by do 2 right]. destruct (H b) as (? & ? & ?); [by constructor|]. destruct (H q) as (? & ? & ?); [by right; constructor|].
    unfold bend in *. simpl. lia.
Qed.
Lemma join_left_keeps p b l :
  units (join_left p b ++ l) = units (p :: b :: l) ∧
  (∀ x, 1 ≤ x.2 → clear x (p :: b :: l) → clear x (join_left p b ++ l)) ∧
  (∀ lo hi, within lo hi (p :: b :: l) → within lo hi (join_left p b ++ l)).
Proof.
  unfold join_left. case_bool_decide as E; [|done]. cbn [app]. unfold bend in E. split_and!; [simpl; lia| |].
  - intros x Hx H y [->|Hy]%elem_of_cons; [|apply H; by do 2 right]. pose proof (H p ltac:(set_solver)). pose proof (H b ltac:(set_solver)). unfold disj, bend in *. simpl. lia.
  - intros lo hi H y [->|Hy]%elem_of_cons; [|apply H; by do 2 right]. pose proof (H p ltac:(set_solver)). pose proof (H b ltac:(set_solver)). unfold bend in *. simpl. lia.
Qed.
Lemma join_left_sorted P p b l :
  StronglySorted apart (P ++ [p]) → StronglySorted apart (b :: l) → bend p ≤ b.1 → p.1 + 8 ≤ b.1 → 0 ≤ p.2 → 1 ≤ b.2 →
  StronglySorted apart (P ++ join_left p b ++ l).
Proof.
  intros (HP & HP1 & _)%StronglySorted_app [Hbl Hl]%StronglySorted_cons Hpb Hp8 Hp0 Hb0. rewrite Forall_forall in Hbl.
  assert (∀ x, x ∈ P → apart x p) as HPp by (intros x Hx; apply HP; [done|by constructor]). apply StronglySorted_app.
  assert (∀ y, y ∈ join_left p b ++ l → p.1 ≤ y.1) as Hge.
  { intros y. unfold join_left. case_bool_decide; cbn [app]; rewrite !elem_of_cons; [intros [->|Hy]|intros [->|[->|Hy]]]; simpl; try lia; destruct (Hbl y Hy); lia. }
  split_and!; [|done|].
  - intros x y Hx Hy. specialize (Hge y Hy). destruct (HPp x Hx). unfold apart in *. lia.
  - unfold join_left. case_bool_decide as E; cbn [app].
    + apply StronglySorted_cons. split; [|done]. apply Forall_forall. intros y Hy. destruct (Hbl y Hy). unfold apart, bend in *. simpl. lia.
    + apply StronglySorted_cons. split; [|apply StronglySorted_cons; by rewrite Forall_forall]. apply Forall_forall.
      intros y [->|Hy]%elem_of_cons; [unfold apart; lia|]. destruct (Hbl y Hy). unfold apart, bend in *. lia.
Qed.

(** Step one of [free]: merging with the next block. *)
Definition free_right (bp nx bs : Z) : M ustate unit :=
  if bool_decide (bp + 8 * bs = nx) then
    ns ← hsize nx; set_hsize bp (u32 (bs + ns));;
    nn ← hptr nx; set_hptr bp nn
  else set_hptr bp nx.
Lemma free_right_run s b Q hi :
  chain (u_mem s) Q base → u_mem s !! (b.1 + 4) = Some b.2 → base < b.1 → within 0 hi (b :: Q) → hi ≤ 4294967296 →
  (∀ q, q ∈ Q → bend b ≤ q.1) → StronglySorted apart Q →
  ∃ mem', free_right b.1 (hd_addr base Q) b.2 s = Ret tt (set_umem mem' s) [] ∧ chain mem' ((join_right b Q).1 :: (join_right b Q).2) base ∧
    (∀ w, w ≠ b.1 → w ≠ b.1 + 4 → mem' !! w = u_mem s !! w).
Proof.
  intros Hc Hb Hbase Hw Hhi HQ Hs. assert (1 ≤ b.2) as Hb1 by (apply Hw; by constructor). unfold free_right.
  assert (∀ q, q ∈ Q → b.1 ≠ q.1 ∧ b.1 ≠ q.1 + 4 ∧ b.1 + 4 ≠ q.1 ∧ b.1 + 4 ≠ q.1 + 4) as Hne by (intros q Hq; specialize (HQ q Hq); unfold bend in HQ; lia).
  destruct Q as [|q Q]; cbn [hd_addr join_right].
  - rewrite bool_decide_false by (unfold bend in *; lia). cbn [fst snd]. eexists. split_and!; [done| |intros w ? ?; by rewrite lookup_insert_ne].
    cbn [chain hd_addr]. rewrite lookup_insert_eq, lookup_insert_ne by lia. done.
  - fold (bend b). destruct Hc as (Hq & Hqs & Hc). destruct (Hw b) as (? & ? & _); [by constructor|]. destruct (Hw q) as (? & ? & ?); [by right; constructor|].
    assert (∀ x, x ∈ Q → x.1 ≠ b.1 ∧ b.1 + 4 ≠ x.1 ∧ b.1 ≠ x.1 + 4) as HneQ by (intros x Hx; specialize (Hne x ltac:(by right)); lia).
    case_bool_decide as E.
    + unfold hsize, set_hsize, hptr, set_hptr. mstep (load_run s _ _ Hqs). mstep (store_run s (b.1 + 4) (u32 (b.2 + q.2))). set (s1 := set_umem _ s).
      assert (u_mem s1 !! q.1 = Some (hd_addr base Q)) as Hq1 by (unfold s1; simpl; rewrite lookup_insert_ne by (apply Hne; by constructor); done).
      mstep (load_run s1 _ _ Hq1). rewrite store_run. eexists. split_and!; [done| |].
      * cbn [fst snd chain]. rewrite lookup_insert_eq, lookup_insert_ne by lia. unfold s1. cbn [u_mem set_umem]. rewrite lookup_insert_eq, u32_small by (unfold bend in *; lia).
        split_and!; [done|done|]. apply chain_write; [intros x Hx; specialize (HneQ x Hx); lia|]. apply chain_write; [intros x Hx; specialize (Hne x ltac:(by right)); lia|done].
      * intros w ? ?. unfold s1. cbn [u_mem set_umem]. by rewrite !lookup_insert_ne.
    + eexists. split_and!; [done| |intros w ? ?; by rewrite lookup_insert_ne].
      cbn [fst snd]. cbn [chain hd_addr]. rewrite lookup_insert_eq, lookup_insert_ne by lia. split_and!; [done|done| | |].
      * rewrite lookup_insert_ne; [done|apply Hne; by constructor].
      * rewrite lookup_insert_ne; [done|apply Hne; by constructor].
      * apply chain_write; [intros x Hx; specialize (Hne x ltac:(by right)); lia|done].
Qed.

(** Step two: with the block before. *)
Definition free_left (p bp ps : Z) : M ustate unit :=
  if bool_decide (p + 8 * ps = bp) then
    bs ← hsize bp; set_hsize p (u32 (ps + bs));;
    bn ← hptr bp; set_hptr p bn
  else set_hptr p bp.
Lemma free_left_run s P p b Q hi z :
  chain (u_mem s) (P ++ [p]) z → chain (u_mem s) (b :: Q) base → StronglySorted apart (P ++ [p]) → StronglySorted apart (b :: Q) →
  bend p ≤ b.1 → p.1 + 8 ≤ b.1 → 0 ≤ p.1 → 0 ≤ p.2 → 1 ≤ b.2 → bend b ≤ hi → hi ≤ 4294967296 →
  ∃ mem', free_left p.1 b.1 p.2 s = Ret tt (set_umem mem' s) [] ∧ chain mem' (P ++ join_left p b ++ Q) base ∧
    (∀ w, w ≠ p.1 → w ≠ p.1 + 4 → mem' !! w = u_mem s !! w).
Proof.
  intros [HcP Hcp]%chain_app Hcb HsP HsQ Hpb Hp8 Hp0 Hps Hb1 Hbhi Hhi. destruct Hcp as (Hp & Hpsz & _). destruct Hcb as (Hb & Hbsz & HcQ).
  destruct (sorted_at P p [] HsP) as [HPp _]. destruct (sorted_at [] b Q HsQ) as [_ HbQ]. unfold free_left. fold (bend p).
  assert (∀ x, x ∈ P → p.1 ≠ x.1 ∧ p.1 ≠ x.1 + 4 ∧ p.1 + 4 ≠ x.1 ∧ p.1 + 4 ≠ x.1 + 4) as HnP by (intros x Hx; destruct (HPp x Hx); lia).
  assert (∀ x, x ∈ Q → p.1 ≠ x.1 ∧ p.1 ≠ x.1 + 4 ∧ p.1 + 4 ≠ x.1 ∧ p.1 + 4 ≠ x.1 + 4) as HnQ by (intros x Hx; destruct (HbQ x Hx); lia).
  unfold join_left. case_bool_decide as E.
  - unfold hsize, set_hsize, hptr, set_hptr. mstep (load_run s _ _ Hbsz). mstep (store_run s (p.1 + 4) (u32 (p.2 + b.2))). set (s1 := set_umem _ s).
    assert (u_mem s1 !! b.1 = Some (hd_addr base Q)) as Hb' by (unfold s1; simpl; rewrite lookup_insert_ne by lia; done).
    mstep (load_run s1 _ _ Hb'). rewrite store_run. unfold s1. cbn [u_mem set_umem]. eexists. split_and!; [done| |intros w ? ?; by rewrite !lookup_insert_ne].
    apply chain_app. split; [|cbn [app chain fst snd hd_addr]; split_and!].
    + cbn [app hd_addr fst]. do 2 (apply chain_write; [intros x Hx; specialize (HnP x Hx); lia|]). exact HcP.
    + apply lookup_insert_eq.
    + rewrite lookup_insert_ne, lookup_insert_eq, u32_small by (unfold bend in *; lia). done.
    + do 2 (apply chain_write; [intros x Hx; specialize (HnQ x Hx); lia|]). done.
  - eexists. split_and!; [done| |intros w ? ?; by rewrite lookup_insert_ne]. apply chain_app. split; [|cbn [app chain fst snd hd_addr]; split_and!].
    + cbn [app hd_addr fst]. apply chain_write; [intros x Hx; specialize (HnP x Hx); lia|]. exact HcP.
    + apply lookup_insert_eq.
    + by rewrite lookup_insert_ne by lia.
    + by rewrite lookup_insert_ne by lia.
    + by rewrite lookup_insert_ne by lia.
    + apply chain_write; [intros x Hx; specialize (HnQ x Hx); lia|done].
Qed.

(** ** Freeing a block *)

Lemma free_unfold fuel b s p nx (mem1 mem2 : gmap Z Z) :
  free_loop fuel b.1 (freep s) s = Ret p.1 s [] → u_mem s !! p.1 = Some nx → u_mem s !! (b.1 + 4) = Some b.2 →
  free_right b.1 nx b.2 s = Ret tt (set_umem mem1 s) [] → mem1 !! (p.1 + 4) = Some p.2 →
  free_left p.1 b.1 p.2 (set_umem mem1 s) = Ret tt (set_umem mem2 (set_umem mem1 s)) [] →
  free fuel (b.1 + 8) s = Ret tt (set_freep p.1 (set_umem mem2 s)) [].
Proof.
  intros Hp Hnx Hb R1 Hps R2. unfold free. cbn zeta. replace (b.1 + 8 - 8) with b.1 by lia. rewrite bind_get.
  mstep Hp. unfold hptr at 1, hsize at 1. mstep (load_run s _ _ Hnx). mstep (load_run s _ _ Hb).
  fold (free_right b.1 nx b.2). mstep R1. unfold hsize at 1. mstep (load_run (set_umem mem1 s) _ _ Hps). fold (free_left p.1 b.1 p.2). mstep R2. done.
Qed.

Lemma sorted_split (l : list ublock) bp :
  StronglySorted apart l → (∀ x, x ∈ l → x.1 ≠ bp) → ∃ l1 l2, l = l1 ++ l2 ∧ (∀ x, x ∈ l1 → x.1 < bp) ∧ (∀ x, x ∈ l2 → bp < x.1).
Proof.
  induction l as [|x l IH]; intros Hs Hne; [exists [], []; set_solver|]. pose proof Hs as [Hx Hs']%StronglySorted_cons. rewrite Forall_forall in Hx.
  destruct (decide (x.1 < bp)) as [Hlt|Hge].
  - destruct (IH Hs') as (l1 & l2 & -> & H1 & H2); [intros y Hy; apply Hne; by right|]. exists (x :: l1), l2. split_and!; [done| |done].
    intros y [->|Hy]%elem_of_cons; [done|by apply H1].
  - exists [], (x :: l). split_and!; [done|set_solver|]. specialize (Hne x ltac:(by constructor)). intros y [->|Hy]%elem_of_cons; [lia|]. destruct (Hx y Hy). lia.
Qed.

Context (heap0 : Z) (Hbase : 0 < base) (Hheap0 : base + 8 ≤ heap0) (Hlimit : limit ≤ 2147483648).

Lemma units_app l1 l2 : units (l1 ++ l2) = units l1 + units l2.
Proof. induction l1 as [|b l1 IH]; simpl; [lia|]. rewrite IH. lia. Qed.

(** The place of a block among the free ones. *)
Lemma heap_place s F b A :
  heap heap0 s F (b :: A) →
  ∃ P p Q, (base, 0) :: F = P ++ p :: Q ∧ hd_addr p.1 P = base ∧ (∀ x, x ∈ P ++ [p] → x.1 < b.1) ∧ bend p ≤ b.1 ∧ p.1 + 8 ≤ b.1 ∧ base ≤ p.1 ∧
    0 ≤ p.2 ∧ (∀ q, q ∈ Q → b.1 < q.1 ∧ bend b ≤ q.1 ∧ q ∈ F) ∧ (P = [] → p = (base, 0)) ∧ (P ≠ [] → ∃ P', P = (base, 0) :: P' ∧ F = P' ++ p :: Q).
Proof.
  intros H. assert (1 ≤ b.2) as Hb1 by (apply (hp_pos _ _ _ _ H); set_solver). assert (heap0 ≤ b.1) as Hb0 by (apply (hp_bounds _ _ _ _ H b); set_solver).
  assert (∀ f, f ∈ F → disj f b ∧ 1 ≤ f.2 ∧ heap0 ≤ f.1) as HF.
  { intros f Hf. split_and!; [apply (hp_disjFA _ _ _ _ H); set_solver|apply (hp_pos _ _ _ _ H); set_solver|apply (hp_bounds _ _ _ _ H f); set_solver]. }
  pose proof (hp_sorted _ _ _ _ H) as [_ Hs]%StronglySorted_cons.
  destruct (sorted_split F b.1 Hs) as (l1 & l2 & -> & H1 & H2). { intros x Hx. destruct (HF x Hx) as ([Hd|Hd] & ? & ?); unfold bend in Hd; lia. }
  assert (∀ q, q ∈ l2 → b.1 < q.1 ∧ bend b ≤ q.1 ∧ q ∈ l1 ++ l2) as HQ.
  { intros q Hq. specialize (H2 q Hq). destruct (HF q) as ([Hd|Hd] & ? & ?); [set_solver| |]; unfold bend in *; split_and!; try lia; set_solver. }
  destruct l1 as [|p P _] using rev_ind.
  - exists [], (base, 0), l2. split_and!; [done|done| |unfold bend; simpl; lia|simpl; lia|simpl; lia|simpl; lia|done|done|done].
    intros x ->%list_elem_of_singleton. simpl. lia.
  - assert (p.1 < b.1) as Hp by (apply H1; set_solver). destruct (HF p) as ([Hd|Hd] & ? & ?); [set_solver| |unfold bend in Hd; lia].
    exists ((base, 0) :: P), p, l2. split_and!; [by rewrite <- (assoc_L (++))|done| |done|unfold bend in Hd; lia|lia|lia|done|done|].
    + intros x [->|Hx]%elem_of_cons; [simpl; lia|by apply H1].
    + intros _. exists P. by rewrite <- (assoc_L (++)).
Qed.

Lemma chain_agree mem mem' l z :
  (∀ x, x ∈ l → mem' !! x.1 = mem !! x.1 ∧ mem' !! (x.1 + 4) = mem !! (x.1 + 4)) → chain mem l z → chain mem' l z.
Proof.
  induction l as [|x l IH]; intros Hx H; [done|]. destruct (Hx x) as [E1 E2]; [by constructor|]. simpl. rewrite E1, E2. destruct H as (? & ? & H).
  split_and!; [done|done|]. apply IH; [|done]. intros y Hy. apply Hx. by right.
Qed.

(** The free blocks after a merge. *)
Definition merge_ok (b : ublock) (F F' : list ublock) : Prop :=
  units F' = units F + b.2 ∧ (∀ x, 1 ≤ x.2 → clear x (b :: F) → clear x F') ∧ (∀ lo hi, within lo hi (b :: F) → within lo hi F') ∧
  (length F' ≤ S (length F))%nat ∧ ∃ f, f ∈ F' ∧ b.2 ≤ f.2.

Lemma merge_head b Q : (∀ q, q ∈ Q → 1 ≤ q.2) → merge_ok b Q ((join_right b Q).1 :: (join_right b Q).2).
Proof.
  intros Hq. destruct (join_right_keeps b Q) as (Hu & _ & Hc & Hw). split_and!; [rewrite Hu; simpl; lia|done|done| |].
  - destruct Q as [|q Q]; simpl; [lia|]. case_bool_decide; simpl; lia.
  - exists (join_right b Q).1. split; [by constructor|]. destruct Q as [|q Q]; simpl; [lia|]. specialize (Hq q ltac:(by constructor)). case_bool_decide; simpl; lia.
Qed.
Lemma merge_middle b P p Q :
  (∀ q, q ∈ Q → 1 ≤ q.2) → 1 ≤ p.2 → merge_ok b (P ++ p :: Q) (P ++ join_left p (join_right b Q).1 ++ (join_right b Q).2).
Proof.
  intros Hq Hp. destruct (merge_head b Q Hq) as (Hu & Hc & Hw & Hl & f & Hf & Hbf). set (b' := (join_right b Q).1) in *. set (Q' := (join_right b Q).2) in *.
  destruct (join_left_keeps p b' Q') as (Hu2 & Hc2 & Hw2). split_and!.
  - rewrite units_app, Hu2, units_app. simpl in *. lia.
  - intros x Hx H y [Hy|Hy]%elem_of_app; [apply H; set_solver|]. apply (Hc2 x Hx); [|done].
    intros z [->|Hz]%elem_of_cons; [apply H; set_solver|]. apply (Hc x Hx); [|done]. intros u Hu'. apply H. set_solver.
  - intros lo hi H y [Hy|Hy]%elem_of_app; [apply H; set_solver|]. apply (Hw2 lo hi); [|done].
    intros z [->|Hz]%elem_of_cons; [apply H; set_solver|]. apply (Hw lo hi); [|done]. intros u Hu'. apply H. set_solver.
  - rewrite !length_app. simpl in *. unfold join_left. case_bool_decide; simpl; lia.
  - unfold join_left. case_bool_decide; [|exists f; split; [set_solver|done]]. apply elem_of_cons in Hf as [->|Hf]; [|exists f; split; [set_solver|done]].
    exists (p.1, p.2 + b'.2). split; [set_solver|simpl; lia].
Qed.

Lemma free_merges fuel s F b A :
  heap heap0 s F (b :: A) → (S (length F) < fuel)%nat →
  ∃ F' p mem', free fuel (b.1 + 8) s = Ret tt (set_freep p (set_umem mem' s)) [] ∧ merge_ok b F F' ∧
    chain mem' ((base, 0) :: F') base ∧ StronglySorted apart ((base, 0) :: F') ∧ (p = base ∨ ∃ f, f ∈ F' ∧ p = f.1) ∧
    (∀ w, w ≠ b.1 → w ≠ b.1 + 4 → (∀ f, f ∈ F → w ≠ f.1 ∧ w ≠ f.1 + 4) → w ≠ base → w ≠ base + 4 → mem' !! w = u_mem s !! w).
Proof.
  intros H Hf. destruct (heap_place s F b A H) as (P & p & Q & EB & HPb & HP & Hpb & Hp8 & Hpbase & Hp0 & HQ & HP0 & HP1).
  pose proof (hp_chain _ _ _ _ H) as Hc. pose proof (hp_sorted _ _ _ _ H) as Hs. rewrite EB in Hc, Hs.
  assert (∀ f, f ∈ b :: F → heap0 ≤ f.1 ∧ bend f ≤ u_brk s ∧ 1 ≤ f.2) as HF.
  { intros f Hff. split_and!; [apply (hp_bounds _ _ _ _ H f)|apply (hp_bounds _ _ _ _ H f)|apply (hp_pos _ _ _ _ H)]; set_solver. }
  destruct (HF b ltac:(by constructor)) as (Hb0 & Hbhi & Hb1). pose proof (hp_limit _ _ _ _ H) as Hlim. pose proof (hp_sizes _ _ _ _ H b ltac:(by constructor)) as Hbs.
  pose proof Hc as [HcP (Hpn & Hpsz & HcQ)]%chain_app.
  assert (StronglySorted apart (P ++ [p]) ∧ StronglySorted apart Q) as [HsP HsQ].
  { rewrite cons_middle, (assoc_L (++)) in Hs. split; [by eapply StronglySorted_app_1_l|by eapply StronglySorted_app_1_r]. }
  assert (free_loop fuel b.1 (freep s) s = Ret p.1 s []) as R0.
  { apply (free_place fuel b.1 P p Q); try done; [intros x Hx; by apply HQ| |apply (f_equal length) in EB; simpl in EB; lia].
    rewrite <- EB. destruct (hp_freep _ _ _ _ H) as [E|(f & Hff & E)]; [exists (base, 0)|exists f]; split; set_solver. }
  assert (within 0 (u_brk s) (b :: Q)) as HwQ. { intros y Hy. destruct (HF y) as (? & ? & ?); [set_solver|]. split_and!; lia. }
  destruct (free_right_run s b Q (u_brk s)) as (mem1 & R1 & Hc1 & Hm1); [done|done|lia|done|lia|intros q Hq; apply HQ, Hq|done|].
  destruct (join_right_keeps b Q) as (_ & Eb' & _ & Hw'). set (b' := (join_right b Q).1) in *. set (Q' := (join_right b Q).2) in *.
  assert (StronglySorted apart (b' :: Q')) as Hs'. { apply join_right_sorted; [done|done|]. intros q Hq. split; [apply HQ, Hq|apply HwQ; by right]. }
  destruct (Hw' _ _ HwQ b') as (_ & Hb'hi & Hb'1); [by constructor|].
  assert (∀ x, x ∈ P ++ [p] → mem1 !! x.1 = u_mem s !! x.1 ∧ mem1 !! (x.1 + 4) = u_mem s !! (x.1 + 4)) as Hagree.
  { intros x Hx. assert (x.1 + 8 ≤ b.1) as Hx8.
    { apply elem_of_app in Hx as [Hx| ->%list_elem_of_singleton]; [|done]. destruct (sorted_at P p [] HsP) as [Hap _]. destruct (Hap x Hx). lia. }
    split; apply Hm1; lia. }
  destruct (free_left_run (set_umem mem1 s) P p b' Q' (u_brk s) (hd_addr base Q)) as (mem2 & R2 & Hc2 & Hm2); try done; try lia.
  { apply (chain_agree (u_mem s)); [done|]. apply chain_app. split; [done|]. by split_and!. }
  assert (∃ F', P ++ join_left p b' ++ Q' = (base, 0) :: F' ∧ merge_ok b F F') as (F' & EB' & Hok).
  { destruct P as [|x P].
    - rewrite (HP0 eq_refl) in *. injection EB as <-. exists (b' :: Q'). unfold join_left. rewrite bool_decide_false by (unfold bend; simpl; lia).
      split; [done|]. apply merge_head. intros q Hq. apply HwQ. by right.
    - destruct HP1 as (P' & [= -> ->] & EF); [done|]. exists (P' ++ join_left p b' ++ Q'). split; [done|]. rewrite EF. apply merge_middle; [intros q Hq; apply HwQ; by right|].
      apply (HF p). rewrite EF. set_solver. }
  exists F', p.1, mem2. split_and!; [|done|by rewrite <- EB'| | |].
  - apply (free_unfold fuel b s p (hd_addr base Q) mem1 mem2); [done|done|done|done|by rewrite (proj2 (Hagree p ltac:(set_solver)))|by rewrite <- Eb'].
  - rewrite <- EB'. apply join_left_sorted; try done; lia.
  - assert (∃ y, y ∈ (base, 0) :: F' ∧ p.1 = y.1) as (y & [->|Hy]%elem_of_cons & E); [|by left|right; by exists y].
    rewrite <- EB'. unfold join_left. case_bool_decide; [exists (p.1, p.2 + b'.2)|exists p]; split; set_solver.
  - intros w Hw1 Hw2 HwF Hwb Hwb4. assert (w ≠ p.1 ∧ w ≠ p.1 + 4) as [? ?].
    { assert (p ∈ (base, 0) :: F) as [->|Hp]%elem_of_cons by (rewrite EB; set_solver); [done|by apply HwF]. }
    rewrite Hm2 by done. by apply Hm1.
Qed.

(** [free] keeps the heap. *)
Lemma free_heap fuel s F b A :
  heap heap0 s F (b :: A) → (S (length F) < fuel)%nat →
  ∃ F' s', free fuel (b.1 + 8) s = Ret tt s' [] ∧ heap heap0 s' F' A ∧ kept A s s' ∧ u_brk s' = u_brk s ∧ (length F' ≤ S (length F))%nat ∧ ∃ f, f ∈ F' ∧ b.2 ≤ f.2.
Proof.
  intros H Hf. destruct (free_merges fuel s F b A H Hf) as (F' & p & mem' & R & (Hu & Hc & Hw & Hl & Hbig) & Hch & Hso & Hp & Hm). exists F', (set_freep p (set_umem mem' s)).
  pose proof (hp_disjA _ _ _ _ H) as HA. inversion HA as [|? ? HbA HA']; subst. rewrite Forall_forall in HbA.
  assert (∀ x, x ∈ F ++ b :: A → heap0 ≤ x.1 ∧ bend x ≤ u_brk s ∧ 1 ≤ x.2) as Hall.
  { intros x Hx. split_and!; [by apply (hp_bounds _ _ _ _ H x)|by apply (hp_bounds _ _ _ _ H x)|by apply (hp_pos _ _ _ _ H)]. }
  assert (within heap0 (u_brk s) F') as HwF' by (apply Hw; intros x Hx; apply Hall; set_solver).
  assert (kept A s (set_freep p (set_umem mem' s))) as Hk.
  { intros a w Ha Hw'. destruct (Hall a) as (? & ? & ?); [set_solver|]. destruct (Hall b) as (? & ? & ?); [set_solver|].
    assert (∀ y, disj y a → 1 ≤ y.2 → w ≠ y.1 ∧ w ≠ y.1 + 4) as Hy by (unfold disj, bend in *; lia).
    destruct (Hy b) as [? ?]; [by apply HbA|done|]. apply Hm; [done|done| |lia|lia]. intros f Hff. apply Hy; [apply (hp_disjFA _ _ _ _ H); set_solver|apply Hall; set_solver]. }
  split_and!; try done. split; try done.
  - intros x [Hx|Hx]%elem_of_app; [by apply HwF'|apply Hall; set_solver].
  - intros a Ha. rewrite (Hk a (a.1 + 4) Ha); [apply (hp_sizes _ _ _ _ H); by right|]. destruct (Hall a) as (? & ? & ?); [set_solver|]. unfold bend. lia.
  - intros f a Hff Ha. apply disj_sym. apply (Hc a); [apply Hall; set_solver| |done].
    intros y [->|Hy]%elem_of_cons; [apply disj_sym; by apply HbA|apply disj_sym, (hp_disjFA _ _ _ _ H); set_solver].
  - intros x [Hx|Hx]%elem_of_app; [destruct (HwF' x Hx) as (? & ? & _); done|]. destruct (Hall x) as (? & ? & _); [set_solver|done].
  - pose proof (hp_total _ _ _ _ H) as Ht. rewrite units_app in Ht |- *. simpl in *. lia.
  - apply (hp_limit _ _ _ _ H).
Qed.

(** ** Taking a block *)

(** The end of [malloc], at a block that is large enough. *)
Definition take_block (nunits prevp p sz : Z) : M ustate Z :=
  q ← (if bool_decide (sz = nunits) then nx ← hptr p; set_hptr prevp nx;; mret p
       else set_hsize p (sz - nunits);; let q := p + 8 * (sz - nunits) in set_hsize q nunits;; mret q);
  modify (set_freep prevp);;
  mret (q + 8).

(** The block before [b] in the ring is the block before it in the order. *)
Lemma ring_before s F A x b :
  heap heap0 s F A → x ∈ (base, 0) :: F → b ∈ F → u_mem s !! x.1 = Some b.1 → ∃ P Q, (base, 0) :: F = P ++ x :: b :: Q.
Proof.
  intros H Hx Hb Hn. pose proof (hp_chain _ _ _ _ H) as Hc. apply list_elem_of_split in Hx as (P & Q & EB). rewrite EB in Hc. apply chain_app in Hc as [_ (Hxn & _)].
  rewrite Hn in Hxn. injection Hxn as Hxn. pose proof (hp_bounds _ _ _ _ H b ltac:(set_solver)) as [Hb0 _]. destruct Q as [|b' Q]; simpl in Hxn; [lia|]. exists P, Q.
  enough (b' = b) as -> by done. pose proof (hp_sorted _ _ _ _ H) as Hs. apply list_elem_of_split in Hb as (l1 & l2 & EF).
  assert (b' ∈ l1 ++ b :: l2) as Hb'.
  { rewrite <- EF. assert (b' ∈ (base, 0) :: F) as [->|]%elem_of_cons by (rewrite EB; set_solver); [simpl in Hxn; lia|done]. }
  rewrite EF in Hs. apply StronglySorted_cons in Hs as [_ Hs]. destruct (sorted_at l1 b l2 Hs) as [H1 H2].
  apply elem_of_app in Hb' as [Hb'|[->|Hb']%elem_of_cons]; [destruct (H1 b' Hb'); lia|done|destruct (H2 b' Hb'); lia].
Qed.

(** A part of a free block keeps clear of what the block kept clear of. *)
Lemma disj_part b c x : b.1 ≤ c.1 → bend c ≤ bend b → disj x b → disj x c.
Proof. unfold disj. lia. Qed.

(** A part [c] of a free block is taken. *)
Lemma heap_take s F A F' c x mem' :
  heap heap0 s F A → chain mem' ((base, 0) :: F') base → StronglySorted apart ((base, 0) :: F') → x ∈ (base, 0) :: F' →
  1 ≤ c.2 → mem' !! (c.1 + 4) = Some c.2 → (∃ f, f ∈ F ∧ f.1 ≤ c.1 ∧ bend c ≤ bend f) →
  (∀ y, y ∈ F' → disj y c ∧ 1 ≤ y.2 ∧ ∃ f, f ∈ F ∧ f.1 ≤ y.1 ∧ bend y ≤ bend f) → units F' + c.2 = units F →
  (∀ w, (∀ f, f ∈ (base, 1) :: F → ¬ f.1 ≤ w < bend f) → mem' !! w = u_mem s !! w) →
  heap heap0 (set_freep x.1 (set_umem mem' s)) F' (c :: A) ∧ kept A s (set_freep x.1 (set_umem mem' s)).
Proof.
  intros H Hch Hso Hx Hc1 Hcs (fc & Hfc & Hfc1 & Hfc2) HF' Hu Hm.
  assert (∀ x, x ∈ F ++ A → heap0 ≤ x.1 ∧ bend x ≤ u_brk s ∧ 1 ≤ x.2) as Hall.
  { intros y Hy. split_and!; [by apply (hp_bounds _ _ _ _ H y)|by apply (hp_bounds _ _ _ _ H y)|by apply (hp_pos _ _ _ _ H)]. }
  assert (kept A s (set_freep x.1 (set_umem mem' s))) as Hk.
  { intros a w Ha Hw. apply Hm. intros f [->|Hf]%elem_of_cons.
    - destruct (Hall a) as (? & ? & ?); [set_solver|]. unfold bend in *. simpl. lia.
    - pose proof (hp_disjFA _ _ _ _ H f a Hf Ha) as Hd. unfold disj in Hd. lia. }
  assert (∀ a, a ∈ A → disj c a) as HcA. { intros a Ha. apply disj_sym, (disj_part fc); [done|done|]. apply disj_sym, (hp_disjFA _ _ _ _ H); done. }
  split; [|done]. split; try done.
  - destruct (elem_of_cons F' x (base, 0)) as [[->|Hx'] _]; [done|by left|right; by exists x].
  - intros y. rewrite elem_of_app, elem_of_cons. intros [Hy|[->|Hy]]; [by apply HF'|done|apply Hall; set_solver].
  - intros y [->|Hy]%elem_of_cons; [done|]. rewrite (Hk y (y.1 + 4) Hy); [by apply (hp_sizes _ _ _ _ H)|]. destruct (Hall y) as (? & ? & ?); [set_solver|]. unfold bend. lia.
  - constructor; [by apply Forall_forall|apply (hp_disjA _ _ _ _ H)].
  - intros y a Hy [->|Ha]%elem_of_cons; [by apply HF'|]. destruct (HF' y Hy) as (_ & _ & f & Hf & Hf1 & Hf2).
    apply disj_sym, (disj_part f); [done|done|]. apply disj_sym, (hp_disjFA _ _ _ _ H); done.
  - intros y. rewrite elem_of_app, elem_of_cons. cbn [u_brk set_freep set_umem]. intros [Hy|[->|Hy]].
    + destruct (HF' y Hy) as (_ & _ & f & Hf & Hf1 & Hf2). destruct (Hall f) as (? & ? & ?); [set_solver|]. lia.
    + destruct (Hall fc) as (? & ? & ?); [set_solver|]. lia.
    + apply (hp_bounds _ _ _ _ H). set_solver.
  - pose proof (hp_total _ _ _ _ H) as Ht. rewrite units_app in Ht |- *. simpl in *. lia.
  - apply (hp_limit _ _ _ _ H).
Qed.

Lemma take_exact s F A x b P F1 Q :
  heap heap0 s F A → F = F1 ++ b :: Q → P ++ [x] = (base, 0) :: F1 →
  ∃ s', take_block b.2 x.1 b.1 b.2 s = Ret (b.1 + 8) s' [] ∧ heap heap0 s' (F1 ++ Q) (b :: A) ∧ kept A s s'.
Proof.
  intros H EF EP. pose proof (hp_chain _ _ _ _ H) as Hc. pose proof (hp_sorted _ _ _ _ H) as Hs. rewrite EF, app_comm_cons, <- EP in Hc, Hs.
  pose proof Hc as [[HcP (_ & Hxs & _)]%chain_app (Hbn & Hbs & HcQ)]%chain_app. destruct (sorted_at _ _ _ Hs) as [HPb HbQ].
  assert (StronglySorted apart ((P ++ [x]) ++ Q)) as Hs'. { apply StronglySorted_app in Hs as (H1 & H2 & [_ H3]%StronglySorted_cons). apply StronglySorted_app. split_and!; [|done|done]. intros; apply H1; set_solver. }
  pose proof Hs' as Hs2. rewrite <- (assoc_L (++)) in Hs2. destruct (sorted_at P x Q Hs2) as [HPx HxQ].
  exists (set_freep x.1 (set_umem (<[x.1 := hd_addr base Q]> (u_mem s)) s)). split.
  { unfold take_block. rewrite bool_decide_true by done. rewrite (bind_run _ _ s b.1 (set_umem (<[x.1 := hd_addr base Q]> (u_mem s)) s) []); [done|].
    unfold hptr, set_hptr. mstep (load_run s _ _ Hbn). done. }
  assert (x ∈ (base, 0) :: F1) as Hx by (rewrite <- EP; set_solver). assert (1 ≤ b.2) as Hb1 by (apply (hp_pos _ _ _ _ H); set_solver).
  apply (heap_take s F A (F1 ++ Q) b x); [done| | | |done| | | | |].
  - rewrite app_comm_cons, <- EP, <- (assoc_L (++)). apply chain_app. split; [|cbn [app chain]; split_and!].
    + apply chain_write; [intros y Hy; destruct (HPx y Hy); lia|done].
    + apply lookup_insert_eq.
    + rewrite lookup_insert_ne by lia. done.
    + apply chain_write; [intros y Hy; destruct (HxQ y Hy); lia|done].
  - by rewrite app_comm_cons, <- EP.
  - set_solver.
  - rewrite lookup_insert_ne; [done|]. destruct (HPb x); [set_solver|]. lia.
  - exists b. split_and!; [set_solver|lia|lia].
  - intros y Hy. assert (y ∈ F) as HyF by set_solver. split_and!; [|apply (hp_pos _ _ _ _ H); set_solver|exists y; split_and!; [done|lia|lia]].
    apply elem_of_app in Hy as [Hy|Hy]; [apply apart_disj, HPb; rewrite EP; by right|by apply disj_sym, apart_disj, HbQ].
  - rewrite EF, !units_app. simpl. lia.
  - intros w Hw. apply lookup_insert_ne. intros <-. apply elem_of_cons in Hx as [->|Hx]; [apply (Hw (base, 1)); [by constructor|unfold bend; simpl; lia]|].
    assert (1 ≤ x.2) by (apply (hp_pos _ _ _ _ H); set_solver). apply (Hw x); [set_solver|unfold bend; lia].
Qed.
Lemma take_part s F A x b n P F1 Q :
  heap heap0 s F A → F = F1 ++ b :: Q → P ++ [x] = (base, 0) :: F1 → 1 ≤ n < b.2 →
  ∃ s', take_block n x.1 b.1 b.2 s = Ret (b.1 + 8 * (b.2 - n) + 8) s' [] ∧
    heap heap0 s' (F1 ++ (b.1, b.2 - n) :: Q) ((b.1 + 8 * (b.2 - n), n) :: A) ∧ kept A s s'.
Proof.
  intros H EF EP Hn. pose proof (hp_chain _ _ _ _ H) as Hc. pose proof (hp_sorted _ _ _ _ H) as Hs. rewrite EF, app_comm_cons, <- EP in Hc, Hs.
  pose proof Hc as [HcP (Hbn & Hbs & HcQ)]%chain_app. destruct (sorted_at _ _ _ Hs) as [HPb HbQ]. set (c := b.1 + 8 * (b.2 - n)).
  set (mem' := <[c + 4 := n]> (<[b.1 + 4 := b.2 - n]> (u_mem s))). exists (set_freep x.1 (set_umem mem' s)). split.
  { unfold take_block. rewrite bool_decide_false by lia. done. }
  assert (x ∈ (base, 0) :: F1) as Hx by (rewrite <- EP; set_solver). assert (∀ y, y ∈ P ++ [x] → apart y b) as HPb' by done. apply (heap_take s F A (F1 ++ (b.1, b.2 - n) :: Q) (c, n) x); [done| | | | | | | | |].
  - rewrite app_comm_cons, <- EP. apply chain_app. split; [|cbn [app chain]; split_and!].
    + do 2 (apply chain_write; [intros y Hy; destruct (HPb y Hy); unfold c; lia|]). exact HcP.
    + unfold mem'. rewrite !lookup_insert_ne by (unfold c; simpl; lia). done.
    + unfold mem'. rewrite lookup_insert_ne by (unfold c; simpl; lia). apply lookup_insert_eq.
    + do 2 (apply chain_write; [intros y Hy; destruct (HbQ y Hy); unfold bend, c in *; lia|]). done.
  - rewrite app_comm_cons, <- EP. apply StronglySorted_app in Hs as (H1 & H2 & [Hb H3]%StronglySorted_cons). rewrite Forall_forall in Hb. apply StronglySorted_app. split_and!; [|done|].
    + intros y z Hy [->|Hz]%elem_of_cons; [by apply (H1 y b Hy); set_solver|apply H1; set_solver].
    + apply StronglySorted_cons. split; [|done]. apply Forall_forall. intros y Hy. destruct (Hb y Hy). unfold apart, bend in *. simpl. lia.
  - set_solver.
  - simpl. lia.
  - apply lookup_insert_eq.
  - exists b. split_and!; [set_solver|unfold c; simpl; lia|unfold bend, c; simpl; lia].
  - intros y Hy. apply elem_of_app in Hy as [Hy|[->|Hy]%elem_of_cons].
    + split_and!; [|apply (hp_pos _ _ _ _ H); set_solver|exists y; split_and!; [set_solver|lia|lia]].
      destruct (HPb y); [rewrite EP; by right|]. unfold disj, bend, c in *. simpl. lia.
    + split_and!; [left; unfold bend, c; simpl; lia|simpl; lia|exists b; split_and!; [set_solver|simpl; lia|unfold bend; simpl; lia]].
    + split_and!; [|apply (hp_pos _ _ _ _ H); set_solver|exists y; split_and!; [set_solver|lia|lia]]. destruct (HbQ y Hy). unfold disj, bend, c in *. simpl. lia.
  - rewrite EF, !units_app. simpl. lia.
  - intros w Hw. unfold mem'. specialize (Hw b ltac:(set_solver)). rewrite !lookup_insert_ne; [done|..]; unfold bend, c in *; lia.
Qed.
Lemma take_heap s F A x b n :
  heap heap0 s F A → x ∈ (base, 0) :: F → b ∈ F → u_mem s !! x.1 = Some b.1 → 1 ≤ n ≤ b.2 →
  ∃ F' c s', take_block n x.1 b.1 b.2 s = Ret (c + 8) s' [] ∧ heap heap0 s' F' ((c, n) :: A) ∧ kept A s s'.
Proof.
  intros H Hx Hb Hn Hnb. destruct (ring_before s F A x b H Hx Hb Hn) as (P & Q & EB).
  assert (∃ F1, F = F1 ++ b :: Q ∧ P ++ [x] = (base, 0) :: F1) as (F1 & EF & EP).
  { destruct P as [|y P]; injection EB as -> ->; [by exists []|]. exists (P ++ [x]). by rewrite <- (assoc_L (++)). }
  destruct (decide (n = b.2)) as [->|Hne].
  - destruct (take_exact s F A x b P F1 Q H EF EP) as (s' & R & Hs & Hk). exists (F1 ++ Q), b.1, s'. by destruct b.
  - destruct (take_part s F A x b n P F1 Q H EF EP) as (s' & R & Hs & Hk); [lia|]. by eexists _, _, s'.
Qed.

(** ** Searching *)

(** What [malloc] does when the search comes back to where it began. *)
Definition grow (ffuel fuel : nat) (nunits : Z) : M ustate Z :=
  q ← morecore ffuel nunits;
  if bool_decide (q = 0) then mret 0 else nx ← hptr q; malloc_loop ffuel fuel nunits q nx.

Lemma malloc_step ffuel fuel n prev p s sz :
  u_mem s !! (p + 4) = Some sz →
  malloc_loop ffuel (S fuel) n prev p s =
    if bool_decide (n ≤ sz) then take_block n prev p sz s
    else if bool_decide (p = freep s) then grow ffuel fuel n s else (nx ← hptr p; malloc_loop ffuel fuel n p nx) s.
Proof.
  intros Hs. cbn [malloc_loop]. unfold hsize at 1. mstep (load_run s _ _ Hs). case_bool_decide; [done|]. rewrite bind_get. by case_bool_decide.
Qed.

(** From a block on to the block [f] at [freep]. *)
Lemma search ffuel n f l prev fuel s :
  chain (u_mem s) (prev :: l) f.1 → u_mem s !! (f.1 + 4) = Some f.2 → freep s = f.1 → (∀ x, x ∈ l → x.1 ≠ f.1) → (length l < fuel)%nat →
  (∃ x b, x ∈ prev :: l ∧ b ∈ l ++ [f] ∧ u_mem s !! x.1 = Some b.1 ∧ n ≤ b.2 ∧ malloc_loop ffuel fuel n prev.1 (hd_addr f.1 l) s = take_block n x.1 b.1 b.2 s) ∨
  (∀ b, b ∈ l ++ [f] → b.2 < n) ∧ malloc_loop ffuel fuel n prev.1 (hd_addr f.1 l) s = grow ffuel (fuel - S (length l)) n s.
Proof.
  intros Hc Hfs Hfp. revert prev fuel Hc. induction l as [|y l IH]; intros prev fuel Hc Hne Hf; (destruct fuel as [|fuel]; [simpl in Hf; lia|]); destruct Hc as (Hp & _ & Hc).
  - cbn [hd_addr]. rewrite (malloc_step _ _ _ _ _ _ _ Hfs). destruct (decide (n ≤ f.2)) as [Hle|Hgt].
    + left. exists prev, f. rewrite bool_decide_true by done. split_and!; [by constructor|by constructor|done|done|done].
    + right. rewrite bool_decide_false, bool_decide_true by done. split; [intros b ->%list_elem_of_singleton; lia|]. f_equal. simpl. lia.
  - cbn [hd_addr]. pose proof Hc as (Hy & Hys & Hc'). rewrite (malloc_step _ _ _ _ _ _ _ Hys). destruct (decide (n ≤ y.2)) as [Hle|Hgt].
    + left. exists prev, y. rewrite bool_decide_true by done. split_and!; [by constructor|by constructor|done|done|done].
    + rewrite (bool_decide_false (n ≤ y.2)) by done. rewrite (bool_decide_false (y.1 = freep s)) by (rewrite Hfp; apply Hne; by constructor).
      unfold hptr. mstep (load_run s _ _ Hy). destruct (IH y fuel Hc) as [(x & b & Hx & Hb & Hxb & Hnb & R)|[Hall R]]; [intros z Hz; apply Hne; by right|simpl in Hf; lia| |].
      * left. exists x, b. split_and!; [by right|by right|done|done|done].
      * right. split; [|done]. intros b [->|Hb]%elem_of_cons; [lia|by apply Hall].
Qed.

(** The search over the whole ring. *)
Lemma search_heap ffuel fuel n s F A :
  heap heap0 s F A → 1 ≤ n → (length F < fuel)%nat →
  ∃ nx, u_mem s !! freep s = Some nx ∧
    ((∃ F' c s', malloc_loop ffuel fuel n (freep s) nx s = Ret (c + 8) s' [] ∧ heap heap0 s' F' ((c, n) :: A) ∧ kept A s s') ∨
     (∀ b, b ∈ F → b.2 < n) ∧ malloc_loop ffuel fuel n (freep s) nx s = grow ffuel (fuel - S (length F)) n s).
Proof.
  intros H Hn Hf. pose proof (hp_chain _ _ _ _ H) as Hc. pose proof (hp_sorted _ _ _ _ H) as Hs.
  assert (∃ f, f ∈ (base, 0) :: F ∧ freep s = f.1) as (f & Hff & Ef) by (destruct (hp_freep _ _ _ _ H) as [E|(f & Hff & E)]; [exists (base, 0)|exists f]; split; set_solver).
  apply list_elem_of_split in Hff as (u & v & EB). rewrite EB in Hc, Hs. pose proof Hc as [Hcu (Hfn & Hfs & Hcv)]%chain_app. destruct (sorted_at u f v Hs) as [Hu Hv].
  assert (hd_addr f.1 u = base) as Hhd by (destruct u; injection EB as <- _; done).
  assert (chain (u_mem s) (f :: v ++ u) f.1) as Hring.
  { rewrite app_comm_cons. apply chain_app. rewrite Hhd. by split. }
  assert (length (v ++ u) = length F) as Hlen by (apply (f_equal length) in EB; rewrite length_app in EB |- *; simpl in EB; lia).
  exists (hd_addr f.1 (v ++ u)). rewrite Ef. split; [apply Hring|].
  assert (∀ b, b ∈ (v ++ u) ++ [f] ↔ b ∈ (base, 0) :: F) as Hall by (intros b; rewrite EB; set_solver).
  destruct (search ffuel n f (v ++ u) f fuel s) as [(x & b & Hx & Hb & Hxb & Hnb & R)|[Hno R]]; try done; [|lia| |].
  { intros y [Hy|Hy]%elem_of_app; [destruct (Hv y Hy)|destruct (Hu y Hy)]; lia. }
  - left. apply Hall in Hb. apply elem_of_cons in Hb as [->|Hb]; [simpl in Hnb; lia|]. rewrite R.
    apply (take_heap s F A x b n H); [apply Hall; set_solver|done|done|done].
  - right. split; [intros b Hb; apply Hno, Hall; by right|]. by rewrite R, Hlen.
Qed.

(** ** More memory *)

Definition more (n : Z) : Z := if bool_decide (n < 4096) then 4096 else n.
Lemma heap_brk s F A : heap heap0 s F A → heap0 ≤ u_brk s.
Proof.
  intros H. rewrite <- (hp_total _ _ _ _ H). assert (∀ l, (∀ x, x ∈ l → 1 ≤ x.2) → 0 ≤ units l) as Hu.
  { induction l as [|x l IH]; intros Hl; simpl; [lia|]. specialize (IH ltac:(set_solver)). specialize (Hl x ltac:(set_solver)). lia. }
  specialize (Hu (F ++ A)). assert (0 ≤ units (F ++ A)); [apply Hu, (hp_pos _ _ _ _ H)|lia].
Qed.
Lemma sbrk_heap s F A nu :
  heap heap0 s F A → 1 ≤ nu → u_brk s + 8 * nu ≤ limit →
  heap heap0 (set_umem (<[u_brk s + 4 := nu]> (u_mem s)) (set_ubrk (u_brk s + 8 * nu) s)) F ((u_brk s, nu) :: A).
Proof.
  intros H Hnu Hlim. assert (∀ x, x ∈ F ++ A → heap0 ≤ x.1 ∧ bend x ≤ u_brk s ∧ 1 ≤ x.2) as Hall.
  { intros y Hy. split_and!; [by apply (hp_bounds _ _ _ _ H y)|by apply (hp_bounds _ _ _ _ H y)|by apply (hp_pos _ _ _ _ H)]. }
  pose proof (heap_brk _ _ _ H) as Hb0.
  split; try done; cbn [u_mem set_umem set_ubrk u_brk freep].
  - apply chain_write; [|apply (hp_chain _ _ _ _ H)]. intros b [->|Hb]%elem_of_cons; [simpl; lia|]. destruct (Hall b) as (? & ? & ?); [set_solver|]. unfold bend in *. lia.
  - apply (hp_sorted _ _ _ _ H).
  - apply (hp_freep _ _ _ _ H).
  - intros b Hb. rewrite elem_of_app, elem_of_cons in Hb. destruct Hb as [Hb|[->|Hb]]; [apply Hall; set_solver|done|apply Hall; set_solver].
  - intros a [->|Ha]%elem_of_cons; [apply lookup_insert_eq|]. destruct (Hall a) as (? & ? & ?); [set_solver|].
    rewrite lookup_insert_ne by (unfold bend in *; lia). by apply (hp_sizes _ _ _ _ H).
  - constructor; [|apply (hp_disjA _ _ _ _ H)]. apply Forall_forall. intros a Ha. right. apply Hall. set_solver.
  - intros f a Hff [->|Ha]%elem_of_cons; [left; apply Hall; set_solver|by apply (hp_disjFA _ _ _ _ H)].
  - intros b Hb. rewrite elem_of_app, elem_of_cons in Hb. destruct Hb as [Hb|[->|Hb]]; [|unfold bend; simpl; lia|]; (destruct (Hall b) as (? & ? & ?); [set_solver|lia]).
  - pose proof (hp_total _ _ _ _ H) as Ht. rewrite units_app in Ht |- *. simpl. lia.
Qed.
Lemma morecore_heap fuel s F A n :
  heap heap0 s F A → 1 ≤ n → 8 * n < 2147483648 → (S (length F) < fuel)%nat →
  (limit < u_brk s + 8 * more n ∧ morecore fuel n s = Ret 0 s []) ∨
  (u_brk s + 8 * more n ≤ limit ∧ ∃ F' s', morecore fuel n s = Ret (freep s') s' [] ∧ freep s' ≠ 0 ∧ heap heap0 s' F' A ∧ kept A s s' ∧ (length F' ≤ S (length F))%nat ∧
   ∃ f, f ∈ F' ∧ n ≤ f.2).
Proof.
  intros H Hn Hn8 Hf. assert (n ≤ more n ∧ 4096 ≤ more n ∧ 8 * more n < 2147483648) as (Hm & Hm4 & Hm8) by (unfold more; case_bool_decide; lia).
  assert (∀ x, x ∈ A → bend x ≤ u_brk s) as HA by (intros x Hx; apply (hp_bounds _ _ _ _ H); set_solver).
  pose proof (heap_brk _ _ _ H) as Hb0.
  unfold morecore. fold (more n). cbn zeta. rewrite i32_small by lia. destruct (decide (u_brk s + 8 * more n ≤ limit)) as [Hle|Hgt].
  - right. split; [done|]. set (s1 := set_ubrk (u_brk s + 8 * more n) s).
    assert (sbrk (more n * 8) s = Ret (Some (u_brk s)) s1 []) as R1.
    { unfold sbrk. rewrite bind_get, bool_decide_true by lia. rewrite bind_modify. unfold s1. by replace (more n * 8) with (8 * more n) by lia. }
    mstep R1. unfold set_hsize. mstep (store_run s1 (u_brk s + 4) (more n)). set (s2 := set_umem _ s1).
    pose proof (sbrk_heap s F A (more n) H ltac:(lia) Hle) as H2. fold s1 in H2. change (heap heap0 s2 F ((u_brk s, more n) :: A)) in H2.
    destruct (free_heap fuel s2 F (u_brk s, more n) A H2 Hf) as (F' & s' & R & H' & Hk & _ & Hl & f & Hff & Hbig). cbn [fst] in R. mstep R.
    rewrite bind_get. exists F', s'. split_and!; [done| |done| |done|exists f; split; [done|simpl in Hbig; lia]].
    + destruct (hp_freep _ _ _ _ H') as [->|(g & Hg & ->)]; [lia|]. pose proof (hp_bounds _ _ _ _ H' g ltac:(set_solver)). lia.
    + intros a w Ha Hw. rewrite (Hk a w Ha Hw). unfold s2. cbn [u_mem set_umem]. apply lookup_insert_ne. specialize (HA a Ha). lia.
  - left. split; [lia|]. assert (sbrk (more n * 8) s = Ret None s []) as R1 by (unfold sbrk; rewrite bind_get, bool_decide_false by lia; done). by mstep R1.
Qed.

Lemma pairs_perm (l l' : list ublock) : l ≡ₚ l' → ForallOrdPairs disj l → ForallOrdPairs disj l'.
Proof.
  induction 1 as [|x l l' Hp IH|x y l|l1 l2 l3 _ IH1 _ IH2]; intros H; [done| | |auto].
  - inversion H as [|? ? Hx Hl]; subst. constructor; [by rewrite <- Hp|auto].
  - inversion H as [|? ? Hy Hl]; subst. inversion Hl as [|? ? Hx Hl']; subst. apply Forall_cons in Hy as [Hyx Hy].
    constructor; [constructor; [by apply disj_sym|done]|by constructor].
Qed.
Lemma units_perm l l' : l ≡ₚ l' → units l = units l'.
Proof. induction 1; simpl; lia. Qed.
Lemma heap_perm s F A A' : A ≡ₚ A' → heap heap0 s F A → heap heap0 s F A'.
Proof.
  intros Hp [H1 H2 H3 H4 H5 H6 H7 H8 H9 H10]. split; try done.
  - intros b. rewrite <- Hp. apply H4.
  - intros a. rewrite <- Hp. apply H5.
  - by eapply pairs_perm.
  - intros f a Hf. rewrite <- Hp. by apply H7.
  - intros b. rewrite <- Hp. apply H8.
  - rewrite <- H9. do 2 f_equal. apply units_perm. by rewrite Hp.
Qed.

(** ** Theorems *)

(** A program's first call of [malloc] sets the ring up. *)
Definition fresh (s : ustate) : Prop := freep s = 0 ∧ u_brk s = heap0 ∧ heap0 ≤ limit.
Definition heap_or_fresh (s : ustate) (F A : list ublock) : Prop := heap heap0 s F A ∨ fresh s ∧ F = [] ∧ A = [].

Lemma fresh_heap s :
  fresh s → heap heap0 (set_umem (<[base + 4 := 0]> (<[base := base]> (u_mem s))) (set_freep base s)) [] [].
Proof.
  intros (Hf & Hb & Hl). split; cbn [u_mem set_umem set_freep freep u_brk].
  - cbn [chain hd_addr fst snd]. rewrite lookup_insert_ne, !lookup_insert_eq by lia. done.
  - repeat constructor.
  - by left.
  - by intros b ?%not_elem_of_nil.
  - by intros b ?%not_elem_of_nil.
  - constructor.
  - by intros f b ?%not_elem_of_nil.
  - by intros b ?%not_elem_of_nil.
  - simpl. lia.
  - lia.
Qed.

Lemma grow_heap fuel k s F A n :
  heap heap0 s F A → 1 ≤ n → 8 * n < 2147483648 → (S (length F) < fuel)%nat → (S (length F) < k)%nat →
  (limit < u_brk s + 8 * more n ∧ grow fuel k n s = Ret 0 s []) ∨
  ∃ F' c s', grow fuel k n s = Ret (c + 8) s' [] ∧ heap heap0 s' F' ((c, n) :: A) ∧ kept A s s'.
Proof.
  intros H Hn Hn8 Hf Hk. unfold grow. destruct (morecore_heap fuel s F A n H Hn Hn8 Hf) as [[Hlim R]|(_ & F1 & s1 & R & Hp & H1 & Hk1 & Hl & f & Hff & Hbig)].
  - left. split; [done|]. by mstep R.
  - right. mstep R. rewrite bool_decide_false by done. destruct (search_heap fuel k n s1 F1 A H1 Hn) as (nx & Hnx & [(F' & c & s' & R2 & H2 & Hk2)|[Hno _]]); [lia| |].
    + unfold hptr. mstep (load_run s1 _ _ Hnx). exists F', c, s'. split_and!; [done|done|]. intros a w Ha Hw. by rewrite (Hk2 a w Ha Hw), (Hk1 a w Ha Hw).
    + specialize (Hno f Hff). lia.
Qed.

Lemma malloc_heap fuel s F A nbytes :
  heap heap0 s F A → 0 ≤ nbytes ≤ 2147483632 → (2 * length F + 4 ≤ fuel)%nat →
  let n := malloc_units nbytes in
  nbytes ≤ 8 * (n - 1) ∧
  ((limit < u_brk s + 8 * more n ∧ (∀ b, b ∈ F → b.2 < n) ∧ malloc fuel nbytes s = Ret 0 s []) ∨
   ∃ F' c s', malloc fuel nbytes s = Ret (c + 8) s' [] ∧ heap heap0 s' F' ((c, n) :: A) ∧ kept A s s').
Proof.
  intros H Hnb Hf n. assert (n = (nbytes + 7) / 8 + 1) as En by (unfold n, malloc_units; rewrite u32_small by lia; done).
  assert (1 ≤ n ∧ 8 * n < 2147483648 ∧ nbytes ≤ 8 * (n - 1)) as (Hn & Hn8 & Hfit) by (rewrite En; Z.div_mod_to_equations; lia).
  split; [done|]. unfold malloc. fold n. cbn zeta. rewrite bind_get. assert (freep s ≠ 0) as Hp.
  { destruct (hp_freep _ _ _ _ H) as [->|(g & Hg & ->)]; [lia|]. pose proof (hp_bounds _ _ _ _ H g ltac:(set_solver)). lia. }
  rewrite bool_decide_false by done. rewrite bind_mret, bind_get. destruct (search_heap fuel fuel n s F A H Hn) as (nx & Hnx & [Hfound|[Hno R]]); [lia| |].
  - right. unfold hptr. by mstep (load_run s _ _ Hnx).
  - unfold hptr. rewrite (bind_run _ _ _ _ _ _ (load_run s _ _ Hnx)), prepend_nil, R.
    destruct (grow_heap fuel (fuel - S (length F)) s F A n H Hn Hn8) as [[Hlim R']|Hgrow]; [lia|lia|by left|by right].
Qed.
Lemma malloc_fresh fuel s nbytes :
  fresh s → malloc fuel nbytes s = malloc fuel nbytes (set_umem (<[base + 4 := 0]> (<[base := base]> (u_mem s))) (set_freep base s)).
Proof.
  intros (Hf & _). unfold malloc. cbn zeta. rewrite !bind_get. rewrite (bool_decide_true (freep s = 0)) by done. set (s1 := set_umem _ _).
  rewrite (bool_decide_false (freep s1 = 0)) by (simpl; lia). rewrite bind_mret.
  rewrite (bind_run _ _ s tt s1 []) by done. by rewrite prepend_nil.
Qed.
End umalloc.


(** A process of 4096 bytes that has not allocated anything. *)
Definition ex_fresh : ustate := UState ∅ 0 4096.
Lemma ex_fresh_ok : fresh 1000000 4096 ex_fresh.
Proof. done. Qed.

