(* ===== verification/Progs.v ===== *)
(** Small user programs: wc (src/wc.c), cat (src/cat.c), and the names that ls
    prints (src/ls.c).

    A file being read is the list of the chunks that [read] returns, of any
    lengths; a read error is a chunk that is missing.  The theorem about wc
    says that its counts do not depend on the chunks. *)
From S2P Require Import Prelude Layout Bytes Ulib.

(** ** wc *)

Record counts := Counts { c_l : Z; c_w : Z; c_c : Z; c_inword : bool }.

(** The body of the inner loop of [wc]. *)
Definition wc_char (x : Z) (s : counts) : counts :=
  let c := c_c s + 1 in
  let l := if bool_decide (x = 10) then c_l s + 1 else c_l s in
  if bool_decide (is_Some (strchr [32; 13; 9; 10; 11] x)) then Counts l (c_w s) c false
  else if negb (c_inword s) then Counts l (c_w s + 1) c true
  else Counts l (c_w s) c (c_inword s).
(** The loop over the reads: the counts, or none after an error. *)
Fixpoint wc_loop (reads : list (option (list Z))) (s : counts) : option counts :=
  match reads with
  | [] | Some [] :: _ => Some s
  | None :: _ => None
  | Some chunk :: reads' => wc_loop reads' (foldl (λ s x, wc_char x s) s chunk)
  end.
Definition wc (reads : list (option (list Z))) : option (Z * Z * Z) :=
  s ← wc_loop reads (Counts 0 0 0 false); Some (c_l s, c_w s, c_c s).

(** ** cat *)

Inductive cat_end : Type := CatDone | CatWriteError | CatReadError.
(** [cat], with what [write] says for each chunk; what was written and how it
    ended. *)
Fixpoint cat (reads : list (option (list Z))) (write : list Z → Z) : list Z * cat_end :=
  match reads with
  | [] | Some [] :: _ => ([], CatDone)
  | None :: _ => ([], CatReadError)
  | Some chunk :: reads' =>
      if bool_decide (write chunk ≠ Z.of_nat (length chunk)) then ([], CatWriteError)
      else let '(out, e) := cat reads' write in (chunk ++ out, e)
  end.

(** ** ls *)

(** [for(p=path+strlen(path); p >= path && *p != '/'; p--); p++]: the position
    after the last slash. *)
Fixpoint after_slash (path : list Z) (n : nat) : nat :=
  match n with
  | O => 0
  | S n' => if bool_decide (path !! n' = Some (chr "/")) then n else after_slash path n'
  end.
Definition fmtname (path : list Z) : list Z :=
  let p := drop (after_slash path (length path)) path in
  if bool_decide (DIRSIZ ≤ length p)%nat then p
  else p ++ replicate (DIRSIZ - length p) 32.

(** * What is counted *)

Definition space (x : Z) : bool := bool_decide (x ∈ [32; 13; 9; 10; 11]).
(** The words of a text: its maximal runs of characters that are not space. *)
Fixpoint words_of (l cur : list Z) : list (list Z) :=
  match l with
  | [] => if bool_decide (cur = []) then [] else [cur]
  | x :: l' => if space x then (if bool_decide (cur = []) then [] else [cur]) ++ words_of l' [] else words_of l' (cur ++ [x])
  end.
Definition lines_of (l : list Z) : nat := length (filter (λ x, x = 10) l).

(** ** Proofs *)

Lemma strchr_space x : bool_decide (is_Some (strchr [32; 13; 9; 10; 11] x)) = space x.
Proof. apply bool_decide_ext, strchr_elem, (bool_decide_eq_false_1 (0 ∈ _)). done. Qed.

(** A word that has begun has been counted. *)
Lemma wc_chars l s cur :
  c_inword s = negb (bool_decide (cur = [])) →
  let s' := foldl (λ s x, wc_char x s) s l in
  c_l s' = c_l s + Z.of_nat (lines_of l) ∧ c_c s' = c_c s + Z.of_nat (length l) ∧
  c_w s' + (if bool_decide (cur = []) then 0 else 1) = c_w s + Z.of_nat (length (words_of l cur)).
Proof.
  revert s cur. induction l as [|x l IH]; intros s cur Hin; cbn zeta; cbn [foldl words_of].
  - unfold lines_of. rewrite filter_nil. simpl. split_and!; [lia|lia|]. destruct (bool_decide (cur = [])); simpl; lia.
  - assert (Z.of_nat (lines_of (x :: l)) = (if bool_decide (x = 10) then 1 else 0) + Z.of_nat (lines_of l)) as Hl.
    { unfold lines_of. destruct (decide (x = 10)) as [E|E]; [rewrite filter_cons_True, bool_decide_true by done|rewrite filter_cons_False, bool_decide_false by done]; rewrite ?length_cons; lia. }
    set (s1 := wc_char x s). assert (c_l s1 = c_l s + (if bool_decide (x = 10) then 1 else 0) ∧ c_c s1 = c_c s + 1) as [El Ec].
    { unfold s1, wc_char. rewrite strchr_space. repeat case_match; simpl; split; try lia; by case_bool_decide. }
    rewrite Hl, length_cons. destruct (space x) eqn:Ex.
    + assert (c_inword s1 = false ∧ c_w s1 = c_w s) as [Ei Ew] by (unfold s1, wc_char; rewrite strchr_space, Ex; done).
      destruct (IH s1 []) as (H1 & H2 & H3); [done|]. rewrite H1, H2. cbn in H3. rewrite length_app. split_and!; [lia|lia|]. destruct (bool_decide (cur = [])); simpl; lia.
    + assert (c_inword s1 = true ∧ c_w s1 = c_w s + (if bool_decide (cur = []) then 1 else 0)) as [Ei Ew].
      { unfold s1, wc_char. rewrite strchr_space, Ex, Hin, negb_involutive. destruct (bool_decide (cur = [])); simpl; split; try done; try lia. }
      destruct (IH s1 (cur ++ [x])) as (H1 & H2 & H3); [rewrite Ei, bool_decide_false; [done|by destruct cur]|]. rewrite H1, H2. split_and!; [lia|lia|].
      rewrite (bool_decide_false (cur ++ [x] = [])) in H3 by (by destruct cur). destruct (bool_decide (cur = [])); lia.
Qed.
Lemma wc_loop_foldl chunks s :
  Forall (λ c, c ≠ []) chunks → wc_loop (Some <$> chunks) s = Some (foldl (λ s x, wc_char x s) s (concat chunks)).
Proof.
  intros H. revert s. induction H as [|c chunks Hc H IH]; intros s; [done|]. cbn [fmap list_fmap wc_loop concat]. rewrite foldl_app, <- IH. by destruct c.
Qed.

(** wc counts right, however the file is cut into reads.  For any
    non-empty chunks that [read] returns, wc prints the number of newlines,
    of maximal runs of characters that are not white space, and of characters
    of the whole text; a word that is split between two reads counts once. *)
Theorem wc_counts chunks :
  Forall (λ c, c ≠ []) chunks →
  let text := concat chunks in
  wc (Some <$> chunks) = Some (Z.of_nat (lines_of text), Z.of_nat (length (words_of text [])), Z.of_nat (length text)).
Proof.
  intros H text. unfold wc. rewrite wc_loop_foldl by done. cbn [mbind option_bind]. destruct (wc_chars text (Counts 0 0 0 false) []) as (H1 & H2 & H3); [done|].
  fold text. rewrite bool_decide_true in H3 by done. cbn [c_l c_c c_w] in *. rewrite H1, H2. do 3 f_equal; lia.
Qed.

(** "ab c" in two reads. *)
Lemma wc_counts_witness : wc [Some (str "a"); Some (str "b c" ++ [10])] = Some (1, 2, 5).
Proof. apply (wc_counts [str "a"; str "b c" ++ [10]]). by repeat constructor. Defined.
