(* ===== verification/UserProgs.v ===== *)
(** The small user programs: init, echo, kill, ln, mkdir, rm, zombie, those of
    the assignments (src/assig1_1.c to src/assig2_2.c, src/user_toggle.c), and
    the test programs forktest and stressfs.

    A program is the tree of its system calls ([uprog]).  [run] follows a tree
    for any kernel: a function that answers a call, given the calls made so far
    and their answers.  A process sees [fork] as a call with an answer, 0 in the
    child; an [exec] that succeeds does not return.  The theorems hold for
    every kernel, or for those that behave as stated. *)
From S2P Require Import Prelude Layout Bytes Format.

(** * Programs *)

Inductive call : Type :=
| CFork | CWait | CSleep (n : Z) | CKill (pid : Z) | CGetpid | CToggle | CAdd (a b : Z) | CPs | CSetpriority (pid pr : Z)
| CWrite (fd : Z) (bytes : list Z) | CRead (fd n : Z) | COpen (path : list Z) (mode : Z) | CClose (fd : Z) | CDup (fd : Z)
| CMknod (path : list Z) (major minor : Z) | CLink (old new : list Z) | CUnlink (path : list Z) | CMkdir (path : list Z)
| CExec (path : list Z) (argv : list (list Z)).
#[export] Instance call_eq_dec : EqDecision call.
Proof. solve_decision. Defined.

Inductive uprog : Type :=
| Exit
| Call (c : call) (k : Z → uprog).

(** The newline at the end of a message. *)
Definition nl : string := String (Ascii.ascii_of_nat 10) EmptyString.

(** Calls whose answers are not looked at. *)
Definition call_ (c : call) (p : uprog) : uprog := Call c (λ _, p).
(** [printf] writes its bytes one by one. *)
Fixpoint puts (fd : Z) (bytes : list Z) (p : uprog) : uprog :=
  match bytes with
  | [] => p
  | b :: bytes' => call_ (CWrite fd [b]) (puts fd bytes' p)
  end.
Definition uprintf (fd : Z) (fmt : string) (ap : list farg) (p : uprog) : uprog := puts fd (default [] (Format.printf (str fmt) ap)) p.
Definition FS (s : list Z) : farg := FStr (Some s).
Fixpoint repeat_ (n : nat) (c : call) (p : uprog) : uprog :=
  match n with O => p | S n' => call_ c (repeat_ n' c p) end.


(** ** src/echo.c, src/kill.c, src/ln.c, src/mkdir.c, src/rm.c *)

(** The arguments from [argv[1]] on. *)
Fixpoint echo_loop (args : list (list Z)) (p : uprog) : uprog :=
  match args with
  | [] => p
  | a :: args' => uprintf 1 "%s%s" [FS a; FS (str (if bool_decide (args' = []) then nl else " "))] (echo_loop args' p)
  end.
Definition echo_main (argv : list (list Z)) : uprog := echo_loop (tail argv) Exit.

Fixpoint kill_loop (args : list (list Z)) : uprog :=
  match args with
  | [] => Exit
  | a :: args' => call_ (CKill (atoi a)) (kill_loop args')
  end.
Definition kill_main (argv : list (list Z)) : uprog :=
  if bool_decide (length argv < 2)%nat then uprintf 2 ("usage: kill pid..." +:+ nl) [] Exit else kill_loop (tail argv).

Definition ln_main (argv : list (list Z)) : uprog :=
  match argv with
  | [_; old; new] =>
      Call (CLink old new) (λ r,
        if bool_decide (r < 0) then uprintf 2 ("link %s %s: failed" +:+ nl) [FS old; FS new] Exit else Exit)
  | _ => uprintf 2 ("Usage: ln old new" +:+ nl) [] Exit
  end.

(** The loop of mkdir and of rm: [op] is the call, [msg] the message. *)
Fixpoint each_loop (op : list Z → call) (msg : string) (args : list (list Z)) : uprog :=
  match args with
  | [] => Exit
  | a :: args' => Call (op a) (λ r, if bool_decide (r < 0) then uprintf 2 msg [FS a] Exit else each_loop op msg args')
  end.
Definition mkdir_main (argv : list (list Z)) : uprog :=
  if bool_decide (length argv < 2)%nat then uprintf 2 ("Usage: mkdir files..." +:+ nl) [] Exit
  else each_loop CMkdir ("mkdir: %s failed to create" +:+ nl) (tail argv).
Definition rm_main (argv : list (list Z)) : uprog :=
  if bool_decide (length argv < 2)%nat then uprintf 2 ("Usage: rm files..." +:+ nl) [] Exit
  else each_loop CUnlink ("rm: %s failed to delete" +:+ nl) (tail argv).

(** ** src/init.c *)

(** [while((wpid=wait()) >= 0 && wpid != pid)]; [fuel] bounds the waits. *)
Fixpoint init_wait (fuel : nat) (pid : Z) (next : uprog) : uprog :=
  match fuel with
  | O => Exit
  | S fuel' => Call CWait (λ w, if bool_decide (0 ≤ w) && bool_decide (w ≠ pid) then uprintf 1 ("zombie!" +:+ nl) [] (init_wait fuel' pid next) else next)
  end.
(** [n] rounds of the loop. *)
Fixpoint init_loop (fuel n : nat) : uprog :=
  match n with
  | O => Exit
  | S n' =>
      uprintf 1 ("init: starting sh" +:+ nl) []
        (Call CFork (λ pid,
           if bool_decide (pid < 0) then uprintf 1 ("init: fork failed" +:+ nl) [] Exit
           else if bool_decide (pid = 0) then call_ (CExec (str "sh") [str "sh"]) (uprintf 1 ("init: exec sh failed" +:+ nl) [] Exit)
           else init_wait fuel pid (init_loop fuel n')))
  end.
Definition init_main (fuel n : nat) : uprog :=
  let rest := call_ (CDup 0) (call_ (CDup 0) (init_loop fuel n)) in
  Call (COpen (str "console") O_RDWR) (λ r,
    if bool_decide (r < 0) then call_ (CMknod (str "console") 1 1) (call_ (COpen (str "console") O_RDWR) rest) else rest).

(** ** src/zombie.c, src/forktest.c, src/stressfs.c *)

Definition zombie_main : uprog := Call CFork (λ r, if bool_decide (r > 0) then call_ (CSleep 5) Exit else Exit).

(** forktest has a [printf] of its own. *)
Definition ft_printf (s : string) (p : uprog) : uprog := call_ (CWrite 1 (str s ++ [10])) p.
Definition N : nat := 1000.
Fixpoint ft_wait (n : nat) : uprog :=
  match n with
  | S n' => Call CWait (λ r, if bool_decide (r < 0) then ft_printf "wait stopped early" Exit else ft_wait n')
  | O => Call CWait (λ r, if bool_decide (r ≠ -1) then ft_printf "wait got too many" Exit else ft_printf "fork test OK" Exit)
  end.
(** The loop with [todo] turns left, after [n] children. *)
Fixpoint ft_fork (todo n : nat) : uprog :=
  match todo with
  | O => ft_printf "fork claimed to work N times!" Exit
  | S todo' => Call CFork (λ pid, if bool_decide (pid < 0) then ft_wait n else if bool_decide (pid = 0) then Exit else ft_fork todo' (S n))
  end.
Definition forktest : uprog := ft_printf "fork test" (ft_fork N 0).

Definition stressfs_body (i : nat) : uprog :=
  let path := str "stressfs" ++ [48 + Z.of_nat i] in
  uprintf 1 ("write %d" +:+ nl) [FInt (Z.of_nat i)]
    (Call (COpen path (Z.lor O_CREATE O_RDWR)) (λ fd,
       repeat_ 20 (CWrite fd (replicate 512 97)) (call_ (CClose fd)
         (uprintf 1 ("read" +:+ nl) []
           (Call (COpen path O_RDONLY) (λ fd, repeat_ 20 (CRead fd 512) (call_ (CClose fd) (call_ CWait Exit)))))))).
Fixpoint stressfs_fork (todo i : nat) : uprog :=
  match todo with
  | O => stressfs_body i
  | S todo' => Call CFork (λ r, if bool_decide (r > 0) then stressfs_body i else stressfs_fork todo' (S i))
  end.
Definition stressfs_main : uprog := uprintf 1 ("stressfs starting" +:+ nl) [] (stressfs_fork 4 0).

(** ** The programs of the assignments *)

Definition assig1_1_main : uprog := call_ CToggle Exit.
Definition user_toggle_main : uprog := call_ CToggle Exit.
Definition assig1_3_main : uprog :=
  call_ CToggle (Call (CAdd 2 3) (λ r, uprintf 1 ("Sum of 2 and 3 is: %d" +:+ nl) [FInt r] Exit)).
Definition assig1_5_main : uprog := call_ CToggle (call_ CPs Exit).
Definition assig2_1_main : uprog := call_ CPs Exit.
Definition assig2_2_main (argv : list (list Z)) : option uprog :=
  a ← argv !! 1%nat; b ← argv !! 2%nat; Some (call_ (CSetpriority (atoi a) (atoi b)) Exit).

(** * Running *)

(** The calls made so far with their answers, the last one last. *)
Abbreviation history := (list (call * Z)).
(** The answer of the kernel to a call. *)
Definition answers := history → call → Z.

Fixpoint run (o : answers) (p : uprog) (h : history) : history :=
  match p with
  | Exit => h
  | Call c k =>
      let r := o h c in
      match c with
      | CExec _ _ => if bool_decide (r < 0) then run o (k r) (h ++ [(c, r)]) else h ++ [(c, r)]
      | _ => run o (k r) (h ++ [(c, r)])
      end
  end.

(** What was written to a descriptor. *)
Definition out (fd : Z) (h : history) : list Z :=
  h ≫= λ p, match p.1 with CWrite fd' bytes => if bool_decide (fd' = fd) then bytes else [] | _ => [] end.
(** The calls that do not write. *)
Definition is_write (c : call) : bool := match c with CWrite _ _ => true | _ => false end.
Definition acts (h : history) : history := filter (λ p, is_write p.1 = false) h.

Lemma out_app fd h1 h2 : out fd (h1 ++ h2) = out fd h1 ++ out fd h2.
Proof. unfold out. by rewrite bind_app. Qed.
Lemma acts_app h1 h2 : acts (h1 ++ h2) = acts h1 ++ acts h2.
Proof. unfold acts. by rewrite filter_app. Qed.

(** Printing in front of a program. *)
Lemma run_puts o fd bytes p h :
  ∃ h', run o (puts fd bytes p) h = run o p (h ++ h') ∧ acts h' = [] ∧ ∀ fd', out fd' h' = if bool_decide (fd = fd') then bytes else [].
Proof.
  revert h. induction bytes as [|b bytes IH]; intros h.
  { exists []. rewrite app_nil_r. split_and!; [done|done|]. intros fd'. by case_bool_decide. }
  cbn [puts call_ run]. destruct (IH (h ++ [(CWrite fd [b], o h (CWrite fd [b]))])) as (h' & E & Ha & Ho).
  exists ((CWrite fd [b], o h (CWrite fd [b])) :: h'). rewrite E, <- app_assoc. split_and!; [done|done|]. intros fd'. unfold out in *. cbn. rewrite Ho. by case_bool_decide.
Qed.

Lemma run_printf o fd fmt ap p h bytes :
  Format.printf (str fmt) ap = Some bytes →
  ∃ h', run o (uprintf fd fmt ap p) h = run o p (h ++ h') ∧ acts h' = [] ∧ ∀ fd', out fd' h' = if bool_decide (fd = fd') then bytes else [].
Proof. intros E. unfold uprintf. rewrite E. apply run_puts. Qed.

(** ** echo *)

(** The arguments with spaces between them and a newline at the end. *)
Fixpoint joined (args : list (list Z)) : list Z :=
  match args with
  | [] => []
  | [a] => cstr a ++ [10]
  | a :: args' => cstr a ++ 32 :: joined args'
  end.

Lemma printf_two a b : Format.printf (str "%s%s") [FS a; FS b] = Some (cstr a ++ cstr b ++ []).
Proof. reflexivity. Qed.

(** echo prints its arguments, separated by spaces and ended by a newline, and
    makes no other calls. *)
Theorem echo_prints o argv : out 1 (run o (echo_main argv) []) = joined (tail argv) ∧ acts (run o (echo_main argv) []) = [].
Proof.
  unfold echo_main. assert (∀ args h, ∃ h', run o (echo_loop args Exit) h = h ++ h' ∧ acts h' = [] ∧ out 1 h' = joined args) as H.
  { induction args as [|a args IH]; intros h; [exists []; by rewrite app_nil_r|]. cbn [echo_loop].
    destruct (run_printf o 1 "%s%s" [FS a; FS (str (if bool_decide (args = []) then nl else " "))] (echo_loop args Exit) h _ (printf_two _ _)) as (h1 & E1 & A1 & O1).
    destruct (IH (h ++ h1)) as (h2 & E2 & A2 & O2). exists (h1 ++ h2). rewrite E1, E2, acts_app, A1, A2, out_app, O1, O2, app_assoc, app_nil_r. split_and!; [done|done|].
    rewrite bool_decide_true by done. destruct args as [|b args]; cbn [joined bool_decide]; [by rewrite app_nil_r|]. by rewrite <- app_assoc. }
  destruct (H (tail argv) []) as (h' & -> & A & O). done.
Qed.

(** ** mkdir and rm *)

(** A call with each of its answers. *)
Definition answered (c : call) (rs : list Z) : history := (λ r, (c, r)) <$> rs.

Lemma run_call o c k h : (∀ p a, c ≠ CExec p a) → run o (Call c k) h = run o (k (o h c)) (h ++ [(c, o h c)]).
Proof. intros H. destruct c; try done. by destruct (H path argv). Qed.

(** The loop makes the call for one argument after the other, up to the first
    one that fails, and names that one in a message. *)
Lemma each_run o op msg args h :
  (∀ a p b, op a ≠ CExec p b) → (∀ a, is_write (op a) = false) → (∀ a, is_Some (Format.printf (str msg) [FS a])) →
  ∃ h', run o (each_loop op msg args) h = h ++ h' ∧
    ((∃ rs, acts h' = zip (op <$> args) rs ∧ length rs = length args ∧ Forall (λ r, 0 ≤ r) rs ∧ out 2 h' = []) ∨
     (∃ before a rest rs r bytes, args = before ++ a :: rest ∧ acts h' = zip (op <$> before) rs ++ [(op a, r)] ∧ length rs = length before ∧
        Forall (λ r, 0 ≤ r) rs ∧ r < 0 ∧ Format.printf (str msg) [FS a] = Some bytes ∧ out 2 h' = bytes)).
Proof.
  intros Hex Hw Hm. revert h. induction args as [|a args IH]; intros h.
  { exists []. rewrite app_nil_r. split; [done|]. left. by exists []. }
  cbn [each_loop]. rewrite run_call by (intros; apply Hex). set (r := o h (op a)).
  assert (∀ h2, acts ((op a, r) :: h2) = (op a, r) :: acts h2 ∧ out 2 ((op a, r) :: h2) = out 2 h2) as Hcons.
  { intros h2. unfold acts, out. rewrite filter_cons. cbn [fst]. rewrite decide_True by apply Hw. split; [done|]. cbn. specialize (Hw a). by destruct (op a). }
  case_bool_decide as Hr.
  - destruct (Hm a) as [bytes Hb]. destruct (run_printf o 2 msg [FS a] Exit (h ++ [(op a, r)]) bytes Hb) as (h2 & E & A & O).
    exists ((op a, r) :: h2). destruct (Hcons h2) as [C1 C2]. rewrite E, <- app_assoc, C1, C2, A, O. split; [done|]. right. exists [], a, args, [], r, bytes. split_and!; try done.
  - destruct (IH (h ++ [(op a, r)])) as (h2 & E & Hcase). exists ((op a, r) :: h2). destruct (Hcons h2) as [C1 C2]. rewrite E, <- app_assoc, C1, C2. split; [done|].
    destruct Hcase as [(rs & H1 & H2 & H3 & H4)|(before & b & rest & rs & r' & bytes & -> & H1 & H2 & H3 & H4 & H5 & H6)].
    + left. exists (r :: rs). rewrite H1. split_and!; [done|cbn; lia|constructor; [lia|done]|done].
    + right. exists (a :: before), b, rest, (r :: rs), r', bytes. rewrite H1. split_and!; try done; [cbn; lia|constructor; [lia|done]].
Qed.

(** ** forktest *)

Lemma run_ft_printf o s p h : ∃ h', run o (ft_printf s p) h = run o p (h ++ h') ∧ acts h' = [] ∧ out 1 h' = str s ++ [10].
Proof.
  exists [(CWrite 1 (str s ++ [10]), o h (CWrite 1 (str s ++ [10])))]. split_and!; [done|done|]. unfold out. cbn. by rewrite app_nil_r.
Qed.

(** How the waits of forktest end, after [n] children. *)
Definition ft_waited (n : nat) (a : history) (s : string) : Prop :=
  ∃ ws r, Forall (λ w, 0 ≤ w) ws ∧ a = answered CWait (ws ++ [r]) ∧
    ((length ws < n)%nat ∧ r < 0 ∧ s = "wait stopped early"%string ∨
     length ws = n ∧ r ≠ -1 ∧ s = "wait got too many"%string ∨ length ws = n ∧ r = -1 ∧ s = "fork test OK"%string).

Lemma ft_wait_run o n h :
  ∃ h' s, run o (ft_wait n) h = h ++ h' ∧ out 1 h' = str s ++ [10] ∧ ft_waited n (acts h') s.
Proof.
  revert h. induction n as [|n IH]; intros h; cbn [ft_wait]; rewrite run_call by done; set (r := o h CWait).
  - assert (∃ s h', run o (if bool_decide (r ≠ -1) then ft_printf "wait got too many" Exit else ft_printf "fork test OK" Exit) (h ++ [(CWait, r)]) = h ++ [(CWait, r)] ++ h' ∧
      acts h' = [] ∧ out 1 h' = str s ++ [10] ∧ (r ≠ -1 ∧ s = "wait got too many"%string ∨ r = -1 ∧ s = "fork test OK"%string)) as (s & h' & E & A & O & Hs).
    { case_bool_decide as Hr; [destruct (run_ft_printf o "wait got too many" Exit (h ++ [(CWait, r)])) as (h' & E & A & O)
        |destruct (run_ft_printf o "fork test OK" Exit (h ++ [(CWait, r)])) as (h' & E & A & O)]; eexists _, h'; rewrite E, <- app_assoc; split_and!; try done; [by left|].
      right. split; [|done]. destruct (decide (r = -1)); [done|]. by destruct Hr. }
    exists ([(CWait, r)] ++ h'), s. split_and!; [done|done|]. rewrite acts_app, A. exists [], r. split_and!; [done|done|]. right. destruct Hs as [[? ->]|[? ->]]; [by left|by right].
  - case_bool_decide as Hr.
    + destruct (run_ft_printf o "wait stopped early" Exit (h ++ [(CWait, r)])) as (h' & E & A & O). exists ([(CWait, r)] ++ h'), "wait stopped early"%string.
      rewrite E, <- app_assoc. split_and!; [done|done|]. rewrite acts_app, A. exists [], r. split_and!; [done|done|]. left. split_and!; [cbn; lia|done|done].
    + destruct (IH (h ++ [(CWait, r)])) as (h' & s & E & O & ws & r' & Hws & A & Hs). exists ([(CWait, r)] ++ h'), s. rewrite E, <- app_assoc. split_and!; [done|done|].
      rewrite acts_app, A. exists (r :: ws), r'. split_and!; [constructor; [lia|done]|done|]. cbn [length].
      destruct Hs as [(?&?&?)|[(?&?&?)|(?&?&?)]]; [left|right; left|right; right]; split_and!; done || lia.
Qed.

(** What forktest finds, whatever the kernel answers.  Its last line says
    how the calls went: a child prints nothing more; in the parent [n] forks
    succeed, and the line is "fork test OK" exactly when one fork failed
    before the 1000th, then as many waits succeeded as forks, and one more
    wait returned -1. *)
Theorem forktest_verdict (o : answers) :
  ∃ pids, (length pids ≤ N)%nat ∧ Forall (λ p, 0 < p) pids ∧
    let h := run o forktest [] in let first := str "fork test" ++ [10] in
    (acts h = answered CFork (pids ++ [0]) ∧ out 1 h = first ∨
     length pids = N ∧ acts h = answered CFork pids ∧ out 1 h = first ++ str "fork claimed to work N times!" ++ [10] ∨
     ∃ f a s, f < 0 ∧ acts h = answered CFork (pids ++ [f]) ++ a ∧ ft_waited (length pids) a s ∧ out 1 h = first ++ str s ++ [10]).
Proof.
  unfold forktest. destruct (run_ft_printf o "fork test" (ft_fork N 0) []) as (h0 & -> & A0 & O0). cbn [app].
  assert (∀ todo n h, ∃ pids h', (length pids ≤ todo)%nat ∧ Forall (λ p, 0 < p) pids ∧ run o (ft_fork todo n) h = h ++ h' ∧
    (acts h' = answered CFork (pids ++ [0]) ∧ out 1 h' = [] ∨
     length pids = todo ∧ acts h' = answered CFork pids ∧ out 1 h' = str "fork claimed to work N times!" ++ [10] ∨
     ∃ f a s, f < 0 ∧ acts h' = answered CFork (pids ++ [f]) ++ a ∧ ft_waited (n + length pids) a s ∧ out 1 h' = str s ++ [10])) as H.
  { induction todo as [|todo IH]; intros n h; cbn [ft_fork].
    - destruct (run_ft_printf o "fork claimed to work N times!" Exit h) as (h' & E & A & O). exists [], h'. split_and!; [done|done|done|]. right. left. done.
    - rewrite run_call by done. set (r := o h CFork). case_bool_decide as Hneg; [|case_bool_decide as Hz].
      + destruct (ft_wait_run o n (h ++ [(CFork, r)])) as (h' & s & E & O & Hw). exists [], ([(CFork, r)] ++ h'). rewrite E, <- app_assoc.
        split_and!; [cbn; lia|done|done|]. right. right. exists r, (acts h'), s. rewrite acts_app, out_app, Nat.add_0_r. done.
      + exists [], [(CFork, r)]. split_and!; [cbn; lia|done|done|]. left. by rewrite Hz.
      + destruct (IH (S n) (h ++ [(CFork, r)])) as (pids & h' & H1 & H2 & E & H3). exists (r :: pids), ([(CFork, r)] ++ h'). rewrite E, <- app_assoc.
        split_and!; [cbn; lia|constructor; [lia|done]|done|]. rewrite acts_app, out_app.
        destruct H3 as [(A & O)|[(L & A & O)|(f & a & s & Hf & A & Hw & O)]]; [left|right; left|right; right]; rewrite A, O; [done|split_and!; cbn; [lia|done|done]|].
        exists f, a, s. cbn [length]. rewrite Nat.add_succ_r. done. }
  destruct (H N 0%nat h0) as (pids & h' & H1 & H2 & E & H3). exists pids. split; [done|]. split; [done|]. cbv zeta. rewrite E, acts_app, out_app, A0, O0. cbn [app].
  destruct H3 as [(A & O)|[(L & A & O)|(f & a & s & Hf & A & Hw & O)]]; [left|right; left|right; right]; rewrite A, O; [done|done|].
  by exists f, a, s.
Qed.

(** ** init *)

(** A kernel that answers the calls other than [write] with [script]. *)
Definition follows (o : answers) (script : list Z) : Prop := ∀ h c, is_write c = false → o h c = default (-1) (script !! length (acts h)).

(** A round of init: the shell's pid, and the orphans that end before it. *)
Record round := Round { rd_pid : Z; rd_orphans : list Z }.
Definition round_ok (fuel : nat) (r : round) : Prop :=
  0 < rd_pid r ∧ Forall (λ z, 0 ≤ z ∧ z ≠ rd_pid r) (rd_orphans r) ∧ (length (rd_orphans r) < fuel)%nat.
Definition round_script (r : round) : list Z := rd_pid r :: rd_orphans r ++ [rd_pid r].
Definition round_acts (r : round) : history := (CFork, rd_pid r) :: answered CWait (rd_orphans r ++ [rd_pid r]).
Definition round_out (r : round) : list Z := str "init: starting sh" ++ [10] ++ (rd_orphans r ≫= λ _, str "zombie!" ++ [10]).

Lemma follows_run o script c k h h' r :
  follows o script → is_write c = false → (∀ p a, c ≠ CExec p a) → script !! length (acts h) = Some r → h' = h ++ [(c, r)] → run o (Call c k) h = run o (k r) h'.
Proof. intros Hf Hw Hc Hr ->. rewrite run_call by done. by rewrite (Hf h c Hw), Hr. Qed.

Lemma acts_snoc h c r : is_write c = false → acts (h ++ [(c, r)]) = acts h ++ [(c, r)].
Proof. intros H. rewrite acts_app. unfold acts at 2. by rewrite filter_cons_True. Qed.
Lemma out_snoc fd h c r : is_write c = false → out fd (h ++ [(c, r)]) = out fd h.
Proof. intros H. rewrite out_app. unfold out at 2. cbn. destruct c; cbn; by rewrite ?app_nil_r. Qed.

Lemma init_wait_run o script fuel pid zs next h :
  follows o script → 0 < pid → Forall (λ z, 0 ≤ z ∧ z ≠ pid) zs → (length zs < fuel)%nat →
  (∀ i z, (zs ++ [pid]) !! i = Some z → script !! (length (acts h) + i)%nat = Some z) →
  ∃ h', run o (init_wait fuel pid next) h = run o next (h ++ h') ∧ acts h' = answered CWait (zs ++ [pid]) ∧ out 1 h' = zs ≫= λ _, str "zombie!" ++ [10].
Proof.
  intros Hf Hpid Hzs. revert fuel h. induction Hzs as [|z zs [Hz Hne] _ IH]; intros fuel h Hfuel Hs; (destruct fuel as [|fuel]; [lia|]); cbn [init_wait].
  - erewrite follows_run; [|exact Hf|done|done|rewrite <- (Nat.add_0_r (length (acts h))); by apply (Hs 0%nat)|reflexivity].
    rewrite (bool_decide_false (pid ≠ pid)), andb_false_r by (by intros []). by exists [(CWait, pid)].
  - erewrite follows_run; [|exact Hf|done|done|rewrite <- (Nat.add_0_r (length (acts h))); by apply (Hs 0%nat)|reflexivity].
    rewrite !bool_decide_true by done. cbn [andb].
    destruct (run_printf o 1 ("zombie!" +:+ nl) [] (init_wait fuel pid next) (h ++ [(CWait, z)]) _ eq_refl) as (h1 & E1 & A1 & O1).
    destruct (IH fuel ((h ++ [(CWait, z)]) ++ h1)) as (h2 & E2 & A2 & O2); [cbn in Hfuel; lia| |].
    { intros i z' Hi. rewrite acts_app, A1, app_nil_r, acts_snoc, length_app by done. cbn [length]. rewrite <- Nat.add_assoc. by apply (Hs (S i)). }
    exists ([(CWait, z)] ++ h1 ++ h2). rewrite E1, E2, !acts_app, !out_app, A1, A2, O1, O2, <- !app_assoc. done.
Qed.

Lemma init_loop_run o script fuel rounds h :
  follows o script → Forall (round_ok fuel) rounds → (∀ i z, (rounds ≫= round_script) !! i = Some z → script !! (length (acts h) + i)%nat = Some z) →
  ∃ h', run o (init_loop fuel (length rounds)) h = h ++ h' ∧ acts h' = rounds ≫= round_acts ∧ out 1 h' = rounds ≫= round_out.
Proof.
  intros Hf Hok. revert h. induction Hok as [|[pid zs] rounds (Hpid & Hzs & Hlen) _ IH]; intros h Hs; [exists []; by rewrite app_nil_r|]. cbn [rd_pid rd_orphans] in *.
  cbn [length init_loop]. destruct (run_printf o 1 ("init: starting sh" +:+ nl) [] (Call CFork (λ pid,
    if bool_decide (pid < 0) then uprintf 1 ("init: fork failed" +:+ nl) [] Exit
    else if bool_decide (pid = 0) then call_ (CExec (str "sh") [str "sh"]) (uprintf 1 ("init: exec sh failed" +:+ nl) [] Exit)
    else init_wait fuel pid (init_loop fuel (length rounds)))) h _ eq_refl) as (h0 & E0 & A0 & O0). rewrite E0.
  assert (length (acts (h ++ h0)) = length (acts h)) as El by (by rewrite acts_app, A0, app_nil_r).
  erewrite follows_run; [|exact Hf|done|done|rewrite El, <- (Nat.add_0_r (length (acts h))); by apply (Hs 0%nat)|reflexivity].
  cbn [rd_pid]. rewrite (bool_decide_false (pid < 0)), (bool_decide_false (pid = 0)) by lia. set (h1 := (h ++ h0) ++ [(CFork, pid)]).
  assert (length (acts h1) = S (length (acts h))) as El1 by (unfold h1; rewrite acts_snoc, length_app, El by done; cbn; lia).
  destruct (init_wait_run o script fuel pid zs (init_loop fuel (length rounds)) h1 Hf Hpid Hzs Hlen) as (h2 & E2 & A2 & O2).
  { intros i z Hi. rewrite El1, Nat.add_succ_comm. apply (Hs (S i)). cbn. by apply lookup_app_l_Some. }
  rewrite E2. destruct (IH (h1 ++ h2)) as (h3 & E3 & A3 & O3).
  { intros i z Hi. replace (length (acts (h1 ++ h2)) + i)%nat with (length (acts h) + (length (round_script (Round pid zs)) + i))%nat.
    - apply Hs. cbn [mbind list_bind]. rewrite lookup_app_r by lia. replace (_ - _)%nat with i by lia. exact Hi.
    - rewrite acts_app, length_app, El1, A2. unfold answered, round_script. rewrite length_fmap. cbn. lia. }
  exists (h0 ++ [(CFork, pid)] ++ h2 ++ h3). rewrite E3. unfold h1. rewrite <- !app_assoc, !acts_app, !out_app, A0, A2, A3, O0, O2, O3. split_and!; done.
Qed.

(** init keeps a shell running.  On a kernel whose console exists, init
    opens it as descriptors 0, 1 and 2, and then starts a shell, waits until that
    shell ends, reporting every orphan that ends before it, and starts the
    next one: for any number of rounds, with fewer orphans in each than the
    bound on the waits. *)
Theorem init_restarts o fuel rounds :
  Forall (round_ok fuel) rounds → follows o ([0; 1; 2] ++ (rounds ≫= round_script)) →
  let h := run o (init_main fuel (length rounds)) [] in
  acts h = [(COpen (str "console") O_RDWR, 0); (CDup 0, 1); (CDup 0, 2)] ++ (rounds ≫= round_acts) ∧ out 1 h = rounds ≫= round_out.
Proof.
  intros Hok Hf h. set (h0 := [(COpen (str "console") O_RDWR, 0); (CDup 0, 1); (CDup 0, 2)]).
  destruct (init_loop_run o _ fuel rounds h0 Hf Hok) as (h' & E & A & O); [intros i z Hi; exact Hi|].
  assert (h = h0 ++ h') as ->; [|by rewrite acts_app, out_app, A, O].
  rewrite <- E. unfold h, init_main. cbv zeta. erewrite follows_run; [|exact Hf|done|done|reflexivity|reflexivity]. rewrite bool_decide_false by lia.
  unfold call_ at 1. erewrite follows_run; [|exact Hf|done|done|reflexivity|reflexivity].
  unfold call_ at 1. erewrite follows_run; [|exact Hf|done|done|reflexivity|reflexivity]. done.
Qed.

Example init_round :
  let o : answers := λ h c, default (-1) ([0; 1; 2; 3; 7; 3; 4; 4] !! length (acts h)) in
  acts (run o (init_main 5 2) []) =
    [(COpen (str "console") O_RDWR, 0); (CDup 0, 1); (CDup 0, 2); (CFork, 3); (CWait, 7); (CWait, 3); (CFork, 4); (CWait, 4)].
Proof. by vm_compute. Qed.

(** The names after one that cannot be removed are left alone. *)
Example rm_stops :
  let o : answers := λ h c, if bool_decide (c = CUnlink (str "b")) then -1 else 0 in
  let h := run o (rm_main [str "rm"; str "a"; str "b"; str "c"]) [] in
  acts h = [(CUnlink (str "a"), 0); (CUnlink (str "b"), -1)] ∧ out 2 h = str "rm: b failed to delete" ++ [10].
Proof. by vm_compute. Qed.
