(* ===== verification/Mp.v ===== *)
(** Finding the processors at boot (src/mp.c, src/mp.h): the search for the
    tables that the BIOS leaves in memory, and the loop over their entries.

    Memory is the function from addresses to bytes.  The theorem gives the
    result of [mpinit] on a table of known entries, and shows that an unknown
    entry makes it loop for ever. *)
From S2P Require Import Prelude Layout.

(** [sizeof(struct mp)], [sizeof(struct mpconf)], [sizeof(struct mpproc)],
    [sizeof(struct mpioapic)] *)
Definition sizeof_mp : Z := 16.
Definition sizeof_mpconf : Z := 44.
Definition sizeof_mpproc : Z := 20.
Definition sizeof_mpioapic : Z := 8.

Definition MPPROC : Z := 0.
Definition MPBUS : Z := 1.
Definition MPIOAPIC : Z := 2.
Definition MPIOINTR : Z := 3.
Definition MPLINTR : Z := 4.

(** [cpus[0..ncpu)] by their [apicid], [ioapicid] and [lapic]. *)
Record mpstate := MpState { mp_cpus : list Z; ioapicid : Z; lapic : Z }.

Section mp.
Context (mem : Z → Z).

(** Fields of the structures. *)
Definition word16 (a : Z) : Z := mem a + 256 * mem (a + 1).
Definition word32 (a : Z) : Z := word16 a + 65536 * word16 (a + 2).
Definition mp_physaddr (mp : Z) : Z := word32 (mp + 4).
Definition mp_imcrp (mp : Z) : Z := mem (mp + 12).
Definition conf_length (c : Z) : Z := word16 (c + 4).
Definition conf_version (c : Z) : Z := mem (c + 6).
Definition conf_lapicaddr (c : Z) : Z := word32 (c + 36).

Definition mp_sum (addr len : Z) : Z := u8 (foldr (λ i n, mem (addr + Z.of_nat i) + n) 0 (seq 0 (Z.to_nat len))).
Definition signature (a : Z) (s : string) : bool := bool_decide ((λ i, mem (a + Z.of_nat i)) <$> seq 0 4 = str s).

Fixpoint mpsearch_loop (n : nat) (p : Z) : option Z :=
  match n with
  | O => None
  | S n' => if signature p "_MP_" && bool_decide (mp_sum p sizeof_mp = 0) then Some p else mpsearch_loop n' (p + sizeof_mp)
  end.
(** [len] is a multiple of [sizeof(struct mp)] in every call. *)
Definition mpsearch1 (a len : Z) : option Z := mpsearch_loop (Z.to_nat (len / sizeof_mp)) (P2V a).
Definition mpsearch : option Z :=
  let bda := P2V 1024 in
  let p := Z.shiftl (Z.lor (Z.shiftl (mem (bda + 15)) 8) (mem (bda + 14))) 4 in
  let o :=
    if bool_decide (p ≠ 0) then mpsearch1 p 1024
    else mpsearch1 (u32 (Z.lor (Z.shiftl (mem (bda + 20)) 8) (mem (bda + 19)) * 1024 - 1024)) 1024 in
  match o with Some mp => Some mp | None => mpsearch1 983040 65536 end.

(** The structure and the table. *)
Definition mpconfig : option (Z * Z) :=
  match mpsearch with
  | None => None
  | Some mp =>
      if bool_decide (mp_physaddr mp = 0) then None else
      let conf := P2V (mp_physaddr mp) in
      if negb (signature conf "PCMP") then None
      else if bool_decide (conf_version conf ≠ 1) && bool_decide (conf_version conf ≠ 4) then None
      else if bool_decide (mp_sum conf (conf_length conf) ≠ 0) then None
      else Some (mp, conf)
  end.

(** The loop of [mpinit]; its [break] only leaves the [switch]. *)
Fixpoint mpinit_loop (fuel : nat) (p e : Z) (ismp : bool) : M mpstate bool :=
  match fuel with
  | O => undef
  | S fuel' =>
      if bool_decide (p < e) then
        let t := mem p in
        if bool_decide (t = MPPROC) then
          modify (λ s, if bool_decide (length (mp_cpus s) < NCPU)%nat then MpState (mp_cpus s ++ [mem (p + 1)]) (ioapicid s) (lapic s) else s);;
          mpinit_loop fuel' (p + sizeof_mpproc) e ismp
        else if bool_decide (t = MPIOAPIC) then
          modify (λ s, MpState (mp_cpus s) (mem (p + 1)) (lapic s));;
          mpinit_loop fuel' (p + sizeof_mpioapic) e ismp
        else if bool_decide (t = MPBUS) || bool_decide (t = MPIOINTR) || bool_decide (t = MPLINTR) then mpinit_loop fuel' (p + 8) e ismp
        else mpinit_loop fuel' p e false
      else mret ismp
  end.
(** [imcr] is what [inb(0x23)] gives. *)
Definition mpinit (fuel : nat) (imcr : Z) : M mpstate unit :=
  match mpconfig with
  | None => panic "Expect to run on an SMP"
  | Some (mp, conf) =>
      modify (λ s, MpState (mp_cpus s) (ioapicid s) (conf_lapicaddr conf));;
      ismp ← mpinit_loop fuel (conf + sizeof_mpconf) (conf + conf_length conf) true;
      panic_if (negb ismp) "Didn't find a suitable machine";;
      if bool_decide (mp_imcrp mp ≠ 0) then emit (EvOut 34 112);; emit (EvOut 35 (Z.lor imcr 1)) else mret tt
  end.

(** * Tables *)

Inductive entry : Type := Proc (apicid : Z) | Bus | Ioapic (apicno : Z) | Iointr | Lintr.
Definition entry_type (x : entry) : Z := match x with Proc _ => 0 | Bus => 1 | Ioapic _ => 2 | Iointr => 3 | Lintr => 4 end.
Definition entry_size (x : entry) : Z := match x with Proc _ => 20 | _ => 8 end.
Definition entry_ok (p : Z) (x : entry) : Prop :=
  mem p = entry_type x ∧ match x with Proc n | Ioapic n => mem (p + 1) = n | _ => True end.
(** The entries [xs] fill the memory from [p] to [e]. *)
Fixpoint table (p e : Z) (xs : list entry) : Prop :=
  match xs with
  | [] => p = e
  | x :: xs' => p < e ∧ entry_ok p x ∧ table (p + entry_size x) e xs'
  end.
Definition procs_of (xs : list entry) : list Z := omap (λ x, match x with Proc n => Some n | _ => None end) xs.
Definition ioapic_of (xs : list entry) (d : Z) : Z := foldl (λ d x, match x with Ioapic n => n | _ => d end) d xs.

(** Decide comparisons of two numerals. *)
Ltac known_type := repeat match goal with
  | |- context [bool_decide (?a = ?b)] =>
      let v := eval vm_compute in (bool_decide (a = b)) in match v with true => idtac | false => idtac end; change (bool_decide (a = b)) with v
  end; cbn [orb].

Lemma loop_table fuel p e xs s :
  table p e xs → (length xs < fuel)%nat → (length (mp_cpus s) ≤ NCPU)%nat →
  mpinit_loop fuel p e true s = Ret true (MpState (take NCPU (mp_cpus s ++ procs_of xs)) (ioapic_of xs (ioapicid s)) (lapic s)) [].
Proof.
  revert fuel p s. induction xs as [|x xs IH]; intros fuel p s Ht Hf Hn; (destruct fuel as [|fuel]; [simpl in Hf; lia|]); cbn [mpinit_loop].
  - simpl in Ht. rewrite bool_decide_false by lia. cbn. rewrite app_nil_r, take_ge by done. by destruct s.
  - destruct Ht as (Hp & [Hty Hx] & Ht). rewrite bool_decide_true by done. simpl in Hf. cbn zeta. rewrite Hty.
    destruct x as [n| |n| |]; cbn [entry_type]; unfold MPPROC, MPIOAPIC, MPBUS, MPIOINTR, MPLINTR.
    all: known_type.
    + rewrite bind_modify. case_bool_decide as Hc.
      * rewrite IH; [|done|lia|cbn [mp_cpus]; rewrite length_app; simpl; lia]. cbn [mp_cpus ioapicid lapic]. rewrite Hx, <- (assoc_L (++)). done.
      * rewrite IH; [|done|lia|done]. rewrite !take_app_ge by lia. replace (NCPU - length (mp_cpus s))%nat with 0%nat by lia. done.
    + apply IH; [done|lia|done].
    + rewrite bind_modify. rewrite IH; [|done|lia|done]. cbn [mp_cpus ioapicid lapic]. by rewrite Hx.
    + apply IH; [done|lia|done].
    + apply IH; [done|lia|done].
Qed.
Lemma loop_unknown fuel p e b s : p < e → 4 < mem p → mpinit_loop fuel p e b s = Undef.
Proof.
  intros Hp Ht. revert b. induction fuel as [|fuel IH]; intros b; [done|]. cbn [mpinit_loop]. rewrite bool_decide_true by done. cbn zeta.
  unfold MPPROC, MPIOAPIC, MPBUS, MPIOINTR, MPLINTR. rewrite !(bool_decide_false (mem p = _)) by lia. apply IH.
Qed.
(** Known entries come before. *)
Lemma loop_after fuel p q e xs b s :
  table p q xs → q ≤ e → mpinit_loop fuel p e b s = Undef ∨ ∃ fuel' s', (fuel' < fuel)%nat ∧ mpinit_loop fuel p e b s = mpinit_loop (S fuel') q e b s'.
Proof.
  revert fuel p s. induction xs as [|x xs IH]; intros fuel p s Ht Hq; (destruct fuel as [|fuel]; [by left|]).
  - simpl in Ht. subst q. right. exists fuel, s. split; [lia|done].
  - destruct Ht as (Hp & [Hty _] & Ht). cbn [mpinit_loop]. rewrite bool_decide_true by lia. cbn zeta. rewrite Hty.
    destruct x as [n| |n| |]; cbn [entry_type]; unfold MPPROC, MPIOAPIC, MPBUS, MPIOINTR, MPLINTR.
    all: known_type.
    all: rewrite ?bind_modify; match goal with |- mpinit_loop _ ?p' _ _ ?s' = _ ∨ _ => destruct (IH fuel p' s' Ht Hq) as [H|(k & s2 & Hk & H)] end;
      [by left|right; exists k, s2; split; [lia|exact H]].
Qed.
End mp.

(** C39: the processors are found, or the boot hangs.  When the configuration
    table at [conf] passes the checks of [mpconfig] and its entries are of the
    five known types, [mpinit] returns with the APIC numbers of the first
    [NCPU] processors in the order of the table, never more, the number of the
    last I/O APIC, and the address of the local APIC.  When after some known
    entries comes one of another type, the loop of [mpinit] never ends, since
    its [break] does not leave the loop: no amount of fuel lets it reach the
    panic that reports the machine as unsuitable. *)
Theorem mpinit_table mem mp conf fuel imcr s xs :
  mpconfig mem = Some (mp, conf) → (length (mp_cpus s) ≤ NCPU)%nat →
  let p := conf + sizeof_mpconf in
  let e := conf + conf_length mem conf in
  (table mem p e xs → (length xs < fuel)%nat →
     ∃ t, mpinit mem fuel imcr s = Ret tt (MpState (take NCPU (mp_cpus s ++ procs_of xs)) (ioapic_of xs (ioapicid s)) (conf_lapicaddr mem conf)) t) ∧
  (∀ q, table mem p q xs → q < e → 4 < mem q → mpinit mem fuel imcr s = Undef).
Proof.
  intros Hc Hn p e. unfold mpinit. rewrite Hc, bind_modify. split.
  - intros Ht Hf. mstep (loop_table mem fuel p e xs (MpState (mp_cpus s) (ioapicid s) (conf_lapicaddr mem conf)) Ht Hf Hn). cbn [negb panic_if]. rewrite bind_mret.
    case_bool_decide; by eexists.
  - intros q Ht Hq H4. set (s1 := MpState _ _ _). assert (mpinit_loop mem fuel p e true s1 = Undef) as R; [|fold p e; unfold mbind, M_bind; by rewrite R].
    destruct (loop_after mem fuel p q e xs true s1 Ht) as [R|(k & s2 & _ & R)]; [lia|done|]. rewrite R. by apply loop_unknown.
Qed.

(** A memory with a structure at 0xF0000 and a table of one processor and one
    I/O APIC after it. *)
Definition ex_table : list Z :=
  str "PCMP" ++ [72; 0; 1; 0] ++ replicate 28 0 ++ [0; 0; 224; 254] ++ replicate 4 0 ++ [0; 7] ++ replicate 18 0 ++ [2; 9] ++ replicate 6 0.
Definition ex_mp : list Z := str "_MP_" ++ [16; 0; 15; 0; 1; 4; 0; 0; 0; 0; 0; 0].
(** The checksum bytes. *)
Definition fix_sum (k : nat) (l : list Z) : list Z := <[k := (- foldr Z.add 0 (<[k := 0]> l)) mod 256]> l.
Definition ex_bios (a : Z) : Z :=
  if bool_decide (a < P2V 983040) then 0 else default 0 ((fix_sum 10 ex_mp ++ fix_sum 7 ex_table) !! Z.to_nat (a - P2V 983040)).
Lemma mpinit_table_witness :
  ∃ t, mpinit ex_bios 9 0 (MpState [] 0 0) = Ret tt (MpState [7] 9 4276092928) t.
Proof.
  destruct (mpinit_table ex_bios (P2V 983040) (P2V 983056) 9 0 (MpState [] 0 0) [Proc 7; Ioapic 9]) as [H _]; [by vm_compute|simpl; lia|].
  destruct H as [t R]; [|simpl; lia|]; [|exists t; rewrite R; by vm_compute].
  cbn [table entry_size]. split_and!; by vm_compute.
Defined.
