(* ===== verification/Bootmain.v ===== *)
(** The boot loader (src/bootmain.c): it reads the kernel, an ELF file that
    starts at sector 1 of the disk, into memory.

    Memory and disk are functions from addresses to bytes.  A read always
    transfers whole sectors, so it also writes before and behind the bytes
    asked for; the theorem shows that with segments in the order of their
    addresses this does no harm. *)
From stdpp Require Import sorting.
From S2P Require Import Prelude Layout Bytes.

Definition SECTSIZE : Z := 512.
Definition memory : Type := Z → Z.

Section boot.
(** The byte at an offset of the disk. *)
Context (disk : Z → Z).

(** [len] bytes at [a] become those of [f]. *)
Definition fill (a len : Z) (f : Z → Z) (mem : memory) : memory := λ x, if bool_decide (a ≤ x < a + len) then f (x - a) else mem x.
(** The sector number that the four registers hold after [outb]. *)
Definition lba (offset : Z) : Z :=
  u8 offset + 256 * u8 (Z.shiftr offset 8) + 65536 * u8 (Z.shiftr offset 16) + 16777216 * Z.land (u8 (Z.lor (Z.shiftr offset 24) 224)) 15.
Definition readsect (dst offset : Z) (mem : memory) : memory := fill dst SECTSIZE (λ i, disk (SECTSIZE * lba offset + i)) mem.

Fixpoint readseg_loop (fuel : nat) (pa epa offset : Z) (mem : memory) : option memory :=
  match fuel with
  | O => None
  | S fuel' =>
      if bool_decide (pa < epa) then readseg_loop fuel' (u32 (pa + SECTSIZE)) epa (u32 (offset + 1)) (readsect pa offset mem)
      else Some mem
  end.
Definition readseg (pa count offset : Z) (mem : memory) : option memory :=
  let epa := u32 (pa + count) in
  let pa := u32 (pa - offset mod SECTSIZE) in
  let offset := offset / SECTSIZE + 1 in
  readseg_loop (Z.to_nat (count / SECTSIZE) + 3) pa epa offset mem.

(** Words of memory, and the fields of the headers (src/elf.h). *)
Definition half (mem : memory) (a : Z) : Z := mem a + 256 * mem (a + 1).
Definition word (mem : memory) (a : Z) : Z := half mem a + 65536 * half mem (a + 2).
Record segment := Segment { sg_off : Z; sg_paddr : Z; sg_filesz : Z; sg_memsz : Z }.
Definition segment_at (mem : memory) (a : Z) : segment := Segment (word mem (a + 4)) (word mem (a + 12)) (word mem (a + 16)) (word mem (a + 20)).
Definition elf_entry (mem : memory) (a : Z) : Z := word mem (a + 24).
Definition elf_phoff (mem : memory) (a : Z) : Z := word mem (a + 28).
Definition elf_phnum (mem : memory) (a : Z) : Z := half mem (a + 44).

Definition elf : Z := 65536.

(** The loop over the program headers at [ph]. *)
Fixpoint boot_loop (n : nat) (ph : Z) (mem : memory) : option memory :=
  match n with
  | O => Some mem
  | S n' =>
      let s := segment_at mem ph in
      mem ← readseg (sg_paddr s) (sg_filesz s) (sg_off s) mem;
      let mem := if bool_decide (sg_filesz s < sg_memsz s) then fill (sg_paddr s + sg_filesz s) (sg_memsz s - sg_filesz s) (λ _, 0) mem else mem in
      boot_loop n' (ph + sizeof_proghdr) mem
  end.
(** The memory and the entry point that is called; no entry point when the
    image is not an ELF file. *)
Definition bootmain (mem : memory) : option (memory * option Z) :=
  mem ← readseg elf 4096 0 mem;
  if bool_decide (word mem elf ≠ ELF_MAGIC) then Some (mem, None)
  else
    mem ← boot_loop (Z.to_nat (elf_phnum mem elf)) (elf + elf_phoff mem elf) mem;
    Some (mem, Some (elf_entry mem elf)).

(** * Reading *)

(** The kernel file. *)
Definition file (i : Z) : Z := disk (SECTSIZE + i).

Lemma lba_id n : 0 ≤ n < 268435456 → lba n = n.
Proof.
  intros Hn. unfold lba. rewrite !Z.shiftr_div_pow2 by lia. change (2 ^ 8) with 256. change (2 ^ 16) with 65536. change (2 ^ 24) with 16777216.
  assert (0 ≤ n / 16777216 < 16) as Hh by (Z.div_mod_to_equations; lia).
  assert (Z.land (u8 (Z.lor (n / 16777216) 224)) 15 = n / 16777216) as ->.
  { generalize dependent (n / 16777216). intros h Hh. assert (h = 0 ∨ h = 1 ∨ h = 2 ∨ h = 3 ∨ h = 4 ∨ h = 5 ∨ h = 6 ∨ h = 7 ∨ h = 8 ∨ h = 9 ∨ h = 10 ∨ h = 11 ∨ h = 12 ∨ h = 13 ∨ h = 14 ∨ h = 15) as H by lia.
    repeat destruct H as [->|H]; [reflexivity..|]. by subst h. }
  unfold u8. Z.div_mod_to_equations. lia.
Qed.

(** The loop reads the sectors that are still missing. *)
Lemma readseg_loop_run fuel pa epa sec mem :
  0 ≤ pa → epa + 512 < 4294967296 → 0 ≤ sec → sec + (epa - pa) / 512 + 1 < 268435456 → pa < epa + 512 → (Z.to_nat ((epa - pa + 511) / 512) < fuel)%nat →
  ∃ mem', readseg_loop fuel pa epa sec mem = Some mem' ∧
    (∀ x, pa ≤ x < epa → mem' x = disk (512 * sec + (x - pa))) ∧ (∀ x, x < pa ∨ epa + 511 ≤ x → mem' x = mem x).
Proof.
  revert pa sec mem. induction fuel as [|fuel IH]; intros pa sec mem Hpa He Hs Hsec Hlt Hf; [lia|]. cbn [readseg_loop]. unfold SECTSIZE. case_bool_decide as Hc.
  - rewrite !u32_small by (Z.div_mod_to_equations; lia).
    destruct (IH (pa + 512) (sec + 1) (readsect pa sec mem)) as (mem' & R & H1 & H2); [lia|lia|lia|Z.div_mod_to_equations; lia|lia| |].
    { assert ((epa - pa + 511) / 512 = (epa - (pa + 512) + 511) / 512 + 1) as E by (Z.div_mod_to_equations; lia).
      assert (0 ≤ (epa - (pa + 512) + 511) / 512) by (Z.div_mod_to_equations; lia). lia. }
    exists mem'. split_and!; [done| |].
    + intros x Hx. destruct (decide (pa + 512 ≤ x)) as [Hge|Hlt'].
      * rewrite H1 by lia. f_equal. lia.
      * rewrite H2 by lia. unfold readsect, fill, SECTSIZE. rewrite bool_decide_true by lia. rewrite lba_id by (Z.div_mod_to_equations; lia). done.
    + intros x Hx. rewrite H2 by lia. unfold readsect, fill, SECTSIZE. rewrite bool_decide_false by lia. done.
  - exists mem. split_and!; [done|lia|done].
Qed.
Lemma readseg_run pa count off mem :
  511 ≤ pa → 0 ≤ count → 0 ≤ off → pa + count + 512 < 4294967296 → off + count < 134217728 →
  ∃ mem', readseg pa count off mem = Some mem' ∧ (∀ x, pa ≤ x < pa + count → mem' x = file (off + (x - pa))) ∧
    (∀ x, x < pa - off mod 512 ∨ pa + count + 511 ≤ x → mem' x = mem x).
Proof.
  intros Hpa Hc Ho Hhi Hoff. unfold readseg. cbn zeta. unfold SECTSIZE. pose proof (Z.mod_pos_bound off 512 ltac:(lia)). rewrite !u32_small by lia.
  destruct (readseg_loop_run (Z.to_nat (count / 512) + 3) (pa - off mod 512) (pa + count) (off / 512 + 1) mem) as (mem' & R & H1 & H2).
  1-6: Z.div_mod_to_equations; lia.
  exists mem'. split_and!; [done| |done]. intros x Hx. rewrite H1 by lia. unfold file, SECTSIZE. f_equal. Z.div_mod_to_equations. lia.
Qed.

(** * Loading *)

(** A segment that can be loaded: above the scratch page, even rounded down,
    and within the reach of the disk commands. *)
Definition low (s : segment) : Z := sg_paddr s - sg_off s mod 512.
Definition seg_end (s : segment) : Z := sg_paddr s + Z.max (sg_filesz s) (sg_memsz s).
Definition seg_ok (s : segment) : Prop :=
  0 ≤ sg_off s ∧ 0 ≤ sg_filesz s ∧ 0 ≤ sg_memsz s ∧ elf + 4096 ≤ low s ∧ seg_end s + 512 < 4294967296 ∧ sg_off s + sg_filesz s < 134217728.
Definition before (s s' : segment) : Prop := seg_end s ≤ low s'.
Definition loaded (mem : memory) (s : segment) : Prop :=
  (∀ x, sg_paddr s ≤ x < sg_paddr s + sg_filesz s → mem x = file (sg_off s + (x - sg_paddr s))) ∧
  (∀ x, sg_paddr s + sg_filesz s ≤ x < sg_paddr s + sg_memsz s → mem x = 0).

Lemma word_same mem mem' a a' : (∀ i, 0 ≤ i < 4 → mem' (a' + i) = mem (a + i)) → word mem' a' = word mem a ∧ half mem' a' = half mem a.
Proof.
  intros H. pose proof (H 0 ltac:(lia)) as H0. pose proof (H 1 ltac:(lia)) as H1. pose proof (H 2 ltac:(lia)) as H2. pose proof (H 3 ltac:(lia)) as H3.
  rewrite !Z.add_0_r in H0. unfold word, half. rewrite <- !Z.add_assoc. change (2 + 1) with 3. by rewrite H0, H1, H2, H3.
Qed.
Lemma segment_same mem mem' a a' : (∀ i, 0 ≤ i < 32 → mem' (a' + i) = mem (a + i)) → segment_at mem' a' = segment_at mem a.
Proof. intros H. unfold segment_at. f_equal; apply word_same; intros i Hi; rewrite <- !Z.add_assoc; apply H; lia. Qed.

(** One segment. *)
Lemma segment_run s mem :
  seg_ok s →
  ∃ mem1, readseg (sg_paddr s) (sg_filesz s) (sg_off s) mem = Some mem1 ∧
    let mem2 := if bool_decide (sg_filesz s < sg_memsz s) then fill (sg_paddr s + sg_filesz s) (sg_memsz s - sg_filesz s) (λ _, 0) mem1 else mem1 in
    loaded mem2 s ∧ ∀ x, x < low s → mem2 x = mem x.
Proof.
  intros (Ho & Hf & Hm & Hl & He & Hd). unfold low, seg_end, elf in *. pose proof (Z.mod_pos_bound (sg_off s) 512 ltac:(lia)).
  destruct (readseg_run (sg_paddr s) (sg_filesz s) (sg_off s) mem) as (mem1 & R & H1 & H2); [lia|lia|lia|lia|lia|]. exists mem1. split; [done|]. cbn zeta. case_bool_decide as Hc; unfold loaded, fill.
  - split_and!; intros x Hx; cbv beta; [rewrite bool_decide_false by lia; by apply H1|by rewrite bool_decide_true by lia|].
    rewrite bool_decide_false by lia. apply H2. lia.
  - split_and!; intros x Hx; [by apply H1|lia|apply H2; lia].
Qed.

Lemma boot_loop_run n ph mem :
  let segs := (λ i, segment_at mem (ph + 32 * Z.of_nat i)) <$> seq 0 n in
  elf ≤ ph → ph + 32 * Z.of_nat n ≤ elf + 4096 → Forall seg_ok segs → StronglySorted before segs →
  ∃ mem', boot_loop n ph mem = Some mem' ∧ Forall (loaded mem') segs ∧ ∀ x, Forall (λ s, x < low s) segs → mem' x = mem x.
Proof.
  revert ph mem. induction n as [|n IH]; intros ph mem; cbn zeta; intros Hlo Hhi Hok Hso; [exists mem; split_and!; [done|constructor|done]|].
  cbn [seq fmap list_fmap] in *. rewrite Z.mul_0_r, Z.add_0_r in *. set (s := segment_at mem ph) in *. rewrite <- fmap_S_seq, <- list_fmap_compose in *.
  apply Forall_cons in Hok as [Hs Hok]. apply StronglySorted_cons in Hso as [Hbs Hso]. destruct (segment_run s mem Hs) as (mem1 & R & Hld & Hlow). cbn [boot_loop]. fold s.
  cbn zeta. rewrite R. cbn [mbind option_bind]. cbn zeta in Hld, Hlow. set (mem2 := if bool_decide _ then _ else _) in *. unfold sizeof_proghdr.
  assert ((λ i, segment_at mem2 (ph + 32 + 32 * Z.of_nat i)) <$> seq 0 n = ((λ i, segment_at mem (ph + 32 * Z.of_nat i)) ∘ S) <$> seq 0 n) as E.
  { apply list_fmap_ext. intros i k [-> Hk]%lookup_seq. cbn. replace (ph + 32 + 32 * Z.of_nat i) with (ph + 32 * Z.of_nat (S i)) by lia.
    apply segment_same. intros j Hj. apply Hlow. destruct Hs as (_ & _ & _ & Hl & _). lia. }
  destruct (IH (ph + 32) mem2) as (mem' & R' & Hld' & Hlow'); [lia|lia|by rewrite E|by rewrite E|]. rewrite E in Hld', Hlow'.
  exists mem'. split_and!; [done| |].
  - constructor; [|done]. assert (∀ x, x < seg_end s → mem' x = mem2 x) as Hx.
    { intros x Hx. apply Hlow'. eapply Forall_impl; [exact Hbs|]. intros s' Hs'. unfold before in Hs'. lia. }
    destruct Hld as [Hl1 Hl2]. unfold seg_end in Hx. split; intros x Hx'; rewrite Hx by lia; [by apply Hl1|by apply Hl2].
  - intros x [Hx Hxs]%Forall_cons. rewrite Hlow' by done. by apply Hlow.
Qed.
End boot.


(** A file of one segment of three bytes, loaded at 1 MB with three more. *)
Definition ex_file : list Z :=
  le32 ELF_MAGIC ++ replicate 20 0 ++ le32 1048588 ++ le32 52 ++ replicate 12 0 ++ [1; 0] ++ replicate 6 0 ++
  le32 1 ++ le32 84 ++ le32 0 ++ le32 1048576 ++ le32 3 ++ le32 6 ++ replicate 8 0 ++ [11; 12; 13].
Definition ex_disk (a : Z) : Z := if bool_decide (a < 512) then 0 else default 0 (ex_file !! Z.to_nat (a - 512)).
