(* ===== verification/Startup.v ===== *)
(** From the first instruction to C: the boot sector (src/bootasm.S), the
    kernel's entry (src/entry.S) and the start of the other CPUs
    ([startothers] of src/main.c with src/entryother.S and src/asm.h).

    The state is that of the processor's modes: control registers, segment
    registers, stack and instruction pointer.  Physical memory is a function
    from addresses to words.  [linear] and [translate] are the processor's
    segmentation and paging, with pages of 4 kilobytes and of 4 megabytes; the
    instructions that the code shares with other files (moves between
    registers) appear as what they do to the state. *)
From S2P Require Import Prelude Layout Bytes Kalloc Segments Devices.

(** * The processor *)

Definition CR0_PE : Z := 1.
Definition CR0_WP : Z := 65536.
Definition CR0_PG : Z := 2147483648.
Definition CR4_PSE : Z := 16.
Definition PTE_PS : Z := 128.

Record sys := Sys {
  cr0 : Z; cr3 : Z; cr4 : Z;
  gdtr : list Z;                  (* the descriptors of the loaded table *)
  r_cs : Z; r_ds : Z; r_es : Z; r_ss : Z; r_fs : Z; r_gs : Z;
  r_esp : Z; r_eip : Z;
  r_if : bool                     (* interrupts are on *)
}.
Definition set_cr0 v s := Sys v (cr3 s) (cr4 s) (gdtr s) (r_cs s) (r_ds s) (r_es s) (r_ss s) (r_fs s) (r_gs s) (r_esp s) (r_eip s) (r_if s).
Definition set_cr3 v s := Sys (cr0 s) v (cr4 s) (gdtr s) (r_cs s) (r_ds s) (r_es s) (r_ss s) (r_fs s) (r_gs s) (r_esp s) (r_eip s) (r_if s).
Definition set_cr4 v s := Sys (cr0 s) (cr3 s) v (gdtr s) (r_cs s) (r_ds s) (r_es s) (r_ss s) (r_fs s) (r_gs s) (r_esp s) (r_eip s) (r_if s).
Definition set_gdtr v s := Sys (cr0 s) (cr3 s) (cr4 s) v (r_cs s) (r_ds s) (r_es s) (r_ss s) (r_fs s) (r_gs s) (r_esp s) (r_eip s) (r_if s).
Definition set_segs cs ds es ss fs gs s := Sys (cr0 s) (cr3 s) (cr4 s) (gdtr s) cs ds es ss fs gs (r_esp s) (r_eip s) (r_if s).
Definition set_esp v s := Sys (cr0 s) (cr3 s) (cr4 s) (gdtr s) (r_cs s) (r_ds s) (r_es s) (r_ss s) (r_fs s) (r_gs s) v (r_eip s) (r_if s).
Definition set_eip v s := Sys (cr0 s) (cr3 s) (cr4 s) (gdtr s) (r_cs s) (r_ds s) (r_es s) (r_ss s) (r_fs s) (r_gs s) (r_esp s) v (r_if s).
Definition cli s := Sys (cr0 s) (cr3 s) (cr4 s) (gdtr s) (r_cs s) (r_ds s) (r_es s) (r_ss s) (r_fs s) (r_gs s) (r_esp s) (r_eip s) false.

(** Segmentation: 16 times the register in real mode, the base of the
    descriptor in protected mode. *)
Definition linear (s : sys) (sel off : Z) : option Z :=
  if Z.testbit (cr0 s) 0 then
    d ← gdtr s !! Z.to_nat (sel / 8);
    if seg_present d && bool_decide (off ≤ seg_limit d) then Some (u32 (seg_base d + off)) else None
  else Some (16 * sel + off).

(** Paging. *)
Definition translate (s : sys) (mem : Z → Z) (va : Z) : option Z :=
  if Z.testbit (cr0 s) 31 then
    let pde := mem (cr3 s / 4096 * 4096 + 4 * (va / 4194304)) in
    if negb (Z.testbit pde 0) then None
    else if Z.testbit pde 7 && Z.testbit (cr4 s) 4 then Some (pde / 4194304 * 4194304 + va mod 4194304)
    else
      let pte := mem (pde / 4096 * 4096 + 4 * (va / 4096 mod 1024)) in
      if Z.testbit pte 0 then Some (pte / 4096 * 4096 + va mod 4096) else None
  else Some va.

(** A word that an instruction reads through the data segment. *)
Definition read_word (s : sys) (mem : Z → Z) (off : Z) : option Z := la ← linear s (r_ds s) off; pa ← translate s mem la; Some (mem pa).

(** * The bootstrap descriptor table (src/asm.h) *)

Definition SEG_NULLASM : Z := 0.
Definition SEG_ASM (type base lim : Z) : Z :=
  pack [(16, Z.land (Z.shiftr lim 12) 65535); (16, Z.land base 65535); (8, Z.land (Z.shiftr base 16) 255); (8, Z.lor 144 type);
        (8, Z.lor 192 (Z.land (Z.shiftr lim 28) 15)); (8, Z.land (Z.shiftr base 24) 255)].
Definition boot_gdt : list Z := [SEG_NULLASM; SEG_ASM (Z.lor STA_X STA_R) 0 4294967295; SEG_ASM STA_W 0 4294967295].

(** * src/bootasm.S *)

(** The code up to protected mode and the segment registers, which
    src/bootasm.S and src/entryother.S share. *)
Definition start16 (s : sys) : sys := set_segs (r_cs s) 0 0 0 (r_fs s) (r_gs s) (cli s).
Definition protect (start32 : Z) (s : sys) : sys :=
  let s := set_gdtr boot_gdt s in
  let s := set_cr0 (Z.lor (cr0 s) CR0_PE) s in
  set_eip start32 (set_segs (Z.shiftl SEG_KCODE 3) (r_ds s) (r_es s) (r_ss s) (r_fs s) (r_gs s) s).
Definition load_segs (s : sys) : sys :=
  let k := Z.shiftl SEG_KDATA 3 in set_segs (r_cs s) k k k 0 0 s.

(** [seta20.1] and [seta20.2]: wait until the controller is not busy. *)
Fixpoint seta20_wait (status : list Z) : option (list Z) :=
  match status with
  | [] => None
  | b :: status' => if bool_decide (Z.land b 2 = 0) then Some status' else seta20_wait status'
  end.
(** [status]: what the controller answers; the result holds the bytes written
    to ports. *)
Definition bootasm (start start32 bootmain : Z) (status : list Z) (s : sys) : option (sys * list (Z * Z)) :=
  let s := start16 s in
  status ← seta20_wait status;
  status ← seta20_wait status;
  let s := load_segs (protect start32 s) in
  Some (set_eip bootmain (set_esp (start - 4) s), [(100, 209); (96, 223)]).

(** * src/entry.S *)

(** [pgdir] is the address of [entrypgdir], [stack] that of [stack], [main]
    that of [main]. *)
Definition entry (pgdir stack main : Z) (s : sys) : sys :=
  let s := set_cr4 (Z.lor (cr4 s) CR4_PSE) s in
  let s := set_cr3 (V2P pgdir) s in
  let s := set_cr0 (Z.lor (cr0 s) (Z.lor CR0_PG CR0_WP)) s in
  set_eip main (set_esp (stack + KSTACKSIZE) s).

(** [entrypgdir] (src/main.c) *)
Definition entrypgdir (i : nat) : Z :=
  if bool_decide (i = 0%nat) then Z.lor (Z.lor (Z.lor 0 PTE_P) PTE_W) PTE_PS
  else if bool_decide (i = Z.to_nat (Z.shiftr KERNBASE 22)) then Z.lor (Z.lor (Z.lor 0 PTE_P) PTE_W) PTE_PS
  else 0.

(** * src/entryother.S *)

(** Run at [start]; none if an access faults. *)
Definition entryother (start start32 : Z) (mem : Z → Z) (s : sys) : option sys :=
  let s := load_segs (protect start32 (start16 s)) in
  let s := set_cr4 (Z.lor (cr4 s) CR4_PSE) s in
  pg ← read_word s mem (start - 12);
  let s := set_cr3 pg s in
  let s := set_cr0 (Z.lor (cr0 s) (Z.lor (Z.lor CR0_PE CR0_PG) CR0_WP)) s in
  sp ← read_word s mem (start - 4);
  f ← read_word s mem (start - 8);
  Some (set_eip f (set_esp (u32 (sp - 4)) s)).

(** * Starting the other CPUs (src/main.c) *)

(** The allocator, physical memory below it, the bytes copied to 0x7000, the
    local APIC, and the CPUs that have been started, each with the state in
    which it calls [mpenter]. *)
Record aps := Aps { ap_k : kstate; ap_mem : Z → Z; ap_code : list Z; ap_bus : bus; ap_up : list (Z * sys) }.
Definition set_apk v s := Aps v (ap_mem s) (ap_code s) (ap_bus s) (ap_up s).
Definition set_apmem v s := Aps (ap_k s) v (ap_code s) (ap_bus s) (ap_up s).
Definition set_apcode v s := Aps (ap_k s) (ap_mem s) v (ap_bus s) (ap_up s).
Definition set_apbus v s := Aps (ap_k s) (ap_mem s) (ap_code s) v (ap_up s).
Definition set_apup v s := Aps (ap_k s) (ap_mem s) (ap_code s) (ap_bus s) v.
Definition on_apk {A} : M kstate A → M aps A := zoom ap_k set_apk.
Definition on_apbus {A} : M bus A → M aps A := zoom ap_bus set_apbus.

(** The CPU that the last startup message is for, and where it starts. *)
Fixpoint last_write (r : Z) (b : bus) : option Z :=
  match b with
  | [] => None
  | Devices.Write (Lapic i) v :: b' => if bool_decide (i = r) then Some v else last_write r b'
  | _ :: b' => last_write r b'
  end.
Definition startup_message (b : bus) : option (Z * Z) :=
  hi ← last_write ICRHI b; lo ← last_write ICRLO b;
  if bool_decide (Z.land lo 1792 = STARTUP) then Some (Z.shiftr hi 24, 4096 * (lo mod 256)) else None.

Section startothers.
Context (dev : bus → place → Z).
(** The addresses of [entrypgdir], [mpenter] and [start32], the linked bytes
    of src/entryother.S, and the state of a CPU after reset. *)
Context (pgdir mpenter start32 : Z) (image : list Z) (reset : sys).

Definition code : Z := P2V 28672.
(** A store to the memory below the allocator. *)
Definition store_low (va v : Z) : M aps unit := modify (λ s, set_apmem (λ x, if bool_decide (x = V2P va) then v else ap_mem s x) s).

(** What the hardware does with the message; [startothers] then waits for
    [c->started], which the CPU sets in [mpmain]. *)
Definition ap_boot : M aps unit :=
  s ← get;
  match startup_message (ap_bus s) with
  | Some (id, start) =>
      match entryother start start32 (ap_mem s) reset with
      | Some a => modify (set_apup (ap_up s ++ [(id, a)]))
      | None => spin
      end
  | None => spin
  end.

Definition start_one (apicid : Z) : M aps unit :=
  stack ← on_apk kalloc;
  store_low (code - 4) (u32 (stack + KSTACKSIZE));;
  store_low (code - 8) mpenter;;
  store_low (code - 12) (V2P pgdir);;
  on_apbus (lapicstartap dev apicid (V2P code));;
  ap_boot.

(** [cpus]: the [apicid]s; [me]: the index of the CPU that runs this. *)
Definition startothers (cpus : list Z) (me : nat) : M aps unit :=
  modify (set_apcode image);;
  foreach (zip (seq 0 (length cpus)) cpus) (λ '(i, id), if bool_decide (i = me) then mret tt else start_one id).
End startothers.

(** * The page tables of the start *)

Definition pgdir_at (mem : Z → Z) (pa : Z) : Prop := ∀ i, (i < NPDENTRIES)%nat → mem (pa + 4 * Z.of_nat i) = entrypgdir i.
(** The processor runs with [entrypgdir], and segments do nothing. *)
Definition runs_low (s : sys) (mem : Z → Z) : Prop :=
  (∀ va, 0 ≤ va < 4294967296 → translate s mem va =
     if bool_decide (va < 4194304) then Some va
     else if bool_decide (KERNBASE ≤ va < KERNBASE + 4194304) then Some (va - KERNBASE) else None).
Definition flat (s : sys) : Prop := ∀ sel off, sel ∈ [r_cs s; r_ds s; r_es s; r_ss s] → 0 ≤ off < 4294967296 → linear s sel off = Some off.

Lemma lor_bit x y n : Z.testbit y n = true → Z.testbit (Z.lor x y) n = true.
Proof. intros H. by rewrite Z.lor_spec, H, orb_true_r. Qed.

Lemma entry_translate s mem pa :
  Z.testbit (cr0 s) 31 = true → Z.testbit (cr4 s) 4 = true → cr3 s = pa → pa mod 4096 = 0 → pgdir_at mem pa → runs_low s mem.
Proof.
  intros H0 H4 H3 Hpa Hpg va Hva. unfold translate. rewrite H0, H4, H3. cbv zeta.
  assert (pa / 4096 * 4096 + 4 * (va / 4194304) = pa + 4 * Z.of_nat (Z.to_nat (va / 4194304))) as -> by (Z.div_mod_to_equations; lia).
  rewrite !Hpg by (unfold NPDENTRIES; Z.div_mod_to_equations; lia). unfold entrypgdir. change (Z.to_nat (Z.shiftr KERNBASE 22)) with 512%nat.
  change (Z.lor (Z.lor (Z.lor 0 PTE_P) PTE_W) PTE_PS) with 131. unfold KERNBASE. destruct (decide (va < 4194304)) as [Hlow|Hlow].
  - rewrite (bool_decide_true (Z.to_nat _ = 0%nat)), bool_decide_true by (Z.div_mod_to_equations; lia).
    change (Z.testbit 131 0) with true. change (Z.testbit 131 7) with true. cbn [negb andb]. f_equal. change (131 / 4194304) with 0. Z.div_mod_to_equations. lia.
  - rewrite (bool_decide_false (Z.to_nat _ = 0%nat)), (bool_decide_false (va < _)) by (Z.div_mod_to_equations; lia).
    destruct (decide (2147483648 ≤ va < 2147483648 + 4194304)) as [Hk|Hk].
    + rewrite !bool_decide_true by (Z.div_mod_to_equations; lia). change (Z.testbit 131 0) with true. change (Z.testbit 131 7) with true. cbn [negb andb]. f_equal. change (131 / 4194304) with 0. Z.div_mod_to_equations. lia.
    + rewrite !bool_decide_false by (Z.div_mod_to_equations; lia). done.
Qed.

Lemma boot_gdt_flat s : Z.testbit (cr0 s) 0 = true → gdtr s = boot_gdt → r_cs s = 8 → r_ds s = 16 → r_es s = 16 → r_ss s = 16 → flat s.
Proof.
  intros H0 Hg H1 H2 H3 H4 sel off Hsel Ho. rewrite H1, H2, H3, H4 in Hsel. unfold linear. rewrite H0, Hg.
  assert (∀ d, d = SEG_ASM (Z.lor STA_X STA_R) 0 4294967295 ∨ d = SEG_ASM STA_W 0 4294967295 → seg_present d = true ∧ seg_limit d = 4294967295 ∧ seg_base d = 0) as Hd
    by (intros d [->| ->]; by vm_compute).
  assert (∃ d, boot_gdt !! Z.to_nat (sel / 8) = Some d ∧ (d = SEG_ASM (Z.lor STA_X STA_R) 0 4294967295 ∨ d = SEG_ASM STA_W 0 4294967295)) as (d & -> & Hdd).
  { rewrite !elem_of_cons, elem_of_nil in Hsel. destruct Hsel as [->|[->|[->|[->|[]]]]]; eexists; (split; [reflexivity|]); [by left|by right..]. }
  destruct (Hd d Hdd) as (E1 & E2 & E3). cbn [mbind option_bind]. rewrite E1, E2, E3, bool_decide_true by lia. cbn [andb]. by rewrite Z.add_0_l, u32_small by lia.
Qed.

(** * The boot CPU *)

Lemma seta20_ready busy b rest : Forall (λ x, Z.land x 2 ≠ 0) busy → Z.land b 2 = 0 → seta20_wait (busy ++ b :: rest) = Some rest.
Proof.
  intros H Hb. induction H as [|x busy Hx _ IH]; cbn; [by rewrite bool_decide_true|by rewrite bool_decide_false].
Qed.

(** From the first instruction of the boot sector to [bootmain], and from
    [entry] to [main].  If the keyboard controller is ready after finitely many
    reads, src/bootasm.S calls [bootmain] in protected mode with
    interrupts off, the stack below its own code and segments that leave all
    addresses as they are.  From such a state, with [entrypgdir] in memory,
    src/entry.S jumps to [main] on the kernel's own stack, and the addresses
    below 4 megabytes, where it runs, and those from [KERNBASE] on, where
    [main] is, are both mapped to the first 4 megabytes of memory. *)
Theorem boot_to_main start start32 bootmain busy1 b1 busy2 b2 rest s mem pgdir stack main :
  Forall (λ x, Z.land x 2 ≠ 0) busy1 → Z.land b1 2 = 0 → Forall (λ x, Z.land x 2 ≠ 0) busy2 → Z.land b2 2 = 0 →
  V2P pgdir mod 4096 = 0 → pgdir_at mem (V2P pgdir) →
  ∃ s1, bootasm start start32 bootmain (busy1 ++ b1 :: busy2 ++ b2 :: rest) s = Some (s1, [(100, 209); (96, 223)]) ∧
    r_eip s1 = bootmain ∧ r_esp s1 = start - 4 ∧ r_if s1 = false ∧ flat s1 ∧
    ∀ s2, flat s2 → let s3 := entry pgdir stack main s2 in
      r_eip s3 = main ∧ r_esp s3 = stack + KSTACKSIZE ∧ runs_low s3 mem ∧ r_if s3 = r_if s2 ∧
      (Z.testbit (cr0 s2) 0 = true → flat s3).
Proof.
  intros H1 H2 H3 H4 Hal Hpg. unfold bootasm. rewrite (seta20_ready _ _ _ H1 H2). cbn [mbind option_bind].
  rewrite (seta20_ready _ _ _ H3 H4). cbn [mbind option_bind]. eexists. split; [reflexivity|]. do 3 (split; [done|]). split.
  - apply boot_gdt_flat; try done. by apply lor_bit.
  - intros s2 Hf. set (s3 := entry pgdir stack main s2). do 2 (split; [done|]). split; [|split; [done|]].
    + apply (entry_translate s3 mem (V2P pgdir)); [by apply lor_bit|by apply lor_bit|done..].
    + intros H0 sel off Hs Ho. rewrite <- (Hf sel off Hs Ho). unfold linear, s3, entry. cbn [cr0 set_eip set_esp set_cr0 set_cr3 set_cr4 gdtr].
      by rewrite Z.lor_spec, H0.
Qed.

(** * The other CPUs *)

Section others.
Context {KI : KernelImage} {KO : KernelImageOk KI} (dev : bus → place → Z).
Context (pgdir mpenter start32 : Z) (image : list Z) (reset : sys).
Hypothesis Hreset : Z.testbit (cr0 reset) 31 = false.
Hypothesis Hpgdir : KERNBASE + 1048576 ≤ pgdir ∧ pgdir + 4096 ≤ KERNBASE + 4194304 ∧ pgdir mod 4096 = 0.

Lemma V2P_pgdir : V2P pgdir = pgdir - KERNBASE.
Proof. unfold V2P. apply u32_small. unfold KERNBASE in *. lia. Qed.

Lemma entryother_run mem sp :
  pgdir_at mem (V2P pgdir) → mem 28668 = sp → mem 28664 = mpenter → mem 28660 = V2P pgdir →
  ∃ a, entryother 28672 start32 mem reset = Some a ∧ r_eip a = mpenter ∧ r_esp a = u32 (sp - 4) ∧ flat a ∧ runs_low a mem ∧ r_if a = false ∧
    ∀ mem', pgdir_at mem' (V2P pgdir) → runs_low a mem'.
Proof.
  intros Hpg Hsp Hf Hp. unfold entryother. cbv zeta. set (s0 := set_cr4 _ _).
  assert (flat s0) as Hflat0 by (apply boot_gdt_flat; [by apply lor_bit|done..]).
  assert (∀ off, 0 ≤ off < 4294967296 → linear s0 (r_ds s0) off = Some off) as Hl0 by (intros off Ho; apply Hflat0; [set_solver|done]).
  assert (Z.testbit (cr0 s0) 31 = false) as Hpe by (unfold s0; cbn [cr0 set_cr4 load_segs set_segs protect set_eip set_cr0 set_gdtr start16 cli]; by rewrite Z.lor_spec, Hreset).
  assert (read_word s0 mem (28672 - 12) = Some (V2P pgdir)) as ->.
  { unfold read_word, translate. rewrite Hl0 by lia. rewrite Hpe. cbn [mbind option_bind]. by rewrite <- Hp. }
  cbn [mbind option_bind]. set (s1 := set_cr0 _ _).
  assert (V2P pgdir mod 4096 = 0) as Hal by (rewrite V2P_pgdir; unfold KERNBASE in *; destruct Hpgdir as (? & ? & ?); Z.div_mod_to_equations; lia).
  assert (∀ mem', pgdir_at mem' (V2P pgdir) → runs_low s1 mem') as Hlow by (intros mem' Hm; apply (entry_translate s1 mem' (V2P pgdir)); [by apply lor_bit|by apply lor_bit|done..]).
  assert (flat s1) as Hflat1 by (apply boot_gdt_flat; [by apply lor_bit|done..]).
  assert (∀ off, 0 ≤ off < 4194304 → read_word s1 mem off = Some (mem off)) as Hrd.
  { intros off Ho. unfold read_word. rewrite (Hflat1 (r_ds s1) off) by (set_solver || lia). cbn [mbind option_bind].
    rewrite (Hlow mem Hpg off) by lia. by rewrite bool_decide_true by lia. }
  change (28672 - 4) with 28668. change (28672 - 8) with 28664. rewrite !Hrd by lia. cbn [mbind option_bind].
  rewrite Hsp, Hf. eexists. split; [reflexivity|]. split_and!; try done. by apply Hlow.
Qed.

Lemma startap_message id b w b' t :
  0 ≤ id < 256 → lapicstartap dev id (V2P code) b = Ret w b' t → t = [] ∧ startup_message b' = Some (id, 28672).
Proof.
  intros Hid. unfold lapicstartap, lapicw, wr, rd, outb. cbn. unfold wr, modify, get, mret, mbind, M_bind, M_ret. cbn. intros [= _ <- <-]. split; [done|].
  unfold startup_message. cbn [last_write]. change (bool_decide (ICRLO = ICRHI)) with false. change (bool_decide (ICRHI = ICRHI)) with true.
  change (bool_decide (ICRLO = ICRLO)) with true. cbn [mbind option_bind].
  change (bool_decide (Z.land (u32 (Z.lor STARTUP (Z.shiftr (V2P code) 12))) 1792 = STARTUP)) with true.
  change (4096 * (u32 (Z.lor STARTUP (Z.shiftr (V2P code) 12)) mod 256)) with 28672. cbv iota. do 2 f_equal.
  unfold u32. rewrite Z.shiftl_mul_pow2, Z.shiftr_div_pow2 by lia. change (2 ^ 24) with 16777216. Z.div_mod_to_equations. lia.
Qed.
Lemma startap_runs id addr b : ∃ w b', lapicstartap dev id addr b = Ret w b' [].
Proof. eexists _, _. reflexivity. Qed.

(** A started CPU: it calls [mpenter] on the stack page [u]. *)
Definition started_on (id u : Z) (p : Z * sys) : Prop :=
  p.1 = id ∧ r_eip p.2 = mpenter ∧ r_esp p.2 = u + KSTACKSIZE - 4 ∧ flat p.2 ∧ r_if p.2 = false ∧
  ∀ mem, pgdir_at mem (V2P pgdir) → runs_low p.2 mem.

Lemma start_one_run id s u l :
  0 ≤ id < 256 → kalloc_inv (ap_k s) (u :: l) → pgdir_at (ap_mem s) (V2P pgdir) →
  ∃ s' a, start_one dev pgdir mpenter start32 reset id s = Ret tt s' [] ∧ kalloc_inv (ap_k s') l ∧ pgdir_at (ap_mem s') (V2P pgdir) ∧
    ap_up s' = ap_up s ++ [a] ∧ started_on id u a ∧ ap_code s' = ap_code s.
Proof.
  intros Hid Hk Hpg. destruct (kalloc_pop _ _ _ Hk) as (Hu & _ & k' & E & Hk' & _). pose proof (allocatable_pos u Hu) as Hpos.
  unfold start_one. erewrite bind_run by (apply zoom_run; exact E). rewrite prepend_nil. do 3 (erewrite bind_run by reflexivity; rewrite prepend_nil).
  set (s1 := set_apmem _ _). destruct (startap_runs id (V2P code) (ap_bus s1)) as (w & b' & Eb).
  erewrite bind_run by (apply zoom_run; exact Eb). rewrite prepend_nil. destruct (startap_message id _ w b' [] Hid Eb) as [_ Em].
  assert (pgdir_at (ap_mem s1) (V2P pgdir)) as Hpg1.
  { intros i Hi. rewrite <- Hpg by done. rewrite V2P_pgdir. unfold s1. cbn [ap_mem set_apmem set_apk].
    change (V2P (code - 4)) with 28668. change (V2P (code - 8)) with 28664. change (V2P (code - 12)) with 28660.
    unfold NPDENTRIES, KERNBASE in *. rewrite !bool_decide_false by lia. done. }
  destruct (entryother_run (ap_mem s1) (u32 (u + KSTACKSIZE)) Hpg1 eq_refl eq_refl eq_refl) as (a & Ea & A1 & A2 & A3 & A4 & A5 & A6).
  unfold ap_boot. rewrite bind_get. cbn [ap_bus set_apbus ap_mem]. rewrite Em.
  change (ap_mem (set_apbus b' s1)) with (ap_mem s1). rewrite Ea. eexists _, (id, a). split; [reflexivity|]. split_and!; try done.
  unfold started_on. cbn [fst snd]. split_and!; try done. rewrite A2. unfold KSTACKSIZE, allocatable, KERNBASE, PHYSTOP, PGSIZE in *.
  rewrite (u32_small (u + 4096)) by lia. apply u32_small. lia.
Qed.

Lemma startothers_loop me pairs s l :
  let ids := (filter (λ p : nat * Z, p.1 ≠ me) pairs).*2 in
  Forall (λ id, 0 ≤ id < 256) pairs.*2 → kalloc_inv (ap_k s) l → pgdir_at (ap_mem s) (V2P pgdir) → (length ids ≤ length l)%nat →
  ∃ s' ups, foreach pairs (λ '(i, id), if bool_decide (i = me) then mret tt else start_one dev pgdir mpenter start32 reset id) s = Ret tt s' [] ∧
    kalloc_inv (ap_k s') (drop (length ids) l) ∧ pgdir_at (ap_mem s') (V2P pgdir) ∧ ap_code s' = ap_code s ∧
    ap_up s' = ap_up s ++ ups ∧ Forall2 (λ p a, started_on p.1 p.2 a) (zip ids (take (length ids) l)) ups.
Proof.
  revert s l. induction pairs as [|[i id] pairs IH]; intros s l ids Hids Hk Hpg Hlen.
  { exists s, []. split_and!; try done. by rewrite app_nil_r. }
  apply Forall_cons in Hids as [Hid Hids]. cbn [foreach fst snd]. unfold ids in *. rewrite filter_cons in *. cbn [fst] in *. destruct (decide (i ≠ me)) as [Hne|He].
  - cbn [fmap list_fmap length snd] in Hlen |- *. destruct l as [|u l]; [cbn in Hlen; lia|].
    destruct (start_one_run id s u l Hid Hk Hpg) as (s1 & a & E & Hk1 & Hpg1 & Hup & Ha & Hc).
    destruct (IH s1 l Hids Hk1 Hpg1) as (s2 & ups & E2 & H1 & H2 & H3 & H4 & H5); [cbn in Hlen; lia|].
    exists s2, (a :: ups). split_and!; [|done|done|by rewrite H3|by rewrite H4, Hup, <- app_assoc|by constructor].
    rewrite bool_decide_false by done. by erewrite bind_run by exact E; rewrite prepend_nil.
  - rewrite bool_decide_true by (destruct (decide (i = me)); [done|by exfalso; apply He]). rewrite bind_mret. by apply IH.
Qed.

Lemma others_delete {A} (l : list A) (me k : nat) :
  (k ≤ me)%nat → (filter (λ p : nat * A, p.1 ≠ me) (zip (seq k (length l)) l)).*2 = delete (me - k)%nat l.
Proof.
  revert k. induction l as [|x l IH]; intros k Hk; [done|]. cbn [length seq zip zip_with]. rewrite filter_cons. cbn [fst]. destruct (decide (k ≠ me)) as [Hne|He].
  - cbn [fmap list_fmap snd]. replace (me - k)%nat with (S (me - S k))%nat by lia. cbn [delete list_delete]. f_equal. apply IH. lia.
  - assert (k = me) as -> by lia. rewrite Nat.sub_diag. cbn [delete list_delete]. clear.
    assert (∀ j, (me < j)%nat → (filter (λ p : nat * A, p.1 ≠ me) (zip (seq j (length l)) l)).*2 = l) as H; [|apply H; lia].
    induction l as [|x l IH]; intros j Hj; [done|]. cbn [length seq zip zip_with]. rewrite filter_cons_True by (cbn; lia). cbn. f_equal. apply IH. lia.
Qed.

End others.

(** * Examples *)

(** A kernel that ends three pages below 4 megabytes, after [kinit1]. *)
Definition low_base : Z := KERNBASE + 4194304 - 12288.
Definition low_image : KernelImage := image_to low_base.
Lemma low_image_ok : KernelImageOk low_image.
Proof. split; by vm_compute. Qed.
Lemma low_free : ∃ k l, kinit1 (KI := low_image) low_base (P2V 4194304) (cleared_from low_base) = Ret tt k [] ∧
  kalloc_inv (KI := low_image) k l ∧ length l = 3%nat ∧ Forall (λ u, u + PGSIZE ≤ KERNBASE + 4194304) l.
Proof.
  destruct (freerange_run (KI := low_image) (KO := low_image_ok) low_base (KERNBASE + 4194304) [] (cleared_from low_base)) as (k & E & Hk & _);
    [by apply cleared_inv|by vm_compute..|set_solver|].
  exists k, (rev (range_pages low_base (KERNBASE + 4194304))). rewrite app_nil_r in Hk. split; [|split; [exact Hk|split; [by vm_compute|]]].
  { change (P2V 4194304) with (KERNBASE + 4194304). unfold kinit1. erewrite bind_run by reflexivity. rewrite prepend_nil.
    erewrite bind_run by reflexivity. rewrite prepend_nil. change (set_use_lock _ _) with (cleared_from low_base). exact E. }
  apply Forall_forall. intros u Hu%list_elem_of_In%in_rev%list_elem_of_In.
  apply range_pages_elem in Hu as (_ & _ & Hu); [exact Hu|clear; unfold low_base, KERNBASE; lia].
Qed.

Definition ex_reset : sys := Sys 1610612752 0 0 [] 1792 0 0 0 0 0 0 0 false.
(** Memory that holds [entrypgdir] at 2 megabytes. *)
Definition ex_pgdir_mem : Z → Z := λ x, if bool_decide (2097152 ≤ x < 2101248) then entrypgdir (Z.to_nat ((x - 2097152) / 4)) else 0.
Lemma ex_pgdir_at : pgdir_at ex_pgdir_mem (V2P (KERNBASE + 2097152)).
Proof.
  intros i Hi. change (V2P (KERNBASE + 2097152)) with 2097152. unfold ex_pgdir_mem, NPDENTRIES in *. rewrite bool_decide_true by lia.
  f_equal. Z.div_mod_to_equations. lia.
Qed.

